(* ===== verification/_CoqProject ===== *)
-Q . S2P
Prelude.v
Mmu.v
Spinlock.v
CpuLocks.v
Proc.v
RunQueue.v
Sched.v
Reprio.v
Machine.v
CString.v
Kernel.v
Kalloc.v
Vm.v
Uvm.v
CopyUvm.v
Pipe.v
Sleeplock.v
Block.v
Bio.v
Ide.v
Log.v
Trans.v
Tx.v
Fs.v
Balloc.v
Files.v
Image.v
Content.v
Trunc.v
User.v
Console.v
Fault.v
Life.v
Args.v
Cmos.v
Sysproc.v
File.v
Sysfile.v
Fds.v
Link.v
Exec.v
ExecStack.v
Loader.v
Trap.v
Grep.v
Umalloc.v
Utils.v
Sh.v
