(* ===== verification/Prelude.v ===== *)
(** * A verification of the xv6-nbs kernel and its user programs

    The program is a small Unix for x86 multiprocessors, in C: a fork of xv6
    with ten priority queues in the scheduler, pages that [sbrk] allocates
    lazily, exit statuses, and the calls dup2, date, phmem, getprio and setprio.
    The definitions follow the source function by function and keep its names;
    32-bit integers are [Z] with their wrap-around written out ([uint], [sint],
    [uchar]), a pointer to an entry of a table is its index, a pointer into
    memory is its address.

    ** How code is modelled

    Kernel code is a function in the monad [M S] of this file: from a state it
    gives an [outcome], which is a result, a panic, undefined behaviour of C, a
    wait without end, or a sleep with the state left to other processes and the
    continuation.  Theorems on code that may sleep quantify over what the others
    do meanwhile ([safe], [orderly], [exits]): they constrain the state at every
    sleep and assume only what the others promise.  Components are written
    against interfaces, type classes of operations with their laws.  The laws of
    [LockOps] (spinlock.c), [ProcOps] (sleep and wakeup), [ByteMem] (memory),
    [BlockOps] (buffer cache), [LogOps] (log) and [PrintOps] (cprintf), that is
    [LockLaws], [ProcLaws], [WakeLaws], [BlockLaws], [TxLaws] and [PrintLaws], are
    proved by the file that implements them.  The laws of the interfaces above the
    file system are assumptions on fs.c, log.c, file.c and pipe.c, as the comments
    of these files document their use: [DupLaws] (filedup and idup, for fork),
    [FsLaws] and [FileLaws] (the order of calls, and who owns which reference, for
    the system calls on files and exit), [LoadLaws] (paths and contents, for exec).
    Small models are shown to satisfy them, so that they can hold, but not the
    functions of Fs.v, whose own theorems are about one client on a quiet system.
    [PortLaws] is what ide.c needs of a disk controller; [RtcOps] and [IrqOps] have
    no laws.  User programs are trees of system calls (User.v), run on any system
    that answers the calls.

    ** The files

    Processors, locks and processes
    - Spinlock.v: spinlock.c, mycpu; an interleaving semantics of acquire and
      release with mutual exclusion.  CpuLocks.v: the locks a CPU holds, as
      the rest of the kernel sees them.
    - Proc.v: the process table, the queues and everything of proc.c that runs
      under ptable.lock, with sched and scheduler; RunQueue.v, Sched.v, Reprio.v:
      what each operation does to the ten queues as lists.
    - Machine.v: CPUs and kernel threads as a transition system, and its
      refinement of an abstract FIFO scheduler: strict priority, round robin,
      no lost wakeup; two defects of setNewPrio and getProcbyPID.
    - Kernel.v: the interfaces of locks and scheduler with their instances.
      Sleeplock.v: sleeplock.c.  Pipe.v: pipe.c, a bounded queue of bytes.
    - Life.v: allocproc, userinit, growproc, fork, exit, wait, forkret.
    - Trap.v: syscall.c's dispatch and trap.c.  Args.v: argint and its kin.
      Sysproc.v: sysproc.c.  Cmos.v: the date of lapic.c.

    Memory
    - Mmu.v, CString.v: mmu.h, memlayout.h, string.c.  Kalloc.v: kalloc.c, with
      the free list threaded through the pages.
    - Vm.v, Uvm.v, CopyUvm.v: vm.c; page directories and tables are words in the
      allocator's memory, and [aspace] says which pages belong to an address
      space.  Fault.v: the page fault case of trap.c, and the accesses of the
      kernel to user memory, which go through it.
    - Exec.v: exec.c, loaduvm and sys_exec.  ExecStack.v: the stack of a new
      program and the switch to it; Loader.v: the image that an ELF file
      describes, and that exec builds it or changes nothing.

    Disk and files
    - Block.v, Bio.v: buf.h, bio.c and memide.c.  Ide.v: ide.c, the driver of a
      disk that is reached by its ports, and that it does what memide.c does.
      Log.v: commit and recovery of
      log.c, with crashes between any two disk writes; Trans.v: begin_op,
      log_write and end_op; Tx.v: what a transaction promises to fs.c.
    - Fs.v: fs.c.  Balloc.v, Files.v, Content.v, Trunc.v: the free map, the
      blocks of a file, its contents and their removal; Image.v: a small disk,
      on which the theorems are applied.  Link.v: the deadlock of a link to [.].
    - File.v: file.c and pipealloc.  Sysfile.v: sysfile.c.  Fds.v: descriptors,
      the counts of open files, and what the calls and exit give back.
    - Console.v: console.c, kbd.c, uart.c and procdump.

    User programs
    - User.v: ulib.c, printf.c.  Grep.v, Utils.v, Sh.v: the programs.  Umalloc.v:
      umalloc.c.

    ** What the theorems show

    Refinements of an abstract specification: the machine and the FIFO scheduler,
    the allocator and a pair of sets of pages, the buffer cache and two arrays of
    blocks, the disk driver and a disk that answers at once, exec and the image
    that a file describes, transactions and atomic updates of the disk, pipes and queues, the
    console and a line editor.  Safety under interleaving: mutual exclusion,
    crash atomicity, isolation of address spaces, reference counts of open files
    over all processes in dup, dup2, close, open and exit, balance of locks,
    references and transactions in the system calls on paths, and that a killed process never gets back to its
    program.  Functional behaviour on every branch: fork, exit, wait, exec, sbrk,
    page faults, writei, itrunc, allocuvm, copyout, arguments of system calls, the
    parser of the shell, the matcher of grep, malloc.  Errors that the code
    really has are theorems too: they say exactly what goes wrong and when.

    ** Fuel

    Loops that are not structural take fuel.  A loop over a range gets its
    length, so fuel cannot run out, and the theorems state results, not only what
    holds of results.  A loop that sleeps counts wakeups: theorems hold for every
    number of them, and say that the code is asleep until then, for the reason
    given.  [cmostime] is shown to return when the clock comes to rest within the
    fuel.  The wait for the disk is as long as its controller
    says.  Parser and matcher of the user programs have bounds in the length of
    their input that are proved to be enough.

    ** Not modelled

    - Assembly (bootasm.S, entry.S, entryother.S, initcode.S, swtch.S,
      trapasm.S, vectors.S) and bootmain.c: register and mode changes.  The
      switch of contexts is the outcome that gives the state away.
    - main.c, seginit, kvmalloc, tvinit, idtinit, uartinit: they run once at
      boot and load registers and descriptor tables.
    - lapic.c but for the date, ioapic.c, picirq.c, mp.c: device registers and
      BIOS tables.
    - The cache of Bio.v runs over memide.c; Ide.v shows that ide.c serves its
      requests in the same way, but the sleep in the middle of a disk access is
      not carried up into the theorems on the log and the file system.
    - mkfs.c, a program of the host; usertests.c and the other test programs.
    - The printing of panic, getcallerpcs, and the access flags that the
      hardware sets in page tables. *)
From stdpp Require Import base list gmap strings.
From Stdlib Require Import ZArith Lia Permutation.

(** ** Outcomes of kernel code

    A piece of kernel code run from a state [S]
    - returns a value in a new state ([Ret]),
    - calls [panic] ([Panic], console.c),
    - does something C leaves undefined, such as following a null pointer or
      indexing past an array ([Fault]),
    - spins for ever, on a lock that its own CPU will not get ([Spin]),
    - goes to sleep on a channel ([Block]): the state is the one it leaves to
      the other processes, and the continuation says how it goes on from the
      state it finds when it is woken,
    - is still asleep when the number of wakeups followed is used up
      ([Asleep]). *)
Inductive outcome (S A : Type) : Type :=
| Ret (a : A) (s : S)
| Panic (msg : string)
| Fault
| Spin
| Block (chan : Z) (s : S) (k : S → outcome S A)
| Asleep (chan : Z) (s : S).
Arguments Ret {S A} a s.
Arguments Panic {S A} msg.
Arguments Fault {S A}.
Arguments Spin {S A}.
Arguments Block {S A} chan s k.
Arguments Asleep {S A} chan s.

Definition M (S A : Type) : Type := S → outcome S A.

Fixpoint obind {S A B} (o : outcome S A) (f : A → M S B) : outcome S B :=
  match o with
  | Ret a s => f a s
  | Panic msg => Panic msg
  | Fault => Fault
  | Spin => Spin
  | Block c s k => Block c s (λ s', obind (k s') f)
  | Asleep c s => Asleep c s
  end.

Definition ret {S A} (a : A) : M S A := λ s, Ret a s.
Definition bind {S A B} (m : M S A) (f : A → M S B) : M S B := λ s, obind (m s) f.
Definition get {S} : M S S := λ s, Ret s s.
Definition gets {S A} (f : S → A) : M S A := λ s, Ret (f s) s.
Definition modify {S} (f : S → S) : M S () := λ s, Ret () (f s).
Definition panic {S A} (msg : string) : M S A := λ _, Panic msg.
Definition fault {S A} : M S A := λ _, Fault.
(** Following a pointer that the code has not checked against 0. *)
Definition deref {S A} (p : option A) : M S A := λ s,
  match p with Some a => Ret a s | None => Fault end.

(** Code whose wakeup is not followed: where it sleeps. *)
Definition park {S A B} (m : M S A) : M S B := λ s,
  match m s with
  | Ret _ s' => Asleep 0 s'
  | Block c s' _ | Asleep c s' => Asleep c s'
  | Panic msg => Panic msg
  | Fault => Fault
  | Spin => Spin
  end.

Declare Scope xv6_scope.
Delimit Scope xv6_scope with xv6.
Notation "'let!' x := m 'in' k" := (bind m (λ x, k))
  (at level 10, x pattern, m at level 100, k at level 200) : xv6_scope.
Notation "m ;;; k" := (bind m (λ _, k))
  (at level 100, k at level 200, right associativity) : xv6_scope.
Open Scope xv6_scope.

(** [n] iterations of a loop body over a counter that starts at [i]; the body
    says whether the loop is left ([inr]) or goes on with a new accumulator
    ([inl]). *)
Fixpoint for_loop {S A B} (n : nat) (i : nat) (a : A) (body : nat → A → M S (A + B)) : M S (A + B) :=
  match n with
  | O => ret (inl a)
  | Datatypes.S n' =>
      let! r := body i a in
      match r with
      | inl a' => for_loop n' (Datatypes.S i) a' body
      | inr b => ret (inr b)
      end
  end.

(** ** Components inside a larger state *)
Record lens (S T : Type) : Type := Lens { lget : S → T; lset : T → S → S }.
Arguments Lens {S T} lget lset.
Arguments lget {S T} l s.
Arguments lset {S T} l t s.

Class LensLaws {S T} (l : lens S T) : Prop := {
  lget_lset t s : lget l (lset l t s) = t;
  lset_lset t t' s : lset l t (lset l t' s) = lset l t s }.

Fixpoint ozoom {S T A} (l : lens S T) (s : S) (o : outcome T A) : outcome S A :=
  match o with
  | Ret a t => Ret a (lset l t s)
  | Panic msg => Panic msg
  | Fault => Fault
  | Spin => Spin
  | Block c t k => Block c (lset l t s) (λ s', ozoom l s' (k (lget l s')))
  | Asleep c t => Asleep c (lset l t s)
  end.
Definition zoom {S T A} (l : lens S T) (m : M T A) : M S A := λ s, ozoom l s (m (lget l s)).

(** ** Reasoning about code that sleeps

    [safe I R Q o]: the code neither panics, faults nor spins; whenever it
    sleeps it leaves a state in [I]; and if every state it is woken in is again
    in [I], and related by [R] to the state it went to sleep in, then what it
    returns satisfies [Q]. *)
Fixpoint safe {S A} (I : S → Prop) (R : S → S → Prop) (Q : A → S → Prop) (o : outcome S A) : Prop :=
  match o with
  | Ret a s => Q a s
  | Panic _ | Fault | Spin => False
  | Block _ s k => I s ∧ ∀ s', I s' → R s s' → safe I R Q (k s')
  | Asleep _ s => I s
  end.

Lemma safe_mono {S A} (I : S → Prop) R (Q Q' : A → S → Prop) (o : outcome S A) :
  safe I R Q o → (∀ a s, Q a s → Q' a s) → safe I R Q' o.
Proof.
  intros H HQ; induction o as [| | | |c s k IH|]; simpl in *; auto.
  destruct H as [HI Hk]; eauto.
Qed.

Lemma safe_bind {S A B} (I : S → Prop) R (Q : A → S → Prop) (Q' : B → S → Prop)
    (m : M S A) (f : A → M S B) s :
  safe I R Q (m s) → (∀ a s', Q a s' → safe I R Q' (f a s')) → safe I R Q' (bind m f s).
Proof.
  unfold bind; generalize (m s) as o; clear m s.
  intros o H Hf; induction o as [| | | |c s k IH|]; simpl in *; auto.
  destruct H as [HI Hk]; eauto.
Qed.

Lemma bind_Ret {S A B} (m : M S A) (f : A → M S B) s a s' :
  m s = Ret a s' → bind m f s = f a s'.
Proof. unfold bind. by intros ->. Qed.

Lemma bind_Ret_inv {S A B} (m : M S A) (f : A → M S B) s b s'' :
  bind m f s = Ret b s'' → ∃ a s', m s = Ret a s' ∧ f a s' = Ret b s''.
Proof. unfold bind. destruct (m s); simpl; intros H; try discriminate; eauto. Qed.

Lemma bind_bind_Ret {S A B C} (m : M S A) (f : A → M S B) (g : B → M S C) s a s' :
  m s = Ret a s' → bind (bind m f) g s = bind (f a) g s'.
Proof. unfold bind. by intros ->. Qed.

Lemma bind_Fault {S A B} (m : M S A) (f : A → M S B) s : m s = Fault → bind m f s = Fault.
Proof. unfold bind. by intros ->. Qed.
Lemma bind_Panic {S A B} (m : M S A) (f : A → M S B) s msg : m s = Panic msg → bind m f s = Panic msg.
Proof. unfold bind. by intros ->. Qed.

Lemma obind_Block {S A B} c s (k : S → outcome S A) (f : A → M S B) (m : M S A) s0 :
  m s0 = Block c s k → bind m f s0 = Block c s (λ s', obind (k s') f).
Proof. unfold bind. by intros ->. Qed.

Lemma zoom_Ret {S T A} (l : lens S T) (m : M T A) s a t :
  m (lget l s) = Ret a t → zoom l m s = Ret a (lset l t s).
Proof. unfold zoom. by intros ->. Qed.

(** ** Machine integers *)
Definition two32 : Z := 4294967296.
(** [uint]: 32-bit unsigned wrap-around. *)
Definition uint (z : Z) : Z := z `mod` 4294967296.
(** [int]: the 32-bit two's complement value. *)
Definition sint (z : Z) : Z := (z + 2147483648) `mod` 4294967296 - 2147483648.
Definition ushort (z : Z) : Z := z `mod` 65536.
Definition sshort (z : Z) : Z := (z + 32768) `mod` 65536 - 32768.
Definition uchar (z : Z) : Z := z `mod` 256.
Definition is_uint (z : Z) : Prop := (0 ≤ z < 4294967296)%Z.
Definition is_uchar (z : Z) : Prop := (0 ≤ z < 256)%Z.

Ltac zmod := unfold uint, sint, ushort, sshort, uchar, is_uint, is_uchar, two32 in *;
  Z.to_euclidean_division_equations; lia.

Lemma uint_small z : is_uint z → uint z = z.
Proof. intros H; unfold uint; apply Z.mod_small; exact H. Qed.
Lemma uint_range z : is_uint (uint z).
Proof. apply Z.mod_pos_bound; lia. Qed.
Lemma uchar_range z : is_uchar (uchar z).
Proof. apply Z.mod_pos_bound; lia. Qed.
Lemma uchar_small z : is_uchar z → uchar z = z.
Proof. intros H; unfold uchar; apply Z.mod_small; exact H. Qed.
Lemma sint_uint z : sint (uint z) = sint z.
Proof. zmod. Qed.
Lemma uint_sint z : uint (sint z) = uint z.
Proof. zmod. Qed.
Lemma uint_add_l a b : uint (uint a + b) = uint (a + b).
Proof. unfold uint; apply Zplus_mod_idemp_l. Qed.
Lemma uint_add_r a b : uint (a + uint b) = uint (a + b).
Proof. unfold uint; apply Zplus_mod_idemp_r. Qed.
Lemma uint_sub_l a b : uint (uint a - b) = uint (a - b).
Proof. unfold uint; apply Zminus_mod_idemp_l. Qed.
Lemma uint_sub_r a b : uint (a - uint b) = uint (a - b).
Proof. unfold uint; apply Zminus_mod_idemp_r. Qed.

Create HintDb xv6.
Create Rewrite HintDb xv6_arith.
#[export] Hint Resolve uint_range uchar_range : xv6.
#[export] Hint Rewrite uint_add_l uint_add_r uint_sub_l uint_sub_r sint_uint uint_sint : xv6_arith.

(** ** Searching a table from its first entry *)
Fixpoint first_idx {A} (P : A → bool) (l : list A) : option nat :=
  match l with
  | [] => None
  | x :: l' => if P x then Some 0 else Datatypes.S <$> first_idx P l'
  end.

Lemma first_idx_fmap {A B} (f : A → B) (P : B → bool) l : first_idx P (f <$> l) = first_idx (λ x, P (f x)) l.
Proof. induction l as [|x l IH]; [done|]. rewrite fmap_cons. cbn [first_idx]. by rewrite IH. Qed.
Lemma first_idx_ext {A} (P Q : A → bool) l : (∀ x, P x = Q x) → first_idx P l = first_idx Q l.
Proof. intros H. induction l as [|x l IH]; [done|]. cbn [first_idx]. by rewrite H, IH. Qed.
Lemma first_idx_Some {A} (P : A → bool) l i :
  first_idx P l = Some i ↔
  (∃ x, l !! i = Some x ∧ P x = true) ∧ (∀ j x, j < i → l !! j = Some x → P x = false).
Proof.
  revert i; induction l as [|y l IH]; intros i; simpl.
  { split; [discriminate|]. intros [(x & Hx & _) _]. by rewrite lookup_nil in Hx. }
  destruct (P y) eqn:HP.
  - split.
    + intros [= <-]. split; [by exists y|]. intros j; lia.
    + intros [_ H]. destruct i as [|i]; [done|].
      specialize (H 0 y ltac:(lia) eq_refl). congruence.
  - destruct i as [|i]; simpl.
    + split.
      * intros H. by destruct (first_idx P l).
      * intros [(x & [= ->] & Hx) _]. congruence.
    + rewrite fmap_Some. split.
      * intros (j & Hj & [= ->]). apply IH in Hj as [(x & Hx & HPx) Hlt].
        split; [by exists x|]. intros [|j'] z Hz Hl; simpl in *; [congruence|].
        apply (Hlt j'); [lia|done].
      * intros [(x & Hx & HPx) Hlt]. exists i; split; [|done].
        apply IH; split; [by exists x|]. intros j z Hj. apply (Hlt (Datatypes.S j)); lia.
Qed.

Lemma first_idx_None {A} (P : A → bool) l :
  first_idx P l = None ↔ ∀ x, x ∈ l → P x = false.
Proof.
  induction l as [|y l IH]; simpl.
  { split; [intros _ x Hx; by apply not_elem_of_nil in Hx|done]. }
  destruct (P y) eqn:HP.
  - split; [discriminate|]. intros H. specialize (H y ltac:(left)). congruence.
  - rewrite fmap_None, IH. split.
    + intros H x [->|Hx]%elem_of_cons; auto.
    + intros H x Hx. apply H. by right.
Qed.

Lemma first_idx_lt {A} (P : A → bool) l i : first_idx P l = Some i → i < length l.
Proof. intros [(x & Hx & _) _]%first_idx_Some. by eapply lookup_lt_Some. Qed.

(** A check of every entry of a table, with its index. *)
Definition all_idx {A} (f : nat → A → bool) (l : list A) : bool :=
  forallb (λ i, match l !! i with Some x => f i x | None => true end) (seq 0 (length l)).

Lemma all_idx_spec {A} (f : nat → A → bool) l :
  all_idx f l = true ↔ ∀ i x, l !! i = Some x → f i x = true.
Proof.
  unfold all_idx. rewrite forallb_forall. split.
  - intros H i x Hi. specialize (H i). rewrite Hi in H. apply H, in_seq. apply lookup_lt_Some in Hi. lia.
  - intros H i _. destruct (l !! i) eqn:E; eauto.
Qed.

(** ** Updating one entry of a table *)
Lemma lookup_alter_list {A} (f : A → A) (l : list A) i j :
  alter f i l !! j = if decide (i = j) then f <$> l !! j else l !! j.
Proof. case_decide; subst; [apply list_lookup_alter_eq|by apply list_lookup_alter_ne]. Qed.

Lemma alter_ext_list {A} (f g : A → A) (l : list A) i :
  (∀ x, l !! i = Some x → f x = g x) → alter f i l = alter g i l.
Proof.
  intros H. apply list_eq; intros j. rewrite !lookup_alter_list.
  case_decide; subst; [|done]. destruct (l !! j) eqn:E; simpl; [|done]. by rewrite H.
Qed.

Lemma fmap_alter_same {A B} (h : A → B) (f : A → A) (l : list A) i :
  (∀ x, h (f x) = h x) → h <$> alter f i l = h <$> l.
Proof.
  intros H. apply list_eq; intros j. rewrite !list_lookup_fmap, lookup_alter_list.
  case_decide; subst; [|done]. destruct (l !! j); simpl; congruence.
Qed.

(** ** Permutations by counting *)
Lemma perm_count (l l' : list Z) : l ≡ₚ l' ↔ ∀ x, count_occ Z.eq_dec l x = count_occ Z.eq_dec l' x.
Proof. apply (Permutation_count_occ Z.eq_dec). Qed.
Lemma count_cons (a : Z) (l : list Z) x : count_occ Z.eq_dec (a :: l) x = count_occ Z.eq_dec [a] x + count_occ Z.eq_dec l x.
Proof. apply (count_occ_app Z.eq_dec [a] l). Qed.

(** ** Invariants of reachable states *)
Lemma rtc_invariant {A} (R : relation A) (P : A → Prop) x y :
  (∀ a b, R a b → P a → P b) → rtc R x y → P x → P y.
Proof. intros HP. induction 1; eauto. Qed.

(** ** Tactics of the development *)
Ltac invc H := inversion H; subst; clear H.
(** [run H]: the first statement of the block in the goal behaves as [H] says. *)
Tactic Notation "run" open_constr(H) := rewrite (bind_Ret _ _ _ _ _ H).
(** The same when the block is itself the first statement of another. *)
Tactic Notation "run2" open_constr(H) := rewrite (bind_bind_Ret _ _ _ _ _ _ H).
(** Take the branch of a conditional on constants. *)
Ltac branch := cbn [negb andb orb bool_decide]; cbv iota.
(** One statement that reads or writes the state and returns. *)
Ltac next := erewrite bind_Ret; [|reflexivity]; cbn [fst snd].
(** Decide a condition on integer constants. *)
Ltac branchz := match goal with |- context [if ?b then _ else _] =>
  let v := eval vm_compute in b in change b with v; cbv iota end.
(** Membership in an explicit list. *)
Ltac listin := repeat match goal with
  | H : _ ∈ _ ++ _ |- _ => rewrite elem_of_app in H
  | H : _ ∈ _ :: _ |- _ => rewrite elem_of_cons in H
  | |- _ => progress rewrite ?elem_of_app, ?elem_of_cons
  end; tauto.
(** Permutations of concatenations of lists of [Z] from others in the context. *)
Ltac permz := apply perm_count; let x := fresh "x" in intros x;
  repeat match goal with H : @Permutation Z _ _ |- _ => rewrite perm_count in H; specialize (H x) end;
  repeat first [rewrite count_occ_app in * | match goal with
    | |- context [count_occ _ (?a :: ?l) x] => lazymatch l with [] => fail | _ => rewrite (count_cons a l x) end
    | H : context [count_occ _ (?a :: ?l) x] |- _ => lazymatch l with [] => fail | _ => rewrite (count_cons a l x) in H end end];
  change (count_occ Z.eq_dec [] x) with 0 in *; lia.

(** ** Filters *)
Lemma filter_ext_in {A} (P Q : A → Prop) {HP : ∀ x, Decision (P x)} {HQ : ∀ x, Decision (Q x)} (l : list A) :
  (∀ x, x ∈ l → P x ↔ Q x) → filter P l = filter Q l.
Proof.
  induction l as [|x l IH]; intros H; [done|]. pose proof (H x ltac:(left)) as Hx. assert (filter P l = filter Q l) as E by (apply IH; intros y Hy; apply H; by right).
  destruct (decide (P x)); [rewrite !filter_cons_True by tauto|rewrite !filter_cons_False by tauto]; congruence.
Qed.
Lemma filter_none {A} (P : A → Prop) {HP : ∀ x, Decision (P x)} (l : list A) : (∀ x, x ∈ l → ¬ P x) → filter P l = [].
Proof.
  induction l as [|x l IH]; intros H; [done|]. rewrite filter_cons_False by (apply H; left). apply IH. intros y Hy. apply H. by right.
Qed.
