(* ===== verification/Mmu.v ===== *)
(** * Addresses and page table entries (mmu.h, memlayout.h) *)
From stdpp Require Import base list gmap strings.
From Stdlib Require Import ZArith Lia.
From S2P Require Import Prelude.
#[local] Open Scope Z_scope.

Definition EXTMEM : Z := 1048576.
Definition PHYSTOP : Z := 234881024.
Definition DEVSPACE : Z := 4261412864.
Definition KERNBASE : Z := 2147483648.
Definition KERNLINK : Z := KERNBASE + EXTMEM.
Definition V2P (a : Z) : Z := uint (a - KERNBASE).
Definition P2V (a : Z) : Z := uint (a + KERNBASE).

Definition PGSIZE : Z := 4096.
Definition NPDENTRIES : Z := 1024.
Definition NPTENTRIES : Z := 1024.
Definition PTXSHIFT : Z := 12.
Definition PDXSHIFT : Z := 22.
Definition PDX (va : Z) : Z := Z.land (Z.shiftr (uint va) PDXSHIFT) 1023.
Definition PTX (va : Z) : Z := Z.land (Z.shiftr (uint va) PTXSHIFT) 1023.
Definition PGADDR (d t o : Z) : Z := uint (Z.lor (Z.lor (Z.shiftl d PDXSHIFT) (Z.shiftl t PTXSHIFT)) o).
Definition PGROUNDUP (sz : Z) : Z := Z.land (uint (sz + PGSIZE - 1)) (Z.lnot (PGSIZE - 1)).
Definition PGROUNDDOWN (a : Z) : Z := Z.land a (Z.lnot (PGSIZE - 1)).

Definition PTE_P : Z := 1.
Definition PTE_W : Z := 2.
Definition PTE_U : Z := 4.
Definition PTE_PS : Z := 128.
Definition PTE_ADDR (pte : Z) : Z := Z.land (uint pte) (Z.lnot 4095).
Definition PTE_FLAGS (pte : Z) : Z := Z.land (uint pte) 4095.

(** ** The macros as arithmetic *)
Lemma land_lnot_4095 a : Z.land a (Z.lnot 4095) = a - a mod 4096.
Proof.
  change 4095 with (Z.ones 12). rewrite <- Z.ldiff_land, Z.ldiff_ones_r by lia.
  rewrite Z.shiftl_mul_pow2, Z.shiftr_div_pow2 by lia. change (2 ^ 12) with 4096.
  pose proof (Z.div_mod a 4096). lia.
Qed.
Lemma PGROUNDDOWN_eq a : PGROUNDDOWN a = a - a mod 4096.
Proof. apply land_lnot_4095. Qed.
Lemma PGROUNDUP_eq a : PGROUNDUP a = uint (a + 4095) - uint (a + 4095) mod 4096.
Proof. unfold PGROUNDUP. replace (a + PGSIZE - 1) with (a + 4095) by (unfold PGSIZE; lia). apply land_lnot_4095. Qed.
Lemma PTE_ADDR_eq p : PTE_ADDR p = uint p - uint p mod 4096.
Proof. apply land_lnot_4095. Qed.
Lemma PTE_FLAGS_eq p : PTE_FLAGS p = uint p mod 4096.
Proof. unfold PTE_FLAGS. change 4095 with (Z.ones 12). by rewrite Z.land_ones by lia. Qed.
Lemma PDX_eq va : PDX va = uint va / 4194304.
Proof.
  unfold PDX. change 1023 with (Z.ones 10). rewrite Z.land_ones, Z.shiftr_div_pow2 by (unfold PDXSHIFT; lia).
  change (2 ^ PDXSHIFT) with 4194304. change (2 ^ 10) with 1024. zmod.
Qed.
Lemma PTX_eq va : PTX va = (uint va / 4096) mod 1024.
Proof.
  unfold PTX. change 1023 with (Z.ones 10). rewrite Z.land_ones, Z.shiftr_div_pow2 by (unfold PTXSHIFT; lia).
  reflexivity.
Qed.

(** The arithmetic of page table entries, for goals about addresses. *)
Ltac pgarith := unfold PGSIZE, KERNBASE, PHYSTOP, V2P, P2V in *;
  rewrite ?PGROUNDDOWN_eq, ?PGROUNDUP_eq, ?PTE_ADDR_eq, ?PTE_FLAGS_eq, ?PDX_eq, ?PTX_eq in *; zmod.

Lemma PGROUNDUP_spec a : 0 ≤ a → a ≤ 4294963200 →
  PGROUNDUP a mod 4096 = 0 ∧ a ≤ PGROUNDUP a < a + 4096.
Proof. intros H1 H2. rewrite PGROUNDUP_eq. zmod. Qed.
Lemma PGROUNDDOWN_spec a : PGROUNDDOWN a mod 4096 = 0 ∧ PGROUNDDOWN a ≤ a < PGROUNDDOWN a + 4096.
Proof. rewrite PGROUNDDOWN_eq. zmod. Qed.
Lemma PGROUNDDOWN_id a : a mod 4096 = 0 → PGROUNDDOWN a = a.
Proof. rewrite PGROUNDDOWN_eq. lia. Qed.
Lemma V2P_P2V a : 0 ≤ a < KERNBASE → V2P (P2V a) = a.
Proof. intros. pgarith. Qed.
Lemma P2V_V2P v : KERNBASE ≤ v < 4294967296 → P2V (V2P v) = v.
Proof. intros. pgarith. Qed.
(** A page table entry gives back its address and its flags. *)
Lemma PTE_ADDR_lor pa f : 0 ≤ pa < 4294967296 → pa mod 4096 = 0 → 0 ≤ f < 4096 → PTE_ADDR (Z.lor pa f) = pa ∧ PTE_FLAGS (Z.lor pa f) = f.
Proof.
  intros H1 H2 H3. assert (Z.lor pa f = pa + f) as ->.
  { assert (Z.land pa f = 0) as E; [|pose proof (Z.add_lor_land pa f); lia].
    rewrite <- (Z.mod_small f 4096) by lia. change 4096 with (2 ^ 12) in *. rewrite <- Z.land_ones by lia.
    rewrite (Z.land_comm f), Z.land_assoc, Z.land_ones, H2 by lia. apply Z.land_0_l. }
  rewrite PTE_ADDR_eq, PTE_FLAGS_eq. zmod.
Qed.
