(* ===== verification/Spinlock.v ===== *)
(** * Spin locks and interrupt masking (spinlock.c, mycpu of proc.c)

    The state is the per-CPU records [cpus[]] and the spin locks, named by an
    integer as C names them by their address, seen from the CPU that executes:
    [h_me] is its index in [cpus]. *)
From stdpp Require Import base list gmap strings.
From Stdlib Require Import ZArith Lia.
From S2P Require Import Prelude.

(** [struct cpu].  [c_if] is the interrupt flag of the CPU's eflags register,
    [c_cr3] its page-table register and [c_esp0] the field of [ts] that
    [switchuvm] sets; the segment descriptors, which never change after
    [seginit], and the saved scheduler context are not kept. *)
Record cpu := Cpu {
  c_apicid : Z;
  c_ncli : Z;
  c_intena : bool;
  c_proc : option nat;
  c_if : bool;
  c_cr3 : Z;
  c_esp0 : Z }.

Record spinlock := Spinlock {
  lk_locked : bool;
  lk_name : string;
  lk_cpu : option nat }.

Record hw := Hw {
  h_me : nat;
  h_cpus : list cpu;
  h_locks : gmap Z spinlock }.

Definition set_ncli (n : Z) (c : cpu) : cpu := Cpu (c_apicid c) n (c_intena c) (c_proc c) (c_if c) (c_cr3 c) (c_esp0 c).
Definition set_intena (b : bool) (c : cpu) : cpu := Cpu (c_apicid c) (c_ncli c) b (c_proc c) (c_if c) (c_cr3 c) (c_esp0 c).
Definition set_if (b : bool) (c : cpu) : cpu := Cpu (c_apicid c) (c_ncli c) (c_intena c) (c_proc c) b (c_cr3 c) (c_esp0 c).
Definition set_cproc (p : option nat) (c : cpu) : cpu := Cpu (c_apicid c) (c_ncli c) (c_intena c) p (c_if c) (c_cr3 c) (c_esp0 c).

Definition set_cr3 (v : Z) (c : cpu) : cpu := Cpu (c_apicid c) (c_ncli c) (c_intena c) (c_proc c) (c_if c) v (c_esp0 c).
Definition set_esp0 (v : Z) (c : cpu) : cpu := Cpu (c_apicid c) (c_ncli c) (c_intena c) (c_proc c) (c_if c) (c_cr3 c) v.

Definition upd_cpu (i : nat) (f : cpu → cpu) (h : hw) : hw := Hw (h_me h) (alter f i (h_cpus h)) (h_locks h).
Definition upd_lock (lk : Z) (l : spinlock) (h : hw) : hw := Hw (h_me h) (h_cpus h) (<[lk:=l]> (h_locks h)).

(** x86.h *)
Definition readeflags_if : M hw bool := let! h := get in let! c := deref (h_cpus h !! h_me h) in ret (c_if c).
Definition cli : M hw () := modify (λ h, upd_cpu (h_me h) (set_if false) h).
Definition sti : M hw () := modify (λ h, upd_cpu (h_me h) (set_if true) h).
(** lapic.c: the hardware identifier of the executing CPU. *)
Definition lapicid : M hw Z := let! h := get in let! c := deref (h_cpus h !! h_me h) in ret (c_apicid c).

Definition mycpu : M hw nat :=
  let! fl := readeflags_if in
  if fl then panic "mycpu called with interrupts enabled" else
  let! apicid := lapicid in
  let! h := get in
  match first_idx (λ c, bool_decide (c_apicid c = apicid)) (h_cpus h) with
  | Some i => ret i
  | None => panic "unknown apicid"
  end.

Definition cpu_field {A} (f : cpu → A) : M hw A :=
  let! c := mycpu in let! h := get in let! r := deref (h_cpus h !! c) in ret (f r).
Definition cpu_set (f : cpu → cpu) : M hw () :=
  let! c := mycpu in modify (upd_cpu c f).

Definition pushcli : M hw () :=
  let! eflags := readeflags_if in
  cli ;;;
  let! ncli := cpu_field c_ncli in
  (if bool_decide (ncli = 0%Z) then cpu_set (set_intena eflags) else ret ()) ;;;
  let! ncli := cpu_field c_ncli in
  cpu_set (set_ncli (ncli + 1)).

Definition popcli : M hw () :=
  let! eflags := readeflags_if in
  if eflags then panic "popcli - interruptible" else
  let! ncli := cpu_field c_ncli in
  cpu_set (set_ncli (ncli - 1)) ;;;
  if (ncli - 1 <? 0)%Z then panic "popcli" else
  let! ncli := cpu_field c_ncli in
  let! intena := cpu_field c_intena in
  if bool_decide (ncli = 0%Z) && intena then sti else ret ().

Definition initlock (lk : Z) (name : string) : M hw () :=
  modify (upd_lock lk (Spinlock false name None)).

Definition holding (lk : Z) : M hw bool :=
  pushcli ;;;
  let! c := mycpu in
  let! h := get in
  let! l := deref (h_locks h !! lk) in
  let r := lk_locked l && bool_decide (lk_cpu l = Some c) in
  popcli ;;;
  ret r.

(** [xchg(&lk->locked, 1)]: returns the old value. *)
Definition xchg_locked (lk : Z) : M hw bool :=
  let! h := get in
  let! l := deref (h_locks h !! lk) in
  modify (upd_lock lk (Spinlock true (lk_name l) (lk_cpu l))) ;;;
  ret (lk_locked l).

Definition acquire (lk : Z) : M hw () :=
  pushcli ;;;
  let! hd := holding lk in
  if (hd : bool) then panic "acquire" else
  let! old := xchg_locked lk in
  if (old : bool) then (λ _, Spin) else
  let! c := mycpu in
  let! h := get in
  let! l := deref (h_locks h !! lk) in
  modify (upd_lock lk (Spinlock (lk_locked l) (lk_name l) (Some c))).

Definition release (lk : Z) : M hw () :=
  let! hd := holding lk in
  if negb hd then panic "release" else
  let! h := get in
  let! l := deref (h_locks h !! lk) in
  modify (upd_lock lk (Spinlock (lk_locked l) (lk_name l) None)) ;;;
  let! h := get in
  let! l := deref (h_locks h !! lk) in
  modify (upd_lock lk (Spinlock false (lk_name l) (lk_cpu l))) ;;;
  popcli.

(** ** The CPU record the code runs with *)
Definition cpu_at (me : nat) (c : cpu) (h : hw) : Prop :=
  h_me h = me ∧ h_cpus h !! me = Some c ∧ NoDup (c_apicid <$> h_cpus h).

(** The effect of [pushcli] and [popcli] on the executing CPU. *)
Definition pushed (c : cpu) : cpu :=
  Cpu (c_apicid c) (c_ncli c + 1)
      (if bool_decide (c_ncli c = 0%Z) then c_if c else c_intena c) (c_proc c) false (c_cr3 c) (c_esp0 c).
Definition popped (c : cpu) : cpu :=
  Cpu (c_apicid c) (c_ncli c - 1) (c_intena c) (c_proc c)
      (bool_decide (c_ncli c = 1%Z) && c_intena c) (c_cr3 c) (c_esp0 c).

Lemma upd_cpu_at me c f h :
  cpu_at me c h → (∀ c, c_apicid (f c) = c_apicid c) → cpu_at me (f c) (upd_cpu me f h).
Proof.
  intros (Hme & Hl & Hn) Hf. split_and!; simpl; [done|..].
  - by rewrite list_lookup_alter_eq, Hl.
  - by rewrite fmap_alter_same.
Qed.

Lemma upd_lock_at me c lk l h : cpu_at me c h → cpu_at me c (upd_lock lk l h).
Proof. by intros (?&?&?). Qed.

Lemma upd_cpu_ext me c f g h :
  cpu_at me c h → f c = g c → upd_cpu me f h = upd_cpu me g h.
Proof.
  intros (_ & Hl & _) Hfg. unfold upd_cpu. f_equal.
  apply alter_ext_list. intros x Hx. congruence.
Qed.

Lemma upd_cpu_twice me f g h : upd_cpu me f (upd_cpu me g h) = upd_cpu me (f ∘ g) h.
Proof. unfold upd_cpu; simpl. by rewrite list_alter_alter_eq. Qed.

Lemma upd_cpu_lock me f lk l h : upd_cpu me f (upd_lock lk l h) = upd_lock lk l (upd_cpu me f h).
Proof. done. Qed.

Lemma upd_lock_twice lk l l' h : upd_lock lk l (upd_lock lk l' h) = upd_lock lk l h.
Proof. unfold upd_lock; simpl. by rewrite insert_insert_eq. Qed.

Lemma upd_cpu_same me c f h : cpu_at me c h → f c = c → upd_cpu me f h = h.
Proof.
  intros Hc Hf. rewrite (upd_cpu_ext me c f id h Hc Hf).
  destruct h as [m l k]; unfold upd_cpu; simpl. f_equal. apply list_alter_id. done.
Qed.

#[export] Hint Resolve upd_lock_at : xv6.
#[export] Hint Extern 3 (cpu_at _ _ (upd_cpu _ _ _)) => apply upd_cpu_at; [|done] : xv6.

Lemma mycpu_ok me c h : cpu_at me c h → c_if c = false → mycpu h = Ret me h.
Proof.
  intros (Hme & Hl & Hn) Hif. unfold mycpu, readeflags_if, lapicid, bind, get, deref, ret; simpl.
  rewrite Hme, Hl; simpl; rewrite Hif; simpl. rewrite Hme, Hl; simpl.
  enough (first_idx (λ c0, bool_decide (c_apicid c0 = c_apicid c)) (h_cpus h) = Some me) as -> by done.
  apply first_idx_Some. split.
  - exists c. by rewrite bool_decide_eq_true_2.
  - intros j x Hj Hx. apply bool_decide_eq_false_2. intros Heq.
    assert (j = me); [|lia].
    apply (NoDup_lookup _ _ _ (c_apicid c) Hn); rewrite list_lookup_fmap, ?Hx, ?Hl; simpl; congruence.
Qed.

Lemma cpu_field_ok {A} me c (f : cpu → A) h :
  cpu_at me c h → c_if c = false → cpu_field f h = Ret (f c) h.
Proof.
  intros Hc Hif. unfold cpu_field. run (mycpu_ok _ _ _ Hc Hif).
  destruct Hc as (Hme & Hl & _). unfold bind, get, deref; simpl. by rewrite Hl.
Qed.

Lemma cpu_set_ok me c f h :
  cpu_at me c h → c_if c = false → cpu_set f h = Ret () (upd_cpu me f h).
Proof. intros Hc Hif. unfold cpu_set. by run (mycpu_ok _ _ _ Hc Hif). Qed.

Lemma readeflags_ok me c h : cpu_at me c h → readeflags_if h = Ret (c_if c) h.
Proof. intros (Hme & Hl & _). unfold readeflags_if, bind, get, deref; simpl. by rewrite Hme, Hl. Qed.

Lemma pushcli_ok me c h : cpu_at me c h → pushcli h = Ret () (upd_cpu me pushed h).
Proof.
  intros Hc. unfold pushcli. run (readeflags_ok _ _ _ Hc).
  assert (cpu_at me (set_if false c) (upd_cpu me (set_if false) h)) as Hc' by eauto with xv6.
  rewrite (bind_Ret _ _ _ () (upd_cpu me (set_if false) h)) by (destruct Hc as [<- _]; done).
  run (cpu_field_ok _ _ c_ncli _ Hc' eq_refl). simpl.
  destruct (bool_decide (c_ncli c = 0%Z)) eqn:Hn.
  - run (cpu_set_ok _ _ (set_intena (c_if c)) _ Hc' eq_refl).
    apply (upd_cpu_at _ _ (set_intena (c_if c))) in Hc'; [|done].
    run (cpu_field_ok _ _ c_ncli _ Hc' eq_refl).
    rewrite (cpu_set_ok _ _ _ _ Hc' eq_refl). rewrite !upd_cpu_twice.
    f_equal. eapply upd_cpu_ext; [done|]. unfold pushed, compose; simpl. by rewrite Hn.
  - rewrite (bind_Ret _ _ _ () (upd_cpu me (set_if false) h)) by done.
    run (cpu_field_ok _ _ c_ncli _ Hc' eq_refl).
    rewrite (cpu_set_ok _ _ _ _ Hc' eq_refl). rewrite !upd_cpu_twice.
    f_equal. eapply upd_cpu_ext; [done|]. unfold pushed, compose; simpl. by rewrite Hn.
Qed.

Lemma popcli_ok me c h :
  cpu_at me c h → c_if c = false → (1 ≤ c_ncli c)%Z →
  popcli h = Ret () (upd_cpu me popped h).
Proof.
  intros Hc Hif Hn. unfold popcli. run (readeflags_ok _ _ _ Hc). rewrite Hif.
  run (cpu_field_ok _ _ c_ncli _ Hc Hif).
  run (cpu_set_ok _ _ _ _ Hc Hif).
  destruct (Z.ltb_spec (c_ncli c - 1) 0) as [|_]; [lia|].
  assert (cpu_at me (set_ncli (c_ncli c - 1) c) (upd_cpu me (set_ncli (c_ncli c - 1)) h)) as Hc' by eauto with xv6.
  run (cpu_field_ok _ _ c_ncli _ Hc' Hif).
  run (cpu_field_ok _ _ c_intena _ Hc' Hif). simpl.
  replace (bool_decide (c_ncli c - 1 = 0)%Z) with (bool_decide (c_ncli c = 1)%Z)
    by (apply bool_decide_ext; lia).
  destruct (bool_decide (c_ncli c = 1%Z) && c_intena c) eqn:Hb; simpl; unfold sti, modify, ret; simpl;
    destruct Hc as (Hme & Hc); rewrite ?Hme, ?upd_cpu_twice; f_equal; (eapply upd_cpu_ext; [by split|]);
    unfold popped, compose, set_if, set_ncli; simpl; by rewrite Hb, ?Hif.
Qed.

(** Interrupts are off while a [pushcli] is outstanding. *)
Definition cpu_wf (c : cpu) : Prop := (0 ≤ c_ncli c)%Z ∧ ((0 < c_ncli c)%Z → c_if c = false).

(** A matched pair only refreshes [intena], and only at the outermost level. *)
Definition touched (c : cpu) : cpu :=
  set_intena (if bool_decide (c_ncli c = 0%Z) then c_if c else c_intena c) c.

Lemma pushed_wf c : cpu_wf c → cpu_wf (pushed c).
Proof. intros [H1 H2]; split; simpl; [lia|done]. Qed.
Lemma popped_wf c : cpu_wf c → (1 ≤ c_ncli c)%Z → cpu_wf (popped c).
Proof.
  intros [H1 H2] H; split; simpl; [lia|]. intros Hn.
  rewrite bool_decide_eq_false_2 by lia. done.
Qed.
Lemma popped_pushed c : cpu_wf c → popped (pushed c) = touched c.
Proof.
  intros [H1 H2]. destruct c as [a n i p f c3 e0]; unfold popped, pushed, touched, set_intena; simpl in *.
  f_equal; [lia|]. destruct (decide (n = 0%Z)) as [->|Hn].
  - by rewrite !bool_decide_eq_true_2 by lia.
  - rewrite (bool_decide_eq_false_2 (n + 1 = 1)%Z) by lia. symmetry; apply H2; lia.
Qed.
Lemma touched_pushed c : cpu_wf c → touched (pushed c) = pushed c.
Proof.
  intros [H _]. unfold touched, pushed, set_intena; simpl.
  rewrite (bool_decide_eq_false_2 (c_ncli c + 1 = 0)%Z) by lia. done.
Qed.
Lemma touched_wf c : cpu_wf c → cpu_wf (touched c).
Proof. by intros [? ?]. Qed.
Lemma touched_id c : (0 < c_ncli c)%Z → touched c = c.
Proof. intros H. unfold touched. rewrite bool_decide_eq_false_2 by lia. by destruct c. Qed.
#[export] Hint Resolve pushed_wf popped_wf touched_wf : xv6.

Lemma upd_cpu_at' me c c' f h :
  cpu_at me c h → (∀ c, c_apicid (f c) = c_apicid c) → f c = c' → cpu_at me c' (upd_cpu me f h).
Proof. intros ? ? <-. by apply upd_cpu_at. Qed.

Lemma holding_ok me c lk l h :
  cpu_at me c h → cpu_wf c → h_locks h !! lk = Some l →
  holding lk h =
    Ret (lk_locked l && bool_decide (lk_cpu l = Some me)) (upd_cpu me touched h).
Proof.
  intros Hc Hwf Hl. unfold holding. run (pushcli_ok _ _ _ Hc).
  assert (cpu_at me (pushed c) (upd_cpu me pushed h)) as Hc' by (by apply upd_cpu_at).
  run (mycpu_ok _ _ _ Hc' eq_refl).
  run (eq_refl : get (upd_cpu me pushed h) = Ret _ _). simpl.
  rewrite (bind_Ret _ _ _ l (upd_cpu me pushed h)) by (unfold deref; by rewrite Hl).
  run (popcli_ok _ _ _ Hc' eq_refl ltac:(destruct Hwf; simpl; lia)).
  unfold ret. rewrite upd_cpu_twice. f_equal. eapply upd_cpu_ext; [done|].
  by apply popped_pushed.
Qed.

Definition lk_free (l : spinlock) : spinlock := Spinlock false (lk_name l) None.
Definition lk_held (me : nat) (l : spinlock) : spinlock := Spinlock true (lk_name l) (Some me).

Lemma acquire_ok me c lk l h :
  cpu_at me c h → cpu_wf c → h_locks h !! lk = Some l → lk_locked l = false →
  acquire lk h = Ret () (upd_lock lk (lk_held me l) (upd_cpu me pushed h)).
Proof.
  intros Hc Hwf Hl Hfree. unfold acquire. run (pushcli_ok _ _ _ Hc).
  assert (cpu_at me (pushed c) (upd_cpu me pushed h)) as Hc' by (by apply upd_cpu_at).
  run (holding_ok _ _ lk l _ Hc' (pushed_wf _ Hwf) Hl). rewrite Hfree; simpl.
  rewrite (upd_cpu_same _ _ _ _ Hc' (touched_pushed _ Hwf)).
  rewrite (bind_Ret _ _ _ false (upd_lock lk (Spinlock true (lk_name l) (lk_cpu l)) (upd_cpu me pushed h)))
    by (unfold xchg_locked, bind, get, deref; simpl; by rewrite Hl; simpl; rewrite Hfree).
  run (mycpu_ok _ _ _ (upd_lock_at _ _ _ _ _ Hc') eq_refl).
  unfold bind, get, deref; simpl. rewrite lookup_insert_eq; simpl.
  unfold modify. by rewrite upd_lock_twice.
Qed.

Lemma release_ok me c lk l h :
  cpu_at me c h → cpu_wf c → (1 ≤ c_ncli c)%Z → h_locks h !! lk = Some l →
  lk_locked l = true → lk_cpu l = Some me →
  release lk h = Ret () (upd_lock lk (lk_free l) (upd_cpu me popped h)).
Proof.
  intros Hc Hwf Hn Hl Hlk Hcpu. unfold release.
  run (holding_ok _ _ lk l _ Hc Hwf Hl). rewrite Hlk, bool_decide_eq_true_2 by done; simpl.
  rewrite (upd_cpu_same _ _ _ _ Hc (touched_id c ltac:(lia))).
  run (eq_refl : get h = Ret _ _).
  rewrite (bind_Ret _ _ _ l h) by (unfold deref; by rewrite Hl).
  rewrite (bind_Ret _ _ _ () (upd_lock lk (Spinlock (lk_locked l) (lk_name l) None) h)) by done.
  run (eq_refl : get (upd_lock _ _ _) = Ret _ _). simpl.
  rewrite lookup_insert_eq.
  run (eq_refl : deref (Some _) (upd_lock _ _ _) = Ret _ _).
  rewrite (bind_Ret _ _ _ () (upd_lock lk (lk_free l) h)) by (unfold modify; by rewrite upd_lock_twice).
  rewrite (popcli_ok _ c) by (eauto using upd_lock_at; destruct Hwf as [_ H]; apply H; lia).
  by rewrite upd_cpu_lock.
Qed.

Lemma acquire_own me c lk l h :
  cpu_at me c h → cpu_wf c → h_locks h !! lk = Some l →
  lk_locked l = true → lk_cpu l = Some me → acquire lk h = Panic "acquire".
Proof.
  intros Hc Hwf Hl Hlk Hcpu. unfold acquire. run (pushcli_ok _ _ _ Hc).
  assert (cpu_at me (pushed c) (upd_cpu me pushed h)) as Hc' by (by apply upd_cpu_at).
  run (holding_ok _ _ lk l _ Hc' (pushed_wf _ Hwf) Hl).
  by rewrite Hlk, bool_decide_eq_true_2 by done.
Qed.

Lemma acquire_contended me c lk l h :
  cpu_at me c h → cpu_wf c → h_locks h !! lk = Some l →
  lk_locked l = true → lk_cpu l ≠ Some me → acquire lk h = Spin.
Proof.
  intros Hc Hwf Hl Hlk Hcpu. unfold acquire. run (pushcli_ok _ _ _ Hc).
  assert (cpu_at me (pushed c) (upd_cpu me pushed h)) as Hc' by (by apply upd_cpu_at).
  run (holding_ok _ _ lk l _ Hc' (pushed_wf _ Hwf) Hl).
  rewrite Hlk, bool_decide_eq_false_2 by done; simpl.
  unfold xchg_locked, bind, get, deref; simpl. by rewrite Hl; simpl; rewrite Hlk.
Qed.

(** ** Properties *)
Fixpoint times {S} (n : nat) (m : M S ()) : M S () :=
  match n with O => ret () | Datatypes.S n' => m ;;; times n' m end.

Lemma times_pushcli me n : ∀ c h, cpu_at me c h →
  times n (pushcli) h = Ret () (upd_cpu me (Nat.iter n pushed) h) ∧
  cpu_at me (Nat.iter n pushed c) (upd_cpu me (Nat.iter n pushed) h).
Proof.
  induction n as [|n IH]; intros c h Hc.
  - split; [|by apply upd_cpu_at]. simpl. unfold ret. by rewrite (upd_cpu_same _ c) by done.
  - change (times (S n) (pushcli)) with (pushcli ;;; times n (pushcli)).
    run (pushcli_ok _ _ _ Hc).
    destruct (IH (pushed c) (upd_cpu me pushed h)) as [-> Hc']; [by apply upd_cpu_at|].
    rewrite !upd_cpu_twice in *. rewrite <- Nat.iter_succ_r in Hc'.
    assert (upd_cpu me (Nat.iter n pushed ∘ pushed) h = upd_cpu me (Nat.iter (S n) pushed) h) as Heq.
    { eapply upd_cpu_ext; [done|]. unfold compose. by rewrite Nat.iter_succ_r. }
    by rewrite Heq in *.
Qed.

Lemma iter_pushed c n : c_ncli c = 0%Z → n ≠ 0 →
  Nat.iter n pushed c = Cpu (c_apicid c) (Z.of_nat n) (c_if c) (c_proc c) false (c_cr3 c) (c_esp0 c).
Proof.
  intros Hc Hn. induction n as [|n IH]; [done|]. destruct n as [|n].
  - simpl. unfold pushed. rewrite Hc. by rewrite bool_decide_eq_true_2.
  - rewrite Nat.iter_succ, IH by done. unfold pushed; simpl. f_equal; lia.
Qed.

Lemma times_popcli me k : ∀ c h, cpu_at me c h → cpu_wf c → (Z.of_nat k ≤ c_ncli c)%Z →
  ∃ h' c', times k (popcli) h = Ret () h' ∧ cpu_at me c' h' ∧
    c_ncli c' = (c_ncli c - Z.of_nat k)%Z ∧ c_intena c' = c_intena c ∧
    c_if c' = if decide (k = 0) then c_if c else bool_decide (c_ncli c = Z.of_nat k) && c_intena c.
Proof.
  induction k as [|k IH]; intros c h Hc Hwf Hk.
  - exists h, c. split_and!; try done. lia.
  - change (times (S k) (popcli)) with (popcli ;;; times k (popcli)).
    assert (c_if c = false) as Hif by (destruct Hwf as [_ H]; apply H; lia).
    run (popcli_ok _ _ _ Hc Hif ltac:(lia)).
    destruct (IH (popped c) (upd_cpu me popped h)) as (h' & c' & -> & Hc' & Hn & Hi & Hf).
    { by apply upd_cpu_at. } { apply popped_wf; [done|lia]. } { simpl; lia. }
    exists h', c'. split_and!; try done; simpl in *; [lia|].
    rewrite Hf. destruct (decide (k = 0)) as [->|Hk0]; simpl; [done|].
    f_equal. apply bool_decide_ext; lia.
Qed.

(** [pushcli]/[popcli] nest.  From a CPU with no [pushcli] outstanding,
    [n] calls of [pushcli] followed by [k ≤ n] calls of [popcli] succeed and
    leave [n - k] outstanding; interrupts stay off as long as one is
    outstanding, and the last [popcli] puts the interrupt flag back to what it
    was before the first [pushcli]. *)
Theorem pushcli_popcli_nest me c h n k :
  cpu_at me c h → c_ncli c = 0%Z → k ≤ n →
  ∃ h1 h2 c2, times n (pushcli) h = Ret () h1 ∧ times k (popcli) h1 = Ret () h2 ∧
    cpu_at me c2 h2 ∧ c_ncli c2 = Z.of_nat (n - k) ∧
    c_if c2 = if decide (n = k) then c_if c else false.
Proof.
  intros Hc Hn Hk. destruct (times_pushcli me n c h Hc) as [Hpush Hc1].
  destruct (decide (n = 0)) as [->|Hn0].
  { exists (upd_cpu me (Nat.iter 0 pushed) h), (upd_cpu me (Nat.iter 0 pushed) h), c.
    assert (k = 0) as -> by lia. done. }
  rewrite (iter_pushed c n Hn Hn0) in Hc1.
  destruct (times_popcli me k _ _ Hc1) as (h2 & c2 & Hpop & Hc2 & Hncli & _ & Hif).
  { split; simpl; [lia|done]. } { simpl; lia. }
  exists (upd_cpu me (Nat.iter n pushed) h), h2, c2. split_and!; try done; simpl in *; [lia|].
  rewrite Hif. destruct (decide (n = k)) as [->|Hne], (decide (k = 0)); try lia; try done.
  - by rewrite bool_decide_eq_true_2.
  - by rewrite bool_decide_eq_false_2 by lia.
Qed.

(** ** Several CPUs competing for one lock

    Each CPU runs [acquire] and [release] on the same lock, interleaved at the
    accesses to the shared lock words.  The program counters are the points of
    the two functions between those accesses.  The two reads of [holding] are
    one test: [lk->cpu] names a CPU only through that CPU's own write, so no
    step of another CPU between them can change the answer.  The rest of the
    development runs the functions [acquire] and [release] above on one CPU;
    [acquire_steps] and [release_steps] say that a run of them on the lock words
    is a run of these steps. *)
Inductive lockpc :=
| Idle       (* outside *)
| Spinning   (* in [acquire], after the [holding] test, before a winning xchg *)
| Got        (* xchg returned 0; lk->cpu not yet written *)
| Critical   (* [acquire] has returned *)
| Leaving.   (* in [release], lk->cpu cleared, lk->locked not yet *)
#[export] Instance lockpc_eq_dec : EqDecision lockpc.
Proof. solve_decision. Defined.

Record arena := Arena { ar_lock : spinlock; ar_pc : list lockpc }.

Definition ar_holding (i : nat) (a : arena) : bool :=
  lk_locked (ar_lock a) && bool_decide (lk_cpu (ar_lock a) = Some i).

Inductive lock_step : arena → arena → Prop :=
| step_enter a i :
    ar_pc a !! i = Some Idle → ar_holding i a = false →
    lock_step a (Arena (ar_lock a) (<[i:=Spinning]> (ar_pc a)))
| step_spin a i :
    ar_pc a !! i = Some Spinning → lk_locked (ar_lock a) = true →
    lock_step a a
| step_xchg a i :
    ar_pc a !! i = Some Spinning → lk_locked (ar_lock a) = false →
    lock_step a (Arena (Spinlock true (lk_name (ar_lock a)) (lk_cpu (ar_lock a))) (<[i:=Got]> (ar_pc a)))
| step_setcpu a i :
    ar_pc a !! i = Some Got →
    lock_step a (Arena (Spinlock (lk_locked (ar_lock a)) (lk_name (ar_lock a)) (Some i))
                       (<[i:=Critical]> (ar_pc a)))
| step_clearcpu a i :
    ar_pc a !! i = Some Critical → ar_holding i a = true →
    lock_step a (Arena (Spinlock (lk_locked (ar_lock a)) (lk_name (ar_lock a)) None)
                       (<[i:=Leaving]> (ar_pc a)))
| step_unlock a i :
    ar_pc a !! i = Some Leaving →
    lock_step a (Arena (Spinlock false (lk_name (ar_lock a)) (lk_cpu (ar_lock a))) (<[i:=Idle]> (ar_pc a))).

Definition arena_init (name : string) (n : nat) : arena :=
  Arena (Spinlock false name None) (replicate n Idle).

Definition inside (p : lockpc) : Prop := p = Got ∨ p = Critical ∨ p = Leaving.
#[export] Instance inside_dec p : Decision (inside p).
Proof. unfold inside. apply _. Defined.

(** Either the lock is free and no CPU is inside, or exactly one CPU is, and
    [lk->cpu] names it exactly while it is in the critical section. *)
Definition arena_inv (a : arena) : Prop :=
  match lk_locked (ar_lock a) with
  | false => lk_cpu (ar_lock a) = None ∧ ∀ i p, ar_pc a !! i = Some p → ¬ inside p
  | true => ∃ o po, ar_pc a !! o = Some po ∧ inside po ∧
      lk_cpu (ar_lock a) = (if decide (po = Critical) then Some o else None) ∧
      ∀ i p, i ≠ o → ar_pc a !! i = Some p → ¬ inside p
  end.

Lemma arena_inv_init name n : arena_inv (arena_init name n).
Proof.
  split; [done|]. intros i p Hp. simpl in Hp.
  apply lookup_replicate in Hp as [-> _]. intros [?|[?|?]]; done.
Qed.

Lemma lookup_insert_pc (l : list lockpc) i j p q :
  <[i:=p]> l !! j = Some q → (j = i ∧ q = p) ∨ (j ≠ i ∧ l !! j = Some q).
Proof.
  destruct (decide (j = i)) as [->|Hne].
  - intros H. left; split; [done|].
    assert (i < length l) by (apply lookup_lt_Some in H; by rewrite length_insert in H).
    rewrite list_lookup_insert_eq in H by done. congruence.
  - rewrite list_lookup_insert_ne by done. by right.
Qed.

Lemma insert_pc_eq (l : list lockpc) i p q : l !! i = Some q → <[i:=p]> l !! i = Some p.
Proof. intros H. apply list_lookup_insert_eq. by eapply lookup_lt_Some. Qed.

(** The CPU that is inside is the owner. *)
Lemma arena_owner a i p : arena_inv a → ar_pc a !! i = Some p → inside p →
  lk_locked (ar_lock a) = true ∧ lk_cpu (ar_lock a) = (if decide (p = Critical) then Some i else None) ∧
  ∀ j q, j ≠ i → ar_pc a !! j = Some q → ¬ inside q.
Proof.
  unfold arena_inv. intros Hinv Hp Hin. destruct (lk_locked (ar_lock a)).
  - destruct Hinv as (o & po & Ho & Hpo & Hcpu & Hot).
    destruct (decide (i = o)) as [->|Hne]; [|by destruct (Hot i p Hne Hp)].
    simplify_eq. done.
  - destruct Hinv as [_ H]. by destruct (H i p Hp).
Qed.

Lemma arena_inv_step a b : lock_step a b → arena_inv a → arena_inv b.
Proof.
  intros Hstep Hinv. destruct Hstep as [a i Hi Hh|a i Hi Hl|a i Hi Hl|a i Hi|a i Hi Hh|a i Hi].
  - unfold arena_inv in *; simpl in *. destruct (lk_locked (ar_lock a)).
    + destruct Hinv as (o & po & Ho & Hpo & Hcpu & Hot).
      assert (o ≠ i) by (intros ->; simplify_eq; destruct Hpo as [?|[?|?]]; done).
      exists o, po. rewrite list_lookup_insert_ne by done. split_and!; try done.
      intros j q Hj [[-> ->]|[_ Hq]]%lookup_insert_pc; [intros [?|[?|?]]; done|eauto].
    + destruct Hinv as [Hcpu H]. split; [done|].
      intros j q [[-> ->]|[_ Hq]]%lookup_insert_pc; [intros [?|[?|?]]; done|eauto].
  - done.
  - unfold arena_inv in *; simpl in *. rewrite Hl in Hinv. destruct Hinv as [Hcpu H].
    exists i, Got. split_and!; [by eapply insert_pc_eq|by left|done|].
    intros j q Hj [[-> ->]|[_ Hq]]%lookup_insert_pc; [done|eauto].
  - destruct (arena_owner a i Got Hinv Hi ltac:(by left)) as (Hl & _ & Hot).
    unfold arena_inv; simpl. rewrite Hl. exists i, Critical.
    split_and!; [by eapply insert_pc_eq|right; by left|done|].
    intros j q Hj [[-> ->]|[_ Hq]]%lookup_insert_pc; [done|eauto].
  - destruct (arena_owner a i Critical Hinv Hi ltac:(right; by left)) as (Hl & _ & Hot).
    unfold arena_inv; simpl. rewrite Hl. exists i, Leaving.
    split_and!; [by eapply insert_pc_eq|right; by right|done|].
    intros j q Hj [[-> ->]|[_ Hq]]%lookup_insert_pc; [done|eauto].
  - destruct (arena_owner a i Leaving Hinv Hi ltac:(right; by right)) as (Hl & Hcpu & Hot).
    split; [done|]. intros j q [[-> ->]|[Hne Hq]]%lookup_insert_pc; [intros [?|[?|?]]; done|eauto].
Qed.

Lemma arena_inv_reachable name n a : rtc lock_step (arena_init name n) a → arena_inv a.
Proof. intros H. eapply rtc_invariant; eauto using arena_inv_step, arena_inv_init. Qed.

(** The functions of one CPU, undisturbed, are runs of these steps. *)
Lemma acquire_steps me c lk l h pcs :
  cpu_at me c h → cpu_wf c → h_locks h !! lk = Some l → lk_locked l = false →
  pcs !! me = Some Idle →
  ∃ h' l', acquire lk h = Ret () h' ∧ h_locks h' !! lk = Some l' ∧
    rtc lock_step (Arena l pcs) (Arena l' (<[me:=Critical]> pcs)).
Proof.
  intros Hc Hwf Hl Hfree Hp. exists (upd_lock lk (lk_held me l) (upd_cpu me pushed h)), (lk_held me l).
  split; [by eapply acquire_ok|]. split; [apply lookup_insert_eq|].
  eapply rtc_l; [apply (step_enter _ me); [done|unfold ar_holding; simpl; by rewrite Hfree]|].
  eapply rtc_l; [apply (step_xchg _ me); [by eapply insert_pc_eq|done]|].
  eapply rtc_l; [apply (step_setcpu _ me); by eapply insert_pc_eq, insert_pc_eq|]. simpl.
  rewrite !list_insert_insert_eq. apply rtc_refl.
Qed.

Lemma release_steps me c lk l h pcs :
  cpu_at me c h → cpu_wf c → (1 ≤ c_ncli c)%Z → h_locks h !! lk = Some l →
  lk_locked l = true → lk_cpu l = Some me → pcs !! me = Some Critical →
  ∃ h' l', release lk h = Ret () h' ∧ h_locks h' !! lk = Some l' ∧
    rtc lock_step (Arena l pcs) (Arena l' (<[me:=Idle]> pcs)).
Proof.
  intros Hc Hwf Hn Hl Hlk Hcpu Hp. exists (upd_lock lk (lk_free l) (upd_cpu me popped h)), (lk_free l).
  split; [by eapply release_ok|]. split; [apply lookup_insert_eq|].
  eapply rtc_l; [apply (step_clearcpu _ me); [done|]|].
  { unfold ar_holding; simpl. by rewrite Hlk, Hcpu, bool_decide_eq_true_2. }
  eapply rtc_l; [apply (step_unlock _ me); by eapply insert_pc_eq|]. simpl.
  rewrite list_insert_insert_eq. apply rtc_refl.
Qed.

(** C4: Mutual exclusion.  Whatever the interleaving of [acquire] and [release]
    on [n] CPUs, two CPUs are never both past the winning exchange and before
    the unlock, and [holding] answers true on a CPU exactly when that CPU is in
    its critical section; so neither panic of [acquire]/[release] can fire. *)
Theorem spinlock_mutual_exclusion name n a :
  rtc lock_step (arena_init name n) a →
  (∀ i j p q, ar_pc a !! i = Some p → ar_pc a !! j = Some q → inside p → inside q → i = j) ∧
  (∀ i p, ar_pc a !! i = Some p → ar_holding i a = bool_decide (p = Critical)).
Proof.
  intros Hr%arena_inv_reachable. split.
  - intros i j p q Hp Hq Hip Hiq. destruct (decide (j = i)) as [|Hne]; [done|].
    destruct (arena_owner _ _ _ Hr Hp Hip) as (_ & _ & Hot). by destruct (Hot j q Hne Hq).
  - intros i p Hp. unfold ar_holding. destruct (decide (inside p)) as [Hin|Hout].
    + destruct (arena_owner _ _ _ Hr Hp Hin) as (-> & -> & _). simpl.
      destruct (decide (p = Critical)); by repeat case_bool_decide.
    + rewrite (bool_decide_eq_false_2 (p = Critical)) by (intros ->; apply Hout; right; by left).
      apply andb_false_iff. unfold arena_inv in Hr. destruct (lk_locked (ar_lock a)); [right|by left].
      destruct Hr as (o & po & Ho & Hpo & -> & _).
      apply bool_decide_eq_false_2. case_decide; [|done]. intros [= ->]. by simplify_eq.
Qed.

Lemma spinlock_mutual_exclusion_witness :
  ∃ a, rtc lock_step (arena_init "ptable" 2) a ∧
    ar_pc a = [Critical; Spinning] ∧ ar_holding 0 a = true ∧ ar_holding 1 a = false.
Proof.
  exists (Arena (Spinlock true "ptable" (Some 0)) [Critical; Spinning]).
  assert (rtc lock_step (arena_init "ptable" 2)
            (Arena (Spinlock true "ptable" (Some 0)) [Critical; Spinning])) as Hr.
  { eapply rtc_l; [apply (step_enter (arena_init "ptable" 2) 0); reflexivity|].
    eapply rtc_l; [eapply (step_xchg _ 0); reflexivity|].
    eapply rtc_l; [eapply (step_enter _ 1); reflexivity|].
    eapply rtc_l; [eapply (step_setcpu _ 0); reflexivity|]. apply rtc_refl. }
  destruct (spinlock_mutual_exclusion "ptable" 2 _ Hr) as [_ Hh].
  split; [exact Hr|]. split; [reflexivity|].
  split; [exact (Hh 0 Critical eq_refl)|exact (Hh 1 Spinning eq_refl)].
Defined.

(** [acquire] of a free lock followed by [release] succeeds and gives back
    the lock and the CPU as they were, up to the recorded [intena], which a
    matched pair refreshes at the outermost level only. *)
Theorem acquire_release_roundtrip me c lk l h :
  cpu_at me c h → cpu_wf c → h_locks h !! lk = Some l → lk_locked l = false →
  ∃ h1, acquire lk h = Ret () h1 ∧
    (∃ l1, h_locks h1 !! lk = Some l1 ∧ lk_locked l1 = true ∧ lk_cpu l1 = Some me) ∧
    (∃ c1, cpu_at me c1 h1 ∧ c_if c1 = false ∧ c_ncli c1 = (c_ncli c + 1)%Z) ∧
    acquire lk h1 = Panic "acquire" ∧
    release lk h1 = Ret () (upd_lock lk (lk_free l) (upd_cpu me touched h)).
Proof.
  intros Hc Hwf Hl Hfree. eexists; split; [by apply (acquire_ok me c lk l)|].
  assert (cpu_at me (pushed c) (upd_lock lk (lk_held me l) (upd_cpu me pushed h))) as Hc'
    by (apply upd_lock_at, upd_cpu_at; done).
  assert (h_locks (upd_lock lk (lk_held me l) (upd_cpu me pushed h)) !! lk = Some (lk_held me l)) as Hl'
    by (simpl; apply lookup_insert_eq).
  split; [by exists (lk_held me l)|]. split; [by exists (pushed c)|].
  split; [eapply acquire_own; eauto with xv6|].
  rewrite (release_ok me (pushed c) lk (lk_held me l)) by (eauto with xv6; destruct Hwf; simpl; lia).
  rewrite upd_cpu_lock, upd_lock_twice, upd_cpu_twice. f_equal. f_equal.
  eapply upd_cpu_ext; [done|]. by apply popped_pushed.
Qed.
