(* ===== verification/CpuLocks.v ===== *)
(** * Critical sections: the CPUs and the locks they hold

    The abstract view of spinlock.c that the rest of the kernel relies on: the
    executing CPU holds a list of locks, [acquire] adds one and [release]
    removes one.  Spinlock.v is where the two are shown to do that. *)
From stdpp Require Import base list gmap strings.
From Stdlib Require Import ZArith Lia.
From S2P Require Import Prelude Spinlock.

(** [hw_ok me run D L h]: CPU [me] executes and holds exactly the locks [L] of
    the initialised locks [D]; the other CPUs hold none; [run] lists the
    [cpus[i].proc] fields. *)
Record hw_ok (me : nat) (run : list (option nat)) (D : gset Z) (L : list Z) (h : hw) : Prop := {
  ho_me : h_me h = me;
  ho_run : c_proc <$> h_cpus h = run;
  ho_lt : me < length (h_cpus h);
  ho_apic : NoDup (c_apicid <$> h_cpus h);
  ho_cpu i c : h_cpus h !! i = Some c →
    cpu_wf c ∧ c_ncli c = if decide (i = me) then Z.of_nat (length L) else 0%Z;
  ho_dom : dom (h_locks h) = D;
  ho_locks lk l : h_locks h !! lk = Some l →
    if decide (lk ∈ L) then lk_locked l = true ∧ lk_cpu l = Some me else lk_locked l = false;
  ho_nodup : NoDup L;
  ho_sub lk : lk ∈ L → lk ∈ D }.

Lemma hw_ok_cpu me run D L h : hw_ok me run D L h →
  ∃ c, cpu_at me c h ∧ cpu_wf c ∧ c_ncli c = Z.of_nat (length L) ∧ run !! me = Some (c_proc c).
Proof.
  intros [Hme Hrun Hlt Hap Hcpu _ _ _ _]. destruct (lookup_lt_is_Some_2 _ _ Hlt) as [c Hc].
  exists c. destruct (Hcpu _ _ Hc) as [Hwf Hn]. rewrite decide_True in Hn by done.
  split_and!; [by split_and!|done|done|]. by rewrite <- Hrun, list_lookup_fmap, Hc.
Qed.

Lemma hw_ok_upd me run D L L' h f :
  hw_ok me run D L h →
  (∀ c, c_apicid (f c) = c_apicid c) → (∀ c, c_proc (f c) = c_proc c) →
  (∀ c, cpu_wf c → c_ncli c = Z.of_nat (length L) → cpu_wf (f c) ∧ c_ncli (f c) = Z.of_nat (length L')) →
  L = L' → hw_ok me run D L' (upd_cpu me f h).
Proof.
  intros Hok Ha Hp Hf ->. destruct Hok as [Hme Hrun Hlt Hap Hcpu Hd Hlk Hnd Hs]. split; simpl; try done.
  - by rewrite fmap_alter_same.
  - by rewrite length_alter.
  - by rewrite fmap_alter_same.
  - intros i c. rewrite lookup_alter_list. destruct (decide (me = i)) as [<-|Hne].
    + intros (c0 & Hc0 & ->)%fmap_Some. destruct (Hcpu _ _ Hc0) as [Hwf Hn].
      rewrite decide_True in * by done. by apply Hf.
    + apply Hcpu.
Qed.

Lemma hw_ok_touched me run D L h : hw_ok me run D L h → hw_ok me run D L (upd_cpu me touched h).
Proof. intros H. eapply hw_ok_upd; eauto with xv6. Qed.

Lemma hw_ok_acquire me run D L lk h :
  hw_ok me run D L h → lk ∈ D → lk ∉ L →
  ∃ h', acquire lk h = Ret () h' ∧ hw_ok me run D (lk :: L) h'.
Proof.
  intros Hok HD HL. destruct (hw_ok_cpu _ _ _ _ _ Hok) as (c & Hc & Hwf & Hn & _).
  destruct Hok as [Hme Hrun Hlt Hap Hcpu Hd Hlk Hnd Hs].
  assert (∃ l, h_locks h !! lk = Some l) as [l Hl] by (rewrite <- Hd in HD; by apply elem_of_dom in HD).
  pose proof (Hlk _ _ Hl) as Hfree. rewrite decide_False in Hfree by done.
  eexists. split; [by eapply acquire_ok|]. split; simpl; try done.
  - by rewrite fmap_alter_same.
  - by rewrite length_alter.
  - by rewrite fmap_alter_same.
  - intros i c'. rewrite lookup_alter_list. destruct (decide (me = i)) as [<-|Hne].
    + intros (c0 & Hc0 & ->)%fmap_Some. destruct (Hcpu _ _ Hc0) as [Hwf0 Hn0].
      rewrite decide_True in * by done. split; [by apply pushed_wf|simpl; lia].
    + intros Hc'. apply Hcpu in Hc'. by rewrite decide_False in * by done.
  - rewrite dom_insert_L, Hd. set_solver.
  - intros lk' l'. destruct (decide (lk' = lk)) as [->|Hne].
    + rewrite lookup_insert_eq. intros [= <-]. by rewrite decide_True by left.
    + rewrite lookup_insert_ne by done. intros Hl'. specialize (Hlk _ _ Hl').
      destruct (decide (lk' ∈ L)); [rewrite decide_True by (by right); done|].
      rewrite decide_False; [done|]. set_solver.
  - by constructor.
  - intros lk' [->|?]%elem_of_cons; auto.
Qed.

Lemma hw_ok_initlock me run D L lk name h :
  hw_ok me run D L h → lk ∈ D → lk ∉ L → hw_ok me run D L (upd_lock lk (Spinlock false name None) h).
Proof.
  intros [Hme Hrun Hlt Hap Hcpu Hd Hlk Hnd Hs] HD HL. split; simpl; try done.
  - rewrite dom_insert_L, Hd. set_solver.
  - intros lk' l'. destruct (decide (lk' = lk)) as [->|Hne].
    + rewrite lookup_insert_eq. intros [= <-]. by rewrite decide_False by done.
    + rewrite lookup_insert_ne by done. apply Hlk.
Qed.

Lemma hw_ok_release me run D L1 L2 lk h :
  hw_ok me run D (L1 ++ lk :: L2) h →
  ∃ h', release lk h = Ret () h' ∧ hw_ok me run D (L1 ++ L2) h'.
Proof.
  intros Hok. destruct (hw_ok_cpu _ _ _ _ _ Hok) as (c & Hc & Hwf & Hn & _).
  destruct Hok as [Hme Hrun Hlt Hap Hcpu Hd Hlk Hnd Hs].
  assert (lk ∈ L1 ++ lk :: L2) as Hin by set_solver.
  assert (∃ l, h_locks h !! lk = Some l) as [l Hl] by (specialize (Hs _ Hin); rewrite <- Hd in Hs; by apply elem_of_dom in Hs).
  pose proof (Hlk _ _ Hl) as Hheld. rewrite decide_True in Hheld by done. destruct Hheld as [Hheld1 Hheld2].
  rewrite <- Permutation_middle in Hnd. apply NoDup_cons in Hnd as [Hnotin Hnd].
  assert (length (L1 ++ lk :: L2) = S (length (L1 ++ L2))) as Hlen by (rewrite !length_app; simpl; lia).
  eexists. split; [eapply (release_ok me c); eauto; lia|]. split; simpl; try done.
  - by rewrite fmap_alter_same.
  - by rewrite length_alter.
  - by rewrite fmap_alter_same.
  - intros i c'. rewrite lookup_alter_list. destruct (decide (me = i)) as [<-|Hne].
    + intros (c0 & Hc0 & ->)%fmap_Some. destruct (Hcpu _ _ Hc0) as [Hwf0 Hn0].
      rewrite decide_True in * by done. split; [apply popped_wf; [done|lia]|simpl; lia].
    + intros Hc'. apply Hcpu in Hc'. by rewrite decide_False in * by done.
  - rewrite dom_insert_L, Hd. specialize (Hs _ Hin). set_solver.
  - intros lk' l'. destruct (decide (lk' = lk)) as [->|Hne].
    + rewrite lookup_insert_eq. intros [= <-]. by rewrite decide_False.
    + rewrite lookup_insert_ne by done. intros Hl'. specialize (Hlk _ _ Hl').
      destruct (decide (lk' ∈ L1 ++ L2)) as [Hi|Hi].
      * rewrite decide_True in Hlk; [done|]. set_solver.
      * rewrite decide_False in Hlk; [done|]. set_solver.
  - intros lk' Hi. apply Hs. set_solver.
Qed.

(** [holding] answers from the list of held locks. *)
Lemma hw_ok_holding me run D L lk h :
  hw_ok me run D L h → lk ∈ D →
  ∃ h', holding lk h = Ret (bool_decide (lk ∈ L)) h' ∧ hw_ok me run D L h'.
Proof.
  intros Hok HD. destruct (hw_ok_cpu _ _ _ _ _ Hok) as (c & Hc & Hwf & Hn & _).
  assert (∃ l, h_locks h !! lk = Some l) as [l Hl]
    by (rewrite <- (ho_dom _ _ _ _ _ Hok) in HD; by apply elem_of_dom in HD).
  pose proof (ho_locks _ _ _ _ _ Hok _ _ Hl) as Hlk.
  exists (upd_cpu me touched h). split; [|by apply hw_ok_touched].
  rewrite (holding_ok me c lk l h) by done. f_equal.
  case_decide as E; [destruct Hlk as [-> ->]; by rewrite !bool_decide_eq_true_2|].
  by rewrite Hlk, (bool_decide_eq_false_2 (lk ∈ L)).
Qed.

(** [myproc]: the process of the executing CPU. *)
Lemma hw_ok_myproc me run D L h cur :
  hw_ok me run D L h → run !! me = Some cur →
  ∃ h', (pushcli ;;; let! c := mycpu in let! h0 := get in let! r := deref (h_cpus h0 !! c) in
         popcli ;;; ret (c_proc r)) h = Ret cur h' ∧ hw_ok me run D L h'.
Proof.
  intros Hok Hcur. destruct (hw_ok_cpu _ _ _ _ _ Hok) as (c & Hc & Hwf & Hn & Hrun).
  exists (upd_cpu me touched h). split; [|by apply hw_ok_touched].
  run (pushcli_ok _ _ _ Hc).
  assert (cpu_at me (pushed c) (upd_cpu me pushed h)) as Hc' by (by apply upd_cpu_at).
  run (mycpu_ok _ _ _ Hc' eq_refl). run (eq_refl : get (upd_cpu me pushed h) = Ret _ _).
  pose proof Hc' as (_ & Hl & _). rewrite Hl.
  run (eq_refl : deref (Some (pushed c)) (upd_cpu me pushed h) = Ret _ _).
  run (popcli_ok _ _ _ Hc' eq_refl ltac:(destruct Hwf; simpl; lia)).
  unfold ret. simpl. rewrite Hrun in Hcur. injection Hcur as ->. f_equal.
  rewrite upd_cpu_twice. eapply upd_cpu_ext; [done|]. by apply popped_pushed.
Qed.

(** [c->proc = v] *)
Lemma hw_ok_setproc me run D L h v :
  hw_ok me run D L h → hw_ok me (<[me:=v]> run) D L (upd_cpu me (set_cproc v) h).
Proof.
  intros [Hme Hrun Hlt Hap Hcpu Hd Hlk Hnd Hs]. split; simpl; try done.
  - rewrite <- Hrun. apply list_eq; intros i. rewrite list_lookup_fmap, lookup_alter_list.
    destruct (decide (me = i)) as [<-|Hne].
    + rewrite list_lookup_insert_eq by (by rewrite length_fmap).
      destruct (lookup_lt_is_Some_2 _ _ Hlt) as [c ->]. done.
    + by rewrite list_lookup_insert_ne, list_lookup_fmap.
  - by rewrite length_alter.
  - by rewrite fmap_alter_same.
  - intros i c. rewrite lookup_alter_list. destruct (decide (me = i)) as [<-|Hne]; [|apply Hcpu].
    intros (c0 & Hc0 & ->)%fmap_Some. by destruct (Hcpu _ _ Hc0) as [[] ?].
Qed.

(** [sti] outside any critical section. *)
Lemma hw_ok_sti me run D h :
  hw_ok me run D [] h → hw_ok me run D [] (upd_cpu me (set_if true) h).
Proof.
  intros H. eapply hw_ok_upd; [exact H|done|done| |done].
  intros c [H1 H2] Hn. split; [|done]. split; [done|]. simpl. intros. rewrite Hn in *. simpl in *. lia.
Qed.

Lemma hw_ok_keep me run D L h f :
  hw_ok me run D L h →
  (∀ c, c_apicid (f c) = c_apicid c) → (∀ c, c_proc (f c) = c_proc c) →
  (∀ c, c_ncli (f c) = c_ncli c) → (∀ c, c_if (f c) = c_if c) →
  hw_ok me run D L (upd_cpu me f h).
Proof.
  intros H Ha Hp Hn Hi. eapply hw_ok_upd; [exact H|done|done| |done].
  intros c [H1 H2] Hc. unfold cpu_wf. by rewrite Hn, Hi.
Qed.

(** A lock the CPU holds cannot be acquired again. *)
Lemma hw_ok_acquire_own me run D L lk h :
  hw_ok me run D L h → lk ∈ L → acquire lk h = Panic "acquire".
Proof.
  intros Hok HL. destruct (hw_ok_cpu _ _ _ _ _ Hok) as (c & Hc & Hwf & _).
  assert (∃ l, h_locks h !! lk = Some l) as [l Hl].
  { pose proof (ho_sub _ _ _ _ _ Hok lk HL) as HD. rewrite <- (ho_dom _ _ _ _ _ Hok) in HD. by apply elem_of_dom in HD. }
  pose proof (ho_locks _ _ _ _ _ Hok lk l Hl) as Hh. rewrite decide_True in Hh by done. destruct Hh.
  by eapply acquire_own.
Qed.
