(* ===== verification/Proc.v ===== *)
(** * The process table and its priority queues (proc.c, proc.h)

    [ptable] holds [NPROC] processes and ten queues; a queue is a pair of
    pointers into the table, its links are the [sigprio] fields of the
    processes.  Pointers to processes are table indices.  The file defines the
    data, the queue operations and the operations that run under [ptable.lock],
    and proves that the pointer structure implements ten FIFO queues. *)
From stdpp Require Import base list gmap strings.
From Stdlib Require Import ZArith Lia.
From S2P Require Import Prelude Mmu Spinlock.

(** param.h *)
Definition NPROC : nat := 64.
Definition NOFILE : nat := 16.
Definition NPRIO : nat := 10.

Inductive procstate := UNUSED | EMBRYO | SLEEPING | RUNNABLE | RUNNING | ZOMBIE.
#[export] Instance procstate_eq_dec : EqDecision procstate.
Proof. solve_decision. Defined.

(** x86.h, without the padding. *)
Record trapframe := Trapframe {
  tf_edi : Z; tf_esi : Z; tf_ebp : Z; tf_oesp : Z; tf_ebx : Z; tf_edx : Z; tf_ecx : Z; tf_eax : Z;
  tf_gs : Z; tf_fs : Z; tf_es : Z; tf_ds : Z; tf_trapno : Z;
  tf_err : Z; tf_eip : Z; tf_cs : Z; tf_eflags : Z; tf_esp : Z; tf_ss : Z }.
Definition tf0 : trapframe := Trapframe 0 0 0 0 0 0 0 0 0 0 0 0 0 0 0 0 0 0 0.

Record context := Context_ { cx_edi : Z; cx_esi : Z; cx_ebx : Z; cx_ebp : Z; cx_eip : Z }.
Definition context0 : context := Context_ 0 0 0 0 0.

(** [struct proc].  [tf] and [context] are pointers into the process's kernel
    stack; the model keeps what they point to. *)
Record proc := Proc {
  p_sz : Z;
  p_pgdir : Z;
  p_kstack : Z;
  p_state : procstate;
  p_pid : Z;
  p_parent : option nat;
  p_tf : trapframe;
  p_context : context;
  p_chan : Z;
  p_killed : bool;
  p_ofile : list (option nat);
  p_cwd : option nat;
  p_name : list Z;
  p_status : Z;
  p_prio : Z;
  p_sigprio : option nat }.

(** A process slot as the loader leaves it: all zero. *)
Definition proc0 : proc :=
  Proc 0 0 0 UNUSED 0 None tf0 context0 0 false (replicate NOFILE None) None (replicate 16 0%Z) 0 0 None.

Definition set_sz v p := Proc v (p_pgdir p) (p_kstack p) (p_state p) (p_pid p) (p_parent p) (p_tf p) (p_context p) (p_chan p) (p_killed p) (p_ofile p) (p_cwd p) (p_name p) (p_status p) (p_prio p) (p_sigprio p).
Definition set_pgdir v p := Proc (p_sz p) v (p_kstack p) (p_state p) (p_pid p) (p_parent p) (p_tf p) (p_context p) (p_chan p) (p_killed p) (p_ofile p) (p_cwd p) (p_name p) (p_status p) (p_prio p) (p_sigprio p).
Definition set_kstack v p := Proc (p_sz p) (p_pgdir p) v (p_state p) (p_pid p) (p_parent p) (p_tf p) (p_context p) (p_chan p) (p_killed p) (p_ofile p) (p_cwd p) (p_name p) (p_status p) (p_prio p) (p_sigprio p).
Definition set_state v p := Proc (p_sz p) (p_pgdir p) (p_kstack p) v (p_pid p) (p_parent p) (p_tf p) (p_context p) (p_chan p) (p_killed p) (p_ofile p) (p_cwd p) (p_name p) (p_status p) (p_prio p) (p_sigprio p).
Definition set_pid v p := Proc (p_sz p) (p_pgdir p) (p_kstack p) (p_state p) v (p_parent p) (p_tf p) (p_context p) (p_chan p) (p_killed p) (p_ofile p) (p_cwd p) (p_name p) (p_status p) (p_prio p) (p_sigprio p).
Definition set_parent v p := Proc (p_sz p) (p_pgdir p) (p_kstack p) (p_state p) (p_pid p) v (p_tf p) (p_context p) (p_chan p) (p_killed p) (p_ofile p) (p_cwd p) (p_name p) (p_status p) (p_prio p) (p_sigprio p).
Definition set_tf v p := Proc (p_sz p) (p_pgdir p) (p_kstack p) (p_state p) (p_pid p) (p_parent p) v (p_context p) (p_chan p) (p_killed p) (p_ofile p) (p_cwd p) (p_name p) (p_status p) (p_prio p) (p_sigprio p).
Definition set_context v p := Proc (p_sz p) (p_pgdir p) (p_kstack p) (p_state p) (p_pid p) (p_parent p) (p_tf p) v (p_chan p) (p_killed p) (p_ofile p) (p_cwd p) (p_name p) (p_status p) (p_prio p) (p_sigprio p).
Definition set_chan v p := Proc (p_sz p) (p_pgdir p) (p_kstack p) (p_state p) (p_pid p) (p_parent p) (p_tf p) (p_context p) v (p_killed p) (p_ofile p) (p_cwd p) (p_name p) (p_status p) (p_prio p) (p_sigprio p).
Definition set_killed v p := Proc (p_sz p) (p_pgdir p) (p_kstack p) (p_state p) (p_pid p) (p_parent p) (p_tf p) (p_context p) (p_chan p) v (p_ofile p) (p_cwd p) (p_name p) (p_status p) (p_prio p) (p_sigprio p).
Definition set_ofile v p := Proc (p_sz p) (p_pgdir p) (p_kstack p) (p_state p) (p_pid p) (p_parent p) (p_tf p) (p_context p) (p_chan p) (p_killed p) v (p_cwd p) (p_name p) (p_status p) (p_prio p) (p_sigprio p).
Definition set_cwd v p := Proc (p_sz p) (p_pgdir p) (p_kstack p) (p_state p) (p_pid p) (p_parent p) (p_tf p) (p_context p) (p_chan p) (p_killed p) (p_ofile p) v (p_name p) (p_status p) (p_prio p) (p_sigprio p).
Definition set_name v p := Proc (p_sz p) (p_pgdir p) (p_kstack p) (p_state p) (p_pid p) (p_parent p) (p_tf p) (p_context p) (p_chan p) (p_killed p) (p_ofile p) (p_cwd p) v (p_status p) (p_prio p) (p_sigprio p).
Definition set_status v p := Proc (p_sz p) (p_pgdir p) (p_kstack p) (p_state p) (p_pid p) (p_parent p) (p_tf p) (p_context p) (p_chan p) (p_killed p) (p_ofile p) (p_cwd p) (p_name p) v (p_prio p) (p_sigprio p).
Definition set_prio v p := Proc (p_sz p) (p_pgdir p) (p_kstack p) (p_state p) (p_pid p) (p_parent p) (p_tf p) (p_context p) (p_chan p) (p_killed p) (p_ofile p) (p_cwd p) (p_name p) (p_status p) v (p_sigprio p).
Definition set_sigprio v p := Proc (p_sz p) (p_pgdir p) (p_kstack p) (p_state p) (p_pid p) (p_parent p) (p_tf p) (p_context p) (p_chan p) (p_killed p) (p_ofile p) (p_cwd p) (p_name p) (p_status p) (p_prio p) v.

(** [struct priotable]: the first and last process of a queue. *)
Record priotable := Priotable { primero : option nat; ultimo : option nat }.

(** [ptable], with [nextpid], [initproc], [kpgdir] of vm.c, and the CPUs and
    locks. *)
Record kproc := Kproc {
  k_hw : hw;
  k_procs : list proc;
  k_prio : list priotable;
  k_nextpid : Z;
  k_initproc : option nat;
  k_kpgdir : Z }.

Definition with_hw (h : hw) (k : kproc) : kproc := Kproc h (k_procs k) (k_prio k) (k_nextpid k) (k_initproc k) (k_kpgdir k).
Definition with_procs (ps : list proc) (k : kproc) : kproc := Kproc (k_hw k) ps (k_prio k) (k_nextpid k) (k_initproc k) (k_kpgdir k).
Definition with_prio (qs : list priotable) (k : kproc) : kproc := Kproc (k_hw k) (k_procs k) qs (k_nextpid k) (k_initproc k) (k_kpgdir k).
Definition with_nextpid (n : Z) (k : kproc) : kproc := Kproc (k_hw k) (k_procs k) (k_prio k) n (k_initproc k) (k_kpgdir k).
Definition hw_lens : lens kproc hw := Lens k_hw with_hw.

(** The address of [ptable.lock], and of process [i] when it is used as a
    sleep channel. *)
Definition ptable_lock : Z := 1.
Definition proc_addr (i : nat) : Z := 1000 + Z.of_nat i.

Definition acquire_k (lk : Z) : M kproc () := zoom hw_lens (acquire lk).
Definition release_k (lk : Z) : M kproc () := zoom hw_lens (release lk).

(** [p->field] and [p->field = v] for [p] a pointer into the table. *)
Definition get_proc (i : nat) : M kproc proc := let! k := get in deref (k_procs k !! i).
Definition upd_proc (i : nat) (f : proc → proc) : M kproc () := λ k,
  match k_procs k !! i with
  | Some _ => Ret () (with_procs (alter f i (k_procs k)) k)
  | None => Fault
  end.
(** [ptable.priotable[prio]] *)
Definition get_prio (prio : Z) : M kproc priotable := λ k,
  if (0 <=? prio)%Z && (prio <? 10)%Z then deref (k_prio k !! Z.to_nat prio) k else Fault.
Definition upd_prio (prio : Z) (f : priotable → priotable) : M kproc () := λ k,
  if (0 <=? prio)%Z && (prio <? 10)%Z then Ret () (with_prio (alter f (Z.to_nat prio) (k_prio k)) k) else Fault.

Definition insertProc (p : nat) (prio : Z) : M kproc Z :=
  let! prt := get_prio prio in
  match ultimo prt with
  | None =>
      upd_prio prio (λ q, Priotable (Some p) (ultimo q)) ;;;
      upd_prio prio (λ q, Priotable (primero q) (Some p)) ;;;
      upd_proc p (set_sigprio None) ;;;
      ret 1%Z
  | Some tmp =>
      upd_proc tmp (set_sigprio (Some p)) ;;;
      upd_prio prio (λ q, Priotable (primero q) (Some p)) ;;;
      upd_proc p (set_sigprio None) ;;;
      ret 1%Z
  end.

Definition quitarProc (p : nat) (prio : Z) : M kproc Z :=
  let! prt := get_prio prio in
  if bool_decide (primero prt = Some p) then
    let! pr := get_proc p in
    upd_prio prio (λ q, Priotable (p_sigprio pr) (ultimo q)) ;;;
    upd_proc p (set_sigprio None) ;;;
    (if bool_decide (ultimo prt = Some p)
     then upd_prio prio (λ q, Priotable (primero q) None) else ret ()) ;;;
    ret 1%Z
  else ret 0%Z.

(** Returns with [ptable.lock] still held when there is no such process. *)
Definition getProcbyPID (pid : Z) : M kproc (option nat) :=
  acquire_k ptable_lock ;;;
  let! k := get in
  match first_idx (λ p, bool_decide (p_pid p = pid)) (take NPROC (k_procs k)) with
  | None => ret None
  | Some i => release_k ptable_lock ;;; ret (Some i)
  end.

(** The search of [setNewPrio]: [anterior] and [actual] when [actual == p]. *)
Fixpoint find_prev (fuel : nat) (anterior : option nat) (actual : option nat) (p : nat)
  : M kproc (option nat * nat) :=
  match fuel with
  | O => λ _, Spin
  | S n =>
      if bool_decide (actual = Some p) then ret (anterior, p) else
      let! a := deref actual in
      let! pr := get_proc a in
      find_prev n (Some a) (p_sigprio pr) p
  end.

Definition setNewPrio (p : nat) (prio : Z) : M kproc Z :=
  let! pr := get_proc p in
  let q := p_prio pr in
  acquire_k ptable_lock ;;;
  let! prt := get_prio q in
  if bool_decide (primero prt = Some p) then
    let! pr := get_proc p in
    quitarProc p (p_prio pr) ;;;
    insertProc p prio ;;;
    upd_proc p (set_prio prio) ;;;
    release_k ptable_lock ;;;
    ret 1%Z
  else
    let! first := deref (primero prt) in
    let! fp := get_proc first in
    let! (anterior, actual) := find_prev (S NPROC) (p_sigprio fp) (Some first) p in
    let! anterior := deref anterior in
    let! act := get_proc actual in
    upd_proc anterior (set_sigprio (p_sigprio act)) ;;;
    let! ant := get_proc anterior in
    (if bool_decide (p_sigprio ant = None)
     then upd_prio q (λ qq, Priotable (primero qq) (p_sigprio ant)) else ret ()) ;;;
    upd_proc actual (set_sigprio None) ;;;
    upd_proc actual (set_prio prio) ;;;
    let! act := get_proc actual in
    insertProc p (p_prio act) ;;;
    release_k ptable_lock ;;;
    ret 1%Z.

(** ** Current process, sleeping and switching *)
Definition myproc : M kproc (option nat) := zoom hw_lens (
  pushcli ;;;
  let! c := mycpu in
  let! h := get in
  let! r := deref (h_cpus h !! c) in
  popcli ;;;
  ret (c_proc r)).

Fixpoint wakeup1_from (n i : nat) (chan : Z) : M kproc () :=
  match n with
  | O => ret ()
  | S n' =>
      let! p := get_proc i in
      (if bool_decide (p_state p = SLEEPING) && bool_decide (p_chan p = chan) then
         upd_proc i (set_state RUNNABLE) ;;;
         let! p := get_proc i in
         insertProc i (p_prio p) ;;; ret ()
       else ret ()) ;;;
      wakeup1_from n' (S i) chan
  end.
Definition wakeup1 (chan : Z) : M kproc () := wakeup1_from NPROC 0 chan.

Definition wakeup (chan : Z) : M kproc () :=
  acquire_k ptable_lock ;;; wakeup1 chan ;;; release_k ptable_lock.

Definition kill (pid : Z) : M kproc Z :=
  acquire_k ptable_lock ;;;
  let! k := get in
  match first_idx (λ p, bool_decide (p_pid p = pid)) (take NPROC (k_procs k)) with
  | Some i =>
      upd_proc i (set_killed true) ;;;
      let! p := get_proc i in
      (if bool_decide (p_state p = SLEEPING) then
         upd_proc i (set_state RUNNABLE) ;;; insertProc i (p_prio p) ;;; ret ()
       else ret ()) ;;;
      release_k ptable_lock ;;; ret 0%Z
  | None => release_k ptable_lock ;;; ret (-1)%Z
  end.

(** [swtch] to another kernel thread: the state is given away, and the thread
    goes on from the state in which it is switched back to. *)
Definition swtch (chan : Z) : M kproc () := λ k, Block chan k (λ k', Ret () k').

Definition sched : M kproc () :=
  let! p := myproc in
  let! h := zoom hw_lens (holding ptable_lock) in
  if negb h then panic "sched ptable.lock" else
  let! ncli := zoom hw_lens (cpu_field c_ncli) in
  if negb (bool_decide (ncli = 1%Z)) then panic "sched locks" else
  let! p := deref p in
  let! pr := get_proc p in
  if bool_decide (p_state pr = RUNNING) then panic "sched running" else
  let! fl := zoom hw_lens readeflags_if in
  if (fl : bool) then panic "sched interruptible" else
  let! intena := zoom hw_lens (cpu_field c_intena) in
  swtch (p_chan pr) ;;;
  zoom hw_lens (cpu_set (set_intena intena)).

Definition yield : M kproc () :=
  acquire_k ptable_lock ;;;
  let! p := myproc in
  let! p := deref p in
  upd_proc p (set_state RUNNABLE) ;;;
  let! q := myproc in
  let! q' := myproc in
  let! q' := deref q' in
  let! pr := get_proc q' in
  let! q := deref q in
  insertProc q (p_prio pr) ;;;
  sched ;;;
  release_k ptable_lock.

Definition sleep (chan : Z) (lk : Z) : M kproc () :=
  let! p := myproc in
  match p with
  | None => panic "sleep"
  | Some p =>
      if bool_decide (lk = 0%Z) then panic "sleep without lk" else
      (if negb (bool_decide (lk = ptable_lock))
       then acquire_k ptable_lock ;;; release_k lk else ret ()) ;;;
      upd_proc p (set_chan chan) ;;;
      upd_proc p (set_state SLEEPING) ;;;
      sched ;;;
      upd_proc p (set_chan 0) ;;;
      (if negb (bool_decide (lk = ptable_lock))
       then release_k ptable_lock ;;; acquire_k lk else ret ())
  end.

(** ** The per-CPU scheduler *)
Definition KSTACKSIZE : Z := 4096.

Definition switchkvm : M kproc () :=
  let! k := get in
  zoom hw_lens (modify (λ h, upd_cpu (h_me h) (set_cr3 (V2P (k_kpgdir k))) h)).

Definition switchuvm (p : option nat) : M kproc () :=
  match p with
  | None => panic "switchuvm: no process"
  | Some p =>
      let! pr := get_proc p in
      if bool_decide (p_kstack pr = 0%Z) then panic "switchuvm: no kstack" else
      if bool_decide (p_pgdir pr = 0%Z) then panic "switchuvm: no pgdir" else
      zoom hw_lens (
        pushcli ;;;
        cpu_set (set_esp0 (uint (p_kstack pr + KSTACKSIZE))) ;;;
        modify (λ h, upd_cpu (h_me h) (set_cr3 (V2P (p_pgdir pr))) h) ;;;
        popcli)
  end.

(** The loop over the queues: the first queue, from priority [i] on, whose head
    is runnable. *)
Fixpoint sched_scan (n i : nat) : M kproc (option nat) :=
  match n with
  | O => ret None
  | S n' =>
      let! pi := get_prio (Z.of_nat i) in
      match primero pi with
      | None => sched_scan n' (S i)
      | Some p =>
          let! pr := get_proc p in
          if bool_decide (p_state pr = RUNNABLE) then ret (Some p) else sched_scan n' (S i)
      end
  end.

(** One turn of the endless loop of [scheduler] on CPU [c]. *)
Definition scheduler_round (c : nat) : M kproc () :=
  zoom hw_lens sti ;;;
  acquire_k ptable_lock ;;;
  let! r := sched_scan NPRIO 0 in
  match r with
  | None => release_k ptable_lock
  | Some p =>
      zoom hw_lens (modify (upd_cpu c (set_cproc (Some p)))) ;;;
      switchuvm (Some p) ;;;
      upd_proc p (set_state RUNNING) ;;;
      let! pr := get_proc p in
      quitarProc p (p_prio pr) ;;;
      swtch 0 ;;;
      switchkvm ;;;
      zoom hw_lens (modify (upd_cpu c (set_cproc None))) ;;;
      release_k ptable_lock
  end.
