(* ===== verification/RunQueue.v ===== *)
(** * The priority queues as lists

    The abstract state of the ready queues is a list of ten lists of process
    indices.  [wf_queues] relates it to the [primero]/[ultimo]/[sigprio]
    pointers; the lemmas show what each queue operation does to the lists. *)
From stdpp Require Import base list gmap strings.
From Stdlib Require Import ZArith Lia.
From S2P Require Import Prelude Spinlock Proc.

(** The pointers [q] describe the queue [l]: each process is linked to the next
    one, the last to none. *)
Definition is_queue (ps : list proc) (q : priotable) (l : list nat) : Prop :=
  primero q = head l ∧ ultimo q = last l ∧
  ∀ i x, l !! i = Some x → ∃ p, ps !! x = Some p ∧ p_sigprio p = l !! S i.

Record wf_queues (ps : list proc) (prs : list priotable) (qs : list (list nat)) : Prop := {
  wq_len : length prs = NPRIO;
  wq_lens : length qs = NPRIO;
  wq_q k q l : prs !! k = Some q → qs !! k = Some l → is_queue ps q l;
  wq_nodup k l : qs !! k = Some l → NoDup l;
  wq_disj k k' l l' x : qs !! k = Some l → qs !! k' = Some l' → x ∈ l → x ∈ l' → k = k' }.

(** Two tables that differ in the queue links only. *)
Definition sig_eq (ps ps' : list proc) : Prop := set_sigprio None <$> ps = set_sigprio None <$> ps'.
#[export] Instance sig_eq_equiv : Equivalence sig_eq.
Proof. unfold sig_eq. split; [by intros ?|by intros ??|intros ???; by intros ->]. Qed.

Lemma sig_eq_alter ps i v : sig_eq ps (alter (set_sigprio v) i ps).
Proof. unfold sig_eq. by rewrite fmap_alter_same. Qed.

Lemma sig_eq_lookup ps ps' i p : sig_eq ps ps' → ps !! i = Some p →
  ∃ p', ps' !! i = Some p' ∧ set_sigprio None p = set_sigprio None p'.
Proof.
  unfold sig_eq. intros H Hp. assert ((set_sigprio None <$> ps) !! i = (set_sigprio None <$> ps') !! i) as E by (by rewrite H).
  rewrite !list_lookup_fmap, Hp in E. destruct (ps' !! i) as [p'|]; simpl in E; [|done].
  exists p'. split; [done|congruence].
Qed.

Lemma sig_eq_length ps ps' : sig_eq ps ps' → length ps = length ps'.
Proof. unfold sig_eq. intros H. apply (f_equal length) in H. by rewrite !length_fmap in H. Qed.

Lemma sig_eq_field {A} (f : proc → A) p p' :
  (∀ v p, f (set_sigprio v p) = f p) → set_sigprio None p = set_sigprio None p' → f p = f p'.
Proof. intros Hf H. apply (f_equal f) in H. by rewrite !Hf in H. Qed.

(** ** Queues under changes to the table *)
Lemma is_queue_other ps q l f x : x ∉ l → is_queue ps q l → is_queue (alter f x ps) q l.
Proof.
  intros Hx (Hh & Hl & Hc). split_and!; [done..|]. intros i y Hy.
  destruct (Hc i y Hy) as (p & Hp & Hs). exists p. split; [|done].
  rewrite list_lookup_alter_ne; [done|]. intros ->. apply Hx. by eapply list_elem_of_lookup_2.
Qed.

Lemma is_queue_keep ps q l f x :
  (∀ p, p_sigprio (f p) = p_sigprio p) → is_queue ps q l → is_queue (alter f x ps) q l.
Proof.
  intros Hf (Hh & Hl & Hc). split_and!; [done..|]. intros i y Hy.
  destruct (Hc i y Hy) as (p & Hp & Hs). rewrite lookup_alter_list, Hp.
  case_decide; [exists (f p)|exists p]; simpl; rewrite ?Hf; done.
Qed.

Lemma wf_queues_keep ps prs qs f x :
  (∀ p, p_sigprio (f p) = p_sigprio p) → wf_queues ps prs qs → wf_queues (alter f x ps) prs qs.
Proof. intros Hf []; split; eauto using is_queue_keep. Qed.

Lemma is_queue_single ps x p :
  ps !! x = Some p → is_queue (alter (set_sigprio None) x ps) (Priotable (Some x) (Some x)) [x].
Proof.
  intros Hp. split_and!; [done..|]. intros [|i] y [= <-].
  exists (set_sigprio None p). by rewrite list_lookup_alter_eq, Hp.
Qed.

Lemma is_queue_snoc ps q l t x p :
  is_queue ps q l → NoDup l → last l = Some t → x ∉ l → ps !! x = Some p →
  is_queue (alter (set_sigprio None) x (alter (set_sigprio (Some x)) t ps))
           (Priotable (primero q) (Some x)) (l ++ [x]).
Proof.
  intros (Hh & Hl & Hc) Hnd Ht Hx Hp.
  assert (t ≠ x) as Htx by (intros ->; apply Hx; by apply last_Some_elem_of).
  split_and!; simpl.
  - rewrite Hh. by destruct l.
  - by rewrite last_snoc.
  - intros i y Hy. rewrite lookup_alter_list.
    apply lookup_app_Some in Hy as [Hy|[Hge Hy]].
    + destruct (Hc i y Hy) as (py & Hpy & Hs).
      rewrite decide_False by (intros ->; apply Hx; by eapply list_elem_of_lookup_2).
      rewrite lookup_alter_list. case_decide as Hty.
      * subst y. exists (set_sigprio (Some x) py). rewrite Hpy. split; [done|]. simpl.
        rewrite last_lookup in Ht. assert (i = pred (length l)) as ->
          by (eapply NoDup_lookup; eauto).
        destruct l; [done|]. simpl. by rewrite lookup_app_r, Nat.sub_diag by lia.
      * exists py. split; [done|]. rewrite Hs.
        assert (S i < length l); [|by rewrite lookup_app_l].
        apply lookup_lt_Some in Hy as Hlt. destruct (decide (S i = length l)) as [E|]; [|lia].
        rewrite last_lookup, <- E in Ht. simpl in Ht. congruence.
    + destruct (i - length l) as [|n] eqn:E; [|by destruct n]. injection Hy as <-.
      rewrite decide_True by done. rewrite list_lookup_alter_ne, Hp by done.
      exists (set_sigprio None p). split; [done|]. simpl.
      symmetry. apply lookup_ge_None_2. rewrite length_app; simpl; lia.
Qed.

Lemma is_queue_tail ps q x l p :
  is_queue ps q (x :: l) → NoDup (x :: l) → ps !! x = Some p →
  p_sigprio p = head l ∧
  is_queue (alter (set_sigprio None) x ps) (Priotable (head l) (last l)) l.
Proof.
  intros (Hh & Hl & Hc) [Hx Hnd]%NoDup_cons Hp. split.
  - destruct (Hc 0 x eq_refl) as (p' & Hp' & Hs). simplify_eq. rewrite Hs. by destruct l.
  - split_and!; [done..|]. intros i y Hy. rewrite list_lookup_alter_ne.
    + exact (Hc (S i) y Hy).
    + intros ->. apply Hx. by eapply list_elem_of_lookup_2.
Qed.

(** ** The operations *)
Definition queued (qs : list (list nat)) (x : nat) : Prop := ∃ k l, qs !! k = Some l ∧ x ∈ l.

Lemma get_prio_ok k z q : (0 ≤ z < 10)%Z → k_prio k !! Z.to_nat z = Some q → get_prio z k = Ret q k.
Proof.
  intros Hz Hq. unfold get_prio, deref.
  rewrite (proj2 (Z.leb_le _ _)), (proj2 (Z.ltb_lt _ _)) by lia. simpl. by rewrite Hq.
Qed.
Lemma upd_prio_ok k z f : (0 ≤ z < 10)%Z →
  upd_prio z f k = Ret () (with_prio (alter f (Z.to_nat z) (k_prio k)) k).
Proof. intros Hz. unfold upd_prio. by rewrite (proj2 (Z.leb_le _ _)), (proj2 (Z.ltb_lt _ _)) by lia. Qed.
Lemma upd_proc_ok k i f p : k_procs k !! i = Some p →
  upd_proc i f k = Ret () (with_procs (alter f i (k_procs k)) k).
Proof. intros Hp. unfold upd_proc. by rewrite Hp. Qed.
Lemma get_proc_ok k i p : k_procs k !! i = Some p → get_proc i k = Ret p k.
Proof. intros Hp. unfold get_proc, bind, get, deref; simpl. by rewrite Hp. Qed.

(** Replacing queue [z] by one that holds [l]. *)
Lemma wf_queues_update ps prs qs ps' z f g l :
  wf_queues ps prs qs → qs !! z = Some l →
  (∀ q, prs !! z = Some q → is_queue ps' (f q) (g l)) → NoDup (g l) →
  (∀ k q l', k ≠ z → prs !! k = Some q → qs !! k = Some l' → is_queue ps' q l') →
  (∀ k l' x, k ≠ z → qs !! k = Some l' → x ∈ g l → x ∉ l') →
  wf_queues ps' (alter f z prs) (alter g z qs).
Proof.
  intros [Hn1 Hn2 Hq Hnd Hdj] Hl Hz Hndz Hoth Hdz. split.
  - by rewrite length_alter.
  - by rewrite length_alter.
  - intros k q l'. rewrite !lookup_alter_list. case_decide; subst; [|intros; by eapply Hoth].
    intros (q0 & Hq0 & ->)%fmap_Some. rewrite Hl. intros [= <-]. by apply Hz.
  - intros k l'. rewrite lookup_alter_list. case_decide; subst; [|by apply Hnd].
    rewrite Hl. by intros [= <-].
  - intros k k' l1 l2 x. rewrite !lookup_alter_list. intros H1 H2 Hx1 Hx2.
    destruct (decide (z = k)) as [<-|Hk], (decide (z = k')) as [<-|Hk']; [done|..].
    + rewrite Hl in H1. injection H1 as <-. by destruct (Hdz k' l2 x).
    + rewrite Hl in H2. injection H2 as <-. by destruct (Hdz k l1 x).
    + by eapply Hdj.
Qed.

Lemma insertProc_ok k qs x p z :
  wf_queues (k_procs k) (k_prio k) qs → k_procs k !! x = Some p → ¬ queued qs x → (0 ≤ z < 10)%Z →
  ∃ ps' prs', insertProc x z k = Ret 1%Z (with_prio prs' (with_procs ps' k)) ∧
    wf_queues ps' prs' (alter (.++ [x]) (Z.to_nat z) qs) ∧ sig_eq (k_procs k) ps'.
Proof.
  intros Hwf Hp Hx Hz. pose proof Hwf as [Hn1 Hn2 Hq Hnd Hdj].
  destruct (lookup_lt_is_Some_2 (k_prio k) (Z.to_nat z)) as [q Hqz]; [rewrite Hn1; unfold NPRIO; lia|].
  destruct (lookup_lt_is_Some_2 qs (Z.to_nat z)) as [l Hlz]; [rewrite Hn2; unfold NPRIO; lia|].
  assert (x ∉ l) as Hxl by (intros ?; apply Hx; by exists (Z.to_nat z), l).
  pose proof (Hq _ _ _ Hqz Hlz) as Hisq. pose proof Hisq as (Hh & Hlast & Hc).
  assert (∀ k' l', qs !! k' = Some l' → x ∉ l') as Hxo by (intros k' l' Hk' ?; apply Hx; by exists k', l').
  unfold insertProc. run (get_prio_ok _ _ _ Hz Hqz). destruct (ultimo q) as [t|] eqn:Hu.
  - assert (t ∈ l) as Ht by (apply last_Some_elem_of; congruence).
    assert (∃ pt, k_procs k !! t = Some pt) as [pt Hpt].
    { apply list_elem_of_lookup in Ht as [i Hi]. destruct (Hc i t Hi) as (pt & ? & _). by exists pt. }
    run (upd_proc_ok _ _ _ _ Hpt). run (upd_prio_ok _ _ _ Hz).
    assert (t ≠ x) by (intros ->; done).
    erewrite bind_Ret; [|eapply upd_proc_ok; simpl; by rewrite list_lookup_alter_ne].
    exists (alter (set_sigprio None) x (alter (set_sigprio (Some x)) t (k_procs k))),
      (alter (λ q, Priotable (primero q) (Some x)) (Z.to_nat z) (k_prio k)).
    split; [reflexivity|]. split.
    + eapply wf_queues_update; try done.
      * intros q' Hq'. rewrite Hqz in Hq'. injection Hq' as <-. eapply is_queue_snoc; eauto.
      * apply NoDup_app. split_and!; eauto using NoDup_singleton.
        intros y Hy ->%list_elem_of_singleton. done.
      * intros k' q' l' Hk' Hq' Hl'. apply is_queue_other; [by eapply Hxo|].
        apply is_queue_other; [|by eapply Hq]. intros Htl'. by destruct Hk'; eapply Hdj.
      * intros k' l' y Hk' Hl' [Hy| ->%list_elem_of_singleton]%elem_of_app Hy'; [|by eapply Hxo].
        by destruct Hk'; eapply Hdj.
    + rewrite (sig_eq_alter _ t (Some x)) at 1. apply sig_eq_alter.
  - assert (l = []) as -> by (destruct l using rev_ind; [done|]; rewrite last_snoc in Hlast; done).
    run (upd_prio_ok _ _ _ Hz). run (upd_prio_ok _ _ _ Hz).
    erewrite bind_Ret; [|by eapply upd_proc_ok]. simpl.
    rewrite list_alter_alter_eq.
    eexists (alter (set_sigprio None) x (k_procs k)), (alter _ (Z.to_nat z) (k_prio k)).
    split; [reflexivity|]. split; [|apply sig_eq_alter].
    eapply wf_queues_update; try done.
    + intros q' Hq'. by eapply is_queue_single.
    + apply NoDup_singleton.
    + intros k' q' l' Hk' Hq' Hl'. apply is_queue_other; [by eapply Hxo|by eapply Hq].
    + intros k' l' y Hk' Hl' ->%list_elem_of_singleton. by eapply Hxo.
Qed.

Lemma quitarProc_ok k qs x l z :
  wf_queues (k_procs k) (k_prio k) qs → (0 ≤ z < 10)%Z → qs !! Z.to_nat z = Some (x :: l) →
  ∃ ps' prs', quitarProc x z k = Ret 1%Z (with_prio prs' (with_procs ps' k)) ∧
    wf_queues ps' prs' (<[Z.to_nat z := l]> qs) ∧ sig_eq (k_procs k) ps'.
Proof.
  intros Hwf Hz Hlz. pose proof Hwf as [Hn1 Hn2 Hq Hnd Hdj].
  destruct (lookup_lt_is_Some_2 (k_prio k) (Z.to_nat z)) as [q Hqz]; [rewrite Hn1; unfold NPRIO; lia|].
  pose proof (Hq _ _ _ Hqz Hlz) as Hisq. pose proof Hisq as (Hh & Hlast & Hc).
  pose proof (Hnd _ _ Hlz) as Hndx. pose proof Hndx as [Hxl Hndl]%NoDup_cons.
  destruct (Hc 0 x eq_refl) as (p & Hp & _).
  destruct (is_queue_tail _ _ _ _ _ Hisq Hndx Hp) as [Hsig Htail].
  unfold quitarProc. run (get_prio_ok _ _ _ Hz Hqz).
  rewrite bool_decide_eq_true_2 by (by rewrite Hh). run (get_proc_ok _ _ _ Hp).
  run (upd_prio_ok _ _ _ Hz).
  erewrite bind_Ret; [|by eapply upd_proc_ok]. simpl.
  rewrite list_insert_alter.
  assert (∀ f, (∀ q', k_prio k !! Z.to_nat z = Some q' → f q' = Priotable (head l) (last l)) →
    wf_queues (alter (set_sigprio None) x (k_procs k)) (alter f (Z.to_nat z) (k_prio k))
      (alter (λ _, l) (Z.to_nat z) qs)) as Hgoal.
  { intros f Hf. eapply wf_queues_update; try done.
    - intros q' Hq'. by rewrite Hf.
    - intros k' q' l' Hk' Hq' Hl'. apply is_queue_other; [|by eapply Hq].
      intros Hxl'. destruct Hk'. eapply Hdj; eauto. by left.
    - intros k' l' y Hk' Hl' Hy Hy'. destruct Hk'. eapply Hdj; eauto. by right. }
  case_bool_decide as Hu.
  - run (upd_prio_ok _ _ _ Hz). simpl. rewrite list_alter_alter_eq.
    eexists (alter (set_sigprio None) x (k_procs k)), (alter _ (Z.to_nat z) (k_prio k)). split; [reflexivity|].
    split; [|apply sig_eq_alter]. apply Hgoal. intros q' Hq'. unfold compose; simpl. rewrite Hsig. f_equal.
    destruct l as [|y l]; [done|]. exfalso. rewrite Hlast, last_cons_cons in Hu.
    apply Hxl. apply last_Some_elem_of. done.
  - eexists (alter (set_sigprio None) x (k_procs k)), (alter _ (Z.to_nat z) (k_prio k)).
    split; [reflexivity|]. split; [|apply sig_eq_alter]. apply Hgoal.
    intros q' Hq'. rewrite Hqz in Hq'. injection Hq' as <-. simpl. rewrite Hsig. f_equal.
    rewrite Hlast. destruct l as [|y l]; [by rewrite Hlast in Hu|by rewrite last_cons_cons].
Qed.

(** ** The run-queue invariant

    With [ptable.lock] free (or held at a switch), the processes in queue [k]
    are exactly the runnable processes of priority [k]. *)
Definition prio_ok (p : proc) : Prop := (0 ≤ p_prio p < 10)%Z.

Record sched_wf (ps : list proc) (prs : list priotable) (qs : list (list nat)) : Prop := {
  sw_len : length ps = NPROC;
  sw_q : wf_queues ps prs qs;
  sw_run x p k l : ps !! x = Some p → qs !! k = Some l →
    (x ∈ l ↔ p_state p = RUNNABLE ∧ p_prio p = Z.of_nat k);
  sw_prio x p : ps !! x = Some p → prio_ok p }.

Lemma sched_wf_not_queued ps prs qs x p :
  sched_wf ps prs qs → ps !! x = Some p → p_state p ≠ RUNNABLE → ¬ queued qs x.
Proof.
  intros Hwf Hp Hs (k & l & Hl & Hx). apply Hs.
  by apply (sw_run _ _ _ Hwf x p k l Hp Hl) in Hx as [? _].
Qed.

(** A change to one process that keeps its link and its place in the queues. *)
Lemma sched_wf_upd ps prs qs f x :
  sched_wf ps prs qs → (∀ p, p_sigprio (f p) = p_sigprio p) →
  (∀ p, ps !! x = Some p → prio_ok (f p) ∧
     ((p_state (f p) = p_state p ∧ p_prio (f p) = p_prio p) ∨
      (p_state (f p) ≠ RUNNABLE ∧ p_state p ≠ RUNNABLE))) →
  sched_wf (alter f x ps) prs qs.
Proof.
  intros [Hn Hq Hr Hp] Hf Hx. split.
  - by rewrite length_alter.
  - by apply wf_queues_keep.
  - intros y p k l. rewrite lookup_alter_list. case_decide; [subst y|by apply Hr].
    intros (p0 & Hp0 & ->)%fmap_Some Hl. rewrite (Hr x p0 k l Hp0 Hl).
    destruct (Hx p0 Hp0) as [_ [[-> ->]|[H1 H2]]]; [done|]. split; intros [? ?]; done.
  - intros y p. rewrite lookup_alter_list. case_decide; [subst y|by apply Hp].
    intros (p0 & Hp0 & ->)%fmap_Some. by apply Hx.
Qed.

(** The invariant does not see the links beyond [wf_queues]. *)
Lemma sched_wf_sig ps ps' prs' qs' :
  length ps = NPROC → (∀ x p, ps !! x = Some p → prio_ok p) →
  sig_eq ps ps' → wf_queues ps' prs' qs' →
  (∀ x p k l, ps !! x = Some p → qs' !! k = Some l →
    (x ∈ l ↔ p_state p = RUNNABLE ∧ p_prio p = Z.of_nat k)) →
  sched_wf ps' prs' qs'.
Proof.
  intros Hn Hp Hs Hq' Hr'. symmetry in Hs. split.
  - by rewrite (sig_eq_length _ _ Hs).
  - done.
  - intros x p' k l Hp' Hl. destruct (sig_eq_lookup _ _ _ _ Hs Hp') as (p & Hp0 & E).
    rewrite (sig_eq_field p_state _ _ ltac:(done) E), (sig_eq_field p_prio _ _ ltac:(done) E). by apply Hr'.
  - intros x p' Hp'. destruct (sig_eq_lookup _ _ _ _ Hs Hp') as (p & Hp0 & E).
    unfold prio_ok. rewrite (sig_eq_field p_prio _ _ ltac:(done) E). by eapply Hp.
Qed.

Lemma prio_ok_alter ps prs qs f x :
  sched_wf ps prs qs → (∀ p, p_prio (f p) = p_prio p) →
  ∀ y p, alter f x ps !! y = Some p → prio_ok p.
Proof.
  intros Hwf Hf y p. rewrite lookup_alter_list. case_decide; [|apply (sw_prio _ _ _ Hwf)].
  intros (p0 & Hp0 & ->)%fmap_Some. unfold prio_ok. rewrite Hf. by eapply (sw_prio _ _ _ Hwf).
Qed.

(** [p->state = RUNNABLE; insertProc(p, p->prio)] *)
Lemma make_runnable_ok k qs x p :
  sched_wf (k_procs k) (k_prio k) qs → k_procs k !! x = Some p → p_state p ≠ RUNNABLE →
  ∃ ps' prs', insertProc x (p_prio p) (with_procs (alter (set_state RUNNABLE) x (k_procs k)) k)
      = Ret 1%Z (with_prio prs' (with_procs ps' k)) ∧
    sched_wf ps' prs' (alter (.++ [x]) (Z.to_nat (p_prio p)) qs) ∧
    sig_eq (alter (set_state RUNNABLE) x (k_procs k)) ps'.
Proof.
  intros Hwf Hp Hs. pose proof (sw_prio _ _ _ Hwf x p Hp) as Hz. unfold prio_ok in Hz.
  set (k1 := with_procs (alter (set_state RUNNABLE) x (k_procs k)) k).
  assert (wf_queues (k_procs k1) (k_prio k1) qs) as Hq1 by (apply wf_queues_keep; [done|apply Hwf]).
  destruct (insertProc_ok k1 qs x (set_state RUNNABLE p) (p_prio p) Hq1) as (ps' & prs' & Hi & Hq' & Hsig).
  { simpl. by rewrite list_lookup_alter_eq, Hp. } { by eapply sched_wf_not_queued. } { done. }
  exists ps', prs'. split; [exact Hi|]. split; [|exact Hsig].
  eapply sched_wf_sig; [|by eapply (prio_ok_alter _ _ _ (set_state RUNNABLE) x Hwf)|exact Hsig|done|].
  { simpl. rewrite length_alter. apply Hwf. }
  intros y p0 kk l Hp0 Hl. simpl in Hp0. rewrite lookup_alter_list in Hp0. rewrite lookup_alter_list in Hl.
  destruct (decide (x = y)) as [<-|Hxy].
  - rewrite Hp in Hp0. injection Hp0 as <-. simpl.
    destruct (decide (Z.to_nat (p_prio p) = kk)) as [<-|Hkk].
    + apply fmap_Some in Hl as (l0 & Hl0 & ->). rewrite elem_of_app, list_elem_of_singleton.
      split; [intros _; split; [done|lia]|by right].
    + split; [|intros [_ ?]; lia]. intros Hx. destruct Hs. by eapply (sw_run _ _ _ Hwf).
  - destruct (decide (Z.to_nat (p_prio p) = kk)) as [<-|Hkk].
    + apply fmap_Some in Hl as (l0 & Hl0 & ->). rewrite elem_of_app, list_elem_of_singleton.
      rewrite <- (sw_run _ _ _ Hwf y p0 _ l0 Hp0 Hl0). split; [intros [?|?]; [done|congruence]|by left].
    + by apply (sw_run _ _ _ Hwf).
Qed.

(** [p->state = RUNNING; quitarProc(p, p->prio)] for the head of a queue. *)
Lemma dispatch_ok k qs x l z p :
  sched_wf (k_procs k) (k_prio k) qs → qs !! z = Some (x :: l) → k_procs k !! x = Some p →
  ∃ ps' prs', quitarProc x (p_prio p) (with_procs (alter (set_state RUNNING) x (k_procs k)) k)
      = Ret 1%Z (with_prio prs' (with_procs ps' k)) ∧
    sched_wf ps' prs' (<[z := l]> qs) ∧
    sig_eq (alter (set_state RUNNING) x (k_procs k)) ps'.
Proof.
  intros Hwf Hl Hp. pose proof (sw_prio _ _ _ Hwf x p Hp) as Hz. unfold prio_ok in Hz.
  destruct (proj1 (sw_run _ _ _ Hwf x p z _ Hp Hl) ltac:(by left)) as [Hrun Hpz].
  assert (z = Z.to_nat (p_prio p)) as -> by lia.
  set (k1 := with_procs (alter (set_state RUNNING) x (k_procs k)) k).
  assert (wf_queues (k_procs k1) (k_prio k1) qs) as Hq1 by (apply wf_queues_keep; [done|apply Hwf]).
  destruct (quitarProc_ok k1 qs x l (p_prio p) Hq1 ltac:(lia) Hl) as (ps' & prs' & Hi & Hq' & Hsig).
  exists ps', prs'. split; [exact Hi|]. split; [|exact Hsig].
  pose proof (wq_nodup _ _ _ (sw_q _ _ _ Hwf) _ _ Hl) as [Hxl _]%NoDup_cons.
  eapply sched_wf_sig; [|by eapply (prio_ok_alter _ _ _ (set_state RUNNING) x Hwf)|exact Hsig|done|].
  { simpl. rewrite length_alter. apply Hwf. }
  intros y p0 kk l' Hp0 Hl'. simpl in Hp0. rewrite lookup_alter_list in Hp0.
  rewrite list_insert_alter, lookup_alter_list in Hl'.
  destruct (decide (Z.to_nat (p_prio p) = kk)) as [<-|Hkk].
  - rewrite Hl in Hl'. injection Hl' as <-. destruct (decide (x = y)) as [<-|Hxy].
    + rewrite Hp in Hp0. injection Hp0 as <-. simpl. split; [done|by intros [? _]].
    + rewrite <- (sw_run _ _ _ Hwf y p0 _ _ Hp0 Hl), elem_of_cons.
      split; [by right|intros [?|?]; [congruence|done]].
  - destruct (decide (x = y)) as [<-|Hxy].
    + rewrite Hp in Hp0. injection Hp0 as <-. simpl. split; [|by intros [? _]].
      intros Hx. apply (sw_run _ _ _ Hwf x p kk l' Hp Hl') in Hx as [_ ?]. lia.
    + by apply (sw_run _ _ _ Hwf).
Qed.

(** ** A check for [sched_wf] *)
Definition is_queueb (ps : list proc) (q : priotable) (l : list nat) : bool :=
  bool_decide (primero q = head l) && bool_decide (ultimo q = last l) &&
  all_idx (λ i x, match ps !! x with Some p => bool_decide (p_sigprio p = l !! S i) | None => false end) l.

Definition sched_wfb (ps : list proc) (prs : list priotable) (qs : list (list nat)) : bool :=
  (length ps =? NPROC) && (length prs =? NPRIO) && (length qs =? NPRIO) &&
  all_idx (λ k l, match prs !! k with Some q => is_queueb ps q l | None => true end && bool_decide (NoDup l)) qs &&
  all_idx (λ k l, all_idx (λ k' l', bool_decide (k = k') || forallb (λ x, negb (bool_decide (x ∈ l'))) l) qs) qs &&
  all_idx (λ x p, (0 <=? p_prio p)%Z && (p_prio p <? 10)%Z &&
    all_idx (λ k l, bool_decide (x ∈ l ↔ p_state p = RUNNABLE ∧ p_prio p = Z.of_nat k)) qs) ps.

Lemma is_queueb_sound ps q l : is_queueb ps q l = true → is_queue ps q l.
Proof.
  unfold is_queueb. intros [[H1 H2]%andb_true_iff H3]%andb_true_iff.
  apply bool_decide_eq_true_1 in H1, H2. rewrite all_idx_spec in H3. split_and!; [done..|].
  intros i x Hi. specialize (H3 i x Hi). destruct (ps !! x) as [p|]; [|done].
  exists p. by apply bool_decide_eq_true_1 in H3.
Qed.

Lemma sched_wfb_sound ps prs qs : sched_wfb ps prs qs = true → sched_wf ps prs qs.
Proof.
  unfold sched_wfb. intros [[[[[H1 H2]%andb_true_iff H3]%andb_true_iff H4]%andb_true_iff H5]%andb_true_iff H6]%andb_true_iff.
  apply Nat.eqb_eq in H1, H2, H3. rewrite all_idx_spec in H4. rewrite all_idx_spec in H5. rewrite all_idx_spec in H6.
  split; [done| | |].
  - split; [done|done| | |].
    + intros k q l Hq Hl. specialize (H4 k l Hl). rewrite Hq in H4. apply andb_true_iff in H4 as [H4 _]. by apply is_queueb_sound.
    + intros k l Hl. specialize (H4 k l Hl). apply andb_true_iff in H4 as [_ H4]. by apply bool_decide_eq_true_1 in H4.
    + intros k k' l l' x Hk Hk' Hx Hx'. specialize (H5 k l Hk). rewrite all_idx_spec in H5. specialize (H5 k' l' Hk').
      apply orb_true_iff in H5 as [H5|H5]; [by apply bool_decide_eq_true_1 in H5|].
      rewrite forallb_forall in H5. specialize (H5 x). rewrite <- list_elem_of_In in H5. specialize (H5 Hx).
      apply negb_true_iff, bool_decide_eq_false_1 in H5. done.
  - intros x p k l Hp Hl. specialize (H6 x p Hp). apply andb_true_iff in H6 as [_ H6]. rewrite all_idx_spec in H6.
    specialize (H6 k l Hl). by apply bool_decide_eq_true_1 in H6.
  - intros x p Hp. specialize (H6 x p Hp). apply andb_true_iff in H6 as [H6 _]. unfold prio_ok. lia.
Qed.
