(* ===== verification/Sched.v ===== *)
(** * Scheduling: wakeups, switches and the choice of the next process

    What [wakeup1], [kill], [yield], [sleep], [scheduler] and [setNewPrio] of
    proc.c do to the process table and to the ten queues. *)
From stdpp Require Import base list gmap strings.
From Stdlib Require Import ZArith Lia.
From S2P Require Import Prelude Mmu Spinlock CpuLocks Proc RunQueue.

(** ** Waking the sleepers of a channel *)
Definition sleeper (chan : Z) (p : proc) : bool :=
  bool_decide (p_state p = SLEEPING) && bool_decide (p_chan p = chan).
Definition wake (chan : Z) (p : proc) : proc := if sleeper chan p then set_state RUNNABLE p else p.
(** Process [j] sleeps on [chan] and has priority [z]. *)
Definition sleeps_at (chan : Z) (ps : list proc) (z j : nat) : bool :=
  match ps !! j with Some p => sleeper chan p && (p_prio p =? Z.of_nat z)%Z | None => false end.

Lemma sleeper_sig chan p p' : set_sigprio None p = set_sigprio None p' → sleeper chan p = sleeper chan p'.
Proof. intros E. by apply (sig_eq_field (sleeper chan)) in E. Qed.

(** [ps'] is [ps] with the sleepers from index [i] on woken, up to the links. *)
Definition woken_from (chan : Z) (i : nat) (ps ps' : list proc) : Prop :=
  ∀ j p, ps !! j = Some p → ∃ p', ps' !! j = Some p' ∧
    set_sigprio None p' = set_sigprio None (if decide (i ≤ j) then wake chan p else p).

Lemma wakeup1_from_ok chan n : ∀ i k qs,
  i + n = NPROC → sched_wf (k_procs k) (k_prio k) qs →
  ∃ ps' prs' qs', wakeup1_from n i chan k = Ret () (with_prio prs' (with_procs ps' k)) ∧
    sched_wf ps' prs' qs' ∧ woken_from chan i (k_procs k) ps' ∧
    ∀ z l, qs !! z = Some l → qs' !! z = Some (l ++ List.filter (sleeps_at chan (k_procs k) z) (seq i n)).
Proof.
  induction n as [|n IH]; intros i k qs Hi Hwf.
  { exists (k_procs k), (k_prio k), qs. split_and!; [by destruct k|done|..].
    - intros j p Hp. exists p. split; [done|]. rewrite decide_False; [done|].
      apply lookup_lt_Some in Hp. rewrite (sw_len _ _ _ Hwf) in Hp. lia.
    - intros z l Hl. by rewrite app_nil_r. }
  destruct (lookup_lt_is_Some_2 (k_procs k) i) as [p Hp]; [rewrite (sw_len _ _ _ Hwf); lia|].
  simpl wakeup1_from. run (get_proc_ok _ _ _ Hp). fold (sleeper chan p).
  destruct (sleeper chan p) eqn:Hsl.
  - assert (p_state p = SLEEPING) as Hst by (unfold sleeper in Hsl; by apply andb_true_iff in Hsl as [?%bool_decide_eq_true_1 _]).
    destruct (make_runnable_ok k qs i p Hwf Hp) as (ps1 & prs1 & Hins & Hwf1 & Hsig); [by rewrite Hst|].
    erewrite bind_Ret; last first.
    { erewrite bind_Ret; [|by eapply upd_proc_ok].
      erewrite bind_Ret; [|eapply get_proc_ok; simpl; by rewrite list_lookup_alter_eq, Hp].
      erewrite bind_Ret; [reflexivity|exact Hins]. }
    destruct (IH (S i) (with_prio prs1 (with_procs ps1 k)) (alter (.++ [i]) (Z.to_nat (p_prio p)) qs) ltac:(lia) Hwf1)
      as (ps' & prs' & qs' & -> & Hwf' & Hw & Hq).
    exists ps', prs', qs'. split; [done|]. split; [done|]. simpl in Hw, Hq. split.
    + intros j pj Hj. symmetry in Hsig.
      assert (∃ q, ps1 !! j = Some q ∧ set_sigprio None q = set_sigprio None (if decide (i = j) then set_state RUNNABLE pj else pj))
        as (q & Hq1 & Eq).
      { symmetry in Hsig. destruct (sig_eq_lookup _ _ j (if decide (i = j) then set_state RUNNABLE pj else pj) Hsig) as (q & ? & E).
        - rewrite lookup_alter_list, Hj. by case_decide.
        - exists q. by rewrite E. }
      destruct (Hw j q Hq1) as (p' & Hp' & E'). exists p'. split; [done|]. rewrite E'.
      destruct (decide (i = j)) as [<-|Hij].
      * rewrite decide_False, decide_True by lia. rewrite Hp in Hj. injection Hj as <-.
        unfold wake. by rewrite Hsl.
      * destruct (decide (S i ≤ j)); [rewrite decide_True by lia|by rewrite decide_False by lia].
        unfold wake. rewrite (sleeper_sig _ _ _ Eq). destruct (sleeper chan pj); [|done].
        by apply (f_equal (set_state RUNNABLE)) in Eq.
    + intros z l Hl. specialize (Hq z). rewrite lookup_alter_list, Hl in Hq.
      assert (List.filter (sleeps_at chan ps1 z) (seq (S i) n) =
              List.filter (sleeps_at chan (k_procs k) z) (seq (S i) n)) as Hf.
      { apply List.filter_ext_in. intros j Hj%in_seq. unfold sleeps_at.
        destruct (k_procs k !! j) as [pj|] eqn:Ej.
        - destruct (sig_eq_lookup _ _ j pj Hsig) as (q & -> & E); [by rewrite list_lookup_alter_ne by lia|].
          by rewrite (sleeper_sig _ _ _ E), (sig_eq_field p_prio _ _ ltac:(done) E).
        - assert (ps1 !! j = None) as ->; [|done]. apply lookup_ge_None. apply lookup_ge_None in Ej.
          rewrite <- (sig_eq_length _ _ Hsig). by rewrite length_alter. }
      rewrite Hf in Hq. simpl. unfold sleeps_at at 1. rewrite Hp, Hsl. simpl.
      pose proof (sw_prio _ _ _ Hwf _ _ Hp) as Hz. unfold prio_ok in Hz.
      destruct (Z.eqb_spec (p_prio p) (Z.of_nat z)) as [Ez|Ez].
      * rewrite decide_True in Hq by lia. rewrite (Hq _ eq_refl). by rewrite <- app_assoc.
      * rewrite decide_False in Hq by lia. by rewrite (Hq _ eq_refl).
  - erewrite bind_Ret; [|reflexivity].
    destruct (IH (S i) k qs ltac:(lia) Hwf) as (ps' & prs' & qs' & -> & Hwf' & Hw & Hq).
    exists ps', prs', qs'. split; [done|]. split; [done|]. split.
    + intros j pj Hj. destruct (Hw j pj Hj) as (p' & Hp' & E'). exists p'. split; [done|]. rewrite E'.
      destruct (decide (i = j)) as [<-|Hij].
      * rewrite decide_False, decide_True by lia. rewrite Hp in Hj. injection Hj as <-.
        unfold wake. by rewrite Hsl.
      * destruct (decide (S i ≤ j)); [by rewrite decide_True by lia|by rewrite decide_False by lia].
    + intros z l Hl. rewrite (Hq z l Hl). simpl. unfold sleeps_at at 2. by rewrite Hp, Hsl.
Qed.

Lemma wakeup1_ok chan k qs :
  sched_wf (k_procs k) (k_prio k) qs →
  ∃ ps' prs' qs', wakeup1 chan k = Ret () (with_prio prs' (with_procs ps' k)) ∧
    sched_wf ps' prs' qs' ∧
    (∀ j p, k_procs k !! j = Some p → ∃ p', ps' !! j = Some p' ∧
       set_sigprio None p' = set_sigprio None (wake chan p)) ∧
    ∀ z l, qs !! z = Some l → qs' !! z = Some (l ++ List.filter (sleeps_at chan (k_procs k) z) (seq 0 NPROC)).
Proof.
  intros Hwf. destruct (wakeup1_from_ok chan NPROC 0 k qs eq_refl Hwf) as (ps' & prs' & qs' & H1 & H2 & H3 & H4).
  exists ps', prs', qs'. split; [exact H1|]. split; [done|]. split; [|done].
  intros j p Hp. destruct (H3 j p Hp) as (p' & ? & E). exists p'. by rewrite decide_True in E by lia.
Qed.

(** ** The scan of the scheduler *)
Lemma sched_scan_ok k qs n : ∀ i,
  sched_wf (k_procs k) (k_prio k) qs → i + n = NPRIO →
  match first_idx (λ l : list nat, negb (bool_decide (l = []))) (drop i qs) with
  | Some d => ∃ x l, qs !! (i + d) = Some (x :: l) ∧ sched_scan n i k = Ret (Some x) k
  | None => sched_scan n i k = Ret None k
  end.
Proof.
  induction n as [|n IH]; intros i Hwf Hi.
  { rewrite drop_ge; [done|]. rewrite (wq_lens _ _ _ (sw_q _ _ _ Hwf)). lia. }
  destruct (lookup_lt_is_Some_2 qs i) as [l Hl]; [rewrite (wq_lens _ _ _ (sw_q _ _ _ Hwf)); lia|].
  destruct (lookup_lt_is_Some_2 (k_prio k) i) as [q Hq]; [rewrite (wq_len _ _ _ (sw_q _ _ _ Hwf)); lia|].
  destruct (wq_q _ _ _ (sw_q _ _ _ Hwf) _ _ _ Hq Hl) as (Hh & _ & Hc).
  rewrite (drop_S _ l) by done. simpl.
  erewrite bind_Ret; last first.
  { apply get_prio_ok; [unfold NPRIO in Hi; lia|]. by rewrite Nat2Z.id. }
  rewrite Hh. destruct l as [|x l]; simpl.
  - specialize (IH (S i) Hwf ltac:(lia)).
    destruct (first_idx _ (drop (S i) qs)) as [d|]; simpl; [|done].
    destruct IH as (x & l & Hx & ->). exists x, l. split; [|done]. by rewrite Nat.add_succ_r.
  - destruct (Hc 0 x eq_refl) as (p & Hp & _). exists x, l. split; [by rewrite Nat.add_0_r|].
    run (get_proc_ok _ _ _ Hp). rewrite bool_decide_eq_true_2; [done|].
    by apply (sw_run _ _ _ Hwf x p i _ Hp Hl); left.
Qed.

(** ** Lock operations on the kernel state *)
Lemma acquire_k_ok me run D L lk k :
  hw_ok me run D L (k_hw k) → lk ∈ D → lk ∉ L →
  ∃ h, acquire_k lk k = Ret () (with_hw h k) ∧ hw_ok me run D (lk :: L) h.
Proof.
  intros H1 H2 H3. destruct (hw_ok_acquire _ _ _ _ _ _ H1 H2 H3) as (h & Ha & Hh).
  exists h. split; [|done]. unfold acquire_k. by rewrite (zoom_Ret hw_lens _ k _ _ Ha).
Qed.

Lemma release_k_ok me run D L1 L2 lk k :
  hw_ok me run D (L1 ++ lk :: L2) (k_hw k) →
  ∃ h, release_k lk k = Ret () (with_hw h k) ∧ hw_ok me run D (L1 ++ L2) h.
Proof.
  intros H1. destruct (hw_ok_release _ _ _ _ _ _ _ H1) as (h & Ha & Hh).
  exists h. split; [|done]. unfold release_k. by rewrite (zoom_Ret hw_lens _ k _ _ Ha).
Qed.

Lemma myproc_ok me run D L k cur :
  hw_ok me run D L (k_hw k) → run !! me = Some cur →
  ∃ h, myproc k = Ret cur (with_hw h k) ∧ hw_ok me run D L h.
Proof.
  intros H1 H2. destruct (hw_ok_myproc _ _ _ _ _ _ H1 H2) as (h & Ha & Hh).
  exists h. split; [|done]. unfold myproc. by rewrite (zoom_Ret hw_lens _ k _ _ Ha).
Qed.

Lemma holding_k_ok me run D L lk k :
  hw_ok me run D L (k_hw k) → lk ∈ D →
  ∃ h, zoom hw_lens (holding lk) k = Ret (bool_decide (lk ∈ L)) (with_hw h k) ∧ hw_ok me run D L h.
Proof.
  intros H1 H2. destruct (hw_ok_holding _ _ _ _ _ _ H1 H2) as (h & Ha & Hh).
  exists h. split; [|done]. by rewrite (zoom_Ret hw_lens _ k _ _ Ha).
Qed.

(** The state handed over at a switch, and what the thread that is switched to
    must find: [ptable.lock] held by the executing CPU and nothing else. *)
Abbreviation handoff me run D k := (hw_ok me run D [ptable_lock] (k_hw k)).

(** [sched] passes its four checks and switches; once switched back to, it only
    restores [intena]. *)
Lemma sched_ok me run D k x p :
  handoff me run D k → run !! me = Some (Some x) → k_procs k !! x = Some p → p_state p ≠ RUNNING →
  ∃ h kont, sched k = Block (p_chan p) (with_hw h k) kont ∧ hw_ok me run D [ptable_lock] h ∧
    ∀ k2 me2 run2, handoff me2 run2 D k2 →
      ∃ h2, kont k2 = Ret () (with_hw h2 k2) ∧ hw_ok me2 run2 D [ptable_lock] h2.
Proof.
  intros Hok Hx Hp Hst.
  assert (ptable_lock ∈ D) as HD by (eapply (ho_sub _ _ _ _ _ Hok); by left).
  unfold sched. destruct (myproc_ok _ _ _ _ _ _ Hok Hx) as (h1 & E1 & Hok1). run E1.
  destruct (holding_k_ok _ _ _ _ ptable_lock (with_hw h1 k) Hok1 HD) as (h2 & E2 & Hok2). run E2.
  rewrite bool_decide_eq_true_2 by (by left). branch.
  destruct (hw_ok_cpu _ _ _ _ _ Hok2) as (c & Hc & Hwf & Hn & _).
  assert (c_if c = false) as Hif by (destruct Hwf as [_ H]; apply H; rewrite Hn; simpl; lia).
  run (zoom_Ret hw_lens _ (with_hw h2 (with_hw h1 k)) _ _ (cpu_field_ok me c c_ncli h2 Hc Hif)).
  rewrite Hn, bool_decide_eq_true_2 by done. branch.
  erewrite bind_Ret; [|reflexivity].
  erewrite bind_Ret; [|by apply get_proc_ok]. rewrite bool_decide_eq_false_2 by done.
  run (zoom_Ret hw_lens _ (lset hw_lens h2 (with_hw h2 (with_hw h1 k))) _ _ (readeflags_ok me c h2 Hc)).
  rewrite Hif.
  run (zoom_Ret hw_lens _ (lset hw_lens h2 (lset hw_lens h2 (with_hw h2 (with_hw h1 k)))) _ _ (cpu_field_ok me c c_intena h2 Hc Hif)).
  exists h2. eexists. split; [reflexivity|]. split; [done|].
  intros k2 me2 run2 Hk2. simpl.
  destruct (hw_ok_cpu _ _ _ _ _ Hk2) as (c2 & Hc2 & Hwf2 & Hn2 & _).
  assert (c_if c2 = false) as Hif2 by (destruct Hwf2 as [_ H]; apply H; rewrite Hn2; simpl; lia).
  rewrite (zoom_Ret hw_lens _ k2 _ _ (cpu_set_ok me2 c2 (set_intena (c_intena c)) (k_hw k2) Hc2 Hif2)).
  eexists. split; [reflexivity|]. by eapply hw_ok_upd.
Qed.

(** [yield]: the running process goes to the end of the queue of its priority
    and the CPU is handed over; when it is chosen again, [yield] returns with
    the lock released. *)
Lemma yield_ok me run D k qs x p :
  sched_wf (k_procs k) (k_prio k) qs → hw_ok me run D [] (k_hw k) → ptable_lock ∈ D →
  run !! me = Some (Some x) → k_procs k !! x = Some p → p_state p = RUNNING →
  ∃ k1 kont, yield k = Block (p_chan p) k1 kont ∧ handoff me run D k1 ∧
    sched_wf (k_procs k1) (k_prio k1) (alter (.++ [x]) (Z.to_nat (p_prio p)) qs) ∧
    sig_eq (alter (set_state RUNNABLE) x (k_procs k)) (k_procs k1) ∧
    ∀ k2 me2 run2, handoff me2 run2 D k2 →
      ∃ h2, kont k2 = Ret () (with_hw h2 k2) ∧ hw_ok me2 run2 D [] h2.
Proof.
  intros Hwf Hok HD Hx Hp Hst. unfold yield.
  destruct (acquire_k_ok _ _ _ _ ptable_lock k Hok HD) as (h1 & E1 & Hok1); [set_solver|]. run E1.
  destruct (myproc_ok _ _ _ _ (with_hw h1 k) _ Hok1 Hx) as (h2 & E2 & Hok2). run E2.
  run (eq_refl : deref (Some x) (with_hw h2 (with_hw h1 k)) = Ret _ _).
  erewrite bind_Ret; [|by eapply upd_proc_ok]. simpl with_procs.
  destruct (myproc_ok me run D _ (with_procs (alter (set_state RUNNABLE) x (k_procs k)) (with_hw h2 k)) (Some x) Hok2 Hx) as (h3 & E3 & Hok3).
  erewrite bind_Ret; [|exact E3].
  destruct (myproc_ok me run D _ (with_procs (alter (set_state RUNNABLE) x (k_procs k)) (with_hw h3 k)) (Some x) Hok3 Hx) as (h3' & E3' & Hok3').
  erewrite bind_Ret; [|exact E3']. clear E3 Hok3. rename h3 into h3o. rename h3' into h3, E3' into E3, Hok3' into Hok3.
  run (eq_refl : deref (Some x) _ = Ret _ _).
  destruct (make_runnable_ok (with_hw h3 k) qs x p Hwf Hp) as (ps' & prs' & E4 & Hwf' & Hsig); [by rewrite Hst|].
  erewrite bind_Ret; [|eapply get_proc_ok; simpl; by rewrite list_lookup_alter_eq, Hp].
  run (eq_refl : deref (Some x) _ = Ret _ _). erewrite bind_Ret; [|exact E4].
  destruct (sig_eq_lookup _ _ x (set_state RUNNABLE p) Hsig) as (p' & Hp' & E'); [by simpl; rewrite list_lookup_alter_eq, Hp|].
  destruct (sched_ok me run D (with_prio prs' (with_procs ps' (with_hw h3 k))) x p' Hok3 Hx Hp') as (h4 & kont & E5 & Hok4 & Hk).
  { by rewrite <- (sig_eq_field p_state _ _ ltac:(done) E'). }
  rewrite (obind_Block _ _ _ _ _ _ E5). rewrite <- (sig_eq_field p_chan _ _ ltac:(done) E').
  do 2 eexists. split; [reflexivity|]. split; [done|]. split; [done|]. split; [done|].
  intros k2 me2 run2 Hk2. simpl. destruct (Hk k2 me2 run2 Hk2) as (h5 & -> & Hok5). simpl.
  destruct (release_k_ok me2 run2 D [] [] ptable_lock (with_hw h5 k2) Hok5) as (h6 & E6 & Hok6).
  exists h6. rewrite E6. done.
Qed.

(** [sleep(chan, lk)], for [lk] either [ptable.lock] or another lock: the
    process is put to sleep on [chan] with [lk] released, and [sleep] returns
    with [lk] held again and the channel cleared. *)
Lemma sleep_ok me run D k qs x p chan lk :
  sched_wf (k_procs k) (k_prio k) qs → hw_ok me run D [lk] (k_hw k) → ptable_lock ∈ D → lk ≠ 0%Z →
  run !! me = Some (Some x) → k_procs k !! x = Some p → p_state p = RUNNING →
  ∃ k1 kont, sleep chan lk k = Block chan k1 kont ∧ handoff me run D k1 ∧
    sched_wf (k_procs k1) (k_prio k1) qs ∧ k_prio k1 = k_prio k ∧
    k_procs k1 = alter (set_state SLEEPING) x (alter (set_chan chan) x (k_procs k)) ∧
    ∀ k2 me2 run2 p2, handoff me2 run2 D k2 → k_procs k2 !! x = Some p2 →
      ∃ h2, kont k2 = Ret () (with_hw h2 (with_procs (alter (set_chan 0) x (k_procs k2)) k2)) ∧
        hw_ok me2 run2 D [lk] h2.
Proof.
  intros Hwf Hok HD Hlk Hx Hp Hst. unfold sleep.
  destruct (myproc_ok _ _ _ _ k _ Hok Hx) as (h1 & E1 & Hok1). run E1. cbv iota beta.
  rewrite bool_decide_eq_false_2 by done. cbv iota.
  assert (lk ∈ D) as HDl by (eapply (ho_sub _ _ _ _ _ Hok); by left).
  assert (∃ h2, (if negb (bool_decide (lk = ptable_lock)) then acquire_k ptable_lock ;;; release_k lk else ret ())
            (with_hw h1 k) = Ret () (with_hw h2 k) ∧ hw_ok me run D [ptable_lock] h2) as (h2 & E2 & Hok2).
  { case_bool_decide as Elk; branch; [subst; by exists h1|].
    destruct (acquire_k_ok _ _ _ _ ptable_lock (with_hw h1 k) Hok1 HD) as (h3 & E3 & Hok3); [set_solver|]. run E3.
    destruct (release_k_ok me run D [ptable_lock] [] lk (with_hw h3 (with_hw h1 k)) Hok3) as (h4 & E4 & Hok4).
    exists h4. rewrite E4. done. }
  run E2. erewrite bind_Ret; [|by eapply upd_proc_ok].
  erewrite bind_Ret; [|eapply upd_proc_ok; simpl; by rewrite list_lookup_alter_eq, Hp].
  set (ps1 := alter (set_state SLEEPING) x (alter (set_chan chan) x (k_procs k))). simpl.
  destruct (sched_ok me run D (with_procs ps1 (with_hw h2 k)) x (set_state SLEEPING (set_chan chan p)) Hok2 Hx) as (h3 & kont & E3 & Hok3 & Hk).
  { simpl. subst ps1. by rewrite !list_lookup_alter_eq, Hp. } { done. }
  erewrite obind_Block; [|exact E3].
  do 2 eexists. split; [reflexivity|]. split; [done|]. split_and!; try done; simpl.
  - subst ps1. rewrite list_alter_alter_eq. apply sched_wf_upd; [done..|].
    intros p0 Hp0. rewrite Hp in Hp0. injection Hp0 as <-. split; [exact (sw_prio _ _ _ Hwf x p Hp)|].
    right. by rewrite Hst.
  - intros k2 me2 run2 p2 Hk2 Hp2. destruct (Hk k2 me2 run2 Hk2) as (h4 & -> & Hok4). simpl.
    erewrite bind_Ret; [|by eapply upd_proc_ok]. simpl.
    case_bool_decide as Elk; branch; [subst; exists h4; done|].
    destruct (release_k_ok me2 run2 D [] [] ptable_lock (with_procs (alter (set_chan 0) x (k_procs k2)) (with_hw h4 k2)) Hok4) as (h5 & E5 & Hok5).
    erewrite bind_Ret; [|exact E5].
    destruct (acquire_k_ok _ _ _ _ lk (with_hw h5 (with_procs (alter (set_chan 0) x (k_procs k2)) (with_hw h4 k2))) Hok5 HDl) as (h6 & E6 & Hok6); [set_solver|].
    exists h6. rewrite E6. done.
Qed.

Lemma switchuvm_ok me run D L k x p :
  hw_ok me run D L (k_hw k) → k_procs k !! x = Some p → p_kstack p ≠ 0%Z → p_pgdir p ≠ 0%Z →
  ∃ h, switchuvm (Some x) k = Ret () (with_hw h k) ∧ hw_ok me run D L h ∧
    ∃ c, cpu_at me c h ∧ c_cr3 c = V2P (p_pgdir p).
Proof.
  intros Hok Hp H1 H2. unfold switchuvm. run (get_proc_ok _ _ _ Hp).
  rewrite !bool_decide_eq_false_2 by done.
  destruct (hw_ok_cpu _ _ _ _ _ Hok) as (c & Hc & Hwf & Hn & _).
  set (f := set_cr3 (V2P (p_pgdir p)) ∘ set_esp0 (uint (p_kstack p + KSTACKSIZE))).
  assert (cpu_at me (pushed c) (upd_cpu me pushed (k_hw k))) as Hc1 by (by apply upd_cpu_at).
  assert (cpu_at me (f (pushed c)) (upd_cpu me f (upd_cpu me pushed (k_hw k)))) as Hc2 by (by apply upd_cpu_at).
  exists (upd_cpu me popped (upd_cpu me f (upd_cpu me pushed (k_hw k)))). split_and!.
  - apply (zoom_Ret hw_lens). run (pushcli_ok _ _ _ Hc).
    run (cpu_set_ok me (pushed c) (set_esp0 _) _ Hc1 eq_refl).
    erewrite bind_Ret; [|reflexivity]. simpl. destruct Hc as (Hme & Hc). rewrite Hme, upd_cpu_twice.
    eapply (popcli_ok me); [exact Hc2|done|]. simpl. destruct Hwf; lia.
  - rewrite !upd_cpu_twice. erewrite upd_cpu_ext; [|exact Hc|].
    + apply (hw_ok_keep _ _ _ _ _ (f ∘ touched)); [done..|]. intros c0; destruct c0; done.
    + unfold compose. rewrite <- popped_pushed by done. done.
  - eexists. split; [by apply upd_cpu_at|]. done.
Qed.

(** Runnable processes have a kernel stack and a page table. *)
Definition runnable_mem (ps : list proc) : Prop :=
  ∀ x p, ps !! x = Some p → p_state p = RUNNABLE → p_kstack p ≠ 0%Z ∧ p_pgdir p ≠ 0%Z.

(** The first queue, by increasing priority number, that is not empty. *)
Definition next_queue (qs : list (list nat)) : option nat :=
  first_idx (λ l : list nat, negb (bool_decide (l = []))) qs.

Lemma next_queue_Some qs z : next_queue qs = Some z →
  ∃ x l, qs !! z = Some (x :: l) ∧ ∀ z' l', z' < z → qs !! z' = Some l' → l' = [].
Proof.
  intros [(l & Hl & Hne) Hlt]%first_idx_Some. destruct l as [|x l]; [done|].
  exists x, l. split; [done|]. intros z' l' Hz' Hl'. specialize (Hlt _ _ Hz' Hl').
  apply negb_false_iff in Hlt. by apply bool_decide_eq_true_1 in Hlt.
Qed.

Lemma scheduler_round_ok me run D k qs :
  sched_wf (k_procs k) (k_prio k) qs → hw_ok me run D [] (k_hw k) → ptable_lock ∈ D →
  runnable_mem (k_procs k) →
  match next_queue qs with
  | None => ∃ h, scheduler_round me k = Ret () (with_hw h k) ∧ hw_ok me run D [] h
  | Some z => ∃ x l p k1 kont, qs !! z = Some (x :: l) ∧ k_procs k !! x = Some p ∧
      scheduler_round me k = Block 0 k1 kont ∧ handoff me (<[me:=Some x]> run) D k1 ∧
      sched_wf (k_procs k1) (k_prio k1) (<[z:=l]> qs) ∧
      sig_eq (alter (set_state RUNNING) x (k_procs k)) (k_procs k1) ∧
      (∃ c, cpu_at me c (k_hw k1) ∧ c_cr3 c = V2P (p_pgdir p)) ∧
      ∀ k2 run2, handoff me run2 D k2 →
        ∃ h2, kont k2 = Ret () (with_hw h2 k2) ∧ hw_ok me (<[me:=None]> run2) D [] h2
  end.
Proof.
  intros Hwf Hok HD Hmem.
  pose proof (sched_scan_ok k qs NPRIO 0 Hwf eq_refl) as Hscan. rewrite drop_0 in Hscan. fold (next_queue qs) in Hscan.
  assert (sti (k_hw k) = Ret () (upd_cpu me (set_if true) (k_hw k))) as E0.
  { unfold sti, modify. by rewrite (ho_me _ _ _ _ _ Hok). }
  unfold scheduler_round. run (zoom_Ret hw_lens _ _ _ _ E0).
  apply hw_ok_sti in Hok. set (h0 := upd_cpu me (set_if true) (k_hw k)) in *.
  destruct (acquire_k_ok _ _ _ _ ptable_lock (with_hw h0 k) Hok HD (not_elem_of_nil _)) as (h1 & E1 & Hok1).
  erewrite bind_Ret; [|exact E1].
  assert (∀ r, sched_scan NPRIO 0 k = Ret r k → sched_scan NPRIO 0 (with_hw h1 (with_hw h0 k)) = Ret r (with_hw h1 (with_hw h0 k))) as Hsc.
  { intros r Hr. pose proof (sched_scan_ok (with_hw h1 (with_hw h0 k)) qs NPRIO 0 Hwf eq_refl) as Hscan'.
    rewrite drop_0 in Hscan'. fold (next_queue qs) in Hscan'. destruct (next_queue qs) as [z|].
    - destruct Hscan as (x & l & Hx & E), Hscan' as (x' & l' & Hx' & E'). simplify_eq. rewrite E in Hr. injection Hr as <-. done.
    - rewrite Hscan in Hr. injection Hr as <-. done. }
  destruct (next_queue qs) as [z|].
  - destruct Hscan as (x & l & Hz & Escan). rewrite Nat.add_0_l in Hz.
    destruct (wq_q _ _ _ (sw_q _ _ _ Hwf) z) with (q := default (Priotable None None) (k_prio k !! z)) (l := x :: l)
      as (_ & _ & Hc); [|done|].
    { destruct (lookup_lt_is_Some_2 (k_prio k) z) as [q ->]; [|done].
      rewrite (wq_len _ _ _ (sw_q _ _ _ Hwf)), <- (wq_lens _ _ _ (sw_q _ _ _ Hwf)). by eapply lookup_lt_Some. }
    destruct (Hc 0 x eq_refl) as (p & Hp & _).
    destruct (proj1 (sw_run _ _ _ Hwf x p z _ Hp Hz) ltac:(by left)) as [Hrun _].
    destruct (Hmem x p Hp Hrun) as [Hks Hpg].
    erewrite bind_Ret; [|by apply Hsc]. cbv iota beta.
    erewrite bind_Ret; [|apply (zoom_Ret hw_lens); reflexivity]. simpl lset.
    pose proof (hw_ok_setproc _ _ _ _ _ (Some x) Hok1) as Hok2.
    set (h2 := upd_cpu me (set_cproc (Some x)) h1) in *.
    destruct (switchuvm_ok _ _ _ _ (with_hw h2 k) x p Hok2 Hp Hks Hpg) as (h3 & E3 & Hok3 & c3 & Hc3 & Hcr3).
    erewrite bind_Ret; [|exact E3].
    erewrite bind_Ret; [|by eapply upd_proc_ok].
    destruct (dispatch_ok (with_hw h3 k) qs x l z p Hwf Hz Hp) as (ps' & prs' & E4 & Hwf' & Hsig).
    erewrite bind_Ret; [|eapply get_proc_ok; simpl; by rewrite list_lookup_alter_eq, Hp].
    erewrite bind_Ret; [|exact E4].
    exists x, l, p. do 2 eexists. split; [done|]. split; [done|]. split; [reflexivity|].
    split; [done|]. split; [done|]. split; [done|]. split; [by exists c3|].
    intros k2 run2 Hk2. simpl.
    erewrite bind_Ret; [|unfold switchkvm; erewrite bind_Ret; [|reflexivity]; apply (zoom_Ret hw_lens); reflexivity].
    erewrite bind_Ret; [|apply (zoom_Ret hw_lens); reflexivity]. simpl lset.
    rewrite (ho_me _ _ _ _ _ Hk2).
    assert (hw_ok me (<[me:=None]> run2) D [ptable_lock]
       (upd_cpu me (set_cproc None) (upd_cpu me (set_cr3 (V2P (k_kpgdir k2))) (k_hw k2)))) as Hok5.
    { apply hw_ok_setproc. by apply hw_ok_keep. }
    destruct (release_k_ok me (<[me:=None]> run2) D [] [] ptable_lock
      (with_hw (upd_cpu me (set_cproc None) (upd_cpu me (set_cr3 (V2P (k_kpgdir k2))) (k_hw k2))) k2) Hok5) as (h6 & E6 & Hok6).
    exists h6. split; [exact E6|done].
  - erewrite bind_Ret; [|by apply Hsc]. cbv iota beta.
    destruct (release_k_ok me run D [] [] ptable_lock (with_hw h1 (with_hw h0 k)) Hok1) as (h2 & E2 & Hok2).
    exists h2. split; [exact E2|done].
Qed.

Lemma wakeup_ok me run D L k qs chan :
  sched_wf (k_procs k) (k_prio k) qs → hw_ok me run D L (k_hw k) → ptable_lock ∈ D → ptable_lock ∉ L →
  ∃ h ps' prs' qs', wakeup chan k = Ret () (with_hw h (with_prio prs' (with_procs ps' k))) ∧
    hw_ok me run D L h ∧ sched_wf ps' prs' qs' ∧
    (∀ j p, k_procs k !! j = Some p → ∃ p', ps' !! j = Some p' ∧
       set_sigprio None p' = set_sigprio None (wake chan p)) ∧
    ∀ z l, qs !! z = Some l → qs' !! z = Some (l ++ List.filter (sleeps_at chan (k_procs k) z) (seq 0 NPROC)).
Proof.
  intros Hwf Hok HD HL. unfold wakeup.
  destruct (acquire_k_ok _ _ _ _ ptable_lock k Hok HD HL) as (h1 & E1 & Hok1). run E1.
  destruct (wakeup1_ok chan (with_hw h1 k) qs Hwf) as (ps' & prs' & qs' & E2 & Hwf' & Hw & Hq). run E2.
  destruct (release_k_ok me run D [] L ptable_lock (with_prio prs' (with_procs ps' (with_hw h1 k))) Hok1) as (h3 & E3 & Hok3).
  exists h3, ps', prs', qs'. rewrite E3. done.
Qed.

(** [kill]: the first process with that pid is marked; it is made runnable if
    it sleeps.  Any other process is left alone. *)
Definition pid_idx (ps : list proc) (pid : Z) : option nat :=
  first_idx (λ p, bool_decide (p_pid p = pid)) ps.

Definition kill_queues (qs : list (list nat)) (x : nat) (p : proc) : list (list nat) :=
  if bool_decide (p_state p = SLEEPING) then alter (.++ [x]) (Z.to_nat (p_prio p)) qs else qs.
Definition killed_proc (p : proc) : proc :=
  if bool_decide (p_state p = SLEEPING) then set_state RUNNABLE (set_killed true p) else set_killed true p.

Lemma kill_ok me run D k qs pid :
  sched_wf (k_procs k) (k_prio k) qs → hw_ok me run D [] (k_hw k) → ptable_lock ∈ D →
  match pid_idx (k_procs k) pid with
  | None => ∃ h, kill pid k = Ret (-1)%Z (with_hw h k) ∧ hw_ok me run D [] h
  | Some x => ∃ p h ps' prs', k_procs k !! x = Some p ∧ p_pid p = pid ∧
      kill pid k = Ret 0%Z (with_hw h (with_prio prs' (with_procs ps' k))) ∧
      hw_ok me run D [] h ∧ sched_wf ps' prs' (kill_queues qs x p) ∧
      sig_eq (alter killed_proc x (k_procs k)) ps'
  end.
Proof.
  intros Hwf Hok HD. unfold kill.
  destruct (acquire_k_ok _ _ _ _ ptable_lock k Hok HD) as (h1 & E1 & Hok1); [set_solver|]. run E1.
  erewrite bind_Ret; [|reflexivity]. change (k_procs (with_hw h1 k)) with (k_procs k).
  rewrite take_ge by (by rewrite (sw_len _ _ _ Hwf)). fold (pid_idx (k_procs k) pid).
  destruct (pid_idx (k_procs k) pid) as [x|] eqn:Ex.
  - apply first_idx_Some in Ex as [(p & Hp & Hpid%bool_decide_eq_true_1) _].
    erewrite bind_Ret; [|by eapply upd_proc_ok].
    erewrite bind_Ret; [|eapply get_proc_ok; simpl; by rewrite list_lookup_alter_eq, Hp].
    set (k1 := with_procs (alter (set_killed true) x (k_procs (with_hw h1 k))) (with_hw h1 k)).
    assert (k_procs k1 !! x = Some (set_killed true p)) as Hp1 by (simpl; by rewrite list_lookup_alter_eq, Hp).
    assert (sched_wf (k_procs k1) (k_prio k1) qs) as Hwf1.
    { apply sched_wf_upd; [done|done|]. intros p0 Hp0. split; [exact (sw_prio _ _ _ Hwf x p0 Hp0)|by left]. }
    exists p. unfold kill_queues, killed_proc. simpl p_state.
    destruct (decide (p_state p = SLEEPING)) as [Hs|Hs].
    + rewrite bool_decide_eq_true_2 by done.
      destruct (make_runnable_ok k1 qs x _ Hwf1 Hp1) as (ps' & prs' & E4 & Hwf' & Hsig); [by simpl; rewrite Hs|].
      erewrite bind_Ret; last first.
      { erewrite bind_Ret; [|by eapply upd_proc_ok]. erewrite bind_Ret; [|exact E4]. reflexivity. }
      destruct (release_k_ok me run D [] [] ptable_lock (with_prio prs' (with_procs ps' k1)) Hok1) as (h3 & E3 & Hok3).
      run E3. exists h3, ps', prs'. split_and!; try done.
      rewrite <- Hsig. simpl. rewrite list_alter_alter_eq. apply reflexive_eq, alter_ext_list.
      intros p0 Hp0. rewrite Hp in Hp0. injection Hp0 as <-. simpl. by rewrite bool_decide_eq_true_2.
    + rewrite bool_decide_eq_false_2 by done. erewrite bind_Ret; [|reflexivity].
      destruct (release_k_ok me run D [] [] ptable_lock k1 Hok1) as (h3 & E3 & Hok3).
      run E3. exists h3, (k_procs k1), (k_prio k1). split_and!; try done.
      apply reflexive_eq. simpl. apply alter_ext_list. intros p0 Hp0. simpl in Hp0. rewrite Hp in Hp0. injection Hp0 as <-.
      by rewrite bool_decide_eq_false_2.
  - destruct (release_k_ok me run D [] [] ptable_lock (with_hw h1 k) Hok1) as (h3 & E3 & Hok3).
    run E3. exists h3. done.
Qed.
