(* ===== verification/Reprio.v ===== *)
(** * Changing the priority of a queued process ([setNewPrio] of proc.c)

    The three places a queued process can be in: the head of its queue, the
    middle, and the last place.  The first two move it to the end of its new
    queue; the last one loses the tail pointer of the old queue. *)
From stdpp Require Import base list gmap strings.
From Stdlib Require Import ZArith Lia.
From S2P Require Import Prelude Mmu Spinlock CpuLocks Proc RunQueue Sched.

Lemma queue_length ps q l : is_queue ps q l → NoDup l → length l ≤ length ps.
Proof.
  intros (_ & _ & Hc) Hnd. rewrite <- (length_seq (length ps) 0).
  apply NoDup_incl_length; [by apply NoDup_ListNoDup|].
  intros x Hx%list_elem_of_In. apply list_elem_of_lookup in Hx as [i Hi].
  destruct (Hc i x Hi) as (p & Hp & _). apply in_seq. apply lookup_lt_Some in Hp. lia.
Qed.

(** The search stops at [x] with [anterior] the process linked to it. *)
Lemma find_prev_ok k q l x j fuel : ∀ i a ant,
  is_queue (k_procs k) q l → NoDup l → l !! j = Some x → i < j → l !! i = Some a → j - i < fuel →
  find_prev fuel ant (Some a) x k = Ret (l !! (j - 1), x) k.
Proof.
  induction fuel as [|fuel IH]; intros i a ant Hq Hnd Hj Hij Hi Hf; [lia|].
  simpl. rewrite bool_decide_eq_false_2; last first.
  { intros [= ->]. assert (i = j); [|lia]. by eapply NoDup_lookup. }
  run (eq_refl : deref (Some a) k = Ret _ _).
  pose proof Hq as (_ & _ & Hc). destruct (Hc i a Hi) as (p & Hp & Hs).
  run (get_proc_ok _ _ _ Hp). rewrite Hs. destruct (decide (S i = j)) as [<-|Hne].
  - rewrite Hj. destruct fuel; [lia|]. simpl. rewrite bool_decide_eq_true_2 by done.
    rewrite Nat.sub_0_r, Hi. done.
  - destruct (lookup_lt_is_Some_2 l (S i)) as [b Hb]; [apply lookup_lt_Some in Hj; lia|].
    rewrite Hb. apply (IH (S i)); auto; lia.
Qed.

(** Removing a process from inside a queue: its predecessor is linked to its
    successor. *)
Lemma is_queue_unlink ps q l1 y x r py :
  is_queue ps q (l1 ++ y :: x :: r) → NoDup (l1 ++ y :: x :: r) → ps !! y = Some py →
  is_queue (alter (set_sigprio None) x (alter (set_sigprio (head r)) y ps))
    (Priotable (primero q) (last (l1 ++ y :: r))) (l1 ++ y :: r).
Proof.
  intros (Hh & Hl & Hc) Hnd Hy. split_and!; simpl; [rewrite Hh; by destruct l1|done|].
  apply NoDup_app in Hnd as (Hnd1 & Hd & Hnd2). apply NoDup_cons in Hnd2 as [Hy2 Hnd2].
  apply NoDup_cons in Hnd2 as [Hx2 Hnd3].
  intros i z Hz. rewrite lookup_app_Some in Hz. destruct Hz as [Hz|[Hge Hz]].
  - assert (z ∈ l1) as Hzin by (by eapply list_elem_of_lookup_2).
    assert (z ≠ x ∧ z ≠ y) as [Hzx Hzy].
    { specialize (Hd z Hzin). split; intros ->; set_solver. }
    rewrite !list_lookup_alter_ne by done.
    destruct (Hc i z) as (p & Hp & Hs); [by rewrite lookup_app_l by (by eapply lookup_lt_Some)|].
    exists p. split; [done|]. rewrite Hs. apply lookup_lt_Some in Hz.
    destruct (decide (S i < length l1)); [by rewrite !lookup_app_l by done|].
    rewrite !lookup_app_r by lia. assert (S i - length l1 = 0) as -> by lia. done.
  - destruct (i - length l1) as [|n] eqn:En; simpl in Hz.
    + injection Hz as <-. assert (y ≠ x) by set_solver.
      rewrite list_lookup_alter_ne, list_lookup_alter_eq, Hy by done.
      eexists. split; [reflexivity|]. simpl. rewrite lookup_app_r by lia.
      assert (S i - length l1 = 1) as -> by lia. simpl. by destruct r.
    + assert (z ∈ r) as Hzin by (by eapply list_elem_of_lookup_2).
      rewrite !list_lookup_alter_ne by (intros ->; set_solver).
      destruct (Hc (S i) z) as (p & Hp & Hs).
      { rewrite lookup_app_r by lia. assert (S i - length l1 = S (S n)) as -> by lia. done. }
      exists p. split; [done|]. rewrite Hs. rewrite !lookup_app_r by lia.
      assert (S (S i) - length l1 = S (S (S n))) as -> by lia.
      assert (S i - length l1 = S (S n)) as -> by lia. done.
Qed.

Lemma sig_eq_alter_keep f x ps ps' :
  (∀ p, f (set_sigprio None p) = set_sigprio None (f p)) → sig_eq ps ps' → sig_eq (alter f x ps) (alter f x ps').
Proof.
  intros Hf H. assert (∀ l : list proc, set_sigprio None <$> alter f x l = alter f x (set_sigprio None <$> l)) as E.
  { intros l. apply list_eq; intros i. rewrite list_lookup_fmap, !lookup_alter_list, list_lookup_fmap.
    case_decide; [|done]. destruct (l !! i); simpl; [|done]. by rewrite Hf. }
  unfold sig_eq in *. by rewrite !E, H.
Qed.

(** The queues after process [x] of priority [z] is moved to the end of queue
    [z'], [l'] being queue [z] without it. *)
Definition requeued (qs : list (list nat)) (x : nat) (z z' : Z) (l' : list nat) : list (list nat) :=
  alter (.++ [x]) (Z.to_nat z') (<[Z.to_nat z := l']> qs).

Lemma requeue_sched_wf ps prs qs x p l l' z' ps' prs' :
  sched_wf ps prs qs → ps !! x = Some p → p_state p = RUNNABLE →
  qs !! Z.to_nat (p_prio p) = Some l → (∀ y, y ∈ l' ↔ y ∈ l ∧ y ≠ x) → (0 ≤ z' < 10)%Z →
  sig_eq (alter (set_prio z') x ps) ps' → wf_queues ps' prs' (requeued qs x (p_prio p) z' l') →
  sched_wf ps' prs' (requeued qs x (p_prio p) z' l').
Proof.
  intros Hwf Hp Hst Hl Hl' Hz' Hsig Hq'. pose proof (sw_prio _ _ _ Hwf x p Hp) as Hz. unfold prio_ok in Hz.
  eapply sched_wf_sig; [| |exact Hsig|done|].
  - rewrite length_alter. apply Hwf.
  - intros y py. rewrite lookup_alter_list. case_decide; [|apply (sw_prio _ _ _ Hwf)].
    intros (p0 & _ & ->)%fmap_Some. done.
  - intros y py kk lk Hpy Hlk. unfold requeued in Hlk. rewrite lookup_alter_list in Hpy.
    rewrite lookup_alter_list, list_insert_alter, lookup_alter_list in Hlk.
    set (l0 := if decide (Z.to_nat (p_prio p) = kk) then (λ _, l') <$> qs !! kk else qs !! kk) in Hlk.
    assert (∀ m, l0 = Some m → ∀ w pw, ps !! w = Some pw →
      (w ∈ m ↔ w ≠ x ∧ p_state pw = RUNNABLE ∧ p_prio pw = Z.of_nat kk)) as Hm.
    { intros m Hm w pw Hw. subst l0. case_decide as Ek; [subst kk; rewrite Hl in Hm; injection Hm as <-|].
      - rewrite Hl'. rewrite (sw_run _ _ _ Hwf w pw _ _ Hw Hl). tauto.
      - rewrite (sw_run _ _ _ Hwf w pw _ _ Hw Hm). split; [|tauto]. intros [H1 H2].
        split; [|done]. intros ->. simplify_eq. lia. }
    assert (∀ m, l0 = Some m → x ∉ m) as Hxm.
    { intros m Hm0 Hx. by apply (Hm m Hm0 x p Hp) in Hx as [? _]. }
    destruct (decide (Z.to_nat z' = kk)) as [<-|Hkk].
    + apply fmap_Some in Hlk as (m & Hm0 & ->). rewrite elem_of_app, list_elem_of_singleton.
      destruct (decide (x = y)) as [<-|Hxy].
      * rewrite Hp in Hpy. injection Hpy as <-. simpl. split; [intros _; split; [done|lia]|by right].
      * rewrite (Hm m Hm0 y py Hpy). naive_solver.
    + destruct (decide (x = y)) as [<-|Hxy].
      * rewrite Hp in Hpy. injection Hpy as <-. simpl. split; [|intros [_ ?]; lia].
        intros Hx. by destruct (Hxm _ Hlk).
      * rewrite (Hm _ Hlk y py Hpy). naive_solver.
Qed.

Lemma insert_not_queued qs x z l l' ps prs :
  wf_queues ps prs qs → qs !! z = Some l → x ∈ l → (∀ y, y ∈ l' ↔ y ∈ l ∧ y ≠ x) → ¬ queued (<[z:=l']> qs) x.
Proof.
  intros Hq Hl Hx Hl' (k & m & Hm & Hxm). rewrite list_insert_alter, lookup_alter_list in Hm.
  case_decide as Ek.
  - subst k. rewrite Hl in Hm. injection Hm as <-. apply Hl' in Hxm as [_ ?]. done.
  - apply Ek. by eapply (wq_disj _ _ _ Hq).
Qed.

(** [setNewPrio] of a process that is not the last of a longer queue moves it
    to the end of the queue of its new priority. *)
Lemma setNewPrio_head me run D k qs x p l z' :
  sched_wf (k_procs k) (k_prio k) qs → hw_ok me run D [] (k_hw k) → ptable_lock ∈ D →
  k_procs k !! x = Some p → p_state p = RUNNABLE → (0 ≤ z' < 10)%Z →
  qs !! Z.to_nat (p_prio p) = Some (x :: l) →
  ∃ h ps' prs', setNewPrio x z' k = Ret 1%Z (with_hw h (with_prio prs' (with_procs ps' k))) ∧
    hw_ok me run D [] h ∧ sched_wf ps' prs' (requeued qs x (p_prio p) z' l) ∧
    sig_eq (alter (set_prio z') x (k_procs k)) ps'.
Proof.
  intros Hwf Hok HD Hp Hst Hz' Hl. pose proof (sw_prio _ _ _ Hwf x p Hp) as Hz. unfold prio_ok in Hz.
  pose proof (wq_nodup _ _ _ (sw_q _ _ _ Hwf) _ _ Hl) as [Hxl _]%NoDup_cons.
  destruct (lookup_lt_is_Some_2 (k_prio k) (Z.to_nat (p_prio p))) as [q Hq];
    [rewrite (wq_len _ _ _ (sw_q _ _ _ Hwf)); unfold NPRIO; lia|].
  destruct (wq_q _ _ _ (sw_q _ _ _ Hwf) _ _ _ Hq Hl) as (Hh & _ & _).
  unfold setNewPrio. run (get_proc_ok _ _ _ Hp).
  destruct (acquire_k_ok _ _ _ _ ptable_lock k Hok HD) as (h1 & E1 & Hok1); [set_solver|]. run E1.
  run (get_prio_ok (with_hw h1 k) _ _ Hz Hq). rewrite Hh, bool_decide_eq_true_2 by done.
  erewrite bind_Ret; [|by apply get_proc_ok].
  destruct (quitarProc_ok (with_hw h1 k) qs x l (p_prio p) (sw_q _ _ _ Hwf) Hz Hl) as (ps1 & prs1 & E2 & Hq1 & Hs1).
  run E2. destruct (sig_eq_lookup _ _ x p Hs1 Hp) as (p1 & Hp1 & Ep1).
  assert (∀ y, y ∈ l ↔ y ∈ x :: l ∧ y ≠ x) as Hl'.
  { intros y. rewrite elem_of_cons. split; [intros Hy; split; [by right|by intros ->]|intros [[?|?] ?]; done]. }
  destruct (insertProc_ok (with_prio prs1 (with_procs ps1 (with_hw h1 k))) (<[Z.to_nat (p_prio p):=l]> qs) x p1 z' Hq1 Hp1)
    as (ps2 & prs2 & E3 & Hq2 & Hs2); [|done|].
  { eapply insert_not_queued; [apply (sw_q _ _ _ Hwf)|exact Hl|by left|exact Hl']. }
  run E3. simpl in Hs2. rewrite Hs2 in Hs1.
  destruct (sig_eq_lookup _ _ x p Hs1 Hp) as (p2 & Hp2 & _).
  erewrite bind_Ret; [|by eapply upd_proc_ok]. simpl.
  destruct (release_k_ok me run D [] [] ptable_lock (with_procs (alter (set_prio z') x ps2) (with_prio prs2 (with_procs ps2 (with_prio prs1 (with_procs ps1 (with_hw h1 k)))))) Hok1)
    as (h4 & E4 & Hok4).
  erewrite bind_Ret; [|exact E4].
  exists h4, (alter (set_prio z') x ps2), prs2. split; [done|]. split; [done|].
  assert (sig_eq (alter (set_prio z') x (k_procs k)) (alter (set_prio z') x ps2)) as Hs by (by apply sig_eq_alter_keep).
  split; [|done]. eapply requeue_sched_wf; eauto. by apply wf_queues_keep.
Qed.

(** [setNewPrio] of a process that is not the head, up to its [insertProc].
    When it was the last one, the code stores null in [ultimo]. *)
Lemma setNewPrio_unlink me run D k qs x p l1 y r z' :
  sched_wf (k_procs k) (k_prio k) qs → hw_ok me run D [] (k_hw k) → ptable_lock ∈ D →
  k_procs k !! x = Some p → qs !! Z.to_nat (p_prio p) = Some (l1 ++ y :: x :: r) →
  ∃ h, hw_ok me run D [ptable_lock] h ∧
    setNewPrio x z' k = (insertProc x z' ;;; release_k ptable_lock ;;; ret 1%Z)
      (with_prio (if decide (r = []) then alter (λ q, Priotable (primero q) None) (Z.to_nat (p_prio p)) (k_prio k)
                  else k_prio k)
        (with_procs (alter (set_prio z') x (alter (set_sigprio None) x (alter (set_sigprio (head r)) y (k_procs k))))
          (with_hw h k))).
Proof.
  intros Hwf Hok HD Hp Hl. pose proof (sw_prio _ _ _ Hwf x p Hp) as Hz. unfold prio_ok in Hz.
  pose proof (wq_nodup _ _ _ (sw_q _ _ _ Hwf) _ _ Hl) as Hnd.
  destruct (lookup_lt_is_Some_2 (k_prio k) (Z.to_nat (p_prio p))) as [q Hq];
    [rewrite (wq_len _ _ _ (sw_q _ _ _ Hwf)); unfold NPRIO; lia|].
  pose proof (wq_q _ _ _ (sw_q _ _ _ Hwf) _ _ _ Hq Hl) as Hisq. pose proof Hisq as (Hh & _ & Hc).
  set (l := l1 ++ y :: x :: r) in *.
  assert (l !! S (length l1) = Some x) as Hx.
  { unfold l. rewrite lookup_app_r by lia. by replace (S (length l1) - length l1) with 1 by lia. }
  assert (l !! length l1 = Some y) as Hy.
  { unfold l. rewrite lookup_app_r by lia. by rewrite Nat.sub_diag. }
  assert (y ≠ x) as Hyx. { intros ->. assert (length l1 = S (length l1)); [|lia]. by eapply NoDup_lookup. }
  assert (∃ f, head l = Some f) as [f Hf] by (unfold l; destruct l1; by eexists).
  assert (l !! 0 = Some f) as Hf0 by (by rewrite <- head_lookup).
  destruct (Hc _ _ Hf0) as (pf & Hpf & _). destruct (Hc _ _ Hy) as (py & Hpy & _).
  destruct (Hc _ _ Hx) as (px & Hpx & Hsx). rewrite Hp in Hpx. injection Hpx as <-.
  assert (p_sigprio p = head r) as Hsr.
  { rewrite Hsx. unfold l. rewrite lookup_app_r by lia.
    replace (S (S (length l1)) - length l1) with 2 by lia. by rewrite head_lookup. }
  unfold setNewPrio. run (get_proc_ok _ _ _ Hp).
  destruct (acquire_k_ok _ _ _ _ ptable_lock k Hok HD) as (h1 & E1 & Hok1); [set_solver|]. run E1.
  run (get_prio_ok (with_hw h1 k) _ _ Hz Hq). rewrite Hh, Hf.
  rewrite bool_decide_eq_false_2; last first.
  { intros [= ->]. assert (0 = S (length l1)); [|lia]. by eapply NoDup_lookup. }
  erewrite bind_Ret; [|reflexivity]. run (get_proc_ok (with_hw h1 k) _ _ Hpf).
  erewrite bind_Ret; last first.
  { apply (find_prev_ok (with_hw h1 k) q l x (S (length l1)) (S NPROC) 0 f); try done; [lia|].
    pose proof (queue_length _ _ _ Hisq Hnd) as Hlen. rewrite (sw_len _ _ _ Hwf) in Hlen.
    apply lookup_lt_Some in Hx. lia. }
  replace (S (length l1) - 1) with (length l1) by lia. rewrite Hy. cbv iota beta.
  erewrite bind_Ret; [|reflexivity]. run (get_proc_ok (with_hw h1 k) _ _ Hp).
  erewrite bind_Ret; [|by eapply upd_proc_ok]. rewrite Hsr.
  erewrite bind_Ret; [|eapply get_proc_ok; simpl; by rewrite list_lookup_alter_eq, Hpy].
  exists h1. split; [done|]. simpl p_sigprio.
  assert (∀ k', k_procs k' = alter (set_sigprio (head r)) y (k_procs k) →
    (upd_proc x (set_sigprio None) ;;; upd_proc x (set_prio z') ;;;
     let! act := get_proc x in insertProc x (p_prio act) ;;; release_k ptable_lock ;;; ret 1%Z) k' =
    (insertProc x z' ;;; release_k ptable_lock ;;; ret 1%Z)
      (with_procs (alter (set_prio z') x (alter (set_sigprio None) x (alter (set_sigprio (head r)) y (k_procs k)))) k')) as Hrest.
  { intros k' Hk'. assert (k_procs k' !! x = Some p) as Hp' by (by rewrite Hk', list_lookup_alter_ne).
    erewrite bind_Ret; [|by eapply upd_proc_ok].
    erewrite bind_Ret; [|eapply upd_proc_ok; simpl; by rewrite list_lookup_alter_eq, Hp'].
    erewrite bind_Ret; [|eapply get_proc_ok; simpl; by rewrite !list_lookup_alter_eq, Hp'].
    simpl. by rewrite Hk'. }
  destruct (decide (r = [])) as [->|Hr].
  - rewrite bool_decide_eq_true_2 by done. erewrite bind_Ret; [|by apply upd_prio_ok].
    rewrite Hrest by done. done.
  - rewrite bool_decide_eq_false_2 by (by destruct r). erewrite bind_Ret; [|reflexivity].
    rewrite Hrest by done. done.
Qed.

Lemma setNewPrio_middle me run D k qs x p l1 y r z' :
  sched_wf (k_procs k) (k_prio k) qs → hw_ok me run D [] (k_hw k) → ptable_lock ∈ D →
  k_procs k !! x = Some p → p_state p = RUNNABLE → (0 ≤ z' < 10)%Z →
  qs !! Z.to_nat (p_prio p) = Some (l1 ++ y :: x :: r) → r ≠ [] →
  ∃ h ps' prs', setNewPrio x z' k = Ret 1%Z (with_hw h (with_prio prs' (with_procs ps' k))) ∧
    hw_ok me run D [] h ∧ sched_wf ps' prs' (requeued qs x (p_prio p) z' (l1 ++ y :: r)) ∧
    sig_eq (alter (set_prio z') x (k_procs k)) ps'.
Proof.
  intros Hwf Hok HD Hp Hst Hz' Hl Hr. pose proof (sw_prio _ _ _ Hwf x p Hp) as Hz. unfold prio_ok in Hz.
  destruct (setNewPrio_unlink _ _ _ _ _ _ _ _ _ _ z' Hwf Hok HD Hp Hl) as (h1 & Hok1 & ->).
  rewrite decide_False by done.
  pose proof (sw_q _ _ _ Hwf) as Hwq. pose proof (wq_nodup _ _ _ Hwq _ _ Hl) as Hnd.
  set (ps1 := alter (set_sigprio None) x (alter (set_sigprio (head r)) y (k_procs k))).
  assert (x ∈ l1 ++ y :: x :: r ∧ y ∈ l1 ++ y :: x :: r) as [Hxin Hyin] by set_solver.
  assert (∀ w, w ∈ l1 ++ y :: r ↔ w ∈ l1 ++ y :: x :: r ∧ w ≠ x) as Hl'.
  { intros w. apply NoDup_app in Hnd as (_ & Hd & [Hy2 [Hx2 _]%NoDup_cons]%NoDup_cons).
    split; [|set_solver]. intros Hw. split; [set_solver|]. intros ->.
    apply elem_of_app in Hw as [Hw|[->|Hw]%elem_of_cons]; [|set_solver..]. specialize (Hd x Hw). set_solver. }
  assert (∃ py, k_procs k !! y = Some py) as [py Hpy].
  { destruct (lookup_lt_is_Some_2 (k_prio k) (Z.to_nat (p_prio p))) as [q Hq]; [rewrite (wq_len _ _ _ Hwq); unfold NPRIO; lia|].
    destruct (wq_q _ _ _ Hwq _ _ _ Hq Hl) as (_ & _ & Hc).
    apply list_elem_of_lookup in Hyin as [i Hi]. destruct (Hc _ _ Hi) as (py & ? & _). by exists py. }
  assert (wf_queues ps1 (k_prio k) (<[Z.to_nat (p_prio p) := l1 ++ y :: r]> qs)) as Hq1.
  { rewrite <- (list_alter_id id (k_prio k) (Z.to_nat (p_prio p))) by done. rewrite list_insert_alter.
    eapply wf_queues_update; [exact Hwq|exact Hl|..].
    - intros q Hq. pose proof (is_queue_unlink _ _ _ _ _ _ _ (wq_q _ _ _ Hwq _ _ _ Hq Hl) Hnd Hpy) as Hu.
      destruct (wq_q _ _ _ Hwq _ _ _ Hq Hl) as (_ & Hlast & _). destruct q as [q1 q2]; simpl in *.
      replace q2 with (last (l1 ++ y :: r)); [exact Hu|]. rewrite Hlast.
      destruct r as [|a r]; [done|]. rewrite !last_app_cons, !last_cons_cons. done.
    - apply NoDup_app in Hnd as (H1 & H2 & [H3 [H4 H5]%NoDup_cons]%NoDup_cons).
      apply NoDup_app. split_and!; [done| |constructor; set_solver]. intros w Hw. specialize (H2 w Hw). set_solver.
    - intros kk q m Hkk Hq Hm. unfold ps1.
      apply is_queue_other; [intros Hxm; apply Hkk; by eapply (wq_disj _ _ _ Hwq)|].
      apply is_queue_other; [intros Hym; apply Hkk; by eapply (wq_disj _ _ _ Hwq)|]. by eapply (wq_q _ _ _ Hwq).
    - intros kk m w Hkk Hm Hw Hwm. apply Hl' in Hw as [Hw _]. apply Hkk. by eapply (wq_disj _ _ _ Hwq). }
  assert (sig_eq (k_procs k) ps1) as Hs1.
  { unfold ps1. rewrite (sig_eq_alter _ y (head r)) at 1. apply sig_eq_alter. }
  destruct (sig_eq_lookup _ _ x p Hs1 Hp) as (p1 & Hp1 & _).
  set (k1 := with_prio (k_prio k) (with_procs (alter (set_prio z') x ps1) (with_hw h1 k))).
  destruct (insertProc_ok k1 (<[Z.to_nat (p_prio p):=l1 ++ y :: r]> qs) x (set_prio z' p1) z') as (ps2 & prs2 & E3 & Hq2 & Hs2).
  { simpl. by apply wf_queues_keep. } { simpl. by rewrite list_lookup_alter_eq, Hp1. }
  { eapply insert_not_queued; [exact Hwq|exact Hl|exact Hxin|exact Hl']. } { done. }
  erewrite bind_Ret; [|exact E3].
  destruct (release_k_ok me run D [] [] ptable_lock (with_prio prs2 (with_procs ps2 k1)) Hok1) as (h4 & E4 & Hok4).
  erewrite bind_Ret; [|exact E4].
  exists h4, ps2, prs2. split; [done|]. split; [done|].
  assert (sig_eq (alter (set_prio z') x (k_procs k)) ps2) as Hs.
  { rewrite <- Hs2. simpl. by apply sig_eq_alter_keep. }
  split; [|done]. eapply requeue_sched_wf; eauto.
Qed.

(** What [insertProc] touches, whatever the state of the queues. *)
Lemma insertProc_frame k x z q :
  (0 ≤ z < 10)%Z → k_prio k !! Z.to_nat z = Some q → is_Some (k_procs k !! x) →
  (∀ t, ultimo q = Some t → is_Some (k_procs k !! t)) →
  ∃ ps' prs', insertProc x z k = Ret 1%Z (with_prio prs' (with_procs ps' k)) ∧
    sig_eq (k_procs k) ps' ∧ (∀ j, j ≠ Z.to_nat z → prs' !! j = k_prio k !! j) ∧
    (ultimo q = None → prs' !! Z.to_nat z = Some (Priotable (Some x) (Some x)) ∧
       p_sigprio <$> ps' !! x = Some None).
Proof.
  intros Hz Hq [p Hp] Ht. unfold insertProc. run (get_prio_ok _ _ _ Hz Hq).
  destruct (ultimo q) as [t|] eqn:Eu.
  - destruct (Ht t eq_refl) as [pt Hpt].
    erewrite bind_Ret; [|by eapply upd_proc_ok]. erewrite bind_Ret; [|by apply upd_prio_ok].
    assert (is_Some (alter (set_sigprio (Some x)) t (k_procs k) !! x)) as [p' Hp'].
    { rewrite lookup_alter_list. case_decide; rewrite Hp; by eexists. }
    erewrite bind_Ret; [|eapply upd_proc_ok; exact Hp'].
    do 2 eexists. split; [reflexivity|]. simpl. split_and!; [|intros j Hj; by rewrite list_lookup_alter_ne|done].
    etrans; [apply (sig_eq_alter _ t (Some x))|]. apply sig_eq_alter.
  - erewrite bind_Ret; [|by apply upd_prio_ok]. erewrite bind_Ret; [|by apply upd_prio_ok].
    erewrite bind_Ret; [|by eapply upd_proc_ok].
    exists (alter (set_sigprio None) x (k_procs k)).
    exists (alter (λ q, Priotable (primero q) (Some x)) (Z.to_nat z)
              (alter (λ q, Priotable (Some x) (ultimo q)) (Z.to_nat z) (k_prio k))). split; [done|].
    split_and!; [apply sig_eq_alter|intros j Hj; by rewrite !list_lookup_alter_ne|].
    intros _. by rewrite !list_lookup_alter_eq, Hq, Hp.
Qed.

(** [setNewPrio] of the last process of a queue that holds others: the call
    succeeds, and from then on no assignment of processes to the ten queues
    accounts for the table, although the process before it is still
    runnable. *)
Lemma setNewPrio_last_lost me run D k qs x p l1 y z' :
  sched_wf (k_procs k) (k_prio k) qs → hw_ok me run D [] (k_hw k) → ptable_lock ∈ D →
  k_procs k !! x = Some p → (0 ≤ z' < 10)%Z →
  qs !! Z.to_nat (p_prio p) = Some (l1 ++ [y; x]) →
  ∃ k', setNewPrio x z' k = Ret 1%Z k' ∧
    p_state <$> k_procs k' !! y = Some RUNNABLE ∧ ∀ qs', ¬ sched_wf (k_procs k') (k_prio k') qs'.
Proof.
  intros Hwf Hok HD Hp Hz' Hl. pose proof (sw_prio _ _ _ Hwf x p Hp) as Hz. unfold prio_ok in Hz.
  pose proof (sw_q _ _ _ Hwf) as Hwq. pose proof (wq_nodup _ _ _ Hwq _ _ Hl) as Hnd.
  destruct (setNewPrio_unlink _ _ _ _ _ _ _ _ _ _ z' Hwf Hok HD Hp Hl) as (h1 & Hok1 & ->).
  rewrite decide_True by done.
  assert (y ≠ x) as Hyx. { intros ->. apply NoDup_app in Hnd as (_ & _ & Hnd). apply NoDup_cons in Hnd. set_solver. }
  destruct (lookup_lt_is_Some_2 (k_prio k) (Z.to_nat (p_prio p))) as [q Hq]; [rewrite (wq_len _ _ _ Hwq); unfold NPRIO; lia|].
  assert (∃ py, k_procs k !! y = Some py) as [py Hpy].
  { destruct (wq_q _ _ _ Hwq _ _ _ Hq Hl) as (_ & _ & Hc).
    destruct (Hc (length l1) y) as (py & ? & _); [by rewrite lookup_app_r, Nat.sub_diag by lia|]. by exists py. }
  destruct (proj1 (sw_run _ _ _ Hwf y py _ _ Hpy Hl) ltac:(set_solver)) as [Hrun Hprio].
  set (prs1 := alter (λ q, Priotable (primero q) None) (Z.to_nat (p_prio p)) (k_prio k)).
  set (ps1 := alter (set_prio z') x (alter (set_sigprio None) x (alter (set_sigprio (head [])) y (k_procs k)))).
  set (k1 := with_prio prs1 (with_procs ps1 (with_hw h1 k))).
  assert (ps1 !! y = Some (set_sigprio None py)) as Hpy1.
  { unfold ps1. do 2 rewrite list_lookup_alter_ne by done. by rewrite list_lookup_alter_eq, Hpy. }
  assert (prs1 !! Z.to_nat (p_prio p) = Some (Priotable (primero q) None)) as Hq1.
  { unfold prs1. by rewrite list_lookup_alter_eq, Hq. }
  destruct (lookup_lt_is_Some_2 prs1 (Z.to_nat z')) as [q' Hq']; [unfold prs1; rewrite length_alter, (wq_len _ _ _ Hwq); unfold NPRIO; lia|].
  destruct (insertProc_frame k1 x z' q' Hz' Hq') as (ps2 & prs2 & E2 & Hsig & Hfr & Hnew).
  { change (is_Some (ps1 !! x)). unfold ps1. rewrite !list_lookup_alter_eq, list_lookup_alter_ne, Hp by done. by eexists. }
  { intros t Ht. apply lookup_lt_is_Some. change (t < length ps1). unfold ps1. rewrite !length_alter.
    unfold prs1 in Hq'. rewrite lookup_alter_list in Hq'. case_decide as Ez.
    - rewrite Ez in Hq. rewrite Hq in Hq'. injection Hq' as <-. done.
    - destruct (lookup_lt_is_Some_2 qs (Z.to_nat z')) as [l' Hl']; [rewrite (wq_lens _ _ _ Hwq); unfold NPRIO; lia|].
      destruct (wq_q _ _ _ Hwq _ _ _ Hq' Hl') as (_ & Hlast & Hc). rewrite Ht, last_lookup in Hlast.
      destruct (Hc _ _ (eq_sym Hlast)) as (pt & Hpt & _). by eapply lookup_lt_Some. }
  erewrite bind_Ret; [|exact E2].
  destruct (release_k_ok me run D [] [] ptable_lock (with_prio prs2 (with_procs ps2 k1)) Hok1) as (h4 & E4 & Hok4).
  erewrite bind_Ret; [|exact E4]. eexists. split; [reflexivity|]. simpl.
  destruct (sig_eq_lookup _ _ y _ Hsig Hpy1) as (py2 & Hpy2 & Ey).
  assert (p_state py2 = RUNNABLE ∧ p_prio py2 = p_prio py) as [Hr2 Hpr2].
  { split; [rewrite <- (sig_eq_field p_state _ _ ltac:(done) Ey)|rewrite <- (sig_eq_field p_prio _ _ ltac:(done) Ey)]; done. }
  split; [by rewrite Hpy2; simpl; rewrite Hr2|].
  intros qs' Hwf'. pose proof (sw_q _ _ _ Hwf') as Hwq'.
  destruct (lookup_lt_is_Some_2 qs' (Z.to_nat (p_prio p))) as [m Hm]; [rewrite (wq_lens _ _ _ Hwq'); unfold NPRIO; lia|].
  assert (y ∈ m) as Hym.
  { eapply (sw_run _ _ _ Hwf' y py2); [done|exact Hm|]. split; [done|]. by rewrite Hpr2, Hprio. }
  destruct (decide (Z.to_nat z' = Z.to_nat (p_prio p))) as [Ez|Ez].
  - rewrite Ez, Hq1 in Hq'. injection Hq' as <-. destruct (Hnew eq_refl) as [Hq2 Hs2]. rewrite Ez in Hq2.
    destruct (wq_q _ _ _ Hwq' _ _ _ Hq2 Hm) as (Hh & _ & Hc). destruct m as [|a m]; [done|].
    simpl in Hh. injection Hh as <-. destruct (Hc 0 x eq_refl) as (px & Hpx & Hsx).
    rewrite Hpx in Hs2. simpl in Hs2. rewrite Hsx in Hs2. injection Hs2 as Hs2.
    destruct m; [set_solver|done].
  - rewrite <- Hfr in Hq1 by done. destruct (wq_q _ _ _ Hwq' _ _ _ Hq1 Hm) as (_ & Hlast & _).
    simpl in Hlast. symmetry in Hlast. apply last_None in Hlast as ->. set_solver.
Qed.
