(* ===== verification/Machine.v ===== *)
(** * The machine: CPUs, kernel threads and the abstract scheduler they implement

    A multiprocessor running the kernel threads of its processes, as a
    transition system: every step is one critical section on [ptable.lock], run
    by one CPU from the definitions of Proc.v, with the kernel threads that are
    switched away from kept as continuations.  The abstract scheduler knows
    neither pointers nor locks: it has ten FIFO lists and an assignment of
    processes to CPUs.  The machine refines it. *)
From stdpp Require Import base list gmap strings.
From Stdlib Require Import ZArith Lia.
From S2P Require Import Prelude Mmu Spinlock CpuLocks Proc RunQueue Sched Reprio.

(** ** The concrete machine *)
Abbreviation thread := (kproc → outcome kproc ()).

(** [m_sched]: for a CPU that runs a process, where its [scheduler] goes on;
    [m_kont]: for a process that does not run, where its kernel thread does. *)
Record machine := Machine { m_k : kproc; m_sched : list (option thread); m_kont : gmap nat thread }.

(** CPU [c] is the one that executes. *)
Definition on_cpu (c : nat) (k : kproc) : kproc :=
  with_hw (Hw c (h_cpus (k_hw k)) (h_locks (k_hw k))) k.
Definition cpu_procs (k : kproc) : list (option nat) := c_proc <$> h_cpus (k_hw k).

Definition returned {S A} (o : outcome S A) : option S :=
  match o with Ret _ s => Some s | _ => None end.
Definition blocked {S A} (o : outcome S A) : option (S * (S → outcome S A)) :=
  match o with Block _ s k => Some (s, k) | _ => None end.

Inductive op :=
| OSchedule (c : nat)                    (* a turn of the scheduler loop on an idle CPU *)
| OYield (c : nat)                       (* the process of CPU [c] yields *)
| OSleep (c : nat) (chan lk : Z)         (* ... sleeps on [chan] in a section protected by [lk] *)
| OWakeup (c : nat) (chan : Z)           (* code on CPU [c] wakes up [chan] *)
| OKill (c : nat) (pid : Z)
| OSetPrio (c x : nat) (prio : Z).

(** The process of CPU [c] runs [code] until it is switched away from; the
    scheduler of [c] then finishes its turn. *)
Definition switch_out (c : nat) (code : thread) (m : machine) : option machine :=
  ks ← m_sched m !! c ≫= id;
  x ← cpu_procs (m_k m) !! c ≫= id;
  '(k1, kx) ← blocked (code (on_cpu c (m_k m)));
  k2 ← returned (ks k1);
  Some (Machine k2 (<[c:=None]> (m_sched m)) (<[x:=kx]> (m_kont m))).

Definition section {A} (c : nat) (code : M kproc A) (m : machine) : option machine :=
  k ← returned (code (on_cpu c (m_k m))); Some (Machine k (m_sched m) (m_kont m)).

Definition mexec (o : op) (m : machine) : option machine :=
  match o with
  | OSchedule c =>
      match m_sched m !! c with
      | Some None =>
          match scheduler_round c (on_cpu c (m_k m)) with
          | Ret _ k1 => Some (Machine k1 (m_sched m) (m_kont m))
          | Block _ k1 ks =>
              x ← cpu_procs k1 !! c ≫= id;
              kx ← m_kont m !! x;
              k2 ← returned (kx k1);
              Some (Machine k2 (<[c:=Some ks]> (m_sched m)) (delete x (m_kont m)))
          | _ => None
          end
      | _ => None
      end
  | OYield c => switch_out c yield m
  | OSleep c chan lk => switch_out c (acquire_k lk ;;; sleep chan lk ;;; release_k lk) m
  | OWakeup c chan => section c (wakeup chan) m
  | OKill c pid => section c (kill pid) m
  | OSetPrio c x prio => section c (setNewPrio x prio) m
  end.

(** ** The abstract scheduler *)
Record aproc := AProc { a_state : procstate; a_prio : Z; a_chan : Z; a_killed : bool; a_pid : Z }.
Record asched := ASched { as_procs : list aproc; as_queues : list (list nat); as_cpus : list (option nat) }.

Definition view (p : proc) : aproc := AProc (p_state p) (p_prio p) (p_chan p) (p_killed p) (p_pid p).
Definition abs (m : machine) (qs : list (list nat)) : asched :=
  ASched (view <$> k_procs (m_k m)) qs (cpu_procs (m_k m)).

Definition a_with_state (s : procstate) (p : aproc) : aproc := AProc s (a_prio p) (a_chan p) (a_killed p) (a_pid p).
Definition a_asleep (chan : Z) (p : aproc) : bool :=
  bool_decide (a_state p = SLEEPING) && bool_decide (a_chan p = chan).
Definition a_wake (chan : Z) (p : aproc) : aproc := if a_asleep chan p then a_with_state RUNNABLE p else p.
(** The sleepers of a channel that have priority [z], by table index. *)
Definition a_woken (chan : Z) (ps : list aproc) (z : nat) : list nat :=
  List.filter (λ j, match ps !! j with Some p => a_asleep chan p && (a_prio p =? Z.of_nat z)%Z | None => false end)
    (seq 0 NPROC).

Definition aexec (o : op) (a : asched) : option asched :=
  match o with
  | OSchedule c =>
      match as_cpus a !! c with
      | Some None =>
          match next_queue (as_queues a) with
          | None => Some a
          | Some z =>
              match as_queues a !! z with
              | Some (x :: l) =>
                  Some (ASched (alter (λ p, AProc RUNNING (a_prio p) 0 (a_killed p) (a_pid p)) x (as_procs a))
                          (<[z:=l]> (as_queues a)) (<[c:=Some x]> (as_cpus a)))
              | _ => None
              end
          end
      | _ => None
      end
  | OYield c =>
      x ← as_cpus a !! c ≫= id;
      p ← as_procs a !! x;
      Some (ASched (alter (a_with_state RUNNABLE) x (as_procs a))
              (alter (.++ [x]) (Z.to_nat (a_prio p)) (as_queues a)) (<[c:=None]> (as_cpus a)))
  | OSleep c chan _ =>
      x ← as_cpus a !! c ≫= id;
      Some (ASched (alter (λ p, AProc SLEEPING (a_prio p) chan (a_killed p) (a_pid p)) x (as_procs a))
              (as_queues a) (<[c:=None]> (as_cpus a)))
  | OWakeup c chan =>
      _ ← as_cpus a !! c;
      Some (ASched (a_wake chan <$> as_procs a)
              (imap (λ z l, l ++ a_woken chan (as_procs a) z) (as_queues a)) (as_cpus a))
  | OKill c pid =>
      _ ← as_cpus a !! c;
      match first_idx (λ p, bool_decide (a_pid p = pid)) (as_procs a) with
      | None => Some a
      | Some x =>
          p ← as_procs a !! x;
          let asleep := bool_decide (a_state p = SLEEPING) in
          Some (ASched (alter (λ p, AProc (if asleep then RUNNABLE else a_state p) (a_prio p) (a_chan p) true (a_pid p)) x (as_procs a))
                  (if asleep then alter (.++ [x]) (Z.to_nat (a_prio p)) (as_queues a) else as_queues a) (as_cpus a))
      end
  | OSetPrio c x prio =>
      _ ← as_cpus a !! c;
      p ← as_procs a !! x;
      l ← as_queues a !! Z.to_nat (a_prio p);
      (* defined unless the process is the last of a queue of two or more *)
      if bool_decide (a_state p = RUNNABLE) && (0 <=? prio)%Z && (prio <? 10)%Z
         && (bool_decide (head l = Some x) || negb (bool_decide (last l = Some x)))
      then Some (ASched (alter (λ p, AProc (a_state p) prio (a_chan p) (a_killed p) (a_pid p)) x (as_procs a))
                   (alter (.++ [x]) (Z.to_nat prio)
                      (<[Z.to_nat (a_prio p) := filter (.≠ x) l]> (as_queues a))) (as_cpus a))
      else None
  end.

(** ** The machine invariant *)
Definition live (p : proc) : Prop := p_state p = RUNNABLE ∨ p_state p = SLEEPING ∨ p_state p = RUNNING.

(** What a scheduler or a kernel thread does once it is switched back to. *)
Definition sched_resumes (D : gset Z) (c : nat) (ks : thread) : Prop :=
  ∀ k run, handoff c run D k → ∃ h, ks k = Ret () (with_hw h k) ∧ hw_ok c (<[c:=None]> run) D [] h.
Definition proc_resumes (D : gset Z) (kx : thread) : Prop :=
  ∀ k c run, handoff c run D k → ∃ h, kx k = Ret () (with_hw h k) ∧ hw_ok c run D [] h.
Definition proc_wakes (D : gset Z) (x : nat) (kx : thread) : Prop :=
  ∀ k c run p, handoff c run D k → k_procs k !! x = Some p →
  ∃ h, kx k = Ret () (with_hw h (with_procs (alter (set_chan 0) x (k_procs k)) k)) ∧ hw_ok c run D [] h.

Record minv (D : gset Z) (m : machine) (qs : list (list nat)) : Prop := {
  mi_wf : sched_wf (k_procs (m_k m)) (k_prio (m_k m)) qs;
  mi_hw c : c < length (cpu_procs (m_k m)) → hw_ok c (cpu_procs (m_k m)) D [] (k_hw (on_cpu c (m_k m)));
  mi_pt : ptable_lock ∈ D;
  mi_mem x p : k_procs (m_k m) !! x = Some p → live p → p_kstack p ≠ 0%Z ∧ p_pgdir p ≠ 0%Z;
  (** a process is RUNNING exactly when it is on a CPU, and on one only *)
  mi_run x p : k_procs (m_k m) !! x = Some p →
    (p_state p = RUNNING ↔ ∃ c, cpu_procs (m_k m) !! c = Some (Some x));
  mi_excl c c' x : cpu_procs (m_k m) !! c = Some (Some x) → cpu_procs (m_k m) !! c' = Some (Some x) → c = c';
  mi_cpu c x : cpu_procs (m_k m) !! c = Some (Some x) → is_Some (k_procs (m_k m) !! x);
  mi_slen : length (m_sched m) = length (cpu_procs (m_k m));
  mi_sched c s : m_sched m !! c = Some s →
    match s with
    | None => cpu_procs (m_k m) !! c = Some None
    | Some ks => (∃ x, cpu_procs (m_k m) !! c = Some (Some x)) ∧ sched_resumes D c ks
    end;
  mi_kont x p : k_procs (m_k m) !! x = Some p → p_state p = RUNNABLE ∨ p_state p = SLEEPING →
    ∃ kx, m_kont m !! x = Some kx ∧ (proc_wakes D x kx ∨ proc_resumes D kx ∧ p_chan p = 0%Z);
  mi_chan x p : k_procs (m_k m) !! x = Some p → p_state p = RUNNING → p_chan p = 0%Z }.

Lemma hw_ok_move c c' run D h :
  hw_ok c run D [] h → c' < length run → hw_ok c' run D [] (Hw c' (h_cpus h) (h_locks h)).
Proof.
  intros [Hme Hrun Hlt Hap Hcpu Hd Hlk Hnd Hs] Hc'. split; simpl; try done.
  - by rewrite <- Hrun, length_fmap in Hc'.
  - intros i ci Hi. destruct (Hcpu i ci Hi) as [Hwf Hn]. split; [done|]. by repeat case_decide.
Qed.

Lemma hw_ok_run c run D L h : hw_ok c run D L h → run = c_proc <$> h_cpus h.
Proof. by intros [_ -> _ _ _ _ _ _ _]. Qed.

Lemma minv_on_cpu D m qs c : minv D m qs → is_Some (cpu_procs (m_k m) !! c) →
  hw_ok c (cpu_procs (m_k m)) D [] (k_hw (on_cpu c (m_k m))).
Proof. intros Hm Hc. apply (mi_hw _ _ _ Hm). by apply lookup_lt_is_Some. Qed.

Lemma view_sig ps ps' : sig_eq ps ps' → view <$> ps = view <$> ps'.
Proof.
  intros H. assert (∀ l : list proc, view <$> l = view <$> (set_sigprio None <$> l)) as E.
  { intros l. rewrite <- list_fmap_compose. by apply list_fmap_ext. }
  rewrite (E ps), (E ps'). by rewrite H.
Qed.

Lemma fmap_alter_comm {A B} (h : A → B) (f : A → A) (g : B → B) (l : list A) i :
  (∀ x, l !! i = Some x → h (f x) = g (h x)) → h <$> alter f i l = alter g i (h <$> l).
Proof.
  intros H. apply list_eq; intros j. rewrite list_lookup_fmap, !lookup_alter_list, list_lookup_fmap.
  case_decide; [subst|done]. destruct (l !! j) eqn:E; simpl; [|done]. by rewrite H.
Qed.

(** A section that runs on one CPU, changes no CPU's process, and at most makes
    sleeping processes runnable. *)
Definition keeps (p p' : proc) : Prop :=
  p_kstack p' = p_kstack p ∧ p_pgdir p' = p_pgdir p ∧ p_chan p' = p_chan p ∧
  (p_state p' = p_state p ∨ p_state p = SLEEPING ∧ p_state p' = RUNNABLE).

Lemma minv_section D m qs c k' qs' :
  minv D m qs → is_Some (cpu_procs (m_k m) !! c) →
  hw_ok c (cpu_procs (m_k m)) D [] (k_hw k') → sched_wf (k_procs k') (k_prio k') qs' →
  (∀ x p', k_procs k' !! x = Some p' → ∃ p, k_procs (m_k m) !! x = Some p ∧ keeps p p') →
  minv D (Machine k' (m_sched m) (m_kont m)) qs' ∧ cpu_procs k' = cpu_procs (m_k m).
Proof.
  intros Hm Hc Hok Hwf Hk. assert (cpu_procs k' = cpu_procs (m_k m)) as Er.
  { by rewrite (hw_ok_run _ _ _ _ _ Hok). }
  split; [|done]. split; simpl; try rewrite Er; try by apply Hm.
  - exact Hwf.
  - intros c' Hc'. by eapply hw_ok_move.
  - intros x p' Hp' Hl. destruct (Hk x p' Hp') as (p & Hp & E1 & E2 & _ & E4). rewrite E1, E2.
    apply (mi_mem _ _ _ Hm x p Hp). unfold live in *. intuition congruence.
  - intros x p' Hp'. destruct (Hk x p' Hp') as (p & Hp & _ & _ & _ & E4). rewrite <- (mi_run _ _ _ Hm x p Hp).
    intuition congruence.
  - intros i x Hi. destruct (mi_cpu _ _ _ Hm i x Hi) as [p Hp]. apply lookup_lt_is_Some.
    rewrite (sw_len _ _ _ Hwf), <- (sw_len _ _ _ (mi_wf _ _ _ Hm)). by eapply lookup_lt_Some.
  - intros x p' Hp' Hs. destruct (Hk x p' Hp') as (p & Hp & _ & _ & -> & E4).
    apply (mi_kont _ _ _ Hm x p Hp). intuition congruence.
  - intros x p' Hp' Hs. destruct (Hk x p' Hp') as (p & Hp & _ & _ & -> & E4).
    apply (mi_chan _ _ _ Hm x p Hp). intuition congruence.
Qed.

(** ** Every operation implements its abstract counterpart *)
#[local] Opaque NPROC.
Definition simulates (D : gset Z) (o : op) : Prop := ∀ m qs a',
  minv D m qs → aexec o (abs m qs) = Some a' →
  ∃ m' qs', mexec o m = Some m' ∧ minv D m' qs' ∧ abs m' qs' = a'.

Lemma abs_section D m qs c k' qs' ps' :
  minv D m qs → is_Some (cpu_procs (m_k m) !! c) →
  hw_ok c (cpu_procs (m_k m)) D [] (k_hw k') → sched_wf (k_procs k') (k_prio k') qs' →
  sig_eq ps' (k_procs k') →
  (∀ x p', ps' !! x = Some p' → ∃ p, k_procs (m_k m) !! x = Some p ∧ keeps p p') →
  minv D (Machine k' (m_sched m) (m_kont m)) qs' ∧
  abs (Machine k' (m_sched m) (m_kont m)) qs' = ASched (view <$> ps') qs' (cpu_procs (m_k m)).
Proof.
  intros Hm Hc Hok Hwf Hs Hk.
  destruct (minv_section D m qs c k' qs' Hm Hc Hok Hwf) as [H1 H2].
  { intros x p' Hp'. destruct (sig_eq_lookup _ _ x p' (symmetry Hs) Hp') as (p1 & Hp1 & E).
    destruct (Hk x p1 Hp1) as (p & Hp & Hkeep). exists p. split; [done|]. unfold keeps in *.
    by rewrite (sig_eq_field p_kstack _ _ ltac:(done) E), (sig_eq_field p_pgdir _ _ ltac:(done) E),
      (sig_eq_field p_chan _ _ ltac:(done) E), (sig_eq_field p_state _ _ ltac:(done) E). }
  split; [done|]. unfold abs. simpl. by rewrite H2, (view_sig _ _ Hs).
Qed.

Lemma keeps_alter f (x : nat) (ps : list proc) (y : nat) p' :
  (∀ p, keeps p (f p)) → alter f x ps !! y = Some p' → ∃ p, ps !! y = Some p ∧ keeps p p'.
Proof.
  intros Hf. rewrite lookup_alter_list. case_decide.
  - intros (p & Hp & ->)%fmap_Some. eauto.
  - intros Hp. exists p'. split; [done|]. unfold keeps. naive_solver.
Qed.


Lemma kill_simulates D c pid : simulates D (OKill c pid).
Proof.
  intros m qs a' Hm Ha. simpl in Ha. apply bind_Some in Ha as (r & Hr & Ha).
  assert (is_Some (cpu_procs (m_k m) !! c)) as Hc by (by eexists).
  pose proof (minv_on_cpu _ _ _ _ Hm Hc) as Hok.
  pose proof (kill_ok _ _ _ (on_cpu c (m_k m)) qs pid (mi_wf _ _ _ Hm) Hok (mi_pt _ _ _ Hm)) as Hk.
  rewrite first_idx_fmap in Ha. change (first_idx _ _) with (pid_idx (k_procs (on_cpu c (m_k m))) pid) in Ha.
  simpl mexec. unfold section. destruct (pid_idx _ _) as [x|].
  - destruct Hk as (p & h & ps' & prs' & Hp & Hpid & E & Hok' & Hwf' & Hsig). rewrite E. simpl.
    change (k_procs (m_k m) !! x = Some p) in Hp.
    rewrite list_lookup_fmap, Hp in Ha. simpl in Ha. injection Ha as <-.
    do 2 eexists. split; [reflexivity|].
    destruct (abs_section D m qs c (with_hw h (with_prio prs' (with_procs ps' (on_cpu c (m_k m))))) _ _ Hm Hc Hok' Hwf' Hsig) as [H1 H2].
    { intros y p'. apply keeps_alter. intros p0. unfold killed_proc, keeps. case_bool_decide; simpl; naive_solver. }
    split; [exact H1|]. rewrite H2. f_equal. apply fmap_alter_comm. intros p0 Hp0.
    rewrite Hp in Hp0. injection Hp0 as <-. unfold killed_proc. by case_bool_decide.
  - destruct Hk as (h & E & Hok'). rewrite E. simpl. injection Ha as <-.
    do 2 eexists. split; [reflexivity|].
    destruct (abs_section D m qs c (with_hw h (on_cpu c (m_k m))) qs (k_procs (m_k m)) Hm Hc Hok' (mi_wf _ _ _ Hm)) as [H1 H2];
      [done| |by split].
    intros y p' Hp'. exists p'. split; [done|]. unfold keeps. naive_solver.
Qed.

Lemma wakeup_simulates D c chan : simulates D (OWakeup c chan).
Proof.
  intros m qs a' Hm Ha. simpl in Ha. apply bind_Some in Ha as (r & Hr & [= <-]).
  assert (is_Some (cpu_procs (m_k m) !! c)) as Hc by (by eexists).
  pose proof (minv_on_cpu _ _ _ _ Hm Hc) as Hok. pose proof (mi_wf _ _ _ Hm) as Hwf.
  destruct (wakeup_ok _ _ _ _ (on_cpu c (m_k m)) qs chan Hwf Hok (mi_pt _ _ _ Hm))
    as (h & ps' & prs' & qs' & E & Hok' & Hwf' & Hw & Hq); [set_solver|].
  simpl mexec. unfold section. rewrite E. simpl. do 2 eexists. split; [reflexivity|].
  assert (sig_eq (wake chan <$> k_procs (m_k m)) ps') as Hsig.
  { apply list_eq; intros j. rewrite !list_lookup_fmap. destruct (k_procs (m_k m) !! j) as [p|] eqn:Hp; simpl.
    - destruct (Hw j p Hp) as (p' & -> & E'). simpl. by rewrite E'.
    - apply lookup_ge_None in Hp. assert (ps' !! j = None) as ->; [|done]. apply lookup_ge_None.
      by rewrite (sw_len _ _ _ Hwf'), <- (sw_len _ _ _ Hwf). }
  destruct (abs_section D m qs c (with_hw h (with_prio prs' (with_procs ps' (on_cpu c (m_k m))))) _ _ Hm Hc Hok' Hwf' Hsig) as [H1 H2].
  { intros y p'. rewrite list_lookup_fmap. intros (p & Hp & ->)%fmap_Some. exists p. split; [done|].
    unfold keeps, wake, sleeper. destruct (p_state p) eqn:Es; simpl; try naive_solver.
    case_bool_decide; simpl; naive_solver. }
  split; [exact H1|]. rewrite H2. f_equal; [by rewrite <- !list_fmap_compose; apply list_fmap_ext; intros; unfold compose, wake, a_wake, a_asleep, sleeper; simpl; case_match|].
  apply list_eq; intros z. rewrite list_lookup_imap. destruct (qs !! z) as [l|] eqn:Hl; simpl.
  - rewrite (Hq _ _ Hl). f_equal. f_equal. apply List.filter_ext. intros j. unfold sleeps_at.
    rewrite list_lookup_fmap. simpl. by destruct (k_procs (m_k m) !! j).
  - apply lookup_ge_None in Hl. apply lookup_ge_None.
    by rewrite (wq_lens _ _ _ (sw_q _ _ _ Hwf')), <- (wq_lens _ _ _ (sw_q _ _ _ Hwf)).
Qed.

(** A process leaves its CPU. *)
Lemma minv_switch_out D m qs c x p ks kx k1 f qs1 :
  minv D m qs → m_sched m !! c = Some (Some ks) → cpu_procs (m_k m) !! c = Some (Some x) →
  k_procs (m_k m) !! x = Some p →
  handoff c (cpu_procs (m_k m)) D k1 → sched_wf (k_procs k1) (k_prio k1) qs1 →
  sig_eq (alter f x (k_procs (m_k m))) (k_procs k1) →
  p_kstack (f p) = p_kstack p → p_pgdir (f p) = p_pgdir p →
  p_state (f p) = RUNNABLE ∨ p_state (f p) = SLEEPING →
  proc_wakes D x kx ∨ proc_resumes D kx ∧ p_chan (f p) = 0%Z →
  ∃ k2, ks k1 = Ret () k2 ∧
    minv D (Machine k2 (<[c:=None]> (m_sched m)) (<[x:=kx]> (m_kont m))) qs1 ∧
    abs (Machine k2 (<[c:=None]> (m_sched m)) (<[x:=kx]> (m_kont m))) qs1 =
      ASched (view <$> alter f x (k_procs (m_k m))) qs1 (<[c:=None]> (cpu_procs (m_k m))).
Proof.
  intros Hm Hs Hc Hp Hk1 Hwf Hsig Hks Hpg Hst Hkx.
  destruct (mi_sched _ _ _ Hm c _ Hs) as [_ Hres]. destruct (Hres k1 _ Hk1) as (h & E & Hok).
  exists (with_hw h k1). split; [done|].
  assert (cpu_procs (with_hw h k1) = <[c:=None]> (cpu_procs (m_k m))) as Er by (by rewrite (hw_ok_run _ _ _ _ _ Hok)).
  assert (c < length (cpu_procs (m_k m))) as Hlt by (by eapply lookup_lt_Some).
  assert (∀ y py, k_procs k1 !! y = Some py → ∃ p0, k_procs (m_k m) !! y = Some p0 ∧
    set_sigprio None py = set_sigprio None (if decide (y = x) then f p0 else p0)) as Hall.
  { intros y py Hy. destruct (sig_eq_lookup _ _ y py (symmetry Hsig) Hy) as (p1 & Hp1 & E1).
    rewrite lookup_alter_list in Hp1. case_decide as Ex.
    - subst y. rewrite Hp in Hp1. injection Hp1 as <-. exists p. by rewrite decide_True.
    - exists p1. by rewrite decide_False by done. }
  split; [|unfold abs; simpl; by rewrite Er, (view_sig _ _ Hsig)].
  split; simpl; try rewrite Er; try done.
  - intros c' Hc'. eapply (hw_ok_move c); [exact Hok|done].
  - by apply Hm.
  - intros y py Hy Hl. destruct (Hall y py Hy) as (p0 & Hp0 & E0).
    rewrite (sig_eq_field p_kstack _ _ ltac:(done) E0), (sig_eq_field p_pgdir _ _ ltac:(done) E0).
    unfold live in Hl. rewrite (sig_eq_field p_state _ _ ltac:(done) E0) in Hl. case_decide as Ey.
    + subst y. rewrite Hp in Hp0. injection Hp0 as <-. rewrite Hks, Hpg. apply (mi_mem _ _ _ Hm x p Hp).
      right; right. apply (mi_run _ _ _ Hm x p Hp). eauto.
    + by apply (mi_mem _ _ _ Hm y p0 Hp0).
  - intros y py Hy. destruct (Hall y py Hy) as (p0 & Hp0 & E0). rewrite (sig_eq_field p_state _ _ ltac:(done) E0).
    case_decide as Ey.
    + subst y. rewrite Hp in Hp0. injection Hp0 as <-. split; [intros Er1; rewrite Er1 in Hst; by destruct Hst|].
      intros (c' & Hc'). apply list_lookup_insert_Some in Hc' as [(_ & ? & _)|(Hne & Hc')]; [done|].
      exfalso. apply Hne. by eapply (mi_excl _ _ _ Hm).
    + rewrite (mi_run _ _ _ Hm y p0 Hp0). split; intros (c' & Hc').
      * exists c'. rewrite list_lookup_insert_ne; [done|]. intros ->. rewrite Hc in Hc'. naive_solver.
      * apply list_lookup_insert_Some in Hc' as [(_ & ? & _)|(_ & Hc')]; [done|eauto].
  - intros c1 c2 y H1 H2. apply list_lookup_insert_Some in H1 as [(_ & ? & _)|(_ & H1)]; [done|].
    apply list_lookup_insert_Some in H2 as [(_ & ? & _)|(_ & H2)]; [done|]. by eapply (mi_excl _ _ _ Hm).
  - intros c1 y H1. apply list_lookup_insert_Some in H1 as [(_ & ? & _)|(_ & H1)]; [done|].
    apply lookup_lt_is_Some. rewrite (sw_len _ _ _ Hwf), <- (sw_len _ _ _ (mi_wf _ _ _ Hm)).
    apply lookup_lt_is_Some. by eapply (mi_cpu _ _ _ Hm).
  - rewrite !length_insert. apply Hm.
  - intros c1 s H1. apply list_lookup_insert_Some in H1 as [(<- & <- & _)|(Hne & H1)].
    + by rewrite list_lookup_insert_eq.
    + rewrite list_lookup_insert_ne by done. exact (mi_sched _ _ _ Hm c1 s H1).
  - intros y py Hy Hl. destruct (Hall y py Hy) as (p0 & Hp0 & E0).
    rewrite (sig_eq_field p_state _ _ ltac:(done) E0) in Hl. rewrite (sig_eq_field p_chan _ _ ltac:(done) E0).
    case_decide as Ey.
    + subst y. rewrite Hp in Hp0. injection Hp0 as <-. exists kx. by rewrite lookup_insert_eq.
    + rewrite lookup_insert_ne by done. by apply (mi_kont _ _ _ Hm y p0 Hp0).
  - intros y py Hy Hl. destruct (Hall y py Hy) as (p0 & Hp0 & E0).
    rewrite (sig_eq_field p_state _ _ ltac:(done) E0) in Hl. rewrite (sig_eq_field p_chan _ _ ltac:(done) E0).
    case_decide as Ey.
    + subst y. rewrite Hp in Hp0. injection Hp0 as <-. rewrite Hl in Hst. by destruct Hst.
    + by apply (mi_chan _ _ _ Hm y p0 Hp0).
Qed.

Lemma switch_out_ok c code m ks x ch k1 kx k2 :
  m_sched m !! c = Some (Some ks) → cpu_procs (m_k m) !! c = Some (Some x) →
  code (on_cpu c (m_k m)) = Block ch k1 kx → ks k1 = Ret () k2 →
  switch_out c code m = Some (Machine k2 (<[c:=None]> (m_sched m)) (<[x:=kx]> (m_kont m))).
Proof.
  intros Hs Hc E E2. unfold switch_out.
  rewrite Hs. simpl. rewrite Hc. simpl. rewrite E. simpl. rewrite E2. simpl. done.
Qed.

(** The process of a busy CPU, with what the invariant says of it. *)
Lemma minv_running D m qs c x :
  minv D m qs → cpu_procs (m_k m) !! c = Some (Some x) →
  ∃ p ks, k_procs (m_k m) !! x = Some p ∧ p_state p = RUNNING ∧ m_sched m !! c = Some (Some ks) ∧
    hw_ok c (cpu_procs (m_k m)) D [] (k_hw (on_cpu c (m_k m))).
Proof.
  intros Hm Hc. destruct (mi_cpu _ _ _ Hm c x Hc) as [p Hp].
  destruct (lookup_lt_is_Some_2 (m_sched m) c) as [s Hs]; [rewrite (mi_slen _ _ _ Hm); by eapply lookup_lt_Some|].
  pose proof (mi_sched _ _ _ Hm c s Hs) as Hres. destruct s as [ks|]; [|by rewrite Hc in Hres].
  exists p, ks. split_and!; try done; [|by apply (minv_on_cpu _ _ qs); eauto].
  apply (mi_run _ _ _ Hm x p Hp). eauto.
Qed.

Lemma yield_simulates D c : simulates D (OYield c).
Proof.
  intros m qs a' Hm Ha. simpl in Ha. apply bind_Some in Ha as (x & Hx & Ha).
  apply bind_Some in Hx as (ox & Hc & Hox). unfold id in Hox. subst ox.
  destruct (minv_running _ _ _ _ _ Hm Hc) as (p & ks & Hp & Hst & Hs & Hok).
  rewrite list_lookup_fmap, Hp in Ha. simpl in Ha. injection Ha as <-.
  destruct (yield_ok _ _ _ (on_cpu c (m_k m)) qs x p (mi_wf _ _ _ Hm) Hok (mi_pt _ _ _ Hm) Hc Hp Hst)
    as (k1 & kont & E & Hk1 & Hwf1 & Hsig & Hk).
  destruct (minv_switch_out D m qs c x p ks kont k1 (set_state RUNNABLE) _ Hm Hs Hc Hp Hk1 Hwf1 Hsig)
    as (k2 & E2 & Hm' & Habs); try done; [by left| |].
  { right. split; [|by apply (mi_chan _ _ _ Hm x p Hp)]. intros k c' run Hk'. by apply Hk. }
  unfold mexec. rewrite (switch_out_ok _ _ _ _ _ _ _ _ _ Hs Hc E E2).
  do 2 eexists. split; [reflexivity|]. split; [exact Hm'|]. rewrite Habs. f_equal.
  by apply fmap_alter_comm.
Qed.

Lemma sleep_simulates D c chan lk : lk ∈ D → lk ≠ 0%Z → simulates D (OSleep c chan lk).
Proof.
  intros HD H0 m qs a' Hm Ha. simpl in Ha. apply bind_Some in Ha as (x & Hx & Ha).
  apply bind_Some in Hx as (ox & Hc & Hox). unfold id in Hox. subst ox. injection Ha as <-.
  destruct (minv_running _ _ _ _ _ Hm Hc) as (p & ks & Hp & Hst & Hs & Hok).
  destruct (acquire_k_ok _ _ _ _ lk (on_cpu c (m_k m)) Hok HD) as (h1 & E1 & Hok1); [set_solver|].
  destruct (sleep_ok _ _ _ (with_hw h1 (on_cpu c (m_k m))) qs x p chan lk (mi_wf _ _ _ Hm) Hok1 (mi_pt _ _ _ Hm) H0 Hc Hp Hst)
    as (k1 & kont & E & Hk1 & Hwf1 & _ & Hps & Hk).
  assert ((acquire_k lk ;;; sleep chan lk ;;; release_k lk) (on_cpu c (m_k m)) =
    Block chan k1 (λ k, obind (kont k) (λ _, release_k lk))) as Ecode.
  { rewrite (bind_Ret _ _ _ _ _ E1). by erewrite obind_Block; [|exact E]. }
  destruct (minv_switch_out D m qs c x p ks (λ k, obind (kont k) (λ _, release_k lk)) k1
              (set_state SLEEPING ∘ set_chan chan) _ Hm Hs Hc Hp Hk1 Hwf1)
    as (k2 & E2 & Hm' & Habs); try done; [|by right| |].
  { rewrite Hps. simpl. by rewrite list_alter_alter_eq. }
  { left. intros k c' run p2 Hk' Hp2. destruct (Hk k c' run p2 Hk' Hp2) as (h2 & E3 & Hok3). rewrite E3. simpl.
    destruct (release_k_ok c' run D [] [] lk (with_hw h2 (with_procs (alter (set_chan 0) x (k_procs k)) k)) Hok3) as (h4 & E4 & Hok4).
    exists h4. rewrite E4. done. }
  unfold mexec. rewrite (switch_out_ok _ _ _ _ _ _ _ _ _ Hs Hc Ecode E2).
  do 2 eexists. split; [reflexivity|]. split; [exact Hm'|]. rewrite Habs. f_equal. by apply fmap_alter_comm.
Qed.

(** [setNewPrio] of a process that is not the last of a longer queue. *)
Lemma filter_notin (x : nat) (l : list nat) : x ∉ l → filter (.≠ x) l = l.
Proof. intros Hx. induction l as [|y l IH]; [done|]. rewrite filter_cons_True by set_solver. f_equal. set_solver. Qed.

Lemma setprio_simulates D c x z' : simulates D (OSetPrio c x z').
Proof.
  intros m qs a' Hm Ha. simpl in Ha. apply bind_Some in Ha as (r & Hr & Ha).
  assert (is_Some (cpu_procs (m_k m) !! c)) as Hc by (by eexists).
  pose proof (minv_on_cpu _ _ _ _ Hm Hc) as Hok. pose proof (mi_wf _ _ _ Hm) as Hwf.
  rewrite list_lookup_fmap in Ha. apply bind_Some in Ha as (ap & (p & Hp & ->)%fmap_Some & Ha).
  apply bind_Some in Ha as (l & Hl & Ha). simpl in Ha, Hl.
  destruct (bool_decide (p_state p = RUNNABLE)) eqn:Hst; [|done]. apply bool_decide_eq_true_1 in Hst.
  destruct ((0 <=? z')%Z) eqn:Hz1; [|done]. destruct ((z' <? 10)%Z) eqn:Hz2; [|done].
  simpl in Ha. destruct (_ || _) eqn:Hpos; [|done]. injection Ha as <-.
  assert (x ∈ l) as Hx.
  { apply (sw_run _ _ _ Hwf x p _ _ Hp Hl). split; [done|]. rewrite Z2Nat.id; [done|]. apply (sw_prio _ _ _ Hwf x p Hp). }
  pose proof (wq_nodup _ _ _ (sw_q _ _ _ Hwf) _ _ Hl) as Hnd.
  assert (∃ h ps' prs', setNewPrio x z' (on_cpu c (m_k m)) = Ret 1%Z (with_hw h (with_prio prs' (with_procs ps' (on_cpu c (m_k m))))) ∧
    hw_ok c (cpu_procs (m_k m)) D [] h ∧ sched_wf ps' prs' (requeued qs x (p_prio p) z' (filter (.≠ x) l)) ∧
    sig_eq (alter (set_prio z') x (k_procs (m_k m))) ps') as (h & ps' & prs' & E & Hok' & Hwf' & Hsig).
  { apply list_elem_of_split in Hx as (l1 & r' & ->). apply NoDup_app in Hnd as (_ & Hd & [Hxr Hnd]%NoDup_cons).
    rewrite filter_app, filter_cons_False by naive_solver.
    rewrite (filter_notin _ r') by done. rewrite (filter_notin _ l1) by (intros H; specialize (Hd x H); set_solver).
    destruct l1 as [|y l1 _] using rev_ind.
    - apply (setNewPrio_head _ _ _ (on_cpu c (m_k m)) qs x p r' z' Hwf Hok (mi_pt _ _ _ Hm) Hp Hst); [lia|done].
    - rewrite <- app_assoc in *. simpl in *.
      apply (setNewPrio_middle _ _ _ (on_cpu c (m_k m)) qs x p l1 y r' z' Hwf Hok (mi_pt _ _ _ Hm) Hp Hst); [lia|done|].
      intros ->. apply orb_prop in Hpos as [Hpos%bool_decide_eq_true_1|Hpos%negb_true_iff].
      + destruct l1 as [|a l1]; simpl in Hpos; injection Hpos as ->; apply (Hd x); set_solver.
      + apply bool_decide_eq_false_1 in Hpos. apply Hpos. by rewrite last_app_cons. }
  simpl mexec. unfold section. rewrite E. simpl. do 2 eexists. split; [reflexivity|].
  destruct (abs_section D m qs c (with_hw h (with_prio prs' (with_procs ps' (on_cpu c (m_k m))))) _ _ Hm Hc Hok' Hwf' Hsig) as [H1 H2].
  { intros y p'. apply keeps_alter. intros p0. unfold keeps. naive_solver. }
  split; [exact H1|]. rewrite H2. unfold requeued. f_equal. by apply fmap_alter_comm.
Qed.

(** A process is switched to. *)
Definition dispatched : proc → proc := set_chan 0 ∘ set_state RUNNING.

Lemma resume_dispatched D m qs c x p kx k1 run :
  minv D m qs → k_procs (m_k m) !! x = Some p → p_state p = RUNNABLE → m_kont m !! x = Some kx →
  proc_wakes D x kx ∨ proc_resumes D kx ∧ p_chan p = 0%Z →
  handoff c run D k1 → sig_eq (alter (set_state RUNNING) x (k_procs (m_k m))) (k_procs k1) →
  ∃ h ps, kx k1 = Ret () (with_hw h (with_procs ps k1)) ∧ hw_ok c run D [] h ∧
    sig_eq (alter dispatched x (k_procs (m_k m))) ps ∧
    ps = alter (set_chan 0) x (k_procs k1).
Proof.
  intros Hm Hp Hst Hkx Hres Hk1 Hsig.
  destruct (sig_eq_lookup _ _ x (set_state RUNNING p) Hsig) as (p1 & Hp1 & E1);
    [by rewrite list_lookup_alter_eq, Hp|].
  assert (sig_eq (alter dispatched x (k_procs (m_k m))) (alter (set_chan 0) x (k_procs k1))) as Hs.
  { rewrite <- (sig_eq_alter_keep (set_chan 0) x _ _ ltac:(done) Hsig). by rewrite list_alter_alter_eq. }
  destruct Hres as [Hw|[Hr Hchan]].
  - destruct (Hw k1 c run p1 Hk1 Hp1) as (h & E & Hok). exists h. eexists. split; [exact E|]. by split_and!.
  - destruct (Hr k1 c run Hk1) as (h & E & Hok). exists h, (k_procs k1). split; [by destruct k1|].
    split; [done|]. assert (alter (set_chan 0) x (k_procs k1) = k_procs k1) as Eq.
    { rewrite (alter_ext_list _ id); [by apply list_alter_id|]. intros q Hq. rewrite Hp1 in Hq. injection Hq as <-.
      pose proof (sig_eq_field p_chan _ _ ltac:(done) E1) as Ec. simpl in Ec. rewrite Hchan in Ec.
      unfold set_chan, id. rewrite Ec. by destruct p1. }
    rewrite Eq in Hs |- *. done.
Qed.

Lemma minv_dispatch D m qs qs1 c x p ks k2 h :
  minv D m qs → m_sched m !! c = Some None → k_procs (m_k m) !! x = Some p → p_state p = RUNNABLE →
  hw_ok c (<[c:=Some x]> (cpu_procs (m_k m))) D [] h → sched_wf (k_procs k2) (k_prio k2) qs1 →
  sig_eq (alter dispatched x (k_procs (m_k m))) (k_procs k2) → k_hw k2 = h → sched_resumes D c ks →
  minv D (Machine k2 (<[c:=Some ks]> (m_sched m)) (delete x (m_kont m))) qs1 ∧
  abs (Machine k2 (<[c:=Some ks]> (m_sched m)) (delete x (m_kont m))) qs1 =
    ASched (view <$> alter dispatched x (k_procs (m_k m))) qs1 (<[c:=Some x]> (cpu_procs (m_k m))).
Proof.
  intros Hm Hs Hp Hst Hok Hwf Hsig Eh Hks. subst h.
  pose proof (mi_sched _ _ _ Hm c _ Hs) as Hc. simpl in Hc.
  assert (cpu_procs k2 = <[c:=Some x]> (cpu_procs (m_k m))) as Er by (by rewrite (hw_ok_run _ _ _ _ _ Hok)).
  assert (c < length (cpu_procs (m_k m))) as Hlt by (by eapply lookup_lt_Some).
  assert (∀ y py, k_procs k2 !! y = Some py → ∃ p0, k_procs (m_k m) !! y = Some p0 ∧
    set_sigprio None py = set_sigprio None (if decide (y = x) then dispatched p0 else p0)) as Hall.
  { intros y py Hy. destruct (sig_eq_lookup _ _ y py (symmetry Hsig) Hy) as (p1 & Hp1 & E1).
    rewrite lookup_alter_list in Hp1. case_decide as Ex.
    - subst y. rewrite Hp in Hp1. injection Hp1 as <-. exists p. by rewrite decide_True.
    - exists p1. by rewrite decide_False by done. }
  assert (∀ c', cpu_procs (m_k m) !! c' ≠ Some (Some x)) as Hnot.
  { intros c' Hc'. assert (p_state p = RUNNING) as E1; [|congruence]. apply (mi_run _ _ _ Hm x p Hp). eauto. }
  split; [|unfold abs; simpl; by rewrite Er, (view_sig _ _ Hsig)].
  split; simpl; try rewrite Er; try done.
  - intros c' Hc'. eapply (hw_ok_move c); [exact Hok|done].
  - by apply Hm.
  - intros y py Hy Hl. destruct (Hall y py Hy) as (p0 & Hp0 & E0).
    rewrite (sig_eq_field p_kstack _ _ ltac:(done) E0), (sig_eq_field p_pgdir _ _ ltac:(done) E0).
    unfold live in Hl. rewrite (sig_eq_field p_state _ _ ltac:(done) E0) in Hl. case_decide as Ey.
    + subst y. rewrite Hp in Hp0. injection Hp0 as <-. apply (mi_mem _ _ _ Hm x p Hp). by left.
    + by apply (mi_mem _ _ _ Hm y p0 Hp0).
  - intros y py Hy. destruct (Hall y py Hy) as (p0 & Hp0 & E0). rewrite (sig_eq_field p_state _ _ ltac:(done) E0).
    case_decide as Ey.
    + subst y. split; [|done]. intros _. exists c. by rewrite list_lookup_insert_eq.
    + rewrite (mi_run _ _ _ Hm y p0 Hp0). split; intros (c' & Hc').
      * exists c'. rewrite list_lookup_insert_ne; [done|]. intros ->. rewrite Hc in Hc'. done.
      * apply list_lookup_insert_Some in Hc' as [(_ & ? & _)|(_ & Hc')]; [congruence|eauto].
  - intros c1 c2 y H1 H2. apply list_lookup_insert_Some in H1 as [(<- & E1 & _)|(Hn1 & H1)];
      apply list_lookup_insert_Some in H2 as [(<- & E2 & _)|(Hn2 & H2)]; try done.
    + injection E1 as <-. by apply Hnot in H2.
    + injection E2 as <-. by apply Hnot in H1.
    + by eapply (mi_excl _ _ _ Hm).
  - intros c1 y H1. apply lookup_lt_is_Some. rewrite (sw_len _ _ _ Hwf), <- (sw_len _ _ _ (mi_wf _ _ _ Hm)).
    apply lookup_lt_is_Some. apply list_lookup_insert_Some in H1 as [(<- & [= <-] & _)|(Hn1 & H1)]; [by eexists|].
    by eapply (mi_cpu _ _ _ Hm).
  - rewrite !length_insert. apply Hm.
  - intros c1 s H1. apply list_lookup_insert_Some in H1 as [(<- & <- & _)|(Hne & H1)].
    + rewrite list_lookup_insert_eq by done. eauto.
    + rewrite list_lookup_insert_ne by done. exact (mi_sched _ _ _ Hm c1 s H1).
  - intros y py Hy Hl. destruct (Hall y py Hy) as (p0 & Hp0 & E0).
    rewrite (sig_eq_field p_state _ _ ltac:(done) E0) in Hl. rewrite (sig_eq_field p_chan _ _ ltac:(done) E0).
    case_decide as Ey; [by destruct Hl|]. rewrite lookup_delete_ne by done. by apply (mi_kont _ _ _ Hm y p0 Hp0).
  - intros y py Hy Hl. destruct (Hall y py Hy) as (p0 & Hp0 & E0).
    rewrite (sig_eq_field p_state _ _ ltac:(done) E0) in Hl. rewrite (sig_eq_field p_chan _ _ ltac:(done) E0).
    case_decide as Ey; [done|]. by apply (mi_chan _ _ _ Hm y p0 Hp0).
Qed.

Lemma schedule_simulates D c : simulates D (OSchedule c).
Proof.
  intros m qs a' Hm Ha. simpl in Ha. destruct (cpu_procs (m_k m) !! c) as [[?|]|] eqn:Hc; try done.
  pose proof (minv_on_cpu _ _ _ c Hm ltac:(by eexists)) as Hok. pose proof (mi_wf _ _ _ Hm) as Hwf.
  destruct (lookup_lt_is_Some_2 (m_sched m) c) as [s Hs]; [rewrite (mi_slen _ _ _ Hm); by eapply lookup_lt_Some|].
  pose proof (mi_sched _ _ _ Hm c s Hs) as Hres. destruct s as [ks|]; [destruct Hres as [(x & Hx) _]; by rewrite Hc in Hx|].
  unfold mexec. rewrite Hs.
  pose proof (scheduler_round_ok c _ D (on_cpu c (m_k m)) qs Hwf Hok (mi_pt _ _ _ Hm)) as Hr.
  specialize (Hr ltac:(intros x p Hp Hst; apply (mi_mem _ _ _ Hm x p Hp); by left)).
  destruct (next_queue qs) as [z|].
  - destruct Hr as (x & l & p & k1 & kont & Hz & Hp & E & Hk1 & Hwf1 & Hsig & _ & Hks). rewrite Hz in Ha. injection Ha as <-.
    destruct (proj1 (sw_run _ _ _ Hwf x p z _ Hp Hz) ltac:(by left)) as [Hst _].
    destruct (mi_kont _ _ _ Hm x p Hp (or_introl Hst)) as (kx & Hkx & Hresx).
    destruct (resume_dispatched D m qs c x p kx k1 _ Hm Hp Hst Hkx Hresx Hk1 Hsig) as (h & ps & E2 & Hok2 & Hs2 & Hps).
    assert (sched_wf ps (k_prio k1) (<[z:=l]> qs)) as Hwf2.
    { subst ps. apply sched_wf_upd; [done|done|]. intros q Hq. split; [exact (sw_prio _ _ _ Hwf1 x q Hq)|by left]. }
    destruct (minv_dispatch D m qs (<[z:=l]> qs) c x p kont (with_hw h (with_procs ps k1)) h Hm Hs Hp Hst Hok2 Hwf2 Hs2 eq_refl)
      as [Hm' Habs]; [intros k run Hk; by apply Hks|].
    rewrite E. assert (cpu_procs k1 !! c = Some (Some x)) as ->.
    { unfold cpu_procs. rewrite <- (hw_ok_run _ _ _ _ _ Hk1). apply list_lookup_insert_eq. by eapply lookup_lt_Some. }
    simpl. rewrite Hkx. simpl. rewrite E2. simpl.
    do 2 eexists. split; [reflexivity|]. split; [exact Hm'|]. rewrite Habs. f_equal. by apply fmap_alter_comm.
  - destruct Hr as (h & E & Hok'). rewrite E. injection Ha as <-. do 2 eexists. split; [reflexivity|].
    destruct (abs_section D m qs c (with_hw h (on_cpu c (m_k m))) qs (k_procs (m_k m)) Hm ltac:(by eexists) Hok' Hwf) as [H1 H2];
      [done| |by split].
    intros y p' Hp'. exists p'. split; [done|]. unfold keeps. naive_solver.
Qed.

(** ** Executions *)
Definition op_ok (D : gset Z) (o : op) : Prop :=
  match o with OSleep _ _ lk => lk ∈ D ∧ lk ≠ 0%Z | _ => True end.

Fixpoint runs {S} (exec : op → S → option S) (os : list op) (s : S) : option S :=
  match os with [] => Some s | o :: os' => exec o s ≫= runs exec os' end.

Lemma runs_app {S} (exec : op → S → option S) os1 os2 s :
  runs exec (os1 ++ os2) s = runs exec os1 s ≫= runs exec os2.
Proof. revert s. induction os1 as [|o os1 IH]; intros s; simpl; [done|]. destruct (exec o s); simpl; auto. Qed.

Lemma op_simulates D o : op_ok D o → simulates D o.
Proof.
  destruct o; simpl; intros H.
  - apply schedule_simulates.
  - apply yield_simulates.
  - destruct H. by apply sleep_simulates.
  - apply wakeup_simulates.
  - apply kill_simulates.
  - apply setprio_simulates.
Qed.

Lemma runs_simulates D os : Forall (op_ok D) os → ∀ m qs a',
  minv D m qs → runs aexec os (abs m qs) = Some a' →
  ∃ m' qs', runs mexec os m = Some m' ∧ minv D m' qs' ∧ abs m' qs' = a'.
Proof.
  induction 1 as [|o os Ho _ IH]; intros m qs a' Hm Ha; simpl in *.
  - injection Ha as <-. eauto.
  - apply bind_Some in Ha as (a1 & E1 & Ha). destruct (op_simulates D o Ho m qs a1 Hm E1) as (m1 & qs1 & -> & Hm1 & <-).
    by apply IH in Ha.
Qed.

(** Rounds of scheduling and yielding on one CPU. *)
Definition rounds (c n : nat) : list op := concat (replicate n [OSchedule c; OYield c]).

Lemma around c a z x l p :
  as_cpus a !! c = Some None → next_queue (as_queues a) = Some z → as_queues a !! z = Some (x :: l) →
  as_procs a !! x = Some p → a_prio p = Z.of_nat z →
  runs aexec [OSchedule c; OYield c] a =
    Some (ASched (alter (λ p, AProc RUNNABLE (a_prio p) 0 (a_killed p) (a_pid p)) x (as_procs a))
            (<[z:=l ++ [x]]> (as_queues a)) (as_cpus a)).
Proof.
  intros Hc Hn Hq Hp Hz. assert (c < length (as_cpus a)) as Hlt by (by eapply lookup_lt_Some).
  assert (z < length (as_queues a)) as Hzl by (by eapply lookup_lt_Some).
  cbn [runs aexec]. rewrite Hc, Hn, Hq. apply bind_Some. eexists. split; [reflexivity|].
  apply bind_Some. eexists. split; [|reflexivity]. cbn [as_cpus as_procs as_queues].
  apply bind_Some. exists x. split; [by rewrite list_lookup_insert_eq|].
  apply bind_Some. eexists. split; [by rewrite list_lookup_alter_eq, Hp|]. cbn [a_prio].
  rewrite Hz, Nat2Z.id. f_equal. f_equal.
  - rewrite list_alter_alter_eq. by apply alter_ext_list.
  - apply list_eq; intros j. rewrite lookup_alter_list. case_decide; [subst|].
    + by rewrite !list_lookup_insert_eq by done.
    + by rewrite !list_lookup_insert_ne by done.
  - rewrite list_insert_insert_eq. by apply list_insert_id.
Qed.

(** After [n] rounds the first [n] processes of the queue have moved to its
    end. *)
Lemma arounds c z : ∀ n a l,
  as_cpus a !! c = Some None → next_queue (as_queues a) = Some z → as_queues a !! z = Some l → n ≤ length l →
  (∀ x, x ∈ l → ∃ p, as_procs a !! x = Some p ∧ a_prio p = Z.of_nat z) →
  ∃ a', runs aexec (rounds c n) a = Some a' ∧ as_cpus a' = as_cpus a ∧
    as_queues a' = <[z:=drop n l ++ take n l]> (as_queues a).
Proof.
  induction n as [|n IH]; intros a l Hc Hn Hq Hlen Hpr.
  { exists a. split_and!; [done..|]. rewrite app_nil_r. symmetry. by apply list_insert_id. }
  destruct l as [|x l]; [simpl in Hlen; lia|].
  destruct (Hpr x ltac:(by left)) as (p & Hp & Hz).
  assert (z < length (as_queues a)) as Hzl by (by eapply lookup_lt_Some).
  unfold rounds. rewrite replicate_S, concat_cons, runs_app, (around c a z x l p) by done. simpl.
  destruct (IH (ASched (alter (λ p, AProc RUNNABLE (a_prio p) 0 (a_killed p) (a_pid p)) x (as_procs a))
            (<[z:=l ++ [x]]> (as_queues a)) (as_cpus a)) (l ++ [x])) as (a' & E & Hcpu & Hqs).
  - done.
  - apply first_idx_Some in Hn as [_ Hlt]. apply first_idx_Some. simpl. split.
    + exists (l ++ [x]). rewrite list_lookup_insert_eq by done. split; [done|].
      rewrite bool_decide_eq_false_2; [done|]. by destruct l.
    + intros j m Hj. rewrite list_lookup_insert_ne by lia. by apply Hlt.
  - by apply list_lookup_insert_eq.
  - rewrite length_app. simpl in *. lia.
  - intros y Hy. destruct (Hpr y ltac:(set_solver)) as (q & Hqy & Hzy). simpl. rewrite lookup_alter_list, Hqy.
    case_decide; by eexists.
  - exists a'. split; [exact E|]. split; [done|]. rewrite Hqs. simpl. rewrite list_insert_insert_eq. f_equal.
    simpl in Hlen. rewrite drop_app_le, take_app_le by lia. by rewrite <- app_assoc.
Qed.

(** ** The properties of the scheduler *)

(** C1: every execution of the abstract scheduler is an execution of the
    kernel.  From a machine that satisfies the invariant, any sequence of
    scheduler turns, yields, sleeps, wakeups, kills and priority changes that
    the abstract scheduler allows runs to its end in the real code, on any
    CPUs, without a panic, a null pointer or a deadlock, in a state again
    satisfying the invariant, whose processes, FIFO queues and CPUs are those
    of the abstract scheduler. *)
Theorem machine_refines_scheduler D os m qs a' :
  minv D m qs → Forall (op_ok D) os → runs aexec os (abs m qs) = Some a' →
  ∃ m' qs', runs mexec os m = Some m' ∧ minv D m' qs' ∧ abs m' qs' = a'.
Proof. intros Hm Ho Ha. by eapply runs_simulates. Qed.

(** C16: strict priorities and no idling.  A turn of the scheduler on an idle
    CPU starts a runnable process of the smallest priority number of the whole
    table; it leaves the CPU idle only if no process is runnable. *)
Theorem scheduler_strict_priority D m qs c :
  minv D m qs → cpu_procs (m_k m) !! c = Some None →
  ∃ m', mexec (OSchedule c) m = Some m' ∧
    match cpu_procs (m_k m') !! c with
    | Some (Some x) => ∃ p, k_procs (m_k m) !! x = Some p ∧ p_state p = RUNNABLE ∧
        (p_state <$> k_procs (m_k m') !! x) = Some RUNNING ∧
        ∀ y q, k_procs (m_k m) !! y = Some q → p_state q = RUNNABLE → (p_prio p ≤ p_prio q)%Z
    | Some None => ∀ y q, k_procs (m_k m) !! y = Some q → p_state q ≠ RUNNABLE
    | None => False
    end.
Proof.
  intros Hm Hc. pose proof (mi_wf _ _ _ Hm) as Hwf.
  assert (∀ y q, k_procs (m_k m) !! y = Some q → p_state q = RUNNABLE →
    ∃ l, qs !! Z.to_nat (p_prio q) = Some l ∧ y ∈ l) as Hin.
  { intros y q Hq Hs. pose proof (sw_prio _ _ _ Hwf y q Hq) as Hpr. unfold prio_ok in Hpr.
    destruct (lookup_lt_is_Some_2 qs (Z.to_nat (p_prio q))) as [l Hl];
      [rewrite (wq_lens _ _ _ (sw_q _ _ _ Hwf)); unfold NPRIO; lia|].
    exists l. split; [done|]. apply (sw_run _ _ _ Hwf y q _ _ Hq Hl). split; [done|]. lia. }
  assert (c < length (cpu_procs (m_k m))) as Hlt by (by eapply lookup_lt_Some).
  destruct (next_queue qs) as [z|] eqn:Hn.
  - destruct (next_queue_Some qs z Hn) as (x & l & Hz & Hmin).
    destruct (schedule_simulates D c m qs (ASched (alter (λ p, AProc RUNNING (a_prio p) 0 (a_killed p) (a_pid p)) x (view <$> k_procs (m_k m)))
                          (<[z:=l]> qs) (<[c:=Some x]> (cpu_procs (m_k m)))) Hm) as (m' & qs' & E & _ & Habs).
    { simpl. by rewrite Hc, Hn, Hz. }
    injection Habs as Hps _ Hcpus. exists m'. split; [done|]. rewrite Hcpus, list_lookup_insert_eq by done.
    destruct (wq_q _ _ _ (sw_q _ _ _ Hwf) z (default (Priotable None None) (k_prio (m_k m) !! z)) (x :: l)) as (_ & _ & Hch);
      [|done|].
    { destruct (lookup_lt_is_Some_2 (k_prio (m_k m)) z) as [q ->]; [|done].
      rewrite (wq_len _ _ _ (sw_q _ _ _ Hwf)), <- (wq_lens _ _ _ (sw_q _ _ _ Hwf)). by eapply lookup_lt_Some. }
    destruct (Hch 0 x eq_refl) as (p & Hp & _).
    destruct (proj1 (sw_run _ _ _ Hwf x p z _ Hp Hz) ltac:(by left)) as [Hst Hpz].
    exists p. split_and!; [done..| |].
    + apply (f_equal (.!! x)) in Hps. rewrite list_lookup_alter_eq, !list_lookup_fmap, Hp in Hps. simpl in Hps.
      destruct (k_procs (m_k m') !! x) as [p'|]; [|done]. simpl in *. by injection Hps as -> _ _ _ _.
    + intros y q Hq Hs. destruct (Hin y q Hq Hs) as (l' & Hl' & Hy).
      destruct (decide (Z.to_nat (p_prio q) < z)) as [Hlt'|Hge].
      * rewrite (Hmin _ _ Hlt' Hl') in Hy. set_solver.
      * pose proof (sw_prio _ _ _ Hwf y q Hq) as Hpr. unfold prio_ok in Hpr. lia.
  - destruct (schedule_simulates D c m qs (abs m qs) Hm) as (m' & qs' & E & _ & Habs).
    { simpl. by rewrite Hc, Hn. }
    injection Habs as _ _ Hcpus. exists m'. split; [done|]. rewrite Hcpus, Hc.
    intros y q Hq Hs. destruct (Hin y q Hq Hs) as (l' & Hl' & Hy).
    unfold next_queue in Hn. rewrite first_idx_None in Hn. specialize (Hn l' ltac:(by eapply list_elem_of_lookup_2)).
    apply negb_false_iff, bool_decide_eq_true_1 in Hn. subst l'. set_solver.
Qed.

(** C17: no starvation within a priority.  If [l] is the queue of the smallest
    non-empty priority, then after [i] rounds of scheduling and yielding on a
    CPU the process at place [i] of [l] is the one that runs. *)
Theorem scheduler_round_robin D m qs c z l i x :
  minv D m qs → cpu_procs (m_k m) !! c = Some None → next_queue qs = Some z → qs !! z = Some l → l !! i = Some x →
  ∃ m', runs mexec (rounds c i ++ [OSchedule c]) m = Some m' ∧ cpu_procs (m_k m') !! c = Some (Some x).
Proof.
  intros Hm Hc Hn Hz Hi. pose proof (mi_wf _ _ _ Hm) as Hwf.
  assert (i < length l) as Hil by (by eapply lookup_lt_Some).
  assert (z < length qs) as Hzl by (by eapply lookup_lt_Some).
  destruct (arounds c z i (abs m qs) l Hc Hn Hz) as (a & Ea & Hac & Haq); [lia| |].
  { intros y Hy. destruct (lookup_lt_is_Some_2 (k_prio (m_k m)) z) as [q Hq];
      [rewrite (wq_len _ _ _ (sw_q _ _ _ Hwf)), <- (wq_lens _ _ _ (sw_q _ _ _ Hwf)); done|].
    destruct (wq_q _ _ _ (sw_q _ _ _ Hwf) z q l Hq Hz) as (_ & _ & Hch). pose proof Hy as [j Hj]%list_elem_of_lookup.
    destruct (Hch j y Hj) as (p & Hp & _). exists (view p). simpl. rewrite list_lookup_fmap, Hp. split; [done|].
    by apply (sw_run _ _ _ Hwf y p z l Hp Hz) in Hy as [_ ?]. }
  rewrite (drop_S _ _ _ Hi) in Haq. simpl in Haq, Hac.
  assert (next_queue (as_queues a) = Some z) as Hna.
  { rewrite Haq. apply first_idx_Some in Hn as [_ Hlt]. apply first_idx_Some. split.
    - eexists. by rewrite list_lookup_insert_eq.
    - intros j l0 Hj. rewrite list_lookup_insert_ne by lia. by apply Hlt. }
  destruct (runs_simulates D (rounds c i ++ [OSchedule c])) with (m := m) (qs := qs)
    (a' := ASched (alter (λ p, AProc RUNNING (a_prio p) 0 (a_killed p) (a_pid p)) x (as_procs a))
             (<[z:=drop (S i) l ++ take i l]> (as_queues a)) (<[c:=Some x]> (as_cpus a)))
    as (m' & qs' & E & _ & Habs); [|done| |].
  - apply Forall_app. split; [|by repeat constructor]. unfold rounds. clear. induction i; simpl; repeat constructor; done.
  - rewrite runs_app, Ea. simpl. rewrite Hac, Hc, Hna.
    rewrite Haq, list_lookup_insert_eq by done. done.
  - exists m'. split; [done|]. injection Habs as _ _ ->. rewrite Hac. apply list_lookup_insert_eq. by eapply lookup_lt_Some.
Qed.

(** no lost wakeup.  A process that goes to sleep on a channel, inside a
    section protected by any lock, and any wakeup of that channel by any CPU
    after that: the process is runnable again and stands in the queue of its
    priority, and the CPU it left is free. *)
Theorem sleep_wakeup_handshake D m qs c c' x p chan lk :
  minv D m qs → lk ∈ D → lk ≠ 0%Z → cpu_procs (m_k m) !! c = Some (Some x) → is_Some (cpu_procs (m_k m) !! c') →
  k_procs (m_k m) !! x = Some p →
  ∃ m1 m' qs' p' l, mexec (OSleep c chan lk) m = Some m1 ∧
    (p_state <$> k_procs (m_k m1) !! x) = Some SLEEPING ∧
    mexec (OWakeup c' chan) m1 = Some m' ∧ minv D m' qs' ∧
    k_procs (m_k m') !! x = Some p' ∧ p_state p' = RUNNABLE ∧ p_prio p' = p_prio p ∧
    qs' !! Z.to_nat (p_prio p) = Some l ∧ x ∈ l ∧ cpu_procs (m_k m') !! c = Some None.
Proof.
  intros Hm HD H0 Hc [r Hc'] Hp.
  destruct (sleep_simulates D c chan lk HD H0 m qs
    (ASched (alter (λ p, AProc SLEEPING (a_prio p) chan (a_killed p) (a_pid p)) x (view <$> k_procs (m_k m)))
       qs (<[c:=None]> (cpu_procs (m_k m)))) Hm) as (m1 & qs1 & E1 & Hm1 & Ha1).
  { simpl. by rewrite Hc. }
  injection Ha1 as Hps1 -> Hcpu1.
  assert (∃ p1, k_procs (m_k m1) !! x = Some p1 ∧ view p1 = AProc SLEEPING (p_prio p) chan (p_killed p) (p_pid p)) as (p1 & Hp1 & Ev1).
  { apply (f_equal (.!! x)) in Hps1. rewrite list_lookup_alter_eq, !list_lookup_fmap, Hp in Hps1. simpl in Hps1.
    destruct (k_procs (m_k m1) !! x) as [p1|]; [|done]. exists p1. split; [done|]. by apply (inj Some) in Hps1. }
  assert (is_Some (cpu_procs (m_k m1) !! c')) as [r1 Hr1].
  { apply lookup_lt_is_Some. rewrite Hcpu1, length_insert. by eapply lookup_lt_Some. }
  destruct (wakeup_simulates D c' chan m1 qs
    (ASched (a_wake chan <$> (view <$> k_procs (m_k m1)))
       (imap (λ z l, l ++ a_woken chan (view <$> k_procs (m_k m1)) z) qs) (cpu_procs (m_k m1))) Hm1) as (m2 & qs2 & E2 & Hm2 & Ha2).
  { simpl. by rewrite Hr1. }
  injection Ha2 as Hps2 -> Hcpu2. unfold view in Ev1. injection Ev1 as Es Epr Ech Ekl Epd.
  assert (∃ p2, k_procs (m_k m2) !! x = Some p2 ∧ p_state p2 = RUNNABLE ∧ p_prio p2 = p_prio p) as (p2 & Hp2 & Hs2 & Hpr2).
  { apply (f_equal (.!! x)) in Hps2. rewrite !list_lookup_fmap, Hp1 in Hps2. simpl in Hps2.
    destruct (k_procs (m_k m2) !! x) as [p2|]; [|done]. exists p2. unfold a_wake, a_asleep, view in Hps2. simpl in Hps2.
    rewrite Es, Ech, !bool_decide_eq_true_2 in Hps2 by done. simpl in Hps2. injection Hps2 as -> -> _ _ _. done. }
  pose proof (sw_prio _ _ _ (mi_wf _ _ _ Hm) x p Hp) as Hz. unfold prio_ok in Hz.
  destruct (lookup_lt_is_Some_2 (imap (λ z l, l ++ a_woken chan (view <$> k_procs (m_k m1)) z) qs) (Z.to_nat (p_prio p))) as [l Hl].
  { rewrite length_imap, (wq_lens _ _ _ (sw_q _ _ _ (mi_wf _ _ _ Hm))). unfold NPRIO. lia. }
  exists m1, m2. do 3 eexists. split_and!; [exact E1|rewrite Hp1; simpl; by rewrite Es|exact E2|exact Hm2|exact Hp2|done|done|exact Hl| |].
  - apply (sw_run _ _ _ (mi_wf _ _ _ Hm2) x p2 _ _ Hp2 Hl). split; [done|]. lia.
  - rewrite Hcpu2, Hcpu1. apply list_lookup_insert_eq. by eapply lookup_lt_Some.
Qed.

(** ** An example machine: two CPUs, the first running process 3; processes 0
    and 1 of priority 5 and process 2 of priority 8 are runnable. *)
Definition ex_proc (prio : Z) (s : procstate) (sig : option nat) : proc :=
  set_sigprio sig (set_prio prio (set_state s (set_kstack 4096 (set_pgdir 8192 (set_pid 7 proc0))))).
Definition ex_k : kproc := Kproc
  (Hw 0 [Cpu 0 0 false (Some 3) true 0 0; Cpu 1 0 false None true 0 0]
     {[ptable_lock := Spinlock false "ptable" None; 2%Z := Spinlock false "lock" None]})
  ([ex_proc 5 RUNNABLE (Some 1); ex_proc 5 RUNNABLE None; ex_proc 8 RUNNABLE None; ex_proc 7 RUNNING None] ++ replicate 60 proc0)
  [Priotable None None; Priotable None None; Priotable None None; Priotable None None; Priotable None None;
   Priotable (Some 0) (Some 1); Priotable None None; Priotable None None; Priotable (Some 2) (Some 2); Priotable None None]
  4 (Some 0) 8192.
Definition ex_qs : list (list nat) := [[]; []; []; []; []; [0; 1]; []; []; [2]; []].
Definition ex_D : gset Z := {[ptable_lock; 2%Z]}.
Definition ex_thread : thread := release_k ptable_lock.
Definition ex_sched : thread :=
  (switchkvm ;;; zoom hw_lens (modify (upd_cpu 0 (set_cproc None))) ;;; release_k ptable_lock).
Definition ex_m : machine :=
  Machine ex_k [Some ex_sched; None] {[0 := ex_thread; 1 := ex_thread; 2 := ex_thread]}.

Lemma ex_hw c : c < 2 → hw_ok c [Some 3; None] ex_D [] (k_hw (on_cpu c ex_k)).
Proof.
  intros Hc. split; simpl; try done; try lia.
  - apply (bool_decide_unpack _). vm_compute. exact I.
  - intros i ci Hi. destruct i as [|[|i]]; simpl in Hi; [injection Hi as <-..|done]; (split; [|by case_decide]); split; simpl; lia.
  - apply (bool_decide_unpack _). vm_compute. exact I.
  - constructor.
  - set_solver.
Qed.

Lemma release_resumes D : proc_resumes D (release_k ptable_lock).
Proof.
  intros k c run Hk. destruct (release_k_ok c run D [] [] ptable_lock k Hk) as (h & E & Hok). eauto.
Qed.

Lemma ex_sched_resumes D : sched_resumes D 0 ex_sched.
Proof.
  intros k run Hk. unfold ex_sched.
  erewrite bind_Ret; [|unfold switchkvm; erewrite bind_Ret; [|reflexivity]; apply (zoom_Ret hw_lens); reflexivity].
  erewrite bind_Ret; [|apply (zoom_Ret hw_lens); reflexivity]. simpl lset.
  rewrite (ho_me _ _ _ _ _ Hk).
  assert (hw_ok 0 (<[0:=None]> run) D [ptable_lock]
     (upd_cpu 0 (set_cproc None) (upd_cpu 0 (set_cr3 (V2P (k_kpgdir k))) (k_hw k)))) as Hok5.
  { apply hw_ok_setproc. by apply hw_ok_keep. }
  destruct (release_k_ok 0 (<[0:=None]> run) D [] [] ptable_lock
    (with_hw (upd_cpu 0 (set_cproc None) (upd_cpu 0 (set_cr3 (V2P (k_kpgdir k))) (k_hw k))) k) Hok5) as (h6 & E6 & Hok6).
  exists h6. split; [exact E6|done].
Qed.

#[local] Transparent NPROC.
(** The process slots in use, one by one. *)
Lemma ex_procs x p : k_procs ex_k !! x = Some p →
  (x < 4 ∧ live p ∧ p_kstack p = 4096%Z ∧ p_pgdir p = 8192%Z ∧ p_chan p = 0%Z ∧ (p_state p = RUNNING ↔ x = 3)) ∨ 4 ≤ x ∧ p = proc0.
Proof.
  unfold live. simpl. destruct x as [|[|[|[|x]]]]; simpl; intros H; [injection H as <-; left; simpl; split_and!; try done; try lia; naive_solver..|].
  right. split; [lia|]. change (replicate 60 proc0 !! x = Some p) in H. by apply lookup_replicate in H as [-> _].
Qed.

Lemma ex_minv : minv ex_D ex_m ex_qs.
Proof.
  split; simpl.
  - apply sched_wfb_sound. vm_compute. reflexivity.
  - intros c Hc. by apply ex_hw.
  - set_solver.
  - intros x p Hp Hl. apply ex_procs in Hp as [(_ & _ & -> & -> & _)|[Hx ->]]; [done|]. unfold live in Hl. simpl in Hl. naive_solver.
  - intros x p Hp. apply ex_procs in Hp as [(_ & _ & _ & _ & _ & ->)|[Hx ->]]; simpl.
    + split; [intros ->; by exists 0|]. intros ([|[|c]] & H); naive_solver.
    + split; [done|]. intros ([|[|c]] & H); try done. injection H as <-. lia.
  - intros [|[|c]] [|[|c']] x; simpl; naive_solver.
  - intros [|[|c]] x; simpl; try done. intros [= <-]. by eexists.
  - done.
  - intros [|[|c]] s; simpl; intros [= <-]; [|done]. split; [by exists 3|]. apply ex_sched_resumes.
  - intros x p Hp Hs. exists (release_k ptable_lock). apply ex_procs in Hp as [(Hx & _ & _ & _ & Hc & Hr)|[Hx ->]]; [|naive_solver].
    split; [|right; split; [apply release_resumes|done]].
    destruct x as [|[|[|[|x]]]]; [done..| |lia]. destruct Hr as [_ Hr]. rewrite Hr in Hs by done. naive_solver.
  - intros x p Hp Hs. apply ex_procs in Hp as [(Hx & _ & _ & _ & Hc & Hr)|[Hx ->]]; done.
Qed.

Definition ex_ops : list op :=
  [OSchedule 1; OSleep 0 77 2; OSchedule 0; OWakeup 1 77; OKill 0 7; OSetPrio 1 2 9; OYield 1; OSchedule 1].

Lemma machine_refines_scheduler_witness :
  ∃ a' m' qs', runs aexec ex_ops (abs ex_m ex_qs) = Some a' ∧ runs mexec ex_ops ex_m = Some m' ∧
    minv ex_D m' qs' ∧ abs m' qs' = a' ∧ as_cpus a' = [Some 1; Some 0] ∧
    as_queues a' = [[]; []; []; []; []; []; []; [3]; []; [2]].
Proof.
  destruct (runs aexec ex_ops (abs ex_m ex_qs)) as [a'|] eqn:E; [|vm_compute in E; discriminate E].
  destruct (machine_refines_scheduler ex_D ex_ops ex_m ex_qs a' ex_minv) as (m' & qs' & H1 & H2 & H3).
  - unfold ex_ops. repeat apply List.Forall_cons; try exact I; [|apply List.Forall_nil].
    split; [|discriminate]. apply (bool_decide_unpack _). vm_compute. exact I.
  - exact E.
  - exists a', m', qs'. split; [reflexivity|]. split; [exact H1|]. split; [exact H2|]. split; [exact H3|].
    vm_compute in E. injection E as <-. split; reflexivity.
Defined.

Lemma scheduler_strict_priority_witness :
  ∃ m', mexec (OSchedule 1) ex_m = Some m' ∧ cpu_procs (m_k m') !! 1 = Some (Some 0).
Proof.
  destruct (scheduler_strict_priority ex_D ex_m ex_qs 1 ex_minv eq_refl) as (m' & E & _).
  exists m'. split; [exact E|].
  assert (((λ m, cpu_procs (m_k m) !! 1) <$> mexec (OSchedule 1) ex_m) = Some (Some (Some 0))) as H by (vm_compute; reflexivity).
  rewrite E in H. injection H as H. exact H.
Defined.

Lemma scheduler_round_robin_witness :
  ∃ m', runs mexec (rounds 1 1 ++ [OSchedule 1]) ex_m = Some m' ∧ cpu_procs (m_k m') !! 1 = Some (Some 1).
Proof. exact (scheduler_round_robin ex_D ex_m ex_qs 1 5 [0; 1] 1 1 ex_minv eq_refl eq_refl eq_refl eq_refl). Defined.


(** ** Where the code departs from the abstract scheduler *)

(** C26: [setNewPrio] of the last process of a queue of two or more returns 1
    but stores null as the tail of the old queue (proc.c:121 assigns
    [anterior->sigprio], which was just tested to be null, where the comment
    says [anterior] is the new last one).  The process before it is still
    runnable, and no assignment of processes to queues satisfies the invariant
    any more. *)
Theorem setprio_last_corrupts D m qs c x p l1 y z' :
  minv D m qs → is_Some (cpu_procs (m_k m) !! c) → k_procs (m_k m) !! x = Some p → (0 ≤ z' < 10)%Z →
  qs !! Z.to_nat (p_prio p) = Some (l1 ++ [y; x]) →
  ∃ m', mexec (OSetPrio c x z') m = Some m' ∧
    p_state <$> k_procs (m_k m') !! y = Some RUNNABLE ∧ ∀ D' qs', ¬ minv D' m' qs'.
Proof.
  intros Hm Hc Hp Hz Hl. pose proof (minv_on_cpu _ _ _ _ Hm Hc) as Hok.
  destruct (setNewPrio_last_lost _ _ _ (on_cpu c (m_k m)) qs x p l1 y z' (mi_wf _ _ _ Hm) Hok (mi_pt _ _ _ Hm) Hp Hz Hl)
    as (k' & E & Hy & Hno).
  simpl. unfold section. rewrite E. simpl. eexists. split; [reflexivity|]. split; [exact Hy|].
  intros D' qs' Hm'. exact (Hno qs' (mi_wf _ _ _ Hm')).
Qed.

Lemma setprio_last_corrupts_witness :
  ∃ m', mexec (OSetPrio 1 1 2) ex_m = Some m' ∧
    p_state <$> k_procs (m_k m') !! 0 = Some RUNNABLE ∧ ∀ D' qs', ¬ minv D' m' qs'.
Proof.
  apply (setprio_last_corrupts ex_D ex_m ex_qs 1 1 (ex_proc 5 RUNNABLE None) [] 0 2 ex_minv).
  - exists None. reflexivity.
  - reflexivity.
  - lia.
  - reflexivity.
Defined.

(** C27: [getProcbyPID] finds the first process of the table with that pid and
    releases [ptable.lock]; when there is none it returns null with the lock
    still held, and the next wakeup on that CPU panics. *)
Theorem getProcbyPID_leaks_lock D m qs c pid :
  minv D m qs → is_Some (cpu_procs (m_k m) !! c) →
  match pid_idx (k_procs (m_k m)) pid with
  | Some x => ∃ k', getProcbyPID pid (on_cpu c (m_k m)) = Ret (Some x) k' ∧
      minv D (Machine k' (m_sched m) (m_kont m)) qs
  | None => ∃ k', getProcbyPID pid (on_cpu c (m_k m)) = Ret None k' ∧
      handoff c (cpu_procs (m_k m)) D k' ∧ ∀ chan, wakeup chan k' = Panic "acquire"
  end.
Proof.
  intros Hm Hc. pose proof (minv_on_cpu _ _ _ _ Hm Hc) as Hok. pose proof (mi_wf _ _ _ Hm) as Hwf.
  destruct (acquire_k_ok _ _ _ _ ptable_lock (on_cpu c (m_k m)) Hok (mi_pt _ _ _ Hm)) as (h1 & E1 & Hok1); [set_solver|].
  unfold getProcbyPID. rewrite (bind_Ret _ _ _ _ _ E1).
  erewrite bind_Ret; [|reflexivity]. change (k_procs (with_hw h1 (on_cpu c (m_k m)))) with (k_procs (m_k m)).
  rewrite take_ge by (by rewrite (sw_len _ _ _ Hwf)). fold (pid_idx (k_procs (m_k m)) pid).
  destruct (pid_idx (k_procs (m_k m)) pid) as [x|].
  - destruct (release_k_ok c (cpu_procs (m_k m)) D [] [] ptable_lock (with_hw h1 (on_cpu c (m_k m))) Hok1) as (h3 & E3 & Hok3).
    rewrite (bind_Ret _ _ _ _ _ E3). eexists. split; [reflexivity|].
    apply (minv_section D m qs c); [done|done|exact Hok3|done|].
    intros y p' Hp'. exists p'. split; [done|]. unfold keeps. naive_solver.
  - eexists. split; [reflexivity|]. split; [exact Hok1|]. intros chan. unfold wakeup, bind, acquire_k, zoom.
    simpl lget. by rewrite (hw_ok_acquire_own _ _ _ _ _ _ Hok1) by (by left).
Qed.

Lemma getProcbyPID_leaks_lock_witness :
  ∃ k', getProcbyPID 99 (on_cpu 0 ex_k) = Ret None k' ∧
      handoff 0 [Some 3; None] ex_D k' ∧ ∀ chan, wakeup chan k' = Panic "acquire".
Proof.
  pose proof (getProcbyPID_leaks_lock ex_D ex_m ex_qs 0 99 ex_minv (ex_intro _ _ eq_refl)) as H.
  assert (pid_idx (k_procs (m_k ex_m)) 99 = None) as E by (vm_compute; reflexivity).
  rewrite E in H. exact H.
Defined.

Lemma ex_ptable : ptable_lock ∈ ex_D.
Proof. apply (bool_decide_unpack _). vm_compute. exact I. Qed.
