(* ===== verification/CString.v ===== *)
(** * Memory and the string functions (string.c, x86.h)

    [ByteMem] is what the kernel needs of a memory: bytes that can be read and
    written.  The routines of string.c are written against it, each with the
    loop of the source, and specified by what every byte of the memory is
    afterwards.  [mem] is the instance the rest of the development uses. *)
From stdpp Require Import base list gmap strings.
From Stdlib Require Import ZArith Lia.
From S2P Require Import Prelude.
#[local] Open Scope Z_scope.

Class ByteMem (M : Type) := {
  rd8 : M → Z → Z;
  wr8 : Z → Z → M → M;
  rd8_range m a : is_uchar (rd8 m a);
  rd8_wr8 m a v b : rd8 (wr8 a v m) b = if decide (a = b) then uchar v else rd8 m b }.

(** Memory: addresses to bytes, zero where nothing was stored. *)
Abbreviation mem := (gmap Z Z).
#[export] Program Instance mem_ByteMem : ByteMem mem := {
  rd8 m a := uchar (default 0 (m !! a));
  wr8 a v m := <[a := v]> m }.
Next Obligation. intros. apply uchar_range. Qed.
Next Obligation.
  intros m a v b. simpl. case_decide as E; [subst; by rewrite lookup_insert_eq|by rewrite lookup_insert_ne].
Qed.

Section string.
Context {M : Type} `{!ByteMem M}.
Implicit Types m : M.

(** [uint] in memory, little endian. *)
Definition rd32 (m : M) (a : Z) : Z :=
  rd8 m a + 256 * rd8 m (a + 1) + 65536 * rd8 m (a + 2) + 16777216 * rd8 m (a + 3).
Definition wr32 (a v : Z) (m : M) : M :=
  wr8 (a + 3) (Z.shiftr v 24) (wr8 (a + 2) (Z.shiftr v 16) (wr8 (a + 1) (Z.shiftr v 8) (wr8 a v m))).

(** [rep stosb], [rep stosl] *)
Fixpoint stosb (addr data : Z) (cnt : nat) (m : M) : M :=
  match cnt with O => m | S n => stosb (addr + 1) data n (wr8 addr data m) end.
Fixpoint stosl (addr data : Z) (cnt : nat) (m : M) : M :=
  match cnt with O => m | S n => stosl (addr + 4) data n (wr32 addr data m) end.

Definition memset (dst c n : Z) (m : M) : M :=
  if (Z.rem (sint dst) 4 =? 0) && (n mod 4 =? 0) then
    let c := Z.land c 255 in
    stosl dst (Z.lor (Z.lor (Z.lor (Z.shiftl c 24) (Z.shiftl c 16)) (Z.shiftl c 8)) c) (Z.to_nat (n / 4)) m
  else stosb dst c (Z.to_nat n) m.

Fixpoint memcmp (v1 v2 : Z) (n : nat) (m : M) : Z :=
  match n with
  | O => 0
  | S n' => if negb (rd8 m v1 =? rd8 m v2) then rd8 m v1 - rd8 m v2 else memcmp (v1 + 1) (v2 + 1) n' m
  end.

(** [while(n-- > 0) *--d = *--s;] *)
Fixpoint memmove_down (d s : Z) (n : nat) (m : M) : M :=
  match n with O => m | S n' => memmove_down (d - 1) (s - 1) n' (wr8 (d - 1) (rd8 m (s - 1)) m) end.
(** [while(n-- > 0) *d++ = *s++;] *)
Fixpoint memmove_up (d s : Z) (n : nat) (m : M) : M :=
  match n with O => m | S n' => memmove_up (d + 1) (s + 1) n' (wr8 d (rd8 m s) m) end.
Definition memmove (dst src n : Z) (m : M) : M :=
  if (src <? dst) && (dst <? src + n) then memmove_down (dst + n) (src + n) (Z.to_nat n) m
  else memmove_up dst src (Z.to_nat n) m.
Definition memcpy (dst src n : Z) (m : M) : M := memmove dst src n m.

Fixpoint strncmp (p q : Z) (n : nat) (m : M) : Z :=
  match n with
  | O => 0
  | S n' =>
      if negb (rd8 m p =? 0) && (rd8 m p =? rd8 m q) then strncmp (p + 1) (q + 1) n' m
      else rd8 m p - rd8 m q
  end.

(** The copying loop of [strncpy]: what is left of [n], [s], and the memory. *)
Fixpoint strncpy_copy (s t : Z) (n : nat) (m : M) : nat * Z * M :=
  match n with
  | O => (O, s, m)
  | S n' =>
      let c := rd8 m t in
      let m := wr8 s c m in
      if c =? 0 then (n', s + 1, m) else strncpy_copy (s + 1) (t + 1) n' m
  end.
Definition strncpy (s t n : Z) (m : M) : M :=
  let '(r, s', m') := strncpy_copy s t (Z.to_nat n) m in stosb s' 0 r m'.

(** The copying loop of [safestrcpy], which has decremented [n] already: the
    address where the loop stops. *)
Fixpoint safestrcpy_copy (s t : Z) (n : nat) (m : M) : Z * M :=
  match n with
  | O => (s, m)
  | S n' =>
      let c := rd8 m t in
      let m := wr8 s c m in
      if c =? 0 then (s + 1, m) else safestrcpy_copy (s + 1) (t + 1) n' m
  end.
Definition safestrcpy (s t n : Z) (m : M) : M :=
  if n <=? 0 then m else
  let '(s', m') := safestrcpy_copy s t (Z.to_nat (n - 1)) m in wr8 s' 0 m'.

(** [strlen] walks to the first zero byte; [None] when there is none among the
    first [fuel] bytes. *)
Fixpoint strlen_from (fuel : nat) (s n : Z) (m : M) : option Z :=
  match fuel with
  | O => None
  | S f => if rd8 m (s + n) =? 0 then Some n else strlen_from f s (n + 1) m
  end.
Definition strlen (fuel : nat) (s : Z) (m : M) : option Z := strlen_from fuel s 0 m.

(** The bytes of an array, and of a string of at most [n] bytes. *)
Definition bytes (m : M) (a : Z) (n : nat) : list Z := (λ i, rd8 m (a + Z.of_nat i)) <$> seq 0 n.
Fixpoint strn (m : M) (a : Z) (n : nat) : list Z :=
  match n with
  | O => []
  | S n' => if rd8 m a =? 0 then [] else rd8 m a :: strn m (a + 1) n'
  end.

(** ** Words *)
Lemma rd32_range m a : is_uint (rd32 m a).
Proof.
  unfold rd32, is_uint. pose proof (rd8_range m a). pose proof (rd8_range m (a + 1)).
  pose proof (rd8_range m (a + 2)). pose proof (rd8_range m (a + 3)). unfold is_uchar in *. lia.
Qed.

Lemma rd8_wr32 m a v b : rd8 (wr32 a v m) b =
  if decide (a ≤ b < a + 4) then uchar (Z.shiftr v (8 * (b - a))) else rd8 m b.
Proof.
  unfold wr32. rewrite !rd8_wr8.
  destruct (decide (a ≤ b < a + 4)) as [H|H]; repeat case_decide; subst; try lia; f_equal; try (f_equal; lia).
  replace (8 * (b - b)) with 0 by lia. by rewrite Z.shiftr_0_r.
Qed.

Lemma rd32_wr32 m a v : rd32 (wr32 a v m) a = uint v.
Proof.
  unfold rd32. rewrite !rd8_wr32. rewrite !decide_True by lia.
  replace (8 * (a - a)) with 0 by lia. replace (8 * (a + 1 - a)) with 8 by lia.
  replace (8 * (a + 2 - a)) with 16 by lia. replace (8 * (a + 3 - a)) with 24 by lia.
  rewrite !Z.shiftr_div_pow2 by lia. change (2 ^ 8) with 256. change (2 ^ 16) with 65536. change (2 ^ 24) with 16777216. change (2 ^ 0) with 1.
  zmod.
Qed.

Lemma rd32_wr32_ne m a v b : (b + 4 ≤ a ∨ a + 4 ≤ b) → rd32 (wr32 a v m) b = rd32 m b.
Proof. intros H. unfold rd32. rewrite !rd8_wr32. by rewrite !decide_False by lia. Qed.

(** Two memories agree on a range. *)
Lemma rd32_ext m m' a : (∀ b, a ≤ b < a + 4 → rd8 m b = rd8 m' b) → rd32 m a = rd32 m' a.
Proof. intros H. unfold rd32. by rewrite !H by lia. Qed.

(** ** memset *)
Lemma stosb_spec data cnt : ∀ addr m b,
  rd8 (stosb addr data cnt m) b = if decide (addr ≤ b < addr + Z.of_nat cnt) then uchar data else rd8 m b.
Proof.
  induction cnt as [|cnt IH]; intros addr m b; cbn [stosb].
  - rewrite decide_False by lia. done.
  - rewrite IH, rd8_wr8. repeat case_decide; try done; lia.
Qed.

Lemma stosl_spec data cnt : ∀ addr m b,
  rd8 (stosl addr data cnt m) b =
    if decide (addr ≤ b < addr + 4 * Z.of_nat cnt) then uchar (Z.shiftr data (8 * ((b - addr) mod 4))) else rd8 m b.
Proof.
  induction cnt as [|cnt IH]; intros addr m b; cbn [stosl].
  - rewrite decide_False by lia. done.
  - rewrite IH, rd8_wr32. repeat case_decide; try lia; try done.
    + f_equal. f_equal. f_equal. replace (b - addr) with (b - (addr + 4) + 1 * 4) by lia. by rewrite Z_mod_plus_full.
    + f_equal. f_equal. f_equal. by rewrite Z.mod_small by lia.
Qed.

Lemma memset_pattern c k : 0 ≤ c < 256 → 0 ≤ k < 4 →
  uchar (Z.shiftr (Z.lor (Z.lor (Z.lor (Z.shiftl c 24) (Z.shiftl c 16)) (Z.shiftl c 8)) c) (8 * k)) = c.
Proof.
  intros Hc Hk. apply Z.bits_inj'. intros i Hi. unfold uchar. change 256 with (2 ^ 8) in *.
  destruct (Z.ltb_spec i 8) as [Hi8|Hi8].
  - rewrite Z.mod_pow2_bits_low by lia. rewrite Z.shiftr_spec, !Z.lor_spec, !Z.shiftl_spec by lia.
    assert (∀ j, 8 ≤ j → Z.testbit c j = false) as Hh.
    { intros j Hj. rewrite <- (Z.mod_small c (2 ^ 8)) by lia. by apply Z.mod_pow2_bits_high. }
    assert (k = 0 ∨ k = 1 ∨ k = 2 ∨ k = 3) as [-> | [-> | [-> | ->]]] by lia.
    + rewrite !(Z.testbit_neg_r c (i + 8 * 0 - _)) by lia. by replace (i + 8 * 0) with i by lia.
    + rewrite !(Z.testbit_neg_r c (i + 8 * 1 - 24)), !(Z.testbit_neg_r c (i + 8 * 1 - 16)), (Hh (i + 8 * 1)) by lia.
      replace (i + 8 * 1 - 8) with i by lia. by rewrite orb_false_r.
    + rewrite !(Z.testbit_neg_r c (i + 8 * 2 - 24)), (Hh (i + 8 * 2)), (Hh (i + 8 * 2 - 8)) by lia.
      replace (i + 8 * 2 - 16) with i by lia. by rewrite !orb_false_r.
    + rewrite (Hh (i + 8 * 3)), (Hh (i + 8 * 3 - 8)), (Hh (i + 8 * 3 - 16)) by lia.
      replace (i + 8 * 3 - 24) with i by lia. by rewrite !orb_false_r.
  - rewrite Z.mod_pow2_bits_high by lia. symmetry. rewrite <- (Z.mod_small c (2 ^ 8)) by lia. apply Z.mod_pow2_bits_high. lia.
Qed.

Lemma memset_ok dst c n m b : 0 ≤ n →
  rd8 (memset dst c n m) b = if decide (dst ≤ b < dst + n) then uchar c else rd8 m b.
Proof.
  intros Hn. unfold memset. destruct (_ && _) eqn:E.
  - apply andb_true_iff in E as [_ E]. apply Z.eqb_eq in E. rewrite stosl_spec.
    assert (4 * Z.of_nat (Z.to_nat (n / 4)) = n) as -> by (Z.to_euclidean_division_equations; lia).
    case_decide; [|done]. change 255 with (Z.ones 8). rewrite Z.land_ones by lia.
    rewrite memset_pattern; [done| |]; apply Z.mod_pos_bound; lia.
  - rewrite stosb_spec. by rewrite Z2Nat.id by lia.
Qed.

(** ** memmove *)
Lemma memmove_up_ok n : ∀ d s m b, (d ≤ s ∨ s + Z.of_nat n ≤ d) →
  rd8 (memmove_up d s n m) b = if decide (d ≤ b < d + Z.of_nat n) then rd8 m (s + (b - d)) else rd8 m b.
Proof.
  induction n as [|n IH]; intros d s m b H; cbn [memmove_up].
  - by rewrite decide_False by lia.
  - rewrite IH by lia. rewrite !rd8_wr8. repeat case_decide; try lia; try done.
    + f_equal. lia.
    + subst. rewrite uchar_small by apply rd8_range. f_equal. lia.
Qed.

Lemma memmove_down_ok n : ∀ d s m b, s ≤ d →
  rd8 (memmove_down d s n m) b = if decide (d - Z.of_nat n ≤ b < d) then rd8 m (s + (b - d)) else rd8 m b.
Proof.
  induction n as [|n IH]; intros d s m b H; cbn [memmove_down].
  - by rewrite decide_False by lia.
  - rewrite IH by lia. rewrite !rd8_wr8. repeat case_decide; try lia; try done.
    + f_equal. lia.
    + subst. rewrite uchar_small by apply rd8_range. f_equal. lia.
Qed.

Lemma memmove_ok dst src n m b : 0 ≤ n →
  rd8 (memmove dst src n m) b = if decide (dst ≤ b < dst + n) then rd8 m (src + (b - dst)) else rd8 m b.
Proof.
  intros Hn. unfold memmove. destruct (_ && _) eqn:E.
  - apply andb_true_iff in E as [E1 E2]. rewrite memmove_down_ok by lia. rewrite Z2Nat.id by lia.
    replace (dst + n - n) with dst by lia. case_decide; [|done]. f_equal. lia.
  - apply andb_false_iff in E. rewrite memmove_up_ok by lia. by rewrite Z2Nat.id by lia.
Qed.

(** ** memcmp, strncmp *)
Lemma bytes_S m a n : bytes m a (S n) = rd8 m a :: bytes m (a + 1) n.
Proof.
  unfold bytes. cbn [seq]. rewrite fmap_cons. f_equal; [f_equal; lia|].
  rewrite <- fmap_S_seq, <- list_fmap_compose. apply list_fmap_ext. intros _ i _. unfold compose. f_equal. lia.
Qed.

Lemma memcmp_ok m n : ∀ v1 v2, memcmp v1 v2 n m = 0 ↔ bytes m v1 n = bytes m v2 n.
Proof.
  induction n as [|n IH]; intros v1 v2; cbn [memcmp]; [done|]. rewrite !bytes_S.
  destruct (Z.eqb_spec (rd8 m v1) (rd8 m v2)) as [E|E]; cbn [negb].
  - rewrite IH, E. split; [by intros ->|]. by intros [= ?].
  - split; [lia|]. by intros [= ? _].
Qed.

(** The sign of [memcmp] is that of the first difference. *)
Lemma memcmp_first m n : ∀ v1 v2 i, (i < n)%nat →
  (∀ j, (j < i)%nat → rd8 m (v1 + Z.of_nat j) = rd8 m (v2 + Z.of_nat j)) →
  rd8 m (v1 + Z.of_nat i) ≠ rd8 m (v2 + Z.of_nat i) →
  memcmp v1 v2 n m = rd8 m (v1 + Z.of_nat i) - rd8 m (v2 + Z.of_nat i).
Proof.
  induction n as [|n IH]; intros v1 v2 i Hi Hj Hne; [lia|]. cbn [memcmp]. destruct i as [|i].
  - rewrite !Z.add_0_r in *. by rewrite (proj2 (Z.eqb_neq _ _) Hne).
  - pose proof (Hj 0%nat ltac:(lia)) as H0. rewrite !Z.add_0_r in H0. rewrite H0, Z.eqb_refl. cbn [negb].
    rewrite (IH (v1 + 1) (v2 + 1) i); [f_equal; f_equal; lia|lia| |].
    + intros j Hji. specialize (Hj (S j) ltac:(lia)).
      by replace (v1 + 1 + Z.of_nat j) with (v1 + Z.of_nat (S j)) by lia;
         replace (v2 + 1 + Z.of_nat j) with (v2 + Z.of_nat (S j)) by lia.
    + by replace (v1 + 1 + Z.of_nat i) with (v1 + Z.of_nat (S i)) by lia;
         replace (v2 + 1 + Z.of_nat i) with (v2 + Z.of_nat (S i)) by lia.
Qed.

Lemma strncmp_ok m n : ∀ p q, strncmp p q n m = 0 ↔ strn m p n = strn m q n.
Proof.
  induction n as [|n IH]; intros p q; cbn [strncmp strn]; [done|].
  destruct (Z.eqb_spec (rd8 m p) 0) as [Ep|Ep]; cbn [negb andb].
  - rewrite Ep. destruct (Z.eqb_spec (rd8 m q) 0) as [Eq|Eq]; split; try done; lia.
  - destruct (Z.eqb_spec (rd8 m p) (rd8 m q)) as [E|E].
    + rewrite E in *. destruct (Z.eqb_spec (rd8 m q) 0) as [Eq|Eq]; [done|]. rewrite IH. split; [by intros ->|by intros [= ?]].
    + split; [lia|]. destruct (Z.eqb_spec (rd8 m q) 0); [done|]. by intros [= ? _].
Qed.

Lemma strn_ext m m' n : ∀ a, (∀ b, a ≤ b < a + Z.of_nat n → rd8 m b = rd8 m' b) → strn m a n = strn m' a n.
Proof.
  induction n as [|n IH]; intros a H; cbn [strn]; [done|]. rewrite (H a) by lia.
  destruct (_ =? 0); [done|]. f_equal. apply IH. intros b Hb. apply H. lia.
Qed.

Lemma strn_length m n : ∀ a, (length (strn m a n) ≤ n)%nat.
Proof. induction n as [|n IH]; intros a; cbn [strn]; [done|]. destruct (_ =? 0); simpl; [lia|]. specialize (IH (a + 1)). lia. Qed.

(** ** strncpy, safestrcpy *)
Definition apart (s t n : Z) : Prop := s + n ≤ t ∨ t + n ≤ s.

Lemma strncpy_copy_ok n : ∀ s t m, apart s t (Z.of_nat n) →
  let '(r, s', m') := strncpy_copy s t n m in
  s ≤ s' ∧ s' + Z.of_nat r = s + Z.of_nat n ∧ Z.of_nat (length (strn m t n)) ≤ s' - s ∧
  ∀ b, rd8 m' b = if decide (s ≤ b < s') then default 0 (strn m t n !! Z.to_nat (b - s)) else rd8 m b.
Proof.
  unfold apart. induction n as [|n IH]; intros s t m Hap; cbn [strncpy_copy strn].
  { split_and!; try done; simpl; try lia. intros b. by rewrite decide_False by lia. }
  pose proof (rd8_range m t) as Hrt. destruct (Z.eqb_spec (rd8 m t) 0) as [E|E].
  - split_and!; simpl; try lia. intros b. rewrite rd8_wr8, E. repeat case_decide; try done; lia.
  - specialize (IH (s + 1) (t + 1) (wr8 s (rd8 m t) m) ltac:(lia)).
    destruct (strncpy_copy (s + 1) (t + 1) n (wr8 s (rd8 m t) m)) as [[r s'] m'].
    destruct IH as (H1 & H2 & H3 & H4).
    assert (strn (wr8 s (rd8 m t) m) (t + 1) n = strn m (t + 1) n) as Es.
    { apply strn_ext. intros b Hb. rewrite rd8_wr8. by rewrite decide_False by lia. }
    rewrite Es in *. split_and!; simpl; try lia. intros b. rewrite H4, rd8_wr8.
    repeat case_decide; try lia; try done.
    + replace (Z.to_nat (b - s)) with (S (Z.to_nat (b - (s + 1)))) by lia. done.
    + subst b. rewrite Z.sub_diag. simpl. by rewrite uchar_small.
Qed.

Lemma strncpy_ok s t n m b : apart s t n → 0 ≤ n →
  rd8 (strncpy s t n m) b =
    if decide (s ≤ b < s + n) then default 0 (strn m t (Z.to_nat n) !! Z.to_nat (b - s)) else rd8 m b.
Proof.
  intros Hap Hn. unfold strncpy. pose proof (strncpy_copy_ok (Z.to_nat n) s t m) as H.
  rewrite Z2Nat.id in H by lia. specialize (H Hap).
  destruct (strncpy_copy s t (Z.to_nat n) m) as [[r s'] m']. destruct H as (H1 & H2 & H3 & H4).
  rewrite stosb_spec, H4. repeat case_decide; try lia; try done.
  rewrite lookup_ge_None_2 by lia. done.
Qed.

Lemma strn_spec n : ∀ m a l, (length l ≤ n)%nat → Forall (λ c, c ≠ 0) l →
  (∀ i c, l !! i = Some c → rd8 m (a + Z.of_nat i) = c) →
  ((length l < n)%nat → rd8 m (a + Z.of_nat (length l)) = 0) → strn m a n = l.
Proof.
  induction n as [|n IH]; intros m a l Hl Hnz Hb Hz; cbn [strn]; [destruct l; [done|simpl in Hl; lia]|].
  destruct l as [|c l].
  - specialize (Hz ltac:(simpl; lia)). simpl in Hz. rewrite Z.add_0_r in Hz. by rewrite Hz.
  - apply Forall_cons in Hnz as [Hc Hnz]. pose proof (Hb 0%nat c eq_refl) as H0. rewrite Z.add_0_r in H0. rewrite H0.
    rewrite (proj2 (Z.eqb_neq _ _) Hc). f_equal. apply IH; [simpl in Hl; lia|done| |].
    + intros i c' Hi. replace (a + 1 + Z.of_nat i) with (a + Z.of_nat (S i)) by lia. by apply Hb.
    + intros Hlt. replace (a + 1 + Z.of_nat (length l)) with (a + Z.of_nat (length (c :: l))) by (simpl; lia).
      apply Hz. simpl. lia.
Qed.

Lemma strn_nonzero m n : ∀ a, Forall (λ c, c ≠ 0) (strn m a n).
Proof.
  induction n as [|n IH]; intros a; cbn [strn]; [done|].
  destruct (Z.eqb_spec (rd8 m a) 0); [done|]. by constructor.
Qed.

(** A copied name compares equal to the original. *)
Lemma strn_strncpy s t n m : apart s t n → 0 ≤ n → strn (strncpy s t n m) s (Z.to_nat n) = strn m t (Z.to_nat n).
Proof.
  intros Hap Hn. pose proof (strn_length m (Z.to_nat n) t) as Hl.
  apply strn_spec; [done|apply strn_nonzero| |].
  - intros i c Hi. rewrite strncpy_ok by done. apply lookup_lt_Some in Hi as Hlt.
    rewrite decide_True by lia. replace (Z.to_nat (s + Z.of_nat i - s)) with i by lia. by rewrite Hi.
  - intros Hlt. rewrite strncpy_ok by done. rewrite decide_True by lia.
    replace (Z.to_nat _) with (length (strn m t (Z.to_nat n))) by lia. by rewrite lookup_ge_None_2.
Qed.

Lemma safestrcpy_copy_ok n : ∀ s t m, apart s t (Z.of_nat n) →
  let '(s', m') := safestrcpy_copy s t n m in
  s + Z.of_nat (length (strn m t n)) ≤ s' ≤ s + Z.of_nat n ∧
  ∀ b, rd8 m' b = if decide (s ≤ b < s') then default 0 (strn m t n !! Z.to_nat (b - s)) else rd8 m b.
Proof.
  unfold apart. induction n as [|n IH]; intros s t m Hap; cbn [safestrcpy_copy strn].
  { split; [simpl; lia|]. intros b. by rewrite decide_False by lia. }
  pose proof (rd8_range m t) as Hrt. destruct (Z.eqb_spec (rd8 m t) 0) as [E|E].
  - split; [simpl; lia|]. intros b. rewrite rd8_wr8, E. repeat case_decide; try done; lia.
  - specialize (IH (s + 1) (t + 1) (wr8 s (rd8 m t) m) ltac:(lia)).
    destruct (safestrcpy_copy (s + 1) (t + 1) n (wr8 s (rd8 m t) m)) as [s' m'].
    destruct IH as (H1 & H4).
    assert (strn (wr8 s (rd8 m t) m) (t + 1) n = strn m (t + 1) n) as Es.
    { apply strn_ext. intros b Hb. rewrite rd8_wr8. by rewrite decide_False by lia. }
    rewrite Es in *. split; [simpl; lia|]. intros b. rewrite H4, rd8_wr8.
    repeat case_decide; try lia; try done.
    + replace (Z.to_nat (b - s)) with (S (Z.to_nat (b - (s + 1)))) by lia. done.
    + subst b. rewrite Z.sub_diag. simpl. by rewrite uchar_small.
Qed.

Lemma safestrcpy_ok s t n m : apart s t n → 0 < n →
  strn (safestrcpy s t n m) s (Z.to_nat n) = strn m t (Z.to_nat (n - 1)) ∧
  ∀ b, ¬ (s ≤ b < s + n) → rd8 (safestrcpy s t n m) b = rd8 m b.
Proof.
  unfold apart. intros Hap Hn. unfold safestrcpy. rewrite (proj2 (Z.leb_gt _ _) Hn).
  pose proof (safestrcpy_copy_ok (Z.to_nat (n - 1)) s t m) as H. unfold apart in H. rewrite Z2Nat.id in H by lia.
  specialize (H ltac:(lia)). destruct (safestrcpy_copy s t (Z.to_nat (n - 1)) m) as [s' m'].
  destruct H as (H1 & H2). pose proof (strn_length m (Z.to_nat (n - 1)) t) as Hl. split.
  - apply strn_spec; [lia|apply strn_nonzero| |].
    + intros i c Hi. apply lookup_lt_Some in Hi as Hlt. rewrite rd8_wr8, decide_False, H2, decide_True by lia.
      replace (Z.to_nat (s + Z.of_nat i - s)) with i by lia. by rewrite Hi.
    + intros Hlt. rewrite rd8_wr8. case_decide; [done|]. rewrite H2, decide_True by lia.
      replace (Z.to_nat _) with (length (strn m t (Z.to_nat (n - 1)))) by lia. by rewrite lookup_ge_None_2.
  - intros b Hb. rewrite rd8_wr8, decide_False, H2, decide_False by lia. done.
Qed.

(** ** strlen *)
Lemma strlen_from_ok m k : ∀ fuel s n, (k < fuel)%nat →
  (∀ j, (j < k)%nat → rd8 m (s + (n + Z.of_nat j)) ≠ 0) → rd8 m (s + (n + Z.of_nat k)) = 0 →
  strlen_from fuel s n m = Some (n + Z.of_nat k).
Proof.
  induction k as [|k IH]; intros [|fuel] s n Hf Hnz Hz; try lia; cbn [strlen_from].
  - rewrite Z.add_0_r in *. by rewrite Hz.
  - pose proof (Hnz 0%nat ltac:(lia)) as H0. rewrite Z.add_0_r in H0. rewrite (proj2 (Z.eqb_neq _ _) H0).
    rewrite (IH fuel s (n + 1)); [f_equal; lia|lia| |].
    + intros j Hj. replace (n + 1 + Z.of_nat j) with (n + Z.of_nat (S j)) by lia. apply Hnz. lia.
    + by replace (n + 1 + Z.of_nat k) with (n + Z.of_nat (S k)) by lia.
Qed.

(** [memmove] copies as if through a temporary array, however source and
    destination overlap: every byte of the destination is the byte the source
    had before the call, and no other byte changes. *)
Theorem memmove_correct dst src n m b : 0 ≤ n →
  rd8 (memmove dst src n m) b = if decide (dst ≤ b < dst + n) then rd8 m (src + (b - dst)) else rd8 m b.
Proof. apply memmove_ok. Qed.

(** [memset] writes its byte to the whole range and nothing else, by words
    when the range is aligned and by bytes when it is not. *)
Theorem memset_correct dst c n m b : 0 ≤ n →
  rd8 (memset dst c n m) b = if decide (dst ≤ b < dst + n) then uchar c else rd8 m b.
Proof. apply memset_ok. Qed.

(** [safestrcpy] of [n] bytes leaves at [s] the string at [t] cut to [n - 1]
    characters, so always a terminated one, and writes only the [n] bytes at
    [s]; [strncpy] leaves the string at [t] cut to [n], padded with zeros, which
    [strncmp] finds equal to the original. *)
Theorem string_copy_correct s t n m : apart s t n → 0 < n →
  strn (safestrcpy s t n m) s (Z.to_nat n) = strn m t (Z.to_nat (n - 1)) ∧
  (∀ b, ¬ (s ≤ b < s + n) → rd8 (safestrcpy s t n m) b = rd8 m b) ∧
  (∀ b, rd8 (strncpy s t n m) b =
     if decide (s ≤ b < s + n) then default 0 (strn m t (Z.to_nat n) !! Z.to_nat (b - s)) else rd8 m b) ∧
  strncmp s t (Z.to_nat n) (strncpy s t n m) = 0.
Proof.
  intros Hap Hn. destruct (safestrcpy_ok s t n m Hap Hn) as [H1 H2]. split; [done|]. split; [done|]. split.
  - intros b. apply strncpy_ok; [done|lia].
  - apply strncmp_ok. rewrite strn_strncpy by (done || lia). apply strn_ext. intros b Hb.
    rewrite strncpy_ok by (done || lia). unfold apart in Hap. rewrite decide_False by lia. done.
Qed.

End string.


#[global] Arguments rd8 : simpl never.
#[global] Arguments wr8 : simpl never.
#[global] Arguments rd32 : simpl never.
#[global] Arguments wr32 : simpl never.
#[global] Arguments memset : simpl never.
#[global] Arguments memmove : simpl never.
