(* ===== verification/Kernel.v ===== *)
(** * What the locks and the scheduler promise to the rest of the kernel

    [LockOps]/[LockLaws] is the interface of spinlock.c, [ProcOps]/[ProcLaws]
    that of the sleeping half of proc.c.  Pipes, sleep locks, the log, the
    buffer cache, the allocator and the console are written and verified
    against them.  The instances are the machine of Spinlock.v, for code that
    only locks, and the process table of Proc.v, from the lemmas of CpuLocks.v
    and Sched.v. *)
From stdpp Require Import base list gmap strings.
From Stdlib Require Import ZArith Lia.
From S2P Require Import Prelude Mmu Spinlock CpuLocks Proc RunQueue Sched Machine.

Class LockOps (K : Type) := {
  k_initlock : Z → string → M K ();
  k_acquire : Z → M K ();
  k_release : Z → M K () }.

(** [holds L k]: the executing CPU holds exactly the locks [L], all of them
    [valid]. *)
Class LockLaws {K : Type} `{!LockOps K} (valid : Z → Prop) (holds : list Z → K → Prop) : Prop := {
  k_acquire_ok L lk k : holds L k → valid lk → lk ∉ L →
    ∃ k', k_acquire lk k = Ret () k' ∧ holds (lk :: L) k';
  k_release_ok L1 L2 lk k : holds (L1 ++ lk :: L2) k →
    ∃ k', k_release lk k = Ret () k' ∧ holds (L1 ++ L2) k' }.

Class ProcOps (K : Type) := {
  k_wakeup : Z → M K ();
  k_sleep : Z → Z → M K ();
  k_killed : M K bool;           (* myproc()->killed *)
  k_pid : M K Z }.               (* myproc()->pid *)

(** A process, by its place in the table and its pid. *)
Abbreviation who := (nat * Z)%type.

(** Process [x] executes and holds the locks [L] ([k_runs x L k]); between two
    kernel threads, on [ptable.lock], the state satisfies [k_switch], and
    [k_current x k] says that it is [x] that is switched to. *)
Class ProcLaws (K : Type) `{!LockOps K, !ProcOps K} := {
  k_runs : who → list Z → K → Prop;
  k_switch : K → Prop;
  k_current : who → K → Prop;
  k_lock : Z → Prop;             (* the locks a process may take *)
  k_runs_initlock x L lk name k : k_runs x L k → k_lock lk → lk ∉ L →
    ∃ k', k_initlock lk name k = Ret () k' ∧ k_runs x L k';
  k_runs_acquire x L lk k : k_runs x L k → k_lock lk → lk ∉ L →
    ∃ k', k_acquire lk k = Ret () k' ∧ k_runs x (lk :: L) k';
  k_runs_release x L1 L2 lk k : k_runs x (L1 ++ lk :: L2) k →
    ∃ k', k_release lk k = Ret () k' ∧ k_runs x (L1 ++ L2) k';
  k_runs_wakeup x L chan k : k_runs x L k → (∀ l, l ∈ L → k_lock l) →
    ∃ k', k_wakeup chan k = Ret () k' ∧ k_runs x L k';
  k_runs_killed x L k : k_runs x L k → ∃ b k', k_killed k = Ret b k' ∧ k_runs x L k';
  k_runs_pid x L k : k_runs x L k → ∃ k', k_pid k = Ret x.2 k' ∧ k_runs x L k';
  k_runs_sleep x lk chan k : k_runs x [lk] k → k_lock lk →
    ∃ k1 kont, k_sleep chan lk k = Block chan k1 kont ∧ k_switch k1 ∧
      ∀ k2, k_switch k2 → k_current x k2 → ∃ k3, kont k2 = Ret () k3 ∧ k_runs x [lk] k3 }.

(** The part of it that does not sleep, for any predicate [runs x L k] that is kept
    by taking and giving back [locks]. *)
Class RunLaws {K : Type} `{!LockOps K, !ProcOps K} (runs : who → list Z → K → Prop) (locks : Z → Prop) : Prop := {
  r_initlock x L lk name k : runs x L k → locks lk → lk ∉ L → ∃ k', k_initlock lk name k = Ret () k' ∧ runs x L k';
  r_acquire x L lk k : runs x L k → locks lk → lk ∉ L → ∃ k', k_acquire lk k = Ret () k' ∧ runs x (lk :: L) k';
  r_release x L1 L2 lk k : runs x (L1 ++ lk :: L2) k → ∃ k', k_release lk k = Ret () k' ∧ runs x (L1 ++ L2) k';
  r_wakeup x L chan k : runs x L k → (∀ l, l ∈ L → locks l) → ∃ k', k_wakeup chan k = Ret () k' ∧ runs x L k';
  r_pid x L k : runs x L k → ∃ k', k_pid k = Ret x.2 k' ∧ runs x L k' }.
#[export] Instance k_runs_RunLaws {K} `{!LockOps K, !ProcOps K, !ProcLaws K} : RunLaws k_runs k_lock.
Proof. split; [apply k_runs_initlock|apply k_runs_acquire|apply k_runs_release|apply k_runs_wakeup|apply k_runs_pid]. Qed.

#[export] Instance k_runs_LockLaws {K} `{!LockOps K, !ProcOps K, !ProcLaws K} x : LockLaws k_lock (k_runs x).
Proof. split; [apply k_runs_acquire|apply k_runs_release]. Qed.

(** ** The CPUs and locks alone *)
#[export] Instance hw_LockOps : LockOps hw := { k_initlock := initlock; k_acquire := acquire; k_release := release }.

#[export] Instance hw_LockLaws me run D : LockLaws (.∈ D) (hw_ok me run D).
Proof.
  split.
  - intros L lk h H1 H2 H3. by apply hw_ok_acquire.
  - intros L1 L2 lk h H1. by apply hw_ok_release.
Qed.

(** ** The process table *)
#[export] Instance kproc_LockOps : LockOps kproc := {
  k_initlock lk name := zoom hw_lens (initlock lk name); k_acquire := acquire_k; k_release := release_k }.

Definition myproc_field {A} (f : proc → A) : M kproc A :=
  let! p := myproc in let! p := deref p in let! pr := get_proc p in ret (f pr).

#[export] Instance kproc_ProcOps : ProcOps kproc := {
  k_wakeup := wakeup;
  k_sleep := sleep;
  k_killed := myproc_field p_killed;
  k_pid := myproc_field p_pid }.

Section kproc_laws.
Variable D : gset Z.
Hypothesis HD : ptable_lock ∈ D.

(** Process [x] runs on the executing CPU, which holds [L]. *)
Definition runs_on (x : who) (L : list Z) (k : kproc) : Prop :=
  ∃ me run qs p, sched_wf (k_procs k) (k_prio k) qs ∧ hw_ok me run D L (k_hw k) ∧
    run !! me = Some (Some x.1) ∧ k_procs k !! x.1 = Some p ∧ p_state p = RUNNING ∧ p_pid p = x.2.
Definition switching (k : kproc) : Prop :=
  ∃ me run qs, sched_wf (k_procs k) (k_prio k) qs ∧ handoff me run D k.
Definition switched_to (x : who) (k : kproc) : Prop :=
  (c_proc <$> h_cpus (k_hw k)) !! h_me (k_hw k) = Some (Some x.1) ∧
  (λ p, (p_state p, p_pid p)) <$> k_procs k !! x.1 = Some (RUNNING, x.2).

Definition proc_lock (lk : Z) : Prop := lk ∈ D ∧ lk ≠ 0%Z ∧ lk ≠ ptable_lock.

Lemma runs_on_initlock x L lk name k : runs_on x L k → proc_lock lk → lk ∉ L →
  ∃ k', zoom hw_lens (initlock lk name) k = Ret () k' ∧ runs_on x L k'.
Proof.
  intros (me & run & qs & p & Hwf & Hok & Hx & Hp & Hs & Hpid) (H1 & H2 & H3) HL.
  eexists. split; [done|]. exists me, run, qs, p. split; [done|]. split; [by apply hw_ok_initlock|done].
Qed.

Lemma runs_on_acquire x L lk k : runs_on x L k → proc_lock lk → lk ∉ L →
  ∃ k', acquire_k lk k = Ret () k' ∧ runs_on x (lk :: L) k'.
Proof.
  intros (me & run & qs & p & Hwf & Hok & Hx & Hp & Hs & Hpid) (H1 & H2 & H3) HL.
  destruct (acquire_k_ok _ _ _ _ lk k Hok H1 HL) as (h & E & Hok'). exists (with_hw h k). split; [done|].
  by exists me, run, qs, p.
Qed.

Lemma runs_on_release x L1 L2 lk k : runs_on x (L1 ++ lk :: L2) k →
  ∃ k', release_k lk k = Ret () k' ∧ runs_on x (L1 ++ L2) k'.
Proof.
  intros (me & run & qs & p & Hwf & Hok & Hx & Hp & Hs & Hpid).
  destruct (release_k_ok _ _ _ _ _ lk k Hok) as (h & E & Hok'). exists (with_hw h k). split; [done|].
  by exists me, run, qs, p.
Qed.

Lemma runs_on_wakeup x L chan k : runs_on x L k → (∀ l, l ∈ L → proc_lock l) →
  ∃ k', wakeup chan k = Ret () k' ∧ runs_on x L k'.
Proof.
  intros (me & run & qs & p & Hwf & Hok & Hx & Hp & Hs & Hpid) HL.
  destruct (wakeup_ok _ _ _ _ k qs chan Hwf Hok HD) as (h & ps' & prs' & qs' & E & Hok' & Hwf' & Hw & _).
  { intros Hin. by apply HL in Hin as (_ & _ & ?). }
  eexists. split; [exact E|]. destruct (Hw x.1 p Hp) as (p' & Hp' & Ep').
  exists me, run, qs', p'. split_and!; try done.
  - rewrite (sig_eq_field p_state _ _ ltac:(done) Ep'). unfold wake, sleeper. rewrite Hs. done.
  - rewrite (sig_eq_field p_pid _ _ ltac:(done) Ep'). unfold wake. by destruct (sleeper _ _).
Qed.

Lemma runs_on_field {A} (f : proc → A) x L k : runs_on x L k →
  ∃ p k', p_pid p = x.2 ∧ myproc_field f k = Ret (f p) k' ∧ runs_on x L k'.
Proof.
  intros (me & run & qs & p & Hwf & Hok & Hx & Hp & Hs & Hpid).
  destruct (myproc_ok _ _ _ _ k _ Hok Hx) as (h & E & Hok'). exists p, (with_hw h k).
  split; [done|]. split; [|by exists me, run, qs, p]. unfold myproc_field. run E. erewrite bind_Ret; [|reflexivity].
  erewrite bind_Ret; [|by apply get_proc_ok]. done.
Qed.

Lemma runs_on_killed x L k : runs_on x L k → ∃ b k', myproc_field p_killed k = Ret b k' ∧ runs_on x L k'.
Proof. intros H. destruct (runs_on_field p_killed x L k H) as (p & k' & _ & E & Hk). eauto. Qed.
Lemma runs_on_pid x L k : runs_on x L k → ∃ k', myproc_field p_pid k = Ret x.2 k' ∧ runs_on x L k'.
Proof. intros H. destruct (runs_on_field p_pid x L k H) as (p & k' & Ep & E & Hk). rewrite <- Ep. eauto. Qed.

Lemma runs_on_sleep x lk chan k : runs_on x [lk] k → proc_lock lk →
  ∃ k1 kont, sleep chan lk k = Block chan k1 kont ∧ switching k1 ∧
    ∀ k2, switching k2 → switched_to x k2 → ∃ k3, kont k2 = Ret () k3 ∧ runs_on x [lk] k3.
Proof.
  intros (me & run & qs & p & Hwf & Hok & Hx & Hp & Hs & Hpid) (H1 & H2 & H3).
  destruct (sleep_ok _ _ _ k qs x.1 p chan lk Hwf Hok HD H2 Hx Hp Hs) as (k1 & kont & E & Hk1 & Hwf1 & _ & _ & Hk).
  exists k1, kont. split; [done|]. split; [by exists me, run, qs|].
  intros k2 (me2 & run2 & qs2 & Hwf2 & Hk2) [Hc2 Hs2].
  apply fmap_Some in Hs2 as (p2 & Hp2 & [= Hs2 Hpid2]). destruct (Hk k2 me2 run2 p2 Hk2 Hp2) as (h3 & E3 & Hok3).
  eexists. split; [exact E3|]. exists me2, run2, qs2, (set_chan 0 p2). split_and!; simpl.
  - apply sched_wf_upd; [done|done|]. intros q Hq. split; [exact (sw_prio _ _ _ Hwf2 x.1 q Hq)|by left].
  - done.
  - by rewrite <- (ho_run _ _ _ _ _ Hk2), <- (ho_me _ _ _ _ _ Hk2).
  - by rewrite list_lookup_alter_eq, Hp2.
  - done.
  - done.
Qed.

(** proc.c keeps the promises of [ProcLaws]. *)
Definition kproc_ProcLaws : ProcLaws kproc := {|
  k_runs := runs_on; k_switch := switching; k_current := switched_to; k_lock := proc_lock;
  k_runs_initlock := runs_on_initlock; k_runs_acquire := runs_on_acquire; k_runs_release := runs_on_release; k_runs_wakeup := runs_on_wakeup;
  k_runs_killed := runs_on_killed; k_runs_pid := runs_on_pid; k_runs_sleep := runs_on_sleep |}.

End kproc_laws.

(** Process 3 of the example machine runs on its CPU. *)
Lemma ex_runs : runs_on ex_D (3, 7%Z) [] ex_k.
Proof.
  exists 0, [Some 3; None], ex_qs, (ex_proc 7 RUNNING None).
  split; [exact (mi_wf _ _ _ ex_minv)|]. split; [apply (ex_hw 0); lia|]. done.
Qed.
Lemma ex_lock2 : proc_lock ex_D 2.
Proof. split; [apply (bool_decide_unpack _); vm_compute; exact I|done]. Qed.

(** ** A component next to the kernel proper *)
Definition fst_lens {K T} : lens (K * T) K := Lens fst (λ k s, (k, s.2)).

Section lifted.
Context {K T : Type} `{!LockOps K, !ProcOps K}.

Definition initlock_ (lk : Z) (name : string) : M (K * T) () := zoom fst_lens (k_initlock lk name).
Definition acquire_ (lk : Z) : M (K * T) () := zoom fst_lens (k_acquire lk).
Definition release_ (lk : Z) : M (K * T) () := zoom fst_lens (k_release lk).
Definition wakeup_ (chan : Z) : M (K * T) () := zoom fst_lens (k_wakeup chan).
Definition sleep_ (chan lk : Z) : M (K * T) () := zoom fst_lens (k_sleep chan lk).
Definition killed_ : M (K * T) bool := zoom fst_lens k_killed.
Definition pid_ : M (K * T) Z := zoom fst_lens k_pid.
Definition gets_ {A} (f : T → A) : M (K * T) A := λ s, Ret (f s.2) s.
Definition modify_ (f : T → T) : M (K * T) () := λ s, Ret () (s.1, f s.2).

Section running.
Context {runs : who → list Z → K → Prop} {locks : Z → Prop} `{!RunLaws runs locks}.
Lemma initlock_ok_ x L lk name k t : runs x L k → locks lk → lk ∉ L →
  ∃ k', initlock_ lk name (k, t) = Ret () (k', t) ∧ runs x L k'.
Proof.
  intros H1 H2 H3. destruct (r_initlock x L lk name k H1 H2 H3) as (k' & E & H). exists k'. split; [|done].
  unfold initlock_. by rewrite (zoom_Ret fst_lens _ (k, t) _ _ E).
Qed.
Lemma acquire_ok_ x L lk k t : runs x L k → locks lk → lk ∉ L →
  ∃ k', acquire_ lk (k, t) = Ret () (k', t) ∧ runs x (lk :: L) k'.
Proof.
  intros H1 H2 H3. destruct (r_acquire x L lk k H1 H2 H3) as (k' & E & H). exists k'. split; [|done].
  unfold acquire_. by rewrite (zoom_Ret fst_lens _ (k, t) _ _ E).
Qed.
Lemma release_ok_ x L1 L2 lk k t : runs x (L1 ++ lk :: L2) k →
  ∃ k', release_ lk (k, t) = Ret () (k', t) ∧ runs x (L1 ++ L2) k'.
Proof.
  intros H1. destruct (r_release x L1 L2 lk k H1) as (k' & E & H). exists k'. split; [|done].
  unfold release_. by rewrite (zoom_Ret fst_lens _ (k, t) _ _ E).
Qed.
Lemma wakeup_ok_ x L chan k t : runs x L k → (∀ l, l ∈ L → locks l) →
  ∃ k', wakeup_ chan (k, t) = Ret () (k', t) ∧ runs x L k'.
Proof.
  intros H1 H2. destruct (r_wakeup x L chan k H1 H2) as (k' & E & H). exists k'. split; [|done].
  unfold wakeup_. by rewrite (zoom_Ret fst_lens _ (k, t) _ _ E).
Qed.
Lemma pid_ok_ x L k t : runs x L k → ∃ k', pid_ (k, t) = Ret x.2 (k', t) ∧ runs x L k'.
Proof.
  intros H1. destruct (r_pid x L k H1) as (k' & E & H). exists k'. split; [|done].
  unfold pid_. by rewrite (zoom_Ret fst_lens _ (k, t) _ _ E).
Qed.

(** The component is a kernel for those above it. *)
Definition pair_LockOps : LockOps (K * T) := {| k_initlock := initlock_; k_acquire := acquire_; k_release := release_ |}.
Definition pair_ProcOps : ProcOps (K * T) := {| k_wakeup := wakeup_; k_sleep := sleep_; k_killed := killed_; k_pid := pid_ |}.
Lemma pair_RunLaws (P : who → T → Prop) : @RunLaws _ pair_LockOps pair_ProcOps (λ x L s, runs x L s.1 ∧ P x s.2) locks.
Proof.
  split.
  - intros x L lk name [k t] [Hk Hi] H1 H2. destruct (initlock_ok_ x L lk name k t Hk H1 H2) as (k' & E & Hk'). by exists (k', t).
  - intros x L lk [k t] [Hk Hi] H1 H2. destruct (acquire_ok_ x L lk k t Hk H1 H2) as (k' & E & Hk'). by exists (k', t).
  - intros x L1 L2 lk [k t] [Hk Hi]. destruct (release_ok_ x L1 L2 lk k t Hk) as (k' & E & Hk'). by exists (k', t).
  - intros x L chan [k t] [Hk Hi] HL. destruct (wakeup_ok_ x L chan k t Hk HL) as (k' & E & Hk'). by exists (k', t).
  - intros x L [k t] [Hk Hi]. destruct (pid_ok_ x L k t Hk) as (k' & E & Hk'). by exists (k', t).
Qed.
End running.

Context `{!ProcLaws K}.
Lemma killed_ok_ x L k t : k_runs x L k → ∃ b k', killed_ (k, t) = Ret b (k', t) ∧ k_runs x L k'.
Proof.
  intros H1. destruct (k_runs_killed x L k H1) as (b & k' & E & H). exists b, k'. split; [|done].
  unfold killed_. by rewrite (zoom_Ret fst_lens _ (k, t) _ _ E).
Qed.
Lemma sleep_Block_ x lk chan k t : k_runs x [lk] k → k_lock lk →
  ∃ k1 kont, sleep_ chan lk (k, t) = Block chan (k1, t) kont ∧ k_switch k1 ∧
    ∀ k2 t2, k_switch k2 → k_current x k2 → ∃ k3, kont (k2, t2) = Ret () (k3, t2) ∧ k_runs x [lk] k3.
Proof.
  intros H1 H2. destruct (k_runs_sleep x lk chan k H1 H2) as (k1 & kont & E & Hs & Hk).
  eexists k1, _. split; [unfold sleep_, zoom; simpl; rewrite E; reflexivity|]. split; [done|].
  intros k2 t2 Hs2 Hc. destruct (Hk k2 Hs2 Hc) as (k3 & E3 & Hr). exists k3. simpl. by rewrite E3.
Qed.

(** A sleeping client: it resumes with the component as it then is. *)
Definition switched (x : who) (s s' : K * T) : Prop := k_current x s'.1.
Lemma sleep_safe_ x lk chan k t (I : T → Prop) :
  k_runs x [lk] k → k_lock lk → I t →
  safe (λ s, k_switch s.1 ∧ I s.2) (switched x) (λ _ s, k_runs x [lk] s.1 ∧ I s.2) (sleep_ chan lk (k, t)).
Proof.
  intros H1 H2 HI. destruct (k_runs_sleep x lk chan k H1 H2) as (k1 & kont & E & Hs & Hk).
  unfold sleep_, zoom. simpl. rewrite E. simpl. split; [done|]. intros [k2 t2] [Hs2 HI2] Hc. simpl in *.
  destruct (Hk k2 Hs2 Hc) as (k3 & -> & Hr). simpl. done.
Qed.

End lifted.
