(* ===== verification/Kalloc.v ===== *)
(** * The physical page allocator (kalloc.c)

    The free list is threaded through the free pages themselves: the first word
    of a free page is the address of the next one.  [kmem] keeps the head of
    the list next to the memory.  The file shows that the list refines a pair
    of disjoint sets of pages, free and allocated, that together are always the
    pages given to the allocator. *)
From stdpp Require Import base list gmap strings.
From Stdlib Require Import ZArith Lia Permutation.
From S2P Require Import Prelude Mmu Spinlock CpuLocks CString Proc RunQueue Sched Kernel.
#[local] Open Scope Z_scope.

(** The global [kmem] and the memory it allocates from. *)
Record kmem := Kmem { km_use_lock : bool; km_freelist : Z; km_mem : mem }.
Definition set_freelist v k := Kmem (km_use_lock k) v (km_mem k).
Definition set_use_lock v k := Kmem v (km_freelist k) (km_mem k).
Definition upd_mem f k := Kmem (km_use_lock k) (km_freelist k) (f (km_mem k)).

Definition kmem_lock : Z := 3.

Section kalloc.
Context {K : Type} `{!LockOps K}.
(** [end], the first address after the kernel, comes from the linker script. *)
Variable kend : Z.

Definition lock_if (lk : Z) : M (K * kmem) () :=
  let! u := gets_ km_use_lock in if (u : bool) then acquire_ lk else ret ().
Definition unlock_if (lk : Z) : M (K * kmem) () :=
  let! u := gets_ km_use_lock in if (u : bool) then release_ lk else ret ().

Definition kfree (v : Z) : M (K * kmem) () :=
  if negb (uint v mod PGSIZE =? 0) || (v <? kend) || (PHYSTOP <=? V2P v) then panic "kfree" else
  modify_ (upd_mem (memset v 1 PGSIZE)) ;;;
  lock_if kmem_lock ;;;
  let r := v in
  let! fl := gets_ km_freelist in
  modify_ (upd_mem (wr32 r fl)) ;;;
  modify_ (set_freelist r) ;;;
  unlock_if kmem_lock.

Definition kalloc : M (K * kmem) Z :=
  lock_if kmem_lock ;;;
  let! r := gets_ km_freelist in
  (if negb (r =? 0) then
     let! next := gets_ (λ s, rd32 (km_mem s) r) in modify_ (set_freelist next)
   else ret ()) ;;;
  unlock_if kmem_lock ;;;
  ret r.

Fixpoint freerange_loop (fuel : nat) (p vend : Z) : M (K * kmem) () :=
  match fuel with
  | O => λ _, Spin
  | S f => if p + PGSIZE <=? vend then kfree p ;;; freerange_loop f (p + PGSIZE) vend else ret ()
  end.
(** The loop runs once per page of the range; one more turn to leave it. *)
Definition freerange (vstart vend : Z) : M (K * kmem) () :=
  let p := PGROUNDUP vstart in
  freerange_loop (S (Z.to_nat ((vend - p) / PGSIZE))) p vend.

Definition kinit1 (vstart vend : Z) : M (K * kmem) () :=
  initlock_ kmem_lock "kmem" ;;; modify_ (set_use_lock false) ;;; freerange vstart vend.
Definition kinit2 (vstart vend : Z) : M (K * kmem) () :=
  freerange vstart vend ;;; modify_ (set_use_lock true).

(** ** Pages and the free list *)
Definition page_ok (p : Z) : Prop := p mod 4096 = 0 ∧ kend ≤ p ∧ KERNBASE ≤ p < KERNBASE + PHYSTOP.
Definition in_page (p a : Z) : Prop := p ≤ a < p + 4096.

Fixpoint free_list (m : mem) (h : Z) (l : list Z) : Prop :=
  match l with
  | [] => h = 0
  | p :: l' => h = p ∧ free_list m (rd32 m p) l'
  end.

(** [free] and [live] are the free and the allocated pages. *)
Record kmem_inv (s : kmem) (free live : list Z) : Prop := {
  ki_list : free_list (km_mem s) (km_freelist s) free;
  ki_pages p : p ∈ free ++ live → page_ok p;
  ki_nodup : NoDup (free ++ live) }.

Lemma free_list_ext m m' l : ∀ h, free_list m h l →
  (∀ p a, p ∈ l → in_page p a → rd8 m' a = rd8 m a) → free_list m' h l.
Proof.
  induction l as [|p l IH]; intros h H Hext; simpl in *; [done|]. destruct H as [-> H]. split; [done|].
  assert (rd32 m' p = rd32 m p) as ->. { apply rd32_ext. intros b Hb. apply (Hext p); [by left|unfold in_page; lia]. }
  apply IH; [done|]. intros q a Hq. apply Hext. by right.
Qed.

Lemma in_page_disjoint p q a : p mod 4096 = 0 → q mod 4096 = 0 → in_page p a → in_page q a → p = q.
Proof. unfold in_page. intros. Z.to_euclidean_division_equations. lia. Qed.

Context (valid : Z → Prop) (holds : list Z → K → Prop) `{!LockLaws valid holds}.

Lemma lock_if_ok L k s : holds L k → valid kmem_lock → kmem_lock ∉ L →
  ∃ k', lock_if kmem_lock (k, s) = Ret () (k', s) ∧ holds (if km_use_lock s then kmem_lock :: L else L) k'.
Proof.
  intros H1 H2 H3. unfold lock_if. erewrite bind_Ret; [|reflexivity]. simpl. destruct (km_use_lock s).
  - destruct (k_acquire_ok L kmem_lock k H1 H2 H3) as (k' & E & H). exists k'. split; [|done].
    unfold acquire_. by rewrite (zoom_Ret fst_lens _ (k, s) _ _ E).
  - by exists k.
Qed.
Lemma unlock_if_ok L k s : holds (if km_use_lock s then kmem_lock :: L else L) k →
  ∃ k', unlock_if kmem_lock (k, s) = Ret () (k', s) ∧ holds L k'.
Proof.
  intros H1. unfold unlock_if. erewrite bind_Ret; [|reflexivity]. simpl. destruct (km_use_lock s).
  - destruct (k_release_ok [] L kmem_lock k H1) as (k' & E & H). exists k'. split; [|done].
    unfold release_. by rewrite (zoom_Ret fst_lens _ (k, s) _ _ E).
  - by exists k.
Qed.

(** ** What the two operations do *)
Lemma kalloc_ok L k s free live :
  kmem_inv s free live → holds L k → valid kmem_lock → kmem_lock ∉ L →
  ∃ k', holds L k' ∧
    match free with
    | [] => kalloc (k, s) = Ret 0 (k', s)
    | p :: free' => kalloc (k, s) = Ret p (k', set_freelist (rd32 (km_mem s) p) s) ∧
        kmem_inv (set_freelist (rd32 (km_mem s) p) s) free' (p :: live)
    end.
Proof.
  intros Hinv Hk Hv HL. destruct Hinv as [Hl Hp Hnd]. unfold kalloc.
  destruct (lock_if_ok L k s Hk Hv HL) as (k1 & E1 & Hk1). run E1.
  erewrite bind_Ret; [|reflexivity]. cbn [fst snd]. destruct free as [|p free]; simpl in Hl.
  - rewrite Hl. cbn [negb Z.eqb]. erewrite bind_Ret; [|reflexivity].
    destruct (unlock_if_ok L k1 s Hk1) as (k2 & E2 & Hk2). run E2. by exists k2.
  - destruct Hl as [Hh Hl]. rewrite Hh in *. pose proof (Hp p ltac:(left)) as (Hal & _ & Hr).
    rewrite (proj2 (Z.eqb_neq p 0)) by (unfold KERNBASE in Hr; lia). cbn [negb].
    erewrite bind_Ret; [|erewrite bind_Ret; [|reflexivity]; reflexivity]. cbn [fst snd].
    destruct (unlock_if_ok L k1 (set_freelist (rd32 (km_mem s) p) s) Hk1) as (k2 & E2 & Hk2). run E2.
    exists k2. split; [done|]. split; [done|]. split; simpl; [done| |].
    + intros q Hq. apply Hp. set_solver.
    + rewrite (Permutation_app_comm free (p :: live)). simpl. rewrite (Permutation_app_comm live free). done.
Qed.

Lemma page_test p : page_ok p →
  negb (uint p mod PGSIZE =? 0) || (p <? kend) || (PHYSTOP <=? V2P p) = false.
Proof.
  intros (H1 & H2 & H3). unfold KERNBASE, PHYSTOP in H3. rewrite uint_small by (unfold is_uint; lia).
  unfold V2P, PGSIZE, PHYSTOP, KERNBASE. rewrite uint_small by (unfold is_uint; lia). rewrite H1. simpl. lia.
Qed.

Lemma kfree_ok L k s p free live live' :
  kmem_inv s free live → live ≡ₚ p :: live' → holds L k → valid kmem_lock → kmem_lock ∉ L →
  ∃ k' s', kfree p (k, s) = Ret () (k', s') ∧ holds L k' ∧ kmem_inv s' (p :: free) live' ∧
    km_use_lock s' = km_use_lock s ∧ ∀ a, ¬ in_page p a → rd8 (km_mem s') a = rd8 (km_mem s) a.
Proof.
  intros [Hl Hp Hnd] Hlive Hk Hv HL. assert (page_ok p) as Hpp by (apply Hp; rewrite Hlive; set_solver).
  unfold kfree. rewrite page_test by done. erewrite bind_Ret; [|reflexivity]. cbn [fst snd].
  set (s1 := upd_mem (memset p 1 PGSIZE) s).
  destruct (lock_if_ok L k s1 Hk Hv HL) as (k1 & E1 & Hk1). run E1.
  do 3 (erewrite bind_Ret; [|reflexivity]). cbn [fst snd].
  set (s2 := set_freelist p (upd_mem (wr32 p (km_freelist s1)) s1)).
  destruct (unlock_if_ok L k1 s2 Hk1) as (k2 & E2 & Hk2). exists k2, s2. split; [done|]. split; [done|].
  assert (∀ a, ¬ in_page p a → rd8 (km_mem s2) a = rd8 (km_mem s) a) as Hfr.
  { unfold in_page. intros a Ha. simpl. rewrite rd8_wr32, decide_False by lia.
    rewrite memset_ok by (unfold PGSIZE; lia). rewrite decide_False by (unfold PGSIZE; lia). done. }
  assert (p ∉ free) as Hnf. { rewrite Hlive in Hnd. apply NoDup_app in Hnd as (_ & Hd & _). intros Hf. specialize (Hd p Hf). set_solver. }
  split; [|done]. split.
  - split; [done|]. simpl. rewrite rd32_wr32.
    assert (is_uint (km_freelist s)) as Hu.
    { destruct free as [|q free]; simpl in Hl; [rewrite Hl; unfold is_uint; lia|]. destruct Hl as [-> _].
      destruct (Hp q ltac:(left)) as (_ & _ & Hq). unfold KERNBASE, PHYSTOP in Hq. unfold is_uint. lia. }
    rewrite uint_small by done. apply (free_list_ext (km_mem s)); [done|].
    intros q a Hq Ha. apply Hfr. intros Hpa. assert (p = q) as ->; [|done].
    eapply in_page_disjoint; [apply Hpp|apply (Hp q); set_solver|done|done].
  - intros q Hq. apply Hp. rewrite Hlive. set_solver.
  - rewrite Hlive in Hnd. simpl. by rewrite <- Permutation_middle in Hnd.
Qed.

(** Anything that is not a page of the machine is refused. *)
Lemma kfree_panics (k : K) s v : ¬ page_ok v → 0 ≤ v < 4294967296 → KERNBASE ≤ kend → kfree v (k, s) = Panic "kfree".
Proof.
  intros Hv Hr He. unfold kfree. destruct (_ || _) eqn:E; [done|]. exfalso. apply Hv.
  unfold V2P, PGSIZE, PHYSTOP, KERNBASE in *. rewrite uint_small in E by (unfold is_uint; lia).
  apply orb_false_iff in E as [[E1 E2]%orb_false_iff E3]. apply negb_false_iff, Z.eqb_eq in E1.
  unfold page_ok. unfold KERNBASE, PHYSTOP. rewrite uint_small in E3 by (unfold is_uint; lia). lia.
Qed.

(** The pages of a range, lowest first. *)
Definition pages (p : Z) (n : nat) : list Z := (λ i, p + 4096 * Z.of_nat i) <$> seq 0 n.

Lemma pages_S p n : pages p (S n) = p :: pages (p + 4096) n.
Proof.
  unfold pages. cbn [seq]. rewrite fmap_cons. f_equal; [lia|].
  rewrite <- fmap_S_seq, <- list_fmap_compose. apply list_fmap_ext. intros _ i _. unfold compose. lia.
Qed.

(** [freerange] frees every page of its range, and ends. *)
Lemma freerange_loop_ok L n : ∀ fuel p vend k s free live,
  kmem_inv s free (pages p n ++ live) → holds L k → valid kmem_lock → kmem_lock ∉ L →
  p + 4096 * Z.of_nat n ≤ vend < p + 4096 * Z.of_nat n + 4096 → (n < fuel)%nat →
  ∃ k' s', freerange_loop fuel p vend (k, s) = Ret () (k', s') ∧ holds L k' ∧
    kmem_inv s' (reverse (pages p n) ++ free) live ∧ km_use_lock s' = km_use_lock s.
Proof.
  induction n as [|n IH]; intros fuel p vend k s free live Hinv Hk Hv HL Hvend Hfuel.
  - destruct fuel as [|fuel]; [lia|]. cbn [freerange_loop]. rewrite (proj2 (Z.leb_gt _ _)) by (unfold PGSIZE; lia).
    by exists k, s.
  - destruct fuel as [|fuel]; [lia|]. cbn [freerange_loop]. rewrite (proj2 (Z.leb_le _ _)) by (unfold PGSIZE; lia).
    rewrite pages_S in Hinv |- *.
    destruct (kfree_ok L k s p free _ (pages (p + 4096) n ++ live) Hinv (Permutation_refl _) Hk Hv HL)
      as (k1 & s1 & E1 & Hk1 & Hinv1 & Hu1 & _). run E1.
    destruct (IH fuel (p + 4096) vend k1 s1 (p :: free) live) as (k2 & s2 & E2 & Hk2 & Hinv2 & Hu2); try done; try lia.
    exists k2, s2. split; [exact E2|]. split; [done|]. split; [|congruence].
    rewrite reverse_cons, <- app_assoc. done.
Qed.

Lemma freerange_ok L vstart vend n k s free live :
  0 ≤ vstart ≤ 4294963200 → n = Z.to_nat ((vend - PGROUNDUP vstart) / 4096) → PGROUNDUP vstart ≤ vend →
  kmem_inv s free (pages (PGROUNDUP vstart) n ++ live) → holds L k → valid kmem_lock → kmem_lock ∉ L →
  ∃ k' s', freerange vstart vend (k, s) = Ret () (k', s') ∧ holds L k' ∧
    kmem_inv s' (reverse (pages (PGROUNDUP vstart) n) ++ free) live ∧ km_use_lock s' = km_use_lock s.
Proof.
  intros Hs -> Hle Hinv Hk Hv HL. unfold freerange, PGSIZE.
  apply freerange_loop_ok; try done; [|lia]. Z.to_euclidean_division_equations. lia.
Qed.

(** ** Histories of the allocator and its clients *)
Inductive aop := AAlloc | AFree (p : Z) | AStore (a v : Z).

Definition page_of (a : Z) : Z := a - a mod 4096.

Definition kexec (o : aop) : M (K * kmem) Z :=
  match o with
  | AAlloc => kalloc
  | AFree p => kfree p ;;; ret 0
  | AStore a v => modify_ (upd_mem (wr8 a v)) ;;; ret 0
  end.
Fixpoint kruns (os : list aop) : M (K * kmem) (list Z) :=
  match os with
  | [] => ret []
  | o :: os' => let! r := kexec o in let! rs := kruns os' in ret (r :: rs)
  end.

(** The specification: two lists of pages.  A client frees what it has and
    stores where it may. *)
Definition aexec (o : aop) (st : list Z * list Z) : option (Z * (list Z * list Z)) :=
  let '(free, live) := st in
  match o with
  | AAlloc => Some match free with [] => (0, (free, live)) | p :: free' => (p, (free', p :: live)) end
  | AFree p => if bool_decide (p ∈ live) then Some (0, (p :: free, filter (.≠ p) live)) else None
  | AStore a _ => if bool_decide (page_of a ∈ live) then Some (0, (free, live)) else None
  end.
Fixpoint aruns (os : list aop) (st : list Z * list Z) : option (list Z * (list Z * list Z)) :=
  match os with
  | [] => Some ([], st)
  | o :: os' => '(r, st1) ← aexec o st; '(rs, st2) ← aruns os' st1; Some (r :: rs, st2)
  end.

(** The history neither frees page [p] nor stores into it. *)
Definition untouched (p : Z) (o : aop) : Prop :=
  match o with AAlloc => True | AFree q => q ≠ p | AStore a _ => page_of a ≠ p end.

Lemma filter_ne_perm p (l : list Z) : NoDup l → p ∈ l → l ≡ₚ p :: filter (.≠ p) l.
Proof.
  induction l as [|q l IH]; intros Hnd Hp; [by apply not_elem_of_nil in Hp|].
  apply NoDup_cons in Hnd as [Hq Hnd]. destruct (decide (q = p)) as [->|Hne].
  - rewrite filter_cons_False by naive_solver. f_equiv. clear -Hq. induction l as [|r l IH]; [done|].
    rewrite filter_cons_True by set_solver. f_equiv. apply IH. set_solver.
  - rewrite filter_cons_True by done. rewrite (IH Hnd) at 1 by set_solver. apply perm_swap.
Qed.

Lemma kexec_ok L o k s free live r free' live' :
  kmem_inv s free live → holds L k → valid kmem_lock → kmem_lock ∉ L →
  aexec o (free, live) = Some (r, (free', live')) →
  ∃ k' s', kexec o (k, s) = Ret r (k', s') ∧ holds L k' ∧ kmem_inv s' free' live' ∧
    free' ++ live' ≡ₚ free ++ live ∧
    ∀ p, p ∈ live → untouched p o → p ∈ live' ∧ ∀ a, in_page p a → rd8 (km_mem s') a = rd8 (km_mem s) a.
Proof.
  intros Hinv Hk Hv HL Ha. pose proof Hinv as [Hl Hp Hnd]. destruct o as [|q|a v]; simpl in Ha.
  - destruct (kalloc_ok L k s free live Hinv Hk Hv HL) as (k1 & Hk1 & E).
    destruct free as [|q free]; injection Ha as <- <- <-.
    + exists k1, s. split_and!; try done.
    + destruct E as [E Hinv1]. eexists k1, _. split; [exact E|]. split_and!; [done|done| |].
      * by rewrite <- Permutation_middle.
      * intros p Hpl _. split; [by right|]. done.
  - case_bool_decide as Hq; [|done]. injection Ha as <- <- <-.
    assert (NoDup live) as Hndl by (by apply NoDup_app in Hnd as (_ & _ & ?)).
    pose proof (filter_ne_perm q live Hndl Hq) as Hperm.
    destruct (kfree_ok L k s q free live _ Hinv Hperm Hk Hv HL) as (k1 & s1 & E & Hk1 & Hinv1 & _ & Hfr).
    exists k1, s1. split; [simpl; by rewrite (bind_Ret _ _ _ _ _ E)|]. split_and!; [done|done| |].
    + rewrite Hperm at 2. simpl. by rewrite Permutation_middle.
    + intros p Hpl Hne. simpl in Hne. split; [apply list_elem_of_filter; naive_solver|].
      intros a Ha. apply Hfr. intros Hqa. apply Hne.
      eapply in_page_disjoint; [apply (Hp q); set_solver|apply (Hp p); set_solver|done|done].
  - case_bool_decide as Hq; [|done]. injection Ha as <- <- <-.
    assert (∀ p, p ∈ free ++ live → page_of a ≠ p → ∀ b, in_page p b → rd8 (wr8 a v (km_mem s)) b = rd8 (km_mem s) b) as Hfr.
    { intros p Hpl Hne b Hb. rewrite rd8_wr8. rewrite decide_False; [done|]. intros ->. apply Hne.
      destruct (Hp p Hpl) as (Hal & _). unfold page_of, in_page in *. Z.to_euclidean_division_equations. lia. }
    eexists k, _. split; [reflexivity|]. split_and!; [done| |done|].
    + split; simpl; [|done|done]. apply (free_list_ext (km_mem s)); [done|]. intros p b Hpf Hb.
      apply (Hfr p); [set_solver| |done]. intros <-. apply NoDup_app in Hnd as (_ & Hd & _). by apply (Hd (page_of a)).
    + intros p Hpl Hne. split; [done|]. apply (Hfr p); [set_solver|done].
Qed.

Lemma kruns_ok L os : ∀ k s free live rs free' live',
  kmem_inv s free live → holds L k → valid kmem_lock → kmem_lock ∉ L →
  aruns os (free, live) = Some (rs, (free', live')) →
  ∃ k' s', kruns os (k, s) = Ret rs (k', s') ∧ holds L k' ∧ kmem_inv s' free' live' ∧
    free' ++ live' ≡ₚ free ++ live ∧
    ∀ p, p ∈ live → Forall (untouched p) os → p ∈ live' ∧ ∀ a, in_page p a → rd8 (km_mem s') a = rd8 (km_mem s) a.
Proof.
  induction os as [|o os IH]; intros k s free live rs free' live' Hinv Hk Hv HL Ha; simpl in Ha.
  - injection Ha as <- <- <-. exists k, s. split_and!; done.
  - apply bind_Some in Ha as ([r [f1 l1]] & E1 & Ha). apply bind_Some in Ha as ([rs1 [f2 l2]] & E2 & [= <- <- <-]).
    destruct (kexec_ok L o k s free live r f1 l1 Hinv Hk Hv HL E1) as (k1 & s1 & Er1 & Hk1 & Hi1 & Hp1 & Hf1).
    destruct (IH k1 s1 f1 l1 rs1 f2 l2 Hi1 Hk1 Hv HL E2) as (k2 & s2 & Er2 & Hk2 & Hi2 & Hp2 & Hf2).
    exists k2, s2. split; [simpl; run Er1; by run Er2|]. split_and!; [done|done|by rewrite Hp2|].
    intros p Hpl [Ho Hos]%Forall_cons. destruct (Hf1 p Hpl Ho) as [Hp1' Hb1]. destruct (Hf2 p Hp1' Hos) as [Hp2' Hb2].
    split; [done|]. intros a Ha. by rewrite Hb2, Hb1.
Qed.

(** C5: the allocator's list of free pages, kept inside the pages, implements
    two disjoint lists of free and allocated pages.  Any history in which
    clients allocate, free what they have and store into what they have runs
    without a panic; [kalloc] returns a page that nobody has, or 0 exactly when
    none is free; no page is lost or handed out twice; and the contents of an
    allocated page change only by stores into it. *)
Theorem kalloc_refines L os k s free live rs free' live' :
  kmem_inv s free live → holds L k → valid kmem_lock → kmem_lock ∉ L →
  aruns os (free, live) = Some (rs, (free', live')) →
  ∃ k' s', kruns os (k, s) = Ret rs (k', s') ∧ holds L k' ∧ kmem_inv s' free' live' ∧
    free' ++ live' ≡ₚ free ++ live ∧
    ∀ p, p ∈ live → Forall (untouched p) os → p ∈ live' ∧ ∀ a, in_page p a → rd8 (km_mem s') a = rd8 (km_mem s) a.
Proof. apply kruns_ok. Qed.

End kalloc.

(** ** An example: two pages above the kernel *)
Definition kalloc_hw : hw := Hw 0 [Cpu 0 0 false None true 0 0] {[kmem_lock := Spinlock false "kmem" None]}.

Lemma kalloc_hw_ok : hw_ok 0 [None] {[kmem_lock]} [] kalloc_hw.
Proof.
  split; simpl; try done; try lia.
  - apply (bool_decide_unpack _). vm_compute. exact I.
  - intros [|i] c Hc; [|done]. injection Hc as <-. split; [|by case_decide]. split; simpl; lia.
  - apply (bool_decide_unpack _). vm_compute. exact I.
  - apply NoDup_nil_2.
  - intros lk Hlk. by apply not_elem_of_nil in Hlk.
Qed.

Lemma kalloc_refines_witness :
  ∃ k' s', kruns 2148532224 [AFree 2149580800; AFree 2149584896; AAlloc; AStore 2149584901 7; AAlloc; AAlloc]
      (kalloc_hw, Kmem true 0 ∅) = Ret [0; 0; 2149584896; 0; 2149580800; 0] (k', s') ∧
    hw_ok 0 [None] {[kmem_lock]} [] k' ∧ kmem_inv 2148532224 s' [] [2149580800; 2149584896].
Proof.
  destruct (kalloc_refines 2148532224 (.∈ ({[kmem_lock]} : gset Z)) (hw_ok 0 [None] {[kmem_lock]}) []
    [AFree 2149580800; AFree 2149584896; AAlloc; AStore 2149584901 7; AAlloc; AAlloc] kalloc_hw (Kmem true 0 ∅)
    [] [2149580800; 2149584896] [0; 0; 2149584896; 0; 2149580800; 0] [] [2149580800; 2149584896])
    as (k' & s' & E & Hk & Hi & _).
  - split; [reflexivity| |].
    + intros p Hp. simpl in Hp. apply elem_of_cons in Hp as [->|Hp]; [|apply list_elem_of_singleton in Hp as ->];
        unfold page_ok, KERNBASE, PHYSTOP; (split; [reflexivity|lia]).
    + apply (bool_decide_unpack _). vm_compute. exact I.
  - exact kalloc_hw_ok.
  - apply elem_of_singleton_2. reflexivity.
  - apply not_elem_of_nil.
  - vm_compute. reflexivity.
  - exists k', s'. split; [exact E|]. split; [exact Hk|exact Hi].
Defined.
