(* ===== verification/Vm.v ===== *)
(** * Page tables and address spaces (vm.c)

    Page directories, page tables and user pages are pages of the allocator of
    Kalloc.v, and their entries are words of its memory.  [lookup_pte] is what
    the hardware finds for an address.  The operations are specified by how
    they change [lookup_pte] for every address, the contents of the pages, and
    the two lists of free and allocated pages. *)
From stdpp Require Import base list gmap strings.
From Stdlib Require Import ZArith Lia Permutation.
From S2P Require Import Prelude Mmu Spinlock CpuLocks CString Proc RunQueue Sched Kernel Kalloc.
#[local] Open Scope Z_scope.

(** [struct kmap] *)
Record kmapping := Kmapping { km_virt : Z; km_phys_start : Z; km_phys_end : Z; km_perm : Z }.

Section vm.
Context {K : Type} `{!LockOps K}.
(** [end] and [data], from the linker script. *)
Variables kend kdata : Z.

Definition load (a : Z) : M (K * kmem) Z := gets_ (λ s, rd32 (km_mem s) a).
Definition store (a v : Z) : M (K * kmem) () := modify_ (upd_mem (wr32 a v)).

Definition walkpgdir (pgdir va : Z) (alloc : bool) : M (K * kmem) Z :=
  let pde := pgdir + 4 * PDX va in
  let! e := load pde in
  if negb (Z.land e PTE_P =? 0) then
    let pgtab := P2V (PTE_ADDR e) in ret (pgtab + 4 * PTX va)
  else
    if negb alloc then ret 0 else
    let! pgtab := kalloc in
    if pgtab =? 0 then ret 0 else
    modify_ (upd_mem (memset pgtab 0 PGSIZE)) ;;;
    store pde (Z.lor (Z.lor (Z.lor (V2P pgtab) PTE_P) PTE_W) PTE_U) ;;;
    ret (pgtab + 4 * PTX va).

(** One turn per page up to [last]; [a] and [pa] wrap like [uint]s. *)
Fixpoint mappages_loop (fuel : nat) (pgdir a last pa perm : Z) : M (K * kmem) Z :=
  match fuel with
  | O => λ _, Spin
  | S f =>
      let! pte := walkpgdir pgdir a true in
      if pte =? 0 then ret (-1) else
      let! e := load pte in
      if negb (Z.land e PTE_P =? 0) then panic "remap" else
      store pte (Z.lor (Z.lor pa perm) PTE_P) ;;;
      if a =? last then ret 0 else mappages_loop f pgdir (uint (a + PGSIZE)) last (uint (pa + PGSIZE)) perm
  end.
Definition mappages (pgdir va size pa perm : Z) : M (K * kmem) Z :=
  let a := PGROUNDDOWN va in
  let last := PGROUNDDOWN (uint (va + size - 1)) in
  mappages_loop (S (Z.to_nat (uint (last - a) / PGSIZE))) pgdir a last pa perm.

(** Each turn moves [a] up by a page at least. *)
Fixpoint deallocuvm_loop (fuel : nat) (pgdir a oldsz : Z) : M (K * kmem) () :=
  if oldsz <=? a then ret () else
  match fuel with
  | O => λ _, Spin
  | S f =>
      let! pte := walkpgdir pgdir a false in
      if pte =? 0 then
        deallocuvm_loop f pgdir (uint (uint (PGADDR (PDX a + 1) 0 0 - PGSIZE) + PGSIZE)) oldsz
      else
        let! e := load pte in
        (if negb (Z.land e PTE_P =? 0) then
           let pa := PTE_ADDR e in
           if pa =? 0 then panic "kfree" else
           kfree kend (P2V pa) ;;;
           store pte 0
         else ret ()) ;;;
        deallocuvm_loop f pgdir (uint (a + PGSIZE)) oldsz
  end.
Definition deallocuvm (pgdir oldsz newsz : Z) : M (K * kmem) Z :=
  if oldsz <=? newsz then ret oldsz else
  let a := PGROUNDUP newsz in
  deallocuvm_loop (Z.to_nat ((oldsz - a + PGSIZE - 1) / PGSIZE)) pgdir a oldsz ;;;
  ret newsz.

Fixpoint freevm_loop (cnt : nat) (pgdir i : Z) : M (K * kmem) () :=
  match cnt with
  | O => ret ()
  | S c =>
      let! e := load (pgdir + 4 * i) in
      (if negb (Z.land e PTE_P =? 0) then kfree kend (P2V (PTE_ADDR e)) else ret ()) ;;;
      freevm_loop c pgdir (i + 1)
  end.
Definition freevm (pgdir : Z) (dodeallocuvm : bool) : M (K * kmem) () :=
  if pgdir =? 0 then panic "freevm: no pgdir" else
  (if dodeallocuvm then deallocuvm pgdir KERNBASE 0 ;;; ret () else ret ()) ;;;
  freevm_loop (Z.to_nat NPDENTRIES) pgdir 0 ;;;
  kfree kend pgdir.

Definition kmap : list kmapping := [
  Kmapping KERNBASE 0 EXTMEM PTE_W;
  Kmapping KERNLINK (V2P KERNLINK) (V2P kdata) 0;
  Kmapping kdata (V2P kdata) PHYSTOP PTE_W;
  Kmapping DEVSPACE DEVSPACE 0 PTE_W].

Fixpoint setupkvm_loop (ks : list kmapping) (pgdir : Z) : M (K * kmem) Z :=
  match ks with
  | [] => ret pgdir
  | k :: ks' =>
      let! r := mappages pgdir (km_virt k) (uint (km_phys_end k - km_phys_start k)) (km_phys_start k) (km_perm k) in
      if r <? 0 then freevm pgdir false ;;; ret 0 else setupkvm_loop ks' pgdir
  end.
Definition setupkvm : M (K * kmem) Z :=
  let! pgdir := kalloc in
  if pgdir =? 0 then ret 0 else
  modify_ (upd_mem (memset pgdir 0 PGSIZE)) ;;;
  if DEVSPACE <? P2V PHYSTOP then panic "PHYSTOP too high" else
  setupkvm_loop kmap pgdir.

(** A null pointer from [kalloc] is used unchecked. *)
Definition inituvm (pgdir init sz : Z) : M (K * kmem) () :=
  if PGSIZE <=? sz then panic "inituvm: more than a page" else
  let! mem := kalloc in
  if mem =? 0 then fault else
  modify_ (upd_mem (memset mem 0 PGSIZE)) ;;;
  mappages pgdir 0 PGSIZE (V2P mem) (Z.lor PTE_W PTE_U) ;;;
  modify_ (upd_mem (memmove mem init sz)).

(** The messages on the console are left out. *)
Fixpoint allocuvm_loop (fuel : nat) (pgdir a oldsz newsz : Z) : M (K * kmem) Z :=
  if newsz <=? a then ret newsz else
  match fuel with
  | O => λ _, Spin
  | S f =>
      let! mem := kalloc in
      if mem =? 0 then deallocuvm pgdir newsz oldsz ;;; ret 0 else
      modify_ (upd_mem (memset mem 0 PGSIZE)) ;;;
      let! r := mappages pgdir a PGSIZE (V2P mem) (Z.lor PTE_W PTE_U) in
      if r <? 0 then deallocuvm pgdir newsz oldsz ;;; kfree kend mem ;;; ret 0
      else allocuvm_loop f pgdir (uint (a + PGSIZE)) oldsz newsz
  end.
Definition allocuvm (pgdir oldsz newsz : Z) : M (K * kmem) Z :=
  if KERNBASE <=? newsz then ret 0 else
  if newsz <? oldsz then ret oldsz else
  let a := PGROUNDUP oldsz in
  allocuvm_loop (Z.to_nat ((newsz - a + PGSIZE - 1) / PGSIZE)) pgdir a oldsz newsz.

Definition clearpteu (pgdir uva : Z) : M (K * kmem) () :=
  let! pte := walkpgdir pgdir uva false in
  if pte =? 0 then panic "clearpteu" else
  let! e := load pte in
  store pte (Z.land e (Z.lnot PTE_U)).

Fixpoint copyuvm_loop (fuel : nat) (pgdir d i sz : Z) : M (K * kmem) Z :=
  if sz <=? i then ret d else
  match fuel with
  | O => λ _, Spin
  | S f =>
      let! pte := walkpgdir pgdir i false in
      if pte =? 0 then copyuvm_loop f pgdir d (uint (i + PGSIZE)) sz else
      let! e := load pte in
      if Z.land e PTE_P =? 0 then copyuvm_loop f pgdir d (uint (i + PGSIZE)) sz else
      let pa := PTE_ADDR e in
      let flags := PTE_FLAGS e in
      let! mem := kalloc in
      if mem =? 0 then freevm d true ;;; ret 0 else
      modify_ (upd_mem (memmove mem (P2V pa) PGSIZE)) ;;;
      let! r := mappages d i PGSIZE (V2P mem) flags in
      if r <? 0 then kfree kend mem ;;; freevm d true ;;; ret 0
      else copyuvm_loop f pgdir d (uint (i + PGSIZE)) sz
  end.
Definition copyuvm (pgdir sz : Z) : M (K * kmem) Z :=
  let! d := setupkvm in
  if d =? 0 then ret 0 else
  copyuvm_loop (Z.to_nat ((sz + PGSIZE - 1) / PGSIZE)) pgdir d 0 sz.

(** The entry is read even when there is no page table for the address.  Reading
    through that null pointer is undefined behaviour here, where the memory is
    only that of the allocator; Fault.v and Sysproc.v, which have the process that
    executes, say what such an access finds on the machine: its user page 0. *)
Definition uva2ka (pgdir uva : Z) : M (K * kmem) Z :=
  let! pte := walkpgdir pgdir uva false in
  if pte =? 0 then fault else
  let! e := load pte in
  if Z.land e PTE_P =? 0 then ret 0 else
  if Z.land e PTE_U =? 0 then ret 0 else
  ret (P2V (PTE_ADDR e)).

(** Each turn copies up to the end of a page. *)
Fixpoint copyout_loop (fuel : nat) (pgdir va buf len : Z) : M (K * kmem) Z :=
  if len <=? 0 then ret 0 else
  match fuel with
  | O => λ _, Spin
  | S f =>
      let va0 := PGROUNDDOWN va in
      let! pa0 := uva2ka pgdir va0 in
      if pa0 =? 0 then ret (-1) else
      let n := if len <? PGSIZE - (va - va0) then len else PGSIZE - (va - va0) in
      modify_ (upd_mem (memmove (pa0 + (va - va0)) buf n)) ;;;
      copyout_loop f pgdir (uint (va0 + PGSIZE)) (buf + n) (len - n)
  end.
Definition copyout (pgdir va p len : Z) : M (K * kmem) Z :=
  copyout_loop (S (Z.to_nat (len / PGSIZE + 1))) pgdir va p len.

#[local] Opaque memset memmove wr32.

(** ** What the hardware sees *)
Definition lookup_pte (m : mem) (pgdir va : Z) : Z :=
  let e := rd32 m (pgdir + 4 * PDX va) in
  if Z.land e PTE_P =? 0 then 0 else rd32 m (P2V (PTE_ADDR e) + 4 * PTX va).

(** A page directory with the page tables [T], by directory index. *)
Record pgtable (m : mem) (pgdir : Z) (T : gmap Z Z) : Prop := {
  pt_dir : page_ok kend pgdir;
  pt_pde i : 0 ≤ i < 1024 → match T !! i with
    | Some t => rd32 m (pgdir + 4 * i) = V2P t + 7
    | None => Z.land (rd32 m (pgdir + 4 * i)) PTE_P = 0
    end;
  pt_tab i t : T !! i = Some t → 0 ≤ i < 1024 ∧ page_ok kend t;
  pt_nodup : NoDup (pgdir :: (map_to_list T).*2) }.
Definition pt_pages (pgdir : Z) (T : gmap Z Z) : list Z := pgdir :: (map_to_list T).*2.

Lemma empty_pgtable m p : page_ok kend p → (∀ i, 0 ≤ i < 1024 → rd32 m (p + 4 * i) = 0) → pgtable m p ∅.
Proof.
  intros Hp Hz. split; [done| |done|].
  - intros i Hi. rewrite lookup_empty, Hz by done. done.
  - rewrite map_to_list_empty. apply NoDup_singleton.
Qed.

Lemma pt_pages_tab pgdir T i t : T !! i = Some t → t ∈ pt_pages pgdir T.
Proof. intros H. right. apply list_elem_of_fmap. exists (i, t). split; [done|]. by apply elem_of_map_to_list. Qed.
Lemma pt_pages_insert pgdir T i t : T !! i = None → pt_pages pgdir (<[i := t]> T) ≡ₚ t :: pt_pages pgdir T.
Proof. intros H. unfold pt_pages. rewrite map_to_list_insert by done. simpl. apply perm_swap. Qed.

(** A directory has room for so many page tables. *)
Lemma pt_pages_max m pgdir T : pgtable m pgdir T → Z.of_nat (length (pt_pages pgdir T)) ≤ 1025.
Proof.
  intros [_ _ Ht _]. unfold pt_pages. cbn [length]. rewrite length_fmap, length_map_to_list, <- size_dom.
  pose proof (subseteq_size (dom T) (list_to_set (seqZ 0 1024))) as H. rewrite size_list_to_set, length_seqZ in H by apply NoDup_seqZ.
  enough (size (dom T) ≤ Z.to_nat 1024)%nat by lia. apply H. intros i [t Hi]%elem_of_dom. apply elem_of_list_to_set, elem_of_seqZ. apply Ht in Hi. lia.
Qed.

Lemma tab_inj m pgdir T i j t : pgtable m pgdir T → T !! i = Some t → T !! j = Some t → i = j.
Proof.
  intros [_ _ _ Hnd] Hi Hj. apply NoDup_cons in Hnd as [_ Hnd].
  apply elem_of_map_to_list in Hi, Hj. apply list_elem_of_lookup in Hi as [a Ha], Hj as [b Hb].
  assert (a = b) as ->; [|congruence]. eapply NoDup_lookup; [exact Hnd|..]; rewrite list_lookup_fmap; [rewrite Ha|rewrite Hb]; done.
Qed.
Lemma tab_ne_dir m pgdir T i t : pgtable m pgdir T → T !! i = Some t → t ≠ pgdir.
Proof.
  intros [_ _ _ Hnd] Hi ->. apply NoDup_cons in Hnd as [Hn _]. apply Hn. apply list_elem_of_fmap.
  exists (i, pgdir). split; [done|]. by apply elem_of_map_to_list.
Qed.

Lemma page_range p : page_ok kend p → 2147483648 ≤ p < 2382364672 ∧ p mod 4096 = 0.
Proof. intros (H1 & _ & H2). unfold KERNBASE, PHYSTOP in H2. lia. Qed.

Lemma V2P_page p : page_ok kend p → V2P p = p - 2147483648.
Proof. intros H%page_range. unfold V2P, KERNBASE. apply uint_small. unfold is_uint. lia. Qed.

(** The entry of a page, with its flags. *)
Lemma pte_page p f : page_ok kend p → 0 ≤ f < 4096 → PTE_ADDR (V2P p + f) = V2P p ∧ PTE_FLAGS (V2P p + f) = f ∧ P2V (V2P p) = p.
Proof.
  intros Hp Hf. pose proof (page_range p Hp) as Hr. rewrite P2V_V2P by (unfold KERNBASE; lia). rewrite (V2P_page p Hp).
  rewrite PTE_ADDR_eq, PTE_FLAGS_eq, uint_small by (unfold is_uint; lia). Z.to_euclidean_division_equations. lia.
Qed.

Lemma lor_pte pa f : 0 ≤ pa → pa mod 4096 = 0 → 0 ≤ f < 4096 → Z.lor pa f = pa + f.
Proof.
  intros H1 H2 H3. assert (Z.land pa f = 0) as E; [|pose proof (Z.add_lor_land pa f); lia].
  rewrite <- (Z.mod_small f 4096) by lia. change 4096 with (2 ^ 12) in *. rewrite <- Z.land_ones by lia.
  rewrite (Z.land_comm f), Z.land_assoc, Z.land_ones, H2 by lia. apply Z.land_0_l.
Qed.
Lemma pde_word p : page_ok kend p → Z.lor (Z.lor (Z.lor (V2P p) PTE_P) PTE_W) PTE_U = V2P p + 7.
Proof.
  intros Hp. rewrite <- !Z.lor_assoc. pose proof (page_range p Hp). rewrite (V2P_page p Hp).
  apply lor_pte; [lia| |done]. Z.to_euclidean_division_equations. lia.
Qed.
Lemma land_P_add x f : x mod 4096 = 0 → Z.land (x + f) PTE_P = Z.land f PTE_P.
Proof.
  intros Hx. unfold PTE_P. change 1 with (Z.ones 1). rewrite !Z.land_ones by lia. change (2 ^ 1) with 2.
  Z.to_euclidean_division_equations. lia.
Qed.

Lemma idx_range va : is_uint va → 0 ≤ PDX va < 1024 ∧ 0 ≤ PTX va < 1024.
Proof. intros H. rewrite PDX_eq, PTX_eq. unfold is_uint, uint in *. Z.to_euclidean_division_equations. lia. Qed.
(** Two addresses have the same entry exactly when they are on the same page. *)
Lemma same_entry va va' : is_uint va → is_uint va' → PDX va = PDX va' ∧ PTX va = PTX va' ↔ va / 4096 = va' / 4096.
Proof.
  intros H H'. rewrite !PDX_eq, !PTX_eq, !uint_small by done. unfold is_uint in *. Z.to_euclidean_division_equations. lia.
Qed.

Lemma lookup_tab m pgdir T va : pgtable m pgdir T → is_uint va →
  lookup_pte m pgdir va = match T !! PDX va with Some t => rd32 m (t + 4 * PTX va) | None => 0 end.
Proof.
  intros [_ Hpde Htab _] Hva. unfold lookup_pte. pose proof (Hpde _ (proj1 (idx_range va Hva))) as H.
  destruct (T !! PDX va) as [t|] eqn:E; [|by rewrite H].
  destruct (Htab _ _ E) as [_ Ht]. rewrite H. destruct (pte_page t 7 Ht) as (-> & _ & ->); [done|].
  rewrite land_P_add; [done|]. rewrite (V2P_page t Ht). apply page_range in Ht. Z.to_euclidean_division_equations. lia.
Qed.

(** The bytes of page [p] are the same. *)
Definition same_page (m m' : mem) (p : Z) : Prop := ∀ a, in_page p a → rd8 m' a = rd8 m a.
Lemma same_page_rd32 m m' p i : same_page m m' p → 0 ≤ i < 1024 → rd32 m' (p + 4 * i) = rd32 m (p + 4 * i).
Proof. intros H Hi. apply rd32_ext. intros b Hb. apply H. unfold in_page. lia. Qed.
Lemma same_page_trans m1 m2 m3 p : same_page m1 m2 p → same_page m2 m3 p → same_page m1 m3 p.
Proof. intros H1 H2 a Ha. by rewrite H2, H1. Qed.

Lemma pgtable_same m m' pgdir T : pgtable m pgdir T → same_page m m' pgdir → pgtable m' pgdir T.
Proof.
  intros [H1 H2 H3 H4] Hs. split; try done. intros i Hi. rewrite (same_page_rd32 m) by done. by apply H2.
Qed.
Lemma lookup_same m m' pgdir T va : pgtable m pgdir T → (∀ p, p ∈ pt_pages pgdir T → same_page m m' p) → is_uint va →
  lookup_pte m' pgdir va = lookup_pte m pgdir va.
Proof.
  intros Hpt Hs Hva. assert (pgtable m' pgdir T) as Hpt' by (eapply pgtable_same; [done|apply Hs; left]).
  rewrite !(lookup_tab _ _ T) by done. destruct (T !! PDX va) as [t|] eqn:E; [|done].
  apply same_page_rd32; [|by apply idx_range]. by apply Hs, (pt_pages_tab pgdir T (PDX va)).
Qed.

(** A store into an allocated page. *)
Lemma kmem_inv_store s free live m' : kmem_inv kend s free live →
  (∀ p, p ∈ free → same_page (km_mem s) m' p) → kmem_inv kend (upd_mem (λ _, m') s) free live.
Proof.
  intros [H1 H2 H3] Hs. split; simpl; try done. apply (free_list_ext (km_mem s)); [done|]. intros p a Hp Ha. by apply (Hs p).
Qed.
Lemma kmem_inv_perm s free live live' : live ≡ₚ live' → kmem_inv kend s free live → kmem_inv kend s free live'.
Proof. intros Hp [H1 H2 H3]. split; [done|intros p; rewrite <- Hp; apply H2|by rewrite <- Hp]. Qed.
Lemma other_page s free live p q a : kmem_inv kend s free live → p ∈ free ++ live → q ∈ free ++ live → p ≠ q →
  in_page p a → ¬ in_page q a.
Proof.
  intros [_ H _] Hp Hq Hne Ha Hq'. apply Hne. eapply in_page_disjoint; [apply H|apply H|exact Ha|exact Hq']; done.
Qed.
Lemma free_not_live s free live p q : kmem_inv kend s free live → p ∈ free → q ∈ live → p ≠ q.
Proof. intros [_ _ Hnd] Hp Hq ->. apply NoDup_app in Hnd as (_ & H & _). by apply (H q). Qed.

(** ** walkpgdir *)
Context (valid : Z → Prop) (holds : list Z → K → Prop) `{!LockLaws valid holds}.
Variable L : list Z.
Hypothesis Hvalid : valid kmem_lock.
Hypothesis HL : kmem_lock ∉ L.

Lemma walk_found (k : K) s pgdir T va t alloc : pgtable (km_mem s) pgdir T → is_uint va → T !! PDX va = Some t →
  walkpgdir pgdir va alloc (k, s) = Ret (t + 4 * PTX va) (k, s).
Proof.
  intros [_ Hpde Htab _] Hva Ht. unfold walkpgdir. next. pose proof (Hpde _ (proj1 (idx_range va Hva))) as H. rewrite Ht in H. rewrite H.
  destruct (Htab _ _ Ht) as [_ Hp]. destruct (pte_page t 7 Hp) as (-> & _ & ->); [done|].
  rewrite land_P_add; [done|]. rewrite (V2P_page t Hp). apply page_range in Hp. Z.to_euclidean_division_equations. lia.
Qed.

Lemma walk_none (k : K) s pgdir T va : pgtable (km_mem s) pgdir T → is_uint va → T !! PDX va = None →
  walkpgdir pgdir va false (k, s) = Ret 0 (k, s).
Proof.
  intros [_ Hpde Htab _] Hva Ht. unfold walkpgdir. next. pose proof (Hpde _ (proj1 (idx_range va Hva))) as H. rewrite Ht in H. by rewrite H.
Qed.

Lemma walk_full k s pgdir T va live : kmem_inv kend s [] live → pgtable (km_mem s) pgdir T → is_uint va → T !! PDX va = None →
  holds L k → ∃ k', walkpgdir pgdir va true (k, s) = Ret 0 (k', s) ∧ holds L k'.
Proof.
  intros Hinv [_ Hpde Htab _] Hva Ht Hk. unfold walkpgdir. next. pose proof (Hpde _ (proj1 (idx_range va Hva))) as H. rewrite Ht in H. rewrite H.
  destruct (kalloc_ok kend valid holds L k s [] live Hinv Hk Hvalid HL) as (k1 & Hk1 & E1). cbn [negb Z.eqb]. run E1. by exists k1.
Qed.

(** A new page table, all of its entries clear, from the free list. *)
Lemma walk_alloc k s pgdir T va p free live :
  kmem_inv kend s (p :: free) live → pgtable (km_mem s) pgdir T → pgdir ∈ live → (∀ i t, T !! i = Some t → t ∈ live) → is_uint va →
  T !! PDX va = None → holds L k →
  ∃ k' s', walkpgdir pgdir va true (k, s) = Ret (p + 4 * PTX va) (k', s') ∧ holds L k' ∧
    kmem_inv kend s' free (p :: live) ∧ pgtable (km_mem s') pgdir (<[PDX va := p]> T) ∧ km_use_lock s' = km_use_lock s ∧
    (∀ i, 0 ≤ i < 1024 → rd32 (km_mem s') (p + 4 * i) = 0) ∧
    (∀ q, q ∈ free ++ live → q ≠ pgdir → same_page (km_mem s) (km_mem s') q).
Proof.
  intros Hinv Hpt Hdir HT Hva Ht Hk. pose proof Hpt as [Hd Hpde Htab Hnd]. pose proof (idx_range va Hva) as [Hix _].
  unfold walkpgdir. next. pose proof (Hpde _ Hix) as H. rewrite Ht in H. rewrite H. cbn [negb Z.eqb].
  destruct (kalloc_ok kend valid holds L k s _ live Hinv Hk Hvalid HL) as (k1 & Hk1 & E1 & Hinv1). run E1.
  assert (page_ok kend p) as Hp by (apply (ki_pages _ _ _ _ Hinv); left). pose proof (page_range p Hp) as Hpr.
  rewrite (proj2 (Z.eqb_neq p 0)) by lia. do 2 next. rewrite (pde_word p Hp).
  set (s1 := set_freelist _ s) in *. set (m1 := memset p 0 PGSIZE (km_mem s1)).
  set (m2 := wr32 (pgdir + 4 * PDX va) (V2P p + 7) m1).
  assert (p ≠ pgdir) as Hpd by (eapply free_not_live; [exact Hinv|left|done]).
  assert (∀ q, q ∈ free ++ p :: live → q ≠ p → same_page (km_mem s) m1 q) as Hm1.
  { intros q Hq Hne a Ha. unfold m1. rewrite memset_ok by done. rewrite decide_False; [done|].
    intros Hpa. apply (other_page _ _ _ q p a Hinv1 Hq ltac:(listin) Hne Ha). unfold in_page, PGSIZE in *. lia. }
  assert (∀ q, q ∈ free ++ p :: live → q ≠ pgdir → same_page m1 m2 q) as Hm2.
  { intros q Hq Hne a Ha. unfold m2. rewrite rd8_wr32, decide_False; [done|].
    intros Hpa. apply (other_page _ _ _ q pgdir a Hinv1 Hq ltac:(listin) Hne Ha). unfold in_page. lia. }
  assert (∀ q, q ∈ free ++ live → q ≠ pgdir → same_page (km_mem s) m2 q) as Hsame.
  { intros q Hq Hne. assert (q ≠ p).
    { intros ->. pose proof (ki_nodup _ _ _ _ Hinv) as Hn. apply NoDup_cons in Hn as [Hn _]. done. }
    eapply same_page_trans; [apply Hm1|apply Hm2]; [listin|done|listin|done]. }
  eexists k1, _. split; [reflexivity|]. split; [done|]. split; [|split; [|split; [done|split]]].
  - apply (kmem_inv_store s1 free (p :: live) m2 Hinv1). intros q Hq. apply (Hsame q); [listin|].
    eapply free_not_live; [exact Hinv|by right|done].
  - change (km_mem _) with m2. split; [done| | |].
    + intros i Hi. destruct (decide (i = PDX va)) as [->|Hne].
      * rewrite lookup_insert_eq. unfold m2. rewrite rd32_wr32. apply uint_small. rewrite (V2P_page p Hp). unfold is_uint. lia.
      * rewrite lookup_insert_ne by done. unfold m2. rewrite rd32_wr32_ne by lia.
        rewrite (same_page_rd32 (km_mem s) m1 pgdir i); [by apply Hpde|apply Hm1; [listin|done]|done].
    + intros i t. destruct (decide (i = PDX va)) as [->|Hne]; [rewrite lookup_insert_eq; by intros [= <-]|].
      rewrite lookup_insert_ne by done. apply Htab.
    + change (NoDup (pt_pages pgdir (<[PDX va := p]> T))). rewrite pt_pages_insert by done. apply NoDup_cons. split; [|done].
      intros [->|Hin]%elem_of_cons; [done|]. apply list_elem_of_fmap in Hin as ([i t] & -> & Hin). apply elem_of_map_to_list in Hin.
      eapply (free_not_live _ _ _ t t Hinv); [left|by eapply HT|done].
  - intros i Hi. change (km_mem _) with m2. rewrite (same_page_rd32 m1 m2 p i); [|apply Hm2; [listin|done]|done].
    unfold m1, rd32. rewrite !memset_ok by done. unfold PGSIZE. rewrite !decide_True by lia. done.
  - exact Hsame.
Qed.

(** Writing the entry of an address changes it for its page only. *)
Lemma pte_write m pgdir T va t v : pgtable m pgdir T → is_uint va → T !! PDX va = Some t → is_uint v →
  pgtable (wr32 (t + 4 * PTX va) v m) pgdir T ∧
  (∀ va', is_uint va' → lookup_pte (wr32 (t + 4 * PTX va) v m) pgdir va' =
    if decide (va' / 4096 = va / 4096) then v else lookup_pte m pgdir va') ∧
  (∀ q, page_ok kend q → q ≠ t → same_page m (wr32 (t + 4 * PTX va) v m) q).
Proof.
  intros Hpt Hva Ht Hv. pose proof (idx_range va Hva) as [_ Hix]. pose proof (pt_tab _ _ _ Hpt _ _ Ht) as [_ Hpg].
  assert (∀ q, page_ok kend q → q ≠ t → same_page m (wr32 (t + 4 * PTX va) v m) q) as Hs.
  { intros q Hq Hne a Ha. rewrite rd8_wr32, decide_False; [done|]. intros Hr. apply Hne.
    eapply in_page_disjoint; [apply Hq|apply Hpg|exact Ha|]. unfold in_page in *. lia. }
  assert (pgtable (wr32 (t + 4 * PTX va) v m) pgdir T) as Hpt'.
  { eapply pgtable_same; [done|]. apply Hs; [apply Hpt|]. intros <-. by eapply tab_ne_dir. }
  split; [done|]. split; [|done]. intros va' Hva'. rewrite !(lookup_tab _ _ T) by done.
  pose proof (same_entry va va' Hva Hva') as Hse. pose proof (idx_range va' Hva') as [_ Hix'].
  destruct (decide (PDX va = PDX va')) as [Ed|Ed].
  - rewrite <- Ed, Ht. destruct (decide (PTX va = PTX va')) as [Et|Et].
    + rewrite <- Et, rd32_wr32, decide_True by (symmetry; by apply Hse). by apply uint_small.
    + rewrite rd32_wr32_ne by lia. rewrite decide_False; [done|]. intros E. symmetry in E. apply Hse in E. tauto.
  - rewrite decide_False by (intros E; symmetry in E; apply Hse in E; tauto).
    destruct (T !! PDX va') as [t'|] eqn:Et'; [|done]. apply same_page_rd32; [|done].
    apply Hs; [by apply (pt_tab _ _ _ Hpt (PDX va'))|]. intros ->. apply Ed. by eapply tab_inj.
Qed.

(** ** mappages *)
(** The page table [T] of [pgdir], all of its pages allocated. *)
Record vm_inv (s : kmem) (free live : list Z) (pgdir : Z) (T : gmap Z Z) : Prop := {
  vi_kmem : kmem_inv kend s free live;
  vi_pt : pgtable (km_mem s) pgdir T;
  vi_own p : p ∈ pt_pages pgdir T → p ∈ live }.

(** The pages [l] have been taken from the free list for new page tables, and
    nothing but page tables has changed. *)
Record grown (s : kmem) (free live : list Z) (pgdir : Z) (T : gmap Z Z) (s' : kmem) (l free' : list Z) (T' : gmap Z Z) : Prop := {
  gr_free : free = l ++ free';
  gr_inv : vm_inv s' free' (l ++ live) pgdir T';
  gr_pages : pt_pages pgdir T' ≡ₚ l ++ pt_pages pgdir T;
  gr_lock : km_use_lock s' = km_use_lock s;
  gr_same q : q ∈ free' ++ live → q ∉ pt_pages pgdir T → same_page (km_mem s) (km_mem s') q }.

Lemma grown_refl s free live pgdir T : vm_inv s free live pgdir T → grown s free live pgdir T s [] free T.
Proof. intros H. by split. Qed.

Lemma grown_trans s free live pgdir T s1 l1 free1 T1 s2 l2 free2 T2 : kmem_inv kend s free live →
  grown s free live pgdir T s1 l1 free1 T1 → grown s1 free1 (l1 ++ live) pgdir T1 s2 l2 free2 T2 →
  grown s free live pgdir T s2 (l1 ++ l2) free2 T2.
Proof.
  intros Hinv [A1 A2 A3 A4 A5] [B1 B2 B3 B4 B5].
  assert (l2 ++ l1 ++ live ≡ₚ (l1 ++ l2) ++ live) as Hp by (rewrite (Permutation_app_comm l1 l2), app_assoc; done).
  split.
  - by rewrite A1, B1, app_assoc.
  - destruct B2 as [C1 C2 C3]. split; [by eapply kmem_inv_perm|done|]. intros p. rewrite <- Hp. apply C3.
  - rewrite B3, A3, !app_assoc. by rewrite (Permutation_app_comm l2 l1).
  - congruence.
  - intros q Hq Hn. eapply same_page_trans; [apply A5; [rewrite B1; listin|done]|]. apply B5; [listin|].
    rewrite A3. intros [Hq'|Hq']%elem_of_app; [|done]. apply elem_of_app in Hq as [Hq|Hq].
    + eapply (free_not_live s1 free1 (l1 ++ live) q q); [apply A2|rewrite B1; listin|listin|done].
    + eapply (free_not_live s free live q q); [done|rewrite A1; listin|done|done].
Qed.

Lemma pt_pages_old pgdir T T' (l : list Z) i t : pt_pages pgdir T' ≡ₚ l ++ pt_pages pgdir T → T !! i = Some t → t ∈ pt_pages pgdir T'.
Proof. intros -> H. apply elem_of_app. right. by eapply pt_pages_tab. Qed.

Lemma walk_true k s free live pgdir T va : vm_inv s free live pgdir T → is_uint va → holds L k →
  ∃ k' s' r l free' T', walkpgdir pgdir va true (k, s) = Ret r (k', s') ∧ holds L k' ∧ grown s free live pgdir T s' l free' T' ∧
    (∀ va', is_uint va' → lookup_pte (km_mem s') pgdir va' = lookup_pte (km_mem s) pgdir va') ∧
    (r = 0 ∧ free' = [] ∨ ∃ t, T' !! PDX va = Some t ∧ r = t + 4 * PTX va).
Proof.
  intros Hvi Hva Hk. pose proof Hvi as [Hinv Hpt Hown]. destruct (T !! PDX va) as [t|] eqn:Ht.
  { rewrite (walk_found k s pgdir T va t true) by done. exists k, s, (t + 4 * PTX va), [], free, T.
    split; [done|]. split; [done|]. split; [by apply grown_refl|]. split; [done|]. right. eauto. }
  destruct free as [|p free].
  { destruct (walk_full k s pgdir T va live Hinv Hpt Hva Ht Hk) as (k' & E & Hk'). exists k', s, 0, [], [], T.
    split; [done|]. split; [done|]. split; [by apply grown_refl|]. split; [done|]. by left. }
  destruct (walk_alloc k s pgdir T va p free live Hinv Hpt) as (k' & s' & E & Hk' & Hinv' & Hpt' & Hu & Hz & Hs); try done.
  { apply Hown. left. } { intros i t Hi. by apply Hown, (pt_pages_tab pgdir T i). }
  exists k', s', (p + 4 * PTX va), [p], free, (<[PDX va := p]> T). split; [done|]. split; [done|].
  assert (p ∉ live) as Hpn. { intros Hin. eapply (free_not_live _ _ _ p p Hinv); [left|done|done]. }
  split; [split; [done| | |done|]|split].
  - split; [done|done|]. intros q. rewrite pt_pages_insert by done. intros [->|Hq]%elem_of_cons; [left|right; by apply Hown].
  - apply pt_pages_insert. done.
  - intros q Hq Hn. apply Hs; [done|]. intros ->. apply Hn. left.
  - intros va' Hva'. rewrite (lookup_tab _ _ _ va' Hpt' Hva'), (lookup_tab _ _ _ va' Hpt Hva').
    destruct (decide (PDX va = PDX va')) as [Ed|Ed].
    + rewrite <- Ed, lookup_insert_eq, Ht. apply Hz. by apply idx_range.
    + rewrite lookup_insert_ne by done. destruct (T !! PDX va') as [t|] eqn:Et; [|done].
      apply same_page_rd32; [|by apply idx_range]. assert (t ∈ live) by (by apply Hown, (pt_pages_tab pgdir T (PDX va'))).
      apply Hs; [listin|]. exact (tab_ne_dir _ _ _ _ _ Hpt Et).
  - right. exists p. by rewrite lookup_insert_eq.
Qed.

(** The entries of [c] pages from [a] on, mapped to those from [pa] on with flags [f]. *)
Definition mapped (m m' : mem) (pgdir a c pa f : Z) : Prop := ∀ va, is_uint va →
  lookup_pte m' pgdir va = if decide (a ≤ va < a + 4096 * c) then pa + 4096 * ((va - a) / 4096) + f else lookup_pte m pgdir va.

Lemma mapped_0 m pgdir a pa f : mapped m m pgdir a 0 pa f.
Proof. intros va Hva. rewrite decide_False by lia. done. Qed.
Lemma mapped_cons m m1 m2 pgdir a c pa f : a mod 4096 = 0 → 0 ≤ c →
  mapped m m1 pgdir a 1 pa f → mapped m1 m2 pgdir (a + 4096) c (pa + 4096) f → mapped m m2 pgdir a (c + 1) pa f.
Proof.
  intros Ha Hc H1 H2 va Hva. rewrite (H2 va Hva), (H1 va Hva). repeat case_decide; try lia.
  - f_equal. replace (va - a) with (va - (a + 4096) + 1 * 4096) by lia. rewrite Z.div_add by lia. lia.
Qed.

Lemma store_pte (k : K) s free live pgdir T va t v : vm_inv s free live pgdir T → is_uint va → T !! PDX va = Some t → is_uint v →
  ∃ s', store (t + 4 * PTX va) v (k, s) = Ret () (k, s') ∧ grown s free live pgdir T s' [] free T ∧
    ∀ va', is_uint va' → lookup_pte (km_mem s') pgdir va' = if decide (va' / 4096 = va / 4096) then v else lookup_pte (km_mem s) pgdir va'.
Proof.
  intros [Hinv Hpt Hown] Hva Ht Hv. destruct (pte_write (km_mem s) pgdir T va t v Hpt Hva Ht Hv) as (Hpt' & Hlk & Hs).
  eexists. split; [reflexivity|]. assert (t ∈ pt_pages pgdir T) as Htin by (by eapply pt_pages_tab).
  assert (∀ q, q ∈ free ++ live → q ∉ pt_pages pgdir T → same_page (km_mem s) (wr32 (t + 4 * PTX va) v (km_mem s)) q) as Hsame.
  { intros q Hq Hn. apply Hs; [by apply (ki_pages _ _ _ _ Hinv)|]. by intros ->. }
  split; [|done]. split; [done| |done|done|done]. split; [|done|done]. apply (kmem_inv_store s free live _ Hinv).
  intros q Hq. apply (Hsame q); [listin|]. intros Hin%Hown. by eapply (free_not_live _ _ _ q q Hinv).
Qed.

Lemma perm_bound perm : 0 ≤ perm < 4096 → 0 ≤ Z.lor perm PTE_P < 4096.
Proof.
  intros Hperm. assert (0 ≤ Z.lor perm PTE_P) by (apply Z.lor_nonneg; unfold PTE_P; lia). split; [done|].
  destruct (Z.eq_dec (Z.lor perm PTE_P) 0) as [->|]; [lia|]. change 4096 with (2 ^ 12). apply Z.log2_lt_pow2; [lia|].
  rewrite Z.log2_lor by (unfold PTE_P; lia). apply Z.max_lub_lt; [|done].
  destruct (Z.eq_dec perm 0) as [->|]; [done|]. apply Z.log2_lt_pow2; lia.
Qed.

(** One turn of the loop. *)
Lemma map_page k s free live pgdir T a last pa perm fuel :
  vm_inv s free live pgdir T → holds L k → a mod 4096 = 0 → is_uint a → pa mod 4096 = 0 → is_uint pa → 0 ≤ perm < 4096 →
  Z.land (lookup_pte (km_mem s) pgdir a) PTE_P = 0 →
  ∃ k' s' l free' T', holds L k' ∧ grown s free live pgdir T s' l free' T' ∧
    (mappages_loop (S fuel) pgdir a last pa perm (k, s) = Ret (-1) (k', s') ∧ free' = [] ∧
       mapped (km_mem s) (km_mem s') pgdir a 0 pa (Z.lor perm PTE_P) ∨
     mappages_loop (S fuel) pgdir a last pa perm (k, s) =
       (if a =? last then ret 0 else mappages_loop fuel pgdir (uint (a + PGSIZE)) last (uint (pa + PGSIZE)) perm) (k', s') ∧
       mapped (km_mem s) (km_mem s') pgdir a 1 pa (Z.lor perm PTE_P)).
Proof.
  intros Hvi Hk Ha Hua Hpa Hupa Hperm Hun. cbn [mappages_loop].
  destruct (walk_true k s free live pgdir T a Hvi Hua Hk) as (k1 & s1 & r1 & l1 & free1 & T1 & E1 & Hk1 & G1 & Hlk1 & Hr1). run E1.
  destruct Hr1 as [[-> ->]|(t & Ht & ->)].
  { exists k1, s1, l1, [], T1. split; [done|]. split; [done|]. left. split; [done|]. split; [done|].
    intros va Hva. rewrite decide_False by lia. by apply Hlk1. }
  assert (vm_inv s1 free1 (l1 ++ live) pgdir T1) as Hvi1 by apply G1.
  assert (page_ok kend t) as Hpt by (by apply (pt_tab _ _ _ (vi_pt _ _ _ _ _ Hvi1) (PDX a))).
  pose proof (idx_range a Hua) as [_ Hix]. rewrite (proj2 (Z.eqb_neq (t + 4 * PTX a) 0)) by (apply page_range in Hpt; lia). next.
  assert (rd32 (km_mem s1) (t + 4 * PTX a) = lookup_pte (km_mem s) pgdir a) as ->.
  { rewrite <- Hlk1, (lookup_tab _ _ T1) by (done || apply Hvi1). by rewrite Ht. }
  rewrite Hun. cbn [negb Z.eqb]. pose proof (perm_bound perm Hperm) as Hpf. unfold is_uint in Hupa, Hua.
  rewrite <- Z.lor_assoc, (lor_pte pa (Z.lor perm PTE_P)) by (done || lia).
  destruct (store_pte k1 s1 free1 (l1 ++ live) pgdir T1 a t (pa + Z.lor perm PTE_P)) as (s2 & E2 & G2 & Hlk2);
    [done|done|done|unfold is_uint; Z.to_euclidean_division_equations; lia|]. run E2.
  pose proof (grown_trans _ _ _ _ _ _ _ _ _ _ _ _ _ (vi_kmem _ _ _ _ _ Hvi) G1 G2) as G. rewrite app_nil_r in G.
  exists k1, s2, l1, free1, T1. split; [done|]. split; [done|]. right. split; [done|].
  intros va Hva. rewrite Hlk2, Hlk1 by done.
  assert (va / 4096 = a / 4096 ↔ a ≤ va < a + 4096 * 1) as Hiff by (unfold is_uint in *; Z.to_euclidean_division_equations; lia).
  repeat case_decide; try tauto. rewrite (Z.div_small (va - a) 4096) by lia. lia.
Qed.

Lemma mappages_loop_ok n : ∀ fuel k s free live pgdir T a pa perm,
  vm_inv s free live pgdir T → holds L k → (n < fuel)%nat →
  a mod 4096 = 0 → 0 ≤ a → a + 4096 * Z.of_nat n < 4294967296 →
  pa mod 4096 = 0 → 0 ≤ pa → pa + 4096 * Z.of_nat n < 4294967296 → 0 ≤ perm < 4096 →
  (∀ j, 0 ≤ j ≤ Z.of_nat n → Z.land (lookup_pte (km_mem s) pgdir (a + 4096 * j)) PTE_P = 0) →
  ∃ k' s' r l free' T' c, mappages_loop fuel pgdir a (a + 4096 * Z.of_nat n) pa perm (k, s) = Ret r (k', s') ∧ holds L k' ∧
    grown s free live pgdir T s' l free' T' ∧ mapped (km_mem s) (km_mem s') pgdir a c pa (Z.lor perm PTE_P) ∧
    (r = 0 ∧ c = Z.of_nat n + 1 ∨ r = -1 ∧ free' = [] ∧ 0 ≤ c ≤ Z.of_nat n).
Proof.
  induction n as [|n IH]; intros fuel k s free live pgdir T a pa perm Hvi Hk Hf Ha Ha0 Hend Hpa Hpa0 Hpend Hperm Hun;
    (destruct fuel as [|fuel]; [lia|]); set (last := a + 4096 * _);
    assert (Z.land (lookup_pte (km_mem s) pgdir a) PTE_P = 0) as Hun0 by (replace a with (a + 4096 * 0) by lia; apply Hun; lia);
    destruct (map_page k s free live pgdir T a last pa perm fuel Hvi Hk Ha) as (k1 & s1 & l1 & free1 & T1 & Hk1 & G1 & [(E1 & -> & M1)|[E1 M1]]);
    try done; try (unfold is_uint; lia); rewrite E1.
  1,3: exists k1, s1, (-1), l1, [], T1, 0; split_and!; try done; right; split_and!; done || lia.
  - unfold last. rewrite Z.mul_0_r, Z.add_0_r, Z.eqb_refl. exists k1, s1, 0, l1, free1, T1, 1. split_and!; try done. left. lia.
  - rewrite (proj2 (Z.eqb_neq a last)) by lia. unfold PGSIZE. rewrite !uint_small by (unfold is_uint; lia).
    destruct (IH fuel k1 s1 free1 (l1 ++ live) pgdir T1 (a + 4096) (pa + 4096) perm) as (k3 & s3 & r & l3 & free3 & T3 & c & E3 & Hk3 & G3 & M3 & Hr3);
      try done; try lia; [apply G1|Z.to_euclidean_division_equations; lia..| |].
    { intros j Hj. rewrite (M1 (a + 4096 + 4096 * j)) by (unfold is_uint; lia). rewrite decide_False by lia.
      replace (a + 4096 + 4096 * j) with (a + 4096 * (j + 1)) by lia. apply Hun. lia. }
    replace (a + 4096 + 4096 * Z.of_nat n) with last in E3 by (unfold last; lia).
    exists k3, s3, r, (l1 ++ l3), free3, T3, (c + 1). split; [done|]. split; [done|]. split.
    { eapply grown_trans; [apply Hvi|exact G1|exact G3]. }
    split; [|destruct Hr3 as [[-> ->]|(-> & -> & Hc)]; [left; lia|right; split_and!; done || lia]].
    eapply mapped_cons; [done| |exact M1|exact M3]. lia.
Qed.

Lemma mappages_ok k s free live pgdir T va size pa perm :
  vm_inv s free live pgdir T → holds L k → is_uint va → 0 < size → va + size ≤ 4294967296 →
  pa mod 4096 = 0 → 0 ≤ pa → pa + va mod 4096 + size ≤ 4294967296 → 0 ≤ perm < 4096 →
  let a := PGROUNDDOWN va in let n := (va + size - 1) / 4096 - va / 4096 + 1 in
  (∀ j, 0 ≤ j < n → Z.land (lookup_pte (km_mem s) pgdir (a + 4096 * j)) PTE_P = 0) →
  ∃ k' s' r l free' T' c, mappages pgdir va size pa perm (k, s) = Ret r (k', s') ∧ holds L k' ∧
    grown s free live pgdir T s' l free' T' ∧ mapped (km_mem s) (km_mem s') pgdir a c pa (Z.lor perm PTE_P) ∧
    (r = 0 ∧ c = n ∨ r = -1 ∧ free' = [] ∧ 0 ≤ c < n).
Proof.
  intros Hvi Hk Hva Hsz Hend Hpa Hpa0 Hpend Hperm a n Hun. unfold mappages, is_uint in *. rewrite (uint_small (va + size - 1)) by (unfold is_uint; lia).
  assert (PGROUNDDOWN (va + size - 1) = a + 4096 * Z.of_nat (Z.to_nat (n - 1))) as ->.
  { unfold a, n. rewrite !PGROUNDDOWN_eq. Z.to_euclidean_division_equations. lia. }
  assert (a mod 4096 = 0 ∧ 0 ≤ a ≤ va ∧ va < a + 4096 ∧ 1 ≤ n ∧ a + 4096 * (n - 1) ≤ va + size - 1) as (A1 & A2 & A3 & A4 & A5).
  { unfold a, n. rewrite PGROUNDDOWN_eq. Z.to_euclidean_division_equations. lia. }
  assert (va mod 4096 = va - a) as Hmod by (unfold a; rewrite PGROUNDDOWN_eq; lia).
  destruct (mappages_loop_ok (Z.to_nat (n - 1)) (S (Z.to_nat (uint (a + 4096 * Z.of_nat (Z.to_nat (n - 1)) - a) / PGSIZE))) k s free live pgdir T a pa perm Hvi Hk)
    as (k' & s' & r & l & free' & T' & c & E & Hk' & G & Mp & Hr); try done; try lia.
  { rewrite uint_small by (unfold is_uint; lia). unfold PGSIZE. Z.to_euclidean_division_equations. lia. }
  { intros j Hj. apply Hun. lia. }
  exists k', s', r, l, free', T', c. split_and!; try done. destruct Hr as [[-> ->]|(-> & -> & Hc)]; [left; lia|right; split_and!; done || lia].
Qed.
(** [mappages] enters the mappings it is asked for and no others.  For any
    range of unmapped pages it maps each page to the corresponding physical
    page with the given permissions, whatever page tables it has to allocate;
    it fails only when the free list is used up, with a first part of the range
    mapped; every other address keeps its entry, every page that is not one of
    the page tables keeps its contents, and the pages taken are exactly the new
    page tables. *)
Theorem mappages_correct k s free live pgdir T va size pa perm :
  vm_inv s free live pgdir T → holds L k → is_uint va → 0 < size → va + size ≤ 4294967296 →
  pa mod 4096 = 0 → 0 ≤ pa → pa + va mod 4096 + size ≤ 4294967296 → 0 ≤ perm < 4096 →
  let a := PGROUNDDOWN va in let n := (va + size - 1) / 4096 - va / 4096 + 1 in
  (∀ j, 0 ≤ j < n → Z.land (lookup_pte (km_mem s) pgdir (a + 4096 * j)) PTE_P = 0) →
  ∃ k' s' r l free' T' c, mappages pgdir va size pa perm (k, s) = Ret r (k', s') ∧ holds L k' ∧
    grown s free live pgdir T s' l free' T' ∧ mapped (km_mem s) (km_mem s') pgdir a c pa (Z.lor perm PTE_P) ∧
    (r = 0 ∧ c = n ∨ r = -1 ∧ free' = [] ∧ 0 ≤ c < n).
Proof. apply mappages_ok. Qed.
End vm.

(** ** Example: an empty directory and two free pages *)
Definition ex_end : Z := 2148532224.
Definition ex_page (i : Z) : Z := 2149580800 + 4096 * i.
Definition ex_empty : kmem := Kmem true (ex_page 1) (wr32 (ex_page 1) (ex_page 2) ∅).

Lemma rd32_empty a : rd32 ∅ a = 0.
Proof. reflexivity. Qed.
Lemma ex_pages (l : list Z) : Forall (λ p, p mod 4096 = 0 ∧ 2148532224 ≤ p < 2382364672) l → ∀ p, p ∈ l → page_ok ex_end p.
Proof. rewrite Forall_forall. intros H p Hp. destruct (H p Hp) as [H1 H2]. split; [done|]. unfold ex_end, KERNBASE, PHYSTOP. lia. Qed.
Lemma ex_empty_inv : vm_inv ex_end ex_empty [ex_page 1; ex_page 2] [ex_page 0] (ex_page 0) ∅.
Proof.
  split.
  - split; [by vm_compute| |apply (bool_decide_unpack _); by vm_compute].
    apply ex_pages. repeat constructor; unfold ex_page; done || lia.
  - apply empty_pgtable; [apply (ex_pages [ex_page 0]); [repeat constructor; unfold ex_page; done || lia|left]|].
    intros i Hi. cbn [km_mem ex_empty]. rewrite rd32_wr32_ne by (unfold ex_page; lia). apply rd32_empty.
  - intros p. unfold pt_pages. by rewrite map_to_list_empty.
Qed.

