(* ===== verification/Uvm.v ===== *)
(** * User address spaces (vm.c)

    [aspace] says that a page directory with its page tables and user pages is
    an address space of its own: which user page is mapped where, and that all
    of these pages are allocated and used once.  [deallocuvm], [freevm],
    [allocuvm], [setupkvm] and [copyuvm] are shown to keep address spaces apart
    and to give back every page they take. *)
From stdpp Require Import base list gmap strings.
From Stdlib Require Import ZArith Lia Permutation.
From S2P Require Import Prelude Mmu Spinlock CpuLocks CString Proc RunQueue Sched Kernel Kalloc Vm.
#[local] Open Scope Z_scope.
#[local] Opaque memset memmove wr32.

Section uvm.
Context {K : Type} `{!LockOps K}.
Variables kend kdata : Z.
Context (valid : Z → Prop) (holds : list Z → K → Prop) `{!LockLaws valid holds}.
Variable L : list Z.
Hypothesis Hvalid : valid kmem_lock.
Hypothesis HL : kmem_lock ∉ L.
Hypothesis Hkend : KERNBASE < kend.

(** The user pages: by page number, the page and the flags of its entry. *)
Definition upages (U : gmap Z (Z * Z)) : list Z := (map_to_list U).*2.*1.
Definition owned (pgdir : Z) (T : gmap Z Z) (U : gmap Z (Z * Z)) : list Z := pt_pages pgdir T ++ upages U.

Record aspace (s : kmem) (free live : list Z) (pgdir : Z) (T : gmap Z Z) (U : gmap Z (Z * Z)) : Prop := {
  as_vm : vm_inv kend s free live pgdir T;
  as_nodup : NoDup (owned pgdir T U);
  as_live p : p ∈ upages U → p ∈ live;
  as_dom vp x : U !! vp = Some x → 0 ≤ vp < 524288;
  as_user vp : 0 ≤ vp < 524288 → match U !! vp with
    | Some (p, f) => 0 ≤ f < 4096 ∧ Z.land f PTE_P ≠ 0 ∧ lookup_pte (km_mem s) pgdir (4096 * vp) = V2P p + f
    | None => Z.land (lookup_pte (km_mem s) pgdir (4096 * vp)) PTE_P = 0
    end }.

Lemma upages_in U vp p f : U !! vp = Some (p, f) → p ∈ upages U.
Proof.
  intros H. apply list_elem_of_fmap. exists (p, f). split; [done|]. apply list_elem_of_fmap. exists (vp, (p, f)).
  split; [done|]. by apply elem_of_map_to_list.
Qed.
Lemma upages_elem U p : p ∈ upages U → ∃ vp f, U !! vp = Some (p, f).
Proof.
  intros H. apply list_elem_of_fmap in H as ([p' f] & -> & H). apply list_elem_of_fmap in H as ([vp x] & E & H). simpl in E. subst x.
  exists vp, f. by apply elem_of_map_to_list.
Qed.
Lemma upages_insert U vp p f : U !! vp = None → upages (<[vp := (p, f)]> U) ≡ₚ p :: upages U.
Proof. intros H. unfold upages. by rewrite map_to_list_insert. Qed.
Lemma upages_delete U vp p f : U !! vp = Some (p, f) → upages U ≡ₚ p :: upages (delete vp U).
Proof. intros H. rewrite <- (insert_delete_id U vp (p, f) H) at 1. apply upages_insert, lookup_delete_eq. Qed.

Lemma owned_empty pgdir T : owned pgdir T ∅ = pt_pages pgdir T.
Proof. unfold owned, upages. rewrite map_to_list_empty. apply app_nil_r. Qed.

Lemma as_page s free live pgdir T U vp p f : aspace s free live pgdir T U → U !! vp = Some (p, f) → page_ok kend p ∧ p ∈ live ∧ p ∉ pt_pages pgdir T.
Proof.
  intros [Hvm Hnd Hlive _ _] Hp. apply upages_in in Hp. pose proof (Hlive p Hp) as Hl. split; [|split; [done|]].
  - apply (ki_pages _ _ _ _ (vi_kmem _ _ _ _ _ _ Hvm)). listin.
  - intros Hin. apply NoDup_app in Hnd as (_ & Hd & _). by apply (Hd p).
Qed.

(** A mapped page has a page table. *)
Lemma as_tab s free live pgdir T U vp p f : aspace s free live pgdir T U → U !! vp = Some (p, f) → ∃ t, T !! PDX (4096 * vp) = Some t.
Proof.
  intros Has Hp. destruct (as_page _ _ _ _ _ _ _ _ _ Has Hp) as (Hpok & _ & _). pose proof Has as [[_ Hpg _] _ _ Hdom Huser].
  pose proof (Hdom _ _ Hp) as Hvp. pose proof (Huser vp Hvp) as Hu. rewrite Hp in Hu. destruct Hu as (Hf & _ & Hlk).
  rewrite (lookup_tab kend _ _ T) in Hlk by (done || unfold is_uint; lia). destruct (T !! PDX (4096 * vp)) as [t|]; [by exists t|].
  rewrite (V2P_page kend p Hpok) in Hlk. destruct Hpok as (_ & ? & _). unfold KERNBASE in *. lia.
Qed.

(** An address space is left alone by what does not touch its page tables. *)
Lemma aspace_frame s free live pgdir T U s' free' live' : aspace s free live pgdir T U → kmem_inv kend s' free' live' →
  (∀ p, p ∈ owned pgdir T U → p ∈ live') → (∀ p, p ∈ pt_pages pgdir T → same_page (km_mem s) (km_mem s') p) →
  aspace s' free' live' pgdir T U.
Proof.
  intros [[Hk Hpt Hown] Hnd Hlive Hdom Huser] Hk' Hin Hsame. split; [|done| |done|].
  - split; [done|eapply pgtable_same; [done|apply Hsame; left]|]. intros p Hp. apply Hin. unfold owned. listin.
  - intros p Hp. apply Hin. unfold owned. listin.
  - intros vp Hvp. rewrite (lookup_same kend (km_mem s) (km_mem s') pgdir T) by (done || unfold is_uint; lia). by apply Huser.
Qed.

(** A zeroed page is an empty page directory. *)
Lemma empty_dir s free live p : kmem_inv kend s free live → p ∈ live → (∀ i, 0 ≤ i < 1024 → rd32 (km_mem s) (p + 4 * i) = 0) →
  aspace s free live p ∅ ∅ ∧ ∀ va, is_uint va → lookup_pte (km_mem s) p va = 0.
Proof.
  intros Hinv Hp Hz. assert (pgtable kend (km_mem s) p ∅) as Hpg by (apply empty_pgtable; [apply (ki_pages _ _ _ _ Hinv); listin|done]).
  assert (∀ va, is_uint va → lookup_pte (km_mem s) p va = 0) as Hlk by (intros va Hva; by rewrite (lookup_tab kend _ _ ∅)).
  split; [|done]. split.
  - split; [done|done|]. unfold pt_pages. rewrite map_to_list_empty. by intros q ->%list_elem_of_singleton.
  - rewrite owned_empty. unfold pt_pages. rewrite map_to_list_empty. apply NoDup_singleton.
  - unfold upages. rewrite map_to_list_empty. intros q Hq. by apply not_elem_of_nil in Hq.
  - done.
  - intros vp Hvp. rewrite lookup_empty, Hlk by (unfold is_uint; lia). done.
Qed.

(** ** Taking pages out *)
(** The pages that stay when those of [a, b) go. *)
Definition keep (a b : Z) (U : gmap Z (Z * Z)) : gmap Z (Z * Z) := filter (λ x, ¬ (a ≤ 4096 * x.1 < b)) U.
Lemma lookup_keep a b U vp : keep a b U !! vp = if decide (a ≤ 4096 * vp < b) then None else U !! vp.
Proof.
  unfold keep. rewrite map_lookup_filter. destruct (U !! vp) as [x|]; simpl; [|by case_decide].
  case_guard; case_decide; simpl in *; done || lia.
Qed.
Lemma keep_none a b U : b ≤ a → keep a b U = U.
Proof. intros H. apply map_eq. intros vp. rewrite lookup_keep, decide_False by lia. done. Qed.
(** Nothing is mapped between [a] and [a']. *)
Lemma keep_skip a a' b U : a ≤ a' → (∀ vp, a ≤ 4096 * vp < a' → U !! vp = None) → keep a b U = keep a' b U.
Proof.
  intros Ha H. apply map_eq. intros vp. rewrite !lookup_keep. repeat case_decide; try done; try lia. symmetry. apply H. lia.
Qed.
Lemma keep_delete b U vp : 4096 * vp < b → keep (4096 * vp) b U = keep (4096 * vp + 4096) b (delete vp U).
Proof.
  intros Hb. apply map_eq. intros vp'. rewrite !lookup_keep. destruct (decide (vp' = vp)) as [->|Hne].
  - rewrite lookup_delete_eq. repeat case_decide; done || lia.
  - rewrite lookup_delete_ne by done. repeat case_decide; done || lia.
Qed.

(** Freeing the page at [4096 * vp] and clearing its entry. *)
Lemma unmap_page k s free live pgdir T U vp p f t :
  aspace s free live pgdir T U → holds L k → U !! vp = Some (p, f) → T !! PDX (4096 * vp) = Some t →
  ∃ k' s' live', (kfree kend p ;;; store (t + 4 * PTX (4096 * vp)) 0) (k, s) = Ret () (k', s') ∧ holds L k' ∧
    live ≡ₚ p :: live' ∧ aspace s' (p :: free) live' pgdir T (delete vp U) ∧ km_use_lock s' = km_use_lock s ∧
    (∀ q, q ∈ live' → q ∉ pt_pages pgdir T → same_page (km_mem s) (km_mem s') q) ∧
    (∀ va, is_uint va → va / 4096 ≠ vp → lookup_pte (km_mem s') pgdir va = lookup_pte (km_mem s) pgdir va).
Proof.
  intros Has Hk Hp Ht. pose proof (as_page _ _ _ _ _ _ _ _ _ Has Hp) as (Hpok & Hpl & Hpt). pose proof Has as [[Hinv Hpg Hown] Hnd Hlive Hdom Huser].
  pose proof (Hdom _ _ Hp) as Hvp. apply list_elem_of_split in Hpl as (l1 & l2 & Hl). set (live' := l1 ++ l2).
  assert (live ≡ₚ p :: live') as Hperm by (rewrite Hl; unfold live'; by rewrite Permutation_middle).
  destruct (kfree_ok kend valid holds L k s p free live live' Hinv Hperm Hk Hvalid HL) as (k1 & s1 & E1 & Hk1 & Hinv1 & Hu1 & Hs1). run E1.
  assert (∀ q, q ∈ live' → q ≠ p ∧ same_page (km_mem s) (km_mem s1) q) as Hsame1.
  { intros q Hq. assert (q ≠ p) as Hne.
    { intros ->. pose proof (ki_nodup _ _ _ _ Hinv) as Hn. rewrite Hperm in Hn. apply NoDup_app in Hn as (_ & _ & Hn).
      apply NoDup_cons in Hn as [Hn _]. done. }
    split; [done|]. intros a Ha. apply Hs1. apply (other_page kend s free live q p a Hinv); [rewrite Hperm; listin|rewrite Hperm; listin|done|done]. }
  assert (∀ q, q ∈ pt_pages pgdir T → q ∈ live') as Hown'.
  { intros q Hq. pose proof (Hown q Hq) as Hq'. rewrite Hperm in Hq'. apply elem_of_cons in Hq' as [->|?]; done. }
  assert (vm_inv kend s1 (p :: free) live' pgdir T) as Hvm1.
  { split; [done|eapply pgtable_same; [done|apply Hsame1, Hown'; left]|done]. }
  assert (is_uint (4096 * vp)) as Hva by (unfold is_uint; lia).
  destruct (store_pte kend k1 s1 (p :: free) live' pgdir T (4096 * vp) t 0 Hvm1 Hva Ht) as (s2 & E2 & G2 & Hlk2); [done|]. rewrite E2.
  assert (∀ va, is_uint va → lookup_pte (km_mem s1) pgdir va = lookup_pte (km_mem s) pgdir va) as Hlk1.
  { intros va Hva'. apply (lookup_same kend _ _ pgdir T); [done| |done]. intros q Hq. by apply Hsame1, Hown'. }
  pose proof (upages_delete U vp p f Hp) as Hup.
  exists k1, s2, live'. split; [done|]. split; [done|]. split; [done|]. split; [|split; [by rewrite (gr_lock _ _ _ _ _ _ _ _ _ _ G2)|split]].
  - split; [apply G2| | | |].
    + unfold owned in *. rewrite Hup, <- Permutation_middle in Hnd. by apply NoDup_cons in Hnd as [_ ?].
    + intros q Hq. assert (q ∈ live) as Hq' by (apply Hlive; rewrite Hup; listin). rewrite Hperm in Hq'.
      apply elem_of_cons in Hq' as [->|?]; [|done]. unfold owned in Hnd. rewrite Hup, <- Permutation_middle in Hnd.
      apply NoDup_cons in Hnd as [Hn _]. exfalso. apply Hn. listin.
    + intros vp' x. destruct (decide (vp = vp')) as [<-|Hne]; [by rewrite lookup_delete_eq|]. rewrite lookup_delete_ne by done. apply Hdom.
    + intros vp' Hvp'. rewrite Hlk2, Hlk1 by (unfold is_uint; lia). rewrite (Z.mul_comm 4096 vp'), (Z.mul_comm 4096 vp), !Z.div_mul by lia.
      rewrite (Z.mul_comm vp' 4096). destruct (decide (vp' = vp)) as [->|Hne]; [by rewrite lookup_delete_eq|].
      rewrite lookup_delete_ne by done. by apply Huser.
  - intros q Hq Hn. eapply same_page_trans; [by apply Hsame1|]. apply (gr_same _ _ _ _ _ _ _ _ _ _ G2); [listin|done].
  - intros va Hva' Hne. rewrite Hlk2 by done. rewrite (Z.mul_comm 4096 vp), Z.div_mul, decide_False by (done || lia). by apply Hlk1.
Qed.
(** What is left of an address space after its pages [fr] have been freed. *)
Record shrunk (s : kmem) (free live : list Z) (pgdir : Z) (T : gmap Z Z) (U : gmap Z (Z * Z))
    (s' : kmem) (fr free' live' : list Z) (U' : gmap Z (Z * Z)) : Prop := {
  sh_free : free' ≡ₚ fr ++ free;
  sh_live : live ≡ₚ fr ++ live';
  sh_pages : upages U ≡ₚ fr ++ upages U';
  sh_as : aspace s' free' live' pgdir T U';
  sh_lock : km_use_lock s' = km_use_lock s;
  sh_same q : q ∈ live' → q ∉ pt_pages pgdir T → same_page (km_mem s) (km_mem s') q;
  sh_kern va : KERNBASE ≤ va < 4294967296 → lookup_pte (km_mem s') pgdir va = lookup_pte (km_mem s) pgdir va }.

Lemma shrunk_refl s free live pgdir T U : aspace s free live pgdir T U → shrunk s free live pgdir T U s [] free live U.
Proof. intros H. by split. Qed.
Lemma shrunk_trans s free live pgdir T U s1 fr1 free1 live1 U1 s2 fr2 free2 live2 U2 :
  shrunk s free live pgdir T U s1 fr1 free1 live1 U1 → shrunk s1 free1 live1 pgdir T U1 s2 fr2 free2 live2 U2 →
  shrunk s free live pgdir T U s2 (fr1 ++ fr2) free2 live2 U2.
Proof.
  intros [A1 A2 A3 A4 A5 A6 A7] [B1 B2 B3 B4 B5 B6 B7]. split; try done.
  - rewrite B1, A1, !app_assoc. by rewrite (Permutation_app_comm fr2 fr1).
  - by rewrite A2, B2, app_assoc.
  - by rewrite A3, B3, app_assoc.
  - congruence.
  - intros q Hq Hn. eapply same_page_trans; [apply A6; [rewrite B2; listin|done]|by apply B6].
  - intros va Hva. by rewrite B7, A7.
Qed.

Lemma PGADDR_dir d : 0 ≤ d < 512 → PGADDR (d + 1) 0 0 = 4194304 * (d + 1).
Proof.
  intros H. unfold PGADDR, PDXSHIFT, PTXSHIFT. rewrite Z.shiftl_0_l, !Z.lor_0_r, Z.shiftl_mul_pow2 by lia.
  change (2 ^ 22) with 4194304. rewrite uint_small by (unfold is_uint; lia). lia.
Qed.

Lemma dealloc_loop_ok pgdir T oldsz : oldsz ≤ KERNBASE → ∀ fuel k s free live U vp,
  aspace s free live pgdir T U → holds L k → 0 ≤ vp → (oldsz - 4096 * vp + 4095) / 4096 ≤ Z.of_nat fuel →
  ∃ k' s' fr free' live', deallocuvm_loop kend fuel pgdir (4096 * vp) oldsz (k, s) = Ret () (k', s') ∧ holds L k' ∧
    shrunk s free live pgdir T U s' fr free' live' (keep (4096 * vp) oldsz U).
Proof.
  intros Hold. unfold KERNBASE in Hold.
  induction fuel as [|fuel IH]; intros k s free live U vp Has Hk Hvp Hf; cbn [deallocuvm_loop];
    destruct (Z.leb_spec oldsz (4096 * vp)) as [Hle|Hlt].
  1,3: exists k, s, [], free, live; rewrite keep_none by done; split_and!; [done|done|by apply shrunk_refl].
  { exfalso. Z.to_euclidean_division_equations. lia. }
  assert (is_uint (4096 * vp)) as Hua by (unfold is_uint; lia). pose proof (idx_range _ Hua) as [_ Hix].
  assert ((oldsz - 4096 * (vp + 1) + 4095) / 4096 ≤ Z.of_nat fuel) as Hf' by (Z.to_euclidean_division_equations; lia).
  pose proof Has as [[Hinv Hpg Hown] Hnd Hlive Hdom Huser]. destruct (T !! PDX (4096 * vp)) as [t|] eqn:Ht.
  - run (walk_found kend k s pgdir T (4096 * vp) t false Hpg Hua Ht).
    assert (page_ok kend t) as Hpt by (by apply (pt_tab _ _ _ _ Hpg (PDX (4096 * vp)))).
    rewrite (proj2 (Z.eqb_neq _ 0)) by (apply page_range in Hpt; lia). next.
    assert (rd32 (km_mem s) (t + 4 * PTX (4096 * vp)) = lookup_pte (km_mem s) pgdir (4096 * vp)) as ->
      by (rewrite (lookup_tab kend _ _ T) by done; by rewrite Ht).
    pose proof (Huser vp ltac:(lia)) as Hu. unfold PGSIZE. rewrite uint_small by (unfold is_uint; lia).
    replace (4096 * vp + 4096) with (4096 * (vp + 1)) by lia. destruct (U !! vp) as [[p f]|] eqn:Ep.
    + destruct Hu as (Hf1 & Hf2 & ->). destruct (as_page _ _ _ _ _ _ _ _ _ Has Ep) as (Hpok & _ & _).
      destruct (pte_page kend p f Hpok Hf1) as (-> & _ & EP). rewrite land_P_add.
      2: { rewrite (V2P_page kend p Hpok). apply page_range in Hpok. Z.to_euclidean_division_equations. lia. }
      rewrite (proj2 (Z.eqb_neq _ _) Hf2). cbn [negb]. rewrite (proj2 (Z.eqb_neq (V2P p) 0)).
      2: { rewrite (V2P_page kend p Hpok). destruct Hpok as (_ & ? & _). unfold KERNBASE in *. lia. }
      rewrite EP. destruct (unmap_page k s free live pgdir T U vp p f t Has Hk Ep Ht) as (k1 & s1 & live1 & E1 & Hk1 & Hl1 & Has1 & Hu1 & Hs1 & Hk1').
      run E1. destruct (IH k1 s1 (p :: free) live1 (delete vp U) (vp + 1) Has1 Hk1) as (k2 & s2 & fr & free2 & live2 & E2 & Hk2 & Hsh); [lia|done|].
      exists k2, s2, ([p] ++ fr), free2, live2. split; [done|]. split; [done|]. rewrite keep_delete by done.
      replace (4096 * vp + 4096) with (4096 * (vp + 1)) by lia. eapply shrunk_trans; [|exact Hsh].
      split; try done; [by apply upages_delete with f|]. intros va Hva. apply Hk1'; [unfold is_uint, KERNBASE in *; lia|].
      unfold KERNBASE in Hva. Z.to_euclidean_division_equations. lia.
    + rewrite Hu. cbn [negb Z.eqb]. next.
      destruct (IH k s free live U (vp + 1) Has Hk) as (k2 & s2 & fr & free2 & live2 & E2 & Hk2 & Hsh); [lia|done|].
      exists k2, s2, fr, free2, live2. split; [done|]. split; [done|]. rewrite (keep_skip (4096 * vp) (4096 * (vp + 1))); [done|lia|].
      intros vp' Hvp'. replace vp' with vp by lia. done.
  - run (walk_none kend k s pgdir T (4096 * vp) Hpg Hua Ht). cbn [Z.eqb].
    assert (PDX (4096 * vp) = vp / 1024) as Epdx by (rewrite PDX_eq, uint_small by done; Z.to_euclidean_division_equations; lia).
    rewrite Epdx, PGADDR_dir by (Z.to_euclidean_division_equations; lia). unfold PGSIZE.
    rewrite !uint_small by (unfold is_uint; rewrite ?uint_small by (unfold is_uint; Z.to_euclidean_division_equations; lia); Z.to_euclidean_division_equations; lia).
    replace (4194304 * (vp / 1024 + 1) - 4096 + 4096) with (4096 * (1024 * (vp / 1024 + 1))) by lia.
    destruct (IH k s free live U (1024 * (vp / 1024 + 1)) Has Hk) as (k2 & s2 & fr & free2 & live2 & E2 & Hk2 & Hsh);
      [Z.to_euclidean_division_equations; lia..|].
    exists k2, s2, fr, free2, live2. split; [done|]. split; [done|]. rewrite (keep_skip (4096 * vp) (4096 * (1024 * (vp / 1024 + 1)))); [done|Z.to_euclidean_division_equations; lia|].
    intros vp' Hvp'. destruct (U !! vp') as [[p f]|] eqn:Ep; [|done]. exfalso. pose proof (Hdom _ _ Ep) as Hd.
    destruct (as_tab _ _ _ _ _ _ _ _ _ Has Ep) as [t Ht'].
    assert (PDX (4096 * vp') = PDX (4096 * vp)) as E by (rewrite Epdx, PDX_eq, uint_small by (unfold is_uint; lia); Z.to_euclidean_division_equations; lia).
    by rewrite E, Ht in Ht'.
Qed.

Lemma deallocuvm_ok k s free live pgdir T U oldsz newsz :
  aspace s free live pgdir T U → holds L k → 0 ≤ newsz < oldsz → oldsz ≤ KERNBASE →
  ∃ k' s' fr free' live', deallocuvm kend pgdir oldsz newsz (k, s) = Ret newsz (k', s') ∧ holds L k' ∧
    shrunk s free live pgdir T U s' fr free' live' (keep (PGROUNDUP newsz) oldsz U).
Proof.
  intros Has Hk Hn Ho. unfold deallocuvm. rewrite (proj2 (Z.leb_gt _ _)) by lia. unfold KERNBASE in Ho.
  destruct (PGROUNDUP_spec newsz) as [Hr1 Hr2]; [lia|lia|].
  assert (PGROUNDUP newsz = 4096 * (PGROUNDUP newsz / 4096)) as Er by (Z.to_euclidean_division_equations; lia).
  rewrite Er. destruct (dealloc_loop_ok pgdir T oldsz Ho (Z.to_nat ((oldsz - 4096 * (PGROUNDUP newsz / 4096) + PGSIZE - 1) / PGSIZE)) k s free live U
    (PGROUNDUP newsz / 4096) Has Hk) as (k' & s' & fr & free' & live' & E & Hk' & Hsh).
  - Z.to_euclidean_division_equations; lia.
  - unfold PGSIZE. replace (oldsz - 4096 * (PGROUNDUP newsz / 4096) + 4096 - 1) with (oldsz - 4096 * (PGROUNDUP newsz / 4096) + 4095) by lia. lia.
  - run E. by exists k', s', fr, free', live'.
Qed.
(** ** Giving an address space back *)
(** The page tables from directory index [i] on. *)
Definition tabs_from (i : Z) (T : gmap Z Z) : gmap Z Z := filter (λ x, i ≤ x.1) T.
Lemma lookup_tabs_from i T j : tabs_from i T !! j = if decide (i ≤ j) then T !! j else None.
Proof.
  unfold tabs_from. case_decide as Hd; destruct (T !! j) as [x|] eqn:E.
  - by apply map_lookup_filter_Some_2.
  - apply map_lookup_filter_None_2. by left.
  - apply map_lookup_filter_None_2. by right.
  - apply map_lookup_filter_None_2. by left.
Qed.
Lemma tabs_from_some i T t : T !! i = Some t → (map_to_list (tabs_from i T)).*2 ≡ₚ t :: (map_to_list (tabs_from (i + 1) T)).*2.
Proof.
  intros H. assert (tabs_from i T = <[i := t]> (tabs_from (i + 1) T)) as ->.
  { apply map_eq. intros j. destruct (decide (i = j)) as [<-|Hne]; [rewrite lookup_insert_eq|rewrite lookup_insert_ne by done];
      rewrite !lookup_tabs_from; repeat case_decide; done || lia. }
  rewrite map_to_list_insert; [done|]. rewrite lookup_tabs_from, decide_False by lia. done.
Qed.
Lemma tabs_from_none i T : T !! i = None → tabs_from i T = tabs_from (i + 1) T.
Proof.
  intros H. apply map_eq. intros j. rewrite !lookup_tabs_from. destruct (decide (i = j)) as [<-|]; repeat case_decide; done || lia.
Qed.

(** Pages [fr] have been freed and nothing else has changed. *)
Record freed (s : kmem) (free live : list Z) (s' : kmem) (fr free' live' : list Z) : Prop := {
  fd_inv : kmem_inv kend s' free' live';
  fd_free : free' ≡ₚ fr ++ free;
  fd_live : live ≡ₚ fr ++ live';
  fd_lock : km_use_lock s' = km_use_lock s;
  fd_same q : q ∈ live' → same_page (km_mem s) (km_mem s') q }.

Lemma kfree_freed k s free live p live' : kmem_inv kend s free live → live ≡ₚ p :: live' → holds L k →
  ∃ k' s', kfree kend p (k, s) = Ret () (k', s') ∧ holds L k' ∧ freed s free live s' [p] (p :: free) live'.
Proof.
  intros Hinv Hp Hk. destruct (kfree_ok kend valid holds L k s p free live live' Hinv Hp Hk Hvalid HL) as (k1 & s1 & E1 & Hk1 & Hinv1 & Hu1 & Hs1).
  exists k1, s1. split; [done|]. split; [done|]. split; try done. intros q Hq a Ha. apply Hs1.
  apply (other_page kend s free live q p a Hinv); [rewrite Hp; listin|rewrite Hp; listin| |done].
  intros ->. pose proof (ki_nodup _ _ _ _ Hinv) as Hn. rewrite Hp in Hn. apply NoDup_app in Hn as (_ & _ & Hn). by apply NoDup_cons in Hn as [Hn _].
Qed.
Lemma freed_refl s free live : kmem_inv kend s free live → freed s free live s [] free live.
Proof. intros H. by split. Qed.
Lemma freed_trans s free live s1 fr1 free1 live1 s2 fr2 free2 live2 :
  freed s free live s1 fr1 free1 live1 → freed s1 free1 live1 s2 fr2 free2 live2 → freed s free live s2 (fr1 ++ fr2) free2 live2.
Proof.
  intros [A1 A2 A3 A4 A5] [B1 B2 B3 B4 B5]. split; [done| | |congruence|].
  - rewrite B2, A2, !app_assoc. by rewrite (Permutation_app_comm fr2 fr1).
  - by rewrite A3, B3, app_assoc.
  - intros q Hq. eapply same_page_trans; [apply A5; rewrite B3; listin|by apply B5].
Qed.

Lemma freevm_loop_ok pgdir T m0 : pgtable kend m0 pgdir T → ∀ cnt i k s free live live',
  kmem_inv kend s free live → holds L k → 0 ≤ i → i + Z.of_nat cnt = 1024 →
  live ≡ₚ (map_to_list (tabs_from i T)).*2 ++ live' → pgdir ∈ live' → same_page m0 (km_mem s) pgdir →
  ∃ k' s' fr free', freevm_loop kend cnt pgdir i (k, s) = Ret () (k', s') ∧ holds L k' ∧
    fr ≡ₚ (map_to_list (tabs_from i T)).*2 ∧ freed s free live s' fr free' live'.
Proof.
  intros Hpg. induction cnt as [|cnt IH]; intros i k s free live live' Hinv Hk Hi Hc Hlive Hdir Hsame; cbn [freevm_loop].
  - assert (tabs_from i T = ∅) as E0.
    { apply map_eq. intros j. rewrite lookup_tabs_from, lookup_empty. case_decide; [|done].
      destruct (T !! j) eqn:E; [|done]. apply (pt_tab _ _ _ _ Hpg) in E. lia. }
    rewrite E0, map_to_list_empty in *. exists k, s, [], free. split; [done|]. split; [done|]. split; [done|].
    simpl in Hlive. destruct (freed_refl s free live Hinv) as [H1 H2 H3 H4 H5]. split; try done. by eapply kmem_inv_perm.
  - next. rewrite (same_page_rd32 m0) by (done || lia). pose proof (pt_pde _ _ _ _ Hpg i ltac:(lia)) as Hpde.
    destruct (T !! i) as [t|] eqn:Ht.
    + destruct (pt_tab _ _ _ _ Hpg i t Ht) as [_ Htok]. rewrite Hpde. destruct (pte_page kend t 7 Htok) as (-> & _ & ->); [done|].
      rewrite land_P_add by (rewrite (V2P_page kend t Htok); apply page_range in Htok; Z.to_euclidean_division_equations; lia).
      cbn [negb Z.eqb Z.land PTE_P Pos.land]. rewrite tabs_from_some in Hlive by done.
      destruct (kfree_freed k s free live t ((map_to_list (tabs_from (i + 1) T)).*2 ++ live') Hinv Hlive Hk) as (k1 & s1 & E1 & Hk1 & F1). run E1.
      destruct (IH (i + 1) k1 s1 (t :: free) _ live' (fd_inv _ _ _ _ _ _ _ F1) Hk1) as (k2 & s2 & fr & free2 & E2 & Hk2 & Hfr & F2); try done; try lia.
      { eapply same_page_trans; [done|]. apply (fd_same _ _ _ _ _ _ _ F1). listin. }
      exists k2, s2, ([t] ++ fr), free2. split; [done|]. split; [done|]. split; [rewrite (tabs_from_some i T t Ht), Hfr; reflexivity|]. by eapply freed_trans.
    + rewrite Hpde. cbn [negb Z.eqb]. next. rewrite (tabs_from_none i T Ht) in *.
      destruct (IH (i + 1) k s free live live' Hinv Hk) as (k2 & s2 & fr & free2 & E2 & Hk2 & Hfr & F2); try done; try lia.
      exists k2, s2, fr, free2. by split_and!.
Qed.

(** The page tables and the directory go back; no user page is mapped. *)
Lemma freevm_tables k s free live live' pgdir T m0 : kmem_inv kend s free live → holds L k → pgtable kend m0 pgdir T →
  live ≡ₚ pt_pages pgdir T ++ live' → same_page m0 (km_mem s) pgdir →
  ∃ k' s' fr free', (freevm_loop kend (Z.to_nat NPDENTRIES) pgdir 0 ;;; kfree kend pgdir) (k, s) = Ret () (k', s') ∧ holds L k' ∧
    fr ≡ₚ pt_pages pgdir T ∧ freed s free live s' fr free' live'.
Proof.
  intros Hinv Hk Hpg Hlive Hsame.
  assert (tabs_from 0 T = T) as E0.
  { apply map_eq. intros j. rewrite lookup_tabs_from. case_decide; [done|]. destruct (T !! j) eqn:E; [|done].
    apply (pt_tab _ _ _ _ Hpg) in E. lia. }
  destruct (freevm_loop_ok pgdir T m0 Hpg 1024 0 k s free live (pgdir :: live') Hinv Hk) as (k1 & s1 & fr & free1 & E1 & Hk1 & Hfr & F1); try done; try lia.
  { rewrite E0, Hlive. unfold pt_pages. simpl. by rewrite <- Permutation_middle. } { left. }
  run E1. destruct (kfree_freed k1 s1 free1 (pgdir :: live') pgdir live' (fd_inv _ _ _ _ _ _ _ F1)) as (k2 & s2 & E2 & Hk2 & F2); [done|done|].
  rewrite E2. exists k2, s2, (fr ++ [pgdir]), (pgdir :: free1). split; [done|]. split; [done|]. split.
  - rewrite Hfr, E0. unfold pt_pages. by rewrite <- Permutation_cons_append.
  - by eapply freed_trans.
Qed.

Lemma freevm_ok k s free live pgdir T U dodealloc : aspace s free live pgdir T U → holds L k → (dodealloc = true ∨ U = ∅) →
  ∃ k' s' fr free' live', freevm kend pgdir dodealloc (k, s) = Ret () (k', s') ∧ holds L k' ∧
    fr ≡ₚ owned pgdir T U ∧ freed s free live s' fr free' live'.
Proof.
  intros Has Hk HU. pose proof Has as [[Hinv Hpg Hown] Hnd Hlive Hdom Huser].
  unfold freevm. rewrite (proj2 (Z.eqb_neq pgdir 0)) by (pose proof (page_range kend pgdir (pt_dir _ _ _ _ Hpg)); lia).
  assert (∃ k1 s1 fr1 free1 live1, (if dodealloc then deallocuvm kend pgdir KERNBASE 0 ;;; ret () else ret ()) (k, s) = Ret () (k1, s1) ∧
    holds L k1 ∧ shrunk s free live pgdir T U s1 fr1 free1 live1 ∅) as (k1 & s1 & fr1 & free1 & live1 & E1 & Hk1 & Hsh).
  { destruct dodealloc.
    - destruct (deallocuvm_ok k s free live pgdir T U KERNBASE 0 Has Hk) as (k1 & s1 & fr1 & free1 & live1 & E1 & Hk1 & Hsh); [done|done|].
      run E1. exists k1, s1, fr1, free1, live1. split; [done|]. split; [done|]. replace (keep _ _ U) with (∅ : gmap Z (Z * Z)) in Hsh; [done|].
      apply map_eq. intros vp. rewrite lookup_keep, lookup_empty. case_decide as Hd; [done|]. destruct (U !! vp) eqn:E; [|done].
      apply Hdom in E. exfalso. apply Hd. change (PGROUNDUP 0) with 0. unfold KERNBASE. lia.
    - destruct HU as [?| ->]; [done|]. exists k, s, [], free, live. split; [done|]. split; [done|]. by apply shrunk_refl. }
  run E1. destruct Hsh as [S1 S2 S3 S4 S5 S6 S7]. pose proof S4 as [[Hinv1 Hpg1 Hown1] Hnd1 _ _ _].
  assert (∃ live2, live1 ≡ₚ pt_pages pgdir T ++ live2) as [live2 Hl2].
  { apply (submseteq_Permutation (pt_pages pgdir T) live1). apply NoDup_submseteq; [by apply NoDup_app in Hnd1 as (? & _)|]. intros p. apply Hown1. }
  destruct (freevm_tables k1 s1 free1 live1 live2 pgdir T (km_mem s1) Hinv1 Hk1 Hpg1 Hl2) as (k2 & s2 & fr2 & free2 & E2 & Hk2 & Hfr2 & F2); [done|].
  rewrite E2. exists k2, s2, (fr1 ++ fr2), free2, live2. split; [done|]. split; [done|].
  unfold upages in S3. rewrite map_to_list_empty, app_nil_r in S3. split.
  { unfold owned, upages. rewrite Hfr2, S3. apply Permutation_app_comm. }
  destruct F2 as [G1 G2 G3 G4 G5]. split; [done| | |congruence|].
  - rewrite G2, S1, !app_assoc. by rewrite (Permutation_app_comm fr2 fr1).
  - by rewrite S2, G3, app_assoc.
  - intros q Hq. eapply same_page_trans; [|by apply G5]. apply S6; [rewrite G3; listin|].
    intros Hin. pose proof (ki_nodup _ _ _ _ Hinv1) as Hn. rewrite G3, Hfr2 in Hn. apply NoDup_app in Hn as (_ & _ & Hn).
    apply NoDup_app in Hn as (_ & Hn & _). by apply (Hn q).
Qed.
(** ** Putting pages in *)
Lemma vm_page s free live p : kmem_inv kend s free live → p ∈ live → page_ok kend p.
Proof. intros H Hp. apply (ki_pages _ _ _ _ H). listin. Qed.

(** A page table that has grown serves the same user pages. *)
Lemma aspace_grown s free live pgdir T U s' l free' T' : aspace s free live pgdir T U → grown kend s free live pgdir T s' l free' T' →
  (∀ va, 0 ≤ va < KERNBASE → lookup_pte (km_mem s') pgdir va = lookup_pte (km_mem s) pgdir va) →
  aspace s' free' (l ++ live) pgdir T' U.
Proof.
  intros [[Hinv Hpg Hown] Hnd Hlive Hdom Huser] [G1 G2 G3 G4 G5] Hlk. split; [done| | |done|].
  - unfold owned in *. rewrite G3, <- app_assoc. apply NoDup_app. split_and!; [| |done].
    + rewrite G1 in Hinv. pose proof (ki_nodup _ _ _ _ Hinv) as Hn. apply NoDup_app in Hn as (Hn & _ & _). by apply NoDup_app in Hn as (? & _ & _).
    + intros p Hp Hin. eapply (free_not_live kend _ _ _ p p Hinv); [rewrite G1; listin| |done].
      apply elem_of_app in Hin as [?|?]; [by apply Hown|by apply Hlive].
  - intros p Hp. apply elem_of_app. right. by apply Hlive.
  - intros vp Hvp. rewrite Hlk by (unfold KERNBASE; lia). by apply Huser.
Qed.

Lemma map_user k s free live pgdir T U vp p perm : aspace s free live pgdir T U → holds L k → 0 ≤ vp < 524288 → U !! vp = None →
  p ∈ live → p ∉ owned pgdir T U → 0 ≤ perm < 4096 →
  ∃ k' s' r l free' T', mappages pgdir (4096 * vp) PGSIZE (V2P p) perm (k, s) = Ret r (k', s') ∧ holds L k' ∧
    grown kend s free live pgdir T s' l free' T' ∧
    (∀ va, KERNBASE ≤ va < 4294967296 → lookup_pte (km_mem s') pgdir va = lookup_pte (km_mem s) pgdir va) ∧
    (r = 0 ∧ aspace s' free' (l ++ live) pgdir T' (<[vp := (p, Z.lor perm PTE_P)]> U) ∨
     r = -1 ∧ free' = [] ∧ aspace s' free' (l ++ live) pgdir T' U).
Proof.
  intros Has Hk Hvp HU Hpl Hpo Hperm. pose proof Has as [Hvm Hnd Hlive Hdom Huser].
  pose proof (vm_page s free live p (vi_kmem _ _ _ _ _ _ Hvm) Hpl) as Hpok. pose proof (page_range kend p Hpok) as Hpr.
  pose proof (V2P_page kend p Hpok) as Hv.
  assert ((4096 * vp + PGSIZE - 1) / 4096 - 4096 * vp / 4096 + 1 = 1) as En by (unfold PGSIZE; Z.to_euclidean_division_equations; lia).
  assert (PGROUNDDOWN (4096 * vp) = 4096 * vp) as Ea by (apply PGROUNDDOWN_id; Z.to_euclidean_division_equations; lia).
  destruct (mappages_ok kend valid holds L Hvalid HL k s free live pgdir T (4096 * vp) PGSIZE (V2P p) perm Hvm Hk)
    as (k' & s' & r & l & free' & T' & c & E & Hk' & G & Mp & Hr); try done.
  { unfold is_uint. lia. } { unfold PGSIZE. lia. } { rewrite Hv. Z.to_euclidean_division_equations. lia. } { lia. }
  { rewrite Hv, (Z.mul_comm 4096 vp), Z.mod_mul by lia. unfold PGSIZE. lia. }
  { rewrite En, Ea. intros j Hj. replace (4096 * vp + 4096 * j) with (4096 * vp) by lia. pose proof (Huser vp Hvp) as Hu. by rewrite HU in Hu. }
  rewrite En, Ea in *. exists k', s', r, l, free', T'. split; [done|]. split; [done|]. split; [done|]. split.
  { intros va Hva. rewrite (Mp va) by (unfold is_uint, KERNBASE in *; lia). rewrite decide_False; [done|]. unfold KERNBASE in Hva. lia. }
  destruct Hr as [[-> ->]|(-> & -> & Hc)]; [left|right]; (split; [done|]).
  - destruct Has as [[Hinv Hpg Hown] _ _ _ _]. pose proof (perm_bound perm Hperm) as Hpf. split; [apply G| | | |].
    + unfold owned in *. rewrite upages_insert, <- Permutation_middle by done. rewrite (gr_pages _ _ _ _ _ _ _ _ _ _ G), <- app_assoc.
      pose proof (ki_nodup _ _ _ _ Hinv) as Hn. rewrite (gr_free _ _ _ _ _ _ _ _ _ _ G) in Hn, Hinv. apply NoDup_cons. split.
      * intros [Hp|Hp]%elem_of_app; [|done]. eapply (free_not_live kend _ _ _ p p Hinv); [listin|done|done].
      * apply NoDup_app. split_and!; [apply NoDup_app in Hn as (Hn & _ & _); by apply NoDup_app in Hn as (? & _ & _)| |done].
        intros q Hq Hin. eapply (free_not_live kend _ _ _ q q Hinv); [listin| |done].
        apply elem_of_app in Hin as [?|?]; [by apply Hown|by apply Hlive].
    + intros q. rewrite upages_insert by done. intros [->|Hq]%elem_of_cons; [listin|]. apply elem_of_app. right. by apply Hlive.
    + intros vp' x. destruct (decide (vp = vp')) as [<-|Hne]; [done|]. rewrite lookup_insert_ne by done. apply Hdom.
    + intros vp' Hvp'. rewrite (Mp (4096 * vp')) by (unfold is_uint; lia). destruct (decide (vp = vp')) as [<-|Hne].
      * rewrite lookup_insert_eq, decide_True, Z.sub_diag by lia. split; [done|]. split.
        -- unfold PTE_P. rewrite Z.land_comm, Z.land_lor_distr_r. change (Z.land 1 1) with 1. intros Hz. apply Z.lor_eq_0_iff in Hz. lia.
        -- change (0 / 4096) with 0. lia.
      * rewrite lookup_insert_ne by done. rewrite decide_False by lia. by apply Huser.
  - split; [done|]. eapply aspace_grown; [done|done|]. intros va Hva. rewrite (Mp va) by (unfold is_uint, KERNBASE in *; lia).
    rewrite decide_False by lia. done.
Qed.

(** A page from the free list, not yet part of the address space. *)
Lemma kalloc_aspace k s free live pgdir T U p : aspace s (p :: free) live pgdir T U → holds L k →
  ∃ k' s', kalloc (k, s) = Ret p (k', s') ∧ holds L k' ∧ aspace s' free (p :: live) pgdir T U ∧ km_mem s' = km_mem s ∧
    km_use_lock s' = km_use_lock s ∧ page_ok kend p ∧ p ∉ owned pgdir T U.
Proof.
  intros Has Hk. pose proof Has as [[Hinv Hpg Hown] Hnd Hlive Hdom Huser].
  destruct (kalloc_ok kend valid holds L k s _ live Hinv Hk Hvalid HL) as (k1 & Hk1 & E1 & Hinv1).
  exists k1, (set_freelist (rd32 (km_mem s) p) s). split; [done|]. split; [done|]. split; [|split_and!; try done].
  - apply (aspace_frame s (p :: free) live); [done|done| |done]. intros q [Hq|Hq]%elem_of_app; right; [by apply Hown|by apply Hlive].
  - apply (ki_pages _ _ _ _ Hinv). left.
  - intros [Hq|Hq]%elem_of_app; (eapply (free_not_live kend _ _ _ p p Hinv); [left| |done]); [by apply Hown|by apply Hlive].
Qed.

(** Filling a page that is not part of the address space. *)
Lemma fill_aspace s free live pgdir T U p (g : mem → mem) : aspace s free live pgdir T U → p ∈ live → p ∉ owned pgdir T U →
  (∀ a, ¬ in_page p a → rd8 (g (km_mem s)) a = rd8 (km_mem s) a) →
  aspace (upd_mem g s) free live pgdir T U ∧ ∀ q, q ∈ free ++ live → q ≠ p → same_page (km_mem s) (g (km_mem s)) q.
Proof.
  intros Has Hp Hn Hg. pose proof Has as [[Hinv Hpg Hown] Hnd Hlive Hdom Huser].
  assert (∀ q, q ∈ free ++ live → q ≠ p → same_page (km_mem s) (g (km_mem s)) q) as Hs.
  { intros q Hq Hne a Ha. apply Hg. apply (other_page kend s free live q p a Hinv); [done|listin|done|done]. }
  split; [|done]. apply (aspace_frame s free live); [done| | |].
  - apply (kmem_inv_store kend s free live (g (km_mem s)) Hinv). intros q Hq. apply Hs; [listin|]. intros ->.
    by eapply (free_not_live kend _ _ _ p p Hinv).
  - intros q [Hq|Hq]%elem_of_app; [by apply Hown|by apply Hlive].
  - intros q Hq. apply (Hs q); [apply Hown in Hq; listin|]. intros ->. apply Hn. unfold owned. listin.
Qed.
(** ** Growing *)
(** What an operation on one address space may do: the pages of others are left
    alone, and no page is lost. *)
Record evolved (s : kmem) (free live : list Z) (pgdir : Z) (T : gmap Z Z) (U : gmap Z (Z * Z))
    (s' : kmem) (free' live' : list Z) (T' : gmap Z Z) (U' : gmap Z (Z * Z)) : Prop := {
  ev_as : aspace s' free' live' pgdir T' U';
  ev_total : free' ++ live' ≡ₚ free ++ live;
  ev_rest rest : live ≡ₚ owned pgdir T U ++ rest → live' ≡ₚ owned pgdir T' U' ++ rest;
  ev_lock : km_use_lock s' = km_use_lock s;
  ev_tabs q : q ∈ live → q ∈ pt_pages pgdir T' → q ∈ pt_pages pgdir T;
  ev_same q : q ∈ live → q ∈ live' → q ∉ pt_pages pgdir T → same_page (km_mem s) (km_mem s') q;
  ev_kern va : KERNBASE ≤ va < 4294967296 → lookup_pte (km_mem s') pgdir va = lookup_pte (km_mem s) pgdir va }.

Lemma evolved_refl s free live pgdir T U : aspace s free live pgdir T U → evolved s free live pgdir T U s free live T U.
Proof. intros H. by split. Qed.
Lemma evolved_trans s free live pgdir T U s1 free1 live1 T1 U1 s2 free2 live2 T2 U2 :
  evolved s free live pgdir T U s1 free1 live1 T1 U1 → evolved s1 free1 live1 pgdir T1 U1 s2 free2 live2 T2 U2 →
  (∀ q, q ∈ live → q ∈ live1) → evolved s free live pgdir T U s2 free2 live2 T2 U2.
Proof.
  intros [A1 A2 A3 A4 A5 A6 A7] [B1 B2 B3 B4 B5 B6 B7] Hsub. split; [done|by rewrite B2| |congruence| | |].
  - intros rest Hr. by apply B3, A3.
  - intros q Hq Hq'. apply A5; [done|]. apply B5; [by apply Hsub|done].
  - intros q Hq Hq' Hn. eapply same_page_trans; [apply A6; [done|by apply Hsub|done]|]. apply B6; [by apply Hsub|done|].
    intros Hin. by apply Hn, A5.
  - intros va Hva. by rewrite B7, A7.
Qed.

(** A page that is allocated and not yet used is filled by [g] and mapped, or the
    free list is used up. *)
Lemma map_filled k s free live pgdir T U vp p perm (g : mem → mem) :
  aspace s free (p :: live) pgdir T U → holds L k → p ∉ owned pgdir T U → 0 ≤ vp < 524288 → U !! vp = None → 0 ≤ perm < 4096 →
  (∀ m a, ¬ in_page p a → rd8 (g m) a = rd8 m a) →
  ∃ k2 s2 r l free' T', mappages pgdir (4096 * vp) PGSIZE (V2P p) perm (k, upd_mem g s) = Ret r (k2, s2) ∧ holds L k2 ∧
    free = l ++ free' ∧ pt_pages pgdir T' ≡ₚ l ++ pt_pages pgdir T ∧ km_use_lock s2 = km_use_lock s ∧
    (∀ q, q ∈ live → (q ∉ pt_pages pgdir T) → same_page (km_mem s) (km_mem s2) q) ∧
    (∀ va, KERNBASE ≤ va < 4294967296 → lookup_pte (km_mem s2) pgdir va = lookup_pte (km_mem s) pgdir va) ∧
    (r = 0 ∧ aspace s2 free' (l ++ p :: live) pgdir T' (<[vp := (p, Z.lor perm PTE_P)]> U) ∧
       (∀ a, in_page p a → rd8 (km_mem s2) a = rd8 (g (km_mem s)) a) ∨
     r = -1 ∧ free' = [] ∧ aspace s2 free' (l ++ p :: live) pgdir T' U).
Proof.
  intros Has Hk Hpo Hvp HU Hperm Hg. pose proof (ki_nodup _ _ _ _ (vi_kmem _ _ _ _ _ _ (as_vm _ _ _ _ _ _ Has))) as Hnd.
  destruct (fill_aspace s free (p :: live) pgdir T U p g Has) as [Has1 Hs1]; [left|done|apply Hg|].
  destruct (map_user k (upd_mem g s) free (p :: live) pgdir T U vp p perm Has1 Hk Hvp HU) as (k2 & s2 & r & l & free' & T' & E2 & Hk2 & G & Hkern & Hr);
    [left|done|done|]. exists k2, s2, r, l, free', T'.
  assert (∀ q, q ∈ live → q ≠ p) as Hlp. { intros q Hq ->. apply NoDup_app in Hnd as (_ & _ & Hnd). by apply NoDup_cons in Hnd as [? _]. }
  split; [done|]. split; [done|]. split; [apply G|]. split; [apply G|].
  split; [rewrite (gr_lock _ _ _ _ _ _ _ _ _ _ G); done|]. split; [|split].
  - intros q Hq Hn. eapply same_page_trans; [apply (Hs1 q); [listin|by apply Hlp]|].
    apply (gr_same _ _ _ _ _ _ _ _ _ _ G); [listin|done].
  - intros va Hva. rewrite Hkern by done. apply (lookup_same kend _ _ pgdir T); [apply Has| |unfold is_uint, KERNBASE in *; lia].
    intros q Hq. apply (Hs1 q); [apply Has in Hq; listin|]. intros ->. apply Hpo. unfold owned. listin.
  - destruct Hr as [[-> Hr]|Hr]; [left|by right]. split; [done|]. split; [done|]. intros a Ha.
    by rewrite (gr_same _ _ _ _ _ _ _ _ _ _ G p); [|listin|intros Hin; apply Hpo; unfold owned; listin|done].
Qed.

(** The page [p] is taken, filled by [g] and mapped, or the free list is used up. *)
Lemma install_page k s free live pgdir T U vp p perm (g : mem → mem) :
  aspace s (p :: free) live pgdir T U → holds L k → 0 ≤ vp < 524288 → U !! vp = None → 0 ≤ perm < 4096 →
  (∀ m a, ¬ in_page p a → rd8 (g m) a = rd8 m a) →
  ∃ k1 s1 k2 s2 r l free' T', kalloc (k, s) = Ret p (k1, s1) ∧
    mappages pgdir (4096 * vp) PGSIZE (V2P p) perm (k1, upd_mem g s1) = Ret r (k2, s2) ∧ holds L k2 ∧
    free = l ++ free' ∧ page_ok kend p ∧ (p ∉ owned pgdir T U) ∧ pt_pages pgdir T' ≡ₚ l ++ pt_pages pgdir T ∧ km_use_lock s2 = km_use_lock s ∧
    (∀ q, q ∈ live → (q ∉ pt_pages pgdir T) → same_page (km_mem s) (km_mem s2) q) ∧
    (∀ va, KERNBASE ≤ va < 4294967296 → lookup_pte (km_mem s2) pgdir va = lookup_pte (km_mem s) pgdir va) ∧
    (r = 0 ∧ aspace s2 free' (l ++ p :: live) pgdir T' (<[vp := (p, Z.lor perm PTE_P)]> U) ∧
       (∀ a, in_page p a → rd8 (km_mem s2) a = rd8 (g (km_mem s)) a) ∨
     r = -1 ∧ free' = [] ∧ aspace s2 free' (l ++ p :: live) pgdir T' U).
Proof.
  intros Has Hk Hvp HU Hperm Hg. destruct (kalloc_aspace k s free live pgdir T U p Has Hk) as (k1 & s1 & E1 & Hk1 & Has1 & Hm1 & Hu1 & Hpok & Hpo).
  destruct (map_filled k1 s1 free live pgdir T U vp p perm g Has1 Hk1 Hpo Hvp HU Hperm Hg) as (k2 & s2 & r & l & free' & T' & E2 & Hk2 & H1 & H2 & H3 & H4 & H5 & Hr).
  rewrite Hm1, Hu1 in *. exists k1, s1, k2, s2, r, l, free', T'. done.
Qed.

(** The zeroed page [p] is taken and mapped, or the free list is used up. *)
Lemma alloc_page k s free live pgdir T U vp p : aspace s (p :: free) live pgdir T U → holds L k → 0 ≤ vp < 524288 → U !! vp = None →
  ∃ k1 s1 k2 s2 r l free' T', kalloc (k, s) = Ret p (k1, s1) ∧
    mappages pgdir (4096 * vp) PGSIZE (V2P p) (Z.lor PTE_W PTE_U) (k1, upd_mem (memset p 0 PGSIZE) s1) = Ret r (k2, s2) ∧ holds L k2 ∧
    free = l ++ free' ∧ page_ok kend p ∧ (p ∉ owned pgdir T U) ∧ pt_pages pgdir T' ≡ₚ l ++ pt_pages pgdir T ∧ km_use_lock s2 = km_use_lock s ∧
    (∀ q, q ∈ live → (q ∉ pt_pages pgdir T) → same_page (km_mem s) (km_mem s2) q) ∧
    (∀ va, KERNBASE ≤ va < 4294967296 → lookup_pte (km_mem s2) pgdir va = lookup_pte (km_mem s) pgdir va) ∧
    (r = 0 ∧ aspace s2 free' (l ++ p :: live) pgdir T' (<[vp := (p, 7)]> U) ∧ (∀ a, in_page p a → rd8 (km_mem s2) a = 0) ∨
     r = -1 ∧ free' = [] ∧ aspace s2 free' (l ++ p :: live) pgdir T' U).
Proof.
  intros Has Hk Hvp HU.
  destruct (install_page k s free live pgdir T U vp p (Z.lor PTE_W PTE_U) (memset p 0 PGSIZE) Has Hk Hvp HU)
    as (k1 & s1 & k2 & s2 & r & l & free' & T' & E1 & E2 & Hk2 & H1 & H2 & H3 & H4 & H5 & H6 & H7 & Hr); [done| |].
  { intros m a Ha. rewrite memset_ok by done. rewrite decide_False; [done|unfold in_page, PGSIZE in *; lia]. }
  exists k1, s1, k2, s2, r, l, free', T'. do 10 (split; [done|]).
  destruct Hr as [(-> & Hr & Hz)|Hr]; [left|by right]. split; [done|]. split; [done|]. intros a Ha. rewrite Hz by done.
  rewrite memset_ok by done. rewrite decide_True by (unfold in_page, PGSIZE in *; lia). done.
Qed.

(** Success: all pages of the range are mapped, to fresh zeroed pages. *)
Record allocated (s : kmem) (free live : list Z) (pgdir : Z) (T : gmap Z Z) (U : gmap Z (Z * Z)) (a b : Z)
    (s' : kmem) (free' live' : list Z) (T' : gmap Z Z) (U' : gmap Z (Z * Z)) : Prop := {
  al_ev : evolved s free live pgdir T U s' free' live' T' U';
  al_live q : q ∈ live → q ∈ live';
  al_old vp x : ¬ (a ≤ 4096 * vp < b) → U' !! vp = Some x ↔ U !! vp = Some x;
  al_new vp : a ≤ 4096 * vp < b → ∃ p, U' !! vp = Some (p, 7) ∧ (p ∉ live) ∧ ∀ c, in_page p c → rd8 (km_mem s') c = 0 }.

Lemma alloc_loop_ok pgdir oldsz newsz : 0 ≤ oldsz ≤ newsz → newsz < KERNBASE → ∀ fuel k s free live T U vp,
  aspace s free live pgdir T U → holds L k → 0 ≤ vp → PGROUNDUP oldsz ≤ 4096 * vp →
  (∀ vp', 4096 * vp ≤ 4096 * vp' < newsz → U !! vp' = None) → (newsz - 4096 * vp + 4095) / 4096 ≤ Z.of_nat fuel →
  ∃ k' s' r free' live' T' U', allocuvm_loop kend fuel pgdir (4096 * vp) oldsz newsz (k, s) = Ret r (k', s') ∧ holds L k' ∧
    (r = newsz ∧ allocated s free live pgdir T U (4096 * vp) newsz s' free' live' T' U' ∨
     r = 0 ∧ U' = keep (PGROUNDUP oldsz) newsz U ∧ evolved s free live pgdir T U s' free' live' T' U' ∧
       Z.of_nat (length free + length (pt_pages pgdir T)) ≤ 1025 + (newsz - 4096 * vp + 4095) / 4096).
Proof.
  intros Hold Hnew. unfold KERNBASE in Hnew.
  induction fuel as [|fuel IH]; intros k s free live T U vp Has Hk Hvp Hge Hun Hf; cbn [allocuvm_loop];
    destruct (Z.leb_spec newsz (4096 * vp)) as [Hle|Hlt].
  1,3: exists k, s, newsz, free, live, T, U; split; [done|]; split; [done|]; left; split; [done|];
    split; [by apply evolved_refl|done|done|intros vp' Hvp'; lia].
  { exfalso. Z.to_euclidean_division_equations. lia. }
  assert (oldsz < newsz) as Hon by (destruct (PGROUNDUP_spec oldsz); lia).
  assert (U !! vp = None) as HU by (apply Hun; lia).
  destruct free as [|p free].
  { pose proof (vi_kmem _ _ _ _ _ _ (as_vm _ _ _ _ _ _ Has)) as Hinv.
    destruct (kalloc_ok kend valid holds L k s [] live Hinv Hk Hvalid HL) as (k1 & Hk1 & E1). run E1. cbn [Z.eqb].
    destruct (deallocuvm_ok k1 s [] live pgdir T U newsz oldsz Has Hk1) as (k2 & s2 & fr & free2 & live2 & E2 & Hk2 & [S1 S2 S3 S4 S5 S6 S7]); [lia|unfold KERNBASE; lia|].
    run E2. exists k2, s2, 0, free2, live2, T, (keep (PGROUNDUP oldsz) newsz U). split; [done|]. split; [done|]. right. split; [done|]. split; [done|].
    split; [split; try done; [permz|intros rest Hr; unfold owned in *; permz|]; intros q Hq Hq' Hn; by apply S6|].
    pose proof (pt_pages_max kend _ _ _ (vi_pt _ _ _ _ _ _ (as_vm _ _ _ _ _ _ Has))). cbn [length Nat.add]. Z.to_euclidean_division_equations. lia. }
  destruct (alloc_page k s free live pgdir T U vp p Has Hk) as (k1 & s1 & k2 & s2 & r & l & free' & T' & E1 & E2 & Hk2 & Hfree & Hpok & Hpo & Hpt & Hlock & Hsame & Hkern & Hr); [lia|done|].
  run E1. pose proof (page_range kend p Hpok) as Hpr. rewrite (proj2 (Z.eqb_neq p 0)) by lia. next. run E2.
  pose proof (vi_kmem _ _ _ _ _ _ (as_vm _ _ _ _ _ _ Has)) as Hinv. subst free.
  assert (∀ q, q ∈ live → q ∉ p :: l) as Hlf.
  { intros q Hq Hin. eapply (free_not_live kend _ _ _ q q Hinv); [|done|done]. listin. }
  assert (∀ q, q ∈ live → q ∈ pt_pages pgdir T' → q ∈ pt_pages pgdir T) as Htabs.
  { intros q Hq. rewrite Hpt. intros [Hin|?]%elem_of_app; [|done]. exfalso. apply (Hlf q Hq). listin. }
  destruct Hr as [(-> & Has2 & Hz)|(-> & -> & Has2)]; cbn [Z.ltb Z.compare].
  - assert (evolved s (p :: l ++ free') live pgdir T U s2 free' (l ++ p :: live) T' (<[vp := (p, 7)]> U)) as Hev.
    { split; try done.
      - permz.
      - intros rest Hrest. unfold owned in *. pose proof (upages_insert U vp p 7 HU) as Hui. permz.
      - intros q Hq _ Hn. by apply Hsame. }
    unfold PGSIZE. rewrite uint_small by (unfold is_uint; lia). replace (4096 * vp + 4096) with (4096 * (vp + 1)) by lia.
    destruct (IH k2 s2 free' (l ++ p :: live) T' (<[vp := (p, 7)]> U) (vp + 1) Has2 Hk2) as (k3 & s3 & r & free3 & live3 & T3 & U3 & E3 & Hk3 & Hr3); [lia|lia| | |].
    { intros vp' Hvp'. rewrite lookup_insert_ne by lia. apply Hun. lia. } { Z.to_euclidean_division_equations. lia. }
    exists k3, s3, r, free3, live3, T3, U3. split; [done|]. split; [done|].
    assert (∀ q, q ∈ live → q ∈ l ++ p :: live) as Hsub by (intros; listin).
    destruct Hr3 as [[-> [A1 A2 A3 A4]]|(-> & -> & A1 & A5)]; [left|right]; (split; [done|]).
    + split; [by eapply evolved_trans|intros q Hq; by apply A2, Hsub| |].
      * intros vp' x Hvp'. rewrite A3 by lia. rewrite lookup_insert_ne; [done|]. lia.
      * intros vp' Hvp'. destruct (decide (vp' = vp)) as [->|Hne].
        -- exists p. split; [apply A3; [lia|by rewrite lookup_insert_eq]|]. split; [intros Hin; by apply (Hlf p Hin); left|].
           intros c Hc. rewrite (ev_same _ _ _ _ _ _ _ _ _ _ _ A1 p); [by apply Hz|listin|apply A2; listin| |done].
           rewrite Hpt. intros [Hin|Hin]%elem_of_app; [|apply Hpo; unfold owned; listin].
           pose proof (ki_nodup _ _ _ _ Hinv) as Hn. apply NoDup_app in Hn as (Hn & _ & _). apply NoDup_cons in Hn as [Hn _]. apply Hn. listin.
        -- destruct (A4 vp') as (q & Hq1 & Hq2 & Hq3); [lia|]. exists q. split_and!; try done. intros Hin. apply Hq2. listin.
    + split; [|split; [by eapply evolved_trans|]].
      2: { apply Permutation_length in Hpt. rewrite length_app in Hpt. cbn [length]. rewrite length_app. Z.to_euclidean_division_equations. lia. }
      apply map_eq. intros vp'. rewrite !lookup_keep. destruct (decide (vp' = vp)) as [->|Hne].
      * by rewrite !decide_True by lia.
      * by rewrite lookup_insert_ne by done.
  - destruct (deallocuvm_ok k2 s2 [] (l ++ p :: live) pgdir T' U newsz oldsz Has2 Hk2) as (k3 & s3 & fr & free3 & live3 & E3 & Hk3 & [S1 S2 S3 S4 S5 S6 S7]); [lia|unfold KERNBASE; lia|].
    run E3. assert (p ∈ live3) as Hp3.
    { assert (p ∈ l ++ p :: live) as Hin by listin. rewrite S2 in Hin. apply elem_of_app in Hin as [Hin|?]; [|done].
      exfalso. apply Hpo. unfold owned. apply elem_of_app. right. rewrite S3. listin. }
    apply list_elem_of_split in Hp3 as (la & lb & Hp3). assert (live3 ≡ₚ p :: la ++ lb) as Hp3' by (rewrite Hp3; by rewrite Permutation_middle). clear Hp3.
    pose proof S4 as [[Hinv3 Hpg3 Hown3] Hnd3 Hlive3 _ _].
    destruct (kfree_freed k3 s3 free3 live3 p (la ++ lb) Hinv3 Hp3' Hk3) as (k4 & s4 & E4 & Hk4 & [F1 F2 F3 F4 F5]). run E4.
    assert (∀ q, q ∈ owned pgdir T' (keep (PGROUNDUP oldsz) newsz U) → q ∈ la ++ lb) as Hownl.
    { intros q Hq. assert (q ∈ live3) as Hq3. { apply elem_of_app in Hq as [?|?]; [by apply Hown3|by apply Hlive3]. }
      rewrite Hp3' in Hq3. apply elem_of_cons in Hq3 as [->|?]; [|done]. exfalso. apply elem_of_app in Hq as [Hq|Hq].
      - rewrite Hpt in Hq. apply elem_of_app in Hq as [Hq|Hq]; [|apply Hpo; unfold owned; listin].
        pose proof (ki_nodup _ _ _ _ Hinv) as Hn. apply NoDup_app in Hn as (Hn & _ & _). apply NoDup_cons in Hn as [Hn _]. apply Hn. listin.
      - apply Hpo. unfold owned. apply elem_of_app. right. rewrite S3. listin. }
    exists k4, s4, 0, (p :: free3), (la ++ lb), T', (keep (PGROUNDUP oldsz) newsz U). split; [done|]. split; [done|]. right. split; [done|]. split; [done|].
    split; [|pose proof (pt_pages_max kend _ _ _ (vi_pt _ _ _ _ _ _ (as_vm _ _ _ _ _ _ Has2))); apply Permutation_length in Hpt;
      rewrite length_app in Hpt; cbn [length]; rewrite app_nil_r; Z.to_euclidean_division_equations; lia].
    split.
    + apply (aspace_frame s3 free3 live3); [done|done|done|]. intros q Hq. apply F5, Hownl. unfold owned. listin.
    + permz.
    + intros rest Hrest. unfold owned in *. permz.
    + congruence.
    + done.
    + intros q Hq Hq' Hn. assert (q ∉ pt_pages pgdir T') as Hn' by (intros Hin; by apply Hn, Htabs).
      eapply same_page_trans; [by apply Hsame|]. eapply same_page_trans; [apply S6; [|done]|by apply F5]. rewrite Hp3'. listin.
    + intros va Hva. rewrite (lookup_same kend (km_mem s3) (km_mem s4) pgdir T'); [by rewrite S7, Hkern|done| |unfold is_uint, KERNBASE in *; lia].
      intros q Hq. apply F5, Hownl. unfold owned. listin.
Qed.
Lemma allocuvm_ok k s free live pgdir T U oldsz newsz :
  aspace s free live pgdir T U → holds L k → 0 ≤ oldsz ≤ newsz → newsz < KERNBASE →
  (∀ vp, PGROUNDUP oldsz ≤ 4096 * vp < newsz → U !! vp = None) →
  ∃ k' s' r free' live' T' U', allocuvm kend pgdir oldsz newsz (k, s) = Ret r (k', s') ∧ holds L k' ∧
    (r = newsz ∧ allocated s free live pgdir T U (PGROUNDUP oldsz) newsz s' free' live' T' U' ∨
     r = 0 ∧ U' = U ∧ evolved s free live pgdir T U s' free' live' T' U' ∧
       Z.of_nat (length free + length (pt_pages pgdir T)) ≤ 1025 + (newsz - PGROUNDUP oldsz + 4095) / 4096).
Proof.
  intros Has Hk Ho Hn Hun. unfold allocuvm. rewrite (proj2 (Z.leb_gt _ _)), (proj2 (Z.ltb_ge _ _)) by lia. unfold KERNBASE in Hn.
  destruct (PGROUNDUP_spec oldsz) as [Hr1 Hr2]; [lia|lia|].
  assert (PGROUNDUP oldsz = 4096 * (PGROUNDUP oldsz / 4096)) as Er by (Z.to_euclidean_division_equations; lia).
  rewrite Er in Hun. set (vp := PGROUNDUP oldsz / 4096) in *. assert (0 ≤ vp) by lia. cbv zeta. rewrite Er.
  destruct (alloc_loop_ok pgdir oldsz newsz Ho Hn (Z.to_nat ((newsz - 4096 * vp + PGSIZE - 1) / PGSIZE)) k s free live T U vp Has Hk)
    as (k' & s' & r & free' & live' & T' & U' & E & Hk' & Hr); [done|lia|done| |].
  { unfold PGSIZE. replace (newsz - 4096 * vp + 4096 - 1) with (newsz - 4096 * vp + 4095) by lia. lia. }
  exists k', s', r, free', live', T', U'. split; [done|]. split; [done|]. destruct Hr as [Hr|(-> & -> & Hev & Hn')]; [by left|right].
  split; [done|]. assert (keep (PGROUNDUP oldsz) newsz U = U) as EU; [|by rewrite EU in *].
  apply map_eq. intros vp'. rewrite lookup_keep. case_decide; [|done]. symmetry. apply Hun. by rewrite <- Er.
Qed.


(** C31: [allocuvm] grows an address space by zeroed pages of its own.  On
    success every page of the new range is mapped, writable for the user, to a
    page that was free and is all zeros, and the rest of the address space is
    as before.  It fails only when the free list cannot serve the new pages and
    a full set of page tables, and then the user pages are those it had.  In
    both cases no page is lost, and the pages of other address spaces and of
    the kernel keep their contents. *)
Theorem allocuvm_correct k s free live pgdir T U oldsz newsz :
  aspace s free live pgdir T U → holds L k → 0 ≤ oldsz ≤ newsz → newsz < KERNBASE →
  (∀ vp, PGROUNDUP oldsz ≤ 4096 * vp < newsz → U !! vp = None) →
  ∃ k' s' r free' live' T' U', allocuvm kend pgdir oldsz newsz (k, s) = Ret r (k', s') ∧ holds L k' ∧
    (r = newsz ∧ allocated s free live pgdir T U (PGROUNDUP oldsz) newsz s' free' live' T' U' ∨
     r = 0 ∧ U' = U ∧ evolved s free live pgdir T U s' free' live' T' U' ∧
       Z.of_nat (length free + length (pt_pages pgdir T)) ≤ 1025 + (newsz - PGROUNDUP oldsz + 4095) / 4096).
Proof. apply allocuvm_ok. Qed.

(** [freevm] gives back every page of an address space, once: the user
    pages wherever they are mapped, the page tables and the directory go to the
    free list, and every other allocated page stays allocated with its
    contents. *)
Theorem freevm_correct k s free live pgdir T U dodealloc : aspace s free live pgdir T U → holds L k → (dodealloc = true ∨ U = ∅) →
  ∃ k' s' fr free' live', freevm kend pgdir dodealloc (k, s) = Ret () (k', s') ∧ holds L k' ∧
    fr ≡ₚ owned pgdir T U ∧ freed s free live s' fr free' live'.
Proof. apply freevm_ok. Qed.
End uvm.

(** ** Example: one user page at address 0 *)
Definition ex_space : kmem := Kmem true 0 (wr32 (ex_page 1) (V2P (ex_page 2) + 7) (wr32 (ex_page 0) (V2P (ex_page 1) + 7) ∅)).
Definition ex_T : gmap Z Z := {[0 := ex_page 1]}.
Definition ex_U : gmap Z (Z * Z) := {[0 := (ex_page 2, 7)]}.

Lemma ex_owned : owned (ex_page 0) ex_T ex_U = [ex_page 0; ex_page 1; ex_page 2].
Proof. by vm_compute. Qed.

Lemma ex_pgtable : pgtable ex_end (km_mem ex_space) (ex_page 0) ex_T.
Proof.
  assert (∀ i t, ex_T !! i = Some t → i = 0 ∧ t = ex_page 1) as HT by (unfold ex_T; intros i t [<- <-]%lookup_singleton_Some; done).
  split.
  - apply (ex_pages [ex_page 0]); [repeat constructor; unfold ex_page; done || lia|left].
  - intros i Hi. cbn [km_mem ex_space]. destruct (decide (i = 0)) as [->|Hne].
    + unfold ex_T. rewrite lookup_singleton_eq. by vm_compute.
    + unfold ex_T. rewrite lookup_singleton_ne by done. rewrite !rd32_wr32_ne by (unfold ex_page; lia). by rewrite rd32_empty.
  - intros i t [-> ->]%HT. split; [lia|]. apply (ex_pages [ex_page 1]); [repeat constructor; unfold ex_page; done || lia|left].
  - unfold ex_T. rewrite map_to_list_singleton. apply (bool_decide_unpack _). by vm_compute.
Qed.

(** The example with other pages in [l] allocated. *)
Lemma ex_aspace l : (∀ p, p ∈ l → page_ok ex_end p) → NoDup (l ++ [ex_page 0; ex_page 1; ex_page 2]) →
  aspace ex_end ex_space [] (l ++ [ex_page 0; ex_page 1; ex_page 2]) (ex_page 0) ex_T ex_U.
Proof.
  intros Hl Hnd. pose proof ex_owned as Ho. split.
  - split; [split; [done| |done]|exact ex_pgtable|].
    + intros p; rewrite app_nil_l; intros [Hp|Hp]%elem_of_app; [by apply Hl|]. revert p Hp. apply ex_pages. repeat constructor; unfold ex_page; done || lia.
    + intros p Hp. apply elem_of_app. right. rewrite <- Ho. unfold owned. listin.
  - rewrite Ho. by apply NoDup_app in Hnd as (_ & _ & ?).
  - intros p Hp. apply elem_of_app. right. rewrite <- Ho. unfold owned. listin.
  - unfold ex_U. intros vp x [<- _]%lookup_singleton_Some. lia.
  - intros vp Hvp. rewrite (lookup_tab ex_end _ _ ex_T) by (exact ex_pgtable || unfold is_uint; lia).
    unfold ex_U. destruct (decide (vp = 0)) as [->|Hne]; [rewrite lookup_singleton_eq; by vm_compute|].
    rewrite lookup_singleton_ne by done. rewrite PDX_eq, PTX_eq, uint_small by (unfold is_uint; lia). unfold ex_T.
    destruct (decide (4096 * vp / 4194304 = 0)) as [E|E]; [rewrite E, lookup_singleton_eq|by rewrite lookup_singleton_ne].
    cbn [km_mem ex_space]. rewrite !rd32_wr32_ne by (unfold ex_page; Z.to_euclidean_division_equations; lia). by rewrite rd32_empty.
Qed.

(** The pages [l] go to the free list. *)
Lemma stock {K} `{!LockOps K} kend (valid : Z → Prop) (holds : list Z → K → Prop) `{!LockLaws valid holds} L pgdir T U live :
  valid kmem_lock → kmem_lock ∉ L → (∀ p, p ∈ owned pgdir T U → p ∈ live) → ∀ l k s free,
  aspace kend s free (l ++ live) pgdir T U → holds L k → ∃ k' s', holds L k' ∧ aspace kend s' (reverse l ++ free) live pgdir T U.
Proof.
  intros Hv HL Hown. induction l as [|p l IH]; intros k s free Has Hk; [by exists k, s|].
  destruct (kfree_freed kend valid holds L Hv HL k s free (p :: l ++ live) p (l ++ live) (vi_kmem _ _ _ _ _ _ (as_vm _ _ _ _ _ _ _ Has)))
    as (k1 & s1 & _ & Hk1 & F); [done|done|]. rewrite reverse_cons, <- app_assoc. apply (IH k1 s1); [|done].
  apply (aspace_frame kend s free (p :: l ++ live)); [done|apply F| |].
  - intros q Hq%Hown. listin.
  - intros q Hq. apply (fd_same _ _ _ _ _ _ _ _ F). apply elem_of_app. right. apply Hown. unfold owned. listin.
Qed.

(** [n] free pages above those of the example. *)
Lemma ex_stocked_in {K} `{!LockOps K} (valid : Z → Prop) (holds : list Z → K → Prop) `{!LockLaws valid holds} k0 n : valid kmem_lock → holds [] k0 →
  Z.of_nat n ≤ 50000 → ∃ k s, holds [] k ∧
  aspace ex_end s (reverse (pages (ex_page 3) n)) [ex_page 0; ex_page 1; ex_page 2] (ex_page 0) ex_T ex_U.
Proof.
  intros Hv Hk0 Hn. assert (∀ p, p ∈ pages (ex_page 3) n → ∃ i, 0 ≤ i < 50000 ∧ p = ex_page (3 + i)) as Hin.
  { intros p. unfold pages. intros (i & -> & Hi%elem_of_seq)%list_elem_of_fmap. exists (Z.of_nat i). unfold ex_page. lia. }
  assert (aspace ex_end ex_space [] (pages (ex_page 3) n ++ [ex_page 0; ex_page 1; ex_page 2]) (ex_page 0) ex_T ex_U) as Has.
  { apply ex_aspace.
    - intros p (i & Hi & ->)%Hin. apply (ex_pages [ex_page (3 + i)]); [|left]. repeat constructor; unfold ex_page; [|lia..].
      Z.to_euclidean_division_equations. lia.
    - apply NoDup_app. split_and!; [| |apply (bool_decide_unpack _); by vm_compute].
      + unfold pages. apply NoDup_fmap_2_strong; [|apply NoDup_seq]. intros; lia.
      + intros p (i & Hi & ->)%Hin Hp. rewrite !elem_of_cons in Hp. unfold ex_page in Hp. destruct Hp as [?|[?|[?|Hp]]]; [lia..|]. by apply not_elem_of_nil in Hp. }
  destruct (stock ex_end valid holds [] (ex_page 0) ex_T ex_U [ex_page 0; ex_page 1; ex_page 2]
    Hv ltac:(apply not_elem_of_nil) ltac:(intros p; by rewrite ex_owned) _ k0 _ _ Has Hk0) as (k & s & Hk & Has'). rewrite app_nil_r in Has'. by exists k, s.
Qed.
Lemma ex_stocked n : Z.of_nat n ≤ 50000 → ∃ k s, hw_ok 0 [None] {[kmem_lock]} [] k ∧
  aspace ex_end s (reverse (pages (ex_page 3) n)) [ex_page 0; ex_page 1; ex_page 2] (ex_page 0) ex_T ex_U.
Proof.
  apply (ex_stocked_in (.∈ ({[kmem_lock]} : gset Z)) (hw_ok 0 [None] {[kmem_lock]}) kalloc_hw n); [by apply elem_of_singleton_2|apply kalloc_hw_ok].
Qed.

Lemma allocuvm_correct_witness : ∃ (k : hw) s k' s' r free' live' T' U',
  allocuvm ex_end (ex_page 0) 4096 12288 (k, s) = Ret r (k', s') ∧ r = 12288 ∧
  allocated ex_end s (reverse (pages (ex_page 3) 1030)) [ex_page 0; ex_page 1; ex_page 2] (ex_page 0) ex_T ex_U 4096 12288 s' free' live' T' U'.
Proof.
  destruct (ex_stocked 1030) as (k & s & Hk & Has); [lia|].
  destruct (allocuvm_correct ex_end (.∈ ({[kmem_lock]} : gset Z)) (hw_ok 0 [None] {[kmem_lock]}) [] ltac:(by apply elem_of_singleton_2)
    ltac:(apply not_elem_of_nil) ltac:(done) k s _ _ _ _ _ 4096 12288 Has Hk) as (k' & s' & r & free' & live' & T' & U' & E & _ & Hr); [lia|done| |].
  { intros vp Hvp. unfold ex_U. rewrite lookup_singleton_ne; [done|]. intros <-. change (PGROUNDUP 4096) with 4096 in Hvp. lia. }
  exists k, s, k', s', r, free', live', T', U'. split; [exact E|]. destruct Hr as [Hr|(_ & _ & _ & Hn)]; [exact Hr|exfalso].
  rewrite length_reverse in Hn. unfold pages in Hn. rewrite length_fmap, length_seq in Hn.
  change ((12288 - PGROUNDUP 4096 + 4095) / 4096) with 2 in Hn. unfold pt_pages in Hn. cbn [length] in Hn. lia.
Defined.

