(* ===== verification/CopyUvm.v ===== *)
(** * The kernel half, copies and copying out (vm.c)

    [setupkvm] gives every address space the kernel's mappings of [kmap].
    [copyuvm] makes a second address space with the same user contents in
    pages of its own.  [copyout] writes into a user address space through its
    page table.  Each either succeeds or gives back every page it has taken. *)
From stdpp Require Import base list gmap strings.
From Stdlib Require Import ZArith Lia Permutation.
From S2P Require Import Prelude Mmu Spinlock CpuLocks CString Proc RunQueue Sched Kernel Kalloc Vm Uvm.
#[local] Open Scope Z_scope.
#[local] Opaque memset memmove wr32.

Section copyuvm.
Context {K : Type} `{!LockOps K}.
Variables kend kdata : Z.
Context (valid : Z → Prop) (holds : list Z → K → Prop) `{!LockLaws valid holds}.
Variable L : list Z.
Hypothesis Hvalid : valid kmem_lock.
Hypothesis HL : kmem_lock ∉ L.
Hypothesis Hkend : KERNBASE < kend.

(** ** The kernel half of an address space *)
Definition kmap_size (x : kmapping) : Z := uint (km_phys_end x - km_phys_start x).
Record kmap_ok (x : kmapping) : Prop := {
  kx_virt : km_virt x mod 4096 = 0 ∧ KERNBASE ≤ km_virt x;
  kx_size : 0 < kmap_size x ∧ kmap_size x mod 4096 = 0;
  kx_end : km_virt x + kmap_size x ≤ 4294967296;
  kx_phys : km_phys_start x mod 4096 = 0 ∧ 0 ≤ km_phys_start x ∧ km_phys_start x + kmap_size x ≤ 4294967296;
  kx_perm : km_perm x = 0 ∨ km_perm x = 2 }.
(** The entry that the table [ks] gives an address. *)
Fixpoint kmap_pte (ks : list kmapping) (va : Z) : option Z :=
  match ks with
  | [] => None
  | x :: ks' => if decide (km_virt x ≤ va < km_virt x + kmap_size x)
      then Some (km_phys_start x + 4096 * ((va - km_virt x) / 4096) + Z.lor (km_perm x) PTE_P) else kmap_pte ks' va
  end.
Fixpoint kmap_sorted (ks : list kmapping) : Prop :=
  match ks with
  | [] => True
  | x :: ks' => (∀ y, y ∈ ks' → km_virt x + kmap_size x ≤ km_virt y) ∧ kmap_sorted ks'
  end.

Lemma kmap_mk x n : kmap_size x = n → km_virt x mod 4096 = 0 → km_phys_start x mod 4096 = 0 → n mod 4096 = 0 →
  KERNBASE ≤ km_virt x → 0 < n → km_virt x + n ≤ 4294967296 → 0 ≤ km_phys_start x → km_phys_start x + n ≤ 4294967296 →
  km_perm x = 0 ∨ km_perm x = 2 → kmap_ok x.
Proof. intros H1 H2 H3 H4 H5 H6 H7 H8 H9 H10. split; rewrite ?H1; done. Qed.

Lemma kmap_kmap_ok : kdata mod 4096 = 0 → KERNLINK < kdata < KERNBASE + PHYSTOP → Forall kmap_ok (kmap kdata) ∧ kmap_sorted (kmap kdata).
Proof.
  intros H1 H2. unfold KERNLINK, KERNBASE, PHYSTOP, EXTMEM in *. unfold kmap.
  assert (V2P kdata = kdata - 2147483648) as Ev by (unfold V2P, KERNBASE; apply uint_small; unfold is_uint; lia).
  assert (kmap_size (Kmapping (KERNBASE + EXTMEM) (V2P (KERNBASE + EXTMEM)) (V2P kdata) 0) = kdata - 2148532224) as S2.
  { unfold kmap_size. cbn [km_phys_end km_phys_start]. rewrite Ev. change (V2P (KERNBASE + EXTMEM)) with 1048576. rewrite uint_small by (unfold is_uint; lia). lia. }
  assert (kmap_size (Kmapping kdata (V2P kdata) PHYSTOP PTE_W) = 2382364672 - kdata) as S3.
  { unfold kmap_size. cbn [km_phys_end km_phys_start]. rewrite Ev. unfold PHYSTOP. rewrite uint_small by (unfold is_uint; lia). lia. }
  unfold KERNLINK, KERNBASE, EXTMEM, PHYSTOP, DEVSPACE, PTE_W in *. split.
  - repeat (apply Forall_cons; split); [..|apply Forall_nil_2].
    + apply (kmap_mk _ 1048576); cbn [km_virt km_phys_start km_perm]; try done. auto.
    + apply (kmap_mk _ (kdata - 2148532224)); cbn [km_virt km_phys_start km_perm]; change (V2P (2147483648 + 1048576)) with 1048576;
        solve [done | unfold KERNBASE; lia | Z.to_euclidean_division_equations; lia | auto].
    + apply (kmap_mk _ (2382364672 - kdata)); cbn [km_virt km_phys_start km_perm]; try exact S3; rewrite ?Ev;
        solve [done | unfold KERNBASE; lia | Z.to_euclidean_division_equations; lia | auto].
    + apply (kmap_mk _ 33554432); cbn [km_virt km_phys_start km_perm]; try done. auto.
  - cbn [kmap_sorted]. rewrite S2, S3. cbn [km_virt]. change (kmap_size (Kmapping 2147483648 0 1048576 2)) with 1048576.
    split_and!; try done; intros y Hy; repeat (apply elem_of_cons in Hy as [->|Hy]; [cbn [km_virt]; lia|]); by apply not_elem_of_nil in Hy.
Qed.

Lemma kmap_pte_above ks a va : (∀ y, y ∈ ks → a ≤ km_virt y) → kmap_pte ks va ≠ None → a ≤ va.
Proof.
  induction ks as [|x ks IH]; intros H Hn; simpl in *; [done|]. case_decide.
  - pose proof (H x ltac:(left)). lia.
  - apply IH; [intros y Hy; apply H; by right|done].
Qed.

(** The page tables that a failed call leaves behind go back. *)
Lemma freevm_grown k s free live pgdir T s1 l free1 T1 : kmem_inv kend s free live → grown kend s free live pgdir T s1 l free1 T1 →
  aspace kend s1 free1 (l ++ live) pgdir T1 ∅ → holds L k →
  ∃ k' s' fr free' live', freevm kend pgdir false (k, s1) = Ret () (k', s') ∧ holds L k' ∧
    fr ≡ₚ pt_pages pgdir T ∧ freed kend s free live s' fr free' live'.
Proof.
  intros Hinv [G1 G2 G3 G4 G5] Has Hk.
  destruct (freevm_ok kend valid holds L Hvalid HL Hkend k s1 free1 (l ++ live) pgdir T1 ∅ false Has Hk) as (k' & s' & fr & free' & live' & E & Hk' & Hfr & [F1 F2 F3 F4 F5]); [by right|].
  exists k', s', (pt_pages pgdir T), free', live'. split; [done|]. split; [done|]. split; [done|].
  rewrite owned_empty in Hfr. subst free.
  split; [done|permz|permz|congruence|]. intros q Hq. eapply same_page_trans; [apply G5|by apply F5].
  - assert (q ∈ fr ++ live') as Hin by listin. rewrite <- F3 in Hin. apply elem_of_app in Hin as [Hin|?]; [|listin].
    exfalso. pose proof (ki_nodup _ _ _ _ (vi_kmem _ _ _ _ _ _ G2)) as Hn. apply NoDup_app in Hn as (_ & _ & Hn). rewrite F3 in Hn.
    apply NoDup_app in Hn as (_ & Hn & _). apply (Hn q); [|done]. rewrite Hfr, G3. listin.
  - intros Hin. pose proof (ki_nodup _ _ _ _ (vi_kmem _ _ _ _ _ _ G2)) as Hn. apply NoDup_app in Hn as (_ & _ & Hn). rewrite F3 in Hn.
    apply NoDup_app in Hn as (_ & Hn & _). apply (Hn q); [|done]. rewrite Hfr, G3. listin.
Qed.

Lemma setupkvm_loop_ok pgdir ks : ∀ k s free live T, aspace kend s free live pgdir T ∅ → holds L k → Forall kmap_ok ks → kmap_sorted ks →
  (∀ va, is_uint va → kmap_pte ks va ≠ None → Z.land (lookup_pte (km_mem s) pgdir va) PTE_P = 0) →
  ∃ k' s', holds L k' ∧
    ((∃ l free' T', setupkvm_loop kend ks pgdir (k, s) = Ret pgdir (k', s') ∧ grown kend s free live pgdir T s' l free' T' ∧
        aspace kend s' free' (l ++ live) pgdir T' ∅ ∧
        ∀ va, is_uint va → lookup_pte (km_mem s') pgdir va = default (lookup_pte (km_mem s) pgdir va) (kmap_pte ks va)) ∨
     (∃ fr free' live', setupkvm_loop kend ks pgdir (k, s) = Ret 0 (k', s') ∧ fr ≡ₚ pt_pages pgdir T ∧ freed kend s free live s' fr free' live' ∧
        Z.of_nat (length free + length (pt_pages pgdir T)) ≤ 1025)).
Proof.
  induction ks as [|x ks IH]; intros k s free live T Has Hk Hok Hsort Hun; cbn [setupkvm_loop].
  { exists k, s. split; [done|]. left. exists [], free, T. split; [done|]. split; [apply grown_refl, Has|]. by split. }
  apply Forall_cons in Hok as [Hx Hok]. destruct Hsort as [Hs1 Hs2]. destruct Hx as [[V1 V2] [Z1 Z2] E1 (P1 & P2 & P3) Q1]. unfold KERNBASE in V2.
  fold (kmap_size x). set (n := kmap_size x) in *.
  assert (PGROUNDDOWN (km_virt x) = km_virt x) as Ea by (apply PGROUNDDOWN_id; done).
  assert ((km_virt x + n - 1) / 4096 - km_virt x / 4096 + 1 = n / 4096) as En by (Z.to_euclidean_division_equations; lia).
  assert (4096 * (n / 4096) = n) as En' by (Z.to_euclidean_division_equations; lia).
  assert (0 ≤ km_perm x < 4096) as Hperm by (destruct Q1 as [-> | ->]; lia).
  destruct (mappages_ok kend valid holds L Hvalid HL k s free live pgdir T (km_virt x) n (km_phys_start x) (km_perm x) (as_vm _ _ _ _ _ _ _ Has) Hk)
    as (k1 & s1 & r & l & free1 & T1 & c & E & Hk1 & G & Mp & Hr); try done.
  { unfold is_uint. lia. } { lia. }
  { rewrite En, Ea. intros j Hj. apply Hun; [unfold is_uint; lia|]. simpl. rewrite decide_True by (unfold n in *; lia). done. }
  run E. rewrite Ea, En in *.
  assert (aspace kend s1 free1 (l ++ live) pgdir T1 ∅) as Has1.
  { apply (aspace_grown kend s free live pgdir T ∅); [done|done|]. intros va Hva. unfold KERNBASE in Hva. rewrite (Mp va) by (unfold is_uint; lia). rewrite decide_False by lia. done. }
  pose proof (vi_kmem _ _ _ _ _ _ (as_vm _ _ _ _ _ _ _ Has)) as Hinv. destruct Hr as [[-> ->]|(-> & -> & Hc)]; cbn [Z.ltb Z.compare].
  - destruct (IH k1 s1 free1 (l ++ live) T1 Has1 Hk1 Hok Hs2) as (k2 & s2 & Hk2 & Hr).
    { intros va Hva Hn. pose proof (kmap_pte_above ks (km_virt x + n) va Hs1 Hn). rewrite (Mp va Hva), decide_False by lia.
      apply Hun; [done|]. simpl. rewrite decide_False; [done|]. fold n. lia. }
    exists k2, s2. split; [done|]. destruct Hr as [(l2 & free2 & T2 & E2 & G2 & Has2 & Hlk)|(fr & free2 & live2 & E2 & Hfr & F & Hlen)].
    + left. exists (l ++ l2), free2, T2. split; [done|]. pose proof (grown_trans _ _ _ _ _ _ _ _ _ _ _ _ _ _ Hinv G G2) as G3. split; [done|]. split.
      * apply (aspace_frame kend s2 free2 (l2 ++ l ++ live)); [done|apply G3| |done]. intros q.
        rewrite owned_empty. apply G3.
      * intros va Hva. rewrite (Hlk va Hva), (Mp va Hva). rewrite En'. cbn [kmap_pte]. fold n. case_decide as Hd; [|done].
        destruct (kmap_pte ks va) eqn:Ek; [|done]. exfalso. pose proof (kmap_pte_above ks (km_virt x + n) va Hs1 ltac:(by rewrite Ek)). lia.
    + right. destruct F as [F1 F2 F3 F4 F5], G as [G1 G2 G3 G4 G5]. subst free. exists (pt_pages pgdir T), free2, live2. split; [done|]. split; [done|].
      split; [|apply Permutation_length in G3; rewrite length_app in G3 |- *; lia].
      split; [done|permz|permz|congruence|]. intros q Hq. pose proof (ki_nodup _ _ _ _ (vi_kmem _ _ _ _ _ _ G2)) as Hn.
      apply NoDup_app in Hn as (_ & _ & Hn). rewrite F3 in Hn. apply NoDup_app in Hn as (_ & Hn & _).
      assert (q ∉ pt_pages pgdir T1) as Hq1 by (rewrite <- Hfr; intros Hin; by apply (Hn q)).
      eapply same_page_trans; [apply G5|by apply F5].
      * assert (q ∈ fr ++ live2) as Hin by listin. rewrite <- F3 in Hin. apply elem_of_app in Hin as [Hin|?]; [|listin].
        exfalso. apply Hq1. rewrite G3. listin.
      * intros Hin. apply Hq1. rewrite G3. listin.
  - destruct (freevm_grown k1 s free live pgdir T s1 l [] T1 Hinv G Has1 Hk1) as (k2 & s2 & fr & free2 & live2 & E2 & Hk2 & Hfr & F). run E2.
    exists k2, s2. split; [done|]. right. exists fr, free2, live2. do 3 (split; [done|]). destruct G as [G1 G2 G3 _ _].
    pose proof (pt_pages_max kend _ _ _ (vi_pt _ _ _ _ _ _ G2)). apply Permutation_length in G3. subst free. rewrite app_nil_r, length_app in *. lia.
Qed.

(** There were not more than [n] free pages, and nothing has changed but the
    order of the free list and the contents of free pages. *)
Record restored (s : kmem) (free live : list Z) (s' : kmem) (free' : list Z) (n : Z) : Prop := {
  rs_few : Z.of_nat (length free) ≤ n;
  rs_inv : kmem_inv kend s' free' live;
  rs_free : free' ≡ₚ free;
  rs_lock : km_use_lock s' = km_use_lock s;
  rs_same q : q ∈ live → same_page (km_mem s) (km_mem s') q }.

Lemma restored_le s free live s' free' n n' : restored s free live s' free' n → n ≤ n' → restored s free live s' free' n'.
Proof. intros [H1 H2 H3 H4 H5] Hn. split; try done. lia. Qed.

(** A new address space has been made, of pages that were free. *)
Record created (s : kmem) (free live : list Z) (s' : kmem) (free' live' : list Z) (d : Z) (T : gmap Z Z) (U : gmap Z (Z * Z)) : Prop := {
  cr_as : aspace kend s' free' live' d T U;
  cr_free : free ≡ₚ owned d T U ++ free';
  cr_live : live' ≡ₚ owned d T U ++ live;
  cr_lock : km_use_lock s' = km_use_lock s;
  cr_same q : q ∈ live → same_page (km_mem s) (km_mem s') q;
  cr_kern va : KERNBASE ≤ va < 4294967296 → lookup_pte (km_mem s') d va = default 0 (kmap_pte (kmap kdata) va) }.

Lemma created_page s free live s' free' live' d T U : created s free live s' free' live' d T U → d ≠ 0.
Proof. intros H. pose proof (pt_dir _ _ _ _ (vi_pt _ _ _ _ _ _ (as_vm _ _ _ _ _ _ _ (cr_as _ _ _ _ _ _ _ _ _ H)))) as Hd. apply page_range in Hd. lia. Qed.

Hypothesis Hdata : kdata mod 4096 = 0 ∧ KERNLINK < kdata < KERNBASE + PHYSTOP.

Lemma setupkvm_ok k s free live : kmem_inv kend s free live → holds L k →
  ∃ k' s' free', holds L k' ∧
    ((∃ d T live', setupkvm kend kdata (k, s) = Ret d (k', s') ∧ created s free live s' free' live' d T ∅) ∨
     (setupkvm kend kdata (k, s) = Ret 0 (k', s') ∧ restored s free live s' free' 1025)).
Proof.
  intros Hinv Hk. unfold setupkvm. destruct (kalloc_ok kend valid holds L k s free live Hinv Hk Hvalid HL) as (k1 & Hk1 & E1).
  destruct free as [|p free].
  { run E1. exists k1, s, []. split; [done|]. right. split; [done|]. by split. }
  destruct E1 as [E1 Hinv1]. run E1. set (s1 := set_freelist _ s) in *. set (s2 := upd_mem (memset p 0 PGSIZE) s1).
  assert (page_ok kend p) as Hp by (apply (ki_pages _ _ _ _ Hinv); left). pose proof (page_range kend p Hp) as Hpr.
  rewrite (proj2 (Z.eqb_neq p 0)) by lia. next. fold s2. change (DEVSPACE <? P2V PHYSTOP) with false. cbv iota.
  assert (∀ q, q ∈ free ++ live → q ≠ p) as Hne.
  { intros q Hq ->. pose proof (ki_nodup _ _ _ _ Hinv) as Hn. by apply NoDup_cons in Hn as [Hn _]. }
  assert (∀ q, q ∈ free ++ live → same_page (km_mem s) (km_mem s2) q) as Hs2.
  { intros q Hq a Ha. change (km_mem s2) with (memset p 0 PGSIZE (km_mem s)). rewrite memset_ok by done. rewrite decide_False; [done|].
    intros Hpa. apply (other_page kend s (p :: free) live q p a Hinv); [apply elem_of_cons; by right|left|by apply Hne|done|]. unfold in_page, PGSIZE in *. lia. }
  assert (kmem_inv kend s2 free (p :: live)) as Hinv2.
  { apply (kmem_inv_store kend s1 free (p :: live) (km_mem s2) Hinv1). intros q Hq. apply (Hs2 q). listin. }
  destruct (empty_dir kend s2 free (p :: live) p Hinv2) as [Has Hlk]; [left| |].
  { intros i Hi. change (km_mem s2) with (memset p 0 PGSIZE (km_mem s)). unfold rd32. rewrite !memset_ok by done.
    unfold PGSIZE. rewrite !decide_True by lia. done. }
  destruct (kmap_kmap_ok (proj1 Hdata) (proj2 Hdata)) as [Hok Hsort].
  destruct (setupkvm_loop_ok p (kmap kdata) k1 s2 free (p :: live) ∅ Has Hk1 Hok Hsort) as (k3 & s3 & Hk3 & Hr).
  { intros va Hva _. by rewrite Hlk. }
  assert (pt_pages p ∅ = [p]) as Ept by (unfold pt_pages; by rewrite map_to_list_empty).
  destruct Hr as [(l & free3 & T3 & E3 & [G1 G2 G3 G4 G5] & Has3 & Hlk3)|(fr & free3 & live3 & E3 & Hfr & [F1 F2 F3 F4 F5] & Hlen)].
  - exists k3, s3, free3. split; [done|]. left. exists p, T3, (l ++ p :: live). split; [done|].
    rewrite Ept in *. split; rewrite ?owned_empty; [done|subst free; permz|permz|done| |].
    + intros q Hq. eapply same_page_trans; [apply Hs2; listin|]. apply G5; [listin|]. intros ->%list_elem_of_singleton. apply (Hne p); [listin|done].
    + intros va Hva. rewrite Hlk3, Hlk by (unfold is_uint, KERNBASE in *; lia). done.
  - exists k3, s3, free3. split; [done|]. right. split; [done|]. rewrite Ept in Hfr.
    assert (live ≡ₚ live3) as Hl3 by permz. split; [rewrite Ept in Hlen; simpl in *; lia|by eapply kmem_inv_perm|permz|done|].
    intros q Hq. eapply same_page_trans; [apply Hs2; listin|]. apply F5. by rewrite <- Hl3.
Qed.

(** ** copyuvm *)
Lemma created_undo k s free live s1 free1 live1 d T U n : created s free live s1 free1 live1 d T U → holds L k → Z.of_nat (length free) ≤ n →
  ∃ k' s' free', freevm kend d true (k, s1) = Ret () (k', s') ∧ holds L k' ∧ restored s free live s' free' n.
Proof.
  intros [C1 C2 C3 C4 C5 C6] Hk Hn.
  destruct (freevm_ok kend valid holds L Hvalid HL Hkend k s1 free1 live1 d T U true C1 Hk) as (k' & s' & fr & free' & live' & E & Hk' & Hfr & [F1 F2 F3 F4 F5]); [by left|].
  exists k', s', free'. split; [done|]. split; [done|]. assert (live' ≡ₚ live) as Hl by permz.
  split; [done|by eapply kmem_inv_perm|permz|congruence|]. intros q Hq. eapply same_page_trans; [by apply C5|]. apply F5. by rewrite Hl.
Qed.

Lemma created_disjoint s free live s1 free1 live1 d T U q : created s free live s1 free1 live1 d T U → q ∈ live →
  q ∈ live1 ∧ (q ∉ pt_pages d T) ∧ q ∉ upages U.
Proof.
  intros [C1 C2 C3 _ _ _] Hq. pose proof (ki_nodup _ _ _ _ (vi_kmem _ _ _ _ _ _ (as_vm _ _ _ _ _ _ _ C1))) as Hn.
  apply NoDup_app in Hn as (_ & _ & Hn). rewrite C3 in Hn. apply NoDup_app in Hn as (_ & Hn & _).
  split; [rewrite C3; listin|]. split; intros Hin; apply (Hn q); try done; unfold owned; listin.
Qed.

(** The new address space [U] has the pages of [U0] below [b], with contents and flags. *)
Definition copied (s0 : kmem) (U0 : gmap Z (Z * Z)) (s : kmem) (U : gmap Z (Z * Z)) (b : Z) : Prop := ∀ vp,
  match U0 !! vp with
  | Some (p, f) => if decide (4096 * vp < b)
      then ∃ q, U !! vp = Some (q, f) ∧ ∀ o, 0 ≤ o < 4096 → rd8 (km_mem s) (q + o) = rd8 (km_mem s0) (p + o) else U !! vp = None
  | None => U !! vp = None
  end.

Lemma lor_P f : Z.land f PTE_P ≠ 0 → Z.lor f PTE_P = f.
Proof.
  unfold PTE_P. intros HP. apply Z.bits_inj'. intros i Hi. rewrite Z.lor_spec. destruct (Z.eq_dec i 0) as [->|Hne].
  - change 1 with (Z.ones 1) in HP. rewrite Z.land_ones in HP by lia. rewrite !Z.bit0_odd. destruct (Z.odd f) eqn:Eo; [done|].
    exfalso. apply HP. change (2 ^ 1) with 2. by rewrite Zmod_odd, Eo.
  - rewrite (Z.bits_above_log2 1 i) by (simpl; lia). by rewrite orb_false_r.
Qed.

(** The next page of the parent is copied. *)
Lemma copy_page k s0 free0 live0 U0 s free live d T U vp p f q :
  created s0 free0 live0 s (q :: free) live d T U → copied s0 U0 s U (4096 * vp) → holds L k → 0 ≤ vp < 524288 → U0 !! vp = Some (p, f) →
  p ∈ live0 → 0 ≤ f < 4096 → Z.land f PTE_P ≠ 0 →
  ∃ k1 s1 k2 s2 r, kalloc (k, s) = Ret q (k1, s1) ∧ page_ok kend q ∧
    mappages d (4096 * vp) PGSIZE (V2P q) f (k1, upd_mem (memmove q p PGSIZE) s1) = Ret r (k2, s2) ∧ holds L k2 ∧
    (r = 0 ∧ (∃ free' live' T' U', created s0 free0 live0 s2 free' live' d T' U' ∧ copied s0 U0 s2 U' (4096 * vp + 4096)) ∨
     r = -1 ∧ ∃ k3 s3 free' live' T', kfree kend q (k2, s2) = Ret () (k3, s3) ∧ holds L k3 ∧
       created s0 free0 live0 s3 free' live' d T' U ∧ length free' = 1%nat).
Proof.
  intros Hcr Hcp Hk Hvp HU0 Hp Hf HP. pose proof Hcr as [C1 C2 C3 C4 C5 C6].
  assert (U !! vp = None) as HU. { pose proof (Hcp vp) as H. rewrite HU0 in H. by rewrite decide_False in H by lia. }
  destruct (install_page kend valid holds L Hvalid HL k s free live d T U vp q f (memmove q p PGSIZE) C1 Hk Hvp HU Hf)
    as (k1 & s1 & k2 & s2 & r & l & free' & T' & E1 & E2 & Hk2 & Hfree & Hqok & Hqo & Hpt & Hlock & Hsame & Hkern & Hr).
  { intros m a Ha. rewrite memmove_ok by done. rewrite decide_False; [done|unfold in_page, PGSIZE in *; lia]. }
  pose proof (vi_kmem _ _ _ _ _ _ (as_vm _ _ _ _ _ _ _ C1)) as Hinv. subst free.
  exists k1, s1, k2, s2, r. split; [done|]. split; [done|]. split; [done|]. split; [done|].
  assert (∀ x, x ∈ live0 → same_page (km_mem s0) (km_mem s2) x) as Hold.
  { intros x Hx. destruct (created_disjoint _ _ _ _ _ _ _ _ _ x Hcr Hx) as (? & ? & ?). eapply same_page_trans; [by apply C5|]. by apply Hsame. }
  destruct Hr as [(-> & Has2 & Hz)|(-> & -> & Has2)]; [left|right]; (split; [done|]).
  - assert (Z.lor f PTE_P = f) as Ef. by (by apply lor_P).
    rewrite Ef in Has2. pose proof (upages_insert U vp q f HU) as Hui.
    exists free', (l ++ q :: live), T', (<[vp := (q, f)]> U). split.
    + split; [done|unfold owned in *; permz|unfold owned in *; permz|congruence|done|]. intros va Hva. by rewrite Hkern, C6.
    + intros vp'. destruct (decide (vp' = vp)) as [->|Hne].
      * rewrite HU0, decide_True by lia. exists q. split; [by rewrite lookup_insert_eq|]. intros o Ho. rewrite Hz by (unfold in_page; lia).
        rewrite memmove_ok by done. rewrite decide_True by (unfold PGSIZE; lia). replace (q + o - q) with o by lia.
        apply (C5 p Hp). unfold in_page. lia.
      * rewrite lookup_insert_ne by done. pose proof (Hcp vp') as H. destruct (U0 !! vp') as [[p' f']|]; [|done].
        destruct (decide (4096 * vp' < 4096 * vp)) as [Hd|Hd]; [rewrite decide_True by lia|rewrite decide_False by lia; done].
        destruct H as (q' & Hq' & Hc). exists q'. split; [done|]. intros o Ho. rewrite <- Hc by done.
        apply (Hsame q'); [by apply (as_live _ _ _ _ _ _ _ C1), (upages_in U vp' q' f')| |unfold in_page; lia].
        by eapply (as_page kend _ _ _ _ _ _ vp' q' f').
  - destruct (kfree_freed kend valid holds L Hvalid HL k2 s2 [] (l ++ q :: live) q (l ++ live) (vi_kmem _ _ _ _ _ _ (as_vm _ _ _ _ _ _ _ Has2))) as (k3 & s3 & E3 & Hk3 & [F1 F2 F3 F4 F5]);
      [by rewrite Permutation_middle|done|].
    exists k3, s3, [q], (l ++ live), T'. split; [done|]. split; [done|].
    assert (∀ x, x ∈ owned d T' U → x ∈ l ++ live) as Hown.
    { intros x [Hx|Hx]%elem_of_app; [rewrite Hpt in Hx; apply elem_of_app in Hx as [?|Hx]; [listin|]|].
      - apply (as_vm _ _ _ _ _ _ _ C1) in Hx. listin. - apply (as_live _ _ _ _ _ _ _ C1) in Hx. listin. }
    split; [|done]. split; [|unfold owned in *; permz|unfold owned in *; permz|congruence| |].
    + apply (aspace_frame kend s2 [] (l ++ q :: live)); [done|done|done|]. intros x Hx. apply F5, Hown. unfold owned. listin.
    + intros x Hx. eapply same_page_trans; [by apply Hold|]. apply F5. destruct (created_disjoint _ _ _ _ _ _ _ _ _ x Hcr Hx) as (? & _). listin.
    + intros va Hva. rewrite (lookup_same kend (km_mem s2) (km_mem s3) d T'); [by rewrite Hkern, C6|apply Has2| |unfold is_uint, KERNBASE in *; lia].
      intros x Hx. apply F5, Hown. unfold owned. listin.
Qed.

Lemma copied_skip s0 U0 s U b b' : copied s0 U0 s U b → (∀ vp, b ≤ 4096 * vp < b' → U0 !! vp = None) → b ≤ b' → copied s0 U0 s U b'.
Proof.
  intros H Hn Hb vp. pose proof (H vp) as Hv. destruct (U0 !! vp) as [[p f]|] eqn:E; [|done].
  destruct (decide (4096 * vp < b)) as [Hd|Hd]; [by rewrite decide_True by lia|]. rewrite decide_False; [done|]. intros Hd'.
  rewrite Hn in E by lia. done.
Qed.

(** The pages that are used when the next one is missing. *)
Lemma copied_size s0 U0 s U vp x : copied s0 U0 s U (4096 * vp) → U0 !! vp = Some x → (size U < size U0)%nat.
Proof.
  intros H Hx. rewrite <- !size_dom. apply subset_size. split.
  - intros vp' [y Hy]%elem_of_dom. apply elem_of_dom. pose proof (H vp') as Hv. destruct (U0 !! vp'); [done|congruence].
  - intros Hsub. assert (vp ∈ dom U) as [y Hy]%elem_of_dom by (apply Hsub, elem_of_dom; by eexists).
    pose proof (H vp) as Hv. rewrite Hx in Hv. destruct x as [p f]. rewrite decide_False in Hv by lia. congruence.
Qed.
Lemma created_few s0 free0 live0 s free live d T U : created s0 free0 live0 s free live d T U → Z.of_nat (length free0) ≤ 1025 + Z.of_nat (size U + length free).
Proof.
  intros [C1 C2 _ _ _ _]. pose proof (pt_pages_max kend _ _ _ (vi_pt _ _ _ _ _ _ (as_vm _ _ _ _ _ _ _ C1))).
  rewrite C2. unfold owned, upages. rewrite !length_app, !length_fmap, length_map_to_list. lia.
Qed.

Lemma copy_loop_ok s0 free0 live0 pgdir T0 U0 sz : aspace kend s0 free0 live0 pgdir T0 U0 → sz ≤ KERNBASE → ∀ fuel k s free live d T U vp,
  created s0 free0 live0 s free live d T U → copied s0 U0 s U (4096 * vp) → holds L k → 0 ≤ vp → 4096 * vp < sz + 4096 →
  (sz - 4096 * vp + 4095) / 4096 ≤ Z.of_nat fuel →
  ∃ k' s' r free', copyuvm_loop kend fuel pgdir d (4096 * vp) sz (k, s) = Ret r (k', s') ∧ holds L k' ∧
    (r = d ∧ (∃ live' T' U', created s0 free0 live0 s' free' live' d T' U' ∧ copied s0 U0 s' U' sz) ∨
     r = 0 ∧ restored s0 free0 live0 s' free' (1025 + Z.of_nat (size U0))).
Proof.
  intros Has0 Hsz. unfold KERNBASE in Hsz. induction fuel as [|fuel IH]; intros k s free live d T U vp Hcr Hcp Hk Hvp Hlim Hf; cbn [copyuvm_loop];
    destruct (Z.leb_spec sz (4096 * vp)) as [Hle|Hlt].
  1,3: exists k, s, d, free; split; [done|]; split; [done|]; left; split; [done|]; exists live, T, U; split; [done|]; intros vp'; pose proof (Hcp vp') as H;
    destruct (U0 !! vp') as [[p f]|]; [|done]; destruct (decide (4096 * vp' < sz)); [by rewrite decide_True in H by lia|by rewrite decide_False in H by lia].
  { exfalso. Z.to_euclidean_division_equations. lia. }
  assert (is_uint (4096 * vp)) as Hua by (unfold is_uint; lia). pose proof (idx_range _ Hua) as [_ Hix].
  assert (uint (4096 * vp + PGSIZE) = 4096 * vp + 4096) as -> by (apply uint_small; unfold is_uint, PGSIZE; lia).
  assert ((sz - 4096 * (vp + 1) + 4095) / 4096 ≤ Z.of_nat fuel) as Hf' by (Z.to_euclidean_division_equations; lia).
  pose proof Hcr as [C1 C2 C3 C4 C5 C6]. pose proof (vi_kmem _ _ _ _ _ _ (as_vm _ _ _ _ _ _ _ C1)) as Hinv.
  assert (aspace kend s free live pgdir T0 U0) as Has.
  { apply (aspace_frame kend s0 free0 live0); [done|done| |]; intros x Hx.
    - rewrite C3. apply elem_of_app in Hx as [Hx|Hx]; [apply (as_vm _ _ _ _ _ _ _ Has0) in Hx|apply (as_live _ _ _ _ _ _ _ Has0) in Hx]; listin.
    - apply C5. by apply Has0. }
  pose proof Has as [[_ Hpg Hown] Hnd Hlive Hdom Huser].
  assert (U0 !! vp = None → ∃ k' s' r free', copyuvm_loop kend fuel pgdir d (4096 * vp + 4096) sz (k, s) = Ret r (k', s') ∧ holds L k' ∧
    (r = d ∧ (∃ live' T' U', created s0 free0 live0 s' free' live' d T' U' ∧ copied s0 U0 s' U' sz) ∨
     r = 0 ∧ restored s0 free0 live0 s' free' (1025 + Z.of_nat (size U0)))) as Hskip.
  { intros E. replace (4096 * vp + 4096) with (4096 * (vp + 1)) by lia. apply (IH k s free live d T U (vp + 1)); try done; try lia.
    eapply copied_skip; [done| |lia]. intros vp' Hvp'. by replace vp' with vp by lia. }
  destruct (T0 !! PDX (4096 * vp)) as [t|] eqn:Ht.
  2: { run (walk_none kend k s pgdir T0 (4096 * vp) Hpg Hua Ht). cbn [Z.eqb]. apply Hskip.
    destruct (U0 !! vp) as [[p f]|] eqn:E; [|done]. destruct (as_tab kend Hkend _ _ _ _ _ _ _ _ _ Has E) as [t Ht']. congruence. }
  run (walk_found kend k s pgdir T0 (4096 * vp) t false Hpg Hua Ht).
  assert (page_ok kend t) as Hpt by (by apply (pt_tab _ _ _ _ Hpg (PDX (4096 * vp)))).
  rewrite (proj2 (Z.eqb_neq _ 0)) by (apply page_range in Hpt; lia). next.
  assert (rd32 (km_mem s) (t + 4 * PTX (4096 * vp)) = lookup_pte (km_mem s) pgdir (4096 * vp)) as ->
    by (rewrite (lookup_tab kend _ _ T0) by done; by rewrite Ht).
  pose proof (Huser vp ltac:(lia)) as Hu. destruct (U0 !! vp) as [[p f]|] eqn:Ep; [|rewrite Hu; cbn [Z.eqb]; by apply Hskip].
  destruct Hu as (Hf1 & Hf2 & ->). destruct (as_page kend _ _ _ _ _ _ _ _ _ Has Ep) as (Hpok & _ & _).
  destruct (pte_page kend p f Hpok Hf1) as (-> & -> & ->). rewrite land_P_add.
  2: { rewrite (V2P_page kend p Hpok). apply page_range in Hpok. Z.to_euclidean_division_equations. lia. }
  rewrite (proj2 (Z.eqb_neq _ _) Hf2). destruct free as [|q free].
  { destruct (kalloc_ok kend valid holds L k s [] live Hinv Hk Hvalid HL) as (k1 & Hk1 & E1). run E1. cbn [Z.eqb].
    destruct (created_undo k1 s0 free0 live0 s [] live d T U (1025 + Z.of_nat (size U0)) Hcr Hk1) as (k2 & s2 & free2 & E2 & Hk2 & Hrs).
    { pose proof (created_few _ _ _ _ _ _ _ _ _ Hcr). pose proof (copied_size _ _ _ _ _ _ Hcp Ep). cbn [length] in *. lia. } run E2.
    exists k2, s2, 0, free2. split; [done|]. split; [done|]. by right. }
  destruct (copy_page k s0 free0 live0 U0 s free live d T U vp p f q Hcr Hcp Hk) as (k1 & s1 & k2 & s2 & r & E1 & Hqok & E2 & Hk2 & Hr);
    [lia|done|apply (as_live _ _ _ _ _ _ _ Has0); by eapply upages_in|done|done|].
  run E1. rewrite (proj2 (Z.eqb_neq q 0)) by (apply page_range in Hqok; lia). next. run E2.
  destruct Hr as [(-> & free' & live' & T' & U' & Hcr' & Hcp')|(-> & k3 & s3 & free' & live' & T' & E3 & Hk3 & Hcr' & Hl')]; cbn [Z.ltb Z.compare].
  - replace (4096 * vp + 4096) with (4096 * (vp + 1)) in * by lia. by apply (IH k2 s2 free' live' d T' U' (vp + 1)); try done; try lia.
  - run E3. destruct (created_undo k3 s0 free0 live0 s3 free' live' d T' U (1025 + Z.of_nat (size U0)) Hcr' Hk3) as (k4 & s4 & free4 & E4 & Hk4 & Hrs).
    { pose proof (created_few _ _ _ _ _ _ _ _ _ Hcr'). pose proof (copied_size _ _ _ _ _ _ Hcp Ep). lia. } run E4.
    exists k4, s4, 0, free4. split; [done|]. split; [done|]. by right.
Qed.

Lemma copyuvm_ok k s free live pgdir T U sz : aspace kend s free live pgdir T U → holds L k → 0 ≤ sz ≤ KERNBASE →
  ∃ k' s' r free', copyuvm kend kdata pgdir sz (k, s) = Ret r (k', s') ∧ holds L k' ∧
    (r ≠ 0 ∧ (∃ live' T' U', created s free live s' free' live' r T' U' ∧ copied s U s' U' sz) ∨
     r = 0 ∧ restored s free live s' free' (1025 + Z.of_nat (size U))).
Proof.
  intros Has Hk Hsz. unfold copyuvm. destruct (setupkvm_ok k s free live (vi_kmem _ _ _ _ _ _ (as_vm _ _ _ _ _ _ _ Has)) Hk) as (k1 & s1 & free1 & Hk1 & Hr).
  destruct Hr as [(d & T1 & live1 & E1 & Hcr)|[E1 Hrs]]; run E1; [|exists k1, s1, 0, free1; split; [done|]; split; [done|]; right; split; [done|]; eapply restored_le; [done|lia]].
  pose proof (created_page _ _ _ _ _ _ _ _ _ Hcr) as Hd. rewrite (proj2 (Z.eqb_neq d 0)) by done.
  destruct (copy_loop_ok s free live pgdir T U sz Has (proj2 Hsz) (Z.to_nat ((sz + PGSIZE - 1) / PGSIZE)) k1 s1 free1 live1 d T1 ∅ 0 Hcr)
    as (k2 & s2 & r & free2 & E2 & Hk2 & Hr); try done; try lia.
  { intros vp. destruct (U !! vp) as [[p f]|] eqn:E; [|done]. apply Has in E. by rewrite decide_False by lia. }
  { unfold PGSIZE. replace (sz - 4096 * 0 + 4095) with (sz + 4096 - 1) by lia. lia. }
  exists k2, s2, r, free2. split; [done|]. split; [done|]. destruct Hr as [(-> & Hr)|Hr]; [left|right]; done.
Qed.

(** C29: [copyuvm], which [fork] uses, gives the child an address space of its
    own.  On success the child's page tables and user pages are all newly
    allocated pages; below [sz] it has a page exactly where the parent has one
    (a page the parent has not touched yet is skipped), with the same flags and
    the same bytes; its kernel half is [kmap]; and neither the parent nor any
    other allocated page is changed.  It fails only when the free list does not
    hold a directory, 1024 page tables and a page for each of the parent's, and
    then every page it took is back on the free list. *)
Theorem copyuvm_isolated k s free live pgdir T U sz : aspace kend s free live pgdir T U → holds L k → 0 ≤ sz ≤ KERNBASE →
  ∃ k' s' r free', copyuvm kend kdata pgdir sz (k, s) = Ret r (k', s') ∧ holds L k' ∧
    (r ≠ 0 ∧ (∃ live' T' U', created s free live s' free' live' r T' U' ∧ copied s U s' U' sz) ∨
     r = 0 ∧ restored s free live s' free' (1025 + Z.of_nat (size U))).
Proof. apply copyuvm_ok. Qed.
End copyuvm.

(** ** copyout *)
Section copyout.
Context {K : Type} `{!LockOps K}.
Variable kend : Z.

(** What [uva2ka] finds for a user page: no page table, no user page, or the page. *)
Definition upage_of (T : gmap Z Z) (U : gmap Z (Z * Z)) (vp : Z) : option (option Z) :=
  match T !! (vp / 1024) with
  | None => None
  | Some _ => match U !! vp with
      | Some (p, f) => Some (if Z.land f PTE_U =? 0 then None else Some p)
      | None => Some None
      end
  end.

Lemma land_low_add x f b : x mod 4096 = 0 → 0 ≤ b < 4096 → Z.land (x + f) b = Z.land f b.
Proof.
  intros Hx Hb. rewrite <- (Z.mod_small b 4096) by lia. change 4096 with (2 ^ 12) in *. rewrite <- Z.land_ones by lia.
  rewrite !(Z.land_comm b), !Z.land_assoc, !Z.land_ones by lia. f_equal. by rewrite Zplus_mod, Hx, Z.add_0_l, Zmod_mod.
Qed.

Lemma uva2ka_ok (k : K) s free live pgdir T U vp : aspace kend s free live pgdir T U → 0 ≤ vp < 524288 →
  uva2ka pgdir (4096 * vp) (k, s) = match upage_of T U vp with None => Fault | Some o => Ret (default 0 o) (k, s) end.
Proof.
  intros Has Hvp. pose proof Has as [[_ Hpg _] _ _ _ Huser]. assert (is_uint (4096 * vp)) as Hua by (unfold is_uint; lia).
  unfold uva2ka, upage_of. assert (PDX (4096 * vp) = vp / 1024) as Epdx by (rewrite PDX_eq, uint_small by done; Z.to_euclidean_division_equations; lia).
  rewrite <- Epdx. destruct (T !! PDX (4096 * vp)) as [t|] eqn:Ht; [|by run (walk_none kend k s pgdir T (4096 * vp) Hpg Hua Ht)].
  run (walk_found kend k s pgdir T (4096 * vp) t false Hpg Hua Ht). pose proof (idx_range _ Hua) as [_ Hix].
  assert (page_ok kend t) as Hpt by (by apply (pt_tab _ _ _ _ Hpg (PDX (4096 * vp)))).
  rewrite (proj2 (Z.eqb_neq _ 0)) by (apply page_range in Hpt; lia). next.
  assert (rd32 (km_mem s) (t + 4 * PTX (4096 * vp)) = lookup_pte (km_mem s) pgdir (4096 * vp)) as ->
    by (rewrite (lookup_tab kend _ _ T) by done; by rewrite Ht).
  pose proof (Huser vp Hvp) as Hu. destruct (U !! vp) as [[p f]|] eqn:Ep; [|by rewrite Hu].
  destruct Hu as (Hf1 & Hf2 & ->). destruct (as_page kend _ _ _ _ _ _ _ _ _ Has Ep) as (Hpok & _ & _).
  destruct (pte_page kend p f Hpok Hf1) as (-> & _ & ->). assert (V2P p mod 4096 = 0) as Hvp'
    by (rewrite (V2P_page kend p Hpok); apply page_range in Hpok; Z.to_euclidean_division_equations; lia).
  rewrite !land_low_add by done.
  rewrite (proj2 (Z.eqb_neq _ _) Hf2). by destruct (Z.land f PTE_U =? 0).
Qed.

(** The user bytes [va, b) have been set to [src], and nothing else. *)
Definition wrote (U : gmap Z (Z * Z)) (m m' : mem) (va b : Z) (src : Z → Z) : Prop :=
  (∀ vp p f o, U !! vp = Some (p, f) → 0 ≤ o < 4096 →
    rd8 m' (p + o) = if decide (va ≤ 4096 * vp + o < b) then src (4096 * vp + o) else rd8 m (p + o)) ∧
  ∀ a, (∀ p, p ∈ upages U → ¬ in_page p a) → rd8 m' a = rd8 m a.

Lemma wrote_none U m va src : wrote U m m va va src.
Proof. split; [|done]. intros vp p f o _ _. by rewrite decide_False by lia. Qed.
Lemma wrote_trans U m m1 m2 va c b src : va ≤ c ≤ b → wrote U m m1 va c src → wrote U m1 m2 c b src → wrote U m m2 va b src.
Proof.
  intros Hc [A1 A2] [B1 B2]. split.
  - intros vp p f o Hp Ho. rewrite (B1 vp p f o Hp Ho), (A1 vp p f o Hp Ho). repeat case_decide; done || lia.
  - intros a Ha. by rewrite B2, A2.
Qed.

Lemma upages_inj U vp vp' p f f' : NoDup (upages U) → U !! vp = Some (p, f) → U !! vp' = Some (p, f') → vp = vp'.
Proof.
  intros Hnd H H'. destruct (decide (vp = vp')) as [?|Hne]; [done|]. exfalso. rewrite (upages_delete U vp p f H) in Hnd.
  apply NoDup_cons in Hnd as [Hn _]. apply Hn. apply (upages_in _ vp' p f'). by rewrite lookup_delete_ne.
Qed.

(** Filling a part of one user page. *)
Lemma wrote_fill s free live pgdir T U vp p f o n m' src : aspace kend s free live pgdir T U → U !! vp = Some (p, f) → 0 ≤ o → 0 ≤ n → o + n ≤ 4096 →
  (∀ a, rd8 m' a = if decide (p + o ≤ a < p + o + n) then src (4096 * vp + (a - p)) else rd8 (km_mem s) a) →
  wrote U (km_mem s) m' (4096 * vp + o) (4096 * vp + o + n) src.
Proof.
  intros Has Hp Ho Hn Hon Hm. destruct (as_page kend _ _ _ _ _ _ _ _ _ Has Hp) as ((Hal & _) & _ & _).
  pose proof Has as [_ Hnd _ _ _]. apply NoDup_app in Hnd as (_ & _ & Hnd). split.
  - intros vp' p' f' o' Hp' Ho'. rewrite Hm. destruct (as_page kend _ _ _ _ _ _ _ _ _ Has Hp') as ((Hal' & _) & _ & _).
    destruct (decide (p' = p)) as [->|Hne].
    + assert (vp' = vp) as -> by (by eapply upages_inj). repeat case_decide; try done; try lia. f_equal. lia.
    + rewrite !decide_False; [done| |].
      * intros Hr. assert (vp' = vp) as -> by lia. congruence.
      * intros Hr. apply Hne. eapply (in_page_disjoint p' p (p' + o')); [done|done| |]; unfold in_page; lia.
  - intros a Ha. rewrite Hm. rewrite decide_False; [done|]. intros Hr. apply (Ha p); [by eapply upages_in|]. unfold in_page. lia.
Qed.
(** One turn writes up to the end of a page. *)
Lemma wrote_page s free live pgdir T U vp p f o n buf src : aspace kend s free live pgdir T U → U !! vp = Some (p, f) → 0 ≤ o → 0 ≤ n → o + n ≤ 4096 →
  (∀ i, 0 ≤ i < n → rd8 (km_mem s) (buf + i) = src (4096 * vp + o + i)) →
  wrote U (km_mem s) (memmove (p + o) buf n (km_mem s)) (4096 * vp + o) (4096 * vp + o + n) src.
Proof.
  intros Has Hp Ho Hn Hon Hsrc. apply (wrote_fill s free live pgdir T U vp p f); try done. intros a. rewrite memmove_ok by done.
  case_decide; [|done]. rewrite Hsrc by lia. f_equal. lia.
Qed.

Lemma wrote_aspace s free live pgdir T U m' va b src : aspace kend s free live pgdir T U → wrote U (km_mem s) m' va b src →
  aspace kend (upd_mem (λ _, m') s) free live pgdir T U.
Proof.
  intros Has [_ Hw]. pose proof Has as [[Hinv Hpg Hown] Hnd Hlive Hdom Huser].
  assert (∀ q, q ∈ free ++ live → q ∉ upages U → same_page (km_mem s) m' q) as Hs.
  { intros q Hq Hn a Ha. apply Hw. intros p Hp Hpa. eapply (other_page kend s free live q p a Hinv); [done|apply Hlive in Hp; listin| |done|done].
    by intros ->. }
  apply (aspace_frame kend s free live); [done| | |].
  - apply kmem_inv_store; [done|]. intros q Hq. apply Hs; [listin|]. intros Hin%Hlive. by eapply (free_not_live kend _ _ _ q q Hinv).
  - intros q [Hq|Hq]%elem_of_app; [by apply Hown|by apply Hlive].
  - intros q Hq. apply Hs; [apply Hown in Hq; listin|]. apply NoDup_app in Hnd as (_ & Hnd & _). by apply Hnd.
Qed.

(** [copyout] as far as the pages are good: up to [b], the end or the first page that is not. *)
Definition copy_ends (T : gmap Z Z) (U : gmap Z (Z * Z)) (va b len : Z) : Prop :=
  b = va + len ∨ (va ≤ b < va + len ∧ (b = va ∨ b mod 4096 = 0) ∧ ¬ ∃ p, upage_of T U (b / 4096) = Some (Some p)).
Definition copy_result (T : gmap Z Z) (U : gmap Z (Z * Z)) (va b len : Z) {S} (s : S) : outcome S Z :=
  if decide (b = va + len) then Ret 0 s else if upage_of T U (b / 4096) is Some _ then Ret (-1) s else Fault.

Lemma copyout_loop_ok (k : K) free live pgdir T U b src : ∀ fuel s va buf len, aspace kend s free live pgdir T U →
  0 ≤ va → 0 ≤ len → va + len ≤ KERNBASE → (va mod 4096 + len + 4095) / 4096 ≤ Z.of_nat fuel → copy_ends T U va b len →
  (∀ vp, va < 4096 * vp + 4096 → 4096 * vp < b → va < b → ∃ p, upage_of T U vp = Some (Some p)) →
  (∀ i, 0 ≤ i < len → rd8 (km_mem s) (buf + i) = src (va + i) ∧ ∀ p, p ∈ upages U → ¬ in_page p (buf + i)) →
  ∃ m', copyout_loop fuel pgdir va buf len (k, s) = copy_result T U va b len (k, upd_mem (λ _, m') s) ∧ wrote U (km_mem s) m' va b src.
Proof.
  unfold KERNBASE. induction fuel as [|fuel IH]; intros s va buf len Has Hva Hlen Hend Hf Hb Hgood Hsrc; cbn [copyout_loop];
    destruct (Z.leb_spec len 0) as [Hle|Hlt].
  1,3: assert (len = 0) as -> by lia; exists (km_mem s); destruct Hb as [->|Hb]; [|lia]; unfold copy_result; rewrite decide_True by done;
    rewrite Z.add_0_r; split; [by destruct s|apply wrote_none].
  { exfalso. Z.to_euclidean_division_equations. lia. }
  set (vp := va / 4096). set (o := va mod 4096). assert (va = 4096 * vp + o ∧ 0 ≤ o < 4096) as [Eva Ho] by (unfold vp, o; Z.to_euclidean_division_equations; lia).
  assert (PGROUNDDOWN va = 4096 * vp) as -> by (rewrite PGROUNDDOWN_eq; unfold vp; lia).
  assert (va - 4096 * vp = o) as -> by lia.
  pose proof (uva2ka_ok k s free live pgdir T U vp Has ltac:(lia)) as Eu. destruct (upage_of T U vp) as [[p|]|] eqn:Ep.
  2,3: assert (b = va) as -> by (destruct (Z.eq_dec b va); [done|]; destruct (Hgood vp) as [p Hp]; [lia|destruct Hb; lia|destruct Hb; lia|congruence]);
    exists (km_mem s); unfold copy_result; rewrite decide_False by lia; fold vp; rewrite Ep; (split; [|apply wrote_none]).
  2: { run Eu. by destruct s. }
  2: { by apply bind_Fault. }
  run Eu. change (default 0 (Some p)) with p. assert (∃ f, U !! vp = Some (p, f)) as [f Hp].
  { unfold upage_of in Ep. destruct (T !! _); [|done]. destruct (U !! vp) as [[p' f]|]; [|done]. destruct (_ =? 0); [done|]. exists f. congruence. }
  destruct (as_page kend _ _ _ _ _ _ _ _ _ Has Hp) as (Hpok & _ & _). rewrite (proj2 (Z.eqb_neq _ 0)) by (apply page_range in Hpok; simpl; lia).
  set (n := if len <? PGSIZE - o then len else PGSIZE - o).
  assert (n = Z.min len (4096 - o)) as En by (unfold n, PGSIZE; destruct (Z.ltb_spec len (4096 - o)); lia). clearbody n.
  next. set (s1 := upd_mem (memmove (p + o) buf n) s).
  assert (va + n ≤ b) as Hnb.
  { destruct Hb as [->|(Hb1 & Hb2 & Hb3)]; [lia|]. destruct (Z.eq_dec b va) as [->|Hne]; [exfalso; apply Hb3; fold vp; eauto|].
    destruct Hb2 as [?|Hb2]; [done|]. Z.to_euclidean_division_equations. lia. }
  pose proof (wrote_page s free live pgdir T U vp p f o n buf src Has Hp) as Hw. rewrite <- Eva in Hw.
  specialize (Hw ltac:(lia) ltac:(lia) ltac:(lia) ltac:(intros i Hi; apply Hsrc; lia)).
  assert (aspace kend s1 free live pgdir T U) as Has1 by exact (wrote_aspace s free live pgdir T U _ _ _ _ Has Hw).
  rewrite uint_small by (unfold is_uint, PGSIZE; lia). unfold PGSIZE.
  destruct (Z.eq_dec len n) as [Hall|Hmore].
  - assert (b = va + len) as -> by (destruct Hb; lia). exists (memmove (p + o) buf n (km_mem s)). unfold copy_result. rewrite decide_True by done.
    rewrite Hall, Z.sub_diag. split; [|done]. by destruct fuel.
  - assert (4096 * vp + 4096 = va + n) as -> by lia.
    destruct (IH s1 (va + n) (buf + n) (len - n) Has1) as (m' & E & Hw'); try lia.
    + replace ((va + n) mod 4096) with 0; [Z.to_euclidean_division_equations; lia|]. replace (va + n) with ((vp + 1) * 4096) by lia. by rewrite Z.mod_mul.
    + destruct Hb as [->|(Hb1 & Hb2 & Hb3)]; [left; lia|right]. split_and!; [lia|lia| |done].
      right. destruct Hb2 as [->|?]; [lia|done].
    + intros vp' H1 H2 H3. apply Hgood; lia.
    + intros i Hi. destruct (Hsrc (n + i)) as [H1 H2]; [lia|]. rewrite Z.add_assoc in H1, H2. split; [|done].
      rewrite (proj2 Hw) by done. rewrite H1. f_equal. lia.
    + exists m'. rewrite E. split; [|by eapply wrote_trans; [|exact Hw|exact Hw']; lia].
      unfold copy_result. replace (va + n + (len - n)) with (va + len) by lia. done.
Qed.

(** The user bytes [va, b), up to the first page that is not a user page, are
    those of the buffer; the result says whether that is all of them. *)
Lemma copyout_ok (k : K) s free live pgdir T U va p len b : aspace kend s free live pgdir T U →
  0 ≤ va → 0 ≤ len → va + len ≤ KERNBASE → copy_ends T U va b len →
  (∀ vp, va < 4096 * vp + 4096 → 4096 * vp < b → va < b → ∃ q, upage_of T U vp = Some (Some q)) →
  (∀ i q, 0 ≤ i < len → q ∈ upages U → ¬ in_page q (p + i)) →
  ∃ m', copyout pgdir va p len (k, s) = copy_result T U va b len (k, upd_mem (λ _, m') s) ∧
    wrote U (km_mem s) m' va b (λ a, rd8 (km_mem s) (p + (a - va))) ∧ aspace kend (upd_mem (λ _, m') s) free live pgdir T U.
Proof.
  intros Has Hva Hlen Hend Hb Hgood Hbuf.
  destruct (copyout_loop_ok k free live pgdir T U b (λ a, rd8 (km_mem s) (p + (a - va))) (S (Z.to_nat (len / PGSIZE + 1))) s va p len Has) as (m' & E & Hw); try done.
  - unfold PGSIZE. Z.to_euclidean_division_equations. lia.
  - intros i Hi. split; [do 2 f_equal; lia|]. intros q Hq. by apply Hbuf.
  - exists m'. split; [done|]. split; [done|]. by eapply wrote_aspace.
Qed.

(** C32: [copyout] writes through a page table exactly the bytes it is given, as
    far as the target consists of user pages: it returns 0 when that is all of
    it, -1 when it comes to a page that is not present or not the user's, and
    is stopped by a fault when it comes to an address with no page table at
    all.  No other byte of any user page, of the page tables or of the kernel
    changes. *)
Theorem copyout_correct (k : K) s free live pgdir T U va p len b : aspace kend s free live pgdir T U →
  0 ≤ va → 0 ≤ len → va + len ≤ KERNBASE → copy_ends T U va b len →
  (∀ vp, va < 4096 * vp + 4096 → 4096 * vp < b → va < b → ∃ q, upage_of T U vp = Some (Some q)) →
  (∀ i q, 0 ≤ i < len → q ∈ upages U → ¬ in_page q (p + i)) →
  ∃ m', copyout pgdir va p len (k, s) = copy_result T U va b len (k, upd_mem (λ _, m') s) ∧
    wrote U (km_mem s) m' va b (λ a, rd8 (km_mem s) (p + (a - va))) ∧ aspace kend (upd_mem (λ _, m') s) free live pgdir T U.
Proof. apply copyout_ok. Qed.
End copyout.

Lemma copyuvm_isolated_witness : ∃ (k : hw) s k' s' r free' live' T' U', r ≠ 0 ∧ copyuvm ex_end 2148536320 (ex_page 0) 8192 (k, s) = Ret r (k', s') ∧
  created ex_end 2148536320 s (reverse (pages (ex_page 3) 1100)) [ex_page 0; ex_page 1; ex_page 2] s' free' live' r T' U' ∧ copied s ex_U s' U' 8192.
Proof.
  destruct (ex_stocked 1100) as (k & s & Hk & Has); [lia|].
  destruct (copyuvm_isolated ex_end 2148536320 (.∈ ({[kmem_lock]} : gset Z)) (hw_ok 0 [None] {[kmem_lock]}) [] ltac:(by apply elem_of_singleton_2)
    ltac:(apply not_elem_of_nil) ltac:(done) ltac:(done) k s _ _ _ _ _ 8192 Has Hk) as (k' & s' & r & free' & E & _ & Hr); [done|].
  destruct Hr as [(Hr & live' & T' & U' & H1 & H2)|(_ & Hr)].
  - exists k, s, k', s', r, free', live', T', U'. split; [exact Hr|]. split; [exact E|]. split; [exact H1|exact H2].
  - exfalso. pose proof (rs_few _ _ _ _ _ _ _ Hr) as Hn. rewrite length_reverse in Hn. unfold pages in Hn. rewrite length_fmap, length_seq in Hn.
    unfold ex_U in Hn. rewrite map_size_singleton in Hn. lia.
Defined.

Lemma copyout_correct_witness : ∃ (k : hw) s m', copyout (ex_page 0) 100 (ex_page 0) 4 (k, s) = Ret 0 (k, upd_mem (λ _, m') s) ∧
  wrote ex_U (km_mem s) m' 100 104 (λ a, rd8 (km_mem s) (ex_page 0 + (a - 100))).
Proof.
  destruct (ex_stocked 1) as (k & s & Hk & Has); [lia|]. assert (upage_of ex_T ex_U 0 = Some (Some (ex_page 2))) as H0 by (by vm_compute).
  destruct (copyout_correct ex_end k s _ _ (ex_page 0) ex_T ex_U 100 (ex_page 0) 4 104 Has) as (m' & E & Hw & _); [lia|lia|done|by left| | |].
  - intros vp H1 H2 _. replace vp with 0 by lia. by exists (ex_page 2).
  - intros i q Hi Hq. unfold upages, ex_U in Hq. rewrite map_to_list_singleton in Hq. simpl in Hq. apply list_elem_of_singleton in Hq as ->. unfold in_page, ex_page. lia.
  - exists k, s, m'. split; [exact E|exact Hw].
Defined.
