(* ===== verification/Pipe.v ===== *)
(** * Pipes (pipe.c)

    A pipe is a ring of [PIPESIZE] bytes with two counters that are never
    reduced and wrap at 2{^32}.  The file shows that the ring is a bounded FIFO
    queue: whatever the other processes do while a reader or a writer sleeps,
    the bytes go in at the end and come out at the front. *)
From stdpp Require Import base list gmap strings.
From Stdlib Require Import ZArith Lia.
From S2P Require Import Prelude Mmu Spinlock CpuLocks Proc RunQueue Sched Machine Kernel.
#[local] Open Scope Z_scope.

Definition PIPESIZE : Z := 512.

Record pipe := Pipe {
  pi_data : list Z;
  pi_nread : Z;
  pi_nwrite : Z;
  pi_readopen : bool;
  pi_writeopen : bool }.
Definition set_data v p := Pipe v (pi_nread p) (pi_nwrite p) (pi_readopen p) (pi_writeopen p).
Definition set_nread v p := Pipe (pi_data p) v (pi_nwrite p) (pi_readopen p) (pi_writeopen p).
Definition set_nwrite v p := Pipe (pi_data p) (pi_nread p) v (pi_readopen p) (pi_writeopen p).
Definition set_readopen v p := Pipe (pi_data p) (pi_nread p) (pi_nwrite p) v (pi_writeopen p).
Definition set_writeopen v p := Pipe (pi_data p) (pi_nread p) (pi_nwrite p) (pi_readopen p) v.

Section pipe.
Context {K : Type} `{!LockOps K, !ProcOps K}.
(** [&p->lock], [&p->nread], [&p->nwrite] *)
Variables p_lock p_nread p_nwrite : Z.

(** What [pipealloc] makes of a fresh page. *)
Definition pipe_init (data : list Z) : pipe := Pipe data 0 0 true true.

(** [pipeclose] says whether the page is given back to the allocator. *)
Definition pipeclose (writable : bool) : M (K * pipe) bool :=
  acquire_ p_lock ;;;
  (if writable then modify_ (set_writeopen false) ;;; wakeup_ p_nread
   else modify_ (set_readopen false) ;;; wakeup_ p_nwrite) ;;;
  let! ro := gets_ pi_readopen in
  let! wo := gets_ pi_writeopen in
  if negb ro && negb wo then release_ p_lock ;;; ret true
  else release_ p_lock ;;; ret false.

(** The [while] of [pipewrite]; [false] when the call returns -1.  After [fuel]
    wakeups that found the pipe full it is left sleeping. *)
Fixpoint pipewrite_wait (fuel : nat) : M (K * pipe) bool :=
  let! nwrite := gets_ pi_nwrite in
  let! nread := gets_ pi_nread in
  if negb (nwrite =? uint (nread + PIPESIZE)) then ret true else
  let! ro := gets_ pi_readopen in
  let! stop := (if negb ro then ret true else killed_) in
  if (stop : bool) then release_ p_lock ;;; ret false else
  wakeup_ p_nread ;;;
  match fuel with
  | O => park (sleep_ p_nwrite p_lock)
  | S f => sleep_ p_nwrite p_lock ;;; pipewrite_wait f
  end.

(** The [for] of [pipewrite] over the bytes still to be written. *)
Fixpoint pipewrite_loop (fuel : nat) (n : Z) (addr : list Z) : M (K * pipe) Z :=
  match addr with
  | [] => wakeup_ p_nread ;;; release_ p_lock ;;; ret n
  | c :: addr' =>
      let! go := pipewrite_wait fuel in
      if (go : bool) then
        let! nwrite := gets_ pi_nwrite in
        modify_ (set_nwrite (uint (nwrite + 1))) ;;;
        modify_ (λ p, set_data (<[Z.to_nat (nwrite mod PIPESIZE) := c]> (pi_data p)) p) ;;;
        pipewrite_loop fuel n addr'
      else ret (-1)
  end.
Definition pipewrite (fuel : nat) (addr : list Z) (n : Z) : M (K * pipe) Z :=
  acquire_ p_lock ;;; pipewrite_loop fuel n (take (Z.to_nat n) addr).

Fixpoint piperead_wait (fuel : nat) : M (K * pipe) bool :=
  let! nread := gets_ pi_nread in
  let! nwrite := gets_ pi_nwrite in
  let! wo := gets_ pi_writeopen in
  if negb ((nread =? nwrite) && wo) then ret true else
  let! kd := killed_ in
  if (kd : bool) then release_ p_lock ;;; ret false else
  match fuel with
  | O => park (sleep_ p_nread p_lock)
  | S f => sleep_ p_nread p_lock ;;; piperead_wait f
  end.

(** The bytes stored to [addr]. *)
Fixpoint piperead_copy (n : nat) : M (K * pipe) (list Z) :=
  match n with
  | O => ret []
  | S n' =>
      let! nread := gets_ pi_nread in
      let! nwrite := gets_ pi_nwrite in
      if nread =? nwrite then ret [] else
      let! data := gets_ pi_data in
      modify_ (set_nread (uint (nread + 1))) ;;;
      let! rest := piperead_copy n' in
      ret (data !!! Z.to_nat (nread mod PIPESIZE) :: rest)
  end.
Definition piperead (fuel : nat) (n : Z) : M (K * pipe) (Z * list Z) :=
  acquire_ p_lock ;;;
  let! go := piperead_wait fuel in
  if (go : bool) then
    let! bs := piperead_copy (Z.to_nat n) in
    wakeup_ p_nwrite ;;;
    release_ p_lock ;;;
    ret (Z.of_nat (length bs), bs)
  else ret (-1, []).

(** ** The ring is a queue *)
Record pipe_rep (p : pipe) (q : list Z) : Prop := {
  pr_len : length (pi_data p) = 512%nat;
  pr_nread : is_uint (pi_nread p);
  pr_nwrite : pi_nwrite p = uint (pi_nread p + Z.of_nat (length q));
  pr_size : (length q ≤ 512)%nat;
  pr_data i c : q !! i = Some c → pi_data p !! Z.to_nat ((pi_nread p + Z.of_nat i) mod 512) = Some c }.

Lemma uint_mod_512 z : uint z mod 512 = z mod 512.
Proof. zmod. Qed.

Lemma pipe_full p q : pipe_rep p q → (pi_nwrite p =? uint (pi_nread p + PIPESIZE)) = (length q =? 512)%nat.
Proof.
  intros [_ Hr Hw Hs _]. rewrite Hw. apply eq_bool_prop_intro. rewrite !Is_true_true, Z.eqb_eq, Nat.eqb_eq.
  unfold PIPESIZE, uint, is_uint in *. split; [|intros ->; done]. Z.to_euclidean_division_equations. lia.
Qed.

Lemma pipe_empty p q : pipe_rep p q → (pi_nread p =? pi_nwrite p) = bool_decide (q = []).
Proof.
  intros [_ Hr Hw Hs _]. rewrite Hw. apply eq_bool_prop_intro. rewrite !Is_true_true, Z.eqb_eq, bool_decide_eq_true.
  unfold uint, is_uint in *. split.
  - intros E. destruct q; [done|]. exfalso. simpl length in *. Z.to_euclidean_division_equations. lia.
  - intros ->. simpl. Z.to_euclidean_division_equations. lia.
Qed.

Lemma pipe_push p q c : pipe_rep p q → (length q < 512)%nat →
  pipe_rep (set_data (<[Z.to_nat (pi_nwrite p mod PIPESIZE) := c]> (pi_data p)) (set_nwrite (uint (pi_nwrite p + 1)) p)) (q ++ [c]).
Proof.
  intros [Hl Hr Hw Hs Hd] Hlt. split; simpl.
  - by rewrite length_insert.
  - done.
  - rewrite Hw, length_app. autorewrite with xv6_arith. f_equal. simpl. lia.
  - rewrite length_app. simpl. lia.
  - unfold PIPESIZE. rewrite Hw, uint_mod_512. intros i d Hi. rewrite lookup_app in Hi.
    destruct (q !! i) as [d'|] eqn:Ei.
    + injection Hi as <-. apply lookup_lt_Some in Ei as Hil. rewrite list_lookup_insert_ne; [by apply Hd|].
      unfold is_uint in Hr. Z.to_euclidean_division_equations. lia.
    + apply lookup_ge_None in Ei. destruct (i - length q)%nat as [|j] eqn:Ej; simpl in Hi; [|done]. injection Hi as <-.
      replace i with (length q) by lia. apply list_lookup_insert_eq. rewrite Hl. Z.to_euclidean_division_equations. lia.
Qed.

Lemma pipe_pop p q c : pipe_rep p (c :: q) →
  pi_data p !!! Z.to_nat (pi_nread p mod PIPESIZE) = c ∧ pipe_rep (set_nread (uint (pi_nread p + 1)) p) q.
Proof.
  intros [Hl Hr Hw Hs Hd]. split.
  - specialize (Hd 0%nat c eq_refl). rewrite Z.add_0_r in Hd. by apply list_lookup_total_correct.
  - split; simpl; [done|apply uint_range| |simpl in Hs; lia|].
    + rewrite Hw. simpl length. autorewrite with xv6_arith. f_equal. lia.
    + intros i d Hi. specialize (Hd (S i) d Hi).
      replace ((uint (pi_nread p + 1) + Z.of_nat i) mod 512) with ((pi_nread p + Z.of_nat (S i)) mod 512); [done|].
      unfold uint. Z.to_euclidean_division_equations. lia.
Qed.

Lemma pipe_rep_flags p q (w b : bool) : pipe_rep p q → pipe_rep (if w then set_writeopen b p else set_readopen b p) q.
Proof. intros [H1 H2 H3 H4 H5]. by destruct w; split. Qed.

(** ** What a call does to the queue *)
Context `{!ProcLaws K}.

(** A writer that has [rest] left to write, from the queue [q].  At every sleep
    it has appended a first part of [rest], the queue is full, and it goes on
    with the second part from whatever queue it finds.  It returns [n] when all
    of [rest] has been appended and -1 only from a full pipe. *)
Fixpoint writes (x : who) (n : Z) (rest q : list Z) (o : outcome (K * pipe) Z) : Prop :=
  match o with
  | Ret r (k, p) => k_runs x [] k ∧
      (r = n ∧ pipe_rep p (q ++ rest) ∨
       r = -1 ∧ ∃ c1 c2, rest = c1 ++ c2 ∧ c2 ≠ [] ∧ pipe_rep p (q ++ c1) ∧ length (q ++ c1) = 512%nat)
  | Block c (k, p) kont => c = p_nwrite ∧ k_switch k ∧
      ∃ c1 c2, rest = c1 ++ c2 ∧ c2 ≠ [] ∧ pipe_rep p (q ++ c1) ∧ length (q ++ c1) = 512%nat ∧ pi_readopen p = true ∧
        ∀ k' p' q', k_switch k' → k_current x k' → pipe_rep p' q' → writes x n c2 q' (kont (k', p'))
  | Asleep c (k, p) => c = p_nwrite ∧ k_switch k ∧
      ∃ c1 c2, rest = c1 ++ c2 ∧ c2 ≠ [] ∧ pipe_rep p (q ++ c1) ∧ length (q ++ c1) = 512%nat ∧ pi_readopen p = true
  | Panic _ | Fault | Spin => False
  end.

Lemma writes_cons x n c1 c2 q o : writes x n c2 (q ++ c1) o → writes x n (c1 ++ c2) q o.
Proof.
  destruct o as [r [k p]| | | |c [k p] kont|c [k p]]; simpl; try done.
  - intros [Hk [[-> H]|(-> & d1 & d2 & -> & Hne & H & Hl)]]; (split; [done|]).
    + left. split; [done|]. by rewrite app_assoc.
    + right. split; [done|]. exists (c1 ++ d1), d2. by rewrite !app_assoc in *.
  - intros (-> & Hk & d1 & d2 & -> & Hne & H & Hl & Hro & Hk'). split; [done|]. split; [done|].
    exists (c1 ++ d1), d2. rewrite !app_assoc in *. done.
  - intros (-> & Hk & d1 & d2 & -> & Hne & H & Hl & Hro). split; [done|]. split; [done|].
    exists (c1 ++ d1), d2. rewrite !app_assoc in *. done.
Qed.

Hypothesis Hlock : k_lock p_lock.

(** The waiting loop of a writer hands over to [f] when there is room. *)
Lemma pipewrite_wait_writes x n c rest (f : bool → M (K * pipe) Z) :
  (∀ k p q, k_runs x [p_lock] k → pipe_rep p q → (length q < 512)%nat → writes x n (c :: rest) q (f true (k, p))) →
  (∀ k p q, k_runs x [] k → pipe_rep p q → length q = 512%nat → writes x n (c :: rest) q (f false (k, p))) →
  ∀ fuel k p q, k_runs x [p_lock] k → pipe_rep p q →
    writes x n (c :: rest) q (bind (pipewrite_wait fuel) f (k, p)).
Proof.
  intros Ht Hf. induction fuel as [|fuel IH]; intros k p q Hk Hp; cbn [pipewrite_wait].
  all: do 2 (erewrite bind_bind_Ret; [|reflexivity]); cbn [snd]; rewrite (pipe_full p q Hp).
  all: destruct (Nat.eqb_spec (length q) 512) as [Hfull|Hfull]; cbn [negb];
    [|erewrite bind_Ret; [|reflexivity]; apply Ht; [done..|pose proof (pr_size _ _ Hp); lia]].
  all: erewrite bind_bind_Ret; [|reflexivity]; cbn [snd].
  all: assert (∃ b k1, (if negb (pi_readopen p) then ret true else killed_) (k, p) = Ret b (k1, p) ∧ k_runs x [p_lock] k1 ∧
        (b = false → pi_readopen p = true)) as (b & k1 & E1 & Hk1 & Hro)
    by (destruct (pi_readopen p); simpl; [destruct (killed_ok_ x [p_lock] k p Hk) as (b & k1 & E & Hk1); by exists b, k1|by exists true, k]).
  all: run2 E1; destruct b;
    [destruct (release_ok_ x [] [] p_lock k1 p Hk1) as (k2 & E2 & Hk2); run2 E2; erewrite bind_Ret; [|reflexivity]; by apply Hf|].
  all: destruct (wakeup_ok_ x [p_lock] p_nread k1 p Hk1) as (k2 & E2 & Hk2); [by intros l ->%list_elem_of_singleton|]; run2 E2.
  all: destruct (sleep_Block_ x p_lock p_nwrite k2 p Hk2 Hlock) as (k3 & kont & E3 & Hk3 & Hkont).
  - unfold bind, park. rewrite E3. simpl. split_and!; [done..|].
    exists [], (c :: rest). rewrite app_nil_r. split_and!; [done..|by apply Hro].
  - erewrite obind_Block; [|by apply obind_Block]. simpl. split_and!; [done..|].
    exists [], (c :: rest). rewrite app_nil_r. split_and!; [done..|by apply Hro|].
    intros k' p' q' Hk' Hc' Hp'. destruct (Hkont k' p' Hk' Hc') as (k4 & E4 & Hk4). rewrite E4. simpl.
    by apply IH.
Qed.

Lemma pipewrite_loop_writes x n fuel rest : ∀ k p q,
  k_runs x [p_lock] k → pipe_rep p q → writes x n rest q (pipewrite_loop fuel n rest (k, p)).
Proof.
  induction rest as [|c rest IH]; intros k p q Hk Hp; cbn [pipewrite_loop].
  - destruct (wakeup_ok_ x [p_lock] p_nread k p Hk) as (k2 & E2 & Hk2); [by intros l ->%list_elem_of_singleton|]. run E2.
    destruct (release_ok_ x [] [] p_lock k2 p Hk2) as (k3 & E3 & Hk3). run E3. simpl. split; [done|]. left. by rewrite app_nil_r.
  - apply pipewrite_wait_writes; [| |done|done].
    + intros k1 p1 q1 Hk1 Hp1 Hlt. cbv iota. do 3 (erewrite bind_Ret; [|reflexivity]). cbn [fst snd].
      apply (writes_cons x n [c] rest). apply IH; [done|]. exact (pipe_push p1 q1 c Hp1 Hlt).
    + intros k1 p1 q1 Hk1 Hp1 Hfull. cbv iota. simpl. split; [done|]. right. split; [done|].
      exists [], (c :: rest). rewrite app_nil_r. done.
Qed.

(** A reader of at most [n] bytes, from the queue [q].  It sleeps only on an
    empty pipe that can still be written; it takes the first bytes of the queue
    it finds; it returns 0 bytes only if the writers are gone. *)
Fixpoint reads (x : who) (n : nat) (q : list Z) (o : outcome (K * pipe) (Z * list Z)) : Prop :=
  match o with
  | Ret (r, bs) (k, p) => k_runs x [] k ∧
      (r = -1 ∧ bs = [] ∧ q = [] ∧ pipe_rep p q ∨
       bs = take n q ∧ r = Z.of_nat (length bs) ∧ pipe_rep p (drop n q) ∧ (q = [] → pi_writeopen p = false))
  | Block c (k, p) kont => c = p_nread ∧ k_switch k ∧ q = [] ∧ pipe_rep p q ∧ pi_writeopen p = true ∧
      ∀ k' p' q', k_switch k' → k_current x k' → pipe_rep p' q' → reads x n q' (kont (k', p'))
  | Asleep c (k, p) => c = p_nread ∧ k_switch k ∧ q = [] ∧ pipe_rep p q ∧ pi_writeopen p = true
  | Panic _ | Fault | Spin => False
  end.

Lemma piperead_copy_ok n : ∀ (k : K) p q, pipe_rep p q →
  ∃ p', piperead_copy n (k, p) = Ret (take n q) (k, p') ∧ pipe_rep p' (drop n q) ∧ pi_writeopen p' = pi_writeopen p.
Proof.
  induction n as [|n IH]; intros k p q Hp; cbn [piperead_copy]; [by exists p|].
  do 2 (erewrite bind_Ret; [|reflexivity]). cbn [snd]. rewrite (pipe_empty p q Hp).
  destruct q as [|c q]; [rewrite bool_decide_eq_true_2 by done; by exists p|].
  rewrite bool_decide_eq_false_2 by done. do 2 (erewrite bind_Ret; [|reflexivity]). cbn [fst snd].
  destruct (pipe_pop p q c Hp) as [Hc Hp1]. destruct (IH k _ q Hp1) as (p' & E & Hp' & Hwo).
  run E. exists p'. rewrite Hc. done.
Qed.

Lemma piperead_wait_reads x n (f : bool → M (K * pipe) (Z * list Z)) :
  (∀ k p q, k_runs x [p_lock] k → pipe_rep p q → (q = [] → pi_writeopen p = false) → reads x n q (f true (k, p))) →
  (∀ k p, k_runs x [] k → pipe_rep p [] → reads x n [] (f false (k, p))) →
  ∀ fuel k p q, k_runs x [p_lock] k → pipe_rep p q → reads x n q (bind (piperead_wait fuel) f (k, p)).
Proof.
  intros Ht Hf. induction fuel as [|fuel IH]; intros k p q Hk Hp; cbn [piperead_wait].
  all: do 3 (erewrite bind_bind_Ret; [|reflexivity]); cbn [snd]; rewrite (pipe_empty p q Hp).
  all: destruct (bool_decide (q = []) && pi_writeopen p) eqn:Eb; cbn [negb];
    [apply andb_true_iff in Eb as [Eq%bool_decide_eq_true_1 Ewo]; subst q
    |erewrite bind_Ret; [|reflexivity]; apply Ht; [done..|intros ->; by apply andb_false_iff in Eb as [?|?]]].
  all: destruct (killed_ok_ x [p_lock] k p Hk) as (b & k1 & E1 & Hk1); run2 E1; destruct b;
    [destruct (release_ok_ x [] [] p_lock k1 p Hk1) as (k2 & E2 & Hk2); run2 E2; erewrite bind_Ret; [|reflexivity]; by apply Hf|].
  all: destruct (sleep_Block_ x p_lock p_nread k1 p Hk1 Hlock) as (k3 & kont & E3 & Hk3 & Hkont).
  - unfold bind, park. rewrite E3. simpl. split_and!; done.
  - erewrite obind_Block; [|by apply obind_Block]. simpl. split_and!; [done..|].
    intros k' p' q' Hk' Hc' Hp'. destruct (Hkont k' p' Hk' Hc') as (k4 & E4 & Hk4). rewrite E4. simpl. by apply IH.
Qed.

(** C24: [pipewrite] of [n] bytes appends them in order to the FIFO queue that
    the ring holds.  Whenever it sleeps the pipe is full, open for reading, and
    holds what was there followed by a first part of the bytes; whatever queue
    the readers leave, it goes on with the rest at its end.  It returns [n]
    when all bytes are in the queue, and -1 only from a full pipe.  It never
    panics, spins or loses a byte, for any values of the two wrapping
    counters. *)
Theorem pipewrite_refines_queue x fuel addr n k p q :
  k_runs x [] k → pipe_rep p q → Z.of_nat (length addr) = n →
  writes x n addr q (pipewrite fuel addr n (k, p)).
Proof.
  intros Hk Hp Hn. unfold pipewrite. rewrite take_ge by lia.
  destruct (acquire_ok_ x [] p_lock k p Hk Hlock) as (k1 & E1 & Hk1); [apply not_elem_of_nil|].
  run E1. by apply pipewrite_loop_writes.
Qed.

(** C25: [piperead] of [n] bytes takes the first [n] bytes of the queue, or all
    of them if there are fewer.  It sleeps only while the pipe is empty and some
    writer is left, and then serves whatever queue it finds; it returns 0 only
    at the end of the stream. *)
Theorem piperead_refines_queue x fuel n k p q :
  k_runs x [] k → pipe_rep p q → reads x (Z.to_nat n) q (piperead fuel n (k, p)).
Proof.
  intros Hk Hp. unfold piperead.
  destruct (acquire_ok_ x [] p_lock k p Hk Hlock) as (k1 & E1 & Hk1); [apply not_elem_of_nil|]. run E1.
  apply piperead_wait_reads; [| |done|done].
  - intros k2 p2 q2 Hk2 Hp2 Hwo. cbv iota. destruct (piperead_copy_ok (Z.to_nat n) k2 p2 q2 Hp2) as (p3 & E3 & Hp3 & Hwo3). run E3.
    destruct (wakeup_ok_ x [p_lock] p_nwrite k2 p3 Hk2) as (k4 & E4 & Hk4); [by intros l ->%list_elem_of_singleton|]. run E4.
    destruct (release_ok_ x [] [] p_lock k4 p3 Hk4) as (k5 & E5 & Hk5). run E5. simpl. split; [done|]. right.
    split_and!; [done..|]. rewrite Hwo3. done.
  - intros k2 p2 Hk2 Hp2. simpl. split; [done|]. by left.
Qed.

(** [pipeclose] changes the flags only, and reports the pipe free when both
    ends are closed. *)
Lemma pipeclose_ok x w k p q : k_runs x [] k → pipe_rep p q →
  ∃ k' p', pipeclose w (k, p) = Ret (negb (pi_readopen p') && negb (pi_writeopen p')) (k', p') ∧ k_runs x [] k' ∧ pipe_rep p' q ∧
    pi_readopen p' = (if w then pi_readopen p else false) ∧ pi_writeopen p' = (if w then false else pi_writeopen p).
Proof.
  intros Hk Hp. unfold pipeclose.
  destruct (acquire_ok_ x [] p_lock k p Hk Hlock) as (k1 & E1 & Hk1); [apply not_elem_of_nil|]. run E1.
  set (p' := if w then set_writeopen false p else set_readopen false p).
  assert (∃ k2, (if w then modify_ (set_writeopen false) ;;; wakeup_ p_nread
      else modify_ (set_readopen false) ;;; wakeup_ p_nwrite) (k1, p) = Ret () (k2, p') ∧ k_runs x [p_lock] k2) as (k2 & E2 & Hk2).
  { unfold p'. destruct w; (erewrite bind_Ret; [|reflexivity]); cbn [fst snd]; apply wakeup_ok_; try done;
      by intros l ->%list_elem_of_singleton. }
  run E2. do 2 (erewrite bind_Ret; [|reflexivity]). cbn [snd].
  destruct (release_ok_ x [] [] p_lock k2 p' Hk2) as (k3 & E3 & Hk3). exists k3, p'.
  split; [|split; [done|split; [by apply pipe_rep_flags|unfold p'; by destruct w]]].
  destruct (negb (pi_readopen p') && negb (pi_writeopen p')); by run E3.
Qed.

End pipe.

(** ** An example: process 3 of the example machine on a fresh pipe *)
Lemma ex_pipe_rep : pipe_rep (pipe_init (replicate 512 0)) [].
Proof. split; simpl; [reflexivity|unfold is_uint; lia|reflexivity|lia|]. intros i c Hi. by rewrite lookup_nil in Hi. Qed.

Lemma pipewrite_refines_queue_witness :
  @writes kproc _ _ 11 (kproc_ProcLaws ex_D ex_ptable) (3%nat, 7) 2 [104; 105] []
    (pipewrite 2 10 11 1 [104; 105] 2 (ex_k, pipe_init (replicate 512 0))).
Proof.
  apply (@pipewrite_refines_queue kproc _ _ 2 10 11 (kproc_ProcLaws ex_D ex_ptable) ex_lock2 (3%nat, 7) 1 [104; 105] 2 ex_k
    (pipe_init (replicate 512 0)) [] ex_runs ex_pipe_rep).
  reflexivity.
Defined.

Lemma piperead_refines_queue_witness :
  @reads kproc _ _ 10 (kproc_ProcLaws ex_D ex_ptable) (3%nat, 7) 5 []
    (piperead 2 10 11 1 5 (ex_k, pipe_init (replicate 512 0))).
Proof.
  exact (@piperead_refines_queue kproc _ _ 2 10 11 (kproc_ProcLaws ex_D ex_ptable) ex_lock2 (3%nat, 7) 1 5 ex_k
    (pipe_init (replicate 512 0)) [] ex_runs ex_pipe_rep).
Defined.
