(* ===== verification/Sleeplock.v ===== *)
(** * Sleep locks (sleeplock.c)

    Long-term locks: a process that finds the lock taken sleeps until it is
    released.  The lock sits anywhere inside the state of a component, reached
    by a lens. *)
From stdpp Require Import base list gmap strings.
From Stdlib Require Import ZArith Lia.
From S2P Require Import Prelude Mmu Spinlock CpuLocks Proc RunQueue Sched Machine Kernel.
#[local] Open Scope Z_scope.

Record sleeplock := Sleeplock { sl_locked : bool; sl_name : string; sl_pid : Z }.

Section sleeplock.
Context {K T : Type} `{!LockOps K, !ProcOps K}.
Variable l : lens T sleeplock.
(** [&lk->lk] and [lk] *)
Variables lk_spin lk_chan : Z.

Definition upd_sl (f : sleeplock → sleeplock) : M (K * T) () := modify_ (λ t, lset l (f (lget l t)) t).

Definition initsleeplock (name : string) : M (K * T) () :=
  initlock_ lk_spin "sleep lock" ;;;
  upd_sl (λ s, Sleeplock (sl_locked s) name (sl_pid s)) ;;;
  upd_sl (λ s, Sleeplock false (sl_name s) (sl_pid s)) ;;;
  upd_sl (λ s, Sleeplock (sl_locked s) (sl_name s) 0).

(** [while (lk->locked) sleep(lk, &lk->lk);] *)
Fixpoint acquiresleep_wait (fuel : nat) : M (K * T) () :=
  let! locked := gets_ (λ t, sl_locked (lget l t)) in
  if (locked : bool) then
    match fuel with
    | O => park (sleep_ lk_chan lk_spin)
    | S f => sleep_ lk_chan lk_spin ;;; acquiresleep_wait f
    end
  else ret ().
Definition acquiresleep (fuel : nat) : M (K * T) () :=
  acquire_ lk_spin ;;;
  acquiresleep_wait fuel ;;;
  upd_sl (λ s, Sleeplock true (sl_name s) (sl_pid s)) ;;;
  let! pid := pid_ in
  upd_sl (λ s, Sleeplock (sl_locked s) (sl_name s) pid) ;;;
  release_ lk_spin.

Definition releasesleep : M (K * T) () :=
  acquire_ lk_spin ;;;
  upd_sl (λ s, Sleeplock false (sl_name s) (sl_pid s)) ;;;
  upd_sl (λ s, Sleeplock (sl_locked s) (sl_name s) 0) ;;;
  wakeup_ lk_chan ;;;
  release_ lk_spin.

Definition holdingsleep : M (K * T) bool :=
  acquire_ lk_spin ;;;
  let! s := gets_ (λ t, lget l t) in
  let! r := (if sl_locked s then let! pid := pid_ in ret (sl_pid s =? pid) else ret false) in
  release_ lk_spin ;;;
  ret r.

Context `{!ProcLaws K, !LensLaws l}.
Hypothesis Hlock : k_lock lk_spin.

Definition sl_free (t : T) : Prop := sl_locked (lget l t) = false.

(** Taking the lock: it sleeps only while someone else has it, and what it
    returns is a state in which it was free, with the lock and the holder's pid
    set and nothing else changed. *)
Fixpoint takes (x : who) (t0 : T) (o : outcome (K * T) ()) : Prop :=
  match o with
  | Ret _ (k, t) => k_runs x [] k ∧ sl_free t0 ∧
      t = lset l (Sleeplock true (sl_name (lget l t0)) x.2) t0
  | Block c (k, t) kont => c = lk_chan ∧ k_switch k ∧ t = t0 ∧ ¬ sl_free t0 ∧
      ∀ k' t', k_switch k' → k_current x k' → takes x t' (kont (k', t'))
  | Asleep c (k, t) => c = lk_chan ∧ k_switch k ∧ t = t0 ∧ ¬ sl_free t0
  | Panic _ | Fault | Spin => False
  end.

Lemma acquiresleep_wait_takes x (f : () → M (K * T) ()) :
  (∀ k t, k_runs x [lk_spin] k → sl_free t → takes x t (f () (k, t))) →
  ∀ fuel k t, k_runs x [lk_spin] k → takes x t (bind (acquiresleep_wait fuel) f (k, t)).
Proof.
  intros Hf. induction fuel as [|fuel IH]; intros k t Hk; cbn [acquiresleep_wait].
  all: erewrite bind_bind_Ret; [|reflexivity]; cbn [snd].
  all: destruct (sl_locked (lget l t)) eqn:El; [|erewrite bind_Ret; [|reflexivity]; by apply Hf].
  all: assert (¬ sl_free t) as Hnf by (unfold sl_free; by rewrite El).
  all: destruct (sleep_Block_ x lk_spin lk_chan k t Hk Hlock) as (k3 & kont & E3 & Hk3 & Hkont).
  - unfold bind, park. rewrite E3. simpl. split_and!; done.
  - erewrite obind_Block; [|by apply obind_Block]. simpl. split_and!; [done..|].
    intros k' t' Hk' Hc'. destruct (Hkont k' t' Hk' Hc') as (k4 & E4 & Hk4). rewrite E4. simpl. by apply IH.
Qed.

(** [acquiresleep] takes a sleep lock only when it is free: it sleeps, with
    the spin lock given up, as long as it finds the lock taken, whatever the
    other processes do, and when it returns, the lock was free and is now held
    with the caller's pid; nothing else of the state is touched. *)
Theorem acquiresleep_exclusive x fuel k t :
  k_runs x [] k → takes x t (acquiresleep fuel (k, t)).
Proof.
  intros Hk. unfold acquiresleep.
  destruct (acquire_ok_ x [] lk_spin k t Hk Hlock) as (k1 & E1 & Hk1); [apply not_elem_of_nil|]. run E1.
  apply acquiresleep_wait_takes; [|done]. intros k2 t2 Hk2 Hfree.
  erewrite bind_Ret; [|reflexivity]. cbn [fst snd].
  set (t3 := lset l (Sleeplock true (sl_name (lget l t2)) (sl_pid (lget l t2))) t2).
  destruct (pid_ok_ x [lk_spin] k2 t3 Hk2) as (k4 & E4 & Hk4). run E4.
  erewrite bind_Ret; [|reflexivity]. cbn [fst snd].
  destruct (release_ok_ x [] [] lk_spin k4 (lset l (Sleeplock (sl_locked (lget l t3)) (sl_name (lget l t3)) x.2) t3) Hk4) as (k5 & E5 & Hk5).
  rewrite E5. simpl. split; [done|]. split; [done|]. unfold t3. by rewrite !lget_lset, lset_lset.
Qed.

End sleeplock.

(** ** Locks that are free *)
Section uncontended.
Context {K T : Type} `{!LockOps K, !ProcOps K} {runs : who → list Z → K → Prop} {locks : Z → Prop} `{!RunLaws runs locks}.
Variable l : lens T sleeplock.
Context `{!LensLaws l}.
Variables lk_spin lk_chan : Z.
Hypothesis Hlock : locks lk_spin.

(** A free lock is taken at once. *)
Lemma acquiresleep_free x fuel k t : runs x [] k → sl_free l t →
  ∃ k', acquiresleep l lk_spin lk_chan fuel (k, t) = Ret () (k', lset l (Sleeplock true (sl_name (lget l t)) x.2) t) ∧ runs x [] k'.
Proof.
  intros Hk Hfree. unfold acquiresleep.
  destruct (acquire_ok_ x [] lk_spin k t Hk Hlock) as (k1 & E1 & Hk1); [apply not_elem_of_nil|]. run E1.
  assert (acquiresleep_wait l lk_spin lk_chan fuel (k1, t) = Ret () (k1, t)) as E2.
  { destruct fuel; cbn [acquiresleep_wait]; (erewrite bind_Ret; [|reflexivity]); cbn [snd]; by rewrite Hfree. }
  run E2. erewrite bind_Ret; [|reflexivity]. cbn [fst snd].
  set (t3 := lset l (Sleeplock true (sl_name (lget l t)) (sl_pid (lget l t))) t).
  destruct (pid_ok_ x [lk_spin] k1 t3 Hk1) as (k4 & E4 & Hk4). run E4.
  erewrite bind_Ret; [|reflexivity]. cbn [fst snd].
  destruct (release_ok_ x [] [] lk_spin k4 (lset l (Sleeplock (sl_locked (lget l t3)) (sl_name (lget l t3)) x.2) t3) Hk4) as (k5 & E5 & Hk5).
  rewrite E5. exists k5. split; [|done]. unfold t3. by rewrite !lget_lset, lset_lset.
Qed.

Lemma initsleeplock_ok x name k t : runs x [] k →
  ∃ k', initsleeplock l lk_spin name (k, t) = Ret () (k', lset l (Sleeplock false name 0) t) ∧ runs x [] k'.
Proof.
  intros Hk. unfold initsleeplock.
  destruct (initlock_ok_ x [] lk_spin "sleep lock" k t Hk Hlock) as (k1 & E1 & Hk1); [apply not_elem_of_nil|]. run E1.
  do 2 (erewrite bind_Ret; [|reflexivity]). unfold upd_sl, modify_. cbn [fst snd]. exists k1. split; [|done].
  by rewrite !lget_lset, !lset_lset.
Qed.

(** [releasesleep] frees the lock and wakes those who wait for it. *)
Lemma releasesleep_ok x k t : runs x [] k →
  ∃ k', releasesleep l lk_spin lk_chan (k, t) = Ret () (k', lset l (Sleeplock false (sl_name (lget l t)) 0) t) ∧ runs x [] k'.
Proof.
  intros Hk. unfold releasesleep.
  destruct (acquire_ok_ x [] lk_spin k t Hk Hlock) as (k1 & E1 & Hk1); [apply not_elem_of_nil|]. run E1.
  do 2 (erewrite bind_Ret; [|reflexivity]). cbn [fst snd]. rewrite !lget_lset, lset_lset. simpl.
  destruct (wakeup_ok_ x [lk_spin] lk_chan k1 (lset l (Sleeplock false (sl_name (lget l t)) 0) t) Hk1) as (k2 & E2 & Hk2);
    [by intros a ->%list_elem_of_singleton|]. run E2.
  destruct (release_ok_ x [] [] lk_spin k2 (lset l (Sleeplock false (sl_name (lget l t)) 0) t) Hk2) as (k3 & E3 & Hk3). eauto.
Qed.

Lemma holdingsleep_ok x k t : runs x [] k →
  ∃ k', holdingsleep l lk_spin (k, t) = Ret (sl_locked (lget l t) && (sl_pid (lget l t) =? x.2)) (k', t) ∧ runs x [] k'.
Proof.
  intros Hk. unfold holdingsleep.
  destruct (acquire_ok_ x [] lk_spin k t Hk Hlock) as (k1 & E1 & Hk1); [apply not_elem_of_nil|]. run E1.
  erewrite bind_Ret; [|reflexivity]. cbn [snd].
  assert (∃ k2, (if sl_locked (lget l t) then let! pid := pid_ in ret (sl_pid (lget l t) =? pid) else ret false) (k1, t)
    = Ret (sl_locked (lget l t) && (sl_pid (lget l t) =? x.2)) (k2, t) ∧ runs x [lk_spin] k2) as (k2 & E2 & Hk2).
  { destruct (sl_locked (lget l t)); [|by exists k1].
    destruct (pid_ok_ x [lk_spin] k1 t Hk1) as (k4 & E4 & Hk4). run E4. by exists k4. }
  run E2. destruct (release_ok_ x [] [] lk_spin k2 t Hk2) as (k3 & E3 & Hk3). run E3. by exists k3.
Qed.
End uncontended.

Definition id_lens {T} : lens T T := Lens id (λ t _, t).
#[export] Instance id_lens_laws {T} : LensLaws (@id_lens T).
Proof. done. Qed.

