(* ===== verification/Block.v ===== *)
(** * Disk blocks, and what the buffer cache promises about them

    The bytes of a block with the little-endian loads and stores the file
    system makes in them, and the interface between bio.c and its clients log.c
    and fs.c. *)
From stdpp Require Import base list gmap strings.
From Stdlib Require Import ZArith Lia.
From S2P Require Import Prelude Kernel.
#[local] Open Scope Z_scope.

(** fs.h, param.h *)
Definition BSIZE : Z := 512.
Definition MAXOPBLOCKS : Z := 10.
Definition LOGSIZE : Z := MAXOPBLOCKS * 3.
Definition NBUF : Z := MAXOPBLOCKS * 3.

Abbreviation block := (list Z).
Definition zero_block : block := replicate 512 0.

(** ** Loads and stores at a byte offset *)
Definition ld8 (d : block) (o : nat) : Z := default 0 (d !! o).
Definition st8 (o : nat) (v : Z) (d : block) : block := <[o := uchar v]> d.
Definition ld16 (d : block) (o : nat) : Z := ld8 d o + 256 * ld8 d (o + 1)%nat.
Definition st16 (o : nat) (v : Z) (d : block) : block := st8 (o + 1)%nat (Z.shiftr v 8) (st8 o v d).
Definition ld32 (d : block) (o : nat) : Z := ld16 d o + 65536 * ld16 d (o + 2)%nat.
Definition st32 (o : nat) (v : Z) (d : block) : block := st16 (o + 2)%nat (Z.shiftr v 16) (st16 o v d).

Definition bytes_ok (d : block) : Prop := Forall is_uchar d.
Definition block_ok (d : block) : Prop := length d = 512%nat ∧ bytes_ok d.

Lemma st8_length o v d : length (st8 o v d) = length d.
Proof. apply length_insert. Qed.
Lemma st16_length o v d : length (st16 o v d) = length d.
Proof. unfold st16. by rewrite !st8_length. Qed.
Lemma st32_length o v d : length (st32 o v d) = length d.
Proof. unfold st32. by rewrite !st16_length. Qed.
Lemma st8_bytes o v d : bytes_ok d → bytes_ok (st8 o v d).
Proof. intros H. apply Forall_insert; [done|apply uchar_range]. Qed.
Lemma st16_bytes o v d : bytes_ok d → bytes_ok (st16 o v d).
Proof. intros H. by do 2 apply st8_bytes. Qed.
Lemma st32_bytes o v d : bytes_ok d → bytes_ok (st32 o v d).
Proof. intros H. by do 2 apply st16_bytes. Qed.
Lemma st32_ok o v d : block_ok d → block_ok (st32 o v d).
Proof. intros [H1 H2]. split; [by rewrite st32_length|by apply st32_bytes]. Qed.
Lemma st16_ok o v d : block_ok d → block_ok (st16 o v d).
Proof. intros [H1 H2]. split; [by rewrite st16_length|by apply st16_bytes]. Qed.
Lemma st8_ok o v d : block_ok d → block_ok (st8 o v d).
Proof. intros [H1 H2]. split; [by rewrite st8_length|by apply st8_bytes]. Qed.
Lemma zero_block_ok : block_ok zero_block.
Proof. split; [done|]. apply Forall_replicate. unfold is_uchar. lia. Qed.

Lemma ld8_range d o : bytes_ok d → is_uchar (ld8 d o).
Proof.
  intros H. unfold ld8. destruct (d !! o) as [c|] eqn:E; simpl; [|unfold is_uchar; lia].
  unfold bytes_ok in H. rewrite Forall_lookup in H. eauto.
Qed.
Lemma ld8_st8 o v d o' : (o < length d)%nat → ld8 (st8 o v d) o' = if decide (o = o') then uchar v else ld8 d o'.
Proof.
  intros H. unfold ld8, st8. case_decide as E; [subst; by rewrite list_lookup_insert_eq|by rewrite list_lookup_insert_ne].
Qed.
Lemma ld16_st16 o v d : (o + 2 ≤ length d)%nat → ld16 (st16 o v d) o = ushort v.
Proof.
  intros H. unfold ld16, st16. rewrite !ld8_st8 by (rewrite ?st8_length; lia).
  repeat case_decide; try lia. rewrite Z.shiftr_div_pow2 by lia. change (2 ^ 8) with 256. zmod.
Qed.
Lemma ld16_st16_ne o v d o' : (o + 2 ≤ length d)%nat → (o' + 2 ≤ o ∨ o + 2 ≤ o')%nat → ld16 (st16 o v d) o' = ld16 d o'.
Proof.
  intros H Hne. unfold ld16, st16. rewrite !ld8_st8 by (rewrite ?st8_length; lia). by repeat case_decide; try lia.
Qed.
Lemma ld32_st32 o v d : (o + 4 ≤ length d)%nat → ld32 (st32 o v d) o = uint v.
Proof.
  intros H. unfold ld32, st32. rewrite ld16_st16 by (rewrite ?st16_length; lia).
  rewrite ld16_st16_ne, ld16_st16 by (rewrite ?st16_length; lia).
  rewrite Z.shiftr_div_pow2 by lia. change (2 ^ 16) with 65536. zmod.
Qed.
Lemma ld32_st32_ne o v d o' : (o + 4 ≤ length d)%nat → (o' + 4 ≤ o ∨ o + 4 ≤ o')%nat → ld32 (st32 o v d) o' = ld32 d o'.
Proof.
  intros H Hne. unfold ld32, st32. rewrite !ld16_st16_ne by (rewrite ?st16_length; lia). done.
Qed.
Lemma ld32_range d o : bytes_ok d → is_uint (ld32 d o).
Proof.
  intros H. unfold ld32, ld16, is_uint. pose proof (ld8_range d o H). pose proof (ld8_range d (o + 1) H).
  pose proof (ld8_range d (o + 2) H). pose proof (ld8_range d (o + 2 + 1) H). unfold is_uchar in *. lia.
Qed.
#[global] Arguments st8 : simpl never.
#[global] Arguments st16 : simpl never.
#[global] Arguments st32 : simpl never.
#[global] Arguments ld8 : simpl never.
#[global] Arguments ld16 : simpl never.
#[global] Arguments ld32 : simpl never.

(** [struct superblock] and [readsb] (fs.h, fs.c). *)
Record superblock := Superblock {
  sb_size : Z; sb_nblocks : Z; sb_ninodes : Z; sb_nlog : Z; sb_logstart : Z; sb_inodestart : Z; sb_bmapstart : Z }.
Definition decode_sb (d : block) : superblock :=
  Superblock (ld32 d 0) (ld32 d 4) (ld32 d 8) (ld32 d 12) (ld32 d 16) (ld32 d 20) (ld32 d 24).

(** ** The buffer cache as its clients see it *)
Class BlockOps (S : Type) := {
  bread : Z → Z → M S nat;             (* a locked buffer for a block of a device *)
  bwrite : nat → M S ();
  brelse : nat → M S ();
  b_data : nat → M S block;            (* b->data *)
  b_set : nat → block → M S ();        (* a store to b->data *)
  b_blockno : nat → M S Z;             (* b->blockno *)
  b_setdirty : nat → M S () }.         (* b->flags |= B_DIRTY *)

(** A block of a device. *)
Abbreviation bkey := (Z * Z)%type.

(** What a client knows: the blocks on disk, the blocks as the cache shows them,
    the buffers it holds, the blocks that are marked dirty and so stay cached,
    and the writes the disk has done, oldest first. *)
Record bspec := BSpec {
  bs_disk : bkey → block;
  bs_view : bkey → block;
  bs_held : gmap nat bkey;
  bs_dirty : gset bkey;
  bs_hist : list (bkey * block) }.

Definition upd (f : bkey → block) (k : bkey) (d : block) : bkey → block := λ k', if decide (k = k') then d else f k'.
Lemma upd_eq D k d : upd D k d k = d.
Proof. unfold upd. by rewrite decide_True. Qed.
Lemma upd_ne D k d k' : k ≠ k' → upd D k d k' = D k'.
Proof. intros. unfold upd. by rewrite decide_False. Qed.
Definition hold h k σ := BSpec (bs_disk σ) (bs_view σ) (<[h:=k]> (bs_held σ)) (bs_dirty σ) (bs_hist σ).
Definition unhold h σ := BSpec (bs_disk σ) (bs_view σ) (delete h (bs_held σ)) (bs_dirty σ) (bs_hist σ).
Definition show k d σ := BSpec (bs_disk σ) (upd (bs_view σ) k d) (bs_held σ) (bs_dirty σ) (bs_hist σ).
Definition dirty k σ := BSpec (bs_disk σ) (bs_view σ) (bs_held σ) ({[k]} ∪ bs_dirty σ) (bs_hist σ).
Definition written k σ := BSpec (upd (bs_disk σ) k (bs_view σ k)) (bs_view σ) (bs_held σ) (bs_dirty σ ∖ {[k]})
  (bs_hist σ ++ [(k, bs_view σ k)]).

(** The blocks whose buffer cannot be recycled. *)
Definition busy (σ : bspec) : gset bkey := map_img (bs_held σ) ∪ bs_dirty σ.

(** [rep x L s σ]: process [x] runs in [s] with the locks [L], and the blocks are
    as [σ] says. *)
Class BlockLaws (S : Type) `{!LockOps S, !ProcOps S, !BlockOps S} := {
  rep : who → list Z → S → bspec → Prop;
  rep_lock : Z → Prop;
  b_exists : bkey → Prop;             (* the blocks of the disks *)
  b_hist : S → list (bkey * block);
  rep_hist x L s σ : rep x L s σ → bs_hist σ = b_hist s;
  rep_run σ : RunLaws (λ x L s, rep x L s σ) rep_lock;
  rep_block x L s σ k : rep x L s σ → block_ok (bs_disk σ k) ∧ block_ok (bs_view σ k);
  (** a block that is neither held nor dirty is shown as it is on disk *)
  rep_clean x L s σ k : rep x L s σ → k ∉ busy σ → bs_view σ k = bs_disk σ k;
  rep_inj x L s σ h h' k : rep x L s σ → bs_held σ !! h = Some k → bs_held σ !! h' = Some k → h = h';
  bread_ok x s σ dev b : rep x [] s σ → (dev, b) ∉ map_img (SA := gset bkey) (bs_held σ) → b_exists (dev, b) →
    Z.of_nat (size (busy σ)) < NBUF ∨ (dev, b) ∈ bs_dirty σ →
    ∃ h s', bread dev b s = Ret h s' ∧ bs_held σ !! h = None ∧ rep x [] s' (hold h (dev, b) σ);
  bwrite_ok x s σ h k : rep x [] s σ → bs_held σ !! h = Some k →
    ∃ s', bwrite h s = Ret () s' ∧ rep x [] s' (written k σ);
  brelse_ok x s σ h k : rep x [] s σ → bs_held σ !! h = Some k →
    bs_view σ k = bs_disk σ k ∨ k ∈ bs_dirty σ →
    ∃ s', brelse h s = Ret () s' ∧ rep x [] s' (unhold h σ);
  b_data_ok x L s σ h k : rep x L s σ → bs_held σ !! h = Some k → b_data h s = Ret (bs_view σ k) s;
  b_set_ok x L s σ h k d : rep x L s σ → bs_held σ !! h = Some k → block_ok d →
    ∃ s', b_set h d s = Ret () s' ∧ rep x L s' (show k d σ);
  b_blockno_ok x L s σ h k : rep x L s σ → bs_held σ !! h = Some k → b_blockno h s = Ret k.2 s;
  b_setdirty_ok x L s σ h k : rep x L s σ → bs_held σ !! h = Some k →
    ∃ s', b_setdirty h s = Ret () s' ∧ rep x L s' (dirty k σ) }.

(** ** The same operations next to another component *)
Section lifted.
Context {S T : Type} `{!LockOps S, !ProcOps S, !BlockOps S, !BlockLaws S}.

Definition bread_ (dev b : Z) : M (S * T) nat := zoom fst_lens (bread dev b).
Definition bwrite_ (h : nat) : M (S * T) () := zoom fst_lens (bwrite h).
Definition brelse_ (h : nat) : M (S * T) () := zoom fst_lens (brelse h).
Definition b_data_ (h : nat) : M (S * T) block := zoom fst_lens (b_data h).
Definition b_set_ (h : nat) (d : block) : M (S * T) () := zoom fst_lens (b_set h d).
Definition b_blockno_ (h : nat) : M (S * T) Z := zoom fst_lens (b_blockno h).
Definition b_setdirty_ (h : nat) : M (S * T) () := zoom fst_lens (b_setdirty h).

Definition readsb (dev : Z) : M (S * T) superblock :=
  let! bp := bread_ dev 1 in
  let! d := b_data_ bp in
  brelse_ bp ;;;
  ret (decode_sb d).

Ltac lift H := match type of H with ∃ s', _ = Ret _ s' ∧ _ =>
  let s' := fresh "s" in let E := fresh "E" in let H' := fresh "H" in
  destruct H as (s' & E & H'); exists s'; split; [exact (zoom_Ret fst_lens _ (_, _) _ _ E)|exact H'] end.

Lemma acquire_rep x L lk s (t : T) σ : rep x L s σ → rep_lock lk → lk ∉ L →
  ∃ s', acquire_ lk (s, t) = Ret () (s', t) ∧ rep x (lk :: L) s' σ.
Proof. apply (acquire_ok_ (RunLaws0 := rep_run σ)). Qed.
Lemma release_rep x L1 L2 lk s (t : T) σ : rep x (L1 ++ lk :: L2) s σ →
  ∃ s', release_ lk (s, t) = Ret () (s', t) ∧ rep x (L1 ++ L2) s' σ.
Proof. apply (release_ok_ (RunLaws0 := rep_run σ)). Qed.
Lemma wakeup_rep x L chan s (t : T) σ : rep x L s σ → (∀ l, l ∈ L → rep_lock l) →
  ∃ s', wakeup_ chan (s, t) = Ret () (s', t) ∧ rep x L s' σ.
Proof. apply (wakeup_ok_ (RunLaws0 := rep_run σ)). Qed.
Lemma bread_rep x s (t : T) σ dev b : rep x [] s σ → (dev, b) ∉ map_img (SA := gset bkey) (bs_held σ) → b_exists (dev, b) →
  Z.of_nat (size (busy σ)) < NBUF ∨ (dev, b) ∈ bs_dirty σ →
  ∃ h s', bread_ dev b (s, t) = Ret h (s', t) ∧ bs_held σ !! h = None ∧ rep x [] s' (hold h (dev, b) σ).
Proof.
  intros H1 H2 H3 H4. destruct (bread_ok x s σ dev b H1 H2 H3 H4) as (h & s' & E & Hh & Hr).
  exists h, s'. split; [exact (zoom_Ret fst_lens _ (s, t) _ _ E)|done].
Qed.
Lemma bwrite_rep x s (t : T) σ h k : rep x [] s σ → bs_held σ !! h = Some k →
  ∃ s', bwrite_ h (s, t) = Ret () (s', t) ∧ rep x [] s' (written k σ).
Proof. intros H1 H2. pose proof (bwrite_ok x s σ h k H1 H2) as H. lift H. Qed.
Lemma brelse_rep x s (t : T) σ h k : rep x [] s σ → bs_held σ !! h = Some k →
  bs_view σ k = bs_disk σ k ∨ k ∈ bs_dirty σ →
  ∃ s', brelse_ h (s, t) = Ret () (s', t) ∧ rep x [] s' (unhold h σ).
Proof. intros H1 H2 H3. pose proof (brelse_ok x s σ h k H1 H2 H3) as H. lift H. Qed.
Lemma b_data_rep x L s (t : T) σ h k : rep x L s σ → bs_held σ !! h = Some k → b_data_ h (s, t) = Ret (bs_view σ k) (s, t).
Proof. intros H1 H2. exact (zoom_Ret fst_lens _ (s, t) _ _ (b_data_ok x L s σ h k H1 H2)). Qed.
Lemma b_set_rep x L s (t : T) σ h k d : rep x L s σ → bs_held σ !! h = Some k → block_ok d →
  ∃ s', b_set_ h d (s, t) = Ret () (s', t) ∧ rep x L s' (show k d σ).
Proof. intros H1 H2 H3. pose proof (b_set_ok x L s σ h k d H1 H2 H3) as H. lift H. Qed.
Lemma b_blockno_rep x L s (t : T) σ h k : rep x L s σ → bs_held σ !! h = Some k → b_blockno_ h (s, t) = Ret k.2 (s, t).
Proof. intros H1 H2. exact (zoom_Ret fst_lens _ (s, t) _ _ (b_blockno_ok x L s σ h k H1 H2)). Qed.
Lemma b_setdirty_rep x L s (t : T) σ h k : rep x L s σ → bs_held σ !! h = Some k →
  ∃ s', b_setdirty_ h (s, t) = Ret () (s', t) ∧ rep x L s' (dirty k σ).
Proof. intros H1 H2. pose proof (b_setdirty_ok x L s σ h k H1 H2) as H. lift H. Qed.
End lifted.
