(* ===== verification/Bio.v ===== *)
(** * The buffer cache (bio.c, buf.h) over the memory disk (memide.c)

    The cache is an array of [NBUF] buffers on a circular doubly linked list in
    order of use, with the list head as entry [NBUF].  The file shows that the
    list stays a ring of all the buffers, that a block is in at most one of
    them, and that the operations implement what Block.v promises to the log
    and the file system: the [BlockLaws] instance is the refinement. *)
From stdpp Require Import base list gmap strings.
From Stdlib Require Import ZArith Lia.
From S2P Require Import Prelude Mmu Spinlock CpuLocks Proc RunQueue Sched Machine Kernel Sleeplock Block.
#[local] Open Scope Z_scope.

Definition B_VALID : Z := 2.
Definition B_DIRTY : Z := 4.

(** [struct buf]; [prev] and [next] are places in the array, [NBUF] being the
    list head. *)
Record buf := Buf {
  bf_flags : Z; bf_dev : Z; bf_blockno : Z; bf_lock : sleeplock; bf_refcnt : Z;
  bf_prev : nat; bf_next : nat; bf_data : block }.
Definition set_flags v b := Buf v (bf_dev b) (bf_blockno b) (bf_lock b) (bf_refcnt b) (bf_prev b) (bf_next b) (bf_data b).
Definition set_bdev v b := Buf (bf_flags b) v (bf_blockno b) (bf_lock b) (bf_refcnt b) (bf_prev b) (bf_next b) (bf_data b).
Definition set_blockno v b := Buf (bf_flags b) (bf_dev b) v (bf_lock b) (bf_refcnt b) (bf_prev b) (bf_next b) (bf_data b).
Definition set_lock v b := Buf (bf_flags b) (bf_dev b) (bf_blockno b) v (bf_refcnt b) (bf_prev b) (bf_next b) (bf_data b).
Definition set_refcnt v b := Buf (bf_flags b) (bf_dev b) (bf_blockno b) (bf_lock b) v (bf_prev b) (bf_next b) (bf_data b).
Definition set_prev v b := Buf (bf_flags b) (bf_dev b) (bf_blockno b) (bf_lock b) (bf_refcnt b) v (bf_next b) (bf_data b).
Definition set_next v b := Buf (bf_flags b) (bf_dev b) (bf_blockno b) (bf_lock b) (bf_refcnt b) (bf_prev b) v (bf_data b).
Definition set_data v b := Buf (bf_flags b) (bf_dev b) (bf_blockno b) (bf_lock b) (bf_refcnt b) (bf_prev b) (bf_next b) v.
(** A buffer of the zeroed kernel data segment. *)
Definition buf0 : buf := Buf 0 0 0 (Sleeplock false "" 0) 0 0 0 zero_block.

(** [bcache] with memide.c's [memdisk], by blocks, and [disksize]; [bc_hist]
    records the writes to the disk. *)
Record bio := Bio {
  bc_buf : gmap nat buf; bc_disk : gmap Z block; bc_disksize : Z; bc_hist : list (bkey * block) }.
Definition bhead : nat := 30.
Definition bb (t : bio) (i : nat) : buf := default buf0 (bc_buf t !! i).
Definition upd_buf (i : nat) (f : buf → buf) (t : bio) : bio :=
  Bio (<[i := f (bb t i)]> (bc_buf t)) (bc_disk t) (bc_disksize t) (bc_hist t).
Definition disk_write (b : Z) (d : block) (t : bio) : bio :=
  Bio (bc_buf t) (<[b := d]> (bc_disk t)) (bc_disksize t) (bc_hist t ++ [((1, b), d)]).
(** [&bcache.buf[i].lock] *)
Definition lock_lens (i : nat) : lens bio sleeplock :=
  Lens (λ t, bf_lock (bb t i)) (λ l t, upd_buf i (set_lock l) t).

(** ** Circular doubly linked lists *)
(** From [a], following [nx] and back along [pv], the nodes [l] and then [z]. *)
Fixpoint dll (nx pv : nat → nat) (a : nat) (l : list nat) (z : nat) : Prop :=
  match l with
  | [] => nx a = z ∧ pv z = a
  | x :: l' => nx a = x ∧ pv x = a ∧ dll nx pv x l' z
  end.
Definition fupd (f : nat → nat) (i v : nat) : nat → nat := λ j, if decide (i = j) then v else f j.

Lemma fupd_eq f i v : fupd f i v i = v.
Proof. unfold fupd. by rewrite decide_True. Qed.
Lemma fupd_ne f i v j : i ≠ j → fupd f i v j = f j.
Proof. intros. unfold fupd. by rewrite decide_False. Qed.

Lemma fupd_ext f g i v : (∀ j, f j = g j) → ∀ j, fupd f i v j = fupd g i v j.
Proof. intros H j. unfold fupd. by rewrite H. Qed.

Lemma dll_app nx pv l1 : ∀ a x l2 z, dll nx pv a (l1 ++ x :: l2) z ↔ dll nx pv a l1 x ∧ dll nx pv x l2 z.
Proof. induction l1 as [|y l1 IH]; intros a x l2 z; simpl; [|rewrite IH]; tauto. Qed.

Lemma dll_ext nx pv nx' pv' l : ∀ a z, dll nx pv a l z →
  (∀ i, i ∈ a :: l → nx' i = nx i) → (∀ i, i ∈ z :: l → pv' i = pv i) → dll nx' pv' a l z.
Proof.
  induction l as [|x l IH]; intros a z; simpl.
  - intros [H1 H2] Hn Hp. rewrite Hn, Hp by set_solver. done.
  - intros (H1 & H2 & H3) Hn Hp. rewrite Hn, Hp by set_solver. split_and!; [done..|].
    apply IH; [done|..]; intros i Hi; [apply Hn|apply Hp]; set_solver.
Qed.

Lemma dll_rev nx pv l : ∀ a z, dll nx pv a l z → dll pv nx z (reverse l) a.
Proof.
  induction l as [|x l IH]; intros a z; simpl; [tauto|]. intros (H1 & H2 & H3).
  rewrite reverse_cons. apply dll_app. split; [by apply IH|]. done.
Qed.

Lemma dll_first nx pv a l z : dll nx pv a l z → nx a ∈ l ++ [z].
Proof. destruct l; simpl; intros H; destruct H; subst; set_solver. Qed.
Lemma dll_last nx pv l : ∀ a z, dll nx pv a l z → pv z ∈ a :: l.
Proof.
  induction l as [|x l IH]; intros a z; simpl; [intros [_ <-]; set_solver|].
  intros (_ & _ & H). apply IH in H. set_solver.
Qed.

(** Taking [b] out. *)
Lemma dll_unlink nx pv l1 : ∀ a b l2 z,
  dll nx pv a l1 b → dll nx pv b l2 z → NoDup (a :: l1 ++ b :: l2) → z ∉ l1 ++ b :: l2 →
  dll (fupd nx (pv b) (nx b)) (fupd pv (nx b) (pv b)) a (l1 ++ l2) z.
Proof.
  induction l1 as [|x l1 IH]; intros a b l2 z H1 H2 Hnd Hz.
  - destruct H1 as [H1 H1']. rewrite H1'. simpl. destruct l2 as [|y l2]; simpl in *.
    + destruct H2 as [-> H2]. by rewrite !fupd_eq.
    + destruct H2 as (-> & H2 & H3). rewrite !fupd_eq. split_and!; [done..|].
      apply (dll_ext nx pv); [done|..]; intros i Hi; apply fupd_ne; intros <-.
      * apply NoDup_cons in Hnd as [Hnd _]. set_solver.
      * apply NoDup_cons in Hnd as [_ [_ [Hnd _]%NoDup_cons]%NoDup_cons]. set_solver.
  - pose proof (dll_last _ _ _ _ _ H1) as Hp. pose proof (dll_first _ _ _ _ _ H2) as Hn.
    destruct H1 as (<- & H1' & H1). simpl in *. apply NoDup_cons in Hnd as [Ha Hnd].
    pose proof (dll_last _ _ _ _ _ H1) as Hp'. split_and!.
    + apply fupd_ne. intros <-. set_solver.
    + rewrite fupd_ne; [done|]. intros E. rewrite <- E in Hnd, Hz. apply NoDup_cons in Hnd as [Hnd _]. set_solver.
    + apply IH; [done..|set_solver].
Qed.

(** Putting [b] in front. *)
Lemma dll_push nx pv a b l z : dll nx pv a l z → b ∉ a :: l → NoDup (a :: l) → z ∉ b :: l →
  dll (fupd (fupd nx b (nx a)) a b) (fupd (fupd pv b a) (nx a) b) a (b :: l) z.
Proof.
  intros H Hb Hnd Hz. assert (b ≠ a) by set_solver. assert (nx a ≠ b).
  { intros E. apply dll_first in H. rewrite E in H. set_solver. }
  simpl. rewrite fupd_eq. split; [done|]. rewrite fupd_ne by done. rewrite fupd_eq. split; [done|].
  destruct l as [|y l]; simpl in *.
  - destruct H as [-> H]. by rewrite fupd_ne, !fupd_eq.
  - destruct H as (-> & H & H'). rewrite fupd_ne, !fupd_eq by done. split_and!; [done..|].
    apply NoDup_cons in Hnd as [Ha [Hy _]%NoDup_cons].
    apply (dll_ext nx pv); [done|..]; intros i Hi; rewrite !fupd_ne; try done; intros <-; set_solver.
Qed.

Section bio.
Context {K : Type} `{!LockOps K, !ProcOps K}.
(** [&bcache.lock], [&buf[i].lock.lk], [&buf[i].lock]; how many wakeups of a
    sleep lock are followed. *)
Variables (bcache_lock : Z) (buf_spin buf_chan : nat → Z) (fuel : nat).

Definition bf {A} (i : nat) (f : buf → A) : M (K * bio) A := gets_ (λ t, f (bb t i)).
Definition upd_ (i : nat) (f : buf → buf) : M (K * bio) () := modify_ (upd_buf i f).

(** ** memide.c *)
Definition ideinit (fs_img : gmap Z block) (fs_img_size : Z) : M (K * bio) () :=
  modify_ (λ t, Bio (bc_buf t) fs_img (sint (uint fs_img_size / BSIZE)) (bc_hist t)).

Definition iderw (b : nat) : M (K * bio) () :=
  let! h := holdingsleep (lock_lens b) (buf_spin b) in
  if negb h then panic "iderw: buf not locked" else
  let! fl := bf b bf_flags in
  if Z.land fl (Z.lor B_VALID B_DIRTY) =? B_VALID then panic "iderw: nothing to do" else
  let! dev := bf b bf_dev in
  if negb (dev =? 1) then panic "iderw: request not for disk 1" else
  let! bno := bf b bf_blockno in
  let! disksize := gets_ bc_disksize in
  if uint disksize <=? bno then panic "iderw: block out of range" else
  (if negb (Z.land fl B_DIRTY =? 0) then
     upd_ b (set_flags (Z.land fl (Z.lnot B_DIRTY))) ;;;
     let! d := bf b bf_data in
     modify_ (disk_write bno d)
   else
     let! p := gets_ (λ t, bc_disk t !! bno) in
     let! p := deref p in
     upd_ b (set_data p)) ;;;
  let! fl := bf b bf_flags in
  upd_ b (set_flags (Z.lor fl B_VALID)).

(** ** bio.c *)
Definition binit_buf (b : nat) : M (K * bio) () :=
  let! n := bf bhead bf_next in
  upd_ b (set_next n) ;;;
  upd_ b (set_prev bhead) ;;;
  initsleeplock (lock_lens b) (buf_spin b) "buffer" ;;;
  let! n := bf bhead bf_next in
  upd_ n (set_prev b) ;;;
  upd_ bhead (set_next b).
Fixpoint binit_loop (cnt b : nat) : M (K * bio) () :=
  match cnt with O => ret () | S c => binit_buf b ;;; binit_loop c (S b) end.
Definition binit : M (K * bio) () :=
  initlock_ bcache_lock "bcache" ;;;
  upd_ bhead (set_prev bhead) ;;;
  upd_ bhead (set_next bhead) ;;;
  binit_loop 30 0.

(** [for (; b != &bcache.head; b = b->dir) if (test(b)) return b;] A list that
    is not the ring of the buffers could be walked for ever. *)
Fixpoint bscan (dir : buf → nat) (test : buf → bool) (n : nat) (b : nat) : M (K * bio) (option nat) :=
  if (b =? bhead)%nat then ret None else
  match n with
  | O => λ _, Spin
  | S n' => let! x := bf b (λ x, x) in if test x then ret (Some b) else bscan dir test n' (dir x)
  end.

(** The conditions of the two loops of [bget]. *)
Definition is_block (dev blockno : Z) (b : buf) : bool := (bf_dev b =? dev) && (bf_blockno b =? blockno).
Definition reusable (b : buf) : bool := (bf_refcnt b =? 0) && (Z.land (bf_flags b) B_DIRTY =? 0).

Definition bget (dev blockno : Z) : M (K * bio) nat :=
  acquire_ bcache_lock ;;;
  let! h := bf bhead bf_next in
  let! r := bscan bf_next (is_block dev blockno) 30 h in
  match r with
  | Some b =>
      let! n := bf b bf_refcnt in
      upd_ b (set_refcnt (uint (n + 1))) ;;;
      release_ bcache_lock ;;;
      acquiresleep (lock_lens b) (buf_spin b) (buf_chan b) fuel ;;;
      ret b
  | None =>
      let! h := bf bhead bf_prev in
      let! r := bscan bf_prev reusable 30 h in
      match r with
      | Some b =>
          upd_ b (set_bdev dev) ;;;
          upd_ b (set_blockno blockno) ;;;
          upd_ b (set_flags 0) ;;;
          upd_ b (set_refcnt 1) ;;;
          release_ bcache_lock ;;;
          acquiresleep (lock_lens b) (buf_spin b) (buf_chan b) fuel ;;;
          ret b
      | None => panic "bget: no buffers"
      end
  end.

Definition bio_bread (dev blockno : Z) : M (K * bio) nat :=
  let! b := bget dev blockno in
  let! fl := bf b bf_flags in
  (if Z.land fl B_VALID =? 0 then iderw b else ret ()) ;;;
  ret b.

Definition bio_bwrite (b : nat) : M (K * bio) () :=
  let! h := holdingsleep (lock_lens b) (buf_spin b) in
  if negb h then panic "bwrite" else
  let! fl := bf b bf_flags in
  upd_ b (set_flags (Z.lor fl B_DIRTY)) ;;;
  iderw b.

Definition bio_brelse (b : nat) : M (K * bio) () :=
  let! h := holdingsleep (lock_lens b) (buf_spin b) in
  if negb h then panic "brelse" else
  releasesleep (lock_lens b) (buf_spin b) (buf_chan b) ;;;
  acquire_ bcache_lock ;;;
  let! n := bf b bf_refcnt in
  upd_ b (set_refcnt (uint (n - 1))) ;;;
  let! n := bf b bf_refcnt in
  (if n =? 0 then
     let! nx := bf b bf_next in let! pv := bf b bf_prev in
     upd_ nx (set_prev pv) ;;;
     let! pv := bf b bf_prev in let! nx := bf b bf_next in
     upd_ pv (set_next nx) ;;;
     let! h := bf bhead bf_next in
     upd_ b (set_next h) ;;;
     upd_ b (set_prev bhead) ;;;
     let! h := bf bhead bf_next in
     upd_ h (set_prev b) ;;;
     upd_ bhead (set_next b)
   else ret ()) ;;;
  release_ bcache_lock.

#[export] Instance bio_LockOps : LockOps (K * bio) := pair_LockOps.
#[export] Instance bio_ProcOps : ProcOps (K * bio) := pair_ProcOps.
#[export] Instance bio_BlockOps : BlockOps (K * bio) := {
  bread := bio_bread; bwrite := bio_bwrite; brelse := bio_brelse;
  b_data b := bf b bf_data;
  b_set b d := upd_ b (set_data d);
  b_blockno b := bf b bf_blockno;
  b_setdirty b := let! fl := bf b bf_flags in upd_ b (set_flags (Z.lor fl B_DIRTY)) }.

(** ** The invariant *)
Definition nxt (t : bio) (i : nat) : nat := bf_next (bb t i).
Definition prv (t : bio) (i : nat) : nat := bf_prev (bb t i).
Definition bkey_of (b : buf) : bkey := (bf_dev b, bf_blockno b).
Definition disk_of (t : bio) (k : bkey) : block := if k.1 =? 1 then default zero_block (bc_disk t !! k.2) else zero_block.

(** The buffers, most recently used first. *)
Definition lru (t : bio) (l : list nat) : Prop := dll (nxt t) (prv t) bhead l bhead ∧ l ≡ₚ seq 0 30.

(** Buffer [b], held by process [pid] for block [h] or by nobody. *)
Record buf_ok (pid : Z) (h : option bkey) (b : buf) : Prop := {
  bo_flags : bf_flags b = 0 ∨ bf_flags b = 2 ∨ bf_flags b = 6;
  bo_dev : bf_flags b = 0 → bf_dev b ≠ 1;
  bo_held : match h with
    | Some k => bkey_of b = k ∧ bf_flags b ≠ 0 ∧ bf_refcnt b = 1 ∧
        sl_locked (bf_lock b) = true ∧ sl_pid (bf_lock b) = pid
    | None => bf_refcnt b = 0 ∧ sl_locked (bf_lock b) = false
    end }.

(** The size of the disk image, in blocks. *)
Variable nblocks : Z.
Definition on_disk (k : bkey) : Prop := k.1 = 1 ∧ 0 ≤ k.2 < nblocks.

#[export] Instance on_disk_dec k : Decision (on_disk k).
Proof. unfold on_disk. apply _. Defined.

Record bio_inv (pid : Z) (t : bio) (σ : bspec) : Prop := {
  bi_lru : ∃ l, lru t l;
  bi_size : bc_disksize t = nblocks;
  bi_disk k : bs_disk σ k = disk_of t k;
  bi_image b : 0 ≤ b < nblocks → ∃ d, bc_disk t !! b = Some d;
  bi_blocks b d : bc_disk t !! b = Some d → block_ok d;
  bi_buf i : (i < 30)%nat → buf_ok pid (bs_held σ !! i) (bb t i);
  bi_lt i k : bs_held σ !! i = Some k → (i < 30)%nat;
  bi_valid i : (i < 30)%nat → bf_flags (bb t i) ≠ 0 →
    on_disk (bkey_of (bb t i)) ∧ bs_view σ (bkey_of (bb t i)) = bf_data (bb t i) ∧ block_ok (bf_data (bb t i));
  bi_clean i : (i < 30)%nat → bf_flags (bb t i) = 2 → bs_held σ !! i = None →
    bf_data (bb t i) = disk_of t (bkey_of (bb t i));
  bi_inj i j : (i < 30)%nat → (j < 30)%nat → bf_flags (bb t i) ≠ 0 → bf_flags (bb t j) ≠ 0 →
    bkey_of (bb t i) = bkey_of (bb t j) → i = j;
  bi_dirty k : k ∈ bs_dirty σ ↔ ∃ i, (i < 30)%nat ∧ bf_flags (bb t i) = 6 ∧ bkey_of (bb t i) = k;
  bi_uncached k : (∀ i, (i < 30)%nat → bf_flags (bb t i) ≠ 0 → bkey_of (bb t i) ≠ k) → bs_view σ k = disk_of t k;
  bi_hist : bs_hist σ = bc_hist t }.

Lemma bb_upd i f t j : bb (upd_buf i f t) j = if decide (i = j) then f (bb t i) else bb t j.
Proof.
  unfold bb at 1, upd_buf. simpl. case_decide as E; [subst; by rewrite lookup_insert_eq|by rewrite lookup_insert_ne].
Qed.
Lemma bb_upd_eq i f t : bb (upd_buf i f t) i = f (bb t i).
Proof. by rewrite bb_upd, decide_True. Qed.
Lemma bb_upd_ne i f t j : i ≠ j → bb (upd_buf i f t) j = bb t j.
Proof. intros. by rewrite bb_upd, decide_False. Qed.
Lemma bb_disk_write b d t i : bb (disk_write b d t) i = bb t i.
Proof. done. Qed.
Lemma upd_buf_upd i f g t : upd_buf i f (upd_buf i g t) = upd_buf i (λ b, f (g b)) t.
Proof. unfold upd_buf at 1. rewrite bb_upd_eq. unfold upd_buf. simpl. by rewrite insert_insert_eq. Qed.

#[export] Instance lock_lens_laws i : LensLaws (lock_lens i).
Proof.
  split; simpl.
  - intros l t. by rewrite bb_upd_eq.
  - intros l l' t. by rewrite upd_buf_upd.
Qed.

Lemma lru_lt t l i : lru t l → i ∈ l ↔ (i < 30)%nat.
Proof. intros [_ Hp]. rewrite Hp, elem_of_seq. lia. Qed.
Lemma lru_length t l : lru t l → length l = 30%nat.
Proof. intros [_ Hp]. by rewrite Hp. Qed.
Lemma lru_NoDup t l : lru t l → NoDup (bhead :: l).
Proof.
  intros Hl. apply NoDup_cons. split; [rewrite (lru_lt t l _ Hl); unfold bhead; lia|].
  destruct Hl as [_ ->]. apply NoDup_seq.
Qed.

Lemma bscan_ok dir test k t (g : nat → nat) l : ∀ n a,
  dll (λ i, dir (bb t i)) g a l bhead → bhead ∉ l → (length l ≤ n)%nat →
  ∃ r, bscan dir test n (dir (bb t a)) (k, t) = Ret r (k, t) ∧
    match r with
    | Some b => b ∈ l ∧ test (bb t b) = true
    | None => ∀ b, b ∈ l → test (bb t b) = false
    end.
Proof.
  induction l as [|x l IH]; intros n a; simpl.
  - intros [-> _] _ _. exists None. destruct n; simpl; (split; [done|]); intros b Hb; set_solver.
  - intros (-> & _ & H) Hh Hn. destruct n as [|n]; [lia|].
    assert (x ≠ bhead) as Hx by set_solver. cbn [bscan]. rewrite (proj2 (Nat.eqb_neq _ _) Hx).
    erewrite bind_Ret; [|reflexivity]. cbn [snd].
    destruct (test (bb t x)) eqn:Et.
    + exists (Some x). split; [done|]. split; [set_solver|done].
    + destruct (IH n x H) as (r & E & Hr); [set_solver|lia|]. exists r. split; [done|].
      destruct r as [b|]; [destruct Hr; split; [set_solver|done]|].
      intros b [->|Hb]%elem_of_cons; auto.
Qed.

Lemma lru_scan dir g test k t l : lru t l → dir = bf_next ∧ g = nxt t ∨ dir = bf_prev ∧ g = prv t →
  ∃ r, bscan dir test 30 (dir (bb t bhead)) (k, t) = Ret r (k, t) ∧
    match r with
    | Some b => (b < 30)%nat ∧ test (bb t b) = true
    | None => ∀ b, (b < 30)%nat → test (bb t b) = false
    end.
Proof.
  intros Hl Hdir. pose proof (lru_NoDup _ _ Hl) as [Hnh _]%NoDup_cons. pose proof (lru_length _ _ Hl) as Hlen.
  assert (∃ l', l' ≡ₚ l ∧ ∃ g', dll (λ i, dir (bb t i)) g' bhead l' bhead) as (l' & Hp & g' & Hd).
  { destruct Hl as [Hd _]. destruct Hdir as [[-> ->]|[-> ->]]; [by exists l; eauto|].
    exists (reverse l). split; [apply reverse_Permutation|]. exists (nxt t). by apply dll_rev. }
  destruct (bscan_ok dir test k t g' l' 30 bhead Hd) as (r & E & Hr); [by rewrite Hp|by rewrite Hp, Hlen|].
  exists r. split; [done|]. destruct r as [b|].
  - destruct Hr as [Hb Ht]. rewrite Hp, (lru_lt t l b Hl) in Hb. done.
  - intros b Hb. apply Hr. by rewrite Hp, (lru_lt t l b Hl).
Qed.

(** ** How the operations change the state *)
Lemma lru_links t t' l : lru t l → (∀ i, nxt t' i = nxt t i ∧ prv t' i = prv t i) → lru t' l.
Proof. intros [Hd Hp] H. split; [|done]. apply (dll_ext (nxt t) (prv t)); [done|..]; intros i _; apply H. Qed.

Lemma links_upd i f t : bf_next (f (bb t i)) = bf_next (bb t i) → bf_prev (f (bb t i)) = bf_prev (bb t i) →
  ∀ j, nxt (upd_buf i f t) j = nxt t j ∧ prv (upd_buf i f t) j = prv t j.
Proof. intros H1 H2 j. unfold nxt, prv. rewrite bb_upd. by case_decide; subst. Qed.

Definition content (b : buf) : Z * bkey * block := (bf_flags b, bkey_of b, bf_data b).

(** Taking and giving back buffers changes neither blocks nor flags. *)
Lemma bio_inv_held pid t σ t' H' :
  bio_inv pid t σ → (∀ j, (j < 30)%nat → content (bb t' j) = content (bb t j)) →
  bc_disk t' = bc_disk t → bc_disksize t' = bc_disksize t → bc_hist t' = bc_hist t → (∃ l, lru t' l) →
  (∀ i, (i < 30)%nat → buf_ok pid (H' !! i) (bb t' i)) → (∀ i k, H' !! i = Some k → (i < 30)%nat) →
  (∀ i, (i < 30)%nat → bf_flags (bb t i) = 2 → H' !! i = None → bf_data (bb t i) = disk_of t (bkey_of (bb t i))) →
  bio_inv pid t' (BSpec (bs_disk σ) (bs_view σ) H' (bs_dirty σ) (bs_hist σ)).
Proof.
  intros [B1 B2 B3 B4 B5 B6 B7 B8 B9 B10 B11 B12 B13] Hc E1 E2 E3 Hl Hb Hlt Hcl.
  assert (∀ j, (j < 30)%nat → bf_flags (bb t' j) = bf_flags (bb t j)) as Cf by (intros j Hj; by injection (Hc j Hj)).
  assert (∀ j, (j < 30)%nat → bkey_of (bb t' j) = bkey_of (bb t j)) as Ck
    by (intros j Hj; injection (Hc j Hj) as ????; unfold bkey_of; congruence).
  assert (∀ j, (j < 30)%nat → bf_data (bb t' j) = bf_data (bb t j)) as Cd by (intros j Hj; by injection (Hc j Hj)).
  assert (∀ k, disk_of t' k = disk_of t k) as Cdk by (intros k; unfold disk_of; by rewrite E1).
  split; simpl; try done.
  - by rewrite E2.
  - intros k. by rewrite Cdk.
  - by rewrite E1.
  - by rewrite E1.
  - intros i Hi. rewrite Cf, Ck, Cd by done. by apply B8.
  - intros i Hi. rewrite Cf, Ck, Cd, Cdk by done. by apply Hcl.
  - intros i j Hi Hj. rewrite !Cf, !Ck by done. by apply B10.
  - intros k. rewrite B11. split; intros (i & Hi & Hf & Hk); exists i; rewrite Cf, Ck in * by done; done.
  - intros k Hk. rewrite Cdk. apply B12. intros i Hi Hf. rewrite <- Ck by done. apply Hk; [done|]. by rewrite Cf.
  - by rewrite E3.
Qed.

(** A buffer nobody uses is given to another block, read from the disk. *)
Lemma bio_inv_recycle pid t σ i k b' :
  bio_inv pid t σ → (i < 30)%nat → bs_held σ !! i = None → bf_flags (bb t i) ≠ 6 → on_disk k →
  (∀ j, (j < 30)%nat → bf_flags (bb t j) ≠ 0 → bkey_of (bb t j) ≠ k) →
  content b' = (2, k, disk_of t k) → bf_next b' = nxt t i → bf_prev b' = prv t i →
  bf_refcnt b' = 1 → sl_locked (bf_lock b') = true → sl_pid (bf_lock b') = pid →
  bio_inv pid (upd_buf i (λ _, b') t) (hold i k σ).
Proof.
  intros [B1 B2 B3 B4 B5 B6 B7 B8 B9 B10 B11 B12 B13] Hi Hh Hf Hk Hunc Hc L1 L2 R1 R2 R3.
  assert (bf_flags b' = 2 ∧ bkey_of b' = k ∧ bf_data b' = disk_of t k) as (C1 & C2 & C3) by (by injection Hc).
  assert (∀ k', disk_of (upd_buf i (λ _, b') t) k' = disk_of t k') as Cdk by done.
  split; simpl; try done.
  - destruct B1 as [l Hl]. exists l. eapply lru_links; [done|]. by apply links_upd.
  - intros j Hj. rewrite bb_upd. case_decide as E; [subst j|by rewrite lookup_insert_ne; auto].
    rewrite lookup_insert_eq. split; [auto|lia|]. split_and!; try done. lia.
  - intros j k' Hj. destruct (decide (i = j)) as [->|]; [done|]. rewrite lookup_insert_ne in Hj by done. by eapply B7.
  - intros j Hj. rewrite bb_upd. case_decide as E; [|by apply B8]. intros _. rewrite C2, C3. split; [done|].
    assert (on_disk k) as [Hk1 Hk2] by done. split; [apply B12; done|]. unfold disk_of. rewrite Hk1. simpl.
    destruct (B4 _ Hk2) as [d Hd]. rewrite Hd. by eapply B5.
  - intros j Hj. rewrite bb_upd. case_decide as E; [by rewrite C2, C3|]. rewrite lookup_insert_ne by done. by apply B9.
  - intros j1 j2 Hj1 Hj2. rewrite !bb_upd. do 2 case_decide; subst; auto; rewrite ?C2; intros F1 F2 Ek; exfalso.
    + apply (Hunc j2); done.
    + apply (Hunc j1); done.
  - intros k'. rewrite B11. split; intros (j & Hj & F & E); exists j; (split; [done|]).
    + rewrite bb_upd_ne by congruence. done.
    + rewrite bb_upd in F, E. case_decide; [lia|done].
  - intros k' Hk'. destruct (decide (k' = bkey_of (bb t i) ∧ bf_flags (bb t i) ≠ 0)) as [[-> Hfi]|Hne].
    + destruct (B8 i Hi Hfi) as (_ & -> & _). apply B9; [done| |done]. destruct (B6 i Hi) as [[?|[?|?]] _ _]; done.
    + apply B12. intros j Hj Fj Ej. destruct (decide (i = j)) as [->|Hij]; [by apply Hne|].
      apply (Hk' j Hj); rewrite bb_upd_ne; done.
Qed.

(** A store to the data of a held buffer. *)
Lemma bio_inv_show pid t σ i k d :
  bio_inv pid t σ → bs_held σ !! i = Some k → block_ok d → bio_inv pid (upd_buf i (set_data d) t) (show k d σ).
Proof.
  intros [B1 B2 B3 B4 B5 B6 B7 B8 B9 B10 B11 B12 B13] Hh Hd. pose proof (B7 i k Hh) as Hi.
  pose proof (B6 i Hi) as [_ _ Hb]. rewrite Hh in Hb. destruct Hb as (Ek & Hf & _).
  assert (∀ j, bf_flags (bb (upd_buf i (set_data d) t) j) = bf_flags (bb t j)) as Cf by (intros j; rewrite bb_upd; by case_decide; subst).
  assert (∀ j, bkey_of (bb (upd_buf i (set_data d) t) j) = bkey_of (bb t j)) as Ck by (intros j; rewrite bb_upd; by case_decide; subst).
  split; simpl; try done.
  - destruct B1 as [l Hl]. exists l. eapply lru_links; [done|]. by apply links_upd.
  - intros j Hj. rewrite bb_upd. case_decide; [subst j|by auto]. destruct (B6 i Hi) as [F1 F2 F3]. split; done.
  - intros j Hj. rewrite Cf, Ck. intros Fj. rewrite bb_upd. unfold upd. destruct (B8 j Hj Fj) as (H1 & H2 & H3).
    destruct (decide (i = j)) as [<-|Hij]; [by rewrite decide_True|].
    rewrite decide_False; [done|]. intros Ekj. apply Hij, B10; try done. congruence.
  - intros j Hj. rewrite Cf, Ck. intros Fj Hj'. rewrite bb_upd_ne by congruence. by apply B9.
  - intros j1 j2. rewrite !Cf, !Ck. apply B10.
  - intros k'. rewrite B11. by split; intros (j & Hj); exists j; rewrite Cf, Ck in *.
  - intros k' Hk'. rewrite upd_ne.
    + apply B12. intros j Hj Fj. rewrite <- Ck. apply Hk'; [done|]. by rewrite Cf.
    + rewrite <- Ek, <- Ck. apply Hk'; [done|]. by rewrite Cf.
Qed.

(** Marking a held buffer dirty. *)
Lemma bio_inv_dirty pid t σ i k :
  bio_inv pid t σ → bs_held σ !! i = Some k → bio_inv pid (upd_buf i (set_flags 6) t) (dirty k σ).
Proof.
  intros [B1 B2 B3 B4 B5 B6 B7 B8 B9 B10 B11 B12 B13] Hh. pose proof (B7 i k Hh) as Hi.
  pose proof (B6 i Hi) as [_ _ Hb]. rewrite Hh in Hb. destruct Hb as (Ek & Hf & _). set (t' := upd_buf i (set_flags 6) t).
  assert (∀ j, bf_flags (bb t' j) ≠ 0 ↔ bf_flags (bb t j) ≠ 0) as Cf
    by (intros j; unfold t'; rewrite bb_upd; case_decide; subst; simpl; split; done).
  assert (∀ j, bkey_of (bb t' j) = bkey_of (bb t j)) as Ck by (intros j; unfold t'; rewrite bb_upd; by case_decide; subst).
  assert (∀ j, bf_data (bb t' j) = bf_data (bb t j)) as Cd by (intros j; unfold t'; rewrite bb_upd; by case_decide; subst).
  split; simpl; try done.
  - destruct B1 as [l Hl]. exists l. eapply lru_links; [done|]. by apply links_upd.
  - intros j Hj. unfold t'. rewrite bb_upd. case_decide; [subst j|by auto]. destruct (B6 i Hi) as [F1 F2 F3].
    rewrite Hh in *. split; [simpl; auto|done|]. destruct F3 as (? & ? & ?). split_and!; try done; apply H1.
  - intros j Hj. rewrite Cf, Ck, Cd. by apply B8.
  - intros j Hj. rewrite Ck, Cd. intros Fj Hj'. apply B9; [done| |done]. unfold t' in Fj. rewrite bb_upd_ne in Fj by congruence. done.
  - intros j1 j2. rewrite !Cf, !Ck. apply B10.
  - intros k'. rewrite elem_of_union, elem_of_singleton, B11. split.
    + intros [->|(j & Hj & Fj & Ej)].
      * exists i. rewrite Ck. split_and!; [done| |done]. unfold t'. by rewrite bb_upd_eq.
      * exists j. rewrite Ck. split_and!; [done| |done]. unfold t'. rewrite bb_upd. by case_decide.
    + intros (j & Hj & Fj & Ej). rewrite Ck in Ej. unfold t' in Fj. rewrite bb_upd in Fj. case_decide; [left; congruence|eauto].
  - intros k' Hk'. apply B12. intros j Hj Fj. rewrite <- Ck. apply Hk'; [done|]. by apply Cf.
Qed.

Lemma disk_of_write t b d k : disk_of (disk_write b d t) k = upd (disk_of t) (1, b) d k.
Proof.
  destruct k as [dev b']. unfold disk_of, upd. simpl. case_decide as E.
  - injection E as <- <-. simpl. by rewrite lookup_insert_eq.
  - destruct (Z.eqb_spec dev 1); [|done]. subst. rewrite lookup_insert_ne; [done|congruence].
Qed.

(** Writing a held buffer to the disk. *)
Lemma bio_inv_written pid t σ i k :
  bio_inv pid t σ → bs_held σ !! i = Some k →
  bio_inv pid (upd_buf i (set_flags 2) (disk_write k.2 (bf_data (bb t i)) t)) (written k σ).
Proof.
  intros [B1 B2 B3 B4 B5 B6 B7 B8 B9 B10 B11 B12 B13] Hh. pose proof (B7 i k Hh) as Hi.
  pose proof (B6 i Hi) as [_ _ Hb]. rewrite Hh in Hb. destruct Hb as (Ek & Hf & Hb).
  destruct (B8 i Hi Hf) as ([Hk1 Hk2] & Hv & Hok). rewrite Ek in Hk1, Hk2, Hv.
  assert (k = (1, k.2)) as Ek1 by (destruct k; simpl in *; congruence).
  set (t' := upd_buf i _ _).
  assert (∀ j, bf_flags (bb t' j) = if decide (i = j) then 2 else bf_flags (bb t j)) as Cf0 by (intros j; unfold t'; rewrite bb_upd; by case_decide).
  assert (∀ j, bf_flags (bb t' j) ≠ 0 ↔ bf_flags (bb t j) ≠ 0) as Cf by (intros j; rewrite Cf0; case_decide; subst; split; done).
  assert (∀ j, bkey_of (bb t' j) = bkey_of (bb t j)) as Ck by (intros j; unfold t'; rewrite bb_upd; by case_decide; subst).
  assert (∀ j, bf_data (bb t' j) = bf_data (bb t j)) as Cd by (intros j; unfold t'; rewrite bb_upd; by case_decide; subst).
  assert (∀ k', disk_of t' k' = upd (disk_of t) k (bf_data (bb t i)) k') as Cdk by (intros k'; rewrite Ek1 at 1; apply disk_of_write).
  split; simpl; try done.
  - destruct B1 as [l Hl]. exists l. apply (lru_links t); [done|].
    exact (links_upd i (set_flags 2) (disk_write k.2 (bf_data (bb t i)) t) eq_refl eq_refl).
  - intros k'. rewrite Cdk. unfold upd. rewrite Hv. case_decide; [done|apply B3].
  - intros b Hb'. destruct (decide (k.2 = b)) as [->|]; [rewrite lookup_insert_eq; eauto|rewrite lookup_insert_ne by done; auto].
  - intros b d'. destruct (decide (k.2 = b)) as [->|]; [rewrite lookup_insert_eq; by intros [= <-]|rewrite lookup_insert_ne by done; apply B5].
  - intros j Hj. unfold t'. rewrite bb_upd. case_decide; [subst j|by apply (B6 j)]. rewrite Hh. split; [simpl; auto|done|].
    destruct Hb as (? & ? & ?). split_and!; done.
  - intros j Hj. rewrite Cf, Ck, Cd. by apply B8.
  - intros j Hj. rewrite Cf0, Ck, Cd, Cdk. intros Fj Hj'. case_decide; [congruence|]. rewrite upd_ne; [by apply B9|].
    intros E. apply H, B10; [done..| |congruence]. lia.
  - intros j1 j2. rewrite !Cf, !Ck. apply B10.
  - intros k'. rewrite elem_of_difference, elem_of_singleton, B11. split.
    + intros [(j & Hj & Fj & Ej) Hne]. exists j. rewrite Cf0, Ck. case_decide; [subst; congruence|done].
    + intros (j & Hj & Fj & Ej). rewrite Ck in Ej. rewrite Cf0 in Fj. case_decide; [lia|]. split; [eauto|].
      intros ->. apply H, B10; [done..| |congruence]. lia.
  - intros k' Hk'. assert (k ≠ k') by (rewrite <- Ek, <- Ck; apply Hk'; [done|by apply Cf]).
    rewrite Cdk, upd_ne by done. apply B12. intros j Hj Fj. rewrite <- Ck. apply Hk'; [done|]. by apply Cf.
  - by rewrite B13, Hv, Ek1.
Qed.

(** ** The operations keep the invariant *)
Context `{!ProcLaws K}.
Hypothesis Hbl : k_lock bcache_lock.
Hypothesis Hspin : ∀ i, (i < 30)%nat → k_lock (buf_spin i).
Hypothesis Hnb : 0 ≤ nblocks < 2147483648.

(** The caller holds the sleep lock of buffer [i]. *)
Definition holds_buf (x : who) (t : bio) (i : nat) : Prop :=
  sl_locked (bf_lock (bb t i)) = true ∧ sl_pid (bf_lock (bb t i)) = x.2.

Lemma holdingsleep_held x k t i : k_runs x [] k → (i < 30)%nat → holds_buf x t i →
  ∃ k', holdingsleep (lock_lens i) (buf_spin i) (k, t) = Ret true (k', t) ∧ k_runs x [] k'.
Proof.
  intros Hk Hi [H1 H2]. destruct (holdingsleep_ok (lock_lens i) (buf_spin i) (Hspin i Hi) x k t Hk) as (k' & E & Hk').
  exists k'. split; [|done]. rewrite E. simpl. by rewrite H1, H2, Z.eqb_refl.
Qed.

Lemma iderw_read x k t i d : k_runs x [] k → (i < 30)%nat → holds_buf x t i →
  bf_flags (bb t i) = 0 → on_disk (bkey_of (bb t i)) → bc_disksize t = nblocks → bc_disk t !! bf_blockno (bb t i) = Some d →
  ∃ k', iderw i (k, t) = Ret () (k', upd_buf i (λ b, set_flags 2 (set_data d b)) t) ∧ k_runs x [] k'.
Proof.
  intros Hk Hi Hh Hf [H1 H2] Hs Hd. destruct (holdingsleep_held x k t i Hk Hi Hh) as (k1 & E1 & Hk1).
  exists k1. split; [|done]. unfold iderw. run E1. simpl in H1, H2.
  cbn [negb]. next. rewrite Hf. branchz. next. rewrite H1. branchz. do 2 next. rewrite Hs.
  rewrite (proj2 (Z.leb_gt (uint nblocks) _)) by (rewrite uint_small by (unfold is_uint; lia); lia).
  unfold bind, gets_, deref, upd_, modify_, ret, bf. simpl. rewrite Hd. simpl.
  rewrite upd_buf_upd, bb_upd_eq. simpl. rewrite Hf. done.
Qed.

Lemma iderw_write x k t i : k_runs x [] k → (i < 30)%nat → holds_buf x t i →
  bf_flags (bb t i) = 6 → on_disk (bkey_of (bb t i)) → bc_disksize t = nblocks →
  ∃ k', iderw i (k, t) =
    Ret () (k', upd_buf i (set_flags 2) (disk_write (bf_blockno (bb t i)) (bf_data (bb t i)) t)) ∧ k_runs x [] k'.
Proof.
  intros Hk Hi Hh Hf [H1 H2] Hs. destruct (holdingsleep_held x k t i Hk Hi Hh) as (k1 & E1 & Hk1).
  exists k1. split; [|done]. unfold iderw. run E1. simpl in H1, H2.
  cbn [negb]. next. rewrite Hf. branchz. next. rewrite H1. branchz. do 2 next. rewrite Hs.
  rewrite (proj2 (Z.leb_gt (uint nblocks) _)) by (rewrite uint_small by (unfold is_uint; lia); lia).
  unfold bind, gets_, deref, upd_, modify_, ret, bf. simpl. rewrite !bb_upd_eq. simpl.
  unfold upd_buf at 1. simpl. rewrite bb_disk_write, bb_upd_eq, insert_insert_eq. done.
Qed.
(** If every buffer is in use, [NBUF] blocks are. *)
Lemma bio_room pid t σ : bio_inv pid t σ → Z.of_nat (size (busy σ)) < NBUF →
  ¬ ∀ j, (j < 30)%nat → reusable (bb t j) = false.
Proof.
  intros [B1 B2 B3 B4 B5 B6 B7 B8 B9 B10 B11 B12 B13] Hsz Hall.
  assert (∀ j, (j < 30)%nat → bf_flags (bb t j) ≠ 0 ∧ bkey_of (bb t j) ∈ busy σ) as Huse.
  { intros j Hj. specialize (Hall j Hj). unfold reusable in Hall. unfold busy. pose proof (B6 j Hj) as [Hf Hd Hh].
    destruct (bs_held σ !! j) as [kj|] eqn:Ej.
    - destruct Hh as (Ek & Hf' & _). split; [done|]. apply elem_of_union_l. rewrite Ek. by eapply elem_of_map_img_2.
    - destruct Hh as (Er & _). rewrite Er in Hall. destruct Hf as [E|[E|E]]; rewrite E in Hall; [done..|].
      split; [lia|]. apply elem_of_union_r, B11. eauto. }
  assert (length (bkey_of ∘ bb t <$> seq 0 30) ≤ size (busy σ))%nat as Hle.
  { rewrite <- (size_list_to_set (C := gset bkey)).
    - apply subseteq_size. intros k [j [-> Hj]]%elem_of_list_to_set%list_elem_of_fmap. apply Huse. apply elem_of_seq in Hj. lia.
    - apply NoDup_fmap_2_strong; [|apply NoDup_seq]. intros i j Hi%elem_of_seq Hj%elem_of_seq E.
      apply B10; [lia|lia|apply Huse; lia|apply Huse; lia|done]. }
  rewrite length_fmap, length_seq in Hle. unfold NBUF, MAXOPBLOCKS in Hsz. lia.
Qed.

(** What [bget] leaves in the buffer it returns. *)
Definition lock_by (x : who) (b : buf) : buf := set_lock (Sleeplock true (sl_name (bf_lock b)) x.2) b.
Definition got_cached (x : who) (b : buf) : buf := lock_by x (set_refcnt 1 b).
Definition got_fresh (x : who) (dev bno : Z) (b : buf) : buf :=
  lock_by x (set_refcnt 1 (set_flags 0 (set_blockno bno (set_bdev dev b)))).

Lemma bget_ok x k t σ dev b : k_runs x [] k → bio_inv x.2 t σ →
  (dev, b) ∉ map_img (SA := gset bkey) (bs_held σ) → on_disk (dev, b) →
  Z.of_nat (size (busy σ)) < NBUF ∨ (dev, b) ∈ bs_dirty σ →
  ∃ i k', (i < 30)%nat ∧ bs_held σ !! i = None ∧ k_runs x [] k' ∧
    ((bkey_of (bb t i) = (dev, b) ∧ bget dev b (k, t) = Ret i (k', upd_buf i (got_cached x) t)) ∨
     ((∀ j, (j < 30)%nat → bkey_of (bb t j) ≠ (dev, b)) ∧ bf_flags (bb t i) ≠ 6 ∧
      bget dev b (k, t) = Ret i (k', upd_buf i (got_fresh x dev b) t))).
Proof.
  intros Hk Hinv Hni Hod Hroom. pose proof (bi_lru _ _ _ Hinv) as [l Hl]. unfold bget.
  destruct (acquire_ok_ x [] bcache_lock k t Hk Hbl) as (k1 & E1 & Hk1); [apply not_elem_of_nil|]. run E1. next.
  destruct (lru_scan bf_next (nxt t) (is_block dev b) k1 t l Hl) as (r & E2 & Hr); [by left|]. run E2. clear E2.
  assert (∀ i, (i < 30)%nat → bs_held σ !! i = None → sl_free (lock_lens i) t) as Hfree.
  { intros i Hi Hh. pose proof (bi_buf _ _ _ Hinv i Hi) as [_ _ Hb]. rewrite Hh in Hb. unfold sl_free. simpl. apply Hb. }
  destruct r as [i|].
  - destruct Hr as [Hi [Hd%Z.eqb_eq Hb%Z.eqb_eq]%andb_true_iff]. exists i.
    assert (bkey_of (bb t i) = (dev, b)) as Ek by (unfold bkey_of; congruence).
    pose proof (bi_buf _ _ _ Hinv i Hi) as [_ _ Hbuf]. destruct (bs_held σ !! i) as [ki|] eqn:Hh.
    { exfalso. apply Hni. rewrite <- Ek. destruct Hbuf as (-> & _). by eapply elem_of_map_img_2. }
    destruct Hbuf as [Href _]. do 2 next. rewrite Href. change (uint (0 + 1)) with 1.
    destruct (release_ok_ x [] [] bcache_lock k1 (upd_buf i (set_refcnt 1) t) Hk1) as (k2 & E2 & Hk2). run E2.
    destruct (acquiresleep_free (lock_lens i) (buf_spin i) (buf_chan i) (Hspin i Hi) x fuel k2 (upd_buf i (set_refcnt 1) t) Hk2) as (k3 & E3 & Hk3).
    { unfold sl_free. simpl. rewrite bb_upd_eq. by apply (Hfree i Hi). }
    run E3. exists k3. split_and!; [done..|]. left. split; [done|]. simpl. rewrite upd_buf_upd, bb_upd_eq. done.
  - next. destruct (lru_scan bf_prev (prv t) reusable k1 t l Hl) as (r & E2 & Hr2); [by right|]. run E2. clear E2.
    assert (∀ j, (j < 30)%nat → bkey_of (bb t j) ≠ (dev, b)) as Hunc.
    { intros j Hj [= E E']. specialize (Hr j Hj). unfold is_block in Hr. by rewrite E, E', !Z.eqb_refl in Hr. }
    destruct r as [i|].
    2: { exfalso. destruct Hroom as [Hroom|(i & Hi & _ & E)%(bi_dirty _ _ _ Hinv)]; [by apply (bio_room _ _ _ Hinv)|by apply (Hunc i)]. }
    destruct Hr2 as [Hi [Href%Z.eqb_eq Hd]%andb_true_iff]. exists i.
    pose proof (bi_buf _ _ _ Hinv i Hi) as [_ _ Hbuf]. destruct (bs_held σ !! i) as [ki|] eqn:Hh.
    { destruct Hbuf as (_ & _ & ? & _). lia. }
    do 4 next. rewrite !upd_buf_upd. set (f := λ b0 : buf, _).
    destruct (release_ok_ x [] [] bcache_lock k1 (upd_buf i f t) Hk1) as (k2 & E2 & Hk2). run E2.
    destruct (acquiresleep_free (lock_lens i) (buf_spin i) (buf_chan i) (Hspin i Hi) x fuel k2 (upd_buf i f t) Hk2) as (k3 & E3 & Hk3).
    { unfold sl_free. simpl. rewrite bb_upd_eq. by apply (Hfree i Hi). }
    run E3. exists k3. split_and!; [done..|]. right. split; [done|]. split.
    { intros E. rewrite E in Hd. done. }
    simpl. rewrite upd_buf_upd, bb_upd_eq. done.
Qed.

(** A block is read into a buffer of its own, unless it is cached. *)
Lemma bread_law x k t σ dev b : k_runs x [] k → bio_inv x.2 t σ →
  (dev, b) ∉ map_img (SA := gset bkey) (bs_held σ) → on_disk (dev, b) →
  Z.of_nat (size (busy σ)) < NBUF ∨ (dev, b) ∈ bs_dirty σ →
  ∃ h k' t', bio_bread dev b (k, t) = Ret h (k', t') ∧ bs_held σ !! h = None ∧ k_runs x [] k' ∧ bio_inv x.2 t' (hold h (dev, b) σ).
Proof.
  intros Hk Hinv Hni Hod Hroom. unfold bio_bread.
  destruct (bget_ok x k t σ dev b Hk Hinv Hni Hod Hroom) as (i & k1 & Hi & Hh & Hk1 & [[Ek E]|(Hunc & Hf & E)]); run E; next.
  - pose proof (bi_buf _ _ _ Hinv i Hi) as [Hf1 Hf2 Hf3]. rewrite Hh in Hf3.
    assert (bf_dev (bb t i) = 1) as Hdev by (injection Ek as -> _; apply Hod).
    rewrite bb_upd_eq. simpl. exists i, k1, (upd_buf i (got_cached x) t).
    split. { destruct Hf1 as [F|[F|F]]; [by apply Hf2 in F|rewrite F; done..]. }
    split; [done|]. split; [done|]. apply (bio_inv_held _ t); try done.
    + intros j _. rewrite bb_upd. by case_decide; subst.
    + destruct (bi_lru _ _ _ Hinv) as [l Hl]. exists l. eapply lru_links; [done|]. by apply links_upd.
    + intros j Hj. rewrite bb_upd. case_decide as Eij; [subst j|rewrite lookup_insert_ne by done; by apply (bi_buf _ _ _ Hinv)].
      rewrite lookup_insert_eq. split; [done|done|]. simpl. split_and!; try done. intros F. by apply Hf2 in F.
    + intros j kj. destruct (decide (i = j)) as [->|]; [done|]. rewrite lookup_insert_ne by done. apply (bi_lt _ _ _ Hinv).
    + intros j Hj Fj. destruct (decide (i = j)) as [->|]; [by rewrite lookup_insert_eq|]. rewrite lookup_insert_ne by done. by apply (bi_clean _ _ _ Hinv).
  - rewrite bb_upd_eq. simpl. destruct Hod as [Hod1 Hod2]. simpl in Hod1, Hod2. destruct (bi_image _ _ _ Hinv b Hod2) as [d Hd].
    destruct (iderw_read x k1 (upd_buf i (got_fresh x dev b) t) i d Hk1 Hi) as (k2 & E2 & Hk2); rewrite ?bb_upd_eq; try done.
    { unfold holds_buf. by rewrite bb_upd_eq. } { apply (bi_size _ _ _ Hinv). }
    run E2. rewrite upd_buf_upd. eexists i, k2, _. split; [done|]. split; [done|]. split; [done|].
    apply (bio_inv_recycle _ t σ i (dev, b) (set_flags 2 (set_data d (got_fresh x dev b (bb t i))))); try done; [by intros; apply Hunc|].
    unfold content, disk_of. simpl. by rewrite Hod1, Hd.
Qed.

Lemma held_buf (x : who) t σ i k : bio_inv x.2 t σ → bs_held σ !! i = Some k →
  (i < 30)%nat ∧ holds_buf x t i ∧ bkey_of (bb t i) = k ∧ (bf_flags (bb t i) = 2 ∨ bf_flags (bb t i) = 6) ∧
  bf_refcnt (bb t i) = 1 ∧ on_disk k ∧ bs_view σ k = bf_data (bb t i).
Proof.
  intros Hinv Hh. pose proof (bi_lt _ _ _ Hinv i k Hh) as Hi. pose proof (bi_buf _ _ _ Hinv i Hi) as [Hf _ Hb].
  rewrite Hh in Hb. destruct Hb as (Ek & Hf' & Hr & Hl & Hp). destruct (bi_valid _ _ _ Hinv i Hi Hf') as (Hd & Hv & _).
  rewrite Ek in Hd, Hv. split_and!; try done. destruct Hf as [?|?]; [done|done].
Qed.

(** [b->flags |= B_DIRTY] *)
Lemma or_dirty (x : who) t σ i k : bio_inv x.2 t σ → bs_held σ !! i = Some k → Z.lor (bf_flags (bb t i)) B_DIRTY = 6.
Proof. intros Hinv Hh. destruct (held_buf x t σ i k Hinv Hh) as (_ & _ & _ & [->| ->] & _); done. Qed.

Lemma bwrite_law x k t σ i key : k_runs x [] k → bio_inv x.2 t σ → bs_held σ !! i = Some key →
  ∃ k' t', bio_bwrite i (k, t) = Ret () (k', t') ∧ k_runs x [] k' ∧ bio_inv x.2 t' (written key σ).
Proof.
  intros Hk Hinv Hh. destruct (held_buf x t σ i key Hinv Hh) as (Hi & Hhb & Ek & Hf & Hr & Hod & Hv). unfold bio_bwrite.
  destruct (holdingsleep_held x k t i Hk Hi Hhb) as (k1 & E1 & Hk1). run E1. cbn [negb]. do 2 next.
  rewrite (or_dirty x t σ i key Hinv Hh).
  destruct (iderw_write x k1 (upd_buf i (set_flags 6) t) i Hk1 Hi) as (k2 & E2 & Hk2); rewrite ?bb_upd_eq; try done.
  { unfold holds_buf. rewrite bb_upd_eq. apply Hhb. } { change (on_disk (bkey_of (bb t i))). by rewrite Ek. } { apply (bi_size _ _ _ Hinv). }
  rewrite E2. exists k2. rewrite bb_upd_eq. eexists. split; [done|]. split; [done|].
  replace (upd_buf i (set_flags 2) _) with (upd_buf i (set_flags 2) (disk_write key.2 (bf_data (bb t i)) t)).
  - by apply bio_inv_written.
  - unfold upd_buf. rewrite !bb_disk_write. unfold disk_write, bb. simpl. rewrite lookup_insert_eq, insert_insert_eq. by rewrite <- Ek.
Qed.

(** The list operations of [brelse]. *)
Definition relink (b : nat) (t : bio) : bio :=
  let t := upd_buf (nxt t b) (set_prev (prv t b)) t in
  let t := upd_buf (prv t b) (set_next (nxt t b)) t in
  let t := upd_buf b (set_next (nxt t bhead)) t in
  let t := upd_buf b (set_prev bhead) t in
  let t := upd_buf (nxt t bhead) (set_prev b) t in
  upd_buf bhead (set_next b) t.

Lemma nxt_set_next i v t j : nxt (upd_buf i (set_next v) t) j = fupd (nxt t) i v j.
Proof. unfold nxt, fupd. rewrite bb_upd. by case_decide. Qed.
Lemma prv_set_prev i v t j : prv (upd_buf i (set_prev v) t) j = fupd (prv t) i v j.
Proof. unfold prv, fupd. rewrite bb_upd. by case_decide. Qed.
Lemma nxt_set_prev i v t j : nxt (upd_buf i (set_prev v) t) j = nxt t j.
Proof. unfold nxt. rewrite bb_upd. by case_decide; subst. Qed.
Lemma prv_set_next i v t j : prv (upd_buf i (set_next v) t) j = prv t j.
Proof. unfold prv. rewrite bb_upd. by case_decide; subst. Qed.

(** Everything but the links. *)
Definition unlinked (b : buf) : Z * bkey * block * (sleeplock * Z) := (content b, (bf_lock b, bf_refcnt b)).
Lemma unlinked_upd i f t j : (∀ b, unlinked (f b) = unlinked b) → unlinked (bb (upd_buf i f t) j) = unlinked (bb t j).
Proof. intros H. rewrite bb_upd. case_decide; subst; auto. Qed.
Lemma unlinked_relink b t j : unlinked (bb (relink b t) j) = unlinked (bb t j).
Proof. unfold relink. cbv zeta. by rewrite !unlinked_upd. Qed.

Lemma relink_links b t i : nxt t b ≠ b → b ≠ bhead →
  let nx := fupd (nxt t) (prv t b) (nxt t b) in let pv := fupd (prv t) (nxt t b) (prv t b) in
  nxt (relink b t) i = fupd (fupd nx b (nx bhead)) bhead b i ∧ prv (relink b t) i = fupd (fupd pv b bhead) (nx bhead) b i.
Proof.
  intros H1 H2. cbv zeta. unfold relink. set (t1 := upd_buf (nxt t b) _ t). cbv zeta. set (t2 := upd_buf (prv t1 b) _ t1).
  assert (∀ j, nxt t1 j = nxt t j) as N1 by (intros; apply nxt_set_prev).
  assert (∀ j, prv t1 j = fupd (prv t) (nxt t b) (prv t b) j) as P1 by (intros; apply prv_set_prev).
  assert (prv t1 b = prv t b) as P1b by (rewrite P1; by apply fupd_ne).
  assert (∀ j, nxt t2 j = fupd (nxt t) (prv t b) (nxt t b) j) as N2.
  { intros j. unfold t2. rewrite nxt_set_next, P1b, N1. unfold fupd. case_decide; [done|apply N1]. }
  assert (∀ j, prv t2 j = fupd (prv t) (nxt t b) (prv t b) j) as P2 by (intros; unfold t2; by rewrite prv_set_next).
  clearbody t2. clear t1 N1 P1 P1b.
  set (h' := fupd (nxt t) (prv t b) (nxt t b) bhead) in *.
  set (t4 := upd_buf b (set_prev bhead) _).
  assert (∀ j, nxt t4 j = fupd (nxt t2) b h' j) as N4 by (intros j; unfold t4; by rewrite nxt_set_prev, nxt_set_next, N2).
  assert (nxt t4 bhead = h') as N4h by (rewrite N4, fupd_ne by done; apply N2).
  rewrite N4h, nxt_set_next, prv_set_next, prv_set_prev. split.
  - apply fupd_ext. intros j. rewrite nxt_set_prev, N4. by apply fupd_ext.
  - apply fupd_ext. intros j. unfold t4. rewrite prv_set_prev. apply fupd_ext. intros j'. by rewrite prv_set_next.
Qed.

Lemma relink_lru b t l : lru t l → (b < 30)%nat → ∃ l', lru (relink b t) (b :: l').
Proof.
  intros Hl Hb. pose proof (lru_NoDup t l Hl) as Hnd. apply (lru_lt t l b Hl) in Hb.
  apply list_elem_of_split in Hb as (l1 & l2 & ->). destruct Hl as [Hd Hp].
  apply dll_app in Hd as [Hd1 Hd2]. exists (l1 ++ l2).
  assert (b :: l1 ++ l2 ≡ₚ l1 ++ b :: l2) as Hperm by apply Permutation_middle.
  split; [|by rewrite Hperm].
  assert (bhead ∉ l1 ++ b :: l2) as Hh by (by apply NoDup_cons in Hnd as [? _]).
  pose proof (dll_unlink _ _ _ _ _ _ _ Hd1 Hd2 Hnd Hh) as Hu.
  rewrite <- Hperm in Hnd. apply NoDup_cons in Hnd as [Hn1 [Hn2 Hn3]%NoDup_cons].
  assert (nxt t b ≠ b) as Hnb'.
  { intros E. apply dll_first in Hd2. rewrite E in Hd2. set_solver. }
  pose proof (dll_push _ _ bhead b (l1 ++ l2) bhead Hu ltac:(set_solver) ltac:(apply NoDup_cons; set_solver) ltac:(set_solver)) as Hpush.
  apply (dll_ext _ _ _ _ _ _ _ Hpush); intros i _; apply relink_links; set_solver.
Qed.

Lemma brelse_law x k t σ i key : k_runs x [] k → bio_inv x.2 t σ → bs_held σ !! i = Some key →
  bs_view σ key = bs_disk σ key ∨ key ∈ bs_dirty σ →
  ∃ k' t', bio_brelse i (k, t) = Ret () (k', t') ∧ k_runs x [] k' ∧ bio_inv x.2 t' (unhold i σ).
Proof.
  intros Hk Hinv Hh Hcl. destruct (held_buf x t σ i key Hinv Hh) as (Hi & Hhb & Ek & Hf & Hr & Hod & Hv). unfold bio_brelse.
  destruct (holdingsleep_held x k t i Hk Hi Hhb) as (k1 & E1 & Hk1). run E1. cbn [negb].
  destruct (releasesleep_ok (lock_lens i) (buf_spin i) (buf_chan i) (Hspin i Hi) x k1 t Hk1) as (k2 & E2 & Hk2). run E2.
  simpl. set (t2 := upd_buf i _ t).
  destruct (acquire_ok_ x [] bcache_lock k2 t2 Hk2 Hbl) as (k3 & E3 & Hk3); [apply not_elem_of_nil|]. run E3.
  assert (bf_refcnt (bb t2 i) = 1) as Hr2 by (unfold t2; by rewrite bb_upd_eq).
  do 3 next. rewrite Hr2, bb_upd_eq. change (uint (1 - 1)) with 0. cbn [bf_refcnt set_refcnt]. rewrite Z.eqb_refl.
  set (t3 := upd_buf i (set_refcnt 0) t2). erewrite bind_Ret; [|instantiate (1 := (k3, relink i t3)); instantiate (1 := ()); reflexivity].
  destruct (release_ok_ x [] [] bcache_lock k3 (relink i t3) Hk3) as (k4 & E4 & Hk4). rewrite E4. eexists k4, _.
  split; [done|]. split; [done|].
  assert (∀ j, j ≠ i → unlinked (bb (relink i t3) j) = unlinked (bb t j)) as Hoth.
  { intros j Hj. rewrite unlinked_relink. unfold t3, t2. by rewrite !bb_upd_ne. }
  assert (unlinked (bb (relink i t3) i) = (content (bb t i), (Sleeplock false (sl_name (bf_lock (bb t i))) 0, 0))) as Hthis.
  { rewrite unlinked_relink. unfold t3, t2. by rewrite !bb_upd_eq. }
  apply (bio_inv_held _ t); try done.
  - intros j Hj. destruct (decide (j = i)) as [->|Hne]; [exact (f_equal fst Hthis)|exact (f_equal fst (Hoth j Hne))].
  - destruct (bi_lru _ _ _ Hinv) as [l Hl]. destruct (relink_lru i t3 l) as [l' Hl']; [|done|by exists (i :: l')].
    apply (lru_links t); [done|]. intros j. unfold t3, t2. rewrite upd_buf_upd. by apply links_upd.
  - intros j Hj. pose proof (bi_buf _ _ _ Hinv j Hj) as [F1 F2 F3]. destruct (decide (j = i)) as [->|Hne].
    + rewrite lookup_delete_eq. unfold unlinked, content, bkey_of in Hthis. injection Hthis as G1 G2 G3 G4 G5 G6.
      split; [by rewrite G1|by rewrite G1, G2|]. by rewrite G5, G6.
    + rewrite lookup_delete_ne by done. pose proof (Hoth j Hne) as G. unfold unlinked, content, bkey_of in G. injection G as G1 G2 G3 G4 G5 G6.
      split; [by rewrite G1|by rewrite G1, G2|]. unfold bkey_of in *. by rewrite G1, G2, G3, G5, G6.
  - intros j kj. destruct (decide (i = j)) as [->|]; [by rewrite lookup_delete_eq|]. rewrite lookup_delete_ne by done. apply (bi_lt _ _ _ Hinv).
  - intros j Hj Fj. destruct (decide (i = j)) as [<-|].
    + intros _. rewrite Ek, <- Hv, <- (bi_disk _ _ _ Hinv). destruct Hcl as [?|(j & Hj' & Fj' & Ej)%(bi_dirty _ _ _ Hinv)]; [done|].
      exfalso. assert (i = j); [|subst; lia]. apply (bi_inj _ _ _ Hinv); [done..|lia|lia|congruence].
    + rewrite lookup_delete_ne by done. by apply (bi_clean _ _ _ Hinv).
Qed.
(** bio.c keeps the promises of [BlockLaws]. *)
Definition bio_rep (x : who) (L : list Z) (s : K * bio) (σ : bspec) : Prop := k_runs x L s.1 ∧ bio_inv x.2 s.2 σ.

Lemma disk_of_ok pid t σ k : bio_inv pid t σ → block_ok (disk_of t k).
Proof.
  intros Hinv. unfold disk_of. assert (block_ok zero_block) as Hz by (split; [done|by apply Forall_replicate]).
  destruct (k.1 =? 1); [|done]. destruct (bc_disk t !! k.2) eqn:E; simpl; [by eapply (bi_blocks _ _ _ Hinv)|done].
Qed.

Lemma uncached_dec t k : (∃ i, (i < 30)%nat ∧ bf_flags (bb t i) ≠ 0 ∧ bkey_of (bb t i) = k) ∨
  (∀ i, (i < 30)%nat → bf_flags (bb t i) ≠ 0 → bkey_of (bb t i) ≠ k).
Proof.
  destruct (decide (Exists (λ i, bf_flags (bb t i) ≠ 0 ∧ bkey_of (bb t i) = k) (seq 0 30))) as [H|H].
  - left. apply Exists_exists in H as (i & Hi%elem_of_seq & H). exists i. split; [lia|done].
  - right. intros i Hi Hf Hk. apply H, Exists_exists. exists i. split; [apply elem_of_seq; lia|done].
Qed.

Program Definition bio_BlockLaws : BlockLaws (K * bio) := {|
  rep := bio_rep; rep_lock := k_lock; b_exists := on_disk; b_hist s := bc_hist s.2 |}.
Next Obligation. intros x L s σ [_ H]. apply (bi_hist _ _ _ H). Qed.
Next Obligation. intros σ. apply (pair_RunLaws (λ x t, bio_inv x.2 t σ)). Qed.
Next Obligation.
  intros x L [k t] σ key [_ Hi]. rewrite (bi_disk _ _ _ Hi). split; [by eapply disk_of_ok|]. simpl in Hi.
  destruct (uncached_dec t key) as [(i & Hlt & Hf & <-)|Hu].
  - destruct (bi_valid _ _ _ Hi i Hlt Hf) as (_ & -> & ?). done.
  - rewrite (bi_uncached _ _ _ Hi) by done. by eapply disk_of_ok.
Qed.
Next Obligation.
  intros x L [k t] σ key [_ Hi] Hb. simpl in Hi. rewrite (bi_disk _ _ _ Hi).
  destruct (uncached_dec t key) as [(i & Hlt & Hf & Ek)|Hu]; [|by apply (bi_uncached _ _ _ Hi)].
  destruct (bi_valid _ _ _ Hi i Hlt Hf) as (_ & Hv & _). rewrite Ek in Hv. rewrite Hv, <- Ek.
  unfold busy in Hb. apply not_elem_of_union in Hb as [Hb1 Hb2]. destruct (bi_buf _ _ _ Hi i Hlt) as [F1 _ F3].
  destruct (bs_held σ !! i) as [k'|] eqn:Eh.
  { exfalso. apply Hb1. destruct F3 as (E & _). rewrite <- Ek, E. by eapply elem_of_map_img_2. }
  apply (bi_clean _ _ _ Hi); [done| |done]. destruct F1 as [?|[?|F]]; [done..|]. exfalso. apply Hb2, (bi_dirty _ _ _ Hi). eauto.
Qed.
Next Obligation.
  intros x L [k t] σ h h' key [_ Hi] H1 H2. simpl in Hi.
  destruct (held_buf x t σ h key Hi H1) as (A1 & _ & A2 & A3 & _). destruct (held_buf x t σ h' key Hi H2) as (B1 & _ & B2 & B3 & _).
  apply (bi_inj _ _ _ Hi); [done..|lia|lia|congruence].
Qed.
Next Obligation.
  intros x [k t] σ dev b [Hk Hi] H1 H2 H3. destruct (bread_law x k t σ dev b Hk Hi H1 H2 H3) as (h & k' & t' & E & Hh & Hk' & Hi').
  by exists h, (k', t').
Qed.
Next Obligation.
  intros x [k t] σ h key [Hk Hi] H1. destruct (bwrite_law x k t σ h key Hk Hi H1) as (k' & t' & E & Hk' & Hi'). by exists (k', t').
Qed.
Next Obligation.
  intros x [k t] σ h key [Hk Hi] H1 H2. destruct (brelse_law x k t σ h key Hk Hi H1 H2) as (k' & t' & E & Hk' & Hi'). by exists (k', t').
Qed.
Next Obligation.
  intros x L [k t] σ h key [Hk Hi] H1. simpl in Hi. destruct (held_buf x t σ h key Hi H1) as (_ & _ & _ & _ & _ & _ & ->). done.
Qed.
Next Obligation.
  intros x L [k t] σ h key d [Hk Hi] H1 H2. eexists. split; [reflexivity|]. split; [done|]. by apply bio_inv_show.
Qed.
Next Obligation.
  intros x L [k t] σ h key [Hk Hi] H1. simpl in Hi. destruct (held_buf x t σ h key Hi H1) as (_ & _ & <- & _). done.
Qed.
Next Obligation.
  intros x L [k t] σ h key [Hk Hi] H1. eexists. split; [reflexivity|]. split; [done|]. simpl.
  rewrite (or_dirty x t σ h key Hi H1). by apply bio_inv_dirty.
Qed.
(** ** Boot *)
(** The list operations of [binit] for one buffer, with its lock. *)
Definition linked_in (b : nat) (t : bio) : bio :=
  let t := upd_buf b (set_next (nxt t bhead)) t in
  let t := upd_buf b (set_prev bhead) t in
  let t := upd_buf b (set_lock (Sleeplock false "buffer" 0)) t in
  let t := upd_buf (nxt t bhead) (set_prev b) t in
  upd_buf bhead (set_next b) t.

Lemma binit_buf_ok x k t b : k_runs x [] k → (b < 30)%nat →
  ∃ k', binit_buf b (k, t) = Ret () (k', linked_in b t) ∧ k_runs x [] k'.
Proof.
  intros Hk Hb. unfold binit_buf. do 3 next.
  set (t2 := upd_buf b (set_prev bhead) (upd_buf b (set_next (bf_next (bb t bhead))) t)).
  destruct (initsleeplock_ok (lock_lens b) (buf_spin b) (Hspin b Hb) x "buffer" k t2 Hk) as (k' & E & Hk'). run E.
  by exists k'.
Qed.

Lemma linked_in_links b t i : b ≠ bhead →
  nxt (linked_in b t) i = fupd (fupd (nxt t) b (nxt t bhead)) bhead b i ∧
  prv (linked_in b t) i = fupd (fupd (prv t) b bhead) (nxt t bhead) b i.
Proof.
  intros Hb. unfold linked_in. cbv zeta. set (t3 := upd_buf b (set_lock _) _).
  assert (∀ j, nxt t3 j = fupd (nxt t) b (nxt t bhead) j) as N3.
  { intros j. unfold t3. etrans; [by apply links_upd|]. by rewrite nxt_set_prev, nxt_set_next. }
  assert (∀ j, prv t3 j = fupd (prv t) b bhead j) as P3.
  { intros j. unfold t3. etrans; [by apply links_upd|]. rewrite prv_set_prev. apply fupd_ext. intros j'. apply prv_set_next. }
  assert (nxt t3 bhead = nxt t bhead) as N3h by (rewrite N3; by apply fupd_ne).
  rewrite nxt_set_next, prv_set_next, prv_set_prev, N3h. split; apply fupd_ext; intros j; [by rewrite nxt_set_prev|done].
Qed.

(** A buffer as it is at boot, links apart. *)
Definition fresh (b : buf) : Prop := content b = (0, (0, 0), zero_block) ∧ sl_locked (bf_lock b) = false ∧ bf_refcnt b = 0.

Lemma fresh_upd i f t : (∀ b, fresh b → fresh (f b)) → (∀ j, fresh (bb t j)) → ∀ j, fresh (bb (upd_buf i f t) j).
Proof. intros H Ht j. rewrite bb_upd. case_decide; subst; auto. Qed.
Lemma fresh_linked_in b t : (∀ j, fresh (bb t j)) → ∀ j, fresh (bb (linked_in b t) j).
Proof.
  intros Ht. unfold linked_in. cbv zeta. repeat (apply fresh_upd; [intros b' (H1 & H2 & H3); by split_and!|]). done.
Qed.

Lemma binit_loop_ok x cnt : ∀ b k t l, k_runs x [] k → (b + cnt = 30)%nat → (∀ j, fresh (bb t j)) →
  dll (nxt t) (prv t) bhead l bhead → l ≡ₚ seq 0 b →
  ∃ k' t' l', binit_loop cnt b (k, t) = Ret () (k', t') ∧ k_runs x [] k' ∧ (∀ j, fresh (bb t' j)) ∧ lru t' l' ∧
    bc_disk t' = bc_disk t ∧ bc_disksize t' = bc_disksize t ∧ bc_hist t' = bc_hist t.
Proof.
  induction cnt as [|cnt IH]; intros b k t l Hk Hb Hfr Hd Hp; cbn [binit_loop].
  - exists k, t, l. split_and!; try done. split; [done|]. by replace 30%nat with b by lia.
  - destruct (binit_buf_ok x k t b Hk) as (k1 & E1 & Hk1); [lia|]. run E1.
    assert (∀ i, i ∈ l → (i < b)%nat) as Hlt by (intros i; rewrite Hp, elem_of_seq; lia).
    assert (b ≠ bhead) as Hbh by (unfold bhead; lia). assert (b ∉ l) by (intros ?%Hlt; lia).
    assert (bhead ∉ l) by (intros Hin%Hlt; unfold bhead in Hin; lia).
    destruct (IH (S b) k1 (linked_in b t) (b :: l) Hk1) as (k2 & t2 & l2 & E2 & H2); [lia|by apply fresh_linked_in| | |].
    + assert (dll (fupd (fupd (nxt t) b (nxt t bhead)) bhead b) (fupd (fupd (prv t) b bhead) (nxt t bhead) b) bhead (b :: l) bhead) as Hpush.
      { apply dll_push; [done|set_solver| |set_solver]. apply NoDup_cons. split; [done|]. rewrite Hp. apply NoDup_seq. }
      apply (dll_ext _ _ _ _ _ _ _ Hpush); intros i _; by apply linked_in_links.
    + rewrite seq_S, Hp. simpl. apply Permutation_cons_append.
    + exists k2, t2, l2. split; [done|]. destruct H2 as (? & ? & ? & -> & -> & ->). by split_and!.
Qed.

(** The disk image is what the cache shows after [binit]. *)
Definition boot_spec (img : gmap Z block) : bspec :=
  BSpec (disk_of (Bio ∅ img 0 [])) (disk_of (Bio ∅ img 0 [])) ∅ ∅ [].

Lemma binit_ok x k img : k_runs x [] k →
  (∀ b, 0 ≤ b < nblocks → ∃ d, img !! b = Some d) → (∀ b d, img !! b = Some d → block_ok d) →
  ∃ k' t', binit (k, Bio ∅ img nblocks []) = Ret () (k', t') ∧ bio_rep x [] (k', t') (boot_spec img) ∧ bc_disk t' = img.
Proof.
  intros Hk Hi1 Hi2. unfold binit. set (t0 := Bio ∅ img nblocks []).
  destruct (initlock_ok_ x [] bcache_lock "bcache" k t0 Hk Hbl) as (k1 & E1 & Hk1); [apply not_elem_of_nil|]. run E1. do 2 next.
  set (t1 := upd_buf _ _ _). destruct (binit_loop_ok x 30 0 k1 t1 []) as (k2 & t2 & l & E2 & Hk2 & Hfr & Hl & D1 & D2 & D3); try done.
  { repeat (apply fresh_upd; [intros b' (H1 & H2 & H3); by split_and!|]). intros j. change (fresh (default buf0 ((∅ : gmap nat buf) !! j))). by rewrite lookup_empty. }
  rewrite E2. exists k2, t2. split; [done|]. split; [|done]. split; [done|]. simpl.
  assert (∀ j, bf_flags (bb t2 j) = 0) as Hf0 by (intros j; destruct (Hfr j) as (F & _); by injection F).
  assert (∀ k, disk_of t2 k = disk_of (Bio ∅ img 0 []) k) as Hdk by (intros key; unfold disk_of; by rewrite D1).
  split; simpl; try done.
  - by exists l.
  - by rewrite D1.
  - by rewrite D1.
  - intros i Hi. rewrite lookup_empty. destruct (Hfr i) as (F & F2 & F3). split; [left; apply Hf0| |done].
    unfold content, bkey_of in F. injection F as _ F _ _. lia.
  - intros i Hi F. by rewrite Hf0 in F.
  - intros i Hi F. rewrite Hf0 in F. lia.
  - intros i j _ _ F. by rewrite Hf0 in F.
  - intros key. split; [set_solver|]. intros (i & _ & F & _). rewrite Hf0 in F. lia.
Qed.
(** ** A client of the cache *)
(** What a process does with the cache, by blocks: get one, look at it, change
    it, write it, mark it dirty as the log does, give it back. *)
Inductive bop := BRead (k : bkey) | BData (k : bkey) | BSet (k : bkey) (d : block)
  | BWrite (k : bkey) | BDirty (k : bkey) | BRelse (k : bkey).

(** The client remembers its buffers; it collects the data it looks at. *)
Definition client_op (ρ : gmap bkey nat) (o : bop) : M (K * bio) (gmap bkey nat * list block) :=
  match o with
  | BRead k => let! h := bread k.1 k.2 in ret (<[k := h]> ρ, [])
  | BData k => let! h := deref (ρ !! k) in let! d := b_data h in ret (ρ, [d])
  | BSet k d => let! h := deref (ρ !! k) in b_set h d ;;; ret (ρ, [])
  | BWrite k => let! h := deref (ρ !! k) in bwrite h ;;; ret (ρ, [])
  | BDirty k => let! h := deref (ρ !! k) in b_setdirty h ;;; ret (ρ, [])
  | BRelse k => let! h := deref (ρ !! k) in brelse h ;;; ret (delete k ρ, [])
  end.
Fixpoint client (ρ : gmap bkey nat) (os : list bop) : M (K * bio) (list block) :=
  match os with
  | [] => ret []
  | o :: os' => let! r := client_op ρ o in let! ds := client r.1 os' in ret (r.2 ++ ds)
  end.

(** The same on two arrays of blocks, a disk and a memory. *)
Record store := Store { st_disk : bkey → block; st_mem : bkey → block; st_held : gset bkey; st_dirty : gset bkey }.
Definition store_op (σ : store) (o : bop) : option (store * list block) :=
  let 'Store D V H Q := σ in
  match o with
  | BRead k => if decide ((k ∉ H) ∧ on_disk k ∧ (Z.of_nat (size (H ∪ Q)) < NBUF ∨ k ∈ Q)) then Some (Store D V ({[k]} ∪ H) Q, []) else None
  | BData k => if decide (k ∈ H) then Some (σ, [V k]) else None
  | BSet k d => if decide (k ∈ H ∧ length d = 512%nat ∧ Forall (λ b, 0 ≤ b < 256) d) then Some (Store D (upd V k d) H Q, []) else None
  | BWrite k => if decide (k ∈ H) then Some (Store (upd D k (V k)) V H (Q ∖ {[k]}), []) else None
  | BDirty k => if decide (k ∈ H) then Some (Store D V H ({[k]} ∪ Q), []) else None
  | BRelse k => if decide (k ∈ H ∧ (V k = D k ∨ k ∈ Q)) then Some (Store D V (H ∖ {[k]}) Q, []) else None
  end.
Fixpoint store_ops (σ : store) (os : list bop) : option (store * list block) :=
  match os with
  | [] => Some (σ, [])
  | o :: os' => r ← store_op σ o; r' ← store_ops r.1 os'; Some (r'.1, r.2 ++ r'.2)
  end.

(** The buffers [ρ] of the client are those given out. *)
Definition coupled (ρ : gmap bkey nat) (H : gmap nat bkey) : Prop := ∀ k h, ρ !! k = Some h ↔ H !! h = Some k.

Lemma coupled_insert ρ H k h : coupled ρ H → ρ !! k = None → H !! h = None → coupled (<[k := h]> ρ) (<[h := k]> H).
Proof.
  intros Hc Hk Hh k' h'. destruct (decide (k = k')) as [<-|Hne]; destruct (decide (h = h')) as [<-|Hne'];
    rewrite ?lookup_insert_eq, ?lookup_insert_ne by done; [done|..|apply Hc].
  - split; [congruence|]. intros E%Hc. congruence.
  - split; [|congruence]. intros E%Hc. congruence.
Qed.
Lemma coupled_delete ρ H k h : coupled ρ H → ρ !! k = Some h → coupled (delete k ρ) (delete h H).
Proof.
  intros Hc Hk k' h'. pose proof (proj1 (Hc _ _) Hk) as Hh. destruct (decide (k = k')) as [<-|Hne]; destruct (decide (h = h')) as [<-|Hne'];
    rewrite ?lookup_delete_eq, ?lookup_delete_ne by done; [done|..|apply Hc].
  - split; [done|]. intros E%Hc. congruence.
  - split; [|done]. intros E%Hc. congruence.
Qed.
Lemma coupled_img ρ H : coupled ρ H → map_img H = dom ρ.
Proof.
  intros Hc. apply set_eq. intros k. rewrite elem_of_map_img, elem_of_dom. unfold is_Some. unfold coupled in Hc. by setoid_rewrite Hc.
Qed.

(** The cache in state [s] is the store [τ]. *)
Definition caches (x : who) (s : K * bio) (ρ : gmap bkey nat) (τ : store) : Prop :=
  ∃ σ, bio_rep x [] s σ ∧ bs_disk σ = st_disk τ ∧ bs_view σ = st_mem τ ∧ bs_dirty σ = st_dirty τ ∧
    st_held τ = dom ρ ∧ coupled ρ (bs_held σ).

Lemma client_op_ok x s ρ τ o τ' ds : caches x s ρ τ → store_op τ o = Some (τ', ds) →
  ∃ s' ρ', client_op ρ o s = Ret (ρ', ds) s' ∧ caches x s' ρ' τ'.
Proof.
  intros (σ & [Hk Hi] & E1 & E2 & E3 & E4 & Hc) Ho. pose proof (coupled_img _ _ Hc) as Himg. destruct s as [k0 t0].
  destruct τ as [D V H Q]. cbn [fst snd st_disk st_mem st_held st_dirty] in *. subst D V Q H.
  assert (∀ k, k ∈ dom ρ → ∃ h, ρ !! k = Some h ∧ bs_held σ !! h = Some k) as Hin.
  { intros k [h Hh]%elem_of_dom. exists h. split; [done|]. by apply Hc. }
  destruct o as [k|k|k d|k|k|k]; cbn [store_op] in Ho; case_decide as Hg; try discriminate; injection Ho as <- <-; cbn [client_op];
    [|(apply Hin in Hg || (destruct Hg as [Hg Hg2]; apply Hin in Hg)); destruct Hg as (h & Hh & Hh'); rewrite Hh; next..].
  - destruct Hg as (G1 & G2 & G3). destruct k as [dev b].
    destruct (bread_law x k0 t0 σ dev b Hk Hi) as (h & k' & t' & E & Hn & Hk' & Hi'); [by rewrite Himg|done|unfold busy; by rewrite Himg|].
    exists (k', t'), (<[(dev, b) := h]> ρ). split; [by run E|]. exists (hold h (dev, b) σ). split; [done|].
    split_and!; [done|done|done|cbn [st_held]; by rewrite dom_insert_L|]. apply coupled_insert; [done|by apply not_elem_of_dom|done].
  - destruct (held_buf x t0 σ h k Hi Hh') as (_ & _ & _ & _ & _ & _ & Hv). exists (k0, t0), ρ. split; [by rewrite Hv|]. by exists σ.
  - exists (k0, upd_buf h (set_data d) t0), ρ. split; [done|]. exists (show k d σ). split; [|done]. split; [done|]. by apply bio_inv_show.
  - destruct (bwrite_law x k0 t0 σ h k Hk Hi Hh') as (k' & t' & E & Hk' & Hi'). exists (k', t'), ρ. split; [by run E|]. by exists (written k σ).
  - exists (k0, upd_buf h (set_flags 6) t0), ρ. split; [by rewrite <- (or_dirty x t0 σ h k Hi Hh')|]. exists (dirty k σ). split; [|done].
    split; [done|]. by apply bio_inv_dirty.
  - destruct (brelse_law x k0 t0 σ h k Hk Hi Hh' Hg2) as (k' & t' & E & Hk' & Hi'). exists (k', t'), (delete k ρ). split; [by run E|].
    exists (unhold h σ). split; [done|]. split_and!; [done|done|done|cbn [st_held]; by rewrite dom_delete_L|by apply coupled_delete].
Qed.

Lemma client_ok x os : ∀ s ρ τ τ' ds, caches x s ρ τ → store_ops τ os = Some (τ', ds) →
  ∃ s' ρ', client ρ os s = Ret ds s' ∧ caches x s' ρ' τ'.
Proof.
  induction os as [|o os IH]; intros s ρ τ τ' ds Hc Ho; simpl in *; [simplify_eq; by exists s, ρ|].
  apply bind_Some in Ho as ([τ1 d1] & Ho1 & Ho). apply bind_Some in Ho as ([τ2 d2] & Ho2 & [= <- <-]).
  destruct (client_op_ok x s ρ τ o τ1 d1 Hc Ho1) as (s1 & ρ1 & E1 & Hc1). run E1.
  destruct (IH s1 ρ1 τ1 τ2 d2 Hc1 Ho2) as (s2 & ρ2 & E2 & Hc2). run E2. by exists s2, ρ2.
Qed.

(** The store of a disk image. *)
Definition boot_store (img : gmap Z block) : store :=
  Store (disk_of (Bio ∅ img 0 [])) (disk_of (Bio ∅ img 0 [])) ∅ ∅.

Lemma boot_client x k img os τ' ds : k_runs x [] k →
  (∀ b, 0 ≤ b < nblocks → ∃ d, img !! b = Some d) → (∀ b d, img !! b = Some d → block_ok d) →
  store_ops (boot_store img) os = Some (τ', ds) →
  ∃ s' ρ, (binit ;;; client ∅ os) (k, Bio ∅ img nblocks []) = Ret ds s' ∧ caches x s' ρ τ'.
Proof.
  intros Hk H1 H2 Ho. destruct (binit_ok x k img Hk H1 H2) as (k1 & t1 & E1 & Hr & _). run E1.
  apply (client_ok x os (k1, t1) ∅ (boot_store img)); [|done].
  exists (boot_spec img). split; [done|]. by split_and!.
Qed.

(** C3: from boot on, the buffer cache is a store of blocks.  After [binit] on
    any disk image, any sequence of reads, changes, writes, dirty marks and
    releases of blocks that two plain arrays of blocks allow (a block is read
    only if it exists and is not held already, with fewer than [NBUF] blocks
    held or dirty; a changed block is released only written or marked dirty)
    runs to its end on the cache, whatever buffers it recycles; every look at a
    block shows what the arrays hold, and the disk ends up as the disk array. *)
Theorem bcache_refines x k img os τ' ds : k_runs x [] k →
  (∀ b, 0 ≤ b < nblocks → ∃ d, img !! b = Some d) → (∀ b d, img !! b = Some d → block_ok d) →
  store_ops (boot_store img) os = Some (τ', ds) →
  ∃ k' t', (binit ;;; client ∅ os) (k, Bio ∅ img nblocks []) = Ret ds (k', t') ∧ k_runs x [] k' ∧
    ∀ b, disk_of t' b = st_disk τ' b.
Proof.
  intros Hk H1 H2 Ho. destruct (boot_client x k img os τ' ds Hk H1 H2 Ho) as ([k2 t2] & ρ & E2 & σ & [Hk2 Hi2] & Ed & _).
  exists k2, t2. split; [done|]. split; [done|]. intros b. rewrite <- Ed. symmetry. apply (bi_disk _ _ _ Hi2).
Qed.
End bio.

(** An image of eight empty blocks. *)
Definition ex_img : gmap Z block := list_to_map ((λ b, (Z.of_nat b, zero_block)) <$> seq 0 8).
Lemma ex_img_all b : 0 ≤ b < 8 → ∃ d, ex_img !! b = Some d.
Proof.
  intros H. exists zero_block. assert (b = 0 ∨ b = 1 ∨ b = 2 ∨ b = 3 ∨ b = 4 ∨ b = 5 ∨ b = 6 ∨ b = 7) as Hb by lia.
  by destruct_or! Hb; subst.
Qed.
Lemma ex_img_ok b d : ex_img !! b = Some d → block_ok d.
Proof.
  intros H%elem_of_list_to_map_2%list_elem_of_fmap. destruct H as (i & [= -> ->] & _).
  split; [done|by apply Forall_replicate].
Qed.

Lemma bcache_refines_witness :
  ∃ k' t', (binit 2 (λ _, 2) ;;; client 2 (λ _, 2) (λ _, 11) 1 ∅
      [BRead (1, 5); BData (1, 5); BSet (1, 5) (replicate 512 7); BWrite (1, 5); BRelse (1, 5); BRead (1, 5); BData (1, 5)])
      (ex_k, Bio ∅ ex_img 8 []) = Ret [zero_block; replicate 512 7] (k', t') ∧
    runs_on ex_D (3%nat, 7) [] k' ∧ disk_of t' (1, 5) = replicate 512 7.
Proof.
  set (os := [_; _; _; _; _; _; _]).
  assert ((λ r, (r.2, st_disk r.1 (1, 5))) <$> store_ops 8 (boot_store ex_img) os = Some ([zero_block; replicate 512 7], replicate 512 7)) as E
    by (vm_compute; reflexivity).
  destruct (store_ops 8 (boot_store ex_img) os) as [[τ' ds]|] eqn:Eo; [|done]. injection E as -> Ed.
  destruct (@bcache_refines kproc _ _ 2 (λ _, 2) (λ _, 11) 1 8 (kproc_ProcLaws ex_D ex_ptable) ex_lock2 (λ _ _, ex_lock2) ltac:(lia)
    (3%nat, 7) ex_k ex_img os τ' _ ex_runs ex_img_all ex_img_ok Eo) as (k' & t' & E' & Hk & Hd).
  exists k', t'. split; [exact E'|]. split; [exact Hk|]. by rewrite Hd.
Defined.
