(* ===== verification/Ide.v ===== *)
(** * The IDE disk driver (ide.c)

    Requests wait in a queue of buffers; the one at its front is with the disk.
    [iderw] puts a buffer at the end and sleeps until it has been served;
    [ideintr] runs when the disk has finished, serves the front and starts the
    next.  The disk controller is an interface, reached by its ports.  The file
    shows that requests are served in order, each as if the disk were read or
    written at once, and that no waiter misses its wakeup. *)
From stdpp Require Import base list gmap strings.
From Stdlib Require Import ZArith Lia.
From S2P Require Import Prelude Mmu Spinlock CpuLocks Proc RunQueue Sched Machine Kernel Sleeplock Block Bio.
#[local] Open Scope Z_scope.

Definition SECTOR_SIZE : Z := 512.
Definition IDE_BSY : Z := 128.
Definition IDE_DRDY : Z := 64.
Definition IDE_DF : Z := 32.
Definition IDE_ERR : Z := 1.
Definition IDE_CMD_READ : Z := 32.
Definition IDE_CMD_WRITE : Z := 48.
Definition IDE_CMD_RDMUL : Z := 196.
Definition IDE_CMD_WRMUL : Z := 197.
Definition FSSIZE : Z := 1000.

(** The ports of the controller (x86.h): bytes, and the words of a block. *)
Class PortOps (H : Type) := {
  p_inb : Z → H → Z * H;
  p_outb : Z → Z → H → H;
  p_insl : Z → nat → H → list Z * H;
  p_outsl : Z → list Z → H → H }.

(** The buffers with their fields [qnext], which only the driver uses, its
    variables, and the controller. *)
Record ide (H : Type) := Ide { id_buf : gmap nat buf; id_qnext : nat → option nat; id_queue : option nat; id_disk1 : bool; id_hw : H }.
Arguments Ide {H}. Arguments id_buf {H}. Arguments id_qnext {H}. Arguments id_queue {H}. Arguments id_disk1 {H}. Arguments id_hw {H}.

Section ide.
Context {K H : Type} `{!LockOps K, !ProcOps K, !PortOps H}.
(** [&idelock], the spin lock inside [b->lock], and the channel [b]. *)
Variables (idelock : Z) (buf_spin buf_chan : nat → Z).
(** The number of times a port is read before the disk must be ready. *)
Variable latency : nat.
Abbreviation T := (ide H).

Definition ib (t : T) (i : nat) : buf := default buf0 (id_buf t !! i).
Definition set_ibuf (i : nat) (f : buf → buf) (t : T) : T := Ide (<[i := f (ib t i)]> (id_buf t)) (id_qnext t) (id_queue t) (id_disk1 t) (id_hw t).
Definition set_qnext (i : nat) (v : option nat) (t : T) : T := Ide (id_buf t) (λ j, if decide (i = j) then v else id_qnext t j) (id_queue t) (id_disk1 t) (id_hw t).
Definition set_queue (v : option nat) (t : T) : T := Ide (id_buf t) (id_qnext t) v (id_disk1 t) (id_hw t).
Definition set_disk1 (v : bool) (t : T) : T := Ide (id_buf t) (id_qnext t) (id_queue t) v (id_hw t).
Definition set_ihw (v : H) (t : T) : T := Ide (id_buf t) (id_qnext t) (id_queue t) (id_disk1 t) v.
Definition ilock_lens (i : nat) : lens T sleeplock := Lens (λ t, bf_lock (ib t i)) (λ l t, set_ibuf i (set_lock l) t).

Definition inb (port : Z) : M (K * T) Z := λ s, let '(v, h) := p_inb port (id_hw s.2) in Ret (uchar v) (s.1, set_ihw h s.2).
Definition outb (port data : Z) : M (K * T) () := modify_ (λ t, set_ihw (p_outb port (uchar data) (id_hw t)) t).
Definition insl (port : Z) (cnt : nat) : M (K * T) (list Z) := λ s, let '(v, h) := p_insl port cnt (id_hw s.2) in Ret v (s.1, set_ihw h s.2).
Definition outsl (port : Z) (data : list Z) : M (K * T) () := modify_ (λ t, set_ihw (p_outsl port data (id_hw t)) t).
Definition get_ib {A} (i : nat) (f : buf → A) : M (K * T) A := gets_ (λ t, f (ib t i)).

Fixpoint idewait_loop (fuel : nat) : M (K * T) Z :=
  match fuel with
  | O => λ _, Spin
  | S f =>
      let! r := inb 503 in
      if negb (Z.land r (Z.lor IDE_BSY IDE_DRDY) =? IDE_DRDY) then idewait_loop f else ret r
  end.
Definition idewait (checkerr : bool) : M (K * T) Z :=
  let! r := idewait_loop (S latency) in
  if checkerr && negb (Z.land r (Z.lor IDE_DF IDE_ERR) =? 0) then ret (-1) else ret 0.

Fixpoint ideinit_probe (n : nat) : M (K * T) () :=
  match n with
  | O => ret ()
  | S n' => let! v := inb 503 in if negb (v =? 0) then modify_ (set_disk1 true) else ideinit_probe n'
  end.
(** [ioapicenable] is ioapic.c's. *)
Definition ideinit (ioapicenable : M (K * T) ()) : M (K * T) () :=
  initlock_ idelock "ide" ;;;
  ioapicenable ;;;
  idewait false ;;;
  outb 502 (Z.lor 224 (Z.shiftl 1 4)) ;;;
  ideinit_probe 1000 ;;;
  outb 502 (Z.lor 224 (Z.shiftl 0 4)).

Definition idestart (b : option nat) : M (K * T) () :=
  match b with
  | None => panic "idestart"
  | Some b =>
      let! blockno := get_ib b bf_blockno in
      if FSSIZE <=? blockno then panic "incorrect blockno" else
      let sector_per_block := BSIZE / SECTOR_SIZE in
      let sector := sint (blockno * sector_per_block) in
      let read_cmd := if sector_per_block =? 1 then IDE_CMD_READ else IDE_CMD_RDMUL in
      let write_cmd := if sector_per_block =? 1 then IDE_CMD_WRITE else IDE_CMD_WRMUL in
      if 7 <? sector_per_block then panic "idestart" else
      idewait false ;;;
      outb 1014 0 ;;;
      outb 498 sector_per_block ;;;
      outb 499 (Z.land sector 255) ;;;
      outb 500 (Z.land (Z.shiftr sector 8) 255) ;;;
      outb 501 (Z.land (Z.shiftr sector 16) 255) ;;;
      let! dev := get_ib b bf_dev in
      outb 502 (Z.lor (Z.lor 224 (Z.shiftl (Z.land dev 1) 4)) (Z.land (Z.shiftr sector 24) 15)) ;;;
      let! flags := get_ib b bf_flags in
      if negb (Z.land flags B_DIRTY =? 0) then
        outb 503 write_cmd ;;;
        let! data := get_ib b bf_data in
        outsl 496 data
      else outb 503 read_cmd
  end.

Definition ideintr : M (K * T) () :=
  acquire_ idelock ;;;
  let! b := gets_ id_queue in
  match b with
  | None => release_ idelock
  | Some b =>
      let! nx := gets_ (λ t, id_qnext t b) in
      modify_ (set_queue nx) ;;;
      let! flags := get_ib b bf_flags in
      let! r := (if Z.land flags B_DIRTY =? 0 then idewait true else ret (-1)) in
      (if 0 <=? r then let! d := insl 496 (Z.to_nat (BSIZE / 4)) in modify_ (set_ibuf b (set_data d)) else ret ()) ;;;
      modify_ (set_ibuf b (λ b, set_flags (Z.lor (bf_flags b) B_VALID) b)) ;;;
      modify_ (set_ibuf b (λ b, set_flags (Z.land (bf_flags b) (Z.lnot B_DIRTY)) b)) ;;;
      wakeup_ (buf_chan b) ;;;
      let! q := gets_ id_queue in
      (if q is Some _ then idestart q else ret ()) ;;;
      release_ idelock
  end.

(** [*pp = b] at the end of the queue, from the buffer [p] on. *)
Fixpoint append_walk (fuel : nat) (p b : nat) : M (K * T) () :=
  let! nx := gets_ (λ t, id_qnext t p) in
  match nx with
  | None => modify_ (set_qnext p (Some b))
  | Some p' => match fuel with O => λ _, Spin | S f => append_walk f p' b end
  end.
Fixpoint iderw_wait (fuel b : nat) : M (K * T) () :=
  let! flags := get_ib b bf_flags in
  if Z.land flags (Z.lor B_VALID B_DIRTY) =? B_VALID then ret () else
  match fuel with
  | O => park (sleep_ (buf_chan b) idelock)
  | S f => sleep_ (buf_chan b) idelock ;;; iderw_wait f b
  end.
Definition iderw_enqueue (b : nat) : M (K * T) () :=
  modify_ (set_qnext b None) ;;;
  let! q := gets_ id_queue in
  (match q with None => modify_ (set_queue (Some b)) | Some p => append_walk (Z.to_nat NBUF) p b end) ;;;
  let! q := gets_ id_queue in
  if bool_decide (q = Some b) then idestart (Some b) else ret ().
Definition iderw (fuel b : nat) : M (K * T) () :=
  let! h := holdingsleep (ilock_lens b) (buf_spin b) in
  if negb h then panic "iderw: buf not locked" else
  let! flags := get_ib b bf_flags in
  if Z.land flags (Z.lor B_VALID B_DIRTY) =? B_VALID then panic "iderw: nothing to do" else
  let! dev := get_ib b bf_dev in
  let! disk1 := gets_ id_disk1 in
  if negb (dev =? 0) && negb disk1 then panic "iderw: ide disk 1 not present" else
  acquire_ idelock ;;;
  iderw_enqueue b ;;;
  iderw_wait fuel b ;;;
  release_ idelock.
End ide.

(** ** What a controller does *)
Definition put_sector (dv sec : Z) (d : block) (D : Z → Z → block) : Z → Z → block :=
  λ dv' sec', if decide (dv = dv' ∧ sec = sec') then d else D dv' sec'.

(** The registers ask for one sector, by its number, of a drive. *)
Definition hw_addressed (r : Z → Z) (dv sec : Z) : Prop :=
  r 498 = 1 ∧ r 502 = 224 + 16 * dv + sec / 2 ^ 24 ∧
  r 499 = sec mod 256 ∧ r 500 = sec / 256 mod 256 ∧ r 501 = sec / 65536 mod 256 ∧
  0 ≤ dv < 2 ∧ 0 ≤ sec < 2 ^ 28.

(** The ATA interface, for a disk that works: [hw_reg] are the task file
    registers, [hw_disk] the sectors of the two drives, [hw_read] the sector that a
    read command has asked for, and [hw_busy] how often the status is read before
    it is ready.  A write command takes the block that follows it. *)
Class PortLaws (H : Type) `{!PortOps H} (latency : nat) := {
  hw_works : H → Prop;
  hw_reg : H → Z → Z;
  hw_disk : H → Z → Z → block;
  hw_read : H → option (Z * Z);
  hw_busy : H → nat;
  hw_latency h : hw_works h → (hw_busy h ≤ latency)%nat;
  hw_disk_length h dv sec : hw_works h → length (hw_disk h dv sec) = 512%nat;
  hw_status h : hw_works h → ∃ v h', p_inb 503 h = (v, h') ∧ 0 ≤ v < 256 ∧
    hw_works h' ∧ hw_reg h' = hw_reg h ∧ hw_disk h' = hw_disk h ∧ hw_read h' = hw_read h ∧
    hw_busy h' = pred (hw_busy h) ∧ (Z.land v 192 = 64 ↔ hw_busy h = O) ∧ (hw_busy h = O → Z.land v 33 = 0);
  hw_set h p v : hw_works h → hw_busy h = O → p ∈ [1014; 498; 499; 500; 501; 502] →
    hw_works (p_outb p v h) ∧ hw_busy (p_outb p v h) = O ∧ hw_disk (p_outb p v h) = hw_disk h ∧
    ∀ q, hw_reg (p_outb p v h) q = if decide (p = q) then v else hw_reg h q;
  hw_cmd_read h dv sec : hw_works h → hw_busy h = O → hw_addressed (hw_reg h) dv sec →
    hw_works (p_outb 503 32 h) ∧ hw_disk (p_outb 503 32 h) = hw_disk h ∧ hw_read (p_outb 503 32 h) = Some (dv, sec);
  hw_cmd_write h dv sec d : hw_works h → hw_busy h = O → hw_addressed (hw_reg h) dv sec → length d = 512%nat →
    hw_works (p_outsl 496 d (p_outb 503 48 h)) ∧ ∀ dv' sec', hw_disk (p_outsl 496 d (p_outb 503 48 h)) dv' sec' = put_sector dv sec d (hw_disk h) dv' sec';
  hw_data h dv sec : hw_works h → hw_busy h = O → hw_read h = Some (dv, sec) →
    ∃ h', p_insl 496 128 h = (hw_disk h dv sec, h') ∧ hw_works h' ∧ hw_disk h' = hw_disk h }.

(** ** The queue *)
Fixpoint linked (nx : nat → option nat) (h : option nat) (l : list nat) : Prop :=
  match l with
  | [] => h = None
  | x :: l' => h = Some x ∧ linked nx (nx x) l'
  end.

Lemma linked_ext nx nx' l : ∀ h, (∀ i, i ∈ l → nx' i = nx i) → linked nx h l → linked nx' h l.
Proof.
  induction l as [|x l IH]; intros h Hn; simpl; [done|]. intros [-> Hl]. split; [done|].
  rewrite Hn by set_solver. apply IH; [set_solver|done].
Qed.

(** ** Requests served at once *)
Abbreviation dstate := (gmap nat buf * (Z → Z → block))%type.
Definition done_flags (f : Z) : Z := Z.land (Z.lor f B_VALID) (Z.lnot B_DIRTY).
Definition drive (b : buf) : Z := Z.land (bf_dev b) 1.
(** The effect of a request for buffer [b], if the disk were read or written at
    that moment, as in memide.c. *)
Definition serve (b : nat) (m : dstate) : dstate :=
  let f := default buf0 (m.1 !! b) in
  if Z.land (bf_flags f) B_DIRTY =? 0
  then (<[b := set_flags (done_flags (bf_flags f)) (set_data (m.2 (drive f) (bf_blockno f)) f)]> m.1, m.2)
  else (<[b := set_flags (done_flags (bf_flags f)) f]> m.1, put_sector (drive f) (bf_blockno f) (bf_data f) m.2).
Definition serve_all (q : list nat) (m : dstate) : dstate := foldl (λ m b, serve b m) m q.

Lemma serve_all_app q1 q2 m : serve_all (q1 ++ q2) m = serve_all q2 (serve_all q1 m).
Proof. apply foldl_app. Qed.
Lemma serve_other b c m : b ≠ c → (serve b m).1 !! c = m.1 !! c.
Proof. intros Hne. unfold serve. destruct (_ =? _); by apply lookup_insert_ne. Qed.
(** A buffer that has no request is not changed by the others. *)
Lemma serve_all_other c q : ∀ m, c ∉ q → (serve_all q m).1 !! c = m.1 !! c.
Proof.
  induction q as [|b q IH]; intros m Hc; [done|]. cbn [serve_all foldl].
  change (foldl _ ?a q) with (serve_all q a). rewrite IH by set_solver. apply serve_other. set_solver.
Qed.
Lemma serve_touch b c f m : b ≠ c → serve b (<[c := f]> m.1, m.2) = (<[c := f]> (serve b m).1, (serve b m).2).
Proof.
  intros Hne. unfold serve. cbn [fst snd]. rewrite lookup_insert_ne by done.
  destruct (_ =? _); cbn [fst snd]; by rewrite insert_insert_ne.
Qed.
(** Its owner may change it meanwhile. *)
Lemma serve_all_touch c f q : ∀ m, c ∉ q → serve_all q (<[c := f]> m.1, m.2) = (<[c := f]> (serve_all q m).1, (serve_all q m).2).
Proof.
  induction q as [|b q IH]; intros m Hc; [done|]. cbn [serve_all foldl].
  change (foldl _ ?a q) with (serve_all q a). rewrite serve_touch by set_solver. apply IH. set_solver.
Qed.

Section driver.
Context {K H : Type} `{!LockOps K, !ProcOps K, !PortOps H} {latency : nat} `{!PortLaws H latency}.
Abbreviation T := (ide H).

Definition same_disk (h h' : H) : Prop := hw_reg h' = hw_reg h ∧ hw_disk h' = hw_disk h ∧ hw_read h' = hw_read h.

Lemma idewait_loop_ok fuel : ∀ (k : K) (t : T), hw_works (id_hw t) → (hw_busy (id_hw t) < fuel)%nat →
  ∃ r h', idewait_loop fuel (k, t) = Ret r (k, set_ihw h' t) ∧ Z.land r 33 = 0 ∧ hw_works h' ∧ hw_busy h' = O ∧ same_disk (id_hw t) h'.
Proof.
  induction fuel as [|fuel IH]; intros k t Hw Hb; [lia|]. cbn [idewait_loop].
  destruct (hw_status (id_hw t) Hw) as (v & h1 & E & Hv & Hw1 & Hr & Hd & Hx & Hb1 & Hrdy & Herr).
  assert (inb 503 (k, t) = Ret v (k, set_ihw h1 t)) as E1.
  { unfold inb. cbn [fst snd]. rewrite E. by replace (uchar v) with v by zmod. }
  run E1. change (Z.lor IDE_BSY IDE_DRDY) with 192. change IDE_DRDY with 64.
  destruct (Z.eqb_spec (Z.land v 192) 64) as [Ev|Ev]; cbn [negb].
  - apply Hrdy in Ev. rewrite Ev in Hb1. exists v, h1. split; [done|]. split; [by apply Herr|]. done.
  - assert (hw_busy (id_hw t) ≠ O) by (rewrite <- Hrdy; done).
    destruct (IH k (set_ihw h1 t) Hw1) as (r & h2 & -> & Hz & Hw2 & Hb2 & Hr2 & Hd2 & Hx2); [cbn [id_hw set_ihw]; lia|].
    exists r, h2. cbn [id_hw set_ihw] in *. split; [done|]. unfold same_disk. split_and!; congruence.
Qed.

(** The disk gets ready within its latency, without an error. *)
Lemma idewait_ok c (k : K) (t : T) : hw_works (id_hw t) →
  ∃ h', idewait latency c (k, t) = Ret 0 (k, set_ihw h' t) ∧ hw_works h' ∧ hw_busy h' = O ∧ same_disk (id_hw t) h'.
Proof.
  intros Hw. destruct (idewait_loop_ok (S latency) k t Hw) as (r & h & E & Hz & Hrest); [pose proof (hw_latency _ Hw); lia|].
  exists h. unfold idewait. run E. change (Z.lor IDE_DF IDE_ERR) with 33. rewrite Hz. by destruct c.
Qed.

(** A request that [iderw] takes. *)
Definition pending (f : buf) : Prop :=
  Z.land (bf_flags f) 6 ≠ 2 ∧ 0 ≤ bf_blockno f < FSSIZE ∧ length (bf_data f) = 512%nat.
(** The disk has got the request of [f], where [D] is what was on it before. *)
Definition started (f : buf) (h : H) (D : Z → Z → block) : Prop :=
  if Z.land (bf_flags f) B_DIRTY =? 0
  then hw_read h = Some (drive f, bf_blockno f) ∧ ∀ dv sec, hw_disk h dv sec = D dv sec
  else ∀ dv sec, hw_disk h dv sec = put_sector (drive f) (bf_blockno f) (bf_data f) D dv sec.

(** The registers that [idestart] sets. *)
Lemma outb_ok p v (k : K) (t : T) : hw_works (id_hw t) → hw_busy (id_hw t) = O → p ∈ [1014; 498; 499; 500; 501; 502] → 0 ≤ v < 256 →
  ∃ h', outb p v (k, t) = Ret () (k, set_ihw h' t) ∧ hw_works h' ∧ hw_busy h' = O ∧ hw_disk h' = hw_disk (id_hw t) ∧
    ∀ q, hw_reg h' q = if decide (p = q) then v else hw_reg (id_hw t) q.
Proof.
  intros Hw Hb Hp Hv. exists (p_outb p v (id_hw t)). split; [|by apply hw_set].
  unfold outb, modify_. cbn [fst snd]. by replace (uchar v) with v by zmod.
Qed.

Lemma drive_range f : 0 ≤ drive f < 2.
Proof.
  unfold drive. change 1 with (Z.ones 1). rewrite Z.land_ones by lia. apply Z.mod_pos_bound. lia.
Qed.

(** The two ways to select a drive. *)
Lemma select_value dv : 0 ≤ dv < 2 → Z.lor (Z.lor 224 (Z.shiftl dv 4)) 0 = 224 + 16 * dv.
Proof. intros H'. assert (dv = 0 ∨ dv = 1) as [-> | ->] by lia; done. Qed.

(** [idestart] gives the disk the request. *)
Lemma idestart_ok b (k : K) (t : T) D : hw_works (id_hw t) → pending (ib t b) → (∀ dv sec, hw_disk (id_hw t) dv sec = D dv sec) →
  ∃ h', idestart latency (Some b) (k, t) = Ret () (k, set_ihw h' t) ∧ hw_works h' ∧ started (ib t b) h' D.
Proof.
  intros Hw (_ & Hn & Hl) HD. unfold idestart. next. unfold FSSIZE in *. set (n := bf_blockno (ib t b)) in *.
  destruct (Z.leb_spec 1000 n); [lia|]. change (BSIZE / SECTOR_SIZE) with 1. cbv beta zeta. change (7 <? 1) with false. cbv iota.
  replace (sint (n * 1)) with n by zmod. change (1 =? 1) with true. cbv iota.
  assert (Z.land (Z.shiftr n 24) 15 = 0) as E24 by (rewrite Z.shiftr_div_pow2, Z.div_small by lia; done).
  assert (∀ i, 0 ≤ i → Z.land (Z.shiftr n i) 255 = n / 2 ^ i mod 256) as Eb.
  { intros i Hi. change 255 with (Z.ones 8). by rewrite Z.land_ones, Z.shiftr_div_pow2 by lia. }
  pose proof (Eb 0 ltac:(lia)) as E0. rewrite Z.shiftr_0_r, Z.div_1_r in E0. rewrite E0, !Eb, E24 by lia. clear Eb E0.
  destruct (idewait_ok false k t Hw) as (h0 & E0 & Hw0 & Hb0 & Hr0 & Hd0 & _). run E0. clear E0.
  assert (∀ m, 0 ≤ m mod 256 < 256) as Hm by (intros; apply Z.mod_pos_bound; lia).
  destruct (outb_ok 1014 0 k (set_ihw h0 t) Hw0 Hb0 ltac:(set_solver) ltac:(lia)) as (h1 & E1 & Hw1 & Hb1 & Hd1 & Hr1). run E1.
  destruct (outb_ok 498 1 k (set_ihw h1 t) Hw1 Hb1 ltac:(set_solver) ltac:(lia)) as (h2 & E2 & Hw2 & Hb2 & Hd2 & Hr2). run E2.
  destruct (outb_ok 499 (n mod 256) k (set_ihw h2 t) Hw2 Hb2 ltac:(set_solver) (Hm _)) as (h3 & E3 & Hw3 & Hb3 & Hd3 & Hr3). run E3.
  destruct (outb_ok 500 (n / 2 ^ 8 mod 256) k (set_ihw h3 t) Hw3 Hb3 ltac:(set_solver) (Hm _)) as (h4 & E4 & Hw4 & Hb4 & Hd4 & Hr4). run E4.
  destruct (outb_ok 501 (n / 2 ^ 16 mod 256) k (set_ihw h4 t) Hw4 Hb4 ltac:(set_solver) (Hm _)) as (h5 & E5 & Hw5 & Hb5 & Hd5 & Hr5). run E5.
  next. change (Z.land (bf_dev (ib (set_ihw h5 t) b)) 1) with (drive (ib t b)). pose proof (drive_range (ib t b)) as Hdv.
  rewrite select_value by done.
  destruct (outb_ok 502 (224 + 16 * drive (ib t b)) k (set_ihw h5 t) Hw5 Hb5 ltac:(set_solver) ltac:(lia)) as (h6 & E6 & Hw6 & Hb6 & Hd6 & Hr6). run E6.
  cbn [id_hw set_ihw] in *. next. change (set_ihw h6 (set_ihw h5 t)) with (set_ihw h6 t). change (ib (set_ihw h6 t) b) with (ib t b).
  assert (hw_addressed (hw_reg h6) (drive (ib t b)) n) as Hadr.
  { unfold hw_addressed. rewrite !Hr6, !Hr5, !Hr4, !Hr3, !Hr2. repeat first [rewrite decide_True by done|rewrite decide_False by done].
    rewrite (Z.div_small n (2 ^ 24)) by lia. split_and!; try done; lia. }
  assert (∀ dv sec, hw_disk h6 dv sec = D dv sec) as HD6 by (intros; rewrite <- HD; congruence).
  unfold started. fold n. destruct (Z.land (bf_flags (ib t b)) B_DIRTY =? 0); cbn [negb].
  - destruct (hw_cmd_read h6 _ n Hw6 Hb6 Hadr) as (Hw7 & Hd7 & Hx7). exists (p_outb 503 32 h6). split; [done|].
    split; [done|]. split; [done|]. intros. by rewrite Hd7.
  - destruct (hw_cmd_write h6 _ n _ Hw6 Hb6 Hadr Hl) as (Hw7 & Hd7). next. next. exists (p_outsl 496 (bf_data (ib t b)) (p_outb 503 48 h6)).
    split; [done|]. split; [done|]. intros. rewrite Hd7. unfold put_sector. by destruct (decide _).
Qed.

Lemma pending_served f : pending f → Z.land (bf_flags f) 6 ≠ 2.
Proof. by intros [? _]. Qed.

(** ** The invariant of the driver *)
(** [q] are the requests in the queue and [D] is the disk without them. *)
Record ide_rep (t : T) (q : list nat) (D : Z → Z → block) : Prop := {
  ir_works : hw_works (id_hw t);
  ir_linked : linked (id_qnext t) (id_queue t) q;
  ir_nodup : NoDup q;
  ir_length : (length q ≤ 30)%nat;
  ir_pending i : i ∈ q → pending (ib t i);
  ir_disk : match q with [] => ∀ dv sec, hw_disk (id_hw t) dv sec = D dv sec | b :: _ => started (ib t b) (id_hw t) D end }.

(** The buffers and the disk will be [m] when the queue is empty. *)
Definition disk_inv (t : T) (q : list nat) (m : dstate) : Prop :=
  ∃ D, ide_rep t q D ∧ serve_all q (id_buf t, D) = m.

Lemma ib_set_eq i f (t : T) : ib (set_ibuf i f t) i = f (ib t i).
Proof. unfold ib, set_ibuf. cbn [id_buf]. by rewrite lookup_insert_eq. Qed.
Lemma ib_set_ne i j f (t : T) : i ≠ j → ib (set_ibuf i f t) j = ib t j.
Proof. intros. unfold ib, set_ibuf. cbn [id_buf]. by rewrite lookup_insert_ne. Qed.
Lemma set_ibuf_twice i f g (t : T) : set_ibuf i f (set_ibuf i g t) = set_ibuf i (λ b, f (g b)) t.
Proof.
  unfold set_ibuf at 1. rewrite ib_set_eq. unfold set_ibuf. cbn. by rewrite insert_insert_eq.
Qed.

(** A buffer whose flags say that it has been served is as it will be when the
    queue is empty. *)
Lemma served_final (t : T) q m b : disk_inv t q m → Z.land (bf_flags (ib t b)) 6 = 2 → (b ∉ q) ∧ id_buf t !! b = m.1 !! b.
Proof.
  intros (D & Hrep & <-) Hs. assert (b ∉ q) as Hb by (intros [Hf _]%(ir_pending _ _ _ Hrep); done).
  split; [done|]. by rewrite serve_all_other.
Qed.
(** The owner of a buffer without request may change it. *)
Lemma touch_ok (t : T) q m b f : disk_inv t q m → b ∉ q → disk_inv (set_ibuf b f t) q (<[b := f (ib t b)]> m.1, m.2).
Proof.
  intros (D & [Hw Hl Hnd Hlen Hp Hd] & <-) Hb. exists D. split; [|by rewrite <- (serve_all_touch b _ q (id_buf t, D))].
  split; try done.
  - intros i Hi. rewrite ib_set_ne by (intros ->; done). by apply Hp.
  - destruct q as [|c q]; [done|]. rewrite ib_set_ne by set_solver. done.
Qed.
(** ** The queue *)
Lemma append_walk_ok b (k : K) (t : T) : ∀ l fuel p, linked (id_qnext t) (id_qnext t p) l → (length l ≤ fuel)%nat →
  ∃ z, last (p :: l) = Some z ∧ append_walk fuel p b (k, t) = Ret () (k, set_qnext z (Some b) t).
Proof.
  induction l as [|p' l IH]; intros fuel p Hl Hf; simpl in Hl.
  - exists p. split; [done|]. destruct fuel; cbn [append_walk]; next; by rewrite Hl.
  - destruct Hl as [E Hl]. destruct fuel as [|fuel]; simpl in Hf; [lia|].
    destruct (IH fuel p' Hl ltac:(lia)) as (z & Hz & Ew). exists z. rewrite last_cons_cons. split; [done|].
    cbn [append_walk]. next. by rewrite E.
Qed.

Lemma linked_append nx b z l : ∀ h, linked nx h l → last l = Some z → NoDup l → b ∉ l → nx b = None →
  linked (λ j, if decide (z = j) then Some b else nx j) h (l ++ [b]).
Proof.
  induction l as [|x l IH]; intros h Hl Hz Hnd Hb Hn; [done|]. simpl in *. destruct Hl as [-> Hl].
  apply NoDup_cons in Hnd as [Hx Hnd]. split; [done|]. destruct l as [|y l].
  - simpl in Hz. injection Hz as ->. simpl. rewrite decide_True by done. split; [done|]. rewrite decide_False; [done|set_solver].
  - rewrite last_cons_cons in Hz. rewrite decide_False; [apply IH; [done..|set_solver|done]|].
    intros <-. apply Hx. by apply last_Some_elem_of.
Qed.

(** [iderw] under the lock: the request is the last one, and with the disk if it
    is the only one. *)
Lemma iderw_enqueue_ok b (k : K) (t : T) q D : ide_rep t q D → b ∉ q → (length q < 30)%nat → pending (ib t b) →
  ∃ t', iderw_enqueue latency b (k, t) = Ret () (k, t') ∧ ide_rep t' (q ++ [b]) D ∧ id_buf t' = id_buf t ∧ id_disk1 t' = id_disk1 t.
Proof.
  intros [Hw Hl Hnd Hlen Hp Hd] Hb Hlt Hpb. unfold iderw_enqueue. next. set (t1 := set_qnext b None t).
  assert (linked (id_qnext t1) (id_queue t1) q) as Hl1.
  { apply (linked_ext (id_qnext t)); [|done]. intros i Hi. simpl. rewrite decide_False; [done|set_solver]. }
  assert (id_qnext t1 b = None) as Hb1 by (simpl; by rewrite decide_True).
  assert (NoDup (q ++ [b])) as Hnd'.
  { apply NoDup_app. split; [done|]. split; [|apply NoDup_singleton]. intros i Hi ->%list_elem_of_singleton. done. }
  assert (∀ i, i ∈ q ++ [b] → pending (ib t i)) as Hp'.
  { intros i [Hi| ->%list_elem_of_singleton]%elem_of_app; [by apply Hp|done]. }
  next. destruct q as [|p q].
  - simpl in Hl. replace (id_queue t1) with (@None nat) by done. next. next. rewrite bool_decide_true by done.
    destruct (idestart_ok b k (set_queue (Some b) t1) D Hw Hpb Hd) as (h & E & Hwh & Hs). rewrite E. eexists. split; [done|].
    split; [|done]. by split.
  - destruct Hl1 as [Eq Hl1]. rewrite Eq.
    destruct (append_walk_ok b k t1 q (Z.to_nat NBUF) p Hl1) as (z & Hz & E); [change (Z.to_nat NBUF) with 30%nat; simpl in Hlt; lia|].
    run E. next. cbn [set_qnext id_queue]. rewrite Eq.
    rewrite bool_decide_false by (intros [= ->]; set_solver). eexists. split; [reflexivity|]. split; [|done].
    split; try done; [|rewrite length_app; simpl in *; lia].
    apply (linked_append (id_qnext t1) b z (p :: q)); [by split|done..].
Qed.

Context {runs : who → list Z → K → Prop} {locks : Z → Prop} `{!RunLaws runs locks}.
Variable idelock : Z.
Hypothesis Hide : locks idelock.

(** [ideinit] finds the second disk and an empty queue. *)
Lemma ideinit_ok x ioapicenable (k : K) (t : T) : (∀ s, ioapicenable s = Ret () s) → runs x [] k → hw_works (id_hw t) → id_queue t = None →
  ∃ k' t', ideinit idelock latency ioapicenable (k, t) = Ret () (k', t') ∧ runs x [] k' ∧
    disk_inv t' [] (id_buf t, hw_disk (id_hw t)) ∧ id_disk1 t' = true ∧ id_buf t' = id_buf t.
Proof.
  intros Hio Hk Hw Hq. unfold ideinit.
  destruct (initlock_ok_ x [] idelock "ide" k t Hk Hide) as (k1 & E1 & Hk1); [apply not_elem_of_nil|]. run E1. run (Hio _).
  destruct (idewait_ok false k1 t Hw) as (h0 & E0 & Hw0 & Hb0 & _ & Hd0 & _). run E0.
  change (Z.lor 224 (Z.shiftl 1 4)) with 240. change (Z.lor 224 (Z.shiftl 0 4)) with 224.
  destruct (outb_ok 502 240 k1 (set_ihw h0 t) Hw0 Hb0 ltac:(set_solver) ltac:(lia)) as (h2 & E2 & Hw2 & Hb2 & Hd2 & _). run E2.
  destruct (hw_status h2 Hw2) as (v & h3 & E3 & Hv & Hw3 & _ & Hd3 & _ & Hb3 & Hr3 & _).
  assert (ideinit_probe 1000 (k1, set_ihw h2 t) = Ret () (k1, set_disk1 true (set_ihw h3 t))) as Ep.
  { change 1000%nat with (S 999). cbn [ideinit_probe]. unfold inb. unfold bind at 1. cbn [fst snd id_hw set_ihw obind]. rewrite E3. cbn [obind].
    replace (uchar v) with v by zmod. destruct (Z.eqb_spec v 0) as [->|]; [|done]. by apply Hr3 in Hb2. }
  run Ep. rewrite Hb2 in Hb3.
  destruct (outb_ok 502 224 k1 (set_disk1 true (set_ihw h3 t)) Hw3 Hb3 ltac:(set_solver) ltac:(lia)) as (h4 & E4 & Hw4 & _ & Hd4 & _). rewrite E4.
  cbn [id_hw set_ihw set_disk1] in *. exists k1, (set_ihw h4 (set_disk1 true (set_ihw h3 t))). split; [done|]. split; [done|]. split; [|done].
  exists (hw_disk (id_hw t)). split; [|done]. split; try done; [apply NoDup_nil_2|simpl; lia|by intros i ?%elem_of_nil|]. simpl. intros. congruence.
Qed.

Variable buf_chan : nat → Z.

(** Those who wait for [chan] are woken, under the lock. *)
Definition woken (chan : Z) (k k' : K) : Prop :=
  ∃ k2, k_wakeup chan k = Ret () k2 ∧ k_release idelock k2 = Ret () k'.

Lemma ideintr_tail x c (k : K) (t : T) q D : runs x [idelock] k →
  hw_works (id_hw t) → linked (id_qnext t) (id_queue t) q → NoDup q → (length q ≤ 30)%nat → (∀ i, i ∈ q → pending (ib t i)) →
  (∀ dv sec, hw_disk (id_hw t) dv sec = D dv sec) →
  ∃ k' t', (wakeup_ c ;;; let! q := gets_ id_queue in (if q is Some _ then idestart latency q else ret ()) ;;; release_ idelock) (k, t) = Ret () (k', t') ∧
    runs x [] k' ∧ woken c k k' ∧ ide_rep t' q D ∧ id_buf t' = id_buf t ∧ id_disk1 t' = id_disk1 t.
Proof.
  intros Hk Hw Hl Hnd Hlen Hp Hd.
  destruct (r_wakeup x [idelock] c k Hk) as (k2 & E2 & Hk2); [by intros a ->%list_elem_of_singleton|].
  destruct (r_release x [] [] idelock k2 Hk2) as (k3 & E3 & Hk3).
  assert (∀ t : T, wakeup_ c (k, t) = Ret () (k2, t)) as W by (intros t'; unfold wakeup_; by rewrite (zoom_Ret fst_lens _ (k, t') _ _ E2)).
  assert (∀ t : T, release_ idelock (k2, t) = Ret () (k3, t)) as R by (intros t'; unfold release_; by rewrite (zoom_Ret fst_lens _ (k2, t') _ _ E3)).
  run (W t). next. exists k3. destruct q as [|p q].
  - simpl in Hl. rewrite Hl. next. rewrite R. exists t. split_and!; try done; first [by exists k2|by split].
  - destruct Hl as [Eq Hl]. rewrite Eq. destruct (idestart_ok p k2 t D Hw) as (h & E & Hwh & Hs); [apply Hp; set_solver|done|].
    run E. rewrite R. eexists. split; [done|]. split_and!; try done; first [by exists k2|by split].
Qed.

(** What [ideintr] does to the buffer at the front. *)
Lemma ideintr_front b (k : K) (t : T) D : hw_works (id_hw t) → started (ib t b) (id_hw t) D →
  ∃ t', (∀ (A : Type) (rest : M (K * T) A), (let! flags := get_ib b bf_flags in
      let! r := (if Z.land flags B_DIRTY =? 0 then idewait latency true else ret (-1)) in
      (if 0 <=? r then let! d := insl 496 (Z.to_nat (BSIZE / 4)) in modify_ (set_ibuf b (set_data d)) else ret ()) ;;;
      modify_ (set_ibuf b (λ b, set_flags (Z.lor (bf_flags b) B_VALID) b)) ;;;
      modify_ (set_ibuf b (λ b, set_flags (Z.land (bf_flags b) (Z.lnot B_DIRTY)) b)) ;;; rest) (k, t) = rest (k, t')) ∧
    id_qnext t' = id_qnext t ∧ id_queue t' = id_queue t ∧ id_disk1 t' = id_disk1 t ∧
    id_buf t' = (serve b (id_buf t, D)).1 ∧ hw_works (id_hw t') ∧ (∀ dv sec, hw_disk (id_hw t') dv sec = (serve b (id_buf t, D)).2 dv sec).
Proof.
  intros Hw Hs. unfold started in Hs. unfold serve. cbn [fst snd]. change (default buf0 (id_buf t !! b)) with (ib t b).
  destruct (Z.land (bf_flags (ib t b)) B_DIRTY =? 0) eqn:Ed.
  - destruct Hs as [Hx Hd]. destruct (idewait_ok true k t Hw) as (h1 & E1 & Hw1 & Hb1 & _ & Hd1 & Hx1).
    rewrite <- Hx1 in Hx. destruct (hw_data h1 _ _ Hw1 Hb1 Hx) as (h2 & E2 & Hw2 & Hd2).
    set (d := hw_disk h1 (drive (ib t b)) (bf_blockno (ib t b))) in *.
    eexists. split.
    { intros A rest. next. rewrite Ed. run E1. change (0 <=? 0) with true. cbv iota. erewrite bind_bind_Ret; [|unfold insl; cbn [fst snd id_hw set_ihw];
        change (Z.to_nat (BSIZE / 4)) with 128%nat; rewrite E2; reflexivity]. next. next. next. rewrite !set_ibuf_twice. reflexivity. }
    cbn [set_ibuf id_qnext id_queue id_disk1 id_buf id_hw set_ihw ib]. split_and!; try done.
    + unfold d. rewrite Hd1, Hd. done.
    + intros. rewrite <- Hd, Hd2, Hd1. done.
  - exists (set_ibuf b (λ f, set_flags (done_flags (bf_flags f)) f) t). split; [|done].
    intros A rest. next. rewrite Ed. next. change (0 <=? -1) with false. cbv iota. next. next. next. rewrite set_ibuf_twice. reflexivity.
Qed.

(** [ideintr] serves the request at the front, wakes its process and starts the
    next; without a request it does nothing. *)
Lemma ideintr_ok x (k : K) (t : T) q m : runs x [] k → disk_inv t q m →
  ∃ k' t', ideintr idelock buf_chan latency (k, t) = Ret () (k', t') ∧ runs x [] k' ∧ disk_inv t' (tail q) m ∧ id_disk1 t' = id_disk1 t ∧
    (∀ b, head q ≠ Some b → id_buf t' !! b = id_buf t !! b) ∧ ∀ b, head q = Some b → ∃ k1, k_acquire idelock k = Ret () k1 ∧ woken (buf_chan b) k1 k'.
Proof.
  intros Hk (D & [Hw Hl Hnd Hlen Hp Hd] & Hm). unfold ideintr.
  destruct (r_acquire x [] idelock k Hk Hide) as (k1 & E1 & Hk1); [apply not_elem_of_nil|].
  assert (acquire_ idelock (k, t) = Ret () (k1, t)) as E1' by (unfold acquire_; by rewrite (zoom_Ret fst_lens _ (k, t) _ _ E1)).
  run E1'. next. destruct q as [|b q].
  - simpl in Hl. rewrite Hl. destruct (release_ok_ x [] [] idelock k1 t Hk1) as (k2 & E2 & Hk2). rewrite E2.
    exists k2, t. split_and!; try done. exists D. split; [by split|done].
  - destruct Hl as [Eq Hl]. rewrite Eq. next. next. set (t1 := set_queue (id_qnext t b) t).
    apply NoDup_cons in Hnd as [Hb Hnd].
    destruct (ideintr_front b k1 t1 D Hw Hd) as (t2 & E2 & H1 & H2 & H3 & H4 & H5 & H6). rewrite E2. clear E2.
    destruct (ideintr_tail x (buf_chan b) k1 t2 q (serve b (id_buf t, D)).2 Hk1 H5) as (k3 & t3 & E3 & Hk3 & Hwk & Hrep & Hbuf & Hd1); try done.
    { by rewrite H1, H2. }
    { simpl in Hlen. lia. }
    { intros i Hi. unfold ib. rewrite H4, serve_other by (intros ->; done). apply Hp. set_solver. }
    exists k3, t3. split_and!; try done.
    + eexists. split; [exact Hrep|]. rewrite Hbuf, H4, <- Hm. change (serve_all (b :: q) (id_buf t, D)) with (serve_all q (serve b (id_buf t, D))).
      change (id_buf t1) with (id_buf t). by rewrite <- surjective_pairing.
    + by rewrite Hd1, H3.
    + intros c Hc. rewrite Hbuf, H4. apply (serve_other b c (id_buf t, D)). intros ->. by apply Hc.
    + intros c [= <-]. by exists k1.
Qed.

End driver.

(** ** Requests *)
Section request.
Context {K H : Type} `{!LockOps K, !ProcOps K, !PortOps H, !ProcLaws K} {latency : nat} `{!PortLaws H latency}.
Variables (idelock : Z) (buf_spin buf_chan : nat → Z).
Hypothesis Hide : k_lock idelock.
Hypothesis Hspin : ∀ b, k_lock (buf_spin b).
Abbreviation T := (ide H).

Lemma ib_lens_laws b : LensLaws (ilock_lens b : lens T sleeplock).
Proof. split; intros; cbn; [by rewrite ib_set_eq|by rewrite set_ibuf_twice]. Qed.

(** Waiting for buffer [b]: the process sleeps, on the buffer and with the lock
    given up, as long as it finds that the request has not been served, and
    returns when it has been; it changes nothing. *)
Fixpoint waits (x : who) (b : nat) (t0 : T) (o : outcome (K * T) ()) : Prop :=
  match o with
  | Ret _ (k, t) => k_runs x [] k ∧ t = t0 ∧ Z.land (bf_flags (ib t0 b)) 6 = 2
  | Block c (k, t) kont => c = buf_chan b ∧ k_switch k ∧ t = t0 ∧ Z.land (bf_flags (ib t0 b)) 6 ≠ 2 ∧
      ∀ k' t', k_switch k' → k_current x k' → waits x b t' (kont (k', t'))
  | Asleep c (k, t) => c = buf_chan b ∧ k_switch k ∧ t = t0 ∧ Z.land (bf_flags (ib t0 b)) 6 ≠ 2
  | Panic _ | Fault | Spin => False
  end.

Lemma iderw_wait_ok x b fuel : ∀ (k : K) (t : T), k_runs x [idelock] k →
  waits x b t ((iderw_wait idelock buf_chan fuel b ;;; release_ idelock) (k, t)).
Proof.
  induction fuel as [|fuel IH]; intros k t Hk; cbn [iderw_wait].
  all: erewrite bind_bind_Ret; [|reflexivity]; cbn [snd]; change (Z.lor B_VALID B_DIRTY) with 6; change B_VALID with 2.
  all: destruct (Z.eqb_spec (Z.land (bf_flags (ib t b)) 6) 2) as [Es|Es].
  1,3: next; destruct (release_ok_ x [] [] idelock k t Hk) as (k2 & -> & Hk2); done.
  all: destruct (sleep_Block_ x idelock (buf_chan b) k t Hk Hide) as (k3 & kont & E3 & Hk3 & Hkont).
  - unfold bind, park. rewrite E3. simpl. done.
  - erewrite obind_Block; [|by apply obind_Block]. simpl. split_and!; [done..|].
    intros k' t' Hk' Hc'. destruct (Hkont k' t' Hk' Hc') as (k4 & E4 & Hk4). rewrite E4. simpl. by apply IH.
Qed.

Definition may_request (x : who) (t : T) (b : nat) : Prop :=
  pending (ib t b) ∧ sl_locked (bf_lock (ib t b)) = true ∧ sl_pid (bf_lock (ib t b)) = x.2 ∧ (bf_dev (ib t b) = 0 ∨ id_disk1 t = true).

Lemma iderw_ok x b fuel (k : K) (t : T) q m : k_runs x [] k → disk_inv t q m → b ∉ q → (length q < 30)%nat → may_request x t b →
  ∃ t', waits x b t' (iderw idelock buf_spin buf_chan latency fuel b (k, t)) ∧
    disk_inv t' (q ++ [b]) (serve b m) ∧ id_buf t' = id_buf t ∧ id_disk1 t' = id_disk1 t.
Proof.
  intros Hk (D & Hrep & Hm) Hb Hlen (Hp & Hl & Hpid & Hdev). unfold iderw.
  destruct (@holdingsleep_ok _ _ _ _ _ _ _ (ilock_lens b) (buf_spin b) (Hspin b) x k t Hk) as (k1 & E1 & Hk1). run E1.
  cbn [lget ilock_lens]. rewrite Hl, Hpid, Z.eqb_refl. cbn [andb negb].
  next. change (Z.lor B_VALID B_DIRTY) with 6. change B_VALID with 2. rewrite (proj2 (Z.eqb_neq _ _) (pending_served _ Hp)).
  next. next. assert (negb (bf_dev (ib t b) =? 0) && negb (id_disk1 t) = false) as ->.
  { destruct Hdev as [-> | ->]; [done|by rewrite andb_false_r]. }
  destruct (acquire_ok_ x [] idelock k1 t Hk1 Hide) as (k2 & E2 & Hk2); [apply not_elem_of_nil|]. run E2.
  destruct (iderw_enqueue_ok b k2 t q D Hrep Hb Hlen Hp) as (t' & E3 & Hrep' & Hbuf & Hd1). run E3.
  exists t'. split; [by apply iderw_wait_ok|]. split; [|done]. exists D. split; [done|]. by rewrite Hbuf, serve_all_app, Hm.
Qed.

(** C10: The disk driver serves requests as if at once.  Behind the state of the
    driver is a pair [m] of the buffers and the disk, in which every request is
    served the moment it is made: the data of a dirty buffer are put on the disk,
    and a buffer that is not valid gets the data of its block.  [iderw] of a
    locked buffer makes the step to [serve b m], puts the request at the end of
    the queue and sleeps on the buffer until it finds it served.  [ideintr] leaves
    [m] as it is, takes the front of the queue away and wakes its process; it does
    nothing without a request.  A buffer that its process finds served is the one
    of [m].  Buffers without request can be changed meanwhile.  All this for
    any disk that gets ready without error within a bounded number of looks at
    its status. *)
Theorem ide_serves_at_once (t : T) (q : list nat) (m : dstate) : disk_inv t q m →
  (∀ x b fuel k, k_runs x [] k → b ∉ q → (length q < 30)%nat → may_request x t b →
    ∃ t', waits x b t' (iderw idelock buf_spin buf_chan latency fuel b (k, t)) ∧
      disk_inv t' (q ++ [b]) (serve b m) ∧ id_buf t' = id_buf t ∧ id_disk1 t' = id_disk1 t) ∧
  (∀ x k, k_runs x [] k →
    ∃ k' t', ideintr idelock buf_chan latency (k, t) = Ret () (k', t') ∧ k_runs x [] k' ∧ disk_inv t' (tail q) m ∧ id_disk1 t' = id_disk1 t ∧
      (∀ b, head q ≠ Some b → id_buf t' !! b = id_buf t !! b) ∧
      ∀ b, head q = Some b → ∃ k1, k_acquire idelock k = Ret () k1 ∧ woken idelock (buf_chan b) k1 k') ∧
  (∀ b, Z.land (bf_flags (ib t b)) 6 = 2 → (b ∉ q) ∧ id_buf t !! b = m.1 !! b) ∧
  (∀ b f, b ∉ q → disk_inv (set_ibuf b f t) q (<[b := f (ib t b)]> m.1, m.2)).
Proof.
  intros Hinv. split_and!.
  - intros x b fuel k Hk Hb Hlen Hr. by apply (iderw_ok x b fuel k t q m).
  - intros x k Hk. by apply ideintr_ok.
  - intros b. by apply served_final.
  - intros b f. by apply touch_ok.
Qed.
End request.

(** ** The memory disk *)
(** memide.c's [iderw] is [serve] at once, so that what Bio.v shows over memide.c
    does not depend on the driver. *)
Lemma memide_serves {K} `{!LockOps K, !ProcOps K, !ProcLaws K} (buf_spin : nat → Z) nblocks x (k : K) t i :
  (∀ i, (i < 30)%nat → k_lock (buf_spin i)) → 0 ≤ nblocks < 2147483648 → bc_disksize t = nblocks →
  k_runs x [] k → (i < 30)%nat → holds_buf x t i → on_disk nblocks (bkey_of (bb t i)) →
  bf_flags (bb t i) = 0 ∧ is_Some (bc_disk t !! bf_blockno (bb t i)) ∨ bf_flags (bb t i) = 6 →
  let m := serve i (bc_buf t, λ _ sec, default [] (bc_disk t !! sec)) in
  ∃ k' t', Bio.iderw buf_spin i (k, t) = Ret () (k', t') ∧ k_runs x [] k' ∧ bc_buf t' = m.1 ∧ ∀ sec, default [] (bc_disk t' !! sec) = m.2 1 sec.
Proof.
  intros Hspin Hnb Hs Hk Hi Hh Hon Hf. unfold serve. cbn [fst snd]. change (default buf0 (bc_buf t !! i)) with (bb t i).
  destruct Hf as [[Hf [d Hd]]|Hf]; rewrite Hf; branchz; cbn [fst snd].
  - destruct (iderw_read buf_spin nblocks Hspin Hnb x k t i d Hk Hi Hh Hf Hon Hs Hd) as (k' & E & Hk').
    eexists k', _. split; [exact E|]. split; [done|]. split; [|done]. simpl. by rewrite Hd.
  - destruct (iderw_write buf_spin nblocks Hspin Hnb x k t i Hk Hi Hh Hf Hon Hs) as (k' & E & Hk').
    eexists k', _. split; [exact E|]. split; [done|]. split; [done|]. intros sec. cbn. unfold put_sector, drive.
    destruct Hon as [Hdev _]. simpl in Hdev. rewrite Hdev. change (Z.land 1 1) with 1.
    destruct (decide (bf_blockno (bb t i) = sec)) as [->|Hne]; [rewrite lookup_insert_eq, decide_True by done; done|].
    rewrite lookup_insert_ne, decide_False by tauto. done.
Qed.

(** ** A controller *)
Record ata := Ata { at_reg : Z → Z; at_disk : Z → Z → block; at_read : option (Z * Z); at_busy : nat }.
Definition at_sector (r : Z → Z) : Z := r 499 + 256 * r 500 + 65536 * r 501 + 16777216 * (r 502 mod 16).
Definition at_drive (r : Z → Z) : Z := r 502 / 16 mod 2.
#[local] Instance ata_PortOps : PortOps ata := {
  p_inb p h := (if at_busy h is O then 64 else 128, Ata (at_reg h) (at_disk h) (at_read h) (pred (at_busy h)));
  p_outb p v h :=
    if p =? 503 then Ata (at_reg h) (at_disk h) (if v =? 32 then Some (at_drive (at_reg h), at_sector (at_reg h)) else None) 3
    else Ata (λ q, if decide (p = q) then v else at_reg h q) (at_disk h) (at_read h) (at_busy h);
  p_insl p n h := (if at_read h is Some (dv, sec) then at_disk h dv sec else [], h);
  p_outsl p d h := Ata (at_reg h) (put_sector (at_drive (at_reg h)) (at_sector (at_reg h)) d (at_disk h)) None 3 }.

Lemma at_addressed r dv sec : hw_addressed r dv sec → at_drive r = dv ∧ at_sector r = sec.
Proof.
  intros (_ & H2 & H3 & H4 & H5 & H6 & H7). unfold at_drive, at_sector. rewrite H2, H3, H4, H5. change (2 ^ 24) with 16777216 in *.
  split; Z.to_euclidean_division_equations; lia.
Qed.

#[local] Instance ata_PortLaws : PortLaws ata 3.
Proof.
  refine {| hw_works h := (at_busy h ≤ 3)%nat ∧ ∀ dv sec, length (at_disk h dv sec) = 512%nat;
    hw_reg := at_reg; hw_disk := at_disk; hw_read := at_read; hw_busy := at_busy |}.
  - by intros h [? _].
  - by intros h dv sec [_ ?].
  - intros h [Hb Hd]. eexists _, _. split; [reflexivity|]. cbn. destruct (at_busy h); split_and!; try done; lia.
  - intros h p v [Hb Hd] E Hp. assert (p ≠ 503) as Hne by (intros ->; set_solver). cbn. rewrite (proj2 (Z.eqb_neq _ _) Hne). done.
  - intros h dv sec [Hb Hd] E [<- <-]%at_addressed. cbn. split_and!; try done; lia.
  - intros h dv sec d [Hb Hd] E [<- <-]%at_addressed Hl. cbn. split; [|done]. split; [lia|].
    intros dv' sec'. unfold put_sector. by destruct (decide _).
  - intros h dv sec [Hb Hd] E Hr. cbn. rewrite Hr. by exists h.
Defined.

(** A process has written block 9 in its buffer 5. *)
Definition ex_dirty : buf := Buf 6 1 9 (Sleeplock true "buffer" 7) 1 0 0 (replicate 512 3).
Definition ex_ide : ide ata := Ide {[5%nat := ex_dirty]} (λ _, None) None false (Ata (λ _, 0) (λ _ _, zero_block) None 2).

#[local] Instance ex_ide_laws : ProcLaws kproc := kproc_ProcLaws ex_D ex_ptable.

Lemma ex_ide_lock : k_lock (K := kproc) 2.
Proof. exact ex_lock2. Qed.

Lemma ide_serves_at_once_witness : ∃ k0 t0 t1 k2 t2,
  ideinit 2 3 (ret ()) (ex_k, ex_ide) = Ret () (k0, t0) ∧
  waits (λ _, 11) (3%nat, 7) 5 t1 (iderw 2 (λ _, 2) (λ _, 11) 3 1 5 (k0, t0)) ∧
  ideintr 2 (λ _, 11) 3 (ex_k, t1) = Ret () (k2, t2) ∧ disk_inv t2 [] (serve 5 (id_buf ex_ide, λ _ _, zero_block)) ∧
  id_buf t2 = {[5%nat := set_flags 2 ex_dirty]} ∧ hw_disk (id_hw t2) 1 9 = replicate 512 3.
Proof.
  destruct (ideinit_ok 2 ex_ide_lock (3%nat, 7) (ret ()) ex_k ex_ide) as (k0 & t0 & E0 & Hk0 & Hinv0 & Hd1 & Hbuf);
    [done|exact ex_runs|split; [cbn; lia|done]|done|].
  assert (ib t0 5 = ex_dirty) as Hb5 by (unfold ib; by rewrite Hbuf).
  destruct (ide_serves_at_once 2 (λ _, 2) (λ _, 11) ex_ide_lock (λ _, ex_ide_lock) t0 [] _ Hinv0) as (Hrw & _).
  destruct (Hrw (3%nat, 7) 5%nat 1%nat k0 Hk0) as (t1 & Hw & Hinv1 & Hb1 & _); [apply not_elem_of_nil|simpl; lia| |].
  { unfold may_request. rewrite Hb5. split; [|by repeat split; right]. split; [done|]. split; [unfold FSSIZE; simpl; lia|done]. }
  destruct (ide_serves_at_once 2 (λ _, 2) (λ _, 11) ex_ide_lock (λ _, ex_ide_lock) t1 _ _ Hinv1) as (_ & Hintr & _).
  destruct (Hintr (3%nat, 7) ex_k ex_runs) as (k2 & t2 & E2 & _ & Hinv2 & _). exists k0, t0, t1, k2, t2.
  split; [exact E0|]. split; [exact Hw|]. split; [exact E2|]. split; [exact Hinv2|].
  destruct Hinv2 as (D & Hrep & Hm). injection Hm as Hm1 Hm2. pose proof (ir_disk _ _ _ Hrep) as Hd. cbn in Hd. split; [exact Hm1|].
  rewrite Hd. rewrite Hm2. reflexivity.
Defined.
