(* ===== verification/Log.v ===== *)
(** * The redo log (log.c)

    A transaction is collected in memory: its blocks are modified in the buffer
    cache and kept there.  [commit] copies them to the log, writes the header,
    which is the commit point, installs them at their home locations and clears
    the header.  [recover_from_log] runs the second half at boot.  The file
    shows that a crash between any two disk writes of a commit, or of any
    number of interrupted recoveries, leaves a disk that recovery turns into the
    disk before or the disk after the transaction. *)
From stdpp Require Import base list gmap strings.
From Stdlib Require Import ZArith Lia.
From S2P Require Import Prelude Mmu Spinlock CpuLocks Proc RunQueue Sched Machine Kernel Sleeplock Block Bio.
#[local] Open Scope Z_scope.

(** [struct log] with its [struct logheader]. *)
Record log := Log {
  lg_start : Z; lg_size : Z; lg_outstanding : Z; lg_committing : bool; lg_dev : Z;
  lg_n : Z; lg_block : list Z }.
Definition set_start v l := Log v (lg_size l) (lg_outstanding l) (lg_committing l) (lg_dev l) (lg_n l) (lg_block l).
Definition set_size v l := Log (lg_start l) v (lg_outstanding l) (lg_committing l) (lg_dev l) (lg_n l) (lg_block l).
Definition set_outstanding v l := Log (lg_start l) (lg_size l) v (lg_committing l) (lg_dev l) (lg_n l) (lg_block l).
Definition set_committing v l := Log (lg_start l) (lg_size l) (lg_outstanding l) v (lg_dev l) (lg_n l) (lg_block l).
Definition set_dev v l := Log (lg_start l) (lg_size l) (lg_outstanding l) (lg_committing l) v (lg_n l) (lg_block l).
Definition set_n v l := Log (lg_start l) (lg_size l) (lg_outstanding l) (lg_committing l) (lg_dev l) v (lg_block l).
Definition set_block v l := Log (lg_start l) (lg_size l) (lg_outstanding l) (lg_committing l) (lg_dev l) (lg_n l) v.

(** The on-disk header: [n] and then the block numbers. *)
Fixpoint put_blocks (o : nat) (bs : list Z) (d : block) : block :=
  match bs with [] => d | b :: bs' => put_blocks (o + 4) bs' (st32 o b d) end.
Definition put_head (n : Z) (bs : list Z) (d : block) : block := put_blocks 4 bs (st32 0 n d).
Definition head_n (d : block) : Z := sint (ld32 d 0).
Definition head_block (d : block) (i : nat) : Z := ld32 d (4 + 4 * i)%nat.

(** ** The header block *)
Lemma put_blocks_ok bs : ∀ o d, block_ok d → block_ok (put_blocks o bs d).
Proof. induction bs as [|b bs IH]; intros o d Hd; simpl; [done|]. by apply IH, st32_ok. Qed.
Lemma put_blocks_below bs : ∀ o d o', (o + 4 * length bs ≤ length d)%nat → (o' + 4 ≤ o)%nat →
  ld32 (put_blocks o bs d) o' = ld32 d o'.
Proof.
  induction bs as [|b bs IH]; intros o d o' Hl Ho; simpl; [done|]. simpl in Hl.
  rewrite IH by (rewrite ?st32_length; lia). by rewrite ld32_st32_ne by lia.
Qed.
Lemma put_blocks_lookup bs : ∀ o d i b, (o + 4 * length bs ≤ length d)%nat → bs !! i = Some b →
  ld32 (put_blocks o bs d) (o + 4 * i) = uint b.
Proof.
  induction bs as [|c bs IH]; intros o d i b Hl Hi; [by rewrite lookup_nil in Hi|]. simpl length in Hl. cbn [put_blocks].
  destruct i as [|i]; simpl in Hi.
  - injection Hi as ->. rewrite Nat.mul_0_r, Nat.add_0_r, put_blocks_below by (rewrite ?st32_length; lia). by rewrite ld32_st32 by lia.
  - replace (o + 4 * S i)%nat with (o + 4 + 4 * i)%nat by lia. apply IH; [rewrite st32_length; lia|done].
Qed.
Lemma put_head_ok n bs d : block_ok d → block_ok (put_head n bs d).
Proof. intros Hd. by apply put_blocks_ok, st32_ok. Qed.
Lemma head_n_put n bs d : block_ok d → (length bs ≤ 30)%nat → 0 ≤ n < 2147483648 → head_n (put_head n bs d) = n.
Proof.
  intros [Hd _] Hl Hn. unfold head_n, put_head. rewrite put_blocks_below by (rewrite ?st32_length; lia).
  rewrite ld32_st32 by lia. zmod.
Qed.
Lemma head_block_put n bs d i b : block_ok d → (length bs ≤ 30)%nat → bs !! i = Some b → is_uint b →
  head_block (put_head n bs d) i = b.
Proof.
  intros [Hd _] Hl Hi Hb. unfold head_block, put_head.
  rewrite (put_blocks_lookup bs 4 _ i b) by (rewrite ?st32_length; lia || done). by apply uint_small.
Qed.

(** ** Disks and sequences of writes *)
Definition apply_writes (ws : list (bkey * block)) (D : bkey → block) : bkey → block :=
  foldl (λ D w, upd D w.1 w.2) D ws.

Lemma apply_writes_app ws1 ws2 D : apply_writes (ws1 ++ ws2) D = apply_writes ws2 (apply_writes ws1 D).
Proof. apply foldl_app. Qed.
Lemma apply_writes_ext ws : ∀ D D' k, (∀ k, D k = D' k) → apply_writes ws D k = apply_writes ws D' k.
Proof.
  induction ws as [|w ws IH]; intros D D' k H; simpl; [done|]. apply IH. intros k'. unfold upd. by case_decide.
Qed.
Lemma apply_writes_notin ws : ∀ D k, k ∉ ws.*1 → apply_writes ws D k = D k.
Proof.
  induction ws as [|[k' d] ws IH]; intros D k Hk; simpl in *; [done|]. rewrite IH by set_solver.
  apply upd_ne. set_solver.
Qed.
(** The last write to a block decides. *)
Lemma apply_writes_in ws : ∀ D D' k, k ∈ ws.*1 → apply_writes ws D k = apply_writes ws D' k.
Proof.
  induction ws as [|[k' d] ws IH]; intros D D' k Hk; simpl in *; [set_solver|].
  destruct (decide (k ∈ ws.*1)) as [Hin|Hni]; [by apply IH|].
  rewrite !apply_writes_notin by done. apply elem_of_cons in Hk as [->|?]; [|done]. by rewrite !upd_eq.
Qed.

(** The client's view of the blocks, up to the extension of the two maps. *)
Record is_bspec (σ : bspec) (D V : bkey → block) (H : gmap nat bkey) (Q : gset bkey) (W : list (bkey * block)) : Prop := {
  ib_disk k : bs_disk σ k = D k;
  ib_view k : bs_view σ k = V k;
  ib_held : bs_held σ = H;
  ib_dirty : bs_dirty σ = Q;
  ib_hist : bs_hist σ = W }.

Section log.
Context {K : Type} `{!LockOps K, !ProcOps K, !BlockOps K}.
(** [&log.lock] and [&log] *)
Variables log_lock log_chan : Z.

Fixpoint install_trans_loop (cnt tail : nat) : M (K * log) () :=
  match cnt with
  | O => ret ()
  | S c =>
      let! lg := gets_ (λ l, l) in
      let! lbuf := bread_ (lg_dev lg) (lg_start lg + Z.of_nat tail + 1) in
      let! b := deref (lg_block lg !! tail) in
      let! dbuf := bread_ (lg_dev lg) b in
      let! d := b_data_ lbuf in
      b_set_ dbuf d ;;;
      bwrite_ dbuf ;;;
      brelse_ lbuf ;;;
      brelse_ dbuf ;;;
      install_trans_loop c (S tail)
  end.
Definition install_trans : M (K * log) () :=
  let! n := gets_ lg_n in install_trans_loop (Z.to_nat n) 0.

Fixpoint read_head_loop (cnt i : nat) (d : block) : M (K * log) () :=
  match cnt with
  | O => ret ()
  | S c =>
      let! lg := gets_ (λ l, l) in
      if (i <? length (lg_block lg))%nat then
        modify_ (set_block (<[i := head_block d i]> (lg_block lg))) ;;; read_head_loop c (S i) d
      else fault
  end.
Definition read_head : M (K * log) () :=
  let! lg := gets_ (λ l, l) in
  let! buf := bread_ (lg_dev lg) (lg_start lg) in
  let! d := b_data_ buf in
  modify_ (set_n (head_n d)) ;;;
  read_head_loop (Z.to_nat (head_n d)) 0 d ;;;
  brelse_ buf.

Definition write_head : M (K * log) () :=
  let! lg := gets_ (λ l, l) in
  let! buf := bread_ (lg_dev lg) (lg_start lg) in
  let! d := b_data_ buf in
  b_set_ buf (put_head (lg_n lg) (take (Z.to_nat (lg_n lg)) (lg_block lg)) d) ;;;
  bwrite_ buf ;;;
  brelse_ buf.

Definition recover_from_log : M (K * log) () :=
  read_head ;;;
  install_trans ;;;
  modify_ (set_n 0) ;;;
  write_head.

Definition initlog (dev : Z) : M (K * log) () :=
  if BSIZE <=? 124 then panic "initlog: too big logheader" else
  initlock_ log_lock "log" ;;;
  let! sb := readsb dev in
  modify_ (set_start (sb_logstart sb)) ;;;
  modify_ (set_size (sb_nlog sb)) ;;;
  modify_ (set_dev dev) ;;;
  recover_from_log.

Fixpoint begin_op_loop (fuel : nat) : M (K * log) () :=
  let! lg := gets_ (λ l, l) in
  if lg_committing lg || (LOGSIZE <? lg_n lg + (lg_outstanding lg + 1) * MAXOPBLOCKS) then
    match fuel with
    | O => park (sleep_ log_chan log_lock)
    | S f => sleep_ log_chan log_lock ;;; begin_op_loop f
    end
  else
    modify_ (set_outstanding (lg_outstanding lg + 1)) ;;;
    release_ log_lock.
Definition begin_op (fuel : nat) : M (K * log) () := acquire_ log_lock ;;; begin_op_loop fuel.

Fixpoint write_log_loop (cnt tail : nat) : M (K * log) () :=
  match cnt with
  | O => ret ()
  | S c =>
      let! lg := gets_ (λ l, l) in
      let! to := bread_ (lg_dev lg) (lg_start lg + Z.of_nat tail + 1) in
      let! b := deref (lg_block lg !! tail) in
      let! from := bread_ (lg_dev lg) b in
      let! d := b_data_ from in
      b_set_ to d ;;;
      bwrite_ to ;;;
      brelse_ from ;;;
      brelse_ to ;;;
      write_log_loop c (S tail)
  end.
Definition write_log : M (K * log) () :=
  let! n := gets_ lg_n in write_log_loop (Z.to_nat n) 0.

Definition commit : M (K * log) () :=
  let! n := gets_ lg_n in
  if 0 <? n then
    write_log ;;;
    write_head ;;;
    install_trans ;;;
    modify_ (set_n 0) ;;;
    write_head
  else ret ().

Definition end_op : M (K * log) () :=
  acquire_ log_lock ;;;
  let! lg := gets_ (λ l, l) in
  modify_ (set_outstanding (lg_outstanding lg - 1)) ;;;
  if lg_committing lg then panic "log.committing" else
  let! lg := gets_ (λ l, l) in
  let! do_commit := (if lg_outstanding lg =? 0 then modify_ (set_committing true) ;;; ret true
                     else wakeup_ log_chan ;;; ret false) in
  release_ log_lock ;;;
  if (do_commit : bool) then
    commit ;;;
    acquire_ log_lock ;;;
    modify_ (set_committing false) ;;;
    wakeup_ log_chan ;;;
    release_ log_lock
  else ret ().

Definition log_write (b : nat) : M (K * log) () :=
  let! lg := gets_ (λ l, l) in
  if (LOGSIZE <=? lg_n lg) || (lg_size lg - 1 <=? lg_n lg) then panic "too big a transaction" else
  if lg_outstanding lg <? 1 then panic "log_write outside of trans" else
  acquire_ log_lock ;;;
  let! lg := gets_ (λ l, l) in
  let! bno := b_blockno_ b in
  let n := Z.to_nat (lg_n lg) in
  let i := default n (first_idx (λ b, b =? bno) (take n (lg_block lg))) in
  (if (i <? length (lg_block lg))%nat then modify_ (set_block (<[i := bno]> (lg_block lg))) else fault) ;;;
  (if (i =? n)%nat then modify_ (set_n (lg_n lg + 1)) else ret ()) ;;;
  b_setdirty_ b ;;;
  release_ log_lock.
(** ** The phases of a commit, one disk write at a time *)
Context `{!BlockLaws K}.
Implicit Types (lg : log) (s : K) (σ : bspec).

Definition logkey (lg : log) (i : nat) : bkey := (lg_dev lg, lg_start lg + Z.of_nat i + 1).
Definition headkey (lg : log) : bkey := (lg_dev lg, lg_start lg).
Definition homekey (lg : log) (b : Z) : bkey := (lg_dev lg, b).

(** The log as [initlog] leaves it: [size] blocks from [start] on. *)
Record log_ok (lg : log) : Prop := {
  lo_exists b : lg_start lg ≤ b < lg_start lg + lg_size lg → b_exists (lg_dev lg, b);
  lo_start : 0 ≤ lg_start lg;
  lo_end : lg_start lg + lg_size lg < 4294967296;
  lo_size : 1 ≤ lg_size lg ≤ LOGSIZE;
  lo_n : 0 ≤ lg_n lg < lg_size lg;
  lo_len : length (lg_block lg) = 30%nat }.

Definition in_log (lg : log) (k : bkey) : Prop := k.1 = lg_dev lg ∧ lg_start lg ≤ k.2 < lg_start lg + lg_size lg.
(** A home location: a block of the device outside the log. *)
Definition home_ok (lg : log) (b : Z) : Prop := is_uint b ∧ b_exists (homekey lg b) ∧ ¬ in_log lg (homekey lg b).

Lemma map_img_empty_notin (k : bkey) : k ∉ map_img (SA := gset bkey) (∅ : gmap nat bkey).
Proof. rewrite map_img_empty_L. set_solver. Qed.

Lemma busy_empty σ D V Q W : is_bspec σ D V ∅ Q W → busy σ = Q.
Proof. intros [_ _ Hh Hq _]. unfold busy. rewrite Hh, Hq, map_img_empty_L. set_solver. Qed.

Lemma write_log_step x s lg σ D V Q W c tail b :
  rep x [] s σ → is_bspec σ D V ∅ Q W → log_ok lg → lg_block lg !! tail = Some b → home_ok lg b →
  Z.of_nat tail + 1 < lg_size lg → homekey lg b ∈ Q → logkey lg tail ∉ Q → Z.of_nat (size Q) < NBUF →
  ∃ s' σ', write_log_loop (S c) tail (s, lg) = write_log_loop c (S tail) (s', lg) ∧ rep x [] s' σ' ∧
    is_bspec σ' (upd D (logkey lg tail) (V (homekey lg b))) (upd V (logkey lg tail) (V (homekey lg b))) ∅ Q
      (W ++ [(logkey lg tail, V (homekey lg b))]).
Proof.
  intros Hr Hb Hlg Hbl [Hub [Hex Hhome]] Htail HinQ HniQ Hsz. cbn [write_log_loop].
  pose proof (busy_empty _ _ _ _ _ Hb) as Hbusy. destruct Hb as [Hd Hv Hh Hq Hw].
  destruct Hlg as [H1 H2 H3 H4 H5 H6]. unfold LOGSIZE, MAXOPBLOCKS in H4.
  erewrite bind_Ret; [|reflexivity]. cbn [snd].
  destruct (bread_rep x s lg σ (lg_dev lg) (lg_start lg + Z.of_nat tail + 1)) as (to & s1 & E1 & Hto & Hr1); try done.
  { rewrite Hh. apply map_img_empty_notin. } { apply H1. lia. } { left. by rewrite Hbusy. }
  run E1. rewrite Hbl. erewrite bind_Ret; [|reflexivity]. fold (logkey lg tail) in *.
  assert (homekey lg b ≠ logkey lg tail) as Hne.
  { intros E. apply Hhome. rewrite E. unfold in_log, logkey. simpl. lia. }
  destruct (bread_rep x s1 lg _ (lg_dev lg) b Hr1) as (from & s2 & E2 & Hfrom & Hr2); try done.
  { simpl. rewrite Hh, map_img_insert_notin_L by done. rewrite map_img_empty_L. unfold homekey in Hne. set_solver. }
  { right. simpl. by rewrite Hq. }
  run E2. fold (homekey lg b) in *. simpl in Hfrom. rewrite Hh in *.
  assert (to ≠ from) as Htf. { intros ->. by rewrite lookup_insert_eq in Hfrom. }
  erewrite bind_Ret; [|eapply b_data_rep; [exact Hr2|simpl; by rewrite lookup_insert_eq]]. simpl.
  destruct (b_set_rep x [] s2 lg _ to (logkey lg tail) (bs_view σ (homekey lg b)) Hr2) as (s3 & E3 & Hr3).
  { simpl. rewrite Hh. by rewrite lookup_insert_ne, lookup_insert_eq. } { by eapply rep_block. }
  run E3. destruct (bwrite_rep x s3 lg _ to (logkey lg tail) Hr3) as (s4 & E4 & Hr4).
  { simpl. rewrite Hh. by rewrite lookup_insert_ne, lookup_insert_eq. }
  run E4. destruct (brelse_rep x s4 lg _ from (homekey lg b) Hr4) as (s5 & E5 & Hr5).
  { simpl. rewrite Hh. by rewrite lookup_insert_eq. } { right. simpl. rewrite Hq. set_solver. }
  run E5. destruct (brelse_rep x s5 lg _ to (logkey lg tail) Hr5) as (s6 & E6 & Hr6).
  { simpl. rewrite Hh. rewrite lookup_delete_ne, lookup_insert_ne, lookup_insert_eq by done. done. }
  { left. simpl. by rewrite !upd_eq. }
  run E6. eexists s6, _. split; [reflexivity|]. split; [exact Hr6|]. split; simpl.
  - intros k. unfold upd. repeat case_decide; congruence.
  - intros k. unfold upd. case_decide; congruence.
  - rewrite Hh, delete_insert_eq.
    rewrite (delete_id _ from) by done. rewrite delete_insert_eq. apply delete_empty.
  - rewrite Hq. set_solver.
  - rewrite Hw, upd_eq. by rewrite Hv.
Qed.
(** Installing one block: the home location gets what the log block holds. *)
Lemma install_step x s lg σ D V Q W c tail b :
  rep x [] s σ → is_bspec σ D V ∅ Q W → log_ok lg → lg_block lg !! tail = Some b → home_ok lg b →
  Z.of_nat tail + 1 < lg_size lg → logkey lg tail ∉ Q →
  Z.of_nat (size Q) < NBUF → homekey lg b ∈ Q ∨ Z.of_nat (size Q) + 1 < NBUF →
  ∃ s' σ', install_trans_loop (S c) tail (s, lg) = install_trans_loop c (S tail) (s', lg) ∧ rep x [] s' σ' ∧
    is_bspec σ' (upd D (homekey lg b) (V (logkey lg tail))) (upd V (homekey lg b) (V (logkey lg tail))) ∅ (Q ∖ {[homekey lg b]})
      (W ++ [(homekey lg b, V (logkey lg tail))]).
Proof.
  intros Hr Hb Hlg Hbl [Hub [Hex Hhome]] Htail HniQ Hsz Hroom. cbn [install_trans_loop].
  pose proof (busy_empty _ _ _ _ _ Hb) as Hbusy. destruct Hb as [Hd Hv Hh Hq Hw].
  destruct Hlg as [H1 H2 H3 H4 H5 H6]. unfold LOGSIZE, MAXOPBLOCKS in H4.
  erewrite bind_Ret; [|reflexivity]. cbn [snd].
  assert (bs_view σ (logkey lg tail) = bs_disk σ (logkey lg tail)) as Hclean.
  { apply (rep_clean x [] s σ); [done|]. by rewrite Hbusy. }
  destruct (bread_rep x s lg σ (lg_dev lg) (lg_start lg + Z.of_nat tail + 1)) as (lb & s1 & E1 & Hlb & Hr1); try done.
  { rewrite Hh. apply map_img_empty_notin. } { apply H1. lia. } { left. by rewrite Hbusy. }
  run E1. rewrite Hbl. erewrite bind_Ret; [|reflexivity]. fold (logkey lg tail) in *.
  assert (homekey lg b ≠ logkey lg tail) as Hne.
  { intros E. apply Hhome. rewrite E. unfold in_log, logkey. simpl. lia. }
  destruct (bread_rep x s1 lg _ (lg_dev lg) b Hr1) as (db & s2 & E2 & Hdb & Hr2); try done.
  { simpl. rewrite Hh, map_img_insert_notin_L by done. rewrite map_img_empty_L. unfold homekey in Hne. set_solver. }
  { destruct Hroom as [Hin|Hroom]; [right; simpl; by rewrite Hq|]. left. unfold busy. simpl.
    rewrite Hh, Hq, map_img_insert_notin_L by done. rewrite map_img_empty_L.
    replace ({[logkey lg tail]} ∪ ∅ ∪ Q) with ({[logkey lg tail]} ∪ Q) by set_solver.
    rewrite size_union by set_solver. rewrite size_singleton. lia. }
  run E2. fold (homekey lg b) in *. simpl in Hdb. rewrite Hh in *.
  assert (lb ≠ db) as Htf. { intros ->. by rewrite lookup_insert_eq in Hdb. }
  erewrite bind_Ret; [|eapply b_data_rep; [exact Hr2|simpl; by rewrite Hh, lookup_insert_ne, lookup_insert_eq]]. simpl.
  destruct (b_set_rep x [] s2 lg _ db (homekey lg b) (bs_view σ (logkey lg tail)) Hr2) as (s3 & E3 & Hr3).
  { simpl. by rewrite lookup_insert_eq. } { by eapply rep_block. }
  run E3. destruct (bwrite_rep x s3 lg _ db (homekey lg b) Hr3) as (s4 & E4 & Hr4).
  { simpl. by rewrite lookup_insert_eq. }
  run E4. destruct (brelse_rep x s4 lg _ lb (logkey lg tail) Hr4) as (s5 & E5 & Hr5).
  { simpl. by rewrite Hh, lookup_insert_ne, lookup_insert_eq. } { left. simpl. by rewrite !upd_ne. }
  run E5. destruct (brelse_rep x s5 lg _ db (homekey lg b) Hr5) as (s6 & E6 & Hr6).
  { simpl. by rewrite lookup_delete_ne, lookup_insert_eq. }
  { left. simpl. by rewrite !upd_eq. }
  run E6. eexists s6, _. split; [reflexivity|]. split; [exact Hr6|]. split; simpl.
  - intros k. unfold upd. repeat case_decide; congruence.
  - intros k. unfold upd. case_decide; congruence.
  - rewrite Hh. rewrite (delete_insert_ne _ lb db) by done. by rewrite !delete_insert_eq, !delete_empty.
  - by rewrite Hq.
  - rewrite Hw, upd_eq. by rewrite Hv.
Qed.

(** The writes of the two loops, for the blocks [bs] from place [tail] on. *)
Fixpoint log_writes (lg : log) (V : bkey → block) (tail : nat) (bs : list Z) : list (bkey * block) :=
  match bs with [] => [] | b :: bs' => (logkey lg tail, V (homekey lg b)) :: log_writes lg V (S tail) bs' end.
Fixpoint install_writes (lg : log) (V : bkey → block) (tail : nat) (bs : list Z) : list (bkey * block) :=
  match bs with [] => [] | b :: bs' => (homekey lg b, V (logkey lg tail)) :: install_writes lg V (S tail) bs' end.

Lemma log_writes_ext lg V V' : ∀ bs tail, (∀ b, b ∈ bs → V (homekey lg b) = V' (homekey lg b)) →
  log_writes lg V tail bs = log_writes lg V' tail bs.
Proof. induction bs as [|b bs IH]; intros tail H; simpl; [done|]. rewrite H by set_solver. f_equal. apply IH. set_solver. Qed.
Lemma install_writes_ext lg V V' : ∀ bs tail, (∀ i, (tail ≤ i < tail + length bs)%nat → V (logkey lg i) = V' (logkey lg i)) →
  install_writes lg V tail bs = install_writes lg V' tail bs.
Proof.
  induction bs as [|b bs IH]; intros tail H; simpl; [done|]. simpl in H. rewrite (H tail) by lia. f_equal. apply IH.
  intros i Hi. apply H. lia.
Qed.

Lemma write_log_loop_ok x lg Q bs : ∀ tail s σ D V W,
  rep x [] s σ → is_bspec σ D V ∅ Q W → log_ok lg → Z.of_nat (size Q) < NBUF →
  (∀ i b, bs !! i = Some b → lg_block lg !! (tail + i)%nat = Some b ∧ home_ok lg b ∧ homekey lg b ∈ Q) →
  (∀ i, (tail ≤ i < tail + length bs)%nat → logkey lg i ∉ Q) → Z.of_nat (tail + length bs) < lg_size lg →
  ∃ s' σ', write_log_loop (length bs) tail (s, lg) = Ret () (s', lg) ∧ rep x [] s' σ' ∧
    is_bspec σ' (apply_writes (log_writes lg V tail bs) D) (apply_writes (log_writes lg V tail bs) V) ∅ Q
      (W ++ log_writes lg V tail bs).
Proof.
  induction bs as [|b bs IH]; intros tail s σ D V W Hr Hb Hlg Hsz Hbs Hlk Hlen.
  { exists s, σ. simpl. by rewrite app_nil_r. }
  destruct (Hbs 0%nat b eq_refl) as (Hbl & Hhome & HinQ). rewrite Nat.add_0_r in Hbl. simpl in Hlen, Hlk.
  destruct (write_log_step x s lg σ D V Q W (length bs) tail b) as (s1 & σ1 & E1 & Hr1 & Hb1); try done; [lia|apply Hlk; lia|].
  cbn [length]. rewrite E1.
  destruct (IH (S tail) s1 σ1 _ _ _ Hr1 Hb1 Hlg Hsz) as (s2 & σ2 & E2 & Hr2 & Hb2).
  { intros i c Hi. replace (S tail + i)%nat with (tail + S i)%nat by lia. by apply Hbs. }
  { intros i Hi. apply Hlk. lia. } { lia. }
  exists s2, σ2. split; [done|]. split; [done|]. cbn [log_writes apply_writes foldl fst snd].
  rewrite (log_writes_ext lg _ V) in Hb2; [by rewrite <- app_assoc in Hb2|].
  intros c Hc. apply upd_ne. intros E. apply (Hlk tail); [lia|]. rewrite E.
  apply list_elem_of_lookup in Hc as [i Hi]. by destruct (Hbs (S i) c Hi) as (_ & _ & ?).
Qed.

Lemma install_loop_ok x lg bs : ∀ tail s σ D V Q W,
  rep x [] s σ → is_bspec σ D V ∅ Q W → log_ok lg → Z.of_nat (size Q) < NBUF →
  Z.of_nat (size Q) + 1 < NBUF ∨ list_to_set (homekey lg <$> bs) = Q →
  (∀ i b, bs !! i = Some b → lg_block lg !! (tail + i)%nat = Some b ∧ home_ok lg b) →
  (∀ i, (tail ≤ i < tail + length bs)%nat → logkey lg i ∉ Q) → Z.of_nat (tail + length bs) < lg_size lg →
  ∃ s' σ', install_trans_loop (length bs) tail (s, lg) = Ret () (s', lg) ∧ rep x [] s' σ' ∧
    is_bspec σ' (apply_writes (install_writes lg V tail bs) D) (apply_writes (install_writes lg V tail bs) V) ∅
      (Q ∖ list_to_set (homekey lg <$> bs)) (W ++ install_writes lg V tail bs).
Proof.
  induction bs as [|b bs IH]; intros tail s σ D V Q W Hr Hb Hlg Hsz Hroom Hbs Hlk Hlen.
  { exists s, σ. simpl. rewrite app_nil_r, difference_empty_L. done. }
  destruct (Hbs 0%nat b eq_refl) as (Hbl & Hhome). rewrite Nat.add_0_r in Hbl. simpl in Hlen, Hlk.
  destruct (install_step x s lg σ D V Q W (length bs) tail b) as (s1 & σ1 & E1 & Hr1 & Hb1); try done; [lia|apply Hlk; lia| |].
  { destruct Hroom as [?|<-]; [by right|]. left. simpl. set_solver. }
  cbn [length]. rewrite E1.
  assert (size (Q ∖ {[homekey lg b]}) ≤ size Q)%nat as Hle by (apply subseteq_size; set_solver).
  destruct (IH (S tail) s1 σ1 _ _ _ _ Hr1 Hb1 Hlg) as (s2 & σ2 & E2 & Hr2 & Hb2).
  { lia. }
  { left. destruct Hroom as [?|HQ]; [lia|]. rewrite size_difference, size_singleton by (rewrite <- HQ; set_solver).
    assert (size Q ≠ 0%nat); [|lia]. apply size_non_empty_iff. rewrite <- HQ. set_solver. }
  { intros i c Hi. replace (S tail + i)%nat with (tail + S i)%nat by lia. by apply Hbs. }
  { intros i Hi. apply not_elem_of_difference. left. apply Hlk. lia. } { lia. }
  exists s2, σ2. split; [done|]. split; [done|]. cbn [install_writes apply_writes foldl fst snd].
  rewrite (install_writes_ext lg _ V) in Hb2; last first.
  { intros i Hi. apply upd_ne. intros E. destruct Hhome as (_ & _ & Hhome). apply Hhome. rewrite E.
    destruct Hlg. unfold in_log, logkey. simpl. lia. }
  rewrite <- app_assoc in Hb2. cbn [app] in Hb2. rewrite fmap_cons, list_to_set_cons.
  replace (Q ∖ ({[homekey lg b]} ∪ list_to_set (homekey lg <$> bs)))
    with (Q ∖ {[homekey lg b]} ∖ list_to_set (homekey lg <$> bs)) by set_solver. done.
Qed.
Lemma write_head_ok x lg s σ D V Q W :
  rep x [] s σ → is_bspec σ D V ∅ Q W → log_ok lg → headkey lg ∉ Q → Z.of_nat (size Q) < NBUF →
  let h := put_head (lg_n lg) (take (Z.to_nat (lg_n lg)) (lg_block lg)) (V (headkey lg)) in
  ∃ s' σ', write_head (s, lg) = Ret () (s', lg) ∧ rep x [] s' σ' ∧
    is_bspec σ' (upd D (headkey lg) h) (upd V (headkey lg) h) ∅ Q (W ++ [(headkey lg, h)]).
Proof.
  intros Hr Hb Hlg HniQ Hsz h. unfold write_head.
  pose proof (busy_empty _ _ _ _ _ Hb) as Hbusy. destruct Hb as [Hd Hv Hh Hq Hw].
  destruct Hlg as [H1 H2 H3 H4 H5 H6]. unfold LOGSIZE, MAXOPBLOCKS in H4.
  erewrite bind_Ret; [|reflexivity]. cbn [snd].
  destruct (bread_rep x s lg σ (lg_dev lg) (lg_start lg)) as (hb & s1 & E1 & Hhb & Hr1); try done.
  { rewrite Hh. apply map_img_empty_notin. } { apply H1. lia. } { left. by rewrite Hbusy. }
  run E1. fold (headkey lg) in *.
  erewrite bind_Ret; [|eapply b_data_rep; [exact Hr1|simpl; by rewrite lookup_insert_eq]].
  cbn [bs_view hold]. rewrite Hv. fold h.
  destruct (b_set_rep x [] s1 lg _ hb (headkey lg) h Hr1) as (s3 & E3 & Hr3).
  { simpl. by rewrite lookup_insert_eq. } { apply put_head_ok. rewrite <- Hv. by eapply rep_block. }
  run E3. destruct (bwrite_rep x s3 lg _ hb (headkey lg) Hr3) as (s4 & E4 & Hr4).
  { simpl. by rewrite lookup_insert_eq. }
  run E4. destruct (brelse_rep x s4 lg _ hb (headkey lg) Hr4) as (s5 & E5 & Hr5).
  { simpl. by rewrite lookup_insert_eq. } { left. simpl. by rewrite !upd_eq. }
  eexists s5, _. split; [exact E5|]. split; [exact Hr5|]. split; simpl.
  - intros k. unfold upd. repeat case_decide; congruence.
  - intros k. unfold upd. case_decide; congruence.
  - by rewrite Hh, delete_insert_eq, delete_empty.
  - rewrite Hq. set_solver.
  - by rewrite Hw, upd_eq.
Qed.

(** The block numbers a header lists. *)
Definition head_blocks (d : block) : list Z := head_block d <$> seq 0 (Z.to_nat (head_n d)).

Lemma read_head_loop_ok cnt : ∀ i d s lg, (i + cnt ≤ length (lg_block lg))%nat →
  ∃ bl, read_head_loop cnt i d (s, lg) = Ret () (s, set_block bl lg) ∧ length bl = length (lg_block lg) ∧
    take i bl = take i (lg_block lg) ∧ take cnt (drop i bl) = head_block d <$> seq i cnt.
Proof.
  induction cnt as [|cnt IH]; intros i d s lg Hl; cbn [read_head_loop].
  { exists (lg_block lg). split; [by destruct lg|]. done. }
  erewrite bind_Ret; [|reflexivity]. cbn [snd]. rewrite (proj2 (Nat.ltb_lt _ _)) by lia.
  erewrite bind_Ret; [|reflexivity]. cbn [fst snd].
  destruct (IH (S i) d s (set_block (<[i:=head_block d i]> (lg_block lg)) lg)) as (bl & E & Hlen & Ht & Hd).
  { simpl. rewrite length_insert. lia. }
  exists bl. rewrite E. simpl in Hlen, Ht. rewrite length_insert in Hlen. split; [done|]. split; [done|].
  assert (bl !! i = Some (head_block d i)) as Hi.
  { rewrite <- (lookup_take_lt bl (S i)) by lia. rewrite Ht, lookup_take_lt by lia. rewrite list_lookup_insert_eq by lia. done. }
  split.
  - assert (∀ l : list Z, take i l = take i (take (S i) l)) as Et by (intros l; rewrite take_take; f_equal; lia).
    rewrite (Et bl), Ht, <- Et. by rewrite take_insert_ge.
  - rewrite (drop_S _ _ _ Hi). simpl. by rewrite Hd.
Qed.

Lemma read_head_ok x lg s σ D V W :
  rep x [] s σ → is_bspec σ D V ∅ ∅ W → log_ok lg → 0 ≤ head_n (D (headkey lg)) < lg_size lg →
  ∃ s' bl, read_head (s, lg) = Ret () (s', set_block bl (set_n (head_n (D (headkey lg))) lg)) ∧ 
    length bl = 30%nat ∧ take (Z.to_nat (head_n (D (headkey lg)))) bl = head_blocks (D (headkey lg)) ∧
    ∃ σ', rep x [] s' σ' ∧ is_bspec σ' D V ∅ ∅ W.
Proof.
  intros Hr Hb Hlg Hn. unfold read_head.
  pose proof (busy_empty _ _ _ _ _ Hb) as Hbusy. destruct Hb as [Hd Hv Hh Hq Hw].
  pose proof (rep_clean x [] s σ (headkey lg) Hr ltac:(rewrite Hbusy; set_solver)) as Hclean.
  destruct Hlg as [H1 H2 H3 H4 H5 H6]. unfold LOGSIZE, MAXOPBLOCKS in H4.
  erewrite bind_Ret; [|reflexivity]. cbn [snd].
  destruct (bread_rep x s lg σ (lg_dev lg) (lg_start lg)) as (hb & s1 & E1 & Hhb & Hr1); try done.
  { rewrite Hh. apply map_img_empty_notin. } { apply H1. lia. } { left. rewrite Hbusy, size_empty. unfold NBUF, MAXOPBLOCKS. lia. }
  run E1. fold (headkey lg) in *.
  erewrite bind_Ret; [|eapply b_data_rep; [exact Hr1|simpl; by rewrite lookup_insert_eq]].
  cbn [bs_view hold]. rewrite Hclean, Hd. set (d := D (headkey lg)) in *.
  erewrite bind_Ret; [|reflexivity]. cbn [fst snd].
  destruct (read_head_loop_ok (Z.to_nat (head_n d)) 0 d s1 (set_n (head_n d) lg)) as (bl & E2 & Hlen & _ & Hbl).
  { simpl. rewrite H6. lia. }
  run E2. simpl in Hlen. rewrite H6 in Hlen.
  destruct (brelse_rep x s1 (set_block bl (set_n (head_n d) lg)) _ hb (headkey lg) Hr1) as (s5 & E5 & Hr5).
  { simpl. by rewrite lookup_insert_eq. } { by left. }
  eexists s5, bl. split; [exact E5|]. split; [done|]. split; [exact Hbl|].
  eexists. split; [exact Hr5|]. split; simpl; try done. by rewrite Hh, delete_insert_eq, delete_empty.
Qed.
(** ** What a disk means

    A disk with a header that lists blocks stands for the disk on which they
    are installed. *)
Definition meaning (lg : log) (D : bkey → block) : bkey → block :=
  apply_writes (install_writes lg D 0 (head_blocks (D (headkey lg)))) D.
Definition head_ok (lg : log) (D : bkey → block) : Prop :=
  0 ≤ head_n (D (headkey lg)) < lg_size lg ∧ ∀ b, b ∈ head_blocks (D (headkey lg)) → home_ok lg b.
Definition same_data (lg : log) (D D' : bkey → block) : Prop := ∀ k, ¬ in_log lg k → D k = D' k.

Lemma head_blocks_length d : length (head_blocks d) = Z.to_nat (head_n d).
Proof. unfold head_blocks. by rewrite length_fmap, length_seq. Qed.

Lemma install_writes_keys lg V bs : ∀ tail k, k ∈ (install_writes lg V tail bs).*1 ↔ ∃ b, b ∈ bs ∧ k = homekey lg b.
Proof.
  induction bs as [|b bs IH]; intros tail k; simpl; [split; [set_solver|intros (b & ? & _); set_solver]|].
  rewrite elem_of_cons, IH. set_solver.
Qed.
Lemma install_writes_length lg V bs : ∀ tail, length (install_writes lg V tail bs) = length bs.
Proof. induction bs as [|b bs IH]; intros tail; simpl; [done|]. by rewrite IH. Qed.
Lemma log_writes_length lg V bs : ∀ tail, length (log_writes lg V tail bs) = length bs.
Proof. induction bs as [|b bs IH]; intros tail; simpl; [done|]. by rewrite IH. Qed.
Lemma log_writes_keys lg V bs : ∀ tail k, k ∈ (log_writes lg V tail bs).*1 ↔
  ∃ i, (tail ≤ i < tail + length bs)%nat ∧ k = logkey lg i.
Proof.
  induction bs as [|b bs IH]; intros tail k; simpl; [split; [set_solver|intros (i & ? & _); lia]|].
  rewrite elem_of_cons, IH. split.
  - intros [->|(i & Hi & ->)]; [exists tail; split; [lia|done]|exists i; split; [lia|done]].
  - intros (i & Hi & ->). destruct (decide (i = tail)) as [->|]; [by left|right; exists i; split; [lia|done]].
Qed.

Lemma logkey_inj lg i j : logkey lg i = logkey lg j → i = j.
Proof. unfold logkey. intros [= ?]. lia. Qed.
Lemma log_writes_value lg V D bs : ∀ tail i b, bs !! i = Some b →
  apply_writes (log_writes lg V tail bs) D (logkey lg (tail + i)) = V (homekey lg b).
Proof.
  revert D. induction bs as [|c bs IH]; intros D tail i b Hi; [by rewrite lookup_nil in Hi|].
  destruct i as [|i]; simpl in Hi |- *.
  - injection Hi as ->. rewrite Nat.add_0_r. fold (apply_writes (log_writes lg V (S tail) bs)). rewrite apply_writes_notin; [apply upd_eq|].
    rewrite log_writes_keys. intros (j & Hj & E%logkey_inj). lia.
  - replace (tail + S i)%nat with (S tail + i)%nat by lia. by apply IH.
Qed.

(** When every write stores what [v] says of its block, so does the last. *)
Lemma apply_writes_val v ws : ∀ D k, (∀ w, w ∈ ws → w.2 = v w.1) → k ∈ ws.*1 → apply_writes ws D k = v k.
Proof.
  induction ws as [|[k' d] ws IH]; intros D k Hv Hk; simpl in *; [set_solver|].
  destruct (decide (k ∈ ws.*1)) as [Hin|Hni]; [apply IH; [set_solver|done]|].
  fold (apply_writes ws). rewrite apply_writes_notin by done. apply elem_of_cons in Hk as [->|?]; [|done].
  rewrite upd_eq. by apply (Hv (k', d)); left.
Qed.

Lemma take_keys {A B} (ws : list (A * B)) j k : k ∈ (take j ws).*1 → k ∈ ws.*1.
Proof. intros Hk. rewrite fmap_take in Hk. rewrite <- (take_drop j ws.*1). apply elem_of_app. by left. Qed.

Lemma in_log_key lg i : (Z.of_nat i + 1 < lg_size lg) → in_log lg (logkey lg i).
Proof. intros. unfold in_log, logkey. simpl. lia. Qed.
Lemma in_log_head lg : 0 < lg_size lg → in_log lg (headkey lg).
Proof. intros. unfold in_log, headkey. simpl. lia. Qed.

(** Installing only a first part of the listed blocks does not change what the
    disk means. *)
Lemma meaning_partial lg D j : head_ok lg D →
  let D' := apply_writes (take j (install_writes lg D 0 (head_blocks (D (headkey lg))))) D in
  head_ok lg D' ∧ (∀ k, in_log lg k → D' k = D k) ∧ ∀ k, meaning lg D' k = meaning lg D k.
Proof.
  intros [Hn Hhome] D'. set (bs := head_blocks (D (headkey lg))) in *.
  set (ws := install_writes lg D 0 bs) in *.
  assert (∀ k, in_log lg k → D' k = D k) as Hlog.
  { intros k Hk. unfold D'. apply apply_writes_notin. intros Hin%take_keys. apply install_writes_keys in Hin as (b & Hb & ->).
    by destruct (Hhome b Hb) as (_ & _ & ?). }
  assert (D' (headkey lg) = D (headkey lg)) as Hhead by (apply Hlog, in_log_head; lia).
  split; [unfold head_ok; by rewrite Hhead|]. split; [done|].
  intros k. unfold meaning. rewrite Hhead. fold bs.
  rewrite (install_writes_ext lg D' D bs 0).
  2: { intros i Hi. apply Hlog, in_log_key. unfold bs in Hi. rewrite head_blocks_length in Hi. lia. }
  fold ws. destruct (decide (k ∈ ws.*1)) as [Hin|Hni]; [by apply apply_writes_in|].
  rewrite !apply_writes_notin by done. unfold D'. apply apply_writes_notin. intros Hk%take_keys. done.
Qed.

(** A disk with an empty header means itself. *)
Lemma meaning_empty lg D : head_n (D (headkey lg)) = 0 → ∀ k, meaning lg D k = D k.
Proof. intros Hn k. unfold meaning, head_blocks. by rewrite Hn. Qed.
(** ** Recovery *)
Definition same_geometry (lg lg' : log) : Prop :=
  lg_start lg' = lg_start lg ∧ lg_size lg' = lg_size lg ∧ lg_dev lg' = lg_dev lg.

Lemma same_geometry_keys lg lg' : same_geometry lg lg' →
  (∀ i, logkey lg' i = logkey lg i) ∧ headkey lg' = headkey lg ∧ (∀ b, homekey lg' b = homekey lg b) ∧
  (∀ k, in_log lg' k ↔ in_log lg k) ∧ (∀ b, home_ok lg' b ↔ home_ok lg b).
Proof.
  intros (E1 & E2 & E3). unfold logkey, headkey, homekey, home_ok, in_log, homekey. rewrite E1, E2, E3. done.
Qed.

Lemma install_writes_geometry lg lg' V bs : same_geometry lg lg' → ∀ tail,
  install_writes lg' V tail bs = install_writes lg V tail bs.
Proof.
  intros H. destruct (same_geometry_keys lg lg' H) as (H1 & _ & H3 & _). induction bs as [|b bs IH]; intros tail; simpl; [done|].
  by rewrite H1, H3, IH.
Qed.

Lemma recover_ok x s σ lg D W :
  rep x [] s σ → is_bspec σ D D ∅ ∅ W → log_ok lg → head_ok lg D →
  ∃ s' σ' lg' ws, recover_from_log (s, lg) = Ret () (s', lg') ∧ rep x [] s' σ' ∧
    same_geometry lg lg' ∧ lg_n lg' = 0 ∧
    is_bspec σ' (apply_writes ws D) (apply_writes ws D) ∅ ∅ (W ++ ws) ∧ head_n (apply_writes ws D (headkey lg)) = 0 ∧
    ∀ j, head_ok lg (apply_writes (take j ws) D) ∧ same_data lg (meaning lg (apply_writes (take j ws) D)) (meaning lg D).
Proof.
  intros Hr Hb Hlg Hho. pose proof Hho as [Hn Hhome]. unfold recover_from_log.
  destruct (read_head_ok x lg s σ D D W Hr Hb Hlg Hn) as (s1 & bl & E1 & Hlen & Hbl & σ1 & Hr1 & Hb1). run E1.
  set (bs := head_blocks (D (headkey lg))) in *. set (n := head_n (D (headkey lg))) in *.
  set (lg1 := set_block bl (set_n n lg)).
  assert (log_ok lg1) as Hlg1 by (destruct Hlg; by split).
  assert (length bs = Z.to_nat n) as Hlbs by apply head_blocks_length.
  destruct (install_loop_ok x lg1 bs 0 s1 σ1 D D ∅ W Hr1 Hb1 Hlg1) as (s2 & σ2 & E2 & Hr2 & Hb2).
  { rewrite size_empty. unfold NBUF, MAXOPBLOCKS. lia. } { left. rewrite size_empty. unfold NBUF, MAXOPBLOCKS. lia. }
  { intros i b Hi. split; [|apply Hhome; by eapply list_elem_of_lookup_2].
    simpl. rewrite <- Hi, <- Hbl. rewrite lookup_take_lt; [done|]. apply lookup_lt_Some in Hi. lia. }
  { set_solver. } { simpl. rewrite Hlbs. lia. }
  unfold install_trans. erewrite bind_Ret; [|erewrite bind_Ret; [|reflexivity]; cbn [snd lg_n lg1 set_block set_n]; rewrite <- Hlbs; exact E2].
  erewrite bind_Ret; [|reflexivity]. cbn [fst snd]. set (lg2 := set_n 0 lg1).
  assert (log_ok lg2) as Hlg2 by (destruct Hlg; split; simpl; try done; lia).
  replace (∅ ∖ list_to_set (homekey lg1 <$> bs)) with (∅ : gset bkey) in Hb2 by set_solver.
  set (iw := install_writes lg D 0 bs). rewrite (install_writes_geometry lg lg1) in Hb2 by done. fold iw in Hb2.
  destruct (write_head_ok x lg2 s2 σ2 _ _ _ _ Hr2 Hb2 Hlg2) as (s3 & σ3 & E3 & Hr3 & Hb3);
    [set_solver|rewrite size_empty; unfold NBUF, MAXOPBLOCKS; lia|].
  change (headkey lg2) with (headkey lg) in Hb3. cbn [lg_n lg2 set_n] in Hb3. change (Z.to_nat 0) with 0%nat in Hb3. rewrite take_0 in Hb3.
  set (h0 := put_head 0 [] (apply_writes iw D (headkey lg))) in *.
  exists s3, σ3, lg2, (iw ++ [(headkey lg, h0)]).
  rewrite apply_writes_app. cbn [apply_writes foldl fst snd]. rewrite app_assoc.
  assert (head_n h0 = 0) as Hh0.
  { apply head_n_put; [|simpl; lia|lia]. destruct Hb2 as [Hd2 _ _ _ _]. rewrite <- Hd2. by eapply rep_block. }
  split; [exact E3|]. split; [done|]. split; [by unfold same_geometry|]. split; [done|]. split; [exact Hb3|].
  split; [by rewrite upd_eq|]. intros j. destruct (decide (j ≤ length iw)%nat) as [Hj|Hj].
  - rewrite take_app_le by lia. destruct (meaning_partial lg D j Hho) as (H1 & _ & H3). split; [done|]. intros k _. apply H3.
  - rewrite take_ge by (rewrite length_app; simpl; lia). rewrite apply_writes_app. cbn [apply_writes foldl fst snd]. fold (apply_writes iw D).
    split; [split; rewrite upd_eq; [rewrite Hh0; destruct Hlg; lia|unfold head_blocks; rewrite Hh0; simpl; set_solver]|].
    intros k Hk. rewrite meaning_empty by (by rewrite upd_eq). rewrite upd_ne; [done|]. intros <-. apply Hk, in_log_head. destruct Hlg. lia.
Qed.
(** ** Commit *)
(** A transaction ready to commit: no buffer is held, the dirty blocks are those
    the log lists, all outside the log, and the header on disk is empty. *)
Record ready (lg : log) (D V : bkey → block) (Q : gset bkey) : Prop := {
  rd_log : log_ok lg;
  rd_home b : b ∈ take (Z.to_nat (lg_n lg)) (lg_block lg) → home_ok lg b;
  rd_dirty : Q = list_to_set (homekey lg <$> take (Z.to_nat (lg_n lg)) (lg_block lg));
  rd_clean k : k ∉ Q → V k = D k;
  rd_head : head_n (D (headkey lg)) = 0 }.

Lemma size_list_to_set_le (l : list bkey) : (size (list_to_set l : gset bkey) ≤ length l)%nat.
Proof.
  induction l as [|k l IH]; [done|]. cbn [list_to_set length].
  destruct (decide (k ∈ (list_to_set l : gset bkey))) as [Hin|Hni].
  - replace ({[k]} ∪ list_to_set l) with (list_to_set l : gset bkey) by set_solver. lia.
  - rewrite size_union by set_solver. rewrite size_singleton. lia.
Qed.

Lemma ready_size lg D V Q : ready lg D V Q → Z.of_nat (size Q) < NBUF.
Proof.
  intros [Hlg _ -> _ _]. destruct Hlg as [_ _ _ H4 H5 _].
  assert (size (list_to_set (homekey lg <$> take (Z.to_nat (lg_n lg)) (lg_block lg)) : gset bkey) ≤ Z.to_nat (lg_n lg))%nat; [|unfold LOGSIZE, NBUF in *; lia].
  etrans; [apply size_list_to_set_le|]. rewrite length_fmap, length_take. lia.
Qed.

(** The disk once the header is written means the new contents. *)
Lemma meaning_committed lg D V Q : ready lg D V Q → (∀ k, block_ok (V k)) →
  let bs := take (Z.to_nat (lg_n lg)) (lg_block lg) in
  let D1 := apply_writes (log_writes lg V 0 bs) D in
  let h1 := put_head (lg_n lg) bs (apply_writes (log_writes lg V 0 bs) V (headkey lg)) in
  let D2 := upd D1 (headkey lg) h1 in
  head_ok lg D2 ∧ head_blocks (D2 (headkey lg)) = bs ∧
  (∀ i b, bs !! i = Some b → D2 (logkey lg i) = V (homekey lg b)) ∧ same_data lg (meaning lg D2) V.
Proof.
  intros Hrd HV bs D1 h1 D2. pose proof Hrd as [Hlg Hhome HQ Hclean Hhead]. pose proof Hlg as [_ _ _ H4 H5 H6].
  assert (length bs = Z.to_nat (lg_n lg)) as Hlbs by (unfold bs; rewrite length_take; unfold LOGSIZE, MAXOPBLOCKS in H4; lia).
  assert (apply_writes (log_writes lg V 0 bs) V (headkey lg) = V (headkey lg)) as EV.
  { apply apply_writes_notin. rewrite log_writes_keys. intros (i & _ & E). unfold headkey, logkey in E. injection E. lia. }
  assert (head_n h1 = lg_n lg) as Hn1.
  { unfold h1. rewrite EV. unfold LOGSIZE, MAXOPBLOCKS in H4. apply head_n_put; [done|lia|lia]. }
  assert (head_blocks h1 = bs) as Hb1.
  { unfold head_blocks. rewrite Hn1. apply list_eq. intros i. rewrite list_lookup_fmap.
    destruct (decide (i < Z.to_nat (lg_n lg))%nat) as [Hi|Hi].
    - rewrite lookup_seq_lt by done. simpl. destruct (lookup_lt_is_Some_2 bs i) as [b Hb]; [lia|]. rewrite Hb. f_equal.
      unfold h1. rewrite EV. unfold LOGSIZE, MAXOPBLOCKS in H4.
      apply head_block_put; [done|lia|done|]. apply Hhome. by eapply list_elem_of_lookup_2.
    - rewrite lookup_seq_ge by lia. simpl. symmetry. apply lookup_ge_None. lia. }
  assert (D2 (headkey lg) = h1) as ED2 by apply upd_eq.
  assert (∀ i b, bs !! i = Some b → D2 (logkey lg i) = V (homekey lg b)) as Hlogv.
  { intros i b Hi. unfold D2. rewrite upd_ne by (unfold headkey, logkey; intros [= ?]; lia).
    by apply (log_writes_value lg V D bs 0 i b). }
  split; [split; rewrite ED2; [rewrite Hn1; done|by rewrite Hb1]|]. split; [by rewrite ED2|]. split; [done|].
  intros k Hk. unfold meaning. rewrite ED2, Hb1. set (iw := install_writes lg D2 0 bs).
  assert (∀ w, w ∈ iw → w.2 = V w.1) as Hval.
  { unfold iw. clear -Hlogv. assert (∀ tail l, (∀ i b, l !! i = Some b → D2 (logkey lg (tail + i)) = V (homekey lg b)) →
      ∀ w, w ∈ install_writes lg D2 tail l → w.2 = V w.1) as Hgen; [|by apply Hgen].
    intros tail l. revert tail. induction l as [|b l IH]; intros tail H w Hw; simpl in Hw; [set_solver|].
    apply elem_of_cons in Hw as [->|Hw]; simpl.
    - specialize (H 0%nat b eq_refl). by rewrite Nat.add_0_r in H.
    - apply (IH (S tail)); [|done]. intros i c Hi. replace (S tail + i)%nat with (tail + S i)%nat by lia. by apply H. }
  destruct (decide (k ∈ iw.*1)) as [Hin|Hni]; [by apply apply_writes_val|].
  rewrite apply_writes_notin by done. unfold D2, D1.
  rewrite upd_ne by (intros <-; apply Hk, in_log_head; lia).
  rewrite apply_writes_notin.
  2: { rewrite log_writes_keys. intros (i & Hi & ->). apply Hk, in_log_key. lia. }
  symmetry. apply Hclean. rewrite HQ. intros Hin. apply Hni. apply install_writes_keys.
  apply elem_of_list_to_set, list_elem_of_fmap in Hin as (b & -> & Hb). eauto.
Qed.
Lemma commit_ok x s σ lg D V Q W :
  rep x [] s σ → is_bspec σ D V ∅ Q W → ready lg D V Q → 0 < lg_n lg →
  ∃ s' σ' V' ws, commit (s, lg) = Ret () (s', set_n 0 lg) ∧ rep x [] s' σ' ∧
    is_bspec σ' (apply_writes ws D) V' ∅ ∅ (W ++ ws) ∧ head_n (apply_writes ws D (headkey lg)) = 0 ∧
    same_data lg (apply_writes ws D) V ∧
    ∀ j, head_ok lg (apply_writes (take j ws) D) ∧
      (same_data lg (meaning lg (apply_writes (take j ws) D)) D ∨ same_data lg (meaning lg (apply_writes (take j ws) D)) V).
Proof.
  intros Hr Hb Hrd Hpos. pose proof (ready_size _ _ _ _ Hrd) as Hsz. pose proof Hrd as [Hlg Hhome HQ Hclean Hhead].
  assert (∀ k, block_ok (V k)) as HV by (intros k; rewrite <- (ib_view _ _ _ _ _ _ Hb); by eapply rep_block).
  pose proof (meaning_committed lg D V Q Hrd HV) as Hmean. cbv zeta in Hmean.
  set (bs := take (Z.to_nat (lg_n lg)) (lg_block lg)) in *. set (lw := log_writes lg V 0 bs) in *.
  set (h1 := put_head (lg_n lg) bs (apply_writes lw V (headkey lg))) in *. set (D2 := upd (apply_writes lw D) (headkey lg) h1) in *.
  destruct Hmean as (Hho2 & Hbs2 & Hlogv & Hmean2). pose proof Hlg as [_ _ _ H4 H5 H6].
  assert (length bs = Z.to_nat (lg_n lg)) as Hlbs by (unfold bs; rewrite length_take; unfold LOGSIZE, MAXOPBLOCKS in H4; lia).
  assert (∀ k, in_log lg k → k ∉ Q) as HlogQ.
  { intros k Hk Hin. rewrite HQ in Hin. apply elem_of_list_to_set, list_elem_of_fmap in Hin as (b & -> & Hb'). by destruct (Hhome b Hb') as (_ & _ & ?). }
  unfold commit. erewrite bind_Ret; [|reflexivity]. cbn [snd]. rewrite (proj2 (Z.ltb_lt _ _)) by done.
  destruct (write_log_loop_ok x lg Q bs 0 s σ D V W Hr Hb Hlg Hsz) as (s1 & σ1 & E1 & Hr1 & Hb1).
  { intros i b Hi. split_and!.
    - simpl. rewrite <- Hi. unfold bs. rewrite lookup_take_lt; [done|]. apply lookup_lt_Some in Hi. lia.
    - apply Hhome. by eapply list_elem_of_lookup_2.
    - rewrite HQ. apply elem_of_list_to_set, list_elem_of_fmap. eexists. split; [done|]. by eapply list_elem_of_lookup_2. }
  { intros i Hi. apply HlogQ, in_log_key. lia. } { simpl. rewrite Hlbs. lia. }
  unfold write_log. erewrite bind_Ret; [|erewrite bind_Ret; [|reflexivity]; cbn [snd]; rewrite <- Hlbs; exact E1].
  destruct (write_head_ok x lg s1 σ1 _ _ Q _ Hr1 Hb1 Hlg) as (s2 & σ2 & E2 & Hr2 & Hb2);
    [apply HlogQ, in_log_head; lia|done|]. run E2. fold bs in Hb2. fold lw in Hb2. fold h1 in Hb2. fold D2 in Hb2.
  set (V2 := upd (apply_writes lw V) (headkey lg) h1) in *.
  destruct (install_loop_ok x lg bs 0 s2 σ2 D2 V2 Q _ Hr2 Hb2 Hlg Hsz) as (s3 & σ3 & E3 & Hr3 & Hb3); [by right| | | |].
  { intros i b Hi. split; [|apply Hhome; by eapply list_elem_of_lookup_2].
    simpl. rewrite <- Hi. unfold bs. rewrite lookup_take_lt; [done|]. apply lookup_lt_Some in Hi. lia. }
  { intros i Hi. apply HlogQ, in_log_key. lia. } { simpl. rewrite Hlbs. lia. }
  unfold install_trans. erewrite bind_Ret; [|erewrite bind_Ret; [|reflexivity]; cbn [snd]; rewrite <- Hlbs; exact E3].
  erewrite bind_Ret; [|reflexivity]. cbn [fst snd].
  rewrite (install_writes_ext lg V2 D2) in Hb3.
  2: { intros i Hi. destruct (lookup_lt_is_Some_2 bs i) as [b Hb']; [lia|]. rewrite (Hlogv i b Hb'). unfold V2.
       rewrite upd_ne by (unfold headkey, logkey; intros [= ?]; lia). by apply (log_writes_value lg V V bs 0 i b). }
  rewrite <- HQ in Hb3. replace (Q ∖ Q) with (∅ : gset bkey) in Hb3 by set_solver.
  set (iw := install_writes lg D2 0 bs) in *. set (lg0 := set_n 0 lg).
  assert (log_ok lg0) as Hlg0 by (destruct Hlg; split; simpl; try done; lia).
  destruct (write_head_ok x lg0 s3 σ3 _ _ ∅ _ Hr3 Hb3 Hlg0) as (s4 & σ4 & E4 & Hr4 & Hb4);
    [set_solver|rewrite size_empty; unfold NBUF, MAXOPBLOCKS; lia|].
  change (headkey lg0) with (headkey lg) in Hb4. cbn [lg_n lg0 set_n] in Hb4. change (Z.to_nat 0) with 0%nat in Hb4. rewrite take_0 in Hb4.
  set (h0 := put_head 0 [] (apply_writes iw V2 (headkey lg))) in *.
  assert (head_n h0 = 0) as Hh0.
  { apply head_n_put; [|simpl; lia|lia]. rewrite <- (ib_view _ _ _ _ _ _ Hb3). by eapply rep_block. }
  assert (apply_writes (lw ++ [(headkey lg, h1)] ++ iw ++ [(headkey lg, h0)]) D = upd (apply_writes iw D2) (headkey lg) h0) as Eall.
  { rewrite !apply_writes_app. done. }
  assert (same_data lg (upd (apply_writes iw D2) (headkey lg) h0) V) as Hfinal.
  { intros k Hk. rewrite upd_ne by (intros <-; apply Hk, in_log_head; lia). rewrite <- (Hmean2 k Hk). unfold meaning. by rewrite Hbs2. }
  eexists s4, σ4, _, (lw ++ [(headkey lg, h1)] ++ iw ++ [(headkey lg, h0)]).
  split; [exact E4|]. split; [done|]. rewrite Eall. rewrite <- !app_assoc in Hb4. split; [exact Hb4|].
  split; [by rewrite upd_eq|]. split; [done|]. intros j.
  assert (length lw = length bs) as Hllw by apply log_writes_length.
  destruct (decide (j ≤ length lw)%nat) as [Hj|Hj]; [|destruct (decide (j ≤ length lw + 1 + length iw)%nat) as [Hj2|Hj2]].
  - rewrite take_app_le by done. set (D' := apply_writes (take j lw) D).
    assert (∀ k, (∀ i, (i < length bs)%nat → k ≠ logkey lg i) → D' k = D k) as HD'.
    { intros k Hk. apply apply_writes_notin. intros Hin%take_keys. apply log_writes_keys in Hin as (i & Hi & E). apply (Hk i); [lia|done]. }
    assert (D' (headkey lg) = D (headkey lg)) as EH by (apply HD'; unfold headkey, logkey; intros i _ [= ?]; lia).
    split; [split; rewrite EH; [rewrite Hhead; lia|unfold head_blocks; rewrite Hhead; simpl; set_solver]|].
    left. intros k Hk. rewrite meaning_empty by (by rewrite EH). apply HD'. intros i Hi ->. apply Hk, in_log_key. lia.
  - rewrite take_app_ge by lia. destruct (j - length lw)%nat as [|m] eqn:Em; [lia|]. rewrite apply_writes_app.
    cbn [app take apply_writes foldl fst snd]. fold (apply_writes lw D) D2. fold (apply_writes (take m (iw ++ [(headkey lg, h0)])) D2).
    rewrite take_app_le by lia. destruct (meaning_partial lg D2 m Hho2) as (P1 & _ & P3). rewrite Hbs2 in P1, P3. fold iw in P1, P3.
    split; [done|]. right. intros k Hk. rewrite P3. by apply Hmean2.
  - rewrite take_ge by (rewrite !length_app; simpl; lia). rewrite Eall.
    split; [split; rewrite upd_eq; [rewrite Hh0; lia|unfold head_blocks; rewrite Hh0; simpl; set_solver]|].
    right. intros k Hk. rewrite meaning_empty by (by rewrite upd_eq). by apply Hfinal.
Qed.

(** ** Crashes *)
(** A machine booted on disk [D]: nothing cached, the log where [lg] says. *)
Record booted (lg : log) (D : bkey → block) (x : who) (s : K) (lg0 : log) (σ : bspec) : Prop := {
  bo_rep : rep x [] s σ;
  bo_disk k : bs_disk σ k = D k;
  bo_held : bs_held σ = ∅;
  bo_dirty : bs_dirty σ = ∅;
  bo_log : log_ok lg0;
  bo_geom : same_geometry lg lg0 }.

(** The writes a run has done. *)
Definition writes_of (s s' : K) : list (bkey * block) := drop (length (b_hist s)) (b_hist s').

(** [D'] is left by a recovery of [D] that is interrupted after some writes. *)
Definition interrupted (lg : log) (D D' : bkey → block) : Prop :=
  ∃ x s lg0 σ s' lg' j, booted lg D x s lg0 σ ∧ recover_from_log (s, lg0) = Ret () (s', lg') ∧
    ∀ k, D' k = apply_writes (take j (writes_of s s')) D k.
Lemma meaning_ext lg D D' : (∀ k, D k = D' k) → ∀ k, meaning lg D k = meaning lg D' k.
Proof.
  intros H k. unfold meaning. rewrite (H (headkey lg)). rewrite (install_writes_ext lg D D') by (intros; apply H).
  by apply apply_writes_ext.
Qed.
Lemma head_ok_ext lg D D' : (∀ k, D k = D' k) → head_ok lg D → head_ok lg D'.
Proof. intros H. unfold head_ok. by rewrite (H (headkey lg)). Qed.
Lemma same_geometry_meaning lg lg' D : same_geometry lg lg' →
  (∀ k, meaning lg' D k = meaning lg D k) ∧ (head_ok lg' D ↔ head_ok lg D) ∧ (∀ D', same_data lg' D D' ↔ same_data lg D D').
Proof.
  intros Hg. pose proof (same_geometry_keys lg lg' Hg) as (H1 & H2 & H3 & H4 & H5). destruct Hg as (G1 & G2 & G3).
  split_and!.
  - intros k. unfold meaning. rewrite H2. by rewrite (install_writes_geometry lg lg').
  - unfold head_ok. rewrite H2, G2. by setoid_rewrite H5.
  - intros D'. unfold same_data. by setoid_rewrite H4.
Qed.

Lemma booted_is_bspec lg D x s lg0 σ : booted lg D x s lg0 σ → is_bspec σ D D ∅ ∅ (bs_hist σ).
Proof.
  intros [Hr Hd Hh Hq _ _]. split; try done. intros k. rewrite <- Hd. apply (rep_clean x [] s σ); [done|].
  unfold busy. rewrite Hh, Hq, map_img_empty_L. set_solver.
Qed.

Lemma writes_of_eq x L s σ x' L' s' σ' ws : rep x L s σ → rep x' L' s' σ' → bs_hist σ' = bs_hist σ ++ ws → writes_of s s' = ws.
Proof.
  intros H1 H2 E. unfold writes_of. rewrite <- (rep_hist _ _ _ _ H1), <- (rep_hist _ _ _ _ H2), E. by rewrite drop_app_length.
Qed.

(** What recovery does on any disk with a good header. *)
Lemma recover_booted lg D x s lg0 σ : booted lg D x s lg0 σ → head_ok lg D →
  ∃ s' lg' σ', recover_from_log (s, lg0) = Ret () (s', lg') ∧ rep x [] s' σ' ∧ lg_n lg' = 0 ∧
    head_n (bs_disk σ' (headkey lg)) = 0 ∧ same_data lg (bs_disk σ') (meaning lg D) ∧
    ∀ j, head_ok lg (apply_writes (take j (writes_of s s')) D) ∧
      same_data lg (meaning lg (apply_writes (take j (writes_of s s')) D)) (meaning lg D).
Proof.
  intros Hbo Hho. pose proof (booted_is_bspec _ _ _ _ _ _ Hbo) as Hb. destruct Hbo as [Hr _ _ _ Hlg Hg].
  destruct (same_geometry_meaning lg lg0 D Hg) as (M1 & M2 & M3).
  destruct (same_geometry_keys lg lg0 Hg) as (_ & K2 & _ & K4 & _).
  destruct (recover_ok x s σ lg0 D (bs_hist σ) Hr Hb Hlg) as (s' & σ' & lg' & ws & E & Hr' & Hg' & Hn & Hb' & Hh0 & Hpre); [by apply M2|].
  assert (writes_of s s' = ws) as Ews by (eapply writes_of_eq; [exact Hr|exact Hr'|by rewrite (ib_hist _ _ _ _ _ _ Hb')]).
  exists s', lg', σ'. rewrite Ews. rewrite K2 in Hh0. split; [done|]. split; [done|]. split; [done|].
  split; [by rewrite (ib_disk _ _ _ _ _ _ Hb')|]. split.
  - intros k Hk. rewrite (ib_disk _ _ _ _ _ _ Hb'). destruct (Hpre (length ws)) as [_ Hm]. rewrite take_ge in Hm by lia.
    rewrite <- (meaning_empty lg _ Hh0), <- M1. destruct (same_geometry_meaning lg lg0 (apply_writes ws D) Hg) as (N1 & _).
    rewrite <- N1. apply Hm. by rewrite K4.
  - intros j. destruct (Hpre j) as [P1 P2]. destruct (same_geometry_meaning lg lg0 (apply_writes (take j ws) D) Hg) as (N1 & N2 & _).
    split; [by apply N2|]. intros k Hk. rewrite <- N1, <- M1. apply P2. by rewrite K4.
Qed.

(** C2: the log makes a transaction atomic under crashes.  [commit] runs to its
    end and leaves the new contents of every block on disk.  If the machine
    stops after any of its disk writes, and recovery is itself interrupted any
    number of times after any of its writes, then the next recovery that runs
    to its end leaves, outside the log, either exactly the disk from before the
    transaction or exactly the disk from after it, and an empty log. *)
Theorem log_crash_atomic x s σ lg :
  rep x [] s σ → bs_held σ = ∅ → ready lg (bs_disk σ) (bs_view σ) (bs_dirty σ) → 0 < lg_n lg →
  ∃ s' σ', commit (s, lg) = Ret () (s', set_n 0 lg) ∧ rep x [] s' σ' ∧ bs_dirty σ' = ∅ ∧
    same_data lg (bs_disk σ') (bs_view σ) ∧
    ∀ j D1 D2, (∀ k, D1 k = apply_writes (take j (writes_of s s')) (bs_disk σ) k) → rtc (interrupted lg) D1 D2 →
    ∀ x2 s2 lg2 σ2, booted lg D2 x2 s2 lg2 σ2 →
    ∃ s3 lg3 σ3, recover_from_log (s2, lg2) = Ret () (s3, lg3) ∧ rep x2 [] s3 σ3 ∧ lg_n lg3 = 0 ∧
      head_n (bs_disk σ3 (headkey lg)) = 0 ∧
      (same_data lg (bs_disk σ3) (bs_disk σ) ∨ same_data lg (bs_disk σ3) (bs_view σ)).
Proof.
  intros Hr Hh Hrd Hpos.
  assert (is_bspec σ (bs_disk σ) (bs_view σ) ∅ (bs_dirty σ) (bs_hist σ)) as Hb by (by split).
  destruct (commit_ok x s σ lg _ _ _ _ Hr Hb Hrd Hpos) as (s' & σ' & V' & ws & E & Hr' & Hb' & _ & Hfin & Hpre).
  assert (writes_of s s' = ws) as Ews by (eapply writes_of_eq; [exact Hr|exact Hr'|by rewrite (ib_hist _ _ _ _ _ _ Hb')]).
  exists s', σ'. rewrite Ews. split; [done|]. split; [done|]. split; [by rewrite (ib_dirty _ _ _ _ _ _ Hb')|].
  split; [intros k Hk; rewrite (ib_disk _ _ _ _ _ _ Hb'); by apply Hfin|].
  set (P := λ D, head_ok lg D ∧ (same_data lg (meaning lg D) (bs_disk σ) ∨ same_data lg (meaning lg D) (bs_view σ))).
  assert (∀ D D', P D → head_ok lg D' → same_data lg (meaning lg D') (meaning lg D) → P D') as HP.
  { intros D D' [_ [H|H]] Hho Hm; (split; [done|]); [left|right]; intros k Hk; rewrite Hm by done; by apply H. }
  intros j D1 D2 HD1 Hrtc x2 s2 lg2 σ2 Hbo.
  assert (P D1) as HP1.
  { destruct (Hpre j) as [Ho Hm]. assert (∀ k, apply_writes (take j ws) (bs_disk σ) k = D1 k) as Eq by (intros k; by rewrite HD1).
    apply (HP (apply_writes (take j ws) (bs_disk σ))); [by split|by eapply head_ok_ext|].
    intros k _. symmetry. by apply meaning_ext. }
  assert (P D2) as [Hho2 Hm2].
  { revert HP1. apply (rtc_invariant (interrupted lg) P); [|done]. clear -HP.
    intros D D' (x & s & lg0 & σ0 & s1 & lg1 & j & Hbo & E & HD') HPD. destruct HPD as [Hho Hm].
    destruct (recover_booted lg D x s lg0 σ0 Hbo Hho) as (s1' & lg1' & σ1 & E' & _ & _ & _ & _ & Hpre).
    rewrite E in E'. injection E' as <- <-. destruct (Hpre j) as [P1 P2].
    apply (HP D); [by split|eapply head_ok_ext; [|exact P1]; intros k; by rewrite HD'|].
    intros k Hk. rewrite (meaning_ext lg D' _ HD'). by apply P2. }
  destruct (recover_booted lg D2 x2 s2 lg2 σ2 Hbo Hho2) as (s3 & lg3 & σ3 & E3 & Hr3 & Hn3 & Hh3 & Hd3 & _).
  exists s3, lg3, σ3. split_and!; try done.
  destruct Hm2 as [H|H]; [left|right]; intros k Hk; rewrite Hd3 by done; by apply H.
Qed.
End log.

(** A transaction that changes block 5 of the example disk, with the log in
    blocks 2 to 4. *)
Definition ex_log : log := Log 2 3 0 false 1 1 (5 :: replicate 29 0).
Definition ex_trans : list bop := [BRead (1, 5); BSet (1, 5) (replicate 512 7); BDirty (1, 5); BRelse (1, 5)].
Definition ex_laws : BlockLaws (kproc * bio) :=
  @bio_BlockLaws kproc _ _ 2 (λ _, 2) (λ _, 11) 1%nat 8 (kproc_ProcLaws ex_D ex_ptable) ex_lock2 (λ _ _, ex_lock2) ltac:(lia).

Lemma log_crash_atomic_witness :
  ∃ (s s' : kproc * bio) σ σ', bs_view σ (1, 5) = replicate 512 7 ∧ bs_disk σ (1, 5) = zero_block ∧
    @commit _ (bio_BlockOps 2 (λ _, 2) (λ _, 11) 1%nat) (s, ex_log) = Ret () (s', set_n 0 ex_log) ∧
    rep (BlockLaws := ex_laws) (3%nat, 7) [] s' σ' ∧ same_data ex_log (bs_disk σ') (bs_view σ).
Proof.
  assert ((λ r, (r.2, st_disk r.1 (1, 5), st_mem r.1 (1, 5), st_disk r.1 (1, 2), st_held r.1, st_dirty r.1)) <$> store_ops 8 (boot_store ex_img) ex_trans
    = Some ([], zero_block, replicate 512 7, zero_block, ∅, {[(1, 5)]})) as E by (vm_compute; reflexivity).
  destruct (store_ops 8 (boot_store ex_img) ex_trans) as [[τ' ds]|] eqn:Eo; [|done]. injection E as -> Ed1 Em Ed2 Eh Eq.
  destruct (@boot_client kproc _ _ 2 (λ _, 2) (λ _, 11) 1%nat 8 (kproc_ProcLaws ex_D ex_ptable) ex_lock2 (λ _ _, ex_lock2) ltac:(lia)
    (3%nat, 7) ex_k ex_img ex_trans τ' _ ex_runs ex_img_all ex_img_ok Eo) as (s & ρ & _ & σ & Hr & E1 & E2 & E3 & E4 & Hc).
  rewrite <- E1 in Ed1, Ed2. rewrite <- E2 in Em. rewrite <- E3 in Eq. rewrite E4 in Eh. apply dom_empty_inv_L in Eh as ->.
  assert (bs_held σ = ∅) as Hh.
  { apply map_eq. intros h. rewrite lookup_empty. destruct (bs_held σ !! h) as [key|] eqn:E; [|done]. apply Hc in E. by rewrite lookup_empty in E. }
  destruct (log_crash_atomic (BlockLaws0 := ex_laws) (3%nat, 7) s σ ex_log Hr Hh) as (s' & σ' & Ec & Hr' & _ & Hs & _).
  - split.
    + split; simpl; unfold LOGSIZE, MAXOPBLOCKS; try lia. intros b Hb. split; simpl; [done|lia].
    + intros b. simpl. intros ->%list_elem_of_singleton. split; [unfold is_uint; lia|]. split; [split; simpl; [done|lia]|].
      intros [_ H]. simpl in H. lia.
    + rewrite Eq. simpl. set_solver.
    + intros key Hk. apply (rep_clean (BlockLaws := ex_laws) (3%nat, 7) [] s σ key Hr). unfold busy. rewrite Hh, map_img_empty_L. set_solver.
    + unfold headkey. simpl. rewrite Ed2. by vm_compute.
  - simpl. lia.
  - by exists s, s', σ, σ'.
Defined.
