(* ===== verification/Trans.v ===== *)
(** * Transactions (log.c: begin_op, log_write, end_op)

    How file system calls share the log.  [begin_op] reserves [MAXOPBLOCKS]
    blocks for a call and sleeps while the log cannot promise them;
    [log_write] records a changed block, once; the [end_op] of the last call
    commits.  The file shows the discipline of the reservations, that a
    transaction ends up on disk as a whole, and where the reservations promise
    one block more than a log made by mkfs holds. *)
From stdpp Require Import base list gmap strings.
From Stdlib Require Import ZArith Lia.
From S2P Require Import Prelude Mmu Spinlock CpuLocks Proc RunQueue Sched Machine Kernel Sleeplock Block Bio Log.
#[local] Open Scope Z_scope.

(** ** Reservations *)
(** The calls in progress have reserved [rem] more blocks, each at most
    [MAXOPBLOCKS] of them. *)
Record reserved (lg : log) (rem : list Z) : Prop := {
  rs_out : lg_outstanding lg = Z.of_nat (length rem);
  rs_each : Forall (λ r, 0 ≤ r ≤ MAXOPBLOCKS) rem;
  rs_n : 0 ≤ lg_n lg;
  rs_sum : lg_n lg + foldr Z.add 0 rem ≤ LOGSIZE }.

(** [begin_op] may go on. *)
Definition admissible (lg : log) : Prop :=
  lg_committing lg = false ∧ lg_n lg + (lg_outstanding lg + 1) * MAXOPBLOCKS ≤ LOGSIZE.

Lemma reserved_sum rem : Forall (λ r, 0 ≤ r ≤ MAXOPBLOCKS) rem → 0 ≤ foldr Z.add 0 rem ≤ Z.of_nat (length rem) * MAXOPBLOCKS.
Proof. induction 1; simpl; [done|]. unfold MAXOPBLOCKS in *. lia. Qed.

Lemma reserved_begin lg rem : reserved lg rem → admissible lg →
  reserved (set_outstanding (lg_outstanding lg + 1) lg) (MAXOPBLOCKS :: rem).
Proof.
  intros [H1 H2 H3 H4] [_ H6]. pose proof (reserved_sum rem H2). split; simpl; [lia| |done|lia].
  constructor; [unfold MAXOPBLOCKS; lia|done].
Qed.

Lemma reserved_room lg rem i r : reserved lg rem → rem !! i = Some r → 0 < r → lg_n lg < LOGSIZE.
Proof.
  intros [_ H2 _ H4] Hi Hr. assert (r ≤ foldr Z.add 0 rem); [|lia]. clear H4.
  revert i Hi. induction H2 as [|r' rem Hr' H2 IH]; intros [|i] Hi; simplify_eq/=; pose proof (reserved_sum rem H2).
  - lia.
  - specialize (IH i Hi). lia.
Qed.

Section trans.
Context {K : Type} `{!LockOps K, !ProcOps K, !BlockOps K}.
Variables log_lock log_chan : Z.

(** ** Waiting for log space *)
Section admission.
Context `{!ProcLaws K}.
Hypothesis Hlock : k_lock log_lock.

(** [begin_op] run from log [lg0], whatever the others do while it sleeps. *)
Fixpoint admits (x : who) (lg0 : log) (o : outcome (K * log) ()) : Prop :=
  match o with
  | Ret _ (k, lg) => k_runs x [] k ∧ admissible lg0 ∧ lg = set_outstanding (lg_outstanding lg0 + 1) lg0
  | Block c (k, lg) kont => c = log_chan ∧ k_switch k ∧ lg = lg0 ∧ ¬ admissible lg0 ∧
      ∀ k' lg', k_switch k' → k_current x k' → admits x lg' (kont (k', lg'))
  | Asleep c (k, lg) => c = log_chan ∧ k_switch k ∧ lg = lg0 ∧ ¬ admissible lg0
  | Panic _ | Fault | Spin => False
  end.

Lemma begin_op_test lg :
  (lg_committing lg || (LOGSIZE <? lg_n lg + (lg_outstanding lg + 1) * MAXOPBLOCKS) = true ∧ ¬ admissible lg) ∨
  (lg_committing lg || (LOGSIZE <? lg_n lg + (lg_outstanding lg + 1) * MAXOPBLOCKS) = false ∧ admissible lg).
Proof.
  unfold admissible. destruct (lg_committing lg); simpl; [left; split; [done|by intros [? _]]|].
  destruct (Z.ltb_spec LOGSIZE (lg_n lg + (lg_outstanding lg + 1) * MAXOPBLOCKS)); [left|right]; (split; [done|]).
  - intros [_ ?]. lia.
  - split; [done|lia].
Qed.

Lemma begin_op_loop_admits x : ∀ fuel k lg, k_runs x [log_lock] k → admits x lg (begin_op_loop log_lock log_chan fuel (k, lg)).
Proof.
  induction fuel as [|fuel IH]; intros k lg Hk; cbn [begin_op_loop]; next;
    destruct (begin_op_test lg) as [[-> Hna]|[-> Ha]].
  1,3: destruct (sleep_Block_ x log_lock log_chan k lg Hk Hlock) as (k3 & kont & E3 & Hk3 & Hkont).
  - unfold park. rewrite E3. simpl. by split_and!.
  - erewrite obind_Block; [|exact E3]. simpl. split_and!; [done..|].
    intros k' lg' Hk' Hc'. destruct (Hkont k' lg' Hk' Hc') as (k4 & E4 & Hk4). rewrite E4. simpl. by apply IH.
  - next. destruct (release_ok_ x [] [] log_lock k (set_outstanding (lg_outstanding lg + 1) lg) Hk) as (k2 & E2 & Hk2).
    rewrite E2. simpl. done.
  - next. destruct (release_ok_ x [] [] log_lock k (set_outstanding (lg_outstanding lg + 1) lg) Hk) as (k2 & E2 & Hk2).
    rewrite E2. simpl. done.
Qed.

(** [begin_op] sleeps, with the log lock given up, exactly as long as the
    log commits or could not promise [MAXOPBLOCKS] more blocks, whatever the
    other calls do meanwhile; when it returns, it has only counted the new call,
    and the reservations of all calls together with the blocks already logged
    still fit in [LOGSIZE]. *)
Theorem begin_op_reserves x fuel k lg : k_runs x [] k →
  admits x lg (begin_op log_lock log_chan fuel (k, lg)) ∧
  ∀ lg' rem, reserved lg' rem → admissible lg' → reserved (set_outstanding (lg_outstanding lg' + 1) lg') (MAXOPBLOCKS :: rem).
Proof.
  intros Hk. split; [|apply reserved_begin]. unfold begin_op.
  destruct (acquire_ok_ x [] log_lock k lg Hk Hlock) as (k1 & E1 & Hk1); [apply not_elem_of_nil|]. run E1.
  by apply begin_op_loop_admits.
Qed.
End admission.

(** ** Recording a block *)
Context `{!BlockLaws K}.
Hypothesis Hlock : rep_lock log_lock.
Implicit Types (lg : log) (s : K) (σ : bspec).

(** The blocks of the transaction, in the order of their first [log_write]. *)
Definition logged (lg : log) : list Z := take (Z.to_nat (lg_n lg)) (lg_block lg).
Definition absorb (b : Z) (bs : list Z) : list Z := if decide (b ∈ bs) then bs else bs ++ [b].

Lemma first_idx_eqb b bs i : first_idx (λ c, c =? b) bs = Some i → bs !! i = Some b.
Proof. intros [(c & Hc & ->%Z.eqb_eq) _]%first_idx_Some. done. Qed.

(** What [log_write] does to the log. *)
Definition log_add (b : Z) (lg : log) : log :=
  if decide (b ∈ logged lg) then lg
  else set_n (lg_n lg + 1) (set_block (<[Z.to_nat (lg_n lg) := b]> (lg_block lg)) lg).

Lemma logged_add b lg : 0 ≤ lg_n lg < 30 → length (lg_block lg) = 30%nat →
  logged (log_add b lg) = absorb b (logged lg).
Proof.
  intros Hn Hl. unfold log_add, absorb. case_decide; [done|]. unfold logged. simpl.
  replace (Z.to_nat (lg_n lg + 1)) with (S (Z.to_nat (lg_n lg))) by lia.
  rewrite (take_S_r _ _ b) by (apply list_lookup_insert_eq; lia). by rewrite take_insert_ge by lia.
Qed.

Lemma log_write_ok x s lg σ h key :
  rep x [] s σ → bs_held σ !! h = Some key → log_ok lg → lg_n lg + 1 < lg_size lg → 1 ≤ lg_outstanding lg →
  ∃ s', log_write log_lock h (s, lg) = Ret () (s', log_add key.2 lg) ∧ rep x [] s' (dirty key σ).
Proof.
  intros Hr Hh [_ _ _ H4 H5 H6] Hroom Hout. unfold LOGSIZE, MAXOPBLOCKS in H4. unfold log_write. next.
  rewrite (proj2 (orb_false_iff _ _)) by (unfold LOGSIZE, MAXOPBLOCKS; lia). rewrite (proj2 (Z.ltb_ge _ _)) by lia.
  destruct (acquire_rep x [] log_lock s lg σ Hr Hlock) as (s1 & E1 & Hr1); [apply not_elem_of_nil|]. run E1. next.
  run (b_blockno_rep x [log_lock] s1 lg σ h key Hr1 Hh). fold (logged lg).
  set (n := Z.to_nat (lg_n lg)). set (i := default n (first_idx (λ b, b =? key.2) (logged lg))).
  assert (length (logged lg) = n) as Hll by (unfold logged; rewrite length_take; lia).
  assert (i < 30)%nat as Hi.
  { unfold i. destruct (first_idx _ (logged lg)) as [j|] eqn:E; simpl; [apply first_idx_lt in E; lia|lia]. }
  rewrite H6, (proj2 (Nat.ltb_lt _ _)) by lia. next.
  assert (∃ lg2, (if (i =? n)%nat then modify_ (set_n (lg_n lg + 1)) else ret ()) (s1, set_block (<[i := key.2]> (lg_block lg)) lg)
    = Ret () (s1, lg2) ∧ lg2 = log_add key.2 lg) as (lg2 & E2 & ->).
  { unfold log_add, i. destruct (first_idx _ (logged lg)) as [j|] eqn:E; simpl.
    - pose proof (first_idx_lt _ _ _ E). apply first_idx_eqb in E. rewrite decide_True by (by eapply list_elem_of_lookup_2).
      rewrite (proj2 (Nat.eqb_neq _ _)) by lia. eexists. split; [done|]. rewrite list_insert_id; [by destruct lg|].
      unfold logged in E. rewrite lookup_take_lt in E by lia. done.
    - rewrite Nat.eqb_refl. rewrite decide_False; [by eexists|]. intros Hin. rewrite first_idx_None in E.
      apply E in Hin. by rewrite Z.eqb_refl in Hin. }
  run E2. destruct (b_setdirty_rep x [log_lock] s1 (log_add key.2 lg) σ h key Hr1 Hh) as (s3 & E3 & Hr3). run E3.
  apply (release_rep x [] [] log_lock s3 _ _ Hr3).
Qed.

(** ** A whole transaction *)
(** The typical use that log.c describes. *)
Definition update (b : Z) (d : block) : M (K * log) () :=
  let! dev := gets_ lg_dev in
  let! bp := bread_ dev b in
  b_set_ bp d ;;;
  log_write log_lock bp ;;;
  brelse_ bp.
Fixpoint updates (ws : list (Z * block)) : M (K * log) () :=
  match ws with [] => ret () | w :: ws' => update w.1 w.2 ;;; updates ws' end.
Definition transaction (fuel : nat) (ws : list (Z * block)) : M (K * log) () :=
  begin_op log_lock log_chan fuel ;;; updates ws ;;; end_op log_lock log_chan.

Definition home_writes (lg : log) (ws : list (Z * block)) : list (bkey * block) := (λ w, (homekey lg w.1, w.2)) <$> ws.
Definition tx_blocks (ws : list (Z * block)) : list Z := foldl (λ bs w, absorb w.1 bs) [] ws.

Lemma logged_length lg : log_ok lg → length (logged lg) = Z.to_nat (lg_n lg).
Proof. intros [_ _ _ H4 H5 H6]. unfold logged, LOGSIZE, MAXOPBLOCKS in *. rewrite length_take. lia. Qed.

Lemma log_ok_add b lg : log_ok lg → lg_n lg + 1 < lg_size lg → log_ok (log_add b lg).
Proof.
  intros [H1 H2 H3 H4 H5 H6] Hn. unfold log_add. case_decide; split; simpl; try done; [lia|]. by rewrite length_insert.
Qed.
Lemma log_add_geometry b lg : same_geometry lg (log_add b lg).
Proof. unfold log_add. by case_decide. Qed.

Lemma update_ok x s lg σ D V Q W b d :
  rep x [] s σ → is_bspec σ D V ∅ Q W → ready lg D V Q → lg_n lg + 1 < lg_size lg → 1 ≤ lg_outstanding lg →
  home_ok lg b → block_ok d →
  ∃ s' σ', update b d (s, lg) = Ret () (s', log_add b lg) ∧ rep x [] s' σ' ∧
    is_bspec σ' D (upd V (homekey lg b) d) ∅ ({[homekey lg b]} ∪ Q) W ∧
    ready (log_add b lg) D (upd V (homekey lg b) d) ({[homekey lg b]} ∪ Q).
Proof.
  intros Hr Hb Hrd Hroom Hout Hhome Hd. pose proof (ready_size _ _ _ _ Hrd) as Hsz. pose proof (busy_empty _ _ _ _ _ Hb) as Hbusy.
  destruct Hb as [B1 B2 B3 B4 B5]. destruct Hrd as [R1 R2 R3 R4 R5]. unfold update. next.
  destruct (bread_rep x s lg σ (lg_dev lg) b Hr) as (h & s1 & E1 & Hh & Hr1).
  { rewrite B3. apply map_img_empty_notin. } { apply Hhome. } { left. by rewrite Hbusy. }
  run E1. fold (homekey lg b) in *.
  destruct (b_set_rep x [] s1 lg _ h (homekey lg b) d Hr1) as (s2 & E2 & Hr2); [apply lookup_insert_eq|done|]. run E2.
  destruct (log_write_ok x s2 lg _ h (homekey lg b) Hr2) as (s3 & E3 & Hr3); [apply lookup_insert_eq|done..|]. run E3.
  destruct (brelse_rep x s3 (log_add b lg) _ h (homekey lg b) Hr3) as (s4 & E4 & Hr4);
    [apply lookup_insert_eq|right; simpl; set_solver|]. change (homekey lg b).2 with b. rewrite E4. eexists s4, _.
  split; [done|]. split; [exact Hr4|]. split.
  - split; simpl; [done| | |by rewrite B4|done]; [intros k; unfold upd; case_decide; [done|apply B2]|].
    rewrite B3. by rewrite delete_insert_id.
  - destruct (same_geometry_keys lg (log_add b lg) (log_add_geometry b lg)) as (_ & K2 & K3 & _ & K5).
    assert (logged (log_add b lg) = absorb b (logged lg)) as Hla.
    { destruct R1. unfold LOGSIZE, MAXOPBLOCKS in *. apply logged_add; [lia|done]. }
    split; [by apply log_ok_add| | | |by rewrite K2].
    + intros c. fold (logged (log_add b lg)). rewrite Hla, K5. unfold absorb. case_decide; [apply R2|].
      intros [Hc| ->%list_elem_of_singleton]%elem_of_app; [by apply R2|done].
    + fold (logged (log_add b lg)). fold (logged lg) in R3. rewrite Hla, R3. unfold absorb. case_decide as Hin.
      * assert (homekey lg b ∈ homekey lg <$> logged lg) by (by apply list_elem_of_fmap_2).
        rewrite (list_fmap_ext (homekey (log_add b lg)) (homekey lg)) by (intros; apply K3). set_solver.
      * rewrite fmap_app, list_to_set_app_L. rewrite (list_fmap_ext (homekey (log_add b lg)) (homekey lg)) by (intros; apply K3). simpl. rewrite K3. set_solver.
    + intros k Hk. rewrite upd_ne by set_solver. apply R4. set_solver.
Qed.

Lemma absorb_length b bs : (length bs ≤ length (absorb b bs))%nat.
Proof. unfold absorb. case_decide; [done|]. rewrite length_app. lia. Qed.
Lemma absorbs_length ws : ∀ bs : list Z, (length bs ≤ length (foldl (λ bs w, absorb w.1 bs) bs (ws : list (Z * block))))%nat.
Proof. induction ws as [|w ws IH]; intros bs; simpl; [done|]. etrans; [apply (absorb_length w.1)|apply IH]. Qed.

Lemma updates_ok x ws : ∀ s lg σ D V Q W,
  rep x [] s σ → is_bspec σ D V ∅ Q W → ready lg D V Q → 1 ≤ lg_outstanding lg →
  Z.of_nat (length (foldl (λ bs w, absorb w.1 bs) (logged lg) ws)) + 1 < lg_size lg →
  Forall (λ w, home_ok lg w.1 ∧ block_ok w.2) ws →
  ∃ s' lg' σ' Q', updates ws (s, lg) = Ret () (s', lg') ∧ rep x [] s' σ' ∧
    is_bspec σ' D (apply_writes (home_writes lg ws) V) ∅ Q' W ∧
    ready lg' D (apply_writes (home_writes lg ws) V) Q' ∧ same_geometry lg lg' ∧
    lg_outstanding lg' = lg_outstanding lg ∧ lg_committing lg' = lg_committing lg ∧ logged lg' = foldl (λ bs w, absorb w.1 bs) (logged lg) ws.
Proof.
  induction ws as [|[b d] ws IH]; intros s lg σ D V Q W Hr Hb Hrd Hout Hlen Hws; cbn [updates].
  { exists s, lg, σ, Q. by split_and!. }
  apply Forall_cons in Hws as [[Hh Hd] Hws]. simpl in Hh, Hd, Hlen.
  assert (log_ok lg) as Hlg by apply Hrd.
  assert (lg_n lg + 1 < lg_size lg) as Hroom.
  { pose proof (absorbs_length ws (absorb b (logged lg))). pose proof (absorb_length b (logged lg)).
    rewrite (logged_length lg Hlg) in *. lia. }
  destruct (update_ok x s lg σ D V Q W b d Hr Hb Hrd Hroom Hout Hh Hd) as (s1 & σ1 & E1 & Hr1 & Hb1 & Hrd1). run E1.
  pose proof (log_add_geometry b lg) as Hg. destruct (same_geometry_keys lg (log_add b lg) Hg) as (_ & _ & K3 & _ & K5).
  assert (lg_outstanding (log_add b lg) = lg_outstanding lg ∧ lg_committing (log_add b lg) = lg_committing lg) as [Eo Ec]
    by (unfold log_add; by case_decide).
  destruct (IH s1 (log_add b lg) σ1 D _ _ W Hr1 Hb1 Hrd1) as (s2 & lg2 & σ2 & Q2 & E2 & Hr2 & Hb2 & Hrd2 & Hg2 & Ho2 & Hc2 & Hl2).
  - by rewrite Eo.
  - rewrite logged_add; [|destruct Hlg; unfold LOGSIZE, MAXOPBLOCKS in *; lia|apply Hlg]. destruct Hg as (_ & -> & _). done.
  - eapply Forall_impl; [exact Hws|]. intros w [? ?]. by rewrite K5.
  - replace (home_writes (log_add b lg) ws) with (home_writes lg ws) in *
      by (apply list_fmap_ext; intros; by rewrite K3).
    exists s2, lg2, σ2, Q2. split_and!; try done; [|congruence..|].
    + destruct Hg as (? & ? & ?), Hg2 as (? & ? & ?). unfold same_geometry. by split_and!; congruence.
    + rewrite Hl2, logged_add; [done|destruct Hlg; unfold LOGSIZE, MAXOPBLOCKS in *; lia|apply Hlg].
Qed.

(** No call in progress, nothing logged, an empty header on disk. *)
Record quiet (lg : log) (σ : bspec) : Prop := {
  qu_log : log_ok lg; qu_n : lg_n lg = 0; qu_out : lg_outstanding lg = 0; qu_com : lg_committing lg = false;
  qu_held : bs_held σ = ∅; qu_dirty : bs_dirty σ = ∅; qu_head : head_n (bs_disk σ (headkey lg)) = 0 }.

Lemma begin_op_now x fuel s lg σ : rep x [] s σ → admissible lg →
  ∃ s', begin_op log_lock log_chan fuel (s, lg) = Ret () (s', set_outstanding (lg_outstanding lg + 1) lg) ∧ rep x [] s' σ.
Proof.
  intros Hr Ha. unfold begin_op. destruct (acquire_rep x [] log_lock s lg σ Hr Hlock) as (s1 & E1 & Hr1); [apply not_elem_of_nil|]. run E1.
  assert (lg_committing lg || (LOGSIZE <? lg_n lg + (lg_outstanding lg + 1) * MAXOPBLOCKS) = false) as Ht.
  { destruct Ha as [-> Ha]. simpl. by apply Z.ltb_ge. }
  destruct fuel; cbn [begin_op_loop]; next; rewrite Ht; next; apply (release_rep x [] [] log_lock s1 _ _ Hr1).
Qed.

Lemma end_op_last x s lg σ V Q W D :
  rep x [] s σ → is_bspec σ D V ∅ Q W → ready lg D V Q → lg_outstanding lg = 1 → lg_committing lg = false →
  ∃ s' σ', end_op log_lock log_chan (s, lg) = Ret () (s', set_n 0 (set_outstanding 0 lg)) ∧ rep x [] s' σ' ∧
    bs_held σ' = ∅ ∧ bs_dirty σ' = ∅ ∧ head_n (bs_disk σ' (headkey lg)) = 0 ∧ same_data lg (bs_disk σ') V.
Proof.
  intros Hr Hb Hrd Hout Hcom. unfold end_op.
  destruct (acquire_rep x [] log_lock s lg σ Hr Hlock) as (s1 & E1 & Hr1); [apply not_elem_of_nil|]. run E1. do 2 next.
  rewrite Hcom. next. cbn [lg_outstanding set_outstanding]. rewrite Hout. change (1 - 1 =? 0) with true. cbv iota.
  erewrite bind_bind_Ret; [|reflexivity]. next. change (1 - 1) with 0.
  set (lg1 := set_committing true (set_outstanding 0 lg)).
  destruct (release_rep x [] [] log_lock s1 lg1 σ Hr1) as (s2 & E2 & Hr2). run E2.
  assert (ready lg1 D V Q) as Hrd1 by (destruct Hrd as [[] ? ? ? ?]; by split).
  assert (∃ s3 σ3, commit (s2, lg1) = Ret () (s3, set_n 0 lg1) ∧ rep x [] s3 σ3 ∧ bs_held σ3 = ∅ ∧ bs_dirty σ3 = ∅ ∧
    head_n (bs_disk σ3 (headkey lg)) = 0 ∧ same_data lg (bs_disk σ3) V) as (s3 & σ3 & E3 & Hr3 & Hfin).
  { destruct (decide (0 < lg_n lg)) as [Hp|Hp].
    - destruct (commit_ok x s2 σ lg1 D V Q W Hr2 Hb Hrd1 Hp) as (s3 & σ3 & V' & ws & E3 & Hr3 & [C1 _ C3 C4 _] & Hh & Hs & _).
      exists s3, σ3. split_and!; try done; [by rewrite C1|]. intros k Hk. rewrite C1. by apply Hs.
    - assert (lg_n lg = 0) as Hn0 by (destruct Hrd as [[] ? ? ? ?]; lia). destruct Hb as [B1 B2 B3 B4 _]. destruct Hrd as [R1 R2 R3 R4 R5].
      assert (Q = ∅) as HQ by (rewrite R3, Hn0; done).
      exists s2, σ. split; [|split_and!; try done; [congruence|by rewrite B1|]].
      + unfold commit. next. cbn [lg_n lg1 set_committing set_outstanding]. rewrite Hn0. unfold ret.
        f_equal. f_equal. unfold lg1. destruct lg; simpl in *; by subst.
      + intros k _. rewrite B1. symmetry. apply R4. rewrite HQ. set_solver. }
  erewrite bind_Ret; [|exact E3].
  destruct (acquire_rep x [] log_lock s3 (set_n 0 lg1) σ3 Hr3 Hlock) as (s4 & E4 & Hr4); [apply not_elem_of_nil|]. run E4. next.
  set (lg2 := set_committing false _).
  destruct (wakeup_rep x [log_lock] log_chan s4 lg2 σ3 Hr4) as (s5 & E5 & Hr5); [by intros l ->%list_elem_of_singleton|]. run E5.
  destruct (release_rep x [] [] log_lock s5 lg2 σ3 Hr5) as (s6 & E6 & Hr6). rewrite E6. exists s6, σ3.
  split; [|by split]. f_equal. f_equal. unfold lg2, lg1. destruct lg; simpl in *; by subst.
Qed.

(** C30: a transaction reaches the disk as a whole: on a quiet log, [begin_op],
    any list of block updates through [log_write] (repeated ones are absorbed),
    and [end_op] run to their end without sleeping or panicking as long as the
    distinct blocks leave a slot of the log free; afterwards every block outside
    the log is on disk as the updates, applied in order, leave it, and the log
    is quiet again. *)
Theorem transaction_durable x fuel s lg σ ws :
  rep x [] s σ → quiet lg σ → Forall (λ w, home_ok lg w.1 ∧ block_ok w.2) ws →
  Z.of_nat (length (tx_blocks ws)) + 1 < lg_size lg →
  ∃ s' lg' σ', transaction fuel ws (s, lg) = Ret () (s', lg') ∧ rep x [] s' σ' ∧ quiet lg' σ' ∧ same_geometry lg lg' ∧
    same_data lg (bs_disk σ') (apply_writes (home_writes lg ws) (bs_disk σ)).
Proof.
  intros Hr [Q1 Q2 Q3 Q4 Q5 Q6 Q7] Hws Hlen. unfold transaction.
  destruct (begin_op_now x fuel s lg σ Hr) as (s1 & E1 & Hr1).
  { split; [done|]. rewrite Q2, Q3. unfold MAXOPBLOCKS, LOGSIZE. done. }
  run E1. rewrite Q3. set (lg1 := set_outstanding (0 + 1) lg).
  assert (is_bspec σ (bs_disk σ) (bs_disk σ) ∅ ∅ (bs_hist σ)) as Hb.
  { split; try done. intros k. eapply rep_clean; [done|]. unfold busy. rewrite Q5, Q6, map_img_empty_L. set_solver. }
  destruct (updates_ok x ws s1 lg1 σ (bs_disk σ) (bs_disk σ) ∅ (bs_hist σ) Hr1 Hb) as (s2 & lg2 & σ2 & QQ & E2 & Hr2 & Hb2 & Hrd2 & Hg2 & Ho2 & Hc2 & _).
  { split; simpl; rewrite ?Q2; simpl; [by destruct Q1|set_solver|done|done|done]. } { done. }
  { unfold logged. simpl. rewrite Q2. done. } { done. }
  run E2. destruct (end_op_last x s2 lg2 σ2 _ QQ _ _ Hr2 Hb2 Hrd2) as (s3 & σ3 & E3 & Hr3 & F1 & F2 & F3 & F4); [by rewrite Ho2|by rewrite Hc2|].
  eexists s3, _, σ3. split; [exact E3|]. split; [done|].
  assert (same_geometry lg lg2) as Hg by done. destruct (same_geometry_keys lg lg2 Hg) as (_ & _ & _ & K4 & _).
  split; [|split; [done|]].
  - destruct Hrd2 as [[] _ _ _ _]. split; simpl; try done; [by split; simpl; try done; lia|]. by rewrite Hc2.
  - intros k Hk. apply F4. by rewrite K4.
Qed.

(** ** Reservations that cannot be kept *)
Lemma update_panics x s lg σ D V Q W b d : rep x [] s σ → is_bspec σ D V ∅ Q W → ready lg D V Q → home_ok lg b → block_ok d → lg_size lg - 1 ≤ lg_n lg →
  update b d (s, lg) = Panic "too big a transaction".
Proof.
  intros Hr Hb Hrd Hhome Hd Hfull. pose proof (ready_size _ _ _ _ Hrd) as Hsz. pose proof (busy_empty _ _ _ _ _ Hb) as Hbusy. destruct Hb as [_ _ B3 _ _]. unfold update. next.
  destruct (bread_rep x s lg σ (lg_dev lg) b Hr) as (h & s1 & E1 & Hh & Hr1).
  { rewrite B3. apply map_img_empty_notin. } { apply Hhome. } { left. by rewrite Hbusy. }
  run E1. destruct (b_set_rep x [] s1 lg _ h (lg_dev lg, b) d Hr1) as (s2 & E2 & Hr2); [apply lookup_insert_eq|done|]. run E2.
  assert (log_write log_lock h (s2, lg) = Panic "too big a transaction") as E3 by (unfold log_write; next; by rewrite (proj2 (Z.leb_le _ _) Hfull), orb_true_r).
  unfold bind at 1. by rewrite E3.
Qed.
(** C33: the reservations promise one block more than the log of mkfs holds.
    Take a quiet log of [LOGSIZE] blocks, as mkfs makes it.  [begin_op] admits
    three calls, which have then reserved [LOGSIZE] blocks between them.  Let them
    log any 29 different blocks.  One block of the reservation is left, but the
    next [log_write], of whatever block, panics, because one of the [LOGSIZE]
    blocks of the log is its header. *)
Theorem reservation_overcommits x fuel s lg σ ws w w' :
  rep x [] s σ → quiet lg σ → lg_size lg = LOGSIZE → Forall (λ w, home_ok lg w.1 ∧ block_ok w.2) (w :: w' :: ws) →
  length (tx_blocks ws) = 28%nat → w.1 ∉ tx_blocks ws →
  ∃ s1 lg1, (begin_op log_lock log_chan fuel ;;; begin_op log_lock log_chan fuel ;;; begin_op log_lock log_chan fuel ;;; updates ws ;;; update w.1 w.2) (s, lg) = Ret () (s1, lg1) ∧
    lg_n lg1 = 29 ∧ reserved lg1 [0; 0; 1] ∧ update w'.1 w'.2 (s1, lg1) = Panic "too big a transaction".
Proof.
  intros Hr [Q1 Q2 Q3 Q4 Q5 Q6 Q7] Hsz Hws Hlen Hnew. apply Forall_cons in Hws as [[Hw1 Hw2] Hws]. apply Forall_cons in Hws as [[Hw1' Hw2'] Hws].
  destruct (begin_op_now x fuel s lg σ Hr) as (s1 & E1 & Hr1); [split; [done|]; rewrite Q2, Q3; done|]. run E1. rewrite Q3.
  destruct (begin_op_now x fuel s1 (set_outstanding 1 lg) σ Hr1) as (s2 & E2 & Hr2); [split; [done|]; simpl; rewrite Q2; done|]. run E2.
  destruct (begin_op_now x fuel s2 (set_outstanding 2 (set_outstanding 1 lg)) σ Hr2) as (s3 & E3 & Hr3); [split; [done|]; simpl; rewrite Q2; done|]. run E3.
  cbn [lg_outstanding set_outstanding]. set (lg1 := set_outstanding _ _).
  assert (is_bspec σ (bs_disk σ) (bs_disk σ) ∅ ∅ (bs_hist σ)) as Hb.
  { split; try done. intros k. eapply rep_clean; [done|]. unfold busy. rewrite Q5, Q6, map_img_empty_L. set_solver. }
  destruct (updates_ok x ws s3 lg1 σ (bs_disk σ) (bs_disk σ) ∅ (bs_hist σ) Hr3 Hb) as (s4 & lg2 & σ2 & QQ & E4 & Hr4 & Hb2 & Hrd2 & Hg2 & Ho2 & Hc2 & Hl2).
  { split; simpl; rewrite ?Q2; simpl; [by destruct Q1|set_solver|done|done|done]. } { done. }
  { unfold logged. simpl. rewrite Q2, Hsz. change (Z.of_nat (length (tx_blocks ws)) + 1 < LOGSIZE). by rewrite Hlen. } { done. }
  unfold logged at 2 in Hl2. simpl in Hl2. rewrite Q2 in Hl2. change (logged lg2 = tx_blocks ws) in Hl2. run E4.
  destruct (same_geometry_keys lg lg2 Hg2) as (_ & _ & _ & _ & K5). assert (lg_size lg2 = 30) as Hsz2 by (destruct Hg2 as (_ & Hg2 & _); rewrite Hg2; done).
  assert (lg_n lg2 = 28) as Hn2 by (pose proof (logged_length lg2 (rd_log _ _ _ _ Hrd2)) as H; rewrite Hl2, Hlen in H; destruct Hrd2 as [[] _ _ _ _]; lia).
  destruct (update_ok x s4 lg2 σ2 _ _ QQ _ w.1 w.2 Hr4 Hb2 Hrd2) as (s5 & σ5 & E5 & Hr5 & Hb5 & Hrd5); [lia|by rewrite Ho2|by rewrite K5|done|].
  rewrite E5. assert (log_add w.1 lg2 = set_n 29 (set_block (<[28%nat := w.1]> (lg_block lg2)) lg2)) as El.
  { unfold log_add. rewrite decide_False by (by rewrite Hl2). by rewrite Hn2. }
  exists s5, (log_add w.1 lg2). split; [done|]. rewrite El in Hrd5 |- *. split; [done|]. split.
  - split; simpl; [by rewrite Ho2| |done|done]. repeat constructor; unfold MAXOPBLOCKS; lia.
  - eapply update_panics; [exact Hr5|exact Hb5|exact Hrd5| |done|simpl; lia].
    destruct (same_geometry_keys lg2 _ (log_add_geometry w.1 lg2)) as (_ & _ & _ & _ & K5'). rewrite El in K5'. by rewrite K5', K5.
Qed.
End trans.

(** ** Examples *)
(** The kernel of the examples with the cache on a disk of [n] empty blocks. *)
Definition ex_disk (n : nat) : gmap Z block := list_to_map ((λ b, (Z.of_nat b, zero_block)) <$> seq 0 n).
#[local] Existing Instance bio_LockOps.
#[local] Existing Instance bio_ProcOps.
Definition ex_ops : BlockOps (kproc * bio) := bio_BlockOps 2 (λ _, 2) (λ _, 11) 1.
(** The log as mkfs makes it: [LOGSIZE] blocks from block 2 on. *)
Definition mkfs_log : log := Log 2 LOGSIZE 0 false 1 0 (replicate 30 0).


Definition ex_writes : list (Z * block) := [(5, replicate 512 7); (5, replicate 512 8)].
Lemma transaction_durable_witness :
  ∃ (s s' : kproc * bio) lg' σ', @transaction _ _ _ ex_ops 2 12 1 ex_writes (s, set_n 0 ex_log) = Ret () (s', lg') ∧
    @quiet _ _ _ ex_ops ex_laws lg' σ' ∧ bs_disk σ' (1, 5) = replicate 512 8.
Proof.
  destruct (@boot_client kproc _ _ 2 (λ _, 2) (λ _, 11) 1%nat 8 (kproc_ProcLaws ex_D ex_ptable) ex_lock2 (λ _ _, ex_lock2) ltac:(lia)
    (3%nat, 7) ex_k ex_img [] (boot_store ex_img) [] ex_runs ex_img_all ex_img_ok eq_refl) as (s & ρ & _ & σ & Hr & E1 & E2 & E3 & E4 & Hc).
  assert (bs_held σ = ∅) as Hh.
  { apply map_eq. intros h. rewrite lookup_empty. destruct (bs_held σ !! h) as [key|] eqn:E; [|done]. apply Hc in E.
    apply elem_of_dom_2 in E. rewrite <- E4 in E. set_solver. }
  destruct (@transaction_durable _ _ _ ex_ops 2 12 ex_laws ex_lock2 (3%nat, 7) 1 s (set_n 0 ex_log) σ ex_writes Hr)
    as (s' & lg' & σ' & Et & Hr' & Hq & _ & Hd).
  - split; try done; [|by rewrite E1].
    split; simpl; unfold LOGSIZE, MAXOPBLOCKS; try lia. intros b Hb. split; simpl; [done|lia].
  - assert (@home_ok _ _ _ ex_ops ex_laws (set_n 0 ex_log) 5) as Ho.
    { split; [unfold is_uint; lia|]. split; [split; simpl; [done|lia]|]. intros [_ H]. simpl in H. lia. }
    assert (∀ v, is_uchar v → block_ok (replicate 512 v)) as Hb by (intros v Hv; split; [done|by apply Forall_replicate]).
    apply Forall_cons. split; [by split; [|apply Hb]|]. apply Forall_singleton. by split; [|apply Hb].
  - done.
  - exists s, s', lg', σ'. split; [exact Et|]. split; [exact Hq|]. rewrite Hd; [done|]. intros [_ H]. simpl in H. lia.
Defined.

(** The log as mkfs makes it, on a disk of 140 empty blocks. *)
Lemma ex_disk_lookup n b : ex_disk n !! b = if decide (0 ≤ b < Z.of_nat n) then Some zero_block else None.
Proof.
  unfold ex_disk. case_decide as Hb.
  - apply elem_of_list_to_map_1'; [intros d (i & [= -> ->] & _)%list_elem_of_fmap; done|]. apply list_elem_of_fmap. exists (Z.to_nat b). rewrite elem_of_seq. split; [f_equal; lia|lia].
  - apply not_elem_of_list_to_map_1. rewrite <- list_fmap_compose. intros (i & -> & Hi%elem_of_seq)%list_elem_of_fmap. simpl in Hb. lia.
Qed.
Definition ex_laws140 : BlockLaws (kproc * bio) :=
  @bio_BlockLaws kproc _ _ 2 (λ _, 2) (λ _, 11) 1%nat 140 (kproc_ProcLaws ex_D ex_ptable) ex_lock2 (λ _ _, ex_lock2) ltac:(lia).
Definition ex_fill (n : nat) : list (Z * block) := (λ b, (Z.of_nat b, zero_block)) <$> seq 100 n.
Lemma reservation_overcommits_witness : ∃ s s1 lg1, @update _ _ ex_ops 2 131 zero_block (s1, lg1) = Panic "too big a transaction" ∧ lg_n lg1 = 29 ∧
  (begin_op 2 12 0 ;;; begin_op 2 12 0 ;;; begin_op 2 12 0 ;;; @updates _ _ ex_ops 2 (ex_fill 28) ;;; @update _ _ ex_ops 2 130 zero_block) (s, mkfs_log) = Ret () (s1, lg1).
Proof.
  assert (∀ b, 0 ≤ b < 140 → ∃ d, ex_disk 140 !! b = Some d) as Hall by (intros b Hb; rewrite ex_disk_lookup, decide_True by lia; by eexists).
  assert (∀ b d, ex_disk 140 !! b = Some d → block_ok d) as Hok.
  { intros b d. rewrite ex_disk_lookup. case_decide; [|done]. intros [= <-]. split; [done|]. apply (bool_decide_unpack _). by vm_compute. }
  destruct (@boot_client kproc _ _ 2 (λ _, 2) (λ _, 11) 1%nat 140 (kproc_ProcLaws ex_D ex_ptable) ex_lock2 (λ _ _, ex_lock2) ltac:(lia)
    (3%nat, 7) ex_k (ex_disk 140) [] (boot_store (ex_disk 140)) [] ex_runs Hall Hok eq_refl) as (s & ρ & _ & σ & Hr & E1 & E2 & E3 & E4 & Hc).
  assert (bs_held σ = ∅) as Hh.
  { apply map_eq. intros h. rewrite lookup_empty. destruct (bs_held σ !! h) as [key|] eqn:E; [|done]. apply Hc in E.
    apply elem_of_dom_2 in E. rewrite <- E4 in E. set_solver. }
  assert (∀ b, 32 ≤ b < 140 → @home_ok _ _ _ ex_ops ex_laws140 mkfs_log b ∧ block_ok zero_block) as Hhome.
  { intros b Hb. split; [|split; [done|apply (bool_decide_unpack _); by vm_compute]]. split; [unfold is_uint; lia|]. split; [split; simpl; [done|lia]|].
    intros [_ H]. simpl in H. unfold LOGSIZE, MAXOPBLOCKS in H. lia. }
  destruct (@reservation_overcommits _ _ _ ex_ops 2 12 ex_laws140 ex_lock2 (3%nat, 7) 0 s mkfs_log σ (ex_fill 28) (130, zero_block) (131, zero_block) Hr)
    as (s1 & lg1 & Es & Hn & _ & Ep).
  - split; try done; [|by rewrite E1]. split; simpl; unfold LOGSIZE, MAXOPBLOCKS; try lia. intros b Hb. split; simpl; [done|lia].
  - done.
  - do 2 (apply Forall_cons; split; [apply Hhome; simpl; lia|]). apply Forall_forall. intros w (i & -> & Hi%elem_of_seq)%list_elem_of_fmap. apply Hhome. simpl. lia.
  - by vm_compute.
  - apply (bool_decide_unpack _). by vm_compute.
  - by exists s, s1, lg1.
Defined.
