(* ===== verification/Tx.v ===== *)
(** * What the log promises to the file system

    fs.c changes blocks only inside a transaction: it reads a block into a
    locked buffer, changes the buffer, passes it to [log_write] and releases
    it.  [TxLaws] says what it may rely on: one array of blocks, the buffers it
    holds, and the room in the log.  The log of Log.v over the cache of Bio.v
    keeps the promise, and [end_op] makes the array the disk. *)
From stdpp Require Import base list gmap strings.
From Stdlib Require Import ZArith Lia.
From S2P Require Import Prelude Mmu Spinlock CpuLocks Proc RunQueue Sched Machine Kernel Sleeplock Block Bio Log Trans.
#[local] Open Scope Z_scope.

Class LogOps (S : Type) := { k_log_write : nat → M S () }.

(** The blocks as the transaction sees them; the buffers held; the blocks
    logged; and the blocks changed in their buffers but not yet logged. *)
Record txspec := Txspec { tv : Z → block; th : gmap nat Z; tl : gset Z; tr : gset Z }.
Definition bupd (f : Z → block) (b : Z) (d : block) : Z → block := λ c, if decide (b = c) then d else f c.
Lemma bupd_eq f b d : bupd f b d b = d.
Proof. unfold bupd. by rewrite decide_True. Qed.
Lemma bupd_ne f b d c : b ≠ c → bupd f b d c = f c.
Proof. intros. unfold bupd. by rewrite decide_False. Qed.

Definition tx_hold (h : nat) (b : Z) (τ : txspec) := Txspec (tv τ) (<[h := b]> (th τ)) (tl τ) (tr τ).
Definition tx_unhold (h : nat) (τ : txspec) := Txspec (tv τ) (delete h (th τ)) (tl τ) (tr τ).
Definition tx_show (b : Z) (d : block) (τ : txspec) := Txspec (bupd (tv τ) b d) (th τ) (tl τ) ({[b]} ∪ tr τ).
Definition tx_logged (b : Z) (τ : txspec) := Txspec (tv τ) (th τ) ({[b]} ∪ tl τ) (tr τ ∖ {[b]}).

Class TxLaws (S : Type) `{!LockOps S, !ProcOps S, !BlockOps S, !LogOps S} := {
  tx_dev : Z;
  tx_cap : Z;                          (* the blocks a transaction may log *)
  tx_cap_le : tx_cap < NBUF;
  tx_home : Z → Prop;                  (* the blocks outside the log *)
  tx : who → list Z → S → txspec → Prop;
  tx_lock : Z → Prop;
  tx_run τ : RunLaws (λ x L s, tx x L s τ) tx_lock;
  tx_ext x L s V V' H Q R : tx x L s (Txspec V H Q R) → (∀ b, V b = V' b) → tx x L s (Txspec V' H Q R);
  tx_block x L s τ b : tx x L s τ → block_ok (tv τ b);
  tx_bread x s τ b : tx x [] s τ → b ∉ map_img (SA := gset Z) (th τ) → tx_home b →
    Z.of_nat (size (map_img (th τ) ∪ tl τ)) < NBUF ∨ b ∈ tl τ →
    ∃ h s', bread tx_dev b s = Ret h s' ∧ th τ !! h = None ∧ tx x [] s' (tx_hold h b τ);
  tx_brelse x s τ h b : tx x [] s τ → th τ !! h = Some b → b ∉ tr τ →
    ∃ s', brelse h s = Ret () s' ∧ tx x [] s' (tx_unhold h τ);
  tx_data x L s τ h b : tx x L s τ → th τ !! h = Some b → b_data h s = Ret (tv τ b) s;
  tx_set x L s τ h b d : tx x L s τ → th τ !! h = Some b → block_ok d →
    ∃ s', b_set h d s = Ret () s' ∧ tx x L s' (tx_show b d τ);
  tx_log x s τ h b : tx x [] s τ → th τ !! h = Some b → tx_home b → Z.of_nat (size (tl τ)) < tx_cap →
    ∃ s', k_log_write h s = Ret () s' ∧ tx x [] s' (tx_logged b τ) }.

(** ** The log keeps the promise *)
Section tx.
Context {K : Type} `{!LockOps K, !ProcOps K, !BlockOps K}.
Variables log_lock log_chan : Z.

#[export] Instance log_LockOps : LockOps (K * log) := pair_LockOps.
#[export] Instance log_ProcOps : ProcOps (K * log) := pair_ProcOps.
#[export] Instance log_BlockOps : BlockOps (K * log) := {
  bread := bread_; bwrite := bwrite_; brelse := brelse_; b_data := b_data_; b_set := b_set_;
  b_blockno := b_blockno_; b_setdirty := b_setdirty_ }.
#[export] Instance log_LogOps : LogOps (K * log) := { k_log_write := log_write log_lock }.

Context `{!BlockLaws K}.
Hypothesis Hlock : rep_lock log_lock.
(** The log before the transaction, and the disk, which does not change during it. *)
Variables (lg0 : log) (D : bkey → block).
Let dev := lg_dev lg0.

Definition bkeys (B : gset Z) : gset bkey := set_map (λ b, (dev, b)) B.

Lemma elem_of_bkeys B d b : (d, b) ∈ bkeys B ↔ d = dev ∧ b ∈ B.
Proof. unfold bkeys. rewrite elem_of_map. split; [by intros (b' & [= -> ->] & ?)|]. intros [-> ?]. by exists b. Qed.
Lemma bkeys_size B : size (bkeys B) = size B.
Proof.
  unfold bkeys, set_map. rewrite size_list_to_set; [by rewrite length_fmap|].
  apply NoDup_fmap_2; [by intros ? ? [= ->]|apply NoDup_elements].
Qed.
Lemma bkeys_union A B : bkeys (A ∪ B) = bkeys A ∪ bkeys B.
Proof. unfold bkeys. by rewrite set_map_union_L. Qed.
Lemma bkeys_img (H : gmap nat Z) : map_img ((λ b, (dev, b)) <$> H) = bkeys (map_img H).
Proof.
  apply set_eq. intros [d b]. rewrite elem_of_bkeys, !elem_of_map_img. split.
  - intros (h & (b' & [= -> ->] & E)%lookup_fmap_Some). eauto.
  - intros [-> (h & E)]. exists h. by rewrite lookup_fmap, E.
Qed.

(** The transaction is as [τ] says. *)
Record in_tx (lg : log) (σ : bspec) (τ : txspec) : Prop := {
  it_log : log_ok lg;
  it_geo : same_geometry lg0 lg;
  it_out : 1 ≤ lg_outstanding lg;
  it_com : lg_committing lg = false;
  it_nodup : NoDup (logged lg);
  it_tl : tl τ = list_to_set (logged lg);
  it_home b : b ∈ tl τ → home_ok lg0 b;
  it_dirty : bs_dirty σ = bkeys (tl τ);
  it_held : bs_held σ = (λ b, (dev, b)) <$> th τ;
  it_view b : bs_view σ (dev, b) = tv τ b;
  it_disk k : bs_disk σ k = D k;
  it_clean k : k ∉ bkeys (tl τ ∪ tr τ) → bs_view σ k = D k;
  it_head : head_n (D (headkey lg0)) = 0 }.
Definition log_tx (x : who) (L : list Z) (s : K * log) (τ : txspec) : Prop := ∃ σ, rep x L s.1 σ ∧ in_tx s.2 σ τ.

Lemma log_tx_run τ : RunLaws (λ x L s, log_tx x L s τ) rep_lock.
Proof.
  split.
  - intros x L lk name [k lg] (σ & Hr & Hi) H1 H2.
    destruct (initlock_ok_ (RunLaws0 := rep_run σ) x L lk name k lg Hr H1 H2) as (k' & E & Hr'). exists (k', lg). split; [done|]. by exists σ.
  - intros x L lk [k lg] (σ & Hr & Hi) H1 H2. destruct (acquire_rep x L lk k lg σ Hr H1 H2) as (k' & E & Hr'). exists (k', lg). split; [done|]. by exists σ.
  - intros x L1 L2 lk [k lg] (σ & Hr & Hi). destruct (release_rep x L1 L2 lk k lg σ Hr) as (k' & E & Hr'). exists (k', lg). split; [done|]. by exists σ.
  - intros x L chan [k lg] (σ & Hr & Hi) HL. destruct (wakeup_rep x L chan k lg σ Hr HL) as (k' & E & Hr'). exists (k', lg). split; [done|]. by exists σ.
  - intros x L [k lg] (σ & Hr & Hi). destruct (pid_ok_ (RunLaws0 := rep_run σ) x L k lg Hr) as (k' & E & Hr'). exists (k', lg). split; [done|]. by exists σ.
Qed.

Lemma in_tx_n lg σ τ : in_tx lg σ τ → lg_n lg = Z.of_nat (size (tl τ)).
Proof.
  intros [H1 _ _ _ H5 H6 _ _ _ _ _ _ _]. rewrite H6, size_list_to_set by done. rewrite logged_length by done. destruct H1. lia.
Qed.

Lemma log_tx_bread x s τ b : log_tx x [] s τ → b ∉ map_img (SA := gset Z) (th τ) → home_ok lg0 b →
  Z.of_nat (size (map_img (th τ) ∪ tl τ)) < NBUF ∨ b ∈ tl τ →
  ∃ h s', bread dev b s = Ret h s' ∧ th τ !! h = None ∧ log_tx x [] s' (tx_hold h b τ).
Proof.
  destruct s as [k lg]. intros (σ & Hr & Hi) Hb Hh Hn. pose proof Hi as [H1 H2 H3 H3' H4 H5 H6 H7 H8 H9 H10 H11 H12]. simpl in *.
  destruct (bread_rep x k lg σ dev b Hr) as (h & k' & E & Eh & Hr').
  - rewrite H8, bkeys_img, elem_of_bkeys. tauto.
  - apply Hh.
  - rewrite H7. unfold busy. rewrite H7, H8, bkeys_img, <- bkeys_union, bkeys_size, elem_of_bkeys. tauto.
  - exists h, (k', lg). split; [done|]. split.
    + rewrite H8, lookup_fmap in Eh. by destruct (th τ !! h).
    + eexists. split; [exact Hr'|]. split; simpl; try done. by rewrite fmap_insert, H8.
Qed.

Lemma it_held_at lg σ τ h b : in_tx lg σ τ → th τ !! h = Some b → bs_held σ !! h = Some (dev, b).
Proof. intros Hi Hh. by rewrite (it_held _ _ _ Hi), lookup_fmap, Hh. Qed.

Lemma log_tx_brelse x s τ h b : log_tx x [] s τ → th τ !! h = Some b → b ∉ tr τ →
  ∃ s', brelse h s = Ret () s' ∧ log_tx x [] s' (tx_unhold h τ).
Proof.
  destruct s as [k lg]. intros (σ & Hr & Hi) Hb Hn. simpl in Hi. pose proof (it_held_at _ _ _ _ _ Hi Hb) as Hh.
  destruct (brelse_rep x k lg σ h (dev, b) Hr Hh) as (k' & E & Hr').
  { rewrite (it_dirty _ _ _ Hi), elem_of_bkeys. destruct (decide (b ∈ tl τ)); [by right|left].
    rewrite (it_clean _ _ _ Hi) by (rewrite elem_of_bkeys; set_solver). symmetry. apply Hi. }
  exists (k', lg). split; [done|]. eexists. split; [exact Hr'|]. destruct Hi as [H1 H2 H3 H3' H4 H5 H6 H7 H8 H9 H10 H11 H12].
  split; simpl; try done. by rewrite fmap_delete, H8.
Qed.

Lemma log_tx_data x L s τ h b : log_tx x L s τ → th τ !! h = Some b → b_data h s = Ret (tv τ b) s.
Proof.
  destruct s as [k lg]. intros (σ & Hr & Hi) Hb. rewrite <- (it_view _ _ _ Hi). by apply (b_data_rep x L k lg σ h (dev, b) Hr), (it_held_at _ _ _ _ _ Hi).
Qed.

Lemma log_tx_set x L s τ h b d : log_tx x L s τ → th τ !! h = Some b → block_ok d →
  ∃ s', b_set h d s = Ret () s' ∧ log_tx x L s' (tx_show b d τ).
Proof.
  destruct s as [k lg]. intros (σ & Hr & Hi) Hb Hd. simpl in Hi.
  destruct (b_set_rep x L k lg σ h (dev, b) d Hr (it_held_at _ _ _ _ _ Hi Hb) Hd) as (k' & E & Hr').
  exists (k', lg). split; [done|]. eexists. split; [exact Hr'|]. destruct Hi as [H1 H2 H3 H3' H4 H5 H6 H7 H8 H9 H10 H11 H12].
  split; simpl; try done.
  - intros c. unfold upd, bupd. destruct (decide (b = c)) as [->|Hne]; [by rewrite decide_True|]. rewrite decide_False by congruence. apply H9.
  - intros [d' c] Hk. rewrite elem_of_bkeys in Hk. rewrite upd_ne by (intros [= <- <-]; set_solver). apply H11. rewrite elem_of_bkeys. set_solver.
Qed.

Lemma nodup_absorb b bs : NoDup bs → NoDup (absorb b bs).
Proof.
  intros H. unfold absorb. case_decide as Hd; [done|]. apply NoDup_app. split_and!; [done| |apply NoDup_singleton].
  by intros c Hc ->%list_elem_of_singleton.
Qed.

Lemma log_tx_log x s τ h b : log_tx x [] s τ → th τ !! h = Some b → home_ok lg0 b → Z.of_nat (size (tl τ)) < lg_size lg0 - 1 →
  ∃ s', k_log_write h s = Ret () s' ∧ log_tx x [] s' (tx_logged b τ).
Proof.
  destruct s as [k lg]. intros (σ & Hr & Hi) Hb Hh Hc. simpl in Hi. pose proof (in_tx_n _ _ _ Hi) as Hn.
  pose proof Hi as [H1 H2 H3 H3' H4 H5 H6 H7 H8 H9 H10 H11 H12]. pose proof H2 as (_ & Hsz & _).
  destruct (log_write_ok log_lock Hlock x k lg σ h (dev, b) Hr (it_held_at _ _ _ _ _ Hi Hb) H1) as (k' & E & Hr'); [lia|done|]. simpl in E.
  exists (k', log_add b lg). split; [done|]. eexists. split; [exact Hr'|].
  assert (logged (log_add b lg) = absorb b (logged lg)) as Hla.
  { destruct H1. unfold LOGSIZE, MAXOPBLOCKS in *. apply logged_add; [lia|done]. }
  assert ({[b]} ∪ tl τ = list_to_set (absorb b (logged lg))) as Htl.
  { rewrite H5. unfold absorb. case_decide as Hin; [set_solver|]. rewrite list_to_set_app_L. set_solver. }
  split; cbn [snd tl th tv tr tx_logged bs_dirty bs_held bs_view bs_disk dirty].
  - apply log_ok_add; [done|lia].
  - destruct H2 as (G1 & G2 & G3), (log_add_geometry b lg) as (G4 & G5 & G6). split; [by rewrite G4|]. split; [by rewrite G5|by rewrite G6].
  - unfold log_add. by case_decide.
  - unfold log_add. by case_decide.
  - rewrite Hla. by apply nodup_absorb.
  - by rewrite Hla.
  - intros c [->%elem_of_singleton|Hin]%elem_of_union; [done|by apply H6].
  - rewrite H7, bkeys_union. f_equal. apply set_eq. intros [d c]. rewrite elem_of_bkeys. set_solver.
  - done.
  - done.
  - done.
  - intros [d c] Hk. apply H11. rewrite elem_of_bkeys in *. intros [-> Hc']. apply Hk. split; [done|].
    destruct (decide (c = b)) as [->|]; set_solver.
  - done.
Qed.

Hypothesis Hlg0 : log_ok lg0.
Lemma log_cap_le : lg_size lg0 - 1 < NBUF.
Proof using Hlg0. destruct Hlg0. unfold NBUF, LOGSIZE, MAXOPBLOCKS in *. lia. Qed.

Definition log_TxLaws : TxLaws (K * log).
Proof.
  refine {| tx_dev := dev; tx_cap := lg_size lg0 - 1; tx_home := home_ok lg0; tx := log_tx; tx_lock := rep_lock; tx_run := log_tx_run;
    tx_bread := log_tx_bread; tx_brelse := log_tx_brelse; tx_data := log_tx_data; tx_set := log_tx_set; tx_log := log_tx_log |}.
  - exact log_cap_le.
  - abstract (intros x L s V V' H Q R (σ & Hr & [H1 H2 H3 H3' H4 H5 H6 H7 H8 H9 H10 H11 H12]) HV; exists σ; split; [done|]; split; try done;
      intros b; simpl in *; by rewrite <- HV).
  - abstract (intros x L s τ b (σ & Hr & Hi); rewrite <- (it_view _ _ _ Hi); by apply (rep_block x L s.1 σ)).
Defined.

(** [end_op] of the only call makes the blocks of the transaction the disk. *)
Lemma tx_commit x s lg τ : log_tx x [] (s, lg) τ → th τ = ∅ → tr τ = ∅ → lg_outstanding lg = 1 →
  ∃ s' σ', end_op log_lock log_chan (s, lg) = Ret () (s', set_n 0 (set_outstanding 0 lg)) ∧ rep x [] s' σ' ∧
    quiet (set_n 0 (set_outstanding 0 lg)) σ' ∧ (∀ b, ¬ in_log lg0 (dev, b) → bs_disk σ' (dev, b) = tv τ b) ∧
    (∀ d b, d ≠ dev → bs_disk σ' (d, b) = D (d, b)).
Proof.
  intros (σ & Hr & Hi) Hth Htr Hout. simpl in *. pose proof Hi as [H1 H2 H3 H3' H4 H5 H6 H7 H8 H9 H10 H11 H12].
  destruct (same_geometry_keys lg0 lg H2) as (_ & K2 & K3 & K4 & K5). pose proof H2 as (_ & _ & Edev).
  destruct (end_op_last log_lock log_chan Hlock x s lg σ (bs_view σ) (bs_dirty σ) (bs_hist σ) D) as (s' & σ' & E & Hr' & F1 & F2 & F3 & F4); try done.
  - split; try done. by rewrite H8, Hth, fmap_empty.
  - split; fold (logged lg); [done| | | |by rewrite K2].
    + intros b Hb. apply K5, H6. rewrite H5. by apply elem_of_list_to_set.
    + rewrite H7, H5. unfold bkeys. apply set_eq. intros [d b]. rewrite elem_of_map, elem_of_list_to_set, list_elem_of_fmap. unfold homekey. rewrite Edev. fold dev.
      split; [intros (c & Ec & Hc%elem_of_list_to_set)|intros (c & Ec & Hc)]; exists c; (split; [done|]); [done|by apply elem_of_list_to_set].
    + intros k Hk. apply H11. rewrite Htr, union_empty_r_L. by rewrite <- H7.
  - exists s', σ'. split; [done|]. split; [done|]. split; [|split].
    + destruct H1. split; try done. split; simpl; try done. lia.
    + intros b Hb. rewrite <- H9. apply F4. by rewrite K4.
    + intros d b Hd. rewrite F4 by (rewrite K4; intros [? _]; simpl in *; done). apply H11. rewrite elem_of_bkeys. tauto.
Qed.
End tx.

(** [begin_op] on a quiet log starts a transaction on the blocks of the disk. *)
Lemma tx_begin {K} `{!LockOps K, !ProcOps K, !BlockOps K, !BlockLaws K} log_lock log_chan x fuel s lg σ :
  rep_lock log_lock → rep x [] s σ → quiet lg σ →
  ∃ s', begin_op log_lock log_chan fuel (s, lg) = Ret () (s', set_outstanding 1 lg) ∧
    log_tx lg (bs_disk σ) x [] (s', set_outstanding 1 lg) (Txspec (λ b, bs_disk σ (lg_dev lg, b)) ∅ ∅ ∅).
Proof.
  intros Hlock Hr [Q1 Q2 Q3 Q4 Q5 Q6 Q7].
  destruct (begin_op_now log_lock log_chan Hlock x fuel s lg σ Hr) as (s' & E & Hr').
  { split; [done|]. rewrite Q2, Q3. done. }
  rewrite Q3 in E. exists s'. split; [done|]. exists σ. split; [done|].
  assert (∀ k, bs_view σ k = bs_disk σ k) as Hv.
  { intros k. eapply rep_clean; [done|]. unfold busy. rewrite Q5, Q6, map_img_empty_L. set_solver. }
  split; simpl; try done; unfold logged; simpl; rewrite ?Q2; simpl.
  - by destruct Q1.
  - apply NoDup_nil_2.
  - done.
Qed.

Lemma union_size_le (X Y : gset Z) : (size (X ∪ Y) ≤ size X + size Y)%nat.
Proof. rewrite size_union_alt. pose proof (subseteq_size (Y ∖ X) Y ltac:(set_solver)). lia. Qed.

(** ** Reading and changing a block, next to another component *)
Section lifted.
Context {S T : Type} `{!LockOps S, !ProcOps S, !BlockOps S, !LogOps S, !TxLaws S}.

Definition log_write_ (h : nat) : M (S * T) () := zoom fst_lens (k_log_write h).

(** Between two changes: nothing changed is not logged, and at most one buffer is held. *)
Definition settled (τ : txspec) : Prop := tr τ = ∅ ∧ (size (th τ) ≤ 1)%nat.
(** There is room in the log for the blocks [F] and [n] others. *)
Definition room (τ : txspec) (F : gset Z) (n : Z) : Prop := 0 ≤ n ∧ Z.of_nat (size (tl τ ∪ F)) + n < tx_cap.
(** Block [b] is [d] and logged. *)
Definition tput (b : Z) (d : block) (τ : txspec) : txspec := Txspec (bupd (tv τ) b d) (th τ) ({[b]} ∪ tl τ) (tr τ).

Lemma settled_put b d τ : settled τ → settled (tput b d τ).
Proof. done. Qed.
Lemma room_less τ F n n' : room τ F n → 0 ≤ n' ≤ n → room τ F n'.
Proof. intros [H1 H2] H. split; lia. Qed.
Lemma room_put_in b d τ F n : room τ F n → b ∈ F → room (tput b d τ) F n.
Proof. intros [H1 H2] H. split; [done|]. simpl. by replace ({[b]} ∪ tl τ ∪ F) with (tl τ ∪ F) by set_solver. Qed.
Lemma room_put b d τ F n : room τ F n → 1 ≤ n → room (tput b d τ) F (n - 1).
Proof.
  intros [H1 H2] H. split; [lia|]. simpl. replace ({[b]} ∪ tl τ ∪ F) with ({[b]} ∪ (tl τ ∪ F)) by set_solver.
  pose proof (union_size_le {[b]} (tl τ ∪ F)). rewrite size_singleton in *. lia.
Qed.
Lemma room_sub τ τ' F n (X : gset Z) : room τ F n → tl τ' ⊆ X ∪ (tl τ ∪ F) → Z.of_nat (size X) ≤ n → room τ' F (n - Z.of_nat (size X)).
Proof.
  intros [H1 H2] Hs Hx. split; [lia|]. assert (tl τ' ∪ F ⊆ X ∪ (tl τ ∪ F)) as Hs' by set_solver. apply subseteq_size in Hs'.
  pose proof (union_size_le X (tl τ ∪ F)). lia.
Qed.
Lemma room_log τ F n : room τ F n → Z.of_nat (size (tl τ)) < tx_cap.
Proof. intros [H1 H2]. pose proof (subseteq_size (tl τ) (tl τ ∪ F) ltac:(set_solver)). lia. Qed.
Lemma map_img_size (H : gmap nat Z) : (size (map_img (SA := gset Z) H) ≤ size H)%nat.
Proof.
  induction H as [|h b H Hh IH] using map_ind; [by rewrite map_img_empty_L|].
  rewrite map_size_insert_None by done. pose proof (map_img_insert_subseteq (SA := gset Z) H h b) as Hs. apply subseteq_size in Hs.
  pose proof (union_size_le {[b]} (map_img H)). rewrite size_singleton in *. lia.
Qed.

Lemma bread_tx x s (t : T) τ F n b : tx x [] s τ → settled τ → room τ F n → tx_home b → b ∉ map_img (SA := gset Z) (th τ) →
  ∃ h s', bread_ tx_dev b (s, t) = Ret h (s', t) ∧ th τ !! h = None ∧ tx x [] s' (tx_hold h b τ).
Proof.
  intros Hx [_ Hs] Hr Hb Hn. destruct (tx_bread x s τ b Hx Hn Hb) as (h & s' & E & Hh & Hx').
  - left. apply room_log in Hr. pose proof tx_cap_le. pose proof (union_size_le (map_img (SA := gset Z) (th τ)) (tl τ)).
    pose proof (map_img_size (th τ)). lia.
  - exists h, s'. split; [exact (zoom_Ret fst_lens _ (s, t) _ _ E)|done].
Qed.
Lemma b_data_tx x L s (t : T) τ h b : tx x L s τ → th τ !! h = Some b → b_data_ h (s, t) = Ret (tv τ b) (s, t).
Proof. intros Hx Hh. exact (zoom_Ret fst_lens _ (s, t) _ _ (tx_data x L s τ h b Hx Hh)). Qed.
Lemma b_set_tx x L s (t : T) τ h b d : tx x L s τ → th τ !! h = Some b → block_ok d →
  ∃ s', b_set_ h d (s, t) = Ret () (s', t) ∧ tx x L s' (tx_show b d τ).
Proof. intros Hx Hh Hd. destruct (tx_set x L s τ h b d Hx Hh Hd) as (s' & E & Hx'). exists s'. split; [exact (zoom_Ret fst_lens _ (s, t) _ _ E)|done]. Qed.
Lemma log_write_tx x s (t : T) τ h b : tx x [] s τ → th τ !! h = Some b → tx_home b → Z.of_nat (size (tl τ)) < tx_cap →
  ∃ s', log_write_ h (s, t) = Ret () (s', t) ∧ tx x [] s' (tx_logged b τ).
Proof. intros Hx Hh Hb Hn. destruct (tx_log x s τ h b Hx Hh Hb Hn) as (s' & E & Hx'). exists s'. split; [exact (zoom_Ret fst_lens _ (s, t) _ _ E)|done]. Qed.
Lemma brelse_tx x s (t : T) τ h b : tx x [] s τ → th τ !! h = Some b → b ∉ tr τ →
  ∃ s', brelse_ h (s, t) = Ret () (s', t) ∧ tx x [] s' (tx_unhold h τ).
Proof. intros Hx Hh Hb. destruct (tx_brelse x s τ h b Hx Hh Hb) as (s' & E & Hx'). exists s'. split; [exact (zoom_Ret fst_lens _ (s, t) _ _ E)|done]. Qed.

(** A held buffer [h] of [b] is changed to [d] and logged. *)
Lemma log_held x s (t : T) τ F n h b d : tx x [] s τ → tr τ = ∅ → room τ F n → tx_home b → th τ !! h = Some b → block_ok d →
  ∃ s1 s2, b_set_ h d (s, t) = Ret () (s1, t) ∧ log_write_ h (s1, t) = Ret () (s2, t) ∧ tx x [] s2 (tput b d τ).
Proof.
  intros Hx Htr Hr Hb Hh Hd. destruct (b_set_tx x [] s t τ h b d Hx Hh Hd) as (s1 & E1 & Hx1).
  destruct (log_write_tx x s1 t (tx_show b d τ) h b Hx1 Hh Hb) as (s2 & E2 & Hx2); [by apply room_log in Hr|].
  exists s1, s2. split; [done|]. split; [done|]. unfold tx_logged, tx_show in Hx2. simpl in Hx2. unfold tput.
  by replace (({[b]} ∪ tr τ) ∖ {[b]}) with (tr τ) in Hx2 by (rewrite Htr; set_solver).
Qed.
(** What was held before is held again. *)
Lemma brelse_held x s (t : T) V H Q h b : tx x [] s (Txspec V (<[h := b]> H) Q ∅) → H !! h = None →
  ∃ s', brelse_ h (s, t) = Ret () (s', t) ∧ tx x [] s' (Txspec V H Q ∅).
Proof.
  intros Hx Hh. destruct (brelse_tx x s t _ h b Hx) as (s' & E & Hx'); [apply lookup_insert_eq|set_solver|].
  exists s'. split; [done|]. unfold tx_unhold in Hx'. simpl in Hx'. by rewrite delete_insert_id in Hx'.
Qed.
Lemma settled_hold h b τ : tr τ = ∅ → th τ = ∅ → settled (tx_hold h b τ).
Proof. intros H1 H2. split; [done|]. simpl. rewrite H2, insert_empty, map_size_singleton. lia. Qed.
End lifted.
