(* ===== verification/Fs.v ===== *)
(** * The file system (fs.c)

    The five layers of fs.c over the blocks of a transaction: the block
    allocator, the inode cache, inode contents, directories and paths.  The
    state is the super block and the inode cache; a [struct inode *] is the
    index of a cache entry.  [readi] returns the bytes that it copies to its
    destination, [writei] takes the bytes at its source.  Balloc.v,
    Files.v, Content.v and Trunc.v verify the layers up to the contents. *)
From stdpp Require Import base list gmap strings.
From Stdlib Require Import ZArith Lia.
From S2P Require Import Prelude Mmu Spinlock CpuLocks Proc RunQueue Sched Machine Kernel Sleeplock Block Bio Log Trans Tx.
#[local] Open Scope Z_scope.

(** fs.h, param.h, stat.h, file.h *)
Definition ROOTINO : Z := 1.
Definition ROOTDEV : Z := 1.
Definition NDIRECT : Z := 12.
Definition NINDIRECT : Z := 128.
Definition MAXFILE : Z := NDIRECT + NINDIRECT.
Definition IPB : Z := 8.
Definition IBLOCK (i : Z) (sb : superblock) : Z := uint (i / IPB + sb_inodestart sb).
Definition BPB : Z := BSIZE * 8.
Definition BBLOCK (b : Z) (sb : superblock) : Z := uint (b / BPB + sb_bmapstart sb).
Definition DIRSIZ : Z := 14.
Definition NINODE : nat := 50.
Definition NDEV : Z := 10.
Definition T_DIR : Z := 1.
Definition T_FILE : Z := 2.
Definition T_DEV : Z := 3.

(** [struct dinode], and where its fields lie in a block. *)
Record dinode := Dinode { di_type : Z; di_major : Z; di_minor : Z; di_nlink : Z; di_size : Z; di_addrs : list Z }.
Definition get_dinode (d : block) (o : nat) : dinode :=
  Dinode (sshort (ld16 d o)) (sshort (ld16 d (o + 2))) (sshort (ld16 d (o + 4))) (sshort (ld16 d (o + 6))) (ld32 d (o + 8))
    ((λ i, ld32 d (o + 12 + 4 * i)) <$> seq 0 13).
Fixpoint put_addrs (o : nat) (l : list Z) (d : block) : block :=
  match l with [] => d | a :: l' => put_addrs (o + 4) l' (st32 o a d) end.
Definition put_dinode (di : dinode) (o : nat) (d : block) : block :=
  put_addrs (o + 12) (di_addrs di)
    (st32 (o + 8) (di_size di) (st16 (o + 6) (di_nlink di) (st16 (o + 4) (di_minor di) (st16 (o + 2) (di_major di) (st16 o (di_type di) d))))).

(** [struct inode] *)
Record inode := Inode {
  i_dev : Z; i_inum : Z; i_ref : Z; i_lock : sleeplock; i_valid : bool;
  i_type : Z; i_major : Z; i_minor : Z; i_nlink : Z; i_size : Z; i_addrs : list Z }.
Definition inode0 : inode := Inode 0 0 0 (Sleeplock false "" 0) false 0 0 0 0 0 (replicate 13 0).
Definition set_dev_inum dv n ip := Inode dv n (i_ref ip) (i_lock ip) (i_valid ip) (i_type ip) (i_major ip) (i_minor ip) (i_nlink ip) (i_size ip) (i_addrs ip).
Definition set_ref v ip := Inode (i_dev ip) (i_inum ip) v (i_lock ip) (i_valid ip) (i_type ip) (i_major ip) (i_minor ip) (i_nlink ip) (i_size ip) (i_addrs ip).
Definition set_ilock v ip := Inode (i_dev ip) (i_inum ip) (i_ref ip) v (i_valid ip) (i_type ip) (i_major ip) (i_minor ip) (i_nlink ip) (i_size ip) (i_addrs ip).
Definition set_valid v ip := Inode (i_dev ip) (i_inum ip) (i_ref ip) (i_lock ip) v (i_type ip) (i_major ip) (i_minor ip) (i_nlink ip) (i_size ip) (i_addrs ip).
Definition set_type v ip := Inode (i_dev ip) (i_inum ip) (i_ref ip) (i_lock ip) (i_valid ip) v (i_major ip) (i_minor ip) (i_nlink ip) (i_size ip) (i_addrs ip).
Definition set_major v ip := Inode (i_dev ip) (i_inum ip) (i_ref ip) (i_lock ip) (i_valid ip) (i_type ip) v (i_minor ip) (i_nlink ip) (i_size ip) (i_addrs ip).
Definition set_minor v ip := Inode (i_dev ip) (i_inum ip) (i_ref ip) (i_lock ip) (i_valid ip) (i_type ip) (i_major ip) v (i_nlink ip) (i_size ip) (i_addrs ip).
Definition set_nlink v ip := Inode (i_dev ip) (i_inum ip) (i_ref ip) (i_lock ip) (i_valid ip) (i_type ip) (i_major ip) (i_minor ip) v (i_size ip) (i_addrs ip).
Definition set_isize v ip := Inode (i_dev ip) (i_inum ip) (i_ref ip) (i_lock ip) (i_valid ip) (i_type ip) (i_major ip) (i_minor ip) (i_nlink ip) v (i_addrs ip).
Definition set_addrs v ip := Inode (i_dev ip) (i_inum ip) (i_ref ip) (i_lock ip) (i_valid ip) (i_type ip) (i_major ip) (i_minor ip) (i_nlink ip) (i_size ip) v.
(** The part of an inode that is on disk. *)
Definition disk_part (ip : inode) : dinode := Dinode (i_type ip) (i_major ip) (i_minor ip) (i_nlink ip) (i_size ip) (i_addrs ip).
Definition set_disk_part (di : dinode) (ip : inode) : inode :=
  Inode (i_dev ip) (i_inum ip) (i_ref ip) (i_lock ip) (i_valid ip) (di_type di) (di_major di) (di_minor di) (di_nlink di) (di_size di) (di_addrs di).

(** [sb] and [icache] *)
Record fs := Fs { fs_sb : superblock; fs_inode : gmap nat inode }.
Definition set_sb (sb : superblock) (t : fs) : fs := Fs sb (fs_inode t).
Definition ii (t : fs) (i : nat) : inode := default inode0 (fs_inode t !! i).
Definition upd_inode (i : nat) (f : inode → inode) (t : fs) : fs := Fs (fs_sb t) (<[i := f (ii t i)]> (fs_inode t)).
Definition ilock_lens (i : nat) : lens fs sleeplock := Lens (λ t, i_lock (ii t i)) (λ l t, upd_inode i (set_ilock l) t).
Lemma ii_upd i f t j : ii (upd_inode i f t) j = if decide (i = j) then f (ii t i) else ii t j.
Proof. unfold ii at 1, upd_inode. simpl. case_decide as E; [subst; by rewrite lookup_insert_eq|by rewrite lookup_insert_ne]. Qed.
Lemma ii_upd_eq i f t : ii (upd_inode i f t) i = f (ii t i).
Proof. by rewrite ii_upd, decide_True. Qed.
Lemma ii_upd_ne i f t j : i ≠ j → ii (upd_inode i f t) j = ii t j.
Proof. intros. by rewrite ii_upd, decide_False. Qed.
#[export] Instance ilock_lens_laws i : LensLaws (ilock_lens i).
Proof.
  split.
  - intros l t. simpl. by rewrite ii_upd_eq.
  - intros l l' t. unfold ilock_lens. simpl. unfold upd_inode. simpl. f_equal. rewrite insert_insert_eq. f_equal.
    change (default inode0 _) with (ii (upd_inode i (set_ilock l') t) i). unfold ii at 1. simpl. rewrite lookup_insert_eq. done.
Qed.

(** ** Names *)
(** The bytes of a name field, compared by [strncmp] and filled by [strncpy]. *)
Fixpoint strncmp_bytes (n : nat) (p q : list Z) : Z :=
  match n with
  | O => 0
  | S n' =>
      let a := default 0 (head p) in let b := default 0 (head q) in
      if negb (a =? 0) && (a =? b) then strncmp_bytes n' (tail p) (tail q) else a - b
  end.
Definition namecmp (s t : list Z) : Z := strncmp_bytes 14 s t.
Fixpoint strncpy_bytes (n : nat) (t : list Z) : list Z :=
  match n with
  | O => []
  | S n' => let c := default 0 (head t) in if c =? 0 then replicate n 0 else c :: strncpy_bytes n' (tail t)
  end.

Definition slash : Z := 47.
Fixpoint skip_slashes (path : list Z) : list Z :=
  match path with c :: path' => if c =? slash then skip_slashes path' else path | [] => [] end.
Fixpoint element (path : list Z) : list Z * list Z :=
  match path with
  | c :: path' => if c =? slash then ([], path) else let (e, r) := element path' in (c :: e, r)
  | [] => ([], [])
  end.
(** The path left and the contents of [name]. *)
Definition skipelem (path name : list Z) : option (list Z * list Z) :=
  match skip_slashes path with
  | [] => None
  | s =>
      let (e, rest) := element s in
      let name' := if DIRSIZ <=? Z.of_nat (length e) then take 14 e else e ++ [0] ++ drop (S (length e)) name in
      Some (skip_slashes rest, name')
  end.

Section fs.
Context {S : Type} `{!LockOps S, !ProcOps S, !BlockOps S, !LogOps S}.
(** [&icache.lock], [&inode[i].lock.lk], [&inode[i].lock]; how many wakeups of
    a sleep lock are followed. *)
Variables (icache_lock : Z) (inode_spin inode_chan : nat → Z) (fuel : nat).
(** The functions of [devsw] by major number, and [myproc()->cwd]. *)
Variables (dev_read : Z → option (nat → Z → M (S * fs) (Z * list Z))) (dev_write : Z → option (nat → list Z → Z → M (S * fs) Z)).
Variable cwd : M (S * fs) nat.

Definition inf {A} (i : nat) (f : inode → A) : M (S * fs) A := gets_ (λ t, f (ii t i)).
Definition upd_in (i : nat) (f : inode → inode) : M (S * fs) () := modify_ (upd_inode i f).

(** ** Blocks *)
Definition fs_readsb (dev : Z) : M (S * fs) () := let! sb := readsb dev in modify_ (set_sb sb).

Definition bzero (dev bno : Z) : M (S * fs) () :=
  let! bp := bread_ dev bno in
  b_set_ bp zero_block ;;;
  log_write_ bp ;;;
  brelse_ bp.

(** The [bi] loop: the block that was free, if there is one. *)
Fixpoint balloc_bits (cnt : nat) (dev : Z) (bp : nat) (b bi : Z) : M (S * fs) (option Z) :=
  match cnt with
  | O => ret None
  | Datatypes.S c =>
      let! size := gets_ (λ t, sb_size (fs_sb t)) in
      if b + bi <? size then
        let m := Z.shiftl 1 (bi mod 8) in
        let! d := b_data_ bp in
        let o := Z.to_nat (bi / 8) in
        if Z.land (ld8 d o) m =? 0 then
          b_set_ bp (st8 o (Z.lor (ld8 d o) m) d) ;;;
          log_write_ bp ;;;
          brelse_ bp ;;;
          bzero dev (b + bi) ;;;
          ret (Some (b + bi))
        else balloc_bits c dev bp b (bi + 1)
      else ret None
  end.
Fixpoint balloc_loop (n : nat) (dev b : Z) : M (S * fs) Z :=
  let! size := gets_ (λ t, sb_size (fs_sb t)) in
  if b <? size then
    match n with
    | O => λ _, Spin
    | Datatypes.S n' =>
        let! sb := gets_ fs_sb in
        let! bp := bread_ dev (BBLOCK b sb) in
        let! r := balloc_bits (Z.to_nat BPB) dev bp b 0 in
        match r with
        | Some a => ret a
        | None => brelse_ bp ;;; balloc_loop n' dev (b + BPB)
        end
    end
  else panic "balloc: out of blocks".
Definition balloc (dev : Z) : M (S * fs) Z :=
  let! size := gets_ (λ t, sb_size (fs_sb t)) in
  balloc_loop (Z.to_nat (size / BPB + 1)) dev 0.

Definition bfree (dev b : Z) : M (S * fs) () :=
  fs_readsb dev ;;;
  let! sb := gets_ fs_sb in
  let! bp := bread_ dev (BBLOCK b sb) in
  let bi := b mod BPB in
  let m := Z.shiftl 1 (bi mod 8) in
  let o := Z.to_nat (bi / 8) in
  let! d := b_data_ bp in
  if Z.land (ld8 d o) m =? 0 then panic "freeing free block" else
  b_set_ bp (st8 o (Z.land (ld8 d o) (Z.lnot m)) d) ;;;
  log_write_ bp ;;;
  brelse_ bp.

(** ** The inode cache *)
Fixpoint iinit_loop (cnt i : nat) : M (S * fs) () :=
  match cnt with
  | O => ret ()
  | Datatypes.S c => initsleeplock (ilock_lens i) (inode_spin i) "inode" ;;; iinit_loop c (Datatypes.S i)
  end.
Definition iinit (dev : Z) : M (S * fs) () :=
  initlock_ icache_lock "icache" ;;; iinit_loop NINODE 0 ;;; fs_readsb dev.

(** The loop of [iget]: the entry found, or the first unused one. *)
Fixpoint iget_loop (cnt i : nat) (dev inum : Z) (empty : option nat) : M (S * fs) (nat + option nat) :=
  match cnt with
  | O => ret (inr empty)
  | Datatypes.S c =>
      let! ip := inf i (λ ip, ip) in
      if (0 <? i_ref ip) && (i_dev ip =? dev) && (i_inum ip =? inum) then
        upd_in i (set_ref (i_ref ip + 1)) ;;; ret (inl i)
      else iget_loop c (Datatypes.S i) dev inum
        (match empty with None => if i_ref ip =? 0 then Some i else None | Some e => Some e end)
  end.
Definition iget (dev inum : Z) : M (S * fs) nat :=
  acquire_ icache_lock ;;;
  let! r := iget_loop NINODE 0 dev inum None in
  match r with
  | inl ip => release_ icache_lock ;;; ret ip
  | inr None => panic "iget: no inodes"
  | inr (Some ip) =>
      upd_in ip (set_dev_inum dev inum) ;;;
      upd_in ip (set_ref 1) ;;;
      upd_in ip (set_valid false) ;;;
      release_ icache_lock ;;;
      ret ip
  end.

Definition idup (ip : nat) : M (S * fs) nat :=
  acquire_ icache_lock ;;;
  let! r := inf ip i_ref in
  upd_in ip (set_ref (r + 1)) ;;;
  release_ icache_lock ;;;
  ret ip.

(** The entry of inode [inum] in its block. *)
Definition dinode_off (inum : Z) : nat := Z.to_nat (64 * (inum mod IPB)).

Fixpoint ialloc_loop (cnt : nat) (dev inum type : Z) : M (S * fs) nat :=
  let! ninodes := gets_ (λ t, sb_ninodes (fs_sb t)) in
  if inum <? ninodes then
    match cnt with
    | O => λ _, Spin
    | Datatypes.S c =>
        let! sb := gets_ fs_sb in
        let! bp := bread_ dev (IBLOCK inum sb) in
        let! d := b_data_ bp in
        if di_type (get_dinode d (dinode_off inum)) =? 0 then
          b_set_ bp (st16 (dinode_off inum) type (put_dinode (Dinode 0 0 0 0 0 (replicate 13 0)) (dinode_off inum) d)) ;;;
          log_write_ bp ;;;
          brelse_ bp ;;;
          iget dev inum
        else brelse_ bp ;;; ialloc_loop c dev (inum + 1) type
    end
  else panic "ialloc: no inodes".
Definition ialloc (dev type : Z) : M (S * fs) nat :=
  let! ninodes := gets_ (λ t, sb_ninodes (fs_sb t)) in
  ialloc_loop (Z.to_nat ninodes) dev 1 type.

Definition iupdate (i : nat) : M (S * fs) () :=
  let! ip := inf i (λ ip, ip) in
  let! sb := gets_ fs_sb in
  let! bp := bread_ (i_dev ip) (IBLOCK (i_inum ip) sb) in
  let! d := b_data_ bp in
  b_set_ bp (put_dinode (disk_part ip) (dinode_off (i_inum ip)) d) ;;;
  log_write_ bp ;;;
  brelse_ bp.

Definition ilock (p : option nat) : M (S * fs) () :=
  match p with
  | None => panic "ilock"
  | Some i =>
      let! r := inf i i_ref in
      if r <? 1 then panic "ilock" else
      acquiresleep (ilock_lens i) (inode_spin i) (inode_chan i) fuel ;;;
      let! ip := inf i (λ ip, ip) in
      if negb (i_valid ip) then
        let! sb := gets_ fs_sb in
        let! bp := bread_ (i_dev ip) (IBLOCK (i_inum ip) sb) in
        let! d := b_data_ bp in
        upd_in i (set_disk_part (get_dinode d (dinode_off (i_inum ip)))) ;;;
        brelse_ bp ;;;
        upd_in i (set_valid true) ;;;
        let! ty := inf i i_type in
        if ty =? 0 then panic "ilock: no type" else ret ()
      else ret ()
  end.

Definition iunlock (p : option nat) : M (S * fs) () :=
  match p with
  | None => panic "iunlock"
  | Some i =>
      let! h := holdingsleep (ilock_lens i) (inode_spin i) in
      let! r := inf i i_ref in
      if negb h || (r <? 1) then panic "iunlock" else
      releasesleep (ilock_lens i) (inode_spin i) (inode_chan i)
  end.

(** ** Inode contents *)
(** [ip->addrs[n]], which is in bounds in every use. *)
Definition addr (ip : inode) (n : nat) : Z := default 0 (i_addrs ip !! n).

Definition bmap (i : nat) (bn : Z) : M (S * fs) Z :=
  let! ip := inf i (λ ip, ip) in
  if bn <? NDIRECT then
    let n := Z.to_nat bn in
    if addr ip n =? 0 then
      let! a := balloc (i_dev ip) in
      upd_in i (λ ip, set_addrs (<[n := a]> (i_addrs ip)) ip) ;;; ret a
    else ret (addr ip n)
  else
    let bn := bn - NDIRECT in
    if bn <? NINDIRECT then
      let! a := (if addr ip 12 =? 0 then
                   let! a := balloc (i_dev ip) in
                   upd_in i (λ ip, set_addrs (<[12%nat := a]> (i_addrs ip)) ip) ;;; ret a
                 else ret (addr ip 12)) in
      let! bp := bread_ (i_dev ip) a in
      let! d := b_data_ bp in
      let o := Z.to_nat (4 * bn) in
      let! a := (if ld32 d o =? 0 then
                   let! a := balloc (i_dev ip) in
                   let! d := b_data_ bp in
                   b_set_ bp (st32 o a d) ;;;
                   log_write_ bp ;;; ret a
                 else ret (ld32 d o)) in
      brelse_ bp ;;;
      ret a
    else panic "bmap: out of range".

Fixpoint itrunc_direct (cnt n i : nat) : M (S * fs) () :=
  match cnt with
  | O => ret ()
  | Datatypes.S c =>
      let! ip := inf i (λ ip, ip) in
      (if negb (addr ip n =? 0) then
         bfree (i_dev ip) (addr ip n) ;;;
         upd_in i (λ ip, set_addrs (<[n := 0]> (i_addrs ip)) ip)
       else ret ()) ;;;
      itrunc_direct c (Datatypes.S n) i
  end.
Fixpoint itrunc_indirect (cnt j : nat) (dev : Z) (bp : nat) : M (S * fs) () :=
  match cnt with
  | O => ret ()
  | Datatypes.S c =>
      let! d := b_data_ bp in
      let a := ld32 d (4 * j) in
      (if negb (a =? 0) then bfree dev a else ret ()) ;;;
      itrunc_indirect c (Datatypes.S j) dev bp
  end.
Definition itrunc (i : nat) : M (S * fs) () :=
  itrunc_direct 12 0 i ;;;
  let! ip := inf i (λ ip, ip) in
  (if negb (addr ip 12 =? 0) then
     let! bp := bread_ (i_dev ip) (addr ip 12) in
     itrunc_indirect 128 0 (i_dev ip) bp ;;;
     brelse_ bp ;;;
     bfree (i_dev ip) (addr ip 12) ;;;
     upd_in i (λ ip, set_addrs (<[12%nat := 0]> (i_addrs ip)) ip)
   else ret ()) ;;;
  upd_in i (set_isize 0) ;;;
  iupdate i.

Definition iput (i : nat) : M (S * fs) () :=
  acquiresleep (ilock_lens i) (inode_spin i) (inode_chan i) fuel ;;;
  let! ip := inf i (λ ip, ip) in
  (if i_valid ip && (i_nlink ip =? 0) then
     acquire_ icache_lock ;;;
     let! r := inf i i_ref in
     release_ icache_lock ;;;
     if r =? 1 then
       itrunc i ;;;
       upd_in i (set_type 0) ;;;
       iupdate i ;;;
       upd_in i (set_valid false)
     else ret ()
   else ret ()) ;;;
  releasesleep (ilock_lens i) (inode_spin i) (inode_chan i) ;;;
  acquire_ icache_lock ;;;
  let! r := inf i i_ref in
  upd_in i (set_ref (r - 1)) ;;;
  release_ icache_lock.

Definition iunlockput (i : nat) : M (S * fs) () := iunlock (Some i) ;;; iput i.

(** [struct stat] *)
Record stat := Stat { st_type : Z; st_dev : Z; st_ino : Z; st_nlink : Z; st_size : Z }.
Definition stati (i : nat) : M (S * fs) stat :=
  let! ip := inf i (λ ip, ip) in
  ret (Stat (i_type ip) (sint (i_dev ip)) (i_inum ip) (i_nlink ip) (i_size ip)).

(** The bytes copied by the loop of [readi]; each turn copies one at least. *)
Fixpoint readi_loop (cnt i : nat) (tot off n : Z) : M (S * fs) (list Z) :=
  if n <=? tot then ret [] else
  match cnt with
  | O => λ _, Spin
  | Datatypes.S c =>
      let! dev := inf i i_dev in
      let! a := bmap i (off / BSIZE) in
      let! bp := bread_ dev a in
      let m := Z.min (n - tot) (BSIZE - off mod BSIZE) in
      let! d := b_data_ bp in
      brelse_ bp ;;;
      let! rest := readi_loop c i (tot + m) (off + m) n in
      ret (take (Z.to_nat m) (drop (Z.to_nat (off mod BSIZE)) d) ++ rest)
  end.
Definition readi (i : nat) (off n : Z) : M (S * fs) (Z * list Z) :=
  let! ip := inf i (λ ip, ip) in
  if i_type ip =? T_DEV then
    if (i_major ip <? 0) || (NDEV <=? i_major ip) then ret (-1, []) else
    match dev_read (i_major ip) with
    | None => ret (-1, [])
    | Some f => f i n
    end
  else
    if (i_size ip <? off) || (uint (off + n) <? off) then ret (-1, []) else
    let n := if i_size ip <? uint (off + n) then i_size ip - off else n in
    let! bs := readi_loop (Z.to_nat n) i 0 off n in
    ret (n, bs).

(** [m] bytes from [src] into the block at [o]. *)
Definition put_bytes (o : nat) (src : list Z) (d : block) : block := take o d ++ src ++ drop (o + length src) d.

Fixpoint writei_loop (cnt i : nat) (src : list Z) (tot off n : Z) : M (S * fs) () :=
  if n <=? tot then ret () else
  match cnt with
  | O => λ _, Spin
  | Datatypes.S c =>
      let! dev := inf i i_dev in
      let! a := bmap i (off / BSIZE) in
      let! bp := bread_ dev a in
      let m := Z.min (n - tot) (BSIZE - off mod BSIZE) in
      let! d := b_data_ bp in
      b_set_ bp (put_bytes (Z.to_nat (off mod BSIZE)) (take (Z.to_nat m) src) d) ;;;
      log_write_ bp ;;;
      brelse_ bp ;;;
      writei_loop c i (drop (Z.to_nat m) src) (tot + m) (off + m) n
  end.
Definition writei (i : nat) (src : list Z) (off n : Z) : M (S * fs) Z :=
  let! ip := inf i (λ ip, ip) in
  if i_type ip =? T_DEV then
    if (i_major ip <? 0) || (NDEV <=? i_major ip) then ret (-1) else
    match dev_write (i_major ip) with
    | None => ret (-1)
    | Some f => f i src n
    end
  else
    if (i_size ip <? off) || (uint (off + n) <? off) then ret (-1) else
    if MAXFILE * BSIZE <? uint (off + n) then ret (-1) else
    writei_loop (Z.to_nat n) i src 0 off n ;;;
    let! size := inf i i_size in
    (if (0 <? n) && (size <? off + n) then upd_in i (set_isize (off + n)) ;;; iupdate i else ret ()) ;;;
    ret n.

(** ** Directories *)
(** [struct dirent]: 2 bytes of [inum] and [DIRSIZ] of [name]. *)
Definition de_inum (de : list Z) : Z := ld16 de 0.
Definition de_name (de : list Z) : list Z := drop 2 de.

(** The inode found and the offset of its entry. *)
Fixpoint dirlookup_loop (cnt dp : nat) (name : list Z) (off : Z) : M (S * fs) (option (nat * Z)) :=
  let! size := inf dp i_size in
  if size <=? off then ret None else
  match cnt with
  | O => λ _, Spin
  | Datatypes.S c =>
      let! (r, de) := readi dp off 16 in
      if negb (r =? 16) then panic "dirlookup read" else
      if de_inum de =? 0 then dirlookup_loop c dp name (uint (off + 16)) else
      if namecmp name (de_name de) =? 0 then
        let! dev := inf dp i_dev in
        let! ip := iget dev (de_inum de) in
        ret (Some (ip, off))
      else dirlookup_loop c dp name (uint (off + 16))
  end.
Definition dirlookup (dp : nat) (name : list Z) : M (S * fs) (option (nat * Z)) :=
  let! ip := inf dp (λ ip, ip) in
  if negb (i_type ip =? T_DIR) then panic "dirlookup not DIR" else
  dirlookup_loop (Z.to_nat (i_size ip / 16 + 1)) dp name 0.

(** The offset of the first unused entry, or the end. *)
Fixpoint dirlink_loop (cnt dp : nat) (off : Z) : M (S * fs) Z :=
  let! size := inf dp i_size in
  if size <=? uint off then ret off else
  match cnt with
  | O => λ _, Spin
  | Datatypes.S c =>
      let! (r, de) := readi dp (uint off) 16 in
      if negb (r =? 16) then panic "dirlink read" else
      if de_inum de =? 0 then ret off else dirlink_loop c dp (off + 16)
  end.
Definition dirlink (dp : nat) (name : list Z) (inum : Z) : M (S * fs) Z :=
  let! r := dirlookup dp name in
  match r with
  | Some (ip, _) => iput ip ;;; ret (-1)
  | None =>
      let! size := inf dp i_size in
      let! off := dirlink_loop (Z.to_nat (size / 16 + 1)) dp 0 in
      let de := st16 0 inum ([0; 0] ++ strncpy_bytes 14 name) in
      let! r := writei dp de (uint off) 16 in
      if negb (r =? 16) then panic "dirlink" else ret 0
  end.

(** ** Paths *)
Fixpoint namex_loop (cnt ip : nat) (path : list Z) (nameiparent : bool) (name : list Z) : M (S * fs) (option nat * list Z) :=
  match skipelem path name with
  | None => if nameiparent then iput ip ;;; ret (None, name) else ret (Some ip, name)
  | Some (path', name') =>
      match cnt with
      | O => λ _, Spin
      | Datatypes.S c =>
          ilock (Some ip) ;;;
          let! ty := inf ip i_type in
          if negb (ty =? T_DIR) then iunlockput ip ;;; ret (None, name') else
          if nameiparent && (match path' with [] => true | _ => false end) then iunlock (Some ip) ;;; ret (Some ip, name') else
          let! next := dirlookup ip name' in
          match next with
          | None => iunlockput ip ;;; ret (None, name')
          | Some (next, _) => iunlockput ip ;;; namex_loop c next path' nameiparent name'
          end
      end
  end.
Definition namex (path : list Z) (nameiparent : bool) (name : list Z) : M (S * fs) (option nat * list Z) :=
  let! ip := (if default 0 (head path) =? slash then iget ROOTDEV ROOTINO else let! c := cwd in idup c) in
  namex_loop (length path) ip path nameiparent name.
Definition namei (path : list Z) : M (S * fs) (option nat) :=
  let! r := namex path false (replicate 14 0) in ret r.1.
Definition nameiparent (path name : list Z) : M (S * fs) (option nat * list Z) := namex path true name.
End fs.
