(* ===== verification/Balloc.v ===== *)
(** * The block allocator (fs.c: bzero, balloc, bfree)

    [used V sb b] is the bit of block [b] in the free map.  [balloc] takes the
    first block whose bit is clear, sets the bit and zeroes the block; [bfree]
    clears the bit. *)
From stdpp Require Import base list gmap strings.
From Stdlib Require Import ZArith Lia.
From S2P Require Import Prelude Mmu Spinlock CpuLocks Proc RunQueue Sched Machine Kernel Sleeplock Block Bio Log Trans Tx Fs.
#[local] Open Scope Z_scope.

(** ** Bits of a byte *)
Lemma land_bit x k : 0 ≤ k → Z.land x (Z.shiftl 1 k) = if Z.testbit x k then 2 ^ k else 0.
Proof.
  intros Hk. rewrite Z.shiftl_1_l. apply Z.bits_inj'. intros i Hi. rewrite Z.land_spec, Z.pow2_bits_eqb by done.
  destruct (Z.eqb_spec k i) as [->|Hne].
  - destruct (Z.testbit x i); simpl; [by rewrite Z.pow2_bits_true|by rewrite Z.bits_0].
  - rewrite andb_false_r. destruct (Z.testbit x k); [by rewrite Z.pow2_bits_false|by rewrite Z.bits_0].
Qed.
Lemma land_bit_0 x k : 0 ≤ k → (Z.land x (Z.shiftl 1 k) =? 0) = negb (Z.testbit x k).
Proof.
  intros Hk. rewrite land_bit by done. destruct (Z.testbit x k); [|done]. apply Z.eqb_neq. pose proof (Z.pow_pos_nonneg 2 k). lia.
Qed.
Lemma testbit_set x k i : 0 ≤ k → Z.testbit (Z.lor x (Z.shiftl 1 k)) i = Z.testbit x i || (i =? k).
Proof.
  intros Hk. rewrite Z.lor_spec, Z.shiftl_1_l. f_equal. destruct (Z_lt_dec i 0) as [H|H]; [rewrite Z.testbit_neg_r by done; symmetry; apply Z.eqb_neq; lia|].
  rewrite Z.pow2_bits_eqb by done. apply Z.eqb_sym.
Qed.
Lemma testbit_clear x k i : 0 ≤ k → 0 ≤ i → Z.testbit (Z.land x (Z.lnot (Z.shiftl 1 k))) i = Z.testbit x i && negb (i =? k).
Proof.
  intros Hk Hi. rewrite Z.land_spec, Z.lnot_spec, Z.shiftl_1_l, Z.pow2_bits_eqb by done. f_equal. f_equal. apply Z.eqb_sym.
Qed.
Lemma testbit_uchar x i : 0 ≤ i < 8 → Z.testbit (uchar x) i = Z.testbit x i.
Proof. intros Hi. unfold uchar. change 256 with (2 ^ 8). by rewrite Z.mod_pow2_bits_low by lia. Qed.

(** ** The free map *)
Definition bit_of (d : block) (i : Z) : bool := Z.testbit (ld8 d (Z.to_nat (i / 8))) (i mod 8).
Definition used (V : Z → block) (sb : superblock) (b : Z) : bool := bit_of (V (BBLOCK b sb)) (b mod BPB).
(** A block with one bit of the map changed. *)
Definition set_bit (d : block) (i : Z) : block := st8 (Z.to_nat (i / 8)) (Z.lor (ld8 d (Z.to_nat (i / 8))) (Z.shiftl 1 (i mod 8))) d.
Definition clear_bit (d : block) (i : Z) : block := st8 (Z.to_nat (i / 8)) (Z.land (ld8 d (Z.to_nat (i / 8))) (Z.lnot (Z.shiftl 1 (i mod 8)))) d.

Lemma bit_set d i j : block_ok d → 0 ≤ i < BPB → 0 ≤ j < BPB → bit_of (set_bit d i) j = bit_of d j || (j =? i).
Proof.
  intros [Hl _] Hi Hj. unfold BPB, BSIZE in *. unfold bit_of, set_bit. rewrite ld8_st8 by (Z.to_euclidean_division_equations; lia).
  assert (0 ≤ j mod 8 < 8 ∧ 0 ≤ i mod 8) as [Hj8 Hi8] by (Z.to_euclidean_division_equations; lia).
  destruct (decide (Z.to_nat (i / 8) = Z.to_nat (j / 8))) as [E|E].
  - rewrite testbit_uchar, testbit_set by done. rewrite E. f_equal.
    destruct (Z.eqb_spec (j mod 8) (i mod 8)), (Z.eqb_spec j i); try done; Z.to_euclidean_division_equations; lia.
  - destruct (Z.eqb_spec j i) as [->|]; [done|]. by rewrite orb_false_r.
Qed.
Lemma bit_clear d i j : block_ok d → 0 ≤ i < BPB → 0 ≤ j < BPB → bit_of (clear_bit d i) j = bit_of d j && negb (j =? i).
Proof.
  intros [Hl _] Hi Hj. unfold BPB, BSIZE in *. unfold bit_of, clear_bit. rewrite ld8_st8 by (Z.to_euclidean_division_equations; lia).
  assert (0 ≤ j mod 8 < 8 ∧ 0 ≤ i mod 8) as [Hj8 Hi8] by (Z.to_euclidean_division_equations; lia).
  destruct (decide (Z.to_nat (i / 8) = Z.to_nat (j / 8))) as [E|E].
  - rewrite testbit_uchar, testbit_clear by lia. rewrite E. f_equal. f_equal.
    destruct (Z.eqb_spec (j mod 8) (i mod 8)), (Z.eqb_spec j i); try done; Z.to_euclidean_division_equations; lia.
  - destruct (Z.eqb_spec j i) as [->|]; [done|]. by rewrite andb_true_r.
Qed.
Lemma set_bit_ok d i : block_ok d → block_ok (set_bit d i).
Proof. apply st8_ok. Qed.
Lemma clear_bit_ok d i : block_ok d → block_ok (clear_bit d i).
Proof. apply st8_ok. Qed.

(** Where the free map lies. *)
Record bitmap_ok (sb : superblock) : Prop := {
  bm_size : 0 < sb_size sb < 2147483648;
  bm_start : 0 ≤ sb_bmapstart sb;
  bm_end : sb_bmapstart sb + sb_size sb / BPB < 4294967296 }.
(** The blocks of the free map. *)
Definition bitmap_blocks (sb : superblock) : gset Z := list_to_set (seqZ (sb_bmapstart sb) (sb_size sb / BPB + 1)).

Lemma BBLOCK_eq b sb : bitmap_ok sb → 0 ≤ b < sb_size sb → BBLOCK b sb = b / BPB + sb_bmapstart sb.
Proof. intros [H1 H2 H3] Hb. unfold BBLOCK. apply uint_small. unfold is_uint, BPB, BSIZE in *. Z.to_euclidean_division_equations. lia. Qed.
Lemma BBLOCK_in b sb : bitmap_ok sb → 0 ≤ b < sb_size sb → BBLOCK b sb ∈ bitmap_blocks sb.
Proof.
  intros H Hb. rewrite BBLOCK_eq by done. apply elem_of_list_to_set, elem_of_seqZ. destruct H as [H1 H2 H3]. unfold BPB, BSIZE in *. Z.to_euclidean_division_equations. lia.
Qed.
Lemma BBLOCK_group sb j bi : bitmap_ok sb → 0 ≤ j → 0 ≤ bi < BPB → BPB * j + bi < sb_size sb →
  BBLOCK (BPB * j + bi) sb = BBLOCK (BPB * j) sb ∧ (BPB * j + bi) mod BPB = bi.
Proof.
  intros H Hj Hbi Hs. rewrite !BBLOCK_eq by (done || unfold BPB, BSIZE in *; lia). unfold BPB, BSIZE in *.
  split; Z.to_euclidean_division_equations; lia.
Qed.

(** Setting or clearing the bit of [a]. *)
Definition mark (V : Z → block) (sb : superblock) (a : Z) : Z → block := bupd V (BBLOCK a sb) (set_bit (V (BBLOCK a sb)) (a mod BPB)).
Definition unmark (V : Z → block) (sb : superblock) (a : Z) : Z → block := bupd V (BBLOCK a sb) (clear_bit (V (BBLOCK a sb)) (a mod BPB)).

Lemma block_index sb a c : bitmap_ok sb → 0 ≤ a < sb_size sb → 0 ≤ c < sb_size sb →
  (BBLOCK a sb = BBLOCK c sb ∧ a mod BPB = c mod BPB) ↔ a = c.
Proof. intros H Ha Hc. rewrite !BBLOCK_eq by done. unfold BPB, BSIZE. Z.to_euclidean_division_equations. lia. Qed.

Lemma used_mark V sb a c : bitmap_ok sb → (∀ b, block_ok (V b)) → 0 ≤ a < sb_size sb → 0 ≤ c < sb_size sb →
  used (mark V sb a) sb c = used V sb c || (c =? a).
Proof.
  intros H HV Ha Hc. unfold used, mark, bupd. pose proof (block_index sb a c H Ha Hc) as Hi.
  assert (0 ≤ a mod BPB < BPB ∧ 0 ≤ c mod BPB < BPB) as [? ?] by (unfold BPB, BSIZE; Z.to_euclidean_division_equations; lia).
  case_decide as E.
  - rewrite bit_set by done. rewrite <- E at 1. f_equal. destruct (Z.eqb_spec (c mod BPB) (a mod BPB)), (Z.eqb_spec c a); try done.
    + exfalso. apply n. symmetry. apply Hi. done.
    + subst. done.
  - destruct (Z.eqb_spec c a) as [->|]; [done|]. by rewrite orb_false_r.
Qed.
Lemma used_unmark V sb a c : bitmap_ok sb → (∀ b, block_ok (V b)) → 0 ≤ a < sb_size sb → 0 ≤ c < sb_size sb →
  used (unmark V sb a) sb c = used V sb c && negb (c =? a).
Proof.
  intros H HV Ha Hc. unfold used, unmark, bupd. pose proof (block_index sb a c H Ha Hc) as Hi.
  assert (0 ≤ a mod BPB < BPB ∧ 0 ≤ c mod BPB < BPB) as [? ?] by (unfold BPB, BSIZE; Z.to_euclidean_division_equations; lia).
  case_decide as E.
  - rewrite bit_clear by done. rewrite <- E at 1. f_equal. f_equal. destruct (Z.eqb_spec (c mod BPB) (a mod BPB)), (Z.eqb_spec c a); try done.
    + exfalso. apply n. symmetry. apply Hi. done.
    + subst. done.
  - destruct (Z.eqb_spec c a) as [->|]; [done|]. by rewrite andb_true_r.
Qed.
(** A block outside the map does not change it. *)
Lemma used_other V sb b d c : bitmap_ok sb → 0 ≤ c < sb_size sb → b ∉ bitmap_blocks sb → used (bupd V b d) sb c = used V sb c.
Proof. intros H Hc Hb. unfold used. rewrite bupd_ne; [done|]. intros ->. apply Hb. by apply BBLOCK_in. Qed.

(** ** The code *)
Section balloc.
Context {S : Type} `{!LockOps S, !ProcOps S, !BlockOps S, !LogOps S, !TxLaws S}.
Implicit Types (t : fs) (τ : txspec).

Lemma bzero_ok x s t τ F n b : tx x [] s τ → settled τ → room τ F n → tx_home b → b ∉ map_img (SA := gset Z) (th τ) →
  ∃ s', bzero tx_dev b (s, t) = Ret () (s', t) ∧ tx x [] s' (tput b zero_block τ).
Proof.
  intros Hx Hs Hr Hb Hn. destruct τ as [V H Q R]. pose proof Hs as [Htr _]. simpl in Htr, Hn. subst R. unfold bzero.
  destruct (bread_tx x s t _ F n b Hx Hs Hr Hb Hn) as (h & s1 & E1 & Hh & Hx1). run E1. simpl in Hh.
  destruct (log_held x s1 t _ F n h b zero_block Hx1) as (s2 & s3 & E2 & E3 & Hx3); [done|done|done|apply lookup_insert_eq|apply zero_block_ok|].
  run E2. run E3. destruct (brelse_held x s3 t _ H _ h b Hx3 Hh) as (s4 & E4 & Hx4). by exists s4.
Qed.

(** The scan of one block of the map that [h] holds. *)
Lemma balloc_bits_none sb t h b : fs_sb t = sb → ∀ cnt x s τ j bi, tx x [] s τ → th τ !! h = Some (BBLOCK (BPB * j) sb) → bitmap_ok sb →
  b = BPB * j → 0 ≤ j → 0 ≤ bi → bi + Z.of_nat cnt = BPB → (∀ c, b + bi ≤ c < b + BPB → c < sb_size sb → used (tv τ) sb c = true) →
  balloc_bits cnt tx_dev h b bi (s, t) = Ret None (s, t).
Proof.
  intros Hsb. induction cnt as [|cnt IH]; intros x s τ j bi Hx Hh Hok Hb Hj Hbi Hc Hall; cbn [balloc_bits]; [done|]. next. rewrite Hsb.
  destruct (Z.ltb_spec (b + bi) (sb_size sb)) as [Hlt|Hge]; [|done]. run (b_data_tx x [] s t τ h _ Hx Hh).
  rewrite land_bit_0 by (Z.to_euclidean_division_equations; lia).
  destruct (BBLOCK_group sb j bi Hok Hj ltac:(lia) ltac:(lia)) as [E1 E2].
  pose proof (Hall (b + bi) ltac:(lia) Hlt) as Hu. unfold used, bit_of in Hu. subst b. rewrite E1, E2 in Hu. rewrite Hu. cbn [negb].
  apply (IH x s τ j); try done; try lia. intros c Hc'. apply Hall. lia.
Qed.

Lemma balloc_bits_found sb t b : fs_sb t = sb → ∀ cnt x s V H Q F n h j bi a,
  tx x [] s (Txspec V (<[h := BBLOCK (BPB * j) sb]> H) Q ∅) → H !! h = None → H = ∅ ∨ (∃ h' b', H = {[h' := b']} ∧ b' ≠ a) →
  bitmap_ok sb → room (Txspec V H Q ∅) F n → bitmap_blocks sb ⊆ F → 1 ≤ n → tx_home a → tx_home (BBLOCK a sb) → a ∉ bitmap_blocks sb →
  b = BPB * j → 0 ≤ j → 0 ≤ bi → bi + Z.of_nat cnt = BPB → b + bi ≤ a < b + BPB → a < sb_size sb →
  (∀ c, b + bi ≤ c < a → used V sb c = true) → used V sb a = false →
  ∃ s', balloc_bits cnt tx_dev h b bi (s, t) = Ret (Some a) (s', t) ∧ tx x [] s' (Txspec (bupd (mark V sb a) a zero_block) H ({[a; BBLOCK a sb]} ∪ Q) ∅).
Proof.
  intros Hsb. induction cnt as [|cnt IH]; intros x s V H Q F n h j bi a Hx Hh HH Hok Hr HF Hn Ha Hm Hna Hb Hj Hbi Hc Har Has Hbefore Hfree; [lia|].
  cbn [balloc_bits]. next. rewrite Hsb, (proj2 (Z.ltb_lt _ _)) by lia. run (b_data_tx x [] s t _ h _ Hx (lookup_insert_eq _ _ _)). cbn [tv].
  rewrite land_bit_0 by (Z.to_euclidean_division_equations; lia).
  destruct (BBLOCK_group sb j bi Hok Hj ltac:(lia) ltac:(lia)) as [E1 E2].
  destruct (Z.eq_dec a (b + bi)) as [->|Hne].
  - pose proof Hfree as Hu. unfold used, bit_of in Hu. subst b. rewrite E1, E2 in Hu. rewrite Hu. cbn [negb]. rewrite E1 in Hm.
    set (m := BBLOCK (BPB * j) sb) in *. set (a := BPB * j + bi) in *.
    assert (m ∈ bitmap_blocks sb) as Hmin by (rewrite <- E1; apply BBLOCK_in; [done|unfold a in *; unfold BPB, BSIZE in *; lia]).
    destruct (log_held x s t _ F n h m (set_bit (V m) bi) Hx) as (s1 & s2 & E3 & E4 & Hx2); [done|done|done|apply lookup_insert_eq| |].
    { apply set_bit_ok. exact (tx_block x [] s _ m Hx). }
    change (st8 _ _ (V m)) with (set_bit (V m) bi). run E3. run E4.
    destruct (brelse_held x s2 t _ H _ h m Hx2 Hh) as (s3 & E5 & Hx3). run E5.
    destruct (bzero_ok x s3 t _ F n a Hx3) as (s4 & E6 & Hx4).
    { split; [done|]. destruct HH as [->|(h' & b' & -> & _)]; simpl; [rewrite map_size_empty; lia|rewrite map_size_singleton; lia]. }
    { exact (room_put_in m (set_bit (V m) bi) _ F n Hr ltac:(set_solver)). } { done. }
    { simpl. destruct HH as [->|(h' & b' & -> & Hb')]; [rewrite map_img_empty_L|rewrite map_img_singleton_L]; set_solver. }
    run E6. exists s4. split; [done|]. unfold tput in Hx4. simpl in Hx4. unfold mark. rewrite E1, E2. fold m.
    by replace ({[a; m]} ∪ Q) with ({[a]} ∪ ({[m]} ∪ Q)) by set_solver.
  - pose proof (Hbefore (b + bi) ltac:(lia)) as Hu. unfold used, bit_of in Hu. subst b. rewrite E1, E2 in Hu. rewrite Hu. cbn [negb].
    apply (IH x s V H Q F n h j (bi + 1) a); try done; try lia. intros c Hc'. apply Hbefore. lia.
Qed.

Lemma balloc_loop_ok sb t a : fs_sb t = sb → bitmap_ok sb → 0 ≤ a < sb_size sb → tx_home a → a ∉ bitmap_blocks sb →
  (∀ b, b ∈ bitmap_blocks sb → tx_home b) → ∀ cnt x s V H Q F n j,
  tx x [] s (Txspec V H Q ∅) → H = ∅ ∨ (∃ h' b', H = {[h' := b']} ∧ b' ≠ a ∧ b' ∉ bitmap_blocks sb) →
  room (Txspec V H Q ∅) F n → bitmap_blocks sb ⊆ F → 1 ≤ n → 0 ≤ j → BPB * j ≤ a → a / BPB - j < Z.of_nat cnt →
  (∀ c, BPB * j ≤ c < a → used V sb c = true) → used V sb a = false →
  ∃ s', balloc_loop cnt tx_dev (BPB * j) (s, t) = Ret a (s', t) ∧ tx x [] s' (Txspec (bupd (mark V sb a) a zero_block) H ({[a; BBLOCK a sb]} ∪ Q) ∅).
Proof.
  intros Hsb Hok Ha Hha Hna Hhome. induction cnt as [|cnt IH]; intros x s V H Q F n j Hx HH Hr HF Hn Hj Hja Hcnt Hbefore Hfree.
  { exfalso. unfold BPB, BSIZE in *. Z.to_euclidean_division_equations. lia. }
  cbn [balloc_loop]. next. rewrite Hsb, (proj2 (Z.ltb_lt _ _)) by lia. next. rewrite Hsb.
  assert (BBLOCK (BPB * j) sb ∈ bitmap_blocks sb) as Hmin by (apply BBLOCK_in; [done|unfold BPB, BSIZE in *; lia]).
  destruct (bread_tx x s t (Txspec V H Q ∅) F n (BBLOCK (BPB * j) sb) Hx) as (h & s1 & E1 & Hh & Hx1).
  { split; [done|]. destruct HH as [->|(h' & b' & -> & _)]; simpl; [rewrite map_size_empty; lia|rewrite map_size_singleton; lia]. }
  { done. } { by apply Hhome. }
  { simpl. destruct HH as [->|(h' & b' & -> & Hb' & Hb'')]; [rewrite map_img_empty_L|rewrite map_img_singleton_L]; set_solver. }
  run E1. simpl in Hh, Hx1. destruct (Z_lt_dec a (BPB * j + BPB)) as [Hin|Hout].
  - destruct (balloc_bits_found sb t (BPB * j) Hsb (Z.to_nat BPB) x s1 V H Q F n h j 0 a Hx1) as (s2 & E2 & Hx2); try done; try lia.
    + destruct HH as [?|(h' & b' & ? & ? & ?)]; [by left|right; by exists h', b'].
    + apply Hhome. by apply BBLOCK_in.
    + intros c Hc. apply Hbefore. lia.
    + run E2. by exists s2.
  - run (balloc_bits_none sb t h (BPB * j) Hsb (Z.to_nat BPB) x s1 _ j 0 Hx1 (lookup_insert_eq _ _ _) Hok eq_refl Hj ltac:(lia) ltac:(done)
      ltac:(intros c Hc _; apply Hbefore; lia)).
    destruct (brelse_held x s1 t V H Q h _ Hx1 Hh) as (s2 & E2 & Hx2). run E2.
    replace (BPB * j + BPB) with (BPB * (j + 1)) by lia. apply (IH x s2 V H Q F n (j + 1)); try done; try lia.
    intros c Hc. apply Hbefore. unfold BPB, BSIZE in *. lia.
Qed.

(** [balloc] with [H] held takes the first free block [a]. *)
Lemma balloc_ok x s t V H Q F n sb a : tx x [] s (Txspec V H Q ∅) → fs_sb t = sb → bitmap_ok sb → (∀ b, b ∈ bitmap_blocks sb → tx_home b) →
  H = ∅ ∨ (∃ h' b', H = {[h' := b']} ∧ b' ≠ a ∧ b' ∉ bitmap_blocks sb) → room (Txspec V H Q ∅) F n → bitmap_blocks sb ⊆ F → 1 ≤ n →
  0 ≤ a < sb_size sb → (∀ c, 0 ≤ c < a → used V sb c = true) → used V sb a = false → tx_home a → a ∉ bitmap_blocks sb →
  ∃ s', balloc tx_dev (s, t) = Ret a (s', t) ∧ tx x [] s' (Txspec (bupd (mark V sb a) a zero_block) H ({[a; BBLOCK a sb]} ∪ Q) ∅).
Proof.
  intros Hx Hsb Hok Hhome HH Hr HF Hn Ha Hbefore Hfree Hha Hna. unfold balloc. next. rewrite Hsb.
  apply (balloc_loop_ok sb t a Hsb Hok Ha Hha Hna Hhome _ x s V H Q F n 0); try done; try lia.
  unfold BPB, BSIZE. Z.to_euclidean_division_equations. lia.
Qed.

(** [readsb] reads the super block again. *)
Lemma fs_readsb_ok x s t τ F n : tx x [] s τ → settled τ → room τ F n → tx_home 1 → 1 ∉ map_img (SA := gset Z) (th τ) → decode_sb (tv τ 1) = fs_sb t →
  ∃ s', fs_readsb tx_dev (s, t) = Ret () (s', t) ∧ tx x [] s' τ.
Proof.
  intros Hx Hs Hr H1 Hn Hd. destruct τ as [V H Q R]. pose proof Hs as [Htr _]. simpl in Htr, Hn. subst R.
  unfold fs_readsb, readsb. destruct (bread_tx x s t _ F n 1 Hx Hs Hr H1 Hn) as (h & s1 & E1 & Hh & Hx1). simpl in Hh.
  run2 E1. run2 (b_data_tx x [] s1 t _ h 1 Hx1 (lookup_insert_eq _ _ _)).
  destruct (brelse_held x s1 t V H Q h 1 Hx1 Hh) as (s2 & E2 & Hx2). run2 E2. next. exists s2. split; [|done].
  simpl in Hd. unfold modify_. simpl. rewrite Hd. by destruct t.
Qed.

Lemma bfree_ok x s t V H Q F n sb b : tx x [] s (Txspec V H Q ∅) → fs_sb t = sb → bitmap_ok sb → (∀ b, b ∈ bitmap_blocks sb → tx_home b) →
  settled (Txspec V H Q ∅) → (∀ c, c ∈ map_img (SA := gset Z) H → (c ∉ bitmap_blocks sb) ∧ c ≠ 1) →
  room (Txspec V H Q ∅) F n → bitmap_blocks sb ⊆ F → tx_home 1 → decode_sb (V 1) = sb →
  0 ≤ b < sb_size sb → used V sb b = true →
  ∃ s', bfree tx_dev b (s, t) = Ret () (s', t) ∧ tx x [] s' (Txspec (unmark V sb b) H ({[BBLOCK b sb]} ∪ Q) ∅).
Proof.
  intros Hx Hsb Hok Hhome Hs HH Hr HF H1 Hd Hb Hu. unfold bfree.
  destruct (fs_readsb_ok x s t _ F n Hx Hs Hr H1) as (s1 & E1 & Hx1); [intros Hin; by destruct (HH 1 Hin)|simpl; congruence|]. run E1. next. rewrite Hsb.
  pose proof (BBLOCK_in b sb Hok Hb) as Hmin. set (m := BBLOCK b sb) in *.
  destruct (bread_tx x s1 t _ F n m Hx1 Hs Hr) as (h & s2 & E2 & Hh & Hx2); [by apply Hhome|intros Hin; by destruct (HH m Hin)|]. run E2. simpl in Hh.
  run (b_data_tx x [] s2 t _ h m Hx2 (lookup_insert_eq _ _ _)). cbn [tv tx_hold].
  unfold used, bit_of in Hu. fold m in Hu. rewrite land_bit_0 by (Z.to_euclidean_division_equations; lia). rewrite Hu. cbn [negb].
  change (st8 _ _ (V m)) with (clear_bit (V m) (b mod BPB)).
  destruct (log_held x s2 t _ F n h m (clear_bit (V m) (b mod BPB)) Hx2) as (s3 & s4 & E3 & E4 & Hx4); [done|done|by apply Hhome|apply lookup_insert_eq| |].
  { apply clear_bit_ok. exact (tx_block x [] s _ m Hx). }
  run E3. run E4. destruct (brelse_held x s4 t _ H _ h m Hx4 Hh) as (s5 & E5 & Hx5). by exists s5.
Qed.

(** Freeing a free block is refused. *)
Lemma bfree_panics x s t V H Q F n sb b : tx x [] s (Txspec V H Q ∅) → fs_sb t = sb → bitmap_ok sb → (∀ b, b ∈ bitmap_blocks sb → tx_home b) →
  settled (Txspec V H Q ∅) → (∀ c, c ∈ map_img (SA := gset Z) H → (c ∉ bitmap_blocks sb) ∧ c ≠ 1) →
  room (Txspec V H Q ∅) F n → bitmap_blocks sb ⊆ F → tx_home 1 → decode_sb (V 1) = sb →
  0 ≤ b < sb_size sb → used V sb b = false → bfree tx_dev b (s, t) = Panic "freeing free block".
Proof.
  intros Hx Hsb Hok Hhome Hs HH Hr HF H1 Hd Hb Hu. unfold bfree.
  destruct (fs_readsb_ok x s t _ F n Hx Hs Hr H1) as (s1 & E1 & Hx1); [intros Hin; by destruct (HH 1 Hin)|simpl; congruence|]. run E1. next. rewrite Hsb.
  pose proof (BBLOCK_in b sb Hok Hb) as Hmin. set (m := BBLOCK b sb) in *.
  destruct (bread_tx x s1 t _ F n m Hx1 Hs Hr) as (h & s2 & E2 & Hh & Hx2); [by apply Hhome|intros Hin; by destruct (HH m Hin)|]. run E2.
  run (b_data_tx x [] s2 t _ h m Hx2 (lookup_insert_eq _ _ _)). cbn [tv tx_hold].
  unfold used, bit_of in Hu. fold m in Hu. rewrite land_bit_0 by (Z.to_euclidean_division_equations; lia). by rewrite Hu.
Qed.
End balloc.
