(* ===== verification/Files.v ===== *)
(** * Files (fs.c: iupdate, bmap, readi, writei, itrunc)

    An inode with the addresses [addrs] is a file: [baddr] is the block of each
    of its parts, directly or through the indirect block, and [fbyte] its
    bytes.  [bmap] extends a file by blocks of its own, [readi] and [writei]
    read and write its bytes, and [itrunc] gives its blocks back. *)
From stdpp Require Import base list gmap strings.
From Stdlib Require Import ZArith Lia Permutation.
From S2P Require Import Prelude Mmu Spinlock CpuLocks Proc RunQueue Sched Machine Kernel Sleeplock Block Bio Log Trans Tx Fs Balloc.
#[local] Open Scope Z_scope.

(** ** Inodes on disk *)
Record dinode_ok (di : dinode) : Prop := {
  do_short : Forall (λ v, -32768 ≤ v < 32768) [di_type di; di_major di; di_minor di; di_nlink di];
  do_size : is_uint (di_size di);
  do_len : length (di_addrs di) = 13%nat;
  do_addrs : Forall is_uint (di_addrs di) }.

Lemma st16_16_ne o v d o' : (o + 2 ≤ length d)%nat → (o' + 4 ≤ o ∨ o + 2 ≤ o')%nat → ld32 (st16 o v d) o' = ld32 d o'.
Proof. intros H Hne. unfold ld32. rewrite !ld16_st16_ne by lia. done. Qed.
Lemma st32_16_ne o v d o' : (o + 4 ≤ length d)%nat → (o' + 2 ≤ o ∨ o + 4 ≤ o')%nat → ld16 (st32 o v d) o' = ld16 d o'.
Proof. intros H Hne. unfold st32. rewrite !ld16_st16_ne by (rewrite ?st16_length; lia). done. Qed.

Lemma put_addrs_length l : ∀ o d, length (put_addrs o l d) = length d.
Proof. induction l as [|a l IH]; intros o d; simpl; [done|]. by rewrite IH, st32_length. Qed.
Lemma put_addrs_ok l : ∀ o d, block_ok d → block_ok (put_addrs o l d).
Proof. induction l as [|a l IH]; intros o d H; simpl; [done|]. by apply IH, st32_ok. Qed.
Lemma put_addrs_16 l : ∀ o d o', (o + 4 * length l ≤ length d)%nat → (o' + 2 ≤ o ∨ o + 4 * length l ≤ o')%nat → ld16 (put_addrs o l d) o' = ld16 d o'.
Proof.
  induction l as [|a l IH]; intros o d o' Hl Ho; simpl in *; [done|]. rewrite IH by (rewrite ?st32_length; lia). by rewrite st32_16_ne by lia.
Qed.
Lemma put_addrs_32 l : ∀ o d o', (o + 4 * length l ≤ length d)%nat → (o' + 4 ≤ o ∨ o + 4 * length l ≤ o')%nat → ld32 (put_addrs o l d) o' = ld32 d o'.
Proof.
  induction l as [|a l IH]; intros o d o' Hl Ho; simpl in *; [done|]. rewrite IH by (rewrite ?st32_length; lia). by rewrite ld32_st32_ne by lia.
Qed.
Lemma put_addrs_get l : ∀ o d i a, (o + 4 * length l ≤ length d)%nat → l !! i = Some a → ld32 (put_addrs o l d) (o + 4 * i) = uint a.
Proof.
  induction l as [|b l IH]; intros o d i a Hl Hi; [by rewrite lookup_nil in Hi|]. simpl in Hl. destruct i as [|i]; simpl in Hi; cbn [put_addrs].
  - injection Hi as ->. rewrite Nat.mul_0_r, Nat.add_0_r, put_addrs_32 by (rewrite ?st32_length; lia). by rewrite ld32_st32 by lia.
  - replace (o + 4 * S i)%nat with (o + 4 + 4 * i)%nat by lia. apply IH; [rewrite st32_length; lia|done].
Qed.

Lemma sshort_id v : -32768 ≤ v < 32768 → sshort (ushort v) = v.
Proof. intros H. zmod. Qed.

Lemma put_dinode_ok di o d : block_ok d → block_ok (put_dinode di o d).
Proof. intros H. unfold put_dinode. by apply put_addrs_ok, st32_ok, st16_ok, st16_ok, st16_ok, st16_ok. Qed.

(** What is written is read back, and the other inodes of the block stay. *)
Lemma get_put_dinode di o d : dinode_ok di → (o + 64 ≤ length d)%nat → get_dinode (put_dinode di o d) o = di.
Proof.
  intros [H1 H2 H3 H4] Hl. destruct di as [ty mj mn nl sz ad]. simpl in *. rewrite !Forall_cons in H1. destruct H1 as (S1 & S2 & S3 & S4 & _).
  unfold get_dinode, put_dinode. cbn [di_type di_major di_minor di_nlink di_size di_addrs].
  rewrite !put_addrs_16 by (rewrite ?st32_length, ?st16_length; lia). rewrite put_addrs_32 by (rewrite ?st32_length, ?st16_length; lia).
  rewrite ld32_st32 by (rewrite ?st16_length; lia). rewrite !st32_16_ne by (rewrite ?st16_length; lia).
  repeat (rewrite ?ld16_st16 by (rewrite ?st16_length; lia); rewrite ?ld16_st16_ne by (rewrite ?st16_length; lia)).
  f_equal; try (by apply sshort_id); [by apply uint_small|].
  apply list_eq. intros i. rewrite list_lookup_fmap. destruct (decide (i < 13)%nat) as [Hi|Hi].
  - rewrite lookup_seq_lt by done. simpl. destruct (ad !! i) as [a|] eqn:E; [|apply lookup_ge_None in E; lia].
    rewrite (put_addrs_get ad _ _ i a) by (rewrite ?st32_length, ?st16_length; lia || done). f_equal. apply uint_small. rewrite Forall_lookup in H4. eauto.
  - rewrite lookup_seq_ge by lia. simpl. symmetry. apply lookup_ge_None. lia.
Qed.
Lemma get_put_dinode_ne di o d o' : length (di_addrs di) = 13%nat → (o + 64 ≤ length d)%nat → (o' + 64 ≤ o ∨ o + 64 ≤ o')%nat →
  get_dinode (put_dinode di o d) o' = get_dinode d o'.
Proof.
  intros Hn Hl Ho. unfold get_dinode, put_dinode. rewrite !put_addrs_16, !put_addrs_32 by (rewrite ?st32_length, ?st16_length; lia).
  rewrite !st32_16_ne by (rewrite ?st16_length; lia). rewrite !ld32_st32_ne by (rewrite ?st16_length; lia). rewrite !st16_16_ne by (rewrite ?st16_length; lia).
  rewrite !ld16_st16_ne by (rewrite ?st16_length; lia). f_equal. apply list_fmap_ext. intros i j [-> Hj]%lookup_seq.
  rewrite put_addrs_32 by (rewrite ?st32_length, ?st16_length; lia). rewrite !ld32_st32_ne by (rewrite ?st16_length; lia). by rewrite !st16_16_ne by (rewrite ?st16_length; lia).
Qed.

(** ** The layout of the disk *)
(** The blocks of the inodes, then the free map, then the data. *)
Record layout (sb : superblock) : Prop := {
  ly_bitmap : bitmap_ok sb;
  ly_inodes : 1 < sb_inodestart sb ∧ 0 < sb_ninodes sb ∧ sb_inodestart sb + sb_ninodes sb / IPB < sb_bmapstart sb }.
Definition data_start (sb : superblock) : Z := sb_bmapstart sb + sb_size sb / BPB + 1.
Definition data_block (sb : superblock) (b : Z) : Prop := data_start sb ≤ b < sb_size sb.
Definition dinode_at (V : Z → block) (sb : superblock) (inum : Z) : dinode := get_dinode (V (IBLOCK inum sb)) (dinode_off inum).

Lemma data_not_bitmap sb b : layout sb → data_block sb b → b ∉ bitmap_blocks sb.
Proof. intros [_ _] Hb. unfold bitmap_blocks. rewrite elem_of_list_to_set, elem_of_seqZ. unfold data_block, data_start in Hb. lia. Qed.
Lemma IBLOCK_eq sb i : layout sb → 0 ≤ i < sb_ninodes sb → IBLOCK i sb = i / IPB + sb_inodestart sb ∧ sb_inodestart sb ≤ IBLOCK i sb < sb_bmapstart sb.
Proof.
  intros [[H1 H2 H3] (H4 & H5 & H6)] Hi. assert (IBLOCK i sb = i / IPB + sb_inodestart sb) as E.
  { unfold IBLOCK. apply uint_small. unfold is_uint, IPB, BPB, BSIZE in *. Z.to_euclidean_division_equations. lia. }
  split; [done|]. rewrite E. unfold IPB in *. Z.to_euclidean_division_equations. lia.
Qed.
Lemma IBLOCK_not_bitmap sb i : layout sb → 0 ≤ i < sb_ninodes sb → IBLOCK i sb ∉ bitmap_blocks sb.
Proof. intros H Hi. destruct (IBLOCK_eq sb i H Hi) as [_ Hr]. unfold bitmap_blocks. rewrite elem_of_list_to_set, elem_of_seqZ. lia. Qed.
Lemma IBLOCK_not_data sb i b : layout sb → 0 ≤ i < sb_ninodes sb → data_block sb b → IBLOCK i sb ≠ b.
Proof.
  intros H Hi Hb. destruct (IBLOCK_eq sb i H Hi) as [_ Hr]. destruct H as [[H1 _ _] _]. unfold data_block, data_start in Hb.
  unfold BPB, BSIZE in *. Z.to_euclidean_division_equations. lia.
Qed.
Lemma dinode_off_le i : (dinode_off i + 64 ≤ 512)%nat.
Proof. unfold dinode_off, IPB. Z.to_euclidean_division_equations. lia. Qed.

(** ** The blocks of a file *)
(** The [j]th address in an indirect block. *)
Definition entry (d : block) (j : nat) : Z := ld32 d (4 * j).
Definition ent (V : Z → block) (addrs : list Z) (j : nat) : Z :=
  if default 0 (addrs !! 12%nat) =? 0 then 0 else entry (V (default 0 (addrs !! 12%nat))) j.
(** The address of part [n] of a file, 0 if it has none. *)
Definition baddr (V : Z → block) (addrs : list Z) (n : nat) : Z :=
  if (n <? 12)%nat then default 0 (addrs !! n) else if (n <? 140)%nat then ent V addrs (n - 12) else 0.

(** All blocks in use by the file: index 140 stands for the indirect block. *)
Definition fblock (V : Z → block) (addrs : list Z) (n : nat) : Z :=
  if (n =? 140)%nat then default 0 (addrs !! 12%nat) else baddr V addrs n.
Definition owns (V : Z → block) (addrs : list Z) (b : Z) : Prop := b ≠ 0 ∧ ∃ n, (n ≤ 140)%nat ∧ fblock V addrs n = b.

Record file_wf (V : Z → block) (sb : superblock) (addrs : list Z) : Prop := {
  fw_len : length addrs = 13%nat;
  fw_data b : owns V addrs b → data_block sb b ∧ used V sb b = true;
  fw_inj n m : (n ≤ 140)%nat → (m ≤ 140)%nat → fblock V addrs n = fblock V addrs m → fblock V addrs n ≠ 0 → n = m }.

(** Byte [k] of the file. *)
Definition fbyte (V : Z → block) (addrs : list Z) (k : Z) : Z := ld8 (V (baddr V addrs (Z.to_nat (k / BSIZE)))) (Z.to_nat (k mod BSIZE)).

(** ** Adding a block to a file *)
(** The file keeps its blocks and gets free ones; no other block of data changes. *)
Record grows (sb : superblock) (V : Z → block) (addrs : list Z) (V' : Z → block) (addrs' : list Z) : Prop := {
  gr_wf : file_wf V' sb addrs';
  gr_keep n : (n ≤ 140)%nat → fblock V addrs n ≠ 0 → fblock V' addrs' n = fblock V addrs n;
  gr_used c : 0 ≤ c < sb_size sb → used V' sb c = true ↔ used V sb c = true ∨ owns V' addrs' c;
  gr_new b : owns V' addrs' b → owns V addrs b ∨ used V sb b = false;
  gr_frame b : (b ∉ bitmap_blocks sb) → ¬ owns V' addrs' b → V' b = V b }.
(** Its contents stay too. *)
Record extends (sb : superblock) (V : Z → block) (addrs : list Z) (V' : Z → block) (addrs' : list Z) : Prop := {
  ex_grows : grows sb V addrs V' addrs';
  ex_data n : (n < 140)%nat → baddr V addrs n ≠ 0 → V' (baddr V addrs n) = V (baddr V addrs n) }.

Lemma baddr_fblock V addrs n : (n < 140)%nat → baddr V addrs n = fblock V addrs n.
Proof. intros H. unfold fblock. by rewrite (proj2 (Nat.eqb_neq _ _)) by lia. Qed.
Lemma owns_fblock V addrs n : (n ≤ 140)%nat → fblock V addrs n ≠ 0 → owns V addrs (fblock V addrs n).
Proof. intros H H0. split; [done|]. by exists n. Qed.

Lemma grows_refl sb V addrs : file_wf V sb addrs → grows sb V addrs V addrs.
Proof.
  intros H. split; try done; [|by left]. intros c Hc. split; [by left|]. intros [?|Ho]; [done|]. by apply (fw_data _ _ _ H).
Qed.
Lemma extends_refl sb V addrs : file_wf V sb addrs → extends sb V addrs V addrs.
Proof. intros H. split; [by apply grows_refl|done]. Qed.
Lemma grows_owns sb V addrs V' addrs' b : grows sb V addrs V' addrs' → owns V addrs b → owns V' addrs' b.
Proof. intros H [Hb (n & Hn & <-)]. rewrite <- (gr_keep _ _ _ _ _ H) by done. apply owns_fblock; [done|]. by rewrite (gr_keep _ _ _ _ _ H). Qed.
Lemma grows_baddr sb V A V' A' n : grows sb V A V' A' → (n < 140)%nat → baddr V A n ≠ 0 → baddr V' A' n = baddr V A n.
Proof. intros H Hn. rewrite !baddr_fblock by done. apply (gr_keep _ _ _ _ _ H). lia. Qed.

Lemma grows_trans sb V1 A1 V2 A2 V3 A3 : layout sb → grows sb V1 A1 V2 A2 → grows sb V2 A2 V3 A3 → grows sb V1 A1 V3 A3.
Proof.
  intros Hly H12 H23. pose proof H12 as [B1 B2 B4 B5 B6]. pose proof H23 as [C1 C2 C4 C5 C6]. split.
  - done.
  - intros n Hn H0. rewrite C2, B2; try done. by rewrite B2.
  - intros c Hc. rewrite C4, B4 by done. split.
    + intros [[?|Ho]|?]; [by left|right; by eapply grows_owns|by right].
    + intros [?|?]; [by left; left|by right].
  - intros b Hb. apply C5 in Hb as Hb'. destruct Hb' as [Ho|Hu]; [by apply B5|]. right.
    destruct (used V1 sb b) eqn:E; [|done]. assert (used V2 sb b = true) as E2; [|congruence].
    apply B4; [|by left]. apply (fw_data _ _ _ C1) in Hb as [Hd _]. unfold data_block, data_start in Hd.
    destruct Hly as [[? ? ?] ?]. unfold BPB, BSIZE in *. Z.to_euclidean_division_equations. lia.
  - intros b Hb Hn. rewrite C6 by done. apply B6; [done|]. intros Ho. apply Hn. by eapply grows_owns.
Qed.
Lemma extends_trans sb V1 A1 V2 A2 V3 A3 : layout sb → extends sb V1 A1 V2 A2 → extends sb V2 A2 V3 A3 → extends sb V1 A1 V3 A3.
Proof.
  intros Hly [B1 B2] [C1 C2]. split; [by eapply grows_trans|]. intros n Hn H0. rewrite <- (B2 n Hn H0).
  pose proof (grows_baddr _ _ _ _ _ n B1 Hn H0) as E. rewrite <- E. apply C2; [done|]. by rewrite E.
Qed.

Lemma data_range sb b : layout sb → data_block sb b → 0 < b < sb_size sb.
Proof. intros [[? ? ?] ?] Hb. unfold data_block, data_start, BPB, BSIZE in *. Z.to_euclidean_division_equations. lia. Qed.

(** Part [n0] of the file gets the free block [a]. *)
Lemma extends_add sb V addrs V' addrs' n0 a : layout sb → file_wf V sb addrs → (n0 ≤ 140)%nat → length addrs' = 13%nat →
  (∀ m, (m ≤ 140)%nat → fblock V' addrs' m = if decide (m = n0) then a else fblock V addrs m) →
  fblock V addrs n0 = 0 → data_block sb a → used V sb a = false →
  (∀ c, 0 ≤ c < sb_size sb → used V' sb c = used V sb c || (c =? a)) →
  (∀ b, b ∉ bitmap_blocks sb → b ≠ a → (b = fblock V addrs 140 → b = 0) → V' b = V b) →
  extends sb V addrs V' addrs'.
Proof.
  intros Hly [W1 W2 W3] Hn0 Hlen Hfb H0 Hd Hu Hused Hframe.
  assert (∀ b, owns V' addrs' b ↔ owns V addrs b ∨ b = a) as Ho.
  { intros b. unfold owns. split.
    - intros [Hb (n & Hn & E)]. rewrite Hfb in E by done. case_decide; [by right|]. left. eauto.
    - intros [[Hb (n & Hn & E)]| ->].
      + split; [done|]. exists n. split; [done|]. rewrite Hfb by done. rewrite decide_False; [done|]. intros ->. congruence.
      + split; [pose proof (data_range sb a Hly Hd); lia|]. exists n0. split; [done|]. by rewrite Hfb, decide_True by done. }
  split.
  2: { intros n Hn Hz. rewrite baddr_fblock in * by done. destruct (W2 (fblock V addrs n)) as [H1 H2]; [apply owns_fblock; [lia|done]|].
    apply Hframe; [by apply data_not_bitmap|congruence|]. intros E. exfalso. apply W3 in E; [lia|lia|lia|done]. }
  split.
  - split; [done| |].
    + intros b [Hb| ->]%Ho.
      * destruct (W2 b Hb) as [H1 H2]. split; [done|]. rewrite Hused, H2 by (pose proof (data_range sb b Hly H1); lia). done.
      * split; [done|]. rewrite Hused, Z.eqb_refl, orb_true_r by (pose proof (data_range sb a Hly Hd); lia). done.
    + intros n m Hn Hm. rewrite !Hfb by done. repeat case_decide; subst; try done.
      * intros E Hz. exfalso. destruct (W2 a) as [_ E2]; [|congruence]. rewrite E. apply owns_fblock; [done|]. by rewrite <- E.
      * intros E Hz. exfalso. destruct (W2 a) as [_ E2]; [|congruence]. rewrite <- E. by apply owns_fblock.
      * by apply W3.
  - intros n Hn Hz. rewrite Hfb by done. rewrite decide_False; [done|]. by intros ->.
  - intros c Hc. rewrite Hused by done. rewrite orb_true_iff, Z.eqb_eq, Ho. split; [tauto|]. intros [?|[Hoc|?]]; [by left|left|by right]. by apply W2.
  - intros b [Hb| ->]%Ho; [by left|by right].
  - intros b Hb Hn. apply Hframe; [done|intros ->; apply Hn, Ho; by right|]. intros ->.
    destruct (decide (fblock V addrs 140 = 0)) as [?|Hz]; [done|]. exfalso. apply Hn, Ho. left. by apply owns_fblock.
Qed.

(** ** The free blocks *)
Definition free_blocks (V : Z → block) (sb : superblock) : list Z := filter (λ b, used V sb b = false) (seqZ 0 (sb_size sb)).
(** Only data blocks are ever free. *)
Definition map_wf (V : Z → block) (sb : superblock) : Prop := ∀ b, 0 ≤ b < sb_size sb → used V sb b = false → data_block sb b.

Lemma filter_seqZ_first (P : Z → Prop) {HP : ∀ b, Decision (P b)} n : ∀ m a rest, filter P (seqZ m (Z.of_nat n)) = a :: rest →
  m ≤ a < m + Z.of_nat n ∧ P a ∧ (∀ c, m ≤ c < a → ¬ P c) ∧ rest = filter P (seqZ (a + 1) (m + Z.of_nat n - (a + 1))).
Proof.
  induction n as [|n IH]; intros m a rest H; [done|]. rewrite (seqZ_cons m) in H by lia. replace (Z.pred (Z.of_nat (S n))) with (Z.of_nat n) in H by lia.
  destruct (decide (P m)) as [Hm|Hm].
  - rewrite filter_cons_True in H by done. injection H as <- <-. split; [lia|]. split; [done|]. split; [intros; lia|]. f_equal. f_equal; lia.
  - rewrite filter_cons_False in H by done. apply IH in H as (H1 & H2 & H3 & ->). split; [lia|]. split; [done|]. split.
    + intros c Hc. destruct (Z.eq_dec c m) as [->|]; [done|]. apply H3. lia.
    + f_equal. f_equal; lia.
Qed.

Lemma first_free V sb a rest : bitmap_ok sb → free_blocks V sb = a :: rest →
  0 ≤ a < sb_size sb ∧ (∀ c, 0 ≤ c < a → used V sb c = true) ∧ used V sb a = false.
Proof.
  intros Hok H. unfold free_blocks in H. destruct Hok as [Hs _ _]. rewrite <- (Z2Nat.id (sb_size sb)) in H by lia.
  apply filter_seqZ_first in H as (H1 & H2 & H3 & _). split; [lia|]. split; [|done]. intros c Hc. specialize (H3 c ltac:(lia)). by destruct (used V sb c).
Qed.
Lemma free_blocks_ext V V' sb : (∀ c, 0 ≤ c < sb_size sb → used V' sb c = used V sb c) → free_blocks V' sb = free_blocks V sb.
Proof.
  intros H. unfold free_blocks. apply filter_ext_in. intros c Hc%elem_of_seqZ. by rewrite H by lia.
Qed.
(** Marking the first one. *)
Lemma free_blocks_mark V V' sb a rest : bitmap_ok sb → free_blocks V sb = a :: rest →
  (∀ c, 0 ≤ c < sb_size sb → used V' sb c = used V sb c || (c =? a)) → free_blocks V' sb = rest.
Proof.
  intros Hok H Hu. pose proof Hok as [Hs _ _]. unfold free_blocks in *. rewrite <- (Z2Nat.id (sb_size sb)) in H by lia.
  pose proof H as H'. apply filter_seqZ_first in H' as (H1 & H2 & H3 & ->). rewrite Z2Nat.id in * by lia. simpl.
  assert (seqZ 0 (sb_size sb) = seqZ 0 (a + 1) ++ seqZ (a + 1) (sb_size sb - (a + 1))) as ->.
  { pose proof (seqZ_app 0 (a + 1) (sb_size sb - (a + 1)) ltac:(lia) ltac:(lia)) as E. rewrite Z.add_0_l in E. rewrite <- E. f_equal. lia. }
  rewrite filter_app. rewrite (filter_none _ (seqZ 0 (a + 1))).
  2: { intros c Hc%elem_of_seqZ. rewrite Hu by lia. destruct (Z.eqb_spec c a) as [->|Hne]; [by rewrite orb_true_r|].
    specialize (H3 c ltac:(lia)). by destruct (used V sb c). }
  simpl. apply filter_ext_in. intros c Hc%elem_of_seqZ. rewrite Hu by lia.
  rewrite (proj2 (Z.eqb_neq c a)) by lia. by rewrite orb_false_r.
Qed.

(** ** The three places for a new block *)
Lemma entry_zero j : (j < 128)%nat → entry zero_block j = 0.
Proof. intros H. unfold entry, ld32, ld16, ld8, zero_block. rewrite !lookup_replicate_2 by lia. done. Qed.

Section add_block.
Variables (sb : superblock) (V : Z → block) (addrs : list Z) (a : Z).
Hypothesis Hly : layout sb.
Hypothesis HV : ∀ b, block_ok (V b).
Hypothesis Hwf : file_wf V sb addrs.
Hypothesis Hd : data_block sb a.
Hypothesis Hu : used V sb a = false.
Let V1 := bupd (mark V sb a) a zero_block.

Lemma balloc_used c : 0 ≤ c < sb_size sb → used V1 sb c = used V sb c || (c =? a).
Proof using Hly HV Hd.
  intros Hc. unfold V1. rewrite used_other by (apply Hly || done || by apply data_not_bitmap).
  apply used_mark; [apply Hly|done|pose proof (data_range sb a Hly Hd); lia|done].
Qed.
Lemma balloc_same b : b ∉ bitmap_blocks sb → b ≠ a → V1 b = V b.
Proof using Hly Hd.
  intros Hb Hne. unfold V1, mark. rewrite !bupd_ne; [done| |done]. intros E. apply Hb. rewrite <- E. apply BBLOCK_in; [apply Hly|].
  pose proof (data_range sb a Hly Hd). lia.
Qed.
Lemma balloc_owned b : owns V addrs b → V1 b = V b ∧ b ≠ a.
Proof using Hly Hd Hwf Hu.
  intros Ho. destruct (fw_data _ _ _ Hwf b Ho) as [H1 H2]. assert (b ≠ a) by congruence. split; [|done]. apply balloc_same; [by apply data_not_bitmap|done].
Qed.

Lemma fblock_direct W A n : (n < 12)%nat → fblock W A n = default 0 (A !! n).
Proof. intros H. unfold fblock, baddr. rewrite (proj2 (Nat.eqb_neq _ _)), (proj2 (Nat.ltb_lt _ _)) by lia. done. Qed.
Lemma fblock_entry W A n : (12 ≤ n < 140)%nat → fblock W A n = ent W A (n - 12).
Proof. intros H. unfold fblock, baddr. rewrite (proj2 (Nat.eqb_neq _ _)), (proj2 (Nat.ltb_ge _ _)), (proj2 (Nat.ltb_lt _ _)) by lia. done. Qed.
Lemma fblock_indirect W A : fblock W A 140 = default 0 (A !! 12%nat).
Proof. done. Qed.
Lemma fblock_cases n : (n ≤ 140)%nat → (n < 12)%nat ∨ (12 ≤ n < 140)%nat ∨ n = 140%nat.
Proof. lia. Qed.

Lemma ent_same : ∀ j, fblock V addrs 140 ≠ 0 → ent V1 addrs j = ent V addrs j.
Proof using Hly Hd Hwf Hu.
  intros j Hz. unfold ent. rewrite fblock_indirect in Hz. rewrite (proj2 (Z.eqb_neq _ _) Hz).
  destruct (balloc_owned (default 0 (addrs !! 12%nat))) as [-> _]; [|done]. by apply (owns_fblock V addrs 140).
Qed.

Lemma extends_direct n : (n < 12)%nat → fblock V addrs n = 0 → extends sb V addrs V1 (<[n := a]> addrs).
Proof using All.
  intros Hn H0. pose proof (fw_len _ _ _ Hwf) as Hl.
  apply (extends_add sb V addrs V1 (<[n := a]> addrs) n a); try done; [lia|by rewrite length_insert| |apply balloc_used|].
  - intros m Hm. destruct (fblock_cases m Hm) as [Hc|[Hc| ->]].
    + rewrite !fblock_direct by done. case_decide; [subst; by rewrite list_lookup_insert_eq by lia|by rewrite list_lookup_insert_ne].
    + rewrite decide_False by lia. rewrite !fblock_entry by done. unfold ent. rewrite list_lookup_insert_ne by lia.
      destruct (Z.eqb_spec (default 0 (addrs !! 12%nat)) 0) as [E|E]; [done|].
      destruct (balloc_owned (default 0 (addrs !! 12%nat))) as [-> _]; [|done]. by apply (owns_fblock V addrs 140).
    + rewrite decide_False by lia. rewrite !fblock_indirect. by rewrite list_lookup_insert_ne by lia.
  - intros b Hb Hne _. by apply balloc_same.
Qed.

Lemma extends_indirect : fblock V addrs 140 = 0 → extends sb V addrs V1 (<[12%nat := a]> addrs).
Proof using All.
  intros H0. pose proof (fw_len _ _ _ Hwf) as Hl. rewrite fblock_indirect in H0.
  apply (extends_add sb V addrs V1 (<[12%nat := a]> addrs) 140 a); try done; [by rewrite length_insert| |apply balloc_used|].
  - intros m Hm. destruct (fblock_cases m Hm) as [Hc|[Hc| ->]].
    + rewrite decide_False by lia. rewrite !fblock_direct by done. by rewrite list_lookup_insert_ne by lia.
    + rewrite decide_False by lia. rewrite !fblock_entry by done. unfold ent. rewrite H0, list_lookup_insert_eq by lia. change (default 0 (Some a)) with a.
      rewrite Z.eqb_refl. destruct (a =? 0); [done|]. unfold V1. rewrite bupd_eq. apply entry_zero. lia.
    + rewrite decide_True by done. rewrite fblock_indirect, list_lookup_insert_eq by lia. done.
  - intros b Hb Hne _. by apply balloc_same.
Qed.

Lemma entry_put d j j' v : block_ok d → (j < 128)%nat → (j' < 128)%nat → is_uint v → entry (st32 (4 * j) v d) j' = if decide (j = j') then v else entry d j'.
Proof.
  intros [Hl _] Hj Hj' Hv. unfold entry. case_decide as E; [subst; rewrite ld32_st32 by lia; by apply uint_small|]. by rewrite ld32_st32_ne by lia.
Qed.

Lemma extends_entry j : fblock V addrs 140 ≠ 0 → (j < 128)%nat → entry (V (fblock V addrs 140)) j = 0 →
  extends sb V addrs (bupd V1 (fblock V addrs 140) (st32 (4 * j) a (V (fblock V addrs 140)))) addrs.
Proof using All.
  intros HI Hj H0. set (I := fblock V addrs 140) in *. assert (owns V addrs I) as Ho by (by apply owns_fblock).
  destruct (fw_data _ _ _ Hwf I Ho) as [HId HIu]. destruct (balloc_owned I Ho) as [_ HIa]. pose proof (data_not_bitmap sb I Hly HId) as HIb.
  assert (is_uint a) as Hua. { pose proof (data_range sb a Hly Hd). destruct Hly as [[? ? ?] ?]. unfold is_uint. lia. }
  apply (extends_add sb V addrs _ addrs (12 + j) a); try done; [lia|apply Hwf| | | |].
  - intros m Hm. destruct (fblock_cases m Hm) as [Hc|[Hc| ->]].
    + rewrite decide_False by lia. by rewrite !fblock_direct.
    + rewrite !fblock_entry by done. unfold ent. rewrite <- !(fblock_indirect V addrs). fold I. rewrite (proj2 (Z.eqb_neq _ _) HI), bupd_eq.
      rewrite entry_put by (done || lia). repeat case_decide; done || lia.
    + rewrite decide_False by lia. done.
  - rewrite fblock_entry by lia. unfold ent. rewrite <- !(fblock_indirect V addrs). fold I. rewrite (proj2 (Z.eqb_neq _ _) HI).
    by replace (12 + j - 12)%nat with j by lia.
  - intros c Hc. rewrite used_other by (apply Hly || done). by apply balloc_used.
  - intros b Hb Hne HbI. rewrite bupd_ne; [by apply balloc_same|]. intros E. symmetry in E. specialize (HbI E). congruence.
Qed.
End add_block.

(** ** bmap *)
Section files.
Context {S : Type} `{!LockOps S, !ProcOps S, !BlockOps S, !LogOps S, !TxLaws S}.
Variable sb : superblock.
Hypothesis Hly : layout sb.
Hypothesis Hhome : ∀ b, sb_inodestart sb ≤ b < sb_size sb → tx_home b.
Implicit Types (t : fs) (V : Z → block).

Lemma settled_nil V Q : settled (Txspec V ∅ Q ∅).
Proof using. split; [done|]. simpl. rewrite map_size_empty. lia. Qed.
Lemma home_data b : data_block sb b → tx_home b.
Proof using Hly Hhome.
  intros Hb. apply Hhome. pose proof Hly as [[? ? ?] (? & ? & ?)]. unfold data_block, data_start, IPB, BPB, BSIZE in *.
  Z.to_euclidean_division_equations. lia.
Qed.
Lemma home_bitmap b : sb_bmapstart sb + sb_size sb / BPB < sb_size sb → b ∈ bitmap_blocks sb → tx_home b.
Proof using Hly Hhome.
  intros H Hb. unfold bitmap_blocks in Hb. rewrite elem_of_list_to_set, elem_of_seqZ in Hb. apply Hhome.
  pose proof Hly as [[? ? ?] (? & ? & ?)]. unfold IPB in *. Z.to_euclidean_division_equations. lia.
Qed.
Hypothesis Hbm : sb_bmapstart sb + sb_size sb / BPB < sb_size sb.

(** Only the addresses of inode [i] change. *)
Record retyped t t' (i : nat) (addrs : list Z) : Prop := {
  rt_sb : fs_sb t' = fs_sb t;
  rt_i : ii t' i = set_addrs addrs (ii t i);
  rt_other j : j ≠ i → ii t' j = ii t j }.
Lemma retyped_refl t i : retyped t t i (i_addrs (ii t i)).
Proof. split; try done. by destruct (ii t i). Qed.
Lemma retyped_upd t i addrs : retyped t (upd_inode i (set_addrs addrs) t) i addrs.
Proof. split; [done|by rewrite ii_upd_eq|]. intros j Hj. by rewrite ii_upd_ne. Qed.
Lemma retyped_trans t1 t2 t3 i A2 A3 : retyped t1 t2 i A2 → retyped t2 t3 i A3 → retyped t1 t3 i A3.
Proof. intros [H1 H2 H3] [K1 K2 K3]. split; [congruence|by rewrite K2, H2|]. intros j Hj. by rewrite K3, H3. Qed.

(** The block allocator in the state of a file operation. *)
Lemma balloc_first x s t V H Q F n a rest : tx x [] s (Txspec V H Q ∅) → fs_sb t = sb → map_wf V sb → free_blocks V sb = a :: rest →
  (H = ∅ ∨ ∃ h I, H = {[h := I]} ∧ data_block sb I ∧ used V sb I = true) → room (Txspec V H Q ∅) F n → bitmap_blocks sb ⊆ F → 1 ≤ n →
  data_block sb a ∧ used V sb a = false ∧
  ∃ s', balloc tx_dev (s, t) = Ret a (s', t) ∧ tx x [] s' (Txspec (bupd (mark V sb a) a zero_block) H ({[a; BBLOCK a sb]} ∪ Q) ∅).
Proof using Hly Hhome Hbm.
  intros Hx Hsb Hmap Hfree HH Hr HF Hn. destruct (first_free V sb a rest (ly_bitmap _ Hly) Hfree) as (Ha & Hb & Hu).
  pose proof (Hmap a Ha Hu) as Hd. split; [done|]. split; [done|].
  apply (balloc_ok x s t V H Q F n sb a); try done; [apply Hly|intros b; by apply home_bitmap| |by apply home_data|by apply data_not_bitmap].
  destruct HH as [?|(h & I & -> & HI & HIu)]; [by left|right]. exists h, I. split; [done|]. split; [congruence|by apply data_not_bitmap].
Qed.

Lemma map_wf_balloc V a : (∀ b, block_ok (V b)) → map_wf V sb → data_block sb a → map_wf (bupd (mark V sb a) a zero_block) sb.
Proof using Hly.
  intros HV Hm Hd b Hb. rewrite balloc_used by done. intros [Hu _]%orb_false_iff. by apply Hm.
Qed.

(** What [bmap] leaves: the file extended so that part [n] has the block [a]. *)
Record bmapped V (A : list Z) (Q : gset Z) (n : nat) V' (A' : list Z) (Q' : gset Z) (a : Z) : Prop := {
  bp_ext : extends sb V A V' A';
  bp_addr : a = baddr V' A' n ∧ a ≠ 0;
  bp_new : baddr V A n = 0 → V' a = zero_block;
  bp_map : map_wf V' sb;
  bp_logged : Q' ⊆ {[a; fblock V' A' 140]} ∪ (Q ∪ bitmap_blocks sb);
  bp_free : (length (free_blocks V sb) ≤ length (free_blocks V' sb) + 2)%nat }.

Lemma bmapped_refl V A Q n : file_wf V sb A → map_wf V sb → baddr V A n ≠ 0 → bmapped V A Q n V A Q (baddr V A n).
Proof using All. intros Hwf Hm Hn. split; try done; [by apply extends_refl|set_solver|lia]. Qed.

(** The second half of [bmap], from the indirect block [I] on. *)
Definition bmap_entry (dev I bn : Z) : M (S * fs) Z :=
  let! bp := bread_ dev I in
  let! d := b_data_ bp in
  let o := Z.to_nat (4 * bn) in
  let! a := (if ld32 d o =? 0 then
               let! a := balloc dev in
               let! d := b_data_ bp in
               b_set_ bp (st32 o a d) ;;;
               log_write_ bp ;;; ret a
             else ret (ld32 d o)) in
  brelse_ bp ;;;
  ret a.

Lemma entry_baddr V A j : (j < 128)%nat → fblock V A 140 ≠ 0 → entry (V (fblock V A 140)) j = baddr V A (12 + j).
Proof.
  intros Hj HI. rewrite baddr_fblock, (fblock_entry V A (12 + j)) by lia. unfold ent. rewrite <- (fblock_indirect V A). rewrite (proj2 (Z.eqb_neq _ _) HI).
  by replace (12 + j - 12)%nat with j by lia.
Qed.
Lemma baddr_entry V A j : (j < 128)%nat → baddr V A (12 + j) ≠ 0 → fblock V A 140 ≠ 0.
Proof. intros Hj H E. apply H. rewrite baddr_fblock, fblock_entry by lia. unfold ent. by rewrite <- (fblock_indirect V A), E. Qed.

Lemma bmap_entry_present x s t V Q F k A j : tx x [] s (Txspec V ∅ Q ∅) → file_wf V sb A → (j < 128)%nat → baddr V A (12 + j) ≠ 0 → room (Txspec V ∅ Q ∅) F k →
  ∃ s', bmap_entry tx_dev (fblock V A 140) (Z.of_nat j) (s, t) = Ret (baddr V A (12 + j)) (s', t) ∧ tx x [] s' (Txspec V ∅ Q ∅).
Proof using Hly Hhome.
  intros Hx Hwf Hj Hb Hr. pose proof (baddr_entry V A j Hj Hb) as HI. rewrite <- entry_baddr in Hb |- * by done. set (I := fblock V A 140) in *.
  destruct (fw_data _ _ _ Hwf I) as [HId _]; [by apply owns_fblock|].
  unfold bmap_entry. destruct (bread_tx x s t (Txspec V ∅ Q ∅) F k I Hx) as (h & s1 & E1 & Hh & Hx1); [apply settled_nil|done|by apply home_data|simpl; by rewrite map_img_empty_L|].
  run E1. run (b_data_tx x [] s1 t _ h I Hx1 (lookup_insert_eq _ _ _)). cbn [tv tx_hold].
  replace (Z.to_nat (4 * Z.of_nat j)) with (4 * j)%nat by lia. change (ld32 (V I) (4 * j)) with (entry (V I) j).
  rewrite (proj2 (Z.eqb_neq _ _) Hb). next. destruct (brelse_held x s1 t V ∅ Q h I Hx1 Hh) as (s2 & E2 & Hx2). run E2. by exists s2.
Qed.

Lemma bmap_entry_ok x s t V Q F k A j : tx x [] s (Txspec V ∅ Q ∅) → fs_sb t = sb → file_wf V sb A → map_wf V sb → (j < 128)%nat →
  fblock V A 140 ≠ 0 → room (Txspec V ∅ Q ∅) F k → bitmap_blocks sb ⊆ F → 1 ≤ k → baddr V A (12 + j) ≠ 0 ∨ (1 ≤ length (free_blocks V sb))%nat →
  ∃ s' V' Q' a, bmap_entry tx_dev (fblock V A 140) (Z.of_nat j) (s, t) = Ret a (s', t) ∧ tx x [] s' (Txspec V' ∅ Q' ∅) ∧
    bmapped V A Q (12 + j) V' A Q' a ∧ (length (free_blocks V sb) ≤ length (free_blocks V' sb) + 1)%nat ∧ Q ⊆ Q' ∧
    fblock V' A 140 = fblock V A 140 ∧ (baddr V A (12 + j) ≠ 0 → V' = V ∧ Q' = Q).
Proof using All.
  intros Hx Hsb Hwf Hmap Hj HI Hr HF Hk Hfree. destruct (decide (baddr V A (12 + j) = 0)) as [E0|E0].
  2: { destruct (bmap_entry_present x s t V Q F k A j) as (s1 & E1 & Hx1); try done. exists s1, V, Q, (baddr V A (12 + j)). split; [done|]. split; [done|].
    split; [by apply bmapped_refl|]. split; [lia|]. by split. }
  set (I := fblock V A 140) in *. assert (owns V A I) as Ho by (by apply owns_fblock).
  destruct (fw_data _ _ _ Hwf I Ho) as [HId HIu]. assert (∀ b, block_ok (V b)) as HV by (intros b; exact (tx_block x [] s _ b Hx)).
  unfold bmap_entry. destruct (bread_tx x s t (Txspec V ∅ Q ∅) F k I Hx) as (h & s1 & E1 & Hh & Hx1); [apply settled_nil|done|by apply home_data|simpl; by rewrite map_img_empty_L|].
  run E1. run (b_data_tx x [] s1 t _ h I Hx1 (lookup_insert_eq _ _ _)). cbn [tv tx_hold].
  replace (Z.to_nat (4 * Z.of_nat j)) with (4 * j)%nat by lia. change (ld32 (V I) (4 * j)) with (entry (V I) j).
  pose proof (entry_baddr V A j Hj HI) as Eb. fold I in Eb. rewrite (proj2 (Z.eqb_eq (entry (V I) j) 0)) by congruence.
  destruct (free_blocks V sb) as [|a rest] eqn:Ef; [destruct Hfree; simpl in *; [done|lia]|].
  destruct (balloc_first x s1 t V {[h := I]} Q F k a rest) as (Hd & Hu & s2 & E2 & Hx2); [by rewrite <- insert_empty|done..| |done|done|done|].
  { right. exists h, I. done. }
  erewrite bind_bind_Ret; [|exact E2]. set (V1 := bupd (mark V sb a) a zero_block) in *.
  assert (({[h := I]} : gmap nat Z) !! h = Some I) as Hhl by apply lookup_singleton_eq.
  erewrite bind_bind_Ret; [|exact (b_data_tx x [] s2 t _ h I Hx2 Hhl)]. cbn [tv].
  destruct (balloc_owned sb V A a Hly Hwf Hd Hu I Ho) as [EI HIa]. fold V1 in EI. rewrite EI.
  assert (room (Txspec V1 {[h := I]} ({[a; BBLOCK a sb]} ∪ Q) ∅) F (k - 1)) as Hr2.
  { pose proof (room_sub (Txspec V ∅ Q ∅) (Txspec V1 {[h := I]} ({[a; BBLOCK a sb]} ∪ Q) ∅) F k {[a]} Hr) as Hrs. rewrite size_singleton in Hrs. apply Hrs; [|lia]. simpl.
    assert (BBLOCK a sb ∈ bitmap_blocks sb) by (apply BBLOCK_in; [apply Hly|pose proof (data_range sb a Hly Hd); lia]). set_solver. }
  destruct (log_held x s2 t _ F (k - 1) h I (st32 (4 * j) a (V I)) Hx2) as (s3 & s4 & E3 & E4 & Hx4); [done|done|by apply home_data|done|by apply st32_ok|].
  run2 E3. run2 E4. next. cbn [tput tv th tl tr] in Hx4. rewrite <- insert_empty in Hx4.
  destruct (brelse_held x s4 t _ ∅ _ h I Hx4) as (s5 & E5 & Hx5); [done|]. run E5.
  pose proof (extends_entry sb V A a Hly HV Hwf Hd Hu j HI Hj ltac:(fold I; congruence)) as Hext. fold V1 I in Hext. set (V2 := bupd V1 I (st32 (4 * j) a (V I))) in *.
  exists s5, V2, ({[I]} ∪ ({[a; BBLOCK a sb]} ∪ Q)), a. split; [done|]. split; [done|].
  assert (is_uint a) as Hua. { pose proof (data_range sb a Hly Hd). destruct Hly as [[? ? ?] ?]. unfold is_uint. lia. }
  assert (fblock V2 A 140 = I) as EI2 by done.
  assert (baddr V2 A (12 + j) = a) as Eb2.
  { rewrite baddr_fblock, fblock_entry by lia. unfold ent. rewrite <- !(fblock_indirect V A). fold I. rewrite (proj2 (Z.eqb_neq _ _) HI).
    unfold V2. rewrite bupd_eq. replace (12 + j - 12)%nat with j by lia. rewrite entry_put by done. by rewrite decide_True. }
  assert (∀ c, 0 ≤ c < sb_size sb → used V2 sb c = used V sb c || (c =? a)) as Hused.
  { intros c Hc. unfold V2. rewrite used_other by (apply Hly || done || by apply data_not_bitmap). by apply balloc_used. }
  assert (BBLOCK a sb ∈ bitmap_blocks sb) as Hba by (apply BBLOCK_in; [apply Hly|pose proof (data_range sb a Hly Hd); lia]).
  assert (length rest = length (free_blocks V2 sb)) as El by (by rewrite (free_blocks_mark V V2 sb a rest (ly_bitmap _ Hly) Ef Hused)).
  split; [|cbn [length]; split; [lia|split; [set_solver|split; [done|congruence]]]].
  split; [done|split; [done|pose proof (data_range sb a Hly Hd); lia]| | | |rewrite Ef; simpl; lia].
  - intros _. unfold V2. rewrite bupd_ne by done. unfold V1. apply bupd_eq.
  - intros b Hb. rewrite Hused by done. intros [Hub _]%orb_false_iff. by apply Hmap.
  - rewrite EI2. set_solver.
Qed.

Lemma bmap_present x s t V Q F k i bn : tx x [] s (Txspec V ∅ Q ∅) → i_dev (ii t i) = tx_dev → file_wf V sb (i_addrs (ii t i)) →
  0 ≤ bn < MAXFILE → room (Txspec V ∅ Q ∅) F k → baddr V (i_addrs (ii t i)) (Z.to_nat bn) ≠ 0 →
  ∃ s', bmap i bn (s, t) = Ret (baddr V (i_addrs (ii t i)) (Z.to_nat bn)) (s', t) ∧ tx x [] s' (Txspec V ∅ Q ∅).
Proof using Hly Hhome.
  intros Hx Hdev Hwf Hbn Hr Hb. set (A := i_addrs (ii t i)) in *. set (n := Z.to_nat bn) in *.
  unfold MAXFILE, NDIRECT, NINDIRECT in Hbn. unfold bmap. next. rewrite Hdev. unfold NDIRECT, NINDIRECT.
  assert (∀ m, addr (ii t i) m = default 0 (A !! m)) as Eaddr by done.
  destruct (Z.ltb_spec bn 12) as [Hlt|Hge]; fold n; rewrite Eaddr.
  - assert (baddr V A n = default 0 (A !! n)) as Eb by (rewrite baddr_fblock, fblock_direct by lia; done). rewrite <- Eb.
    rewrite (proj2 (Z.eqb_neq _ _) Hb). by exists s.
  - rewrite (proj2 (Z.ltb_lt (bn - 12) 128)) by lia. rewrite <- (fblock_indirect V A).
    replace (bn - 12) with (Z.of_nat (n - 12)) by lia. assert (n = 12 + (n - 12))%nat as En by lia. set (j := (n - 12)%nat) in *. rewrite En in Hb |- *.
    rewrite (proj2 (Z.eqb_neq _ _) (baddr_entry V A j ltac:(lia) Hb)). next.
    destruct (bmap_entry_present x s t V Q F k A j) as (s1 & E1 & Hx1); try done; [lia|]. exists s1. split; [exact E1|done].
Qed.

Lemma bmap_ok x s t V Q F k i bn : tx x [] s (Txspec V ∅ Q ∅) → fs_sb t = sb → i_dev (ii t i) = tx_dev → file_wf V sb (i_addrs (ii t i)) → map_wf V sb →
  0 ≤ bn < MAXFILE → room (Txspec V ∅ Q ∅) F k → bitmap_blocks sb ⊆ F → 2 ≤ k →
  baddr V (i_addrs (ii t i)) (Z.to_nat bn) ≠ 0 ∨ (2 ≤ length (free_blocks V sb))%nat →
  ∃ s' t' V' Q' A' a, bmap i bn (s, t) = Ret a (s', t') ∧ tx x [] s' (Txspec V' ∅ Q' ∅) ∧ retyped t t' i A' ∧
    bmapped V (i_addrs (ii t i)) Q (Z.to_nat bn) V' A' Q' a ∧ Q ⊆ Q' ∧
    (baddr V (i_addrs (ii t i)) (Z.to_nat bn) ≠ 0 → V' = V ∧ Q' = Q ∧ A' = i_addrs (ii t i)).
Proof using All.
  intros Hx Hsb Hdev Hwf Hmap Hbn Hr HF Hk Hfree. set (A := i_addrs (ii t i)) in *. set (n := Z.to_nat bn) in *.
  assert (∀ b, block_ok (V b)) as HV by (intros b; exact (tx_block x [] s _ b Hx)). pose proof (fw_len _ _ _ Hwf) as Hlen.
  unfold MAXFILE, NDIRECT, NINDIRECT in Hbn. unfold bmap. next. rewrite Hdev. unfold NDIRECT, NINDIRECT.
  assert (∀ m, addr (ii t i) m = default 0 (A !! m)) as Eaddr by done.
  destruct (Z.ltb_spec bn 12) as [Hlt|Hge]; fold n; rewrite Eaddr.
  - assert (baddr V A n = default 0 (A !! n)) as Eb by (rewrite baddr_fblock, fblock_direct by lia; done). rewrite <- Eb.
    destruct (Z.eqb_spec (baddr V A n) 0) as [E0|E0].
    + destruct (free_blocks V sb) as [|a rest] eqn:Ef; [destruct Hfree; simpl in *; [done|lia]|].
      destruct (balloc_first x s t V ∅ Q F k a rest) as (Hd & Hu & s1 & E1 & Hx1); try done; [by left|lia|]. run E1. next.
      set (V1 := bupd (mark V sb a) a zero_block) in *.
      assert (∀ c, 0 ≤ c < sb_size sb → used V1 sb c = used V sb c || (c =? a)) as Hused by (intros c Hc; by apply balloc_used).
      assert (BBLOCK a sb ∈ bitmap_blocks sb) as Hba by (apply BBLOCK_in; [apply Hly|pose proof (data_range sb a Hly Hd); lia]).
      assert (baddr V1 (<[n := a]> A) n = a) as Ea by (rewrite baddr_fblock, fblock_direct by lia; by rewrite list_lookup_insert_eq by lia).
      eexists s1, _, V1, _, (<[n := a]> A), a. split; [done|]. split; [exact Hx1|]. split; [split; [done|by rewrite ii_upd_eq|intros j Hj; by rewrite ii_upd_ne]|].
      split; [|split; [set_solver|done]]. split.
      * apply extends_direct; try done; [lia|]. by rewrite <- baddr_fblock by lia.
      * split; [done|pose proof (data_range sb a Hly Hd); lia].
      * intros _. apply bupd_eq.
      * by apply map_wf_balloc.
      * set_solver.
      * rewrite (free_blocks_mark V V1 sb a rest (ly_bitmap _ Hly) Ef Hused), Ef. simpl. lia.
    + eexists s, t, V, Q, A, _. split; [done|]. split; [done|]. split; [apply retyped_refl|]. split; [by apply bmapped_refl|done].
  - rewrite (proj2 (Z.ltb_lt (bn - 12) 128)) by lia. pose proof (fblock_indirect V A) as EI. rewrite <- EI.
    replace (bn - 12) with (Z.of_nat (n - 12)) by lia. assert (n = 12 + (n - 12))%nat as En by lia. set (j := (n - 12)%nat) in *.
    assert ((j < 128)%nat) as Hj by lia. change (bind (bread_ _ _) _) with (bmap_entry tx_dev (fblock V A 140) (Z.of_nat j)) || idtac.
    destruct (Z.eqb_spec (fblock V A 140) 0) as [E0|E0].
    + assert (baddr V A n = 0) as Eb0. { rewrite baddr_fblock, fblock_entry by lia. unfold ent. by rewrite <- EI, E0. }
      destruct (free_blocks V sb) as [|I rest] eqn:Ef; [destruct Hfree; simpl in *; [done|lia]|].
      destruct (balloc_first x s t V ∅ Q F k I rest) as (Hd & Hu & s1 & E1 & Hx1); try done; [by left|lia|]. run2 E1.
      erewrite bind_bind_Ret; [|reflexivity]. next. set (V1 := bupd (mark V sb I) I zero_block) in *.
      assert (∀ c, 0 ≤ c < sb_size sb → used V1 sb c = used V sb c || (c =? I)) as Hused by (intros c Hc; by apply balloc_used).
      assert (BBLOCK I sb ∈ bitmap_blocks sb) as Hba by (apply BBLOCK_in; [apply Hly|pose proof (data_range sb I Hly Hd); lia]).
      pose proof (extends_indirect sb V A I Hly HV Hwf Hd Hu E0) as Hext. fold V1 in Hext. set (A1 := <[12%nat := I]> A) in *.
      assert (fblock V1 A1 140 = I) as EI1 by (rewrite fblock_indirect; unfold A1; by rewrite list_lookup_insert_eq by lia).
      pose proof (free_blocks_mark V V1 sb I rest (ly_bitmap _ Hly) Ef Hused) as Efr. pose proof (data_range sb I Hly Hd) as HIr.
      set (t1 := upd_inode i _ t). assert (retyped t t1 i A1) as Ht1 by (split; [done|unfold t1; by rewrite ii_upd_eq|intros j' Hj'; unfold t1; by rewrite ii_upd_ne]).
      assert (baddr V1 A1 (12 + j) = 0) as Eb1.
      { rewrite baddr_fblock, fblock_entry by lia. unfold ent. rewrite <- !(fblock_indirect V1 A1), EI1. rewrite (proj2 (Z.eqb_neq _ _)) by lia.
        unfold V1. rewrite bupd_eq. apply entry_zero. lia. }
      destruct (bmap_entry_ok x s1 t1 V1 ({[I; BBLOCK I sb]} ∪ Q) F (k - 1) A1 j Hx1) as (s2 & V2 & Q2 & a & E2 & Hx2 & Hb2 & Hf2 & Hq2 & EI2 & _);
        [by rewrite (rt_sb _ _ _ _ Ht1)|apply Hext|by apply map_wf_balloc|done|lia| |done|lia| |].
      { pose proof (room_sub (Txspec V ∅ Q ∅) (Txspec V1 ∅ ({[I; BBLOCK I sb]} ∪ Q) ∅) F k {[I]} Hr) as Hrs. rewrite size_singleton in Hrs. apply Hrs; [simpl; set_solver|lia]. }
      { right. rewrite Efr. destruct Hfree as [?|Hfree]; [done|]. simpl in Hfree. lia. }
      rewrite EI1 in E2, EI2. exists s2, t1, V2, Q2, A1, a. split; [exact E2|]. split; [done|]. split; [done|]. rewrite <- En in Hb2.
      split; [|split; [set_solver|done]]. destruct Hb2 as [C1 C2 C3 C4 C5 C6]. split; try done.
      * eapply extends_trans; [done|exact Hext|exact C1].
      * intros _. apply C3. by rewrite En.
      * rewrite EI2 in *. set_solver.
      * rewrite Ef. rewrite Efr in Hf2. simpl. lia.
    + next. destruct (bmap_entry_ok x s t V Q F k A j Hx Hsb Hwf Hmap Hj E0 Hr HF) as (s1 & V1 & Q1 & a & E1 & Hx1 & Hb1 & Hf1 & Hq1 & EI1 & Hsame); [lia| |].
      { rewrite <- En. destruct Hfree; [by left|right; lia]. }
      rewrite <- En in *. exists s1, t, V1, Q1, A, a. split; [exact E1|]. split; [done|]. split; [apply retyped_refl|]. split; [done|]. split; [done|].
      intros Hz. by destruct (Hsame Hz).
Qed.
End files.
