(* ===== verification/Image.v ===== *)
(** * A small disk

    A disk as mkfs lays it out, with a root directory and one file, and the
    kernel of the examples inside a transaction on it.  The theorems on the file
    system are applied to it. *)
From stdpp Require Import base list gmap strings.
From Stdlib Require Import ZArith Lia.
From S2P Require Import Prelude Mmu Spinlock CpuLocks Proc RunQueue Sched Machine Kernel Sleeplock Block Bio Log Trans Tx Fs Balloc Files.
#[local] Open Scope Z_scope.

(** 48 blocks: boot block, super block, log, inodes, free map, data. *)
Definition img_sb : superblock := Superblock 48 13 8 30 2 32 34.
Definition encode_sb (sb : superblock) : block :=
  st32 24 (sb_bmapstart sb) (st32 20 (sb_inodestart sb) (st32 16 (sb_logstart sb) (st32 12 (sb_nlog sb) (st32 8 (sb_ninodes sb) (st32 4 (sb_nblocks sb) (st32 0 (sb_size sb) zero_block)))))).
(** Inode 1 is the root directory, inode 2 a file of five bytes. *)
Definition img_root : dinode := Dinode T_DIR 0 0 1 48 (36 :: replicate 12 0).
Definition img_file : dinode := Dinode T_FILE 0 0 1 5 (35 :: replicate 12 0).
Definition dirent_bytes (inum : Z) (name : list Z) : list Z := st16 0 inum ([0; 0] ++ strncpy_bytes 14 name).
Definition img_blocks : list (Z * block) :=
  [(1, encode_sb img_sb);
   (32, put_dinode img_file 128 (put_dinode img_root 64 zero_block));
   (34, replicate 4 255 ++ [31] ++ replicate 507 0);
   (35, [104; 101; 108; 108; 111] ++ replicate 507 0);
   (36, dirent_bytes 1 [46] ++ dirent_bytes 1 [46; 46] ++ dirent_bytes 2 [97] ++ replicate 464 0)].
Definition img : gmap Z block := list_to_map (img_blocks ++ ((λ b, (Z.of_nat b, zero_block)) <$> seq 0 48)).
Definition imgV (b : Z) : block := default zero_block (img !! b).

Lemma img_all b : 0 ≤ b < 48 → ∃ d, img !! b = Some d.
Proof.
  intros H. assert (forallb (λ b, if img !! b is Some _ then true else false) (Z.of_nat <$> seq 0 48) = true) as Ha by (vm_compute; reflexivity).
  rewrite forallb_forall in Ha. specialize (Ha b). destruct (img !! b) as [d|]; [by exists d|]. exfalso. assert (false = true); [|done]. apply Ha.
  apply list_elem_of_In, list_elem_of_fmap. exists (Z.to_nat b). rewrite elem_of_seq. lia.
Qed.
Definition block_okb (d : block) : bool := (length d =? 512)%nat && forallb (λ v, (0 <=? v) && (v <? 256)) d.
Lemma block_okb_ok d : block_okb d = true → block_ok d.
Proof.
  unfold block_okb, block_ok, bytes_ok. rewrite andb_true_iff, Nat.eqb_eq, forallb_forall. intros [Hl Hf]. split; [done|]. apply Forall_forall. intros v Hv.
  apply list_elem_of_In, Hf in Hv. unfold is_uchar. lia.
Qed.
Lemma img_ok b d : img !! b = Some d → block_ok d.
Proof.
  intros H%elem_of_list_to_map_2. apply block_okb_ok. apply elem_of_app in H as [H|H].
  - assert (Forall (λ e, block_okb e.2 = true) img_blocks) as Ha by (vm_compute; repeat constructor). rewrite Forall_forall in Ha. by apply (Ha (b, d)).
  - apply list_elem_of_fmap in H as (i & [= -> ->] & _). by vm_compute.
Qed.

#[local] Existing Instance bio_LockOps.
#[local] Existing Instance bio_ProcOps.
Definition img_laws : BlockLaws (kproc * bio) :=
  @bio_BlockLaws kproc _ _ 2 (λ _, 2) (λ _, 11) 1%nat 48 (kproc_ProcLaws ex_D ex_ptable) ex_lock2 (λ _ _, ex_lock2) ltac:(lia).
#[export] Instance img_BlockOps : BlockOps (kproc * bio * log) := @log_BlockOps (kproc * bio) ex_ops.
#[export] Instance img_LogOps : LogOps (kproc * bio * log) := @log_LogOps (kproc * bio) _ ex_ops 2.

Lemma img_log_ok : @log_ok _ _ _ ex_ops img_laws mkfs_log.
Proof. split; simpl; unfold LOGSIZE, MAXOPBLOCKS; try lia. intros b Hb. split; simpl; [done|lia]. Qed.
#[export] Instance img_TxLaws : @TxLaws (kproc * bio * log) _ _ img_BlockOps img_LogOps :=
  @log_TxLaws (kproc * bio) _ _ ex_ops 2 img_laws ex_lock2 mkfs_log (disk_of (Bio ∅ img 0 [])) img_log_ok.

Lemma img_home b : 1 ≤ b < 48 → b < 2 ∨ 32 ≤ b → tx_home (TxLaws := img_TxLaws) b.
Proof.
  intros H1 H2. split; [unfold is_uint; lia|]. split; [split; simpl; [done|lia]|]. intros [_ H]. simpl in H. unfold LOGSIZE, MAXOPBLOCKS in H. lia.
Qed.

(** The first [begin_op] after boot. *)
Lemma img_tx : ∃ s, tx (TxLaws := img_TxLaws) (3%nat, 7) [] s (Txspec imgV ∅ ∅ ∅).
Proof.
  destruct (@boot_client kproc _ _ 2 (λ _, 2) (λ _, 11) 1%nat 48 (kproc_ProcLaws ex_D ex_ptable) ex_lock2 (λ _ _, ex_lock2) ltac:(lia)
    (3%nat, 7) ex_k img [] (boot_store img) [] ex_runs img_all img_ok eq_refl) as (s & ρ & _ & σ & Hr & E1 & E2 & E3 & E4 & Hc).
  assert (bs_held σ = ∅) as Hh.
  { apply map_eq. intros h. rewrite lookup_empty. destruct (bs_held σ !! h) as [key|] eqn:E; [|done]. apply Hc in E.
    apply elem_of_dom_2 in E. rewrite <- E4 in E. set_solver. }
  destruct (@tx_begin _ _ _ ex_ops img_laws 2 12 (3%nat, 7) 1 s mkfs_log σ ex_lock2 Hr) as (s' & _ & Hx).
  { split; try done; [apply img_log_ok|]. rewrite E1. by vm_compute. }
  rewrite E1 in Hx. eexists. eapply tx_ext; [exact Hx|]. intros b. done.
Qed.

(** ** The file of the image in memory *)
Lemma fblock_single V a n : (n ≤ 140)%nat → fblock V (a :: replicate 12 0) n = if decide (n = 0%nat) then a else 0.
Proof.
  intros Hn. destruct (fblock_cases n Hn) as [Hc|[Hc| ->]].
  - rewrite fblock_direct by done. destruct n as [|n]; [done|]. rewrite decide_False by done. do 11 (destruct n as [|n]; [done|]). lia.
  - rewrite fblock_entry by done. rewrite decide_False by lia. done.
  - done.
Qed.
Lemma single_wf V sb a : data_block sb a → used V sb a = true → file_wf V sb (a :: replicate 12 0).
Proof.
  intros Hd Hu. split; [done| |].
  - intros b [Hb (n & Hn & E)]. rewrite fblock_single in E by done. case_decide; [by subst|done].
  - intros n m Hn Hm. rewrite !fblock_single by done. repeat case_decide; congruence.
Qed.
Lemma img_layout : layout img_sb.
Proof. split; [split; simpl|simpl]; unfold IPB, BPB, BSIZE; (split_and! || idtac); vm_compute; done. Qed.
Lemma img_wf a : 35 ≤ a ≤ 36 → file_wf imgV img_sb (a :: replicate 12 0).
Proof. intros Ha. apply single_wf; [unfold data_block, data_start; simpl; unfold BPB, BSIZE; change (48 / (512 * 8)) with 0; lia|]. assert (a = 35 ∨ a = 36) as [-> | ->] by lia; by vm_compute. Qed.
Lemma img_used b : 0 ≤ b < 35 → used imgV img_sb b = true.
Proof.
  intros Hb. assert (forallb (used imgV img_sb) (Z.of_nat <$> seq 0 35) = true) as Ha by (vm_compute; reflexivity).
  rewrite forallb_forall in Ha. apply Ha. clear Ha. apply list_elem_of_In, list_elem_of_fmap. exists (Z.to_nat b). rewrite elem_of_seq. lia.
Qed.
Lemma img_map : map_wf imgV img_sb.
Proof.
  intros b Hb Hu. assert (¬ b < 35) as Hge by (intros Hlt; rewrite img_used in Hu; [done|clear Hu; lia]). clear Hu. split; [|apply Hb].
  unfold data_start, BPB, BSIZE. simpl. change (48 / (512 * 8)) with 0. lia.
Qed.
Lemma img_home_range b : sb_inodestart img_sb ≤ b < sb_size img_sb → tx_home (TxLaws := img_TxLaws) b.
Proof. simpl. intros H. apply img_home; lia. Qed.
Lemma img_bm : sb_bmapstart img_sb + sb_size img_sb / BPB < sb_size img_sb.
Proof. done. Qed.

(** The inode cache with the file in entry 0 and the root in entry 1. *)
Definition img_ip : inode := set_disk_part img_file (Inode 1 2 1 (Sleeplock true "inode" 7) true 0 0 0 0 0 []).
Definition img_dp : inode := set_disk_part img_root (Inode 1 1 1 (Sleeplock true "inode" 7) true 0 0 0 0 0 []).
Definition img_fs : fs := Fs img_sb {[0%nat := img_ip; 1%nat := img_dp]}.
