(* ===== verification/Content.v ===== *)
(** * The contents of files (fs.c: readi, writei, iupdate, itrunc)

    [readi] returns the bytes of a file and [writei] replaces them; a file has
    no holes below its size, and the inode on disk agrees with the one in
    memory after each.  [itrunc] frees the blocks of the file and no others. *)
From stdpp Require Import base list gmap strings.
From Stdlib Require Import ZArith Lia Permutation.
From S2P Require Import Prelude Mmu Spinlock CpuLocks Proc RunQueue Sched Machine Kernel Sleeplock Block Bio Log Trans Tx Fs Balloc Files Image.
#[local] Open Scope Z_scope.

(** ** Bytes *)
Definition blk (k : Z) : nat := Z.to_nat (k / BSIZE).
(** Blocks that the bytes [off..off+m) lie in. *)
Definition span (off m : Z) : Z := if m <=? 0 then 0 else (off + m - 1) / BSIZE - off / BSIZE + 1.
(** How far a turn of the loops goes. *)
Definition chunk (off m : Z) : Z := Z.min m (BSIZE - off mod BSIZE).

Lemma chunk_pos off m : 0 < m → 0 < chunk off m ≤ m ∧ off mod BSIZE + chunk off m ≤ BSIZE.
Proof. intros H. unfold chunk, BSIZE. Z.to_euclidean_division_equations. lia. Qed.
Lemma span_step off m : 0 ≤ off → 0 < m → span off m = 1 + span (off + chunk off m) (m - chunk off m).
Proof.
  intros Ho Hm. unfold span, chunk, BSIZE. rewrite (proj2 (Z.leb_gt m 0)) by lia. destruct (Z.leb_spec (m - Z.min m (512 - off mod 512)) 0) as [H|H];
    Z.to_euclidean_division_equations; lia.
Qed.
Lemma span_pos off m : 0 ≤ off → 0 ≤ span off m.
Proof. intros Ho. unfold span, BSIZE. destruct (Z.leb_spec m 0); [lia|]. Z.to_euclidean_division_equations. lia. Qed.
Lemma in_chunk off m k : 0 ≤ off → 0 < m → off ≤ k < off + chunk off m → k / BSIZE = off / BSIZE ∧ k mod BSIZE = off mod BSIZE + (k - off).
Proof. intros Ho Hm. unfold chunk, BSIZE. intros Hk. Z.to_euclidean_division_equations. lia. Qed.
Lemma past_chunk off m k : 0 ≤ off → 0 < m → 0 ≤ k → k / BSIZE = off / BSIZE → k < off ∨ off + chunk off m ≤ k →
  k mod BSIZE < off mod BSIZE ∨ off mod BSIZE + chunk off m ≤ k mod BSIZE.
Proof. intros Ho Hm. unfold chunk, BSIZE. intros Hk. Z.to_euclidean_division_equations. lia. Qed.

Lemma blk_range k : 0 ≤ k < MAXFILE * BSIZE → 0 ≤ k / BSIZE < MAXFILE ∧ (blk k < 140)%nat.
Proof. unfold blk, MAXFILE, NDIRECT, NINDIRECT, BSIZE. intros H. Z.to_euclidean_division_equations. lia. Qed.

Lemma ld8_slice d o m i : (o + m ≤ length d)%nat → (i < m)%nat → take m (drop o d) !! i = Some (ld8 d (o + i)).
Proof. intros H Hi. rewrite lookup_take_lt by done. rewrite lookup_drop. unfold ld8. destruct (d !! (o + i)%nat) eqn:E; [done|]. apply lookup_ge_None in E. lia. Qed.

Lemma file_slice V A off m : (∀ b, block_ok (V b)) → 0 ≤ off → 0 < m →
  take (Z.to_nat (chunk off m)) (drop (Z.to_nat (off mod BSIZE)) (V (baddr V A (blk off)))) = fbyte V A <$> seqZ off (chunk off m).
Proof.
  intros HV Ho Hm. destruct (chunk_pos off m Hm) as [Hc1 Hc2]. destruct (HV (baddr V A (blk off))) as [Hl _].
  assert (0 ≤ off mod BSIZE) as H0 by (unfold BSIZE; Z.to_euclidean_division_equations; lia). unfold BSIZE in Hc2, H0 |- *.
  apply list_eq. intros i. rewrite list_lookup_fmap. destruct (decide (i < Z.to_nat (chunk off m))%nat) as [Hi|Hi].
  - rewrite ld8_slice by lia. rewrite lookup_seqZ_lt by lia. simpl. f_equal. unfold fbyte.
    destruct (in_chunk off m (off + Z.of_nat i)) as [E1 E2]; [done|done|lia|]. rewrite E1, E2. unfold blk. f_equal. unfold BSIZE. lia.
  - rewrite lookup_ge_None_2 by (rewrite length_take; lia). by rewrite lookup_seqZ_ge by lia.
Qed.

Lemma put_bytes_length o src d : (o + length src ≤ length d)%nat → length (put_bytes o src d) = length d.
Proof. intros H. unfold put_bytes. rewrite !length_app, length_take, length_drop. lia. Qed.
Lemma put_bytes_ok o src d : (o + length src ≤ 512)%nat → bytes_ok src → block_ok d → block_ok (put_bytes o src d).
Proof.
  intros H Hs [Hl Hd]. split; [rewrite put_bytes_length; lia|]. unfold put_bytes, bytes_ok in *. rewrite !Forall_app. split_and!; [by apply Forall_take|done|by apply Forall_drop].
Qed.
Lemma ld8_put o src d i : (o + length src ≤ length d)%nat → ld8 (put_bytes o src d) i = if decide (o ≤ i < o + length src)%nat then default 0 (src !! (i - o)%nat) else ld8 d i.
Proof.
  intros H. unfold ld8, put_bytes. case_decide as Hi.
  - rewrite lookup_app_r by (rewrite length_take; lia). rewrite length_take, lookup_app_l by lia. do 2 f_equal. lia.
  - destruct (decide (i < o)%nat) as [Hlt|Hge]; [rewrite lookup_app_l by (rewrite length_take; lia); by rewrite lookup_take_lt|].
    rewrite lookup_app_r by (rewrite length_take; lia). rewrite lookup_app_r by (rewrite length_take; lia). rewrite lookup_drop, length_take. do 2 f_equal. lia.
Qed.

(** The bytes of a file. *)
Definition content (V : Z → block) (ip : inode) : list Z := fbyte V (i_addrs ip) <$> seqZ 0 (i_size ip).

Lemma lookup_put_bytes o src d i : (o ≤ length d)%nat →
  put_bytes o src d !! i = if decide (o ≤ i < o + length src)%nat then src !! (i - o)%nat else d !! i.
Proof.
  intros H. unfold put_bytes. case_decide as Hi.
  - rewrite lookup_app_r by (rewrite length_take; lia). rewrite length_take, lookup_app_l by lia. f_equal. lia.
  - destruct (decide (i < o)%nat) as [Hlt|Hge]; [rewrite lookup_app_l by (rewrite length_take; lia); by rewrite lookup_take_lt|].
    rewrite lookup_app_r by (rewrite length_take; lia). rewrite lookup_app_r by (rewrite length_take; lia). rewrite lookup_drop, length_take. f_equal. lia.
Qed.
Lemma lookup_content V ip i : content V ip !! i = if decide (Z.of_nat i < i_size ip) then Some (fbyte V (i_addrs ip) (Z.of_nat i)) else None.
Proof.
  unfold content. rewrite list_lookup_fmap. case_decide; [rewrite lookup_seqZ_lt by lia; simpl; do 2 f_equal; lia|by rewrite lookup_seqZ_ge by lia].
Qed.

(** ** Changing a block of the file *)
Section put.
Variables (sb : superblock) (V : Z → block) (A : list Z) (n : nat) (d : block).
Hypothesis Hly : layout sb.
Hypothesis Hwf : file_wf V sb A.
Hypothesis Hn : (n < 140)%nat.
Hypothesis Hb : baddr V A n ≠ 0.
Let V' := bupd V (baddr V A n) d.

Lemma put_data : data_block sb (baddr V A n) ∧ used V sb (baddr V A n) = true.
Proof using Hwf Hn Hb. apply (fw_data _ _ _ Hwf). rewrite baddr_fblock in * by done. apply owns_fblock; [lia|done]. Qed.
Lemma put_fblock m : fblock V' A m = fblock V A m.
Proof using Hwf Hn Hb.
  unfold fblock, baddr. destruct (m =? 140)%nat; [done|]. destruct (m <? 12)%nat; [done|]. destruct (m <? 140)%nat; [|done].
  unfold ent. destruct (Z.eqb_spec (default 0 (A !! 12%nat)) 0) as [E|E]; [done|]. unfold V'. rewrite bupd_ne; [done|].
  intros E2. rewrite baddr_fblock in E2 by done. change (default 0 (A !! 12%nat)) with (fblock V A 140) in E, E2.
  assert (n = 140%nat); [|lia]. apply (fw_inj _ _ _ Hwf); [lia|lia|done|by rewrite E2].
Qed.
Lemma put_baddr m : baddr V' A m = baddr V A m.
Proof using Hwf Hn Hb.
  destruct (decide (m < 140)%nat); [by rewrite !baddr_fblock, put_fblock by done|]. unfold baddr.
  by rewrite !(proj2 (Nat.ltb_ge _ _)) by lia.
Qed.
Lemma put_owns b : owns V' A b ↔ owns V A b.
Proof using Hwf Hn Hb. unfold owns. split; intros [H1 (m & H2 & H3)]; (split; [done|]); exists m; (split; [done|]); by rewrite put_fblock in *. Qed.
Lemma put_used c : 0 ≤ c < sb_size sb → used V' sb c = used V sb c.
Proof using Hly Hwf Hn Hb. intros Hc. unfold V'. apply used_other; [apply Hly|done|]. apply data_not_bitmap; [done|]. apply put_data. Qed.

Lemma put_grows : grows sb V A V' A.
Proof using Hly Hwf Hn Hb.
  assert (∀ b, owns V A b → used V' sb b = true) as Hu.
  { intros b Ho. destruct (fw_data _ _ _ Hwf b Ho) as [H1 H2]. pose proof (data_range sb b Hly H1). by rewrite put_used by lia. }
  split.
  - split; [apply Hwf| |].
    + intros b Ho%put_owns. split; [by apply (fw_data _ _ _ Hwf)|by apply Hu].
    + intros m1 m2 H1 H2. rewrite !put_fblock. by apply (fw_inj _ _ _ Hwf).
  - intros m _ _. apply put_fblock.
  - intros c Hc. rewrite put_used, put_owns by done. split; [by left|]. intros [?|Ho]; [done|]. by apply (fw_data _ _ _ Hwf).
  - intros b Ho%put_owns. by left.
  - intros b _ Ho. unfold V'. apply bupd_ne. intros <-. apply Ho, put_owns. rewrite baddr_fblock in * by done. apply owns_fblock; [lia|done].
Qed.
Lemma put_fbyte k : 0 ≤ k < MAXFILE * BSIZE → baddr V A (blk k) ≠ 0 → fbyte V' A k = if decide (blk k = n) then ld8 d (Z.to_nat (k mod BSIZE)) else fbyte V A k.
Proof using Hwf Hn Hb.
  intros Hk H0. unfold fbyte. fold (blk k). rewrite put_baddr. unfold V'. assert (blk k < 140)%nat as Hbk.
  { unfold blk, MAXFILE, NDIRECT, NINDIRECT, BSIZE in *. Z.to_euclidean_division_equations. lia. }
  case_decide as E; [by rewrite <- E, bupd_eq|]. rewrite bupd_ne; [done|]. rewrite !baddr_fblock in * by done. intros E2. apply E. symmetry.
  apply (fw_inj _ _ _ Hwf); [lia|lia|done|done].
Qed.
End put.

(** ** Changing other blocks *)
Lemma same_fblock V V' A n : (∀ b, owns V A b → V' b = V b) → fblock V' A n = fblock V A n.
Proof.
  intros H. unfold fblock, baddr. destruct (n =? 140)%nat; [done|]. destruct (n <? 12)%nat; [done|]. destruct (n <? 140)%nat; [|done].
  unfold ent. destruct (Z.eqb_spec (default 0 (A !! 12%nat)) 0) as [E|E]; [done|]. rewrite H; [done|]. by apply (owns_fblock V A 140).
Qed.
Lemma same_baddr V V' A n : (∀ b, owns V A b → V' b = V b) → baddr V' A n = baddr V A n.
Proof.
  intros H. destruct (decide (n < 140)%nat); [rewrite !baddr_fblock by done; by apply same_fblock|]. unfold baddr. by rewrite !(proj2 (Nat.ltb_ge _ _)) by lia.
Qed.
Lemma same_owns V V' A b : (∀ b, owns V A b → V' b = V b) → owns V' A b ↔ owns V A b.
Proof. intros H. unfold owns. split; intros [H1 (n & H2 & H3)]; (split; [done|]); exists n; (split; [done|]); [by rewrite <- (same_fblock V V') |by rewrite (same_fblock V V')]. Qed.
Lemma same_fbyte V V' A k : (∀ b, owns V A b → V' b = V b) → 0 ≤ k < MAXFILE * BSIZE → baddr V A (blk k) ≠ 0 → fbyte V' A k = fbyte V A k.
Proof.
  intros H Hk H0. destruct (blk_range k Hk) as [_ Hb]. unfold fbyte. fold (blk k). rewrite (same_baddr V V') by done. rewrite H; [done|].
  rewrite baddr_fblock in * by done. apply owns_fblock; [lia|done].
Qed.
Lemma same_wf sb V V' A : layout sb → (∀ b, owns V A b → V' b = V b ∧ used V' sb b = true) → file_wf V sb A → file_wf V' sb A.
Proof.
  intros Hly H [W1 W2 W3]. assert (∀ b, owns V A b → V' b = V b) as H1 by (intros b Hb; by apply H). split; [done| |].
  - intros b Ho%(same_owns V V'); [|done]. split; [by apply W2|by apply H].
  - intros n m Hn Hm. rewrite !(same_fblock V V') by done. by apply W3.
Qed.
(** Files with blocks of their own. *)
Definition apart V (A A2 : list Z) : Prop := ∀ b, owns V A b → ¬ owns V A2 b.
Lemma grows_other sb V A V' A' A2 : layout sb → grows sb V A V' A' → file_wf V sb A2 → apart V A A2 →
  file_wf V' sb A2 ∧ apart V' A' A2 ∧ ∀ b, owns V A2 b → V' b = V b.
Proof.
  intros Hly G Hwf Hap. assert (∀ b, owns V A2 b → ¬ owns V' A' b) as Hno.
  { intros b Hb Hb'. destruct (gr_new _ _ _ _ _ G b Hb') as [Ho|Hu]; [by apply (Hap b)|]. destruct (fw_data _ _ _ Hwf b Hb). congruence. }
  assert (∀ b, owns V A2 b → V' b = V b) as Hs.
  { intros b Hb. apply (gr_frame _ _ _ _ _ G); [|by apply Hno]. apply data_not_bitmap; [done|]. by apply (fw_data _ _ _ Hwf). }
  split; [|split; [|done]].
  - apply (same_wf sb V); [done| |done]. intros b Hb. split; [by apply Hs|]. destruct (fw_data _ _ _ Hwf b Hb) as [Hd Hu]. pose proof (data_range sb b Hly Hd).
    apply (gr_used _ _ _ _ _ G); [lia|by left].
  - intros b Hb Hb2%(same_owns V V'); [|done]. by apply (Hno b).
Qed.
Lemma content_ext V V' ip ip' : i_size ip = i_size ip' → (∀ k, 0 ≤ k < i_size ip → fbyte V' (i_addrs ip') k = fbyte V (i_addrs ip) k) → content V' ip' = content V ip.
Proof. intros Es H. unfold content. rewrite <- Es. apply list_fmap_ext. intros j k Hk. apply H. apply lookup_seqZ in Hk. lia. Qed.

(** A change to a block of inodes. *)
Section iblock.
Variables (sb : superblock) (inum : Z) (V : Z → block) (d : block).
Hypothesis Hly : layout sb.
Hypothesis Hi : 0 ≤ inum < sb_ninodes sb.
Let V' := bupd V (IBLOCK inum sb) d.

Lemma iblock_used c : 0 ≤ c < sb_size sb → used V' sb c = used V sb c.
Proof using Hly Hi. intros Hc. unfold V'. apply used_other; [apply Hly|done|by apply IBLOCK_not_bitmap]. Qed.
Lemma iblock_same A b : file_wf V sb A → owns V A b → V' b = V b.
Proof using Hly Hi. intros Hwf Hb. unfold V'. apply bupd_ne. apply IBLOCK_not_data; [done|done|]. by apply (fw_data _ _ _ Hwf). Qed.
Lemma iblock_wf A : file_wf V sb A → file_wf V' sb A.
Proof using Hly Hi.
  intros Hwf. apply (same_wf sb V); [done| |done]. intros b Hb. split; [by eapply iblock_same|]. destruct (fw_data _ _ _ Hwf b Hb) as [Hd Hu].
  pose proof (data_range sb b Hly Hd). by rewrite iblock_used by lia.
Qed.
Lemma iblock_map : map_wf V sb → map_wf V' sb.
Proof using Hly Hi. intros Hm b Hb. rewrite iblock_used by done. by apply Hm. Qed.
Lemma iblock_content ip : file_wf V sb (i_addrs ip) → i_size ip ≤ MAXFILE * BSIZE → (∀ k, 0 ≤ k < i_size ip → baddr V (i_addrs ip) (blk k) ≠ 0) → content V' ip = content V ip.
Proof using Hly Hi.
  intros Hwf Hs Hm. apply content_ext; [done|]. intros k Hk. apply same_fbyte; [|lia|by apply Hm]. intros b. by apply iblock_same.
Qed.
End iblock.

(** ** Writing bytes *)
Section wrote.
Variable sb : superblock.
Hypothesis Hly : layout sb.
Implicit Types (V : Z → block) (A : list Z).
(** The bytes [src] at [off], with [N] data and indirect blocks logged. *)
Record wrote V A (Q : gset Z) (off : Z) (src : list Z) V' A' (Q' : gset Z) (N : Z) : Prop := {
  wr_grows : grows sb V A V' A';
  wr_map : map_wf V' sb;
  wr_new k : off ≤ k < off + Z.of_nat (length src) → baddr V' A' (blk k) ≠ 0 ∧ fbyte V' A' k = default 0 (src !! Z.to_nat (k - off));
  wr_old k : 0 ≤ k < MAXFILE * BSIZE → k < off ∨ off + Z.of_nat (length src) ≤ k → baddr V A (blk k) ≠ 0 → fbyte V' A' k = fbyte V A k;
  wr_log : ∃ X : gset Z, Q' ⊆ X ∪ (Q ∪ bitmap_blocks sb) ∧ Z.of_nat (size X) ≤ N;
  wr_same : (∀ k, off ≤ k < off + Z.of_nat (length src) → baddr V A (blk k) ≠ 0) → A' = A;
  wr_free : Z.of_nat (length (free_blocks V sb)) ≤ Z.of_nat (length (free_blocks V' sb)) + N }.

Lemma wrote_nil V A Q off : file_wf V sb A → map_wf V sb → wrote V A Q off [] V A Q 0.
Proof using Hly. intros Hwf Hm. split; try done; [by apply grows_refl|intros k Hk; simpl in Hk; lia|exists ∅; rewrite size_empty; set_solver|lia]. Qed.

Lemma wrote_app V1 A1 Q1 off src1 V2 A2 Q2 N1 src2 V3 A3 Q3 N2 : 0 ≤ off → off + Z.of_nat (length src1 + length src2) ≤ MAXFILE * BSIZE →
  wrote V1 A1 Q1 off src1 V2 A2 Q2 N1 → wrote V2 A2 Q2 (off + Z.of_nat (length src1)) src2 V3 A3 Q3 N2 → wrote V1 A1 Q1 off (src1 ++ src2) V3 A3 Q3 (N1 + N2).
Proof using Hly.
  intros Ho Hmax [B1 B2 B3 B4 (X & B5 & B5') B6 B7] [C1 C2 C3 C4 (Y & C5 & C5') C6 C7]. split; rewrite ?length_app.
  - by eapply grows_trans.
  - done.
  - intros k Hk. destruct (decide (k < off + Z.of_nat (length src1))) as [Hlt|Hge].
    + destruct (B3 k ltac:(lia)) as [H1 H2]. destruct (blk_range k ltac:(lia)) as [_ Hbk].
      split; [by rewrite (grows_baddr _ _ _ _ _ _ C1)|]. rewrite C4, H2, lookup_app_l by (done || lia). done.
    + destruct (C3 k ltac:(lia)) as [H1 H2]. split; [done|]. rewrite H2, lookup_app_r by lia. do 2 f_equal. lia.
  - intros k Hk Hout Hb. destruct (blk_range k Hk) as [_ Hbk]. rewrite C4; [apply B4; [done|lia|done]|done|lia|by rewrite (grows_baddr _ _ _ _ _ _ B1)].
  - exists (Y ∪ X). split; [clear -B5 C5; set_solver|]. pose proof (union_size_le Y X). lia.
  - intros Hall. rewrite C6; [apply B6; intros k Hk; apply Hall; lia|]. intros k Hk. destruct (blk_range k ltac:(lia)) as [_ Hbk].
    rewrite (grows_baddr _ _ _ _ _ _ B1 Hbk); apply Hall; lia.
  - lia.
Qed.

(** One turn of the loop, after [bmap]. *)
Lemma wrote_chunk V A Q off src V1 A1 Q1 a : 0 ≤ off → 0 < Z.of_nat (length src) → off + Z.of_nat (length src) ≤ MAXFILE * BSIZE → (∀ b, block_ok (V1 b)) →
  Z.of_nat (length src) = chunk off (Z.of_nat (length src)) → bmapped sb V A Q (blk off) V1 A1 Q1 a →
  (baddr V A (blk off) ≠ 0 → A1 = A) →
  wrote V A Q off src (bupd V1 a (put_bytes (Z.to_nat (off mod BSIZE)) src (V1 a))) A1 ({[a]} ∪ Q1) 2.
Proof using Hly.
  intros Ho Hlen Hmax HV Hc [[B1 B2] [Ha Ha0] _ Hmap Hlog Hfree] Hsame. destruct (blk_range off ltac:(lia)) as [_ Hbo]. destruct (chunk_pos off _ Hlen) as [_ Hc2]. rewrite <- Hc in Hc2.
  pose proof (gr_wf _ _ _ _ _ B1) as Hwf1. assert (0 ≤ off mod BSIZE) as H0 by (unfold BSIZE; Z.to_euclidean_division_equations; lia).
  assert (baddr V1 A1 (blk off) ≠ 0) as Hb1 by congruence. destruct (HV a) as [Hla _]. subst a. set (d := put_bytes _ src _).
  assert (∀ k, off ≤ k < off + Z.of_nat (length src) → blk k = blk off ∧ k mod BSIZE = off mod BSIZE + (k - off)) as Hin.
  { intros k Hk. destruct (in_chunk off (Z.of_nat (length src)) k) as [E1 E2]; [done|done|lia|]. unfold blk. by rewrite E1. }
  split.
  - eapply grows_trans; [done|exact B1|]. by apply put_grows.
  - intros b Hb. rewrite (put_used sb V1 A1 (blk off)) by done. by apply Hmap.
  - intros k Hk. destruct (Hin k Hk) as [E1 E2]. rewrite (put_baddr sb V1 A1 (blk off)) by done. rewrite E1. split; [done|].
    rewrite (put_fbyte sb V1 A1 (blk off)) by (done || congruence || lia). rewrite decide_True by done. unfold d. unfold BSIZE in Hc2, H0, E2 |- *.
    rewrite ld8_put by (rewrite Hla; lia). rewrite decide_True by lia. do 2 f_equal. lia.
  - intros k Hk Hout Hb. destruct (blk_range k Hk) as [_ Hbk]. assert (baddr V1 A1 (blk k) ≠ 0) as Hbk1 by (by rewrite (grows_baddr _ _ _ _ _ _ B1)).
    assert (fbyte V1 A1 k = fbyte V A k) as E1. { unfold fbyte. fold (blk k). by rewrite (grows_baddr _ _ _ _ _ _ B1), B2. }
    rewrite (put_fbyte sb V1 A1 (blk off)) by done. case_decide as Eb; [|done]. rewrite <- E1. unfold fbyte. fold (blk k). rewrite Eb.
    unfold d. assert (k / BSIZE = off / BSIZE) as Ekk. { unfold blk, BSIZE in *. clear -Eb Hk Ho. Z.to_euclidean_division_equations. lia. }
    pose proof (past_chunk off _ k Ho Hlen ltac:(lia) Ekk ltac:(lia)) as Hp. rewrite <- Hc in Hp.
    assert (0 ≤ k mod BSIZE) by (unfold BSIZE; Z.to_euclidean_division_equations; lia). unfold BSIZE in *.
    rewrite ld8_put by (rewrite Hla; lia). by rewrite decide_False by lia.
  - exists {[baddr V1 A1 (blk off); fblock V1 A1 140]}. split; [set_solver|]. pose proof (union_size_le {[baddr V1 A1 (blk off)]} {[fblock V1 A1 140]}).
    rewrite !size_singleton in *. lia.
  - intros Hall. apply Hsame, Hall. lia.
  - rewrite (free_blocks_ext V1 (bupd V1 _ d)); [lia|]. intros c Hcc. by apply (put_used sb V1 A1 (blk off)).
Qed.

Lemma wrote_content V A Q off src V' A' Q' N ip ip' : wrote V A Q off src V' A' Q' N → i_addrs ip = A → i_addrs ip' = A' →
  i_size ip' = Z.max (i_size ip) (off + Z.of_nat (length src)) → i_size ip' ≤ MAXFILE * BSIZE → 0 ≤ off ≤ i_size ip →
  (∀ k, 0 ≤ k < i_size ip → baddr V A (blk k) ≠ 0) →
  content V' ip' = put_bytes (Z.to_nat off) src (content V ip) ∧ ∀ k, 0 ≤ k < i_size ip' → baddr V' A' (blk k) ≠ 0.
Proof using.
  intros [B1 B2 B3 B4 B5 B6 B7] EA EA' Es Hmax Ho Hm. split.
  - apply list_eq. intros j. rewrite lookup_put_bytes by (unfold content; rewrite length_fmap, length_seqZ; lia). rewrite !lookup_content, EA, EA', Es.
    destruct (decide (off ≤ Z.of_nat j < off + Z.of_nat (length src))) as [Hin|Hout].
    + rewrite decide_True by lia. rewrite decide_True by lia. destruct (B3 (Z.of_nat j) Hin) as [_ ->].
      replace (Z.to_nat (Z.of_nat j - off)) with (j - Z.to_nat off)%nat by lia. destruct (src !! (j - Z.to_nat off)%nat) eqn:E; [done|]. apply lookup_ge_None in E. lia.
    + rewrite (decide_False (P := (Z.to_nat off ≤ j < Z.to_nat off + length src)%nat)) by lia. destruct (decide (Z.of_nat j < i_size ip)) as [Hj|Hj].
      * rewrite decide_True by lia. f_equal. apply B4; [lia|lia|]. apply Hm. lia.
      * by rewrite decide_False by lia.
  - intros k Hk. destruct (decide (off ≤ k < off + Z.of_nat (length src))) as [Hin|Hout]; [by apply B3|].
    destruct (blk_range k ltac:(lia)) as [_ Hb]. rewrite (grows_baddr _ _ _ _ _ _ B1 Hb); apply Hm; lia.
Qed.
End wrote.

Section content.
Context {S : Type} `{!LockOps S, !ProcOps S, !BlockOps S, !LogOps S, !TxLaws S}.
Variable sb : superblock.
Hypothesis Hly : layout sb.
Hypothesis Hhome : ∀ b, sb_inodestart sb ≤ b < sb_size sb → tx_home b.
Hypothesis Hbm : sb_bmapstart sb + sb_size sb / BPB < sb_size sb.
Implicit Types (t : fs) (V : Z → block).

(** ** The loop of readi *)
Lemma readi_loop_ok t V Q F k i : i_dev (ii t i) = tx_dev → file_wf V sb (i_addrs (ii t i)) → room (Txspec V ∅ Q ∅) F k →
  ∀ cnt x s tot off n, tx x [] s (Txspec V ∅ Q ∅) → n - tot ≤ Z.of_nat cnt → tot ≤ n → 0 ≤ off → off + (n - tot) ≤ MAXFILE * BSIZE →
  (∀ b, off ≤ b < off + (n - tot) → baddr V (i_addrs (ii t i)) (blk b) ≠ 0) →
  ∃ s', readi_loop cnt i tot off n (s, t) = Ret (fbyte V (i_addrs (ii t i)) <$> seqZ off (n - tot)) (s', t) ∧ tx x [] s' (Txspec V ∅ Q ∅).
Proof using Hly Hhome.
  intros Hdev Hwf Hr. set (A := i_addrs (ii t i)) in *. induction cnt as [|cnt IH]; intros x s tot off n Hx Hcnt Htot Ho Hmax Hm.
  { simpl. rewrite (proj2 (Z.leb_le n tot)) by lia. replace (n - tot) with 0 by lia. by exists s. }
  simpl. destruct (Z.leb_spec n tot) as [Hle|Hlt]; [replace (n - tot) with 0 by lia; by exists s|].
  destruct (blk_range off ltac:(lia)) as [Hbo _]. next. rewrite Hdev. pose proof (Hm off ltac:(lia)) as Hb0.
  destruct (bmap_present sb Hly Hhome x s t V Q F k i (off / BSIZE) Hx Hdev Hwf Hbo Hr Hb0) as (s1 & E1 & Hx1). run E1. fold A. fold (blk off).
  destruct (put_data sb V A (blk off) Hwf (proj2 (blk_range off ltac:(lia))) Hb0) as [Hd _].
  destruct (bread_tx x s1 t _ F k (baddr V A (blk off)) Hx1) as (h & s2 & E2 & Hh & Hx2); [apply settled_nil|done|by apply (home_data sb)|simpl; by rewrite map_img_empty_L|].
  run E2. run (b_data_tx x [] s2 t _ h _ Hx2 (lookup_insert_eq _ _ _)). cbn [tv tx_hold].
  destruct (brelse_held x s2 t V ∅ Q h _ Hx2 Hh) as (s3 & E3 & Hx3). run E3.
  change (Z.min (n - tot) (BSIZE - off mod BSIZE)) with (chunk off (n - tot)). destruct (chunk_pos off (n - tot)) as [Hc _]; [lia|].
  destruct (IH x s3 (tot + chunk off (n - tot)) (off + chunk off (n - tot)) n Hx3) as (s4 & E4 & Hx4); [lia..| |]. { intros b Hb. apply Hm. lia. }
  run E4. exists s4. split; [|done]. f_equal. rewrite file_slice; [|intros b; exact (tx_block x [] s _ b Hx)|done|lia].
  rewrite <- fmap_app. f_equal. set (c := chunk off (n - tot)) in *. rewrite <- seqZ_app by lia. f_equal. lia.
Qed.

(** ** The loop of writei *)
Lemma room_log_set V Q V' Q' F k (X : gset Z) N : room (Txspec V ∅ Q ∅) F k → Q' ⊆ X ∪ (Q ∪ F) → Z.of_nat (size X) ≤ N → N ≤ k → room (Txspec V' ∅ Q' ∅) F (k - N).
Proof using. intros Hr Hs H1 H2. eapply room_less; [eapply (room_sub _ (Txspec V' ∅ Q' ∅) F k X); [exact Hr|done|lia]|]. lia. Qed.

(** The blocks are there, or there are enough free ones. *)
Definition supply V (A : list Z) (off m : Z) : Prop :=
  (∀ b, off ≤ b < off + m → baddr V A (blk b) ≠ 0) ∨ 2 * span off m ≤ Z.of_nat (length (free_blocks V sb)).

Lemma writei_loop_ok i F : bitmap_blocks sb ⊆ F → ∀ cnt x s t V Q k src tot off n, tx x [] s (Txspec V ∅ Q ∅) → fs_sb t = sb →
  i_dev (ii t i) = tx_dev → file_wf V sb (i_addrs (ii t i)) → map_wf V sb → n - tot ≤ Z.of_nat cnt → 0 ≤ off → off + (n - tot) ≤ MAXFILE * BSIZE →
  Z.of_nat (length src) = n - tot → bytes_ok src → room (Txspec V ∅ Q ∅) F k → 2 * span off (n - tot) ≤ k → supply V (i_addrs (ii t i)) off (n - tot) →
  ∃ s' t' V' Q' A', writei_loop cnt i src tot off n (s, t) = Ret () (s', t') ∧ tx x [] s' (Txspec V' ∅ Q' ∅) ∧ retyped t t' i A' ∧
    wrote sb V (i_addrs (ii t i)) Q off src V' A' Q' (2 * span off (n - tot)).
Proof using Hly Hhome Hbm.
  intros HF. induction cnt as [|cnt IH]; intros x s t V Q k src tot off n Hx Hsb Hdev Hwf Hmap Hcnt Ho Hmax Hlen Hok Hr Hk Hsup; set (A := i_addrs (ii t i)) in *.
  { simpl. rewrite (proj2 (Z.leb_le n tot)) by lia. destruct src; simpl in Hlen; [|lia]. exists s, t, V, Q, A. split; [done|]. split; [done|]. split; [apply retyped_refl|].
    replace (n - tot) with 0 by lia. by apply wrote_nil. }
  simpl. destruct (Z.leb_spec n tot) as [Hle|Hlt].
  { destruct src; simpl in Hlen; [|lia]. exists s, t, V, Q, A. split; [done|]. split; [done|]. split; [apply retyped_refl|].
    replace (n - tot) with 0 by lia. by apply wrote_nil. }
  rewrite <- Hlen in *. set (m := Z.of_nat (length src)) in *. assert (0 < m) as Hm by lia. rewrite (span_step off m) in Hk |- * by done.
  pose proof (span_pos (off + chunk off m) (m - chunk off m)) as Hsp. destruct (chunk_pos off m Hm) as [Hc1 Hc2]. specialize (Hsp ltac:(lia)).
  destruct (blk_range off ltac:(lia)) as [Hbo Hblk]. next. rewrite Hdev.
  destruct (bmap_ok sb Hly Hhome Hbm x s t V Q F k i (off / BSIZE)) as (s1 & t1 & V1 & Q1 & A1 & a & E1 & Hx1 & Ht1 & Hb1 & _ & Hsame); try done; [lia| |].
  { destruct Hsup as [Hall|Hfr]; [left; apply Hall; lia|right]. rewrite span_step in Hfr by done. lia. }
  run E1. fold (blk off) A in Hb1, Hsame. pose proof Hb1 as [B1 B2 _ B4 B5 B6].
  assert (data_block sb a) as Hda. { destruct B2 as [-> Hne]. eapply put_data; [apply (ex_grows _ _ _ _ _ B1)|done|done]. }
  assert (room (Txspec V1 ∅ Q1 ∅) F (k - 2)) as Hr1.
  { eapply (room_log_set _ _ _ _ _ _ {[a; fblock V1 A1 140]}); [exact Hr|clear -B5 HF; set_solver| |lia]. pose proof (union_size_le {[a]} {[fblock V1 A1 140]}).
    rewrite !size_singleton in *. lia. }
  destruct (bread_tx x s1 t1 _ F (k - 2) a Hx1) as (h & s2 & E2 & Hh & Hx2); [apply settled_nil|done|by apply (home_data sb)|simpl; by rewrite map_img_empty_L|]. run E2.
  run (b_data_tx x [] s2 t1 _ h _ Hx2 (lookup_insert_eq _ _ _)). cbn [tv tx_hold].
  change (Z.min m (BSIZE - off mod BSIZE)) with (chunk off m). set (c := chunk off m) in *. set (src1 := take (Z.to_nat c) src).
  assert (Z.of_nat (length src1) = c) as Hl1 by (unfold src1; rewrite length_take; lia).
  assert (0 ≤ off mod BSIZE) as H0 by (unfold BSIZE; Z.to_euclidean_division_equations; lia).
  assert (∀ b, block_ok (V1 b)) as HV1 by (intros b; exact (tx_block x [] s1 _ b Hx1)).
  destruct (log_held x s2 t1 _ F (k - 2) h a (put_bytes (Z.to_nat (off mod BSIZE)) src1 (V1 a)) Hx2) as (s3 & s4 & E3 & E4 & Hx4);
    [done|done|by apply (home_data sb)|apply lookup_insert_eq|apply put_bytes_ok; [unfold BSIZE in *; lia|by apply Forall_take|done]|].
  run E3. run E4. destruct (brelse_held x s4 t1 _ ∅ _ h a Hx4 Hh) as (s5 & E5 & Hx5). run E5. cbn [tv tx_hold tl tput] in Hx5.
  pose proof (wrote_chunk sb Hly V A Q off src1 V1 A1 Q1 a Ho) as Hw. rewrite Hl1 in Hw.
  specialize (Hw ltac:(lia) ltac:(lia) HV1). assert (c = chunk off c) as Hcc by (unfold c, chunk; lia). specialize (Hw Hcc Hb1).
  assert (baddr V A (blk off) ≠ 0 → A1 = A) as HA1 by (intros Hz; by apply Hsame). specialize (Hw HA1).
  set (V2 := bupd V1 a _) in *. pose proof (rt_i _ _ _ _ Ht1) as Ei. assert (i_addrs (ii t1 i) = A1) as EA by (by rewrite Ei).
  assert (supply V2 A1 (off + c) (m - c)) as Hsup2.
  { destruct Hsup as [Hall|Hfr]; [left|right].
    - intros b Hb. destruct (blk_range b ltac:(lia)) as [_ Hbb]. rewrite (grows_baddr _ _ _ _ _ _ (wr_grows _ _ _ _ _ _ _ _ _ _ Hw) Hbb); apply Hall; lia.
    - pose proof (wr_free _ _ _ _ _ _ _ _ _ _ Hw). rewrite span_step in Hfr by done. fold c in Hfr. lia. }
  assert (room (Txspec V2 ∅ ({[a]} ∪ Q1) ∅) F (k - 2)) as Hr2.
  { destruct (wr_log _ _ _ _ _ _ _ _ _ _ Hw) as (X & HX1 & HX2). eapply (room_log_set _ _ _ _ _ _ X); [exact Hr|clear -HX1 HF; set_solver|done|lia]. }
  destruct (IH x s5 t1 V2 ({[a]} ∪ Q1) (k - 2) (drop (Z.to_nat c) src) (tot + c) (off + c) n) as (s6 & t6 & V6 & Q6 & A6 & E6 & Hx6 & Ht6 & Hw6).
  all: replace (n - (tot + c)) with (m - c) in * by lia.
  { exact Hx5. } { by rewrite (rt_sb _ _ _ _ Ht1). } { by rewrite Ei. } { rewrite EA. apply (gr_wf _ _ _ _ _ (wr_grows _ _ _ _ _ _ _ _ _ _ Hw)). }
  { apply (wr_map _ _ _ _ _ _ _ _ _ _ Hw). } { lia. } { lia. } { lia. } { rewrite length_drop. lia. } { by apply Forall_drop. }
  { exact Hr2. } { lia. } { by rewrite EA. }
  rewrite EA in Hw6. exists s6, t6, V6, Q6, A6. split; [exact E6|]. split; [done|]. split; [by eapply retyped_trans|].
  rewrite <- (take_drop (Z.to_nat c) src). replace (2 * (1 + span (off + c) (m - c))) with (2 + 2 * span (off + c) (m - c)) by lia.
  change (take (Z.to_nat c) src) with src1. eapply (wrote_app sb Hly); [done| |exact Hw|by rewrite Hl1]. rewrite length_drop. lia.
Qed.

(** ** iupdate *)
(** The inode on disk is the one in memory. *)
Definition synced V t (i : nat) : Prop := dinode_at V sb (i_inum (ii t i)) = disk_part (ii t i).
Definition after_iupdate V (ip : inode) : Z → block :=
  bupd V (IBLOCK (i_inum ip) sb) (put_dinode (disk_part ip) (dinode_off (i_inum ip)) (V (IBLOCK (i_inum ip) sb))).

Lemma home_inode inum : 0 ≤ inum < sb_ninodes sb → tx_home (IBLOCK inum sb).
Proof using Hly Hhome Hbm.
  intros Hi. apply Hhome. destruct (IBLOCK_eq sb inum Hly Hi) as [_ Hr]. pose proof Hly as [[? ? ?] ?]. unfold BPB, BSIZE in *.
  Z.to_euclidean_division_equations. lia.
Qed.

Lemma addrs_uint V A : file_wf V sb A → Forall is_uint A.
Proof using Hly.
  intros Hwf. apply Forall_lookup. intros n a Hn. destruct (decide (a = 0)) as [->|Ha]; [done|]. pose proof (lookup_lt_Some _ _ _ Hn) as Hlt.
  rewrite (fw_len _ _ _ Hwf) in Hlt. destruct (fw_data _ _ _ Hwf a) as [Hd _].
  - split; [done|]. destruct (decide (n = 12%nat)) as [->|Hne]; [exists 140%nat|exists n]; (split; [lia|]).
    + by rewrite fblock_indirect, Hn.
    + rewrite fblock_direct by lia. by rewrite Hn.
  - pose proof (data_range sb a Hly Hd). pose proof Hly as [[? ? ?] ?]. unfold is_uint. lia.
Qed.
Definition shorts_ok (ip : inode) : Prop := Forall (λ v, -32768 ≤ v < 32768) [i_type ip; i_major ip; i_minor ip; i_nlink ip].
Lemma disk_part_ok V ip : file_wf V sb (i_addrs ip) → shorts_ok ip → 0 ≤ i_size ip ≤ MAXFILE * BSIZE → dinode_ok (disk_part ip).
Proof using Hly. intros Hwf Hs Hz. split; [done| |apply Hwf|by eapply addrs_uint]. unfold is_uint, MAXFILE, NDIRECT, NINDIRECT, BSIZE in *. simpl. lia. Qed.

Lemma iupdate_ok x s t V Q F k i : tx x [] s (Txspec V ∅ Q ∅) → fs_sb t = sb → i_dev (ii t i) = tx_dev → 0 ≤ i_inum (ii t i) < sb_ninodes sb →
  room (Txspec V ∅ Q ∅) F k →
  ∃ s', iupdate i (s, t) = Ret () (s', t) ∧ tx x [] s' (Txspec (after_iupdate V (ii t i)) ∅ ({[IBLOCK (i_inum (ii t i)) sb]} ∪ Q) ∅).
Proof using Hly Hhome Hbm.
  intros Hx Hsb Hdev Hi Hr. unfold iupdate. next. next. rewrite Hdev, Hsb. set (b := IBLOCK _ sb).
  destruct (bread_tx x s t _ F k b Hx) as (h & s1 & E1 & Hh & Hx1); [apply settled_nil|done|by apply home_inode|simpl; by rewrite map_img_empty_L|]. run E1.
  run (b_data_tx x [] s1 t _ h _ Hx1 (lookup_insert_eq _ _ _)). cbn [tv tx_hold].
  destruct (log_held x s1 t _ F k h b (put_dinode (disk_part (ii t i)) (dinode_off (i_inum (ii t i))) (V b)) Hx1) as (s3 & s4 & E3 & E4 & Hx4);
    [done|done|by apply home_inode|apply lookup_insert_eq|apply put_dinode_ok; exact (tx_block x [] s _ b Hx)|].
  run E3. run E4. destruct (brelse_held x s4 t _ ∅ _ h b Hx4 Hh) as (s5 & E5 & Hx5). exists s5. split; [exact E5|done].
Qed.

Lemma dinode_off_ne i j : 0 ≤ i < sb_ninodes sb → 0 ≤ j < sb_ninodes sb → i ≠ j → IBLOCK i sb = IBLOCK j sb →
  (dinode_off i + 64 ≤ dinode_off j ∨ dinode_off j + 64 ≤ dinode_off i)%nat.
Proof using Hly.
  intros Hi Hj Hne. destruct (IBLOCK_eq sb i Hly Hi) as [-> _], (IBLOCK_eq sb j Hly Hj) as [-> _]. unfold dinode_off, IPB.
  clear Hly. Z.to_euclidean_division_equations. lia.
Qed.
Lemma iupdate_dinode V ip j : (∀ b, block_ok (V b)) → dinode_ok (disk_part ip) → 0 ≤ i_inum ip < sb_ninodes sb → 0 ≤ j < sb_ninodes sb →
  dinode_at (after_iupdate V ip) sb j = if decide (j = i_inum ip) then disk_part ip else dinode_at V sb j.
Proof using Hly.
  intros HV Hd Hi Hj. unfold dinode_at, after_iupdate. destruct (HV (IBLOCK (i_inum ip) sb)) as [Hl _]. pose proof (dinode_off_le (i_inum ip)) as Hle.
  case_decide as E; [subst; rewrite bupd_eq; apply get_put_dinode; [done|lia]|].
  destruct (decide (IBLOCK (i_inum ip) sb = IBLOCK j sb)) as [Eb|Eb]; [|by rewrite bupd_ne].
  rewrite <- Eb, bupd_eq. apply get_put_dinode_ne; [apply Hd|lia|]. pose proof (dinode_off_ne (i_inum ip) j Hi Hj ltac:(congruence) Eb). lia.
Qed.

(** ** readi and writei *)
Variables (dev_read : Z → option (nat → Z → M (S * fs) (Z * list Z))) (dev_write : Z → option (nat → list Z → Z → M (S * fs) Z)).

(** The inode in memory is that of a file with no holes below its size. *)
Record file_at V t (i : nat) : Prop := {
  fi_dev : i_dev (ii t i) = tx_dev;
  fi_wf : file_wf V sb (i_addrs (ii t i));
  fi_size : 0 ≤ i_size (ii t i) ≤ MAXFILE * BSIZE;
  fi_mapped k : 0 ≤ k < i_size (ii t i) → baddr V (i_addrs (ii t i)) (blk k) ≠ 0 }.

Lemma readi_ok x s t V Q F k i off n : tx x [] s (Txspec V ∅ Q ∅) → file_at V t i → i_type (ii t i) ≠ T_DEV → room (Txspec V ∅ Q ∅) F k →
  0 ≤ off ≤ i_size (ii t i) → 0 ≤ n → off + n < 4294967296 →
  ∃ s', readi dev_read i off n (s, t) = Ret (Z.min n (i_size (ii t i) - off), take (Z.to_nat n) (drop (Z.to_nat off) (content V (ii t i)))) (s', t) ∧
    tx x [] s' (Txspec V ∅ Q ∅).
Proof using Hly Hhome.
  intros Hx [H1 H2 H3 H4] Hty Hr Ho Hn Hover. unfold readi. next. rewrite (proj2 (Z.eqb_neq _ _) Hty).
  rewrite (uint_small (off + n)) by (unfold is_uint; lia). rewrite (proj2 (Z.ltb_ge _ _)), (proj2 (Z.ltb_ge (off + n) _)) by lia. cbn [orb].
  assert ((if i_size (ii t i) <? off + n then i_size (ii t i) - off else n) = Z.min n (i_size (ii t i) - off)) as ->.
  { destruct (Z.ltb_spec (i_size (ii t i)) (off + n)); lia. }
  set (m := Z.min n (i_size (ii t i) - off)). assert (0 ≤ m ∧ off + m ≤ i_size (ii t i)) as Hm by lia.
  destruct (readi_loop_ok t V Q F k i H1 H2 Hr (Z.to_nat m) x s 0 off m Hx) as (s1 & E1 & Hx1); [lia..| |].
  { intros b Hb. apply H4. lia. }
  run E1. exists s1. split; [|done]. do 2 f_equal. rewrite Z.sub_0_r. unfold content. rewrite <- fmap_drop, <- fmap_take. f_equal.
  apply list_eq. intros j. destruct (decide (Z.of_nat j < m)) as [Hj|Hj].
  - rewrite lookup_take_lt, lookup_drop by lia. rewrite !lookup_seqZ_lt by lia. f_equal. lia.
  - rewrite lookup_seqZ_ge by lia. symmetry. apply lookup_ge_None. rewrite length_take, length_drop, length_seqZ. lia.
Qed.

(** Past the end of the file. *)
Lemma readi_past t i off n s : i_type (ii t i) ≠ T_DEV → 0 ≤ off < 4294967296 → 0 ≤ n < 4294967296 → i_size (ii t i) < off ∨ 4294967296 ≤ off + n →
  readi dev_read i off n (s, t) = Ret (-1, []) (s, t).
Proof.
  intros Hty Ho Hn H. unfold readi. next. rewrite (proj2 (Z.eqb_neq _ _) Hty). destruct (Z.ltb_spec (i_size (ii t i)) off) as [|Hge]; [done|].
  assert (uint (off + n) = off + n - 4294967296) as -> by (unfold uint; Z.to_euclidean_division_equations; lia). rewrite (proj2 (Z.ltb_lt _ _)) by lia. done.
Qed.

(** What a write leaves, for the file, for the other files, and in the log. *)
Record written V t (Q : gset Z) (i : nat) (off : Z) (src : list Z) V' t' (Q' : gset Z) : Prop := {
  wi_content : content V' (ii t' i) = put_bytes (Z.to_nat off) src (content V (ii t i));
  wi_file : file_at V' t' i;
  wi_synced : synced V' t' i;
  wi_inode : ii t' i = set_isize (Z.max (i_size (ii t i)) (off + Z.of_nat (length src))) (set_addrs (i_addrs (ii t' i)) (ii t i));
  wi_map : map_wf V' sb;
  wi_sb : fs_sb t' = fs_sb t;
  wi_cache j : j ≠ i → ii t' j = ii t j;
  wi_inodes j : 0 ≤ j < sb_ninodes sb → j ≠ i_inum (ii t i) → dinode_at V' sb j = dinode_at V sb j;
  wi_files A2 : file_wf V sb A2 → apart V (i_addrs (ii t i)) A2 → file_wf V' sb A2 ∧ apart V' (i_addrs (ii t' i)) A2 ∧ ∀ b, owns V A2 b → V' b = V b;
  wi_log : ∃ X : gset Z, Q' ⊆ X ∪ (Q ∪ ({[IBLOCK (i_inum (ii t i)) sb]} ∪ bitmap_blocks sb)) ∧ Z.of_nat (size X) ≤ 2 * span off (Z.of_nat (length src)) }.

Lemma grows_dinode V A V' A' j : grows sb V A V' A' → 0 ≤ j < sb_ninodes sb → dinode_at V' sb j = dinode_at V sb j.
Proof using Hly.
  intros G Hj. unfold dinode_at. rewrite (gr_frame _ _ _ _ _ G); [done|by apply IBLOCK_not_bitmap|]. intros Ho.
  destruct (fw_data _ _ _ (gr_wf _ _ _ _ _ G) _ Ho) as [Hd _]. by eapply IBLOCK_not_data.
Qed.

(** The size stays: the inode on disk is still right. *)
Lemma written_inside V t Q i off src V' A' Q' N t' : file_at V t i → synced V t i → 0 ≤ i_inum (ii t i) < sb_ninodes sb →
  0 ≤ off ≤ i_size (ii t i) → off + Z.of_nat (length src) ≤ i_size (ii t i) ∨ src = [] → N = 2 * span off (Z.of_nat (length src)) →
  retyped t t' i A' → wrote sb V (i_addrs (ii t i)) Q off src V' A' Q' N → written V t Q i off src V' t' Q'.
Proof using Hly.
  intros [H1 H2 H3 H4] Hs Hi Ho Hin HN [R1 R2 R3] Hw. assert (off + Z.of_nat (length src) ≤ i_size (ii t i)) as Hin' by (destruct Hin as [?| ->]; simpl; lia).
  pose proof Hw as [B1 B2 B3 B4 (X & HX1 & HX2) B6 B7]. assert (A' = i_addrs (ii t i)) as EA by (apply B6; intros k Hk; apply H4; lia).
  assert (ii t' i = ii t i) as Ei by (rewrite R2, EA; by destruct (ii t i)).
  destruct (wrote_content sb V _ Q off src V' A' Q' N (ii t i) (ii t' i) Hw) as [Hc Hm]; [done|by rewrite Ei|rewrite Ei; lia|rewrite Ei; lia|done|done|].
  split; rewrite ?Ei in *; try done.
  - split; rewrite ?Ei; try done; [rewrite <- EA; apply B1|]. rewrite <- EA. done.
  - unfold synced in *. rewrite Ei. by rewrite (grows_dinode _ _ _ _ _ B1).
  - rewrite Z.max_l by lia. by destruct (ii t i).
  - intros j Hj _. by apply (grows_dinode _ _ _ _ _ B1).
  - intros A2 Hw2 Hap. rewrite EA in B1. by apply (grows_other sb V _ V' _ A2 Hly B1).
  - exists X. split; [clear -HX1; set_solver|lia].
Qed.
(** The file grows: [iupdate] writes the inode. *)
Lemma written_past V t Q i off src V1 A1 Q1 N t1 : file_at V t i → shorts_ok (ii t i) → 0 ≤ i_inum (ii t i) < sb_ninodes sb → (∀ b, block_ok (V1 b)) →
  0 ≤ off ≤ i_size (ii t i) → i_size (ii t i) < off + Z.of_nat (length src) ≤ MAXFILE * BSIZE → N = 2 * span off (Z.of_nat (length src)) →
  retyped t t1 i A1 → wrote sb V (i_addrs (ii t i)) Q off src V1 A1 Q1 N →
  let t' := upd_inode i (set_isize (off + Z.of_nat (length src))) t1 in
  written V t Q i off src (after_iupdate V1 (ii t' i)) t' ({[IBLOCK (i_inum (ii t i)) sb]} ∪ Q1).
Proof using Hly.
  intros [H1 H2 H3 H4] Hs Hi HV Ho Hin HN [R1 R2 R3] Hw t'. pose proof Hw as [B1 B2 B3 B4 (X & HX1 & HX2) B6 B7].
  assert (ii t' i = set_isize (off + Z.of_nat (length src)) (set_addrs A1 (ii t i))) as Ei by (unfold t'; by rewrite ii_upd_eq, R2).
  set (ip' := ii t' i) in *. assert (i_inum ip' = i_inum (ii t i)) as En by (by rewrite Ei). assert (i_addrs ip' = A1) as EA by (by rewrite Ei).
  assert (i_size ip' = off + Z.of_nat (length src)) as Es by (by rewrite Ei).
  pose proof (gr_wf _ _ _ _ _ B1) as Hwf1. set (V2 := after_iupdate V1 ip'). assert (file_wf V2 sb A1) as Hwf2 by (apply iblock_wf; [done|by rewrite En|done]).
  destruct (wrote_content sb V _ Q off src V1 A1 Q1 N (ii t i) ip' Hw) as [Hc Hm]; [done|done|lia|lia|done|done|].
  assert (∀ b, owns V1 A1 b → V2 b = V1 b) as Hsame by (intros b; apply (iblock_same sb (i_inum ip') V1 _ Hly); [by rewrite En|done]).
  assert (dinode_ok (disk_part ip')) as Hdi by (apply (disk_part_ok V1); [by rewrite EA|by rewrite Ei|lia]).
  split; fold ip'; rewrite ?EA.
  - rewrite <- Hc. apply iblock_content; [done|by rewrite En|by rewrite EA|lia|by rewrite EA].
  - split; fold ip'; rewrite ?EA; [by rewrite Ei|done|lia|]. intros k Hk. rewrite (same_baddr V1) by done. by apply Hm.
  - unfold synced. fold ip'. unfold V2. rewrite iupdate_dinode by (done || by rewrite En). by rewrite decide_True.
  - rewrite Z.max_r by lia. done.
  - apply iblock_map; [done|by rewrite En|done].
  - by unfold t'.
  - intros j Hj. unfold t'. rewrite ii_upd_ne by done. by apply R3.
  - intros j Hj Hne. unfold V2. rewrite iupdate_dinode by (done || by rewrite En). rewrite decide_False by congruence. by apply (grows_dinode _ _ _ _ _ B1).
  - intros A2 Hw2 Hap. destruct (grows_other sb V _ V1 _ A2 Hly B1 Hw2 Hap) as (K1 & K2 & K3).
    assert (∀ b, owns V1 A2 b → V2 b = V1 b) as Hsame2 by (intros b; apply (iblock_same sb (i_inum ip') V1 _ Hly); [by rewrite En|done]).
    split; [apply iblock_wf; [done|by rewrite En|done]|]. split.
    + intros b Hb%(same_owns V1 V2) Hb2%(same_owns V1 V2); [|done|done]. by apply (K2 b).
    + intros b Hb. rewrite Hsame2; [by apply K3|]. by apply (same_owns V V1).
  - exists X. split; [clear -HX1; set_solver|lia].
Qed.

Lemma writei_ok x s t V Q k i off src : tx x [] s (Txspec V ∅ Q ∅) → fs_sb t = sb → file_at V t i → synced V t i → shorts_ok (ii t i) → map_wf V sb →
  0 ≤ i_inum (ii t i) < sb_ninodes sb → i_type (ii t i) ≠ T_DEV → 0 ≤ off ≤ i_size (ii t i) → off + Z.of_nat (length src) ≤ MAXFILE * BSIZE → bytes_ok src →
  room (Txspec V ∅ Q ∅) ({[IBLOCK (i_inum (ii t i)) sb]} ∪ bitmap_blocks sb) k → 2 * span off (Z.of_nat (length src)) ≤ k →
  supply V (i_addrs (ii t i)) off (Z.of_nat (length src)) →
  ∃ s' t' V' Q', writei dev_write i src off (Z.of_nat (length src)) (s, t) = Ret (Z.of_nat (length src)) (s', t') ∧
    tx x [] s' (Txspec V' ∅ Q' ∅) ∧ written V t Q i off src V' t' Q'.
Proof using Hly Hhome Hbm.
  clear dev_read. intros Hx Hsb Hf Hsy Hs Hmap Hi Hty Ho Hmax Hok Hr Hk Hsup. pose proof Hf as [H1 H2 H3 H4]. set (F := _ ∪ bitmap_blocks sb) in Hr. unfold writei. next.
  rewrite (proj2 (Z.eqb_neq _ _) Hty). set (n := Z.of_nat (length src)) in *.
  assert (is_uint (off + n)) as Hu by (unfold is_uint, MAXFILE, NDIRECT, NINDIRECT, BSIZE in *; lia). rewrite (uint_small (off + n)) by done.
  rewrite (proj2 (Z.ltb_ge _ _)), (proj2 (Z.ltb_ge (off + n) _)), (proj2 (Z.ltb_ge (MAXFILE * BSIZE) _)) by lia. cbn [orb].
  destruct (writei_loop_ok i F ltac:(set_solver) (Z.to_nat n) x s t V Q k src 0 off n) as (s1 & t1 & V1 & Q1 & A1 & E1 & Hx1 & Ht1 & Hw); rewrite ?Z.sub_0_r in *; try (done || lia).
  run E1. next. pose proof Ht1 as [R1 R2 R3]. rewrite R2. cbn [i_size set_addrs].
  destruct (Z.ltb_spec 0 n) as [Hn|Hn]; cbn [andb].
  2: { next. exists s1, t1, V1, Q1. split; [done|]. split; [done|]. eapply written_inside; try done. right. destruct src; [done|simpl in *; lia]. }
  destruct (Z.ltb_spec (i_size (ii t i)) (off + n)) as [Hgt|Hle].
  2: { next. exists s1, t1, V1, Q1. split; [done|]. split; [done|]. eapply written_inside; try done. by left. }
  run2 (eq_refl : upd_in i (set_isize (off + n)) (s1, t1) = Ret () (s1, upd_inode i (set_isize (off + n)) t1)). set (t2 := upd_inode i (set_isize (off + n)) t1).
  assert (ii t2 i = set_isize (off + n) (set_addrs A1 (ii t i))) as Ei by (unfold t2; by rewrite ii_upd_eq, R2).
  destruct (wr_log _ _ _ _ _ _ _ _ _ _ Hw) as (X & HX1 & HX2).
  destruct (iupdate_ok x s1 t2 V1 Q1 F (k - 2 * span off n) i) as (s3 & E3 & Hx3); [done|unfold t2; simpl; congruence|by rewrite Ei|by rewrite Ei|..].
  { eapply (room_log_set _ _ _ _ _ _ X); [exact Hr|clear -HX1; set_solver|done|done]. }
  run E3. rewrite Ei in Hx3. cbn [i_inum set_isize set_addrs] in Hx3. rewrite <- Ei in Hx3. eexists s3, t2, _, _. split; [done|]. split; [exact Hx3|].
  eapply written_past; try done. intros b. exact (tx_block x [] s1 _ b Hx1).
Qed.

(** Entry [i] of the inode cache holds a file as [ilock] leaves it. *)
Record inode_ok V t (i : nat) : Prop := {
  io_sb : fs_sb t = sb;
  io_file : file_at V t i;
  io_synced : synced V t i;
  io_shorts : shorts_ok (ii t i);
  io_inum : 0 ≤ i_inum (ii t i) < sb_ninodes sb;
  io_type : i_type (ii t i) ≠ T_DEV;
  io_map : map_wf V sb }.
Lemma written_ok V t Q i off src V' t' Q' : inode_ok V t i → written V t Q i off src V' t' Q' → inode_ok V' t' i.
Proof using.
  intros [H1 H2 H3 H4 H5 H6 H7] [W1 W2 W3 W4 W5 W6 W7 W8 W9 W10]. split; try done; [congruence|..]; rewrite W4; done.
Qed.
(** The blocks that every write may log: the inode and the free map. *)
Definition meta_blocks t (i : nat) : gset Z := {[IBLOCK (i_inum (ii t i)) sb]} ∪ bitmap_blocks sb.

(** C13: [writei] of any bytes at an offset inside a file or at its end puts
    them there and nothing else: the file's contents are the old ones with the
    bytes spliced in, grown if they reach past the end, without holes and with
    the inode on disk up to date; every other file, its blocks and its inode
    stay; and it logs at most two blocks per block that it touches besides the
    inode and the free map.  It needs that much room in the log, and the
    blocks in place or free. *)
Theorem writei_correct x s t V Q k i off src : tx x [] s (Txspec V ∅ Q ∅) → inode_ok V t i → 0 ≤ off ≤ i_size (ii t i) →
  off + Z.of_nat (length src) ≤ MAXFILE * BSIZE → bytes_ok src →
  room (Txspec V ∅ Q ∅) (meta_blocks t i) k → 2 * span off (Z.of_nat (length src)) ≤ k → supply V (i_addrs (ii t i)) off (Z.of_nat (length src)) →
  ∃ s' t' V' Q', writei dev_write i src off (Z.of_nat (length src)) (s, t) = Ret (Z.of_nat (length src)) (s', t') ∧
    tx x [] s' (Txspec V' ∅ Q' ∅) ∧ inode_ok V' t' i ∧ written V t Q i off src V' t' Q'.
Proof using Hly Hhome Hbm.
  intros Hx Hio Ho Hmax Hok Hr Hk Hsup. pose proof Hio as [H1 H2 H3 H4 H5 H6 H7].
  destruct (writei_ok x s t V Q k i off src) as (s' & t' & V' & Q' & E & Hx' & Hw); try done. exists s', t', V', Q'. split; [done|]. split; [done|].
  split; [by eapply written_ok|done].
Qed.

Lemma put_bytes_read off src l : (off ≤ length l)%nat → take (length src) (drop off (put_bytes off src l)) = src.
Proof using.
  clear. intros H. unfold put_bytes. rewrite drop_app_length' by (rewrite length_take; lia). by rewrite take_app_length.
Qed.

(** C15: what was written is read: after a write of any bytes, [readi] of the
    same range returns those bytes and their number, and does not change the
    file. *)
Theorem read_after_write x s t V Q k i off src : tx x [] s (Txspec V ∅ Q ∅) → inode_ok V t i → 0 ≤ off ≤ i_size (ii t i) →
  off + Z.of_nat (length src) ≤ MAXFILE * BSIZE → bytes_ok src →
  room (Txspec V ∅ Q ∅) (meta_blocks t i) k → 2 * span off (Z.of_nat (length src)) ≤ k → supply V (i_addrs (ii t i)) off (Z.of_nat (length src)) →
  ∃ s' t' V' Q', (writei dev_write i src off (Z.of_nat (length src)) ;;; readi dev_read i off (Z.of_nat (length src))) (s, t) =
      Ret (Z.of_nat (length src), src) (s', t') ∧ tx x [] s' (Txspec V' ∅ Q' ∅) ∧ written V t Q i off src V' t' Q'.
Proof using Hly Hhome Hbm.
  intros Hx Hio Ho Hmax Hok Hr Hk Hsup. pose proof Hio as [H1 H2 H3 H4 H5 H6 H7].
  destruct (writei_ok x s t V Q k i off src) as (s1 & t1 & V1 & Q1 & E & Hx1 & Hw); try done. run E.
  pose proof Hw as [W1 W2 W3 W4 W5 W6 W7 W8 W9 (X & HX1 & HX2)]. assert (i_size (ii t1 i) = Z.max (i_size (ii t i)) (off + Z.of_nat (length src))) as Es by (by rewrite W4).
  destruct (readi_ok x s1 t1 V1 Q1 (meta_blocks t i) (k - 2 * span off (Z.of_nat (length src))) i off (Z.of_nat (length src))) as (s2 & E2 & Hx2); try done;
    [by rewrite W4|by eapply room_log_set|lia|lia|unfold MAXFILE, NDIRECT, NINDIRECT, BSIZE in *; lia|].
  rewrite E2. exists s2, t1, V1, Q1. split; [|done]. rewrite Es, W1. do 2 f_equal; [lia|]. rewrite Nat2Z.id. apply put_bytes_read.
  unfold content. rewrite length_fmap, length_seqZ. lia.
Qed.
End content.

(** ** Examples *)
Lemma img_file_ok : inode_ok (TxLaws0 := img_TxLaws) img_sb imgV img_fs 0.
Proof.
  split; try done.
  - assert (i_size (ii img_fs 0) = 5) as Es by reflexivity.
    split; [done|apply (img_wf 35); lia|rewrite Es; unfold MAXFILE, NDIRECT, NINDIRECT, BSIZE; lia|]. intros k Hk. rewrite Es in Hk.
    assert (blk k = 0%nat) as -> by (unfold blk, BSIZE; rewrite Z.div_small; lia). done.
  - apply (bool_decide_unpack _). vm_compute. exact I.
  - apply img_map.
Qed.
Definition img_text : list Z := [33; 33].
Lemma img_room k : k ≤ 20 → 0 ≤ k → room (TxLaws0 := img_TxLaws) (Txspec imgV ∅ ∅ ∅) (meta_blocks img_sb img_fs 0) k.
Proof.
  intros Hk H0. split; [done|]. cbn [tl]. assert (size (∅ ∪ meta_blocks img_sb img_fs 0) = 2%nat) as -> by (vm_compute; reflexivity).
  change (tx_cap (TxLaws := img_TxLaws)) with 29. lia.
Qed.
Lemma img_supply : supply img_sb imgV (i_addrs (ii img_fs 0)) 5 (Z.of_nat (length img_text)).
Proof. left. intros b Hb. assert (blk b = 0%nat) as -> by (unfold blk, BSIZE; simpl in Hb; rewrite Z.div_small; lia). done. Qed.

Lemma writei_correct_witness : ∃ s s' t' V' Q', writei (λ _, None) 0 img_text 5 2 (s, img_fs) = Ret 2 (s', t') ∧
  tx (TxLaws := img_TxLaws) (3%nat, 7) [] s' (Txspec V' ∅ Q' ∅) ∧ content V' (ii t' 0) = [104; 101; 108; 108; 111; 33; 33].
Proof.
  destruct img_tx as (s & Hs).
  destruct (writei_correct (TxLaws0 := img_TxLaws) img_sb img_layout img_home_range img_bm (λ _, None) (3%nat, 7) s img_fs imgV ∅ 20 0 5 img_text Hs img_file_ok) as (s' & t' & V' & Q' & E & Hx & _ & Hw).
  - split; [lia|]. reflexivity.
  - done.
  - repeat constructor; lia.
  - by apply img_room.
  - vm_compute. done.
  - exact img_supply.
  - exists s, s', t', V', Q'. split; [exact E|]. split; [done|]. rewrite (wi_content _ _ _ _ _ _ _ _ _ _ Hw). vm_compute. reflexivity.
Defined.

Lemma read_after_write_witness : ∃ s s' t', (writei (λ _, None) 0 img_text 5 2 ;;; readi (λ _, None) 0 5 2) (s, img_fs) = Ret (2, img_text) (s', t').
Proof.
  destruct img_tx as (s & Hs).
  destruct (read_after_write (TxLaws0 := img_TxLaws) img_sb img_layout img_home_range img_bm (λ _, None) (λ _, None) (3%nat, 7) s img_fs imgV ∅ 20 0 5 img_text Hs img_file_ok) as (s' & t' & V' & Q' & E & _).
  - split; [lia|]. reflexivity.
  - done.
  - repeat constructor; lia.
  - by apply img_room.
  - vm_compute. done.
  - exact img_supply.
  - exists s, s', t'. exact E.
Defined.
