(* ===== verification/Trunc.v ===== *)
(** * Giving the blocks of a file back (fs.c: itrunc)

    [itrunc] frees the direct blocks, the blocks in the indirect block and the
    indirect block itself, and leaves an empty file; no other block changes but
    the free map and the inode. *)
From stdpp Require Import base list gmap strings.
From Stdlib Require Import ZArith Lia Permutation.
From S2P Require Import Prelude Mmu Spinlock CpuLocks Proc RunQueue Sched Machine Kernel Sleeplock Block Bio Log Trans Tx Fs Balloc Files Image Content.
#[local] Open Scope Z_scope.

(** The blocks of [P] became free. *)
Record freed (sb : superblock) (P : Z → Prop) (V V' : Z → block) : Prop := {
  fr_used c : 0 ≤ c < sb_size sb → used V' sb c = true ↔ used V sb c = true ∧ ¬ P c;
  fr_frame b : b ∉ bitmap_blocks sb → V' b = V b }.

Lemma freed_none sb P V : (∀ c, ¬ P c) → freed sb P V V.
Proof. intros H. split; [|done]. intros c Hc. specialize (H c). tauto. Qed.
Lemma freed_seq sb P P' R V1 V2 V3 : (∀ c, R c ↔ P c ∨ P' c) → freed sb P V1 V2 → freed sb P' V2 V3 → freed sb R V1 V3.
Proof. intros HR [H1 H2] [K1 K2]. split; [intros c Hc; rewrite K1, H1, HR by done; tauto|]. intros b Hb. by rewrite K2, H2. Qed.
Lemma freed_unmark sb V b : bitmap_ok sb → (∀ c, block_ok (V c)) → 0 ≤ b < sb_size sb → freed sb (λ c, c = b) V (unmark V sb b).
Proof.
  intros Hok HV Hb. split.
  - intros c Hc. rewrite used_unmark by done. rewrite andb_true_iff, negb_true_iff, Z.eqb_neq. done.
  - intros c Hc. unfold unmark. apply bupd_ne. intros <-. by apply Hc, BBLOCK_in.
Qed.

Section trunc.
Context {S : Type} `{!LockOps S, !ProcOps S, !BlockOps S, !LogOps S, !TxLaws S}.
Variable sb : superblock.
Hypothesis Hly : layout sb.
Hypothesis Hhome : ∀ b, sb_inodestart sb ≤ b < sb_size sb → tx_home b.
Hypothesis Hbm : sb_bmapstart sb + sb_size sb / BPB < sb_size sb.
Hypothesis Hhome1 : tx_home 1.
Implicit Types (t : fs) (V : Z → block).

Lemma one_not_bitmap : 1 ∉ bitmap_blocks sb.
Proof using Hly Hbm.
  unfold bitmap_blocks. rewrite elem_of_list_to_set, elem_of_seqZ. pose proof Hly as [[? ? ?] (? & ? & ?)]. unfold IPB in *.
  Z.to_euclidean_division_equations. lia.
Qed.
Lemma data_not_one b : data_block sb b → b ≠ 1.
Proof using Hly Hbm.
  intros Hd ->. unfold data_block, data_start in Hd. pose proof Hly as [[? ? ?] (? & ? & ?)]. unfold IPB, BPB, BSIZE in *.
  Z.to_euclidean_division_equations. lia.
Qed.

(** A buffer of a data block may be held meanwhile. *)
Definition holds_data (H : gmap nat Z) : Prop := H = ∅ ∨ ∃ h I, H = {[h := I]} ∧ data_block sb I.
Lemma bfree_freed x s t V H Q F k b : tx x [] s (Txspec V H Q ∅) → fs_sb t = sb → holds_data H → room (Txspec V H Q ∅) F k → bitmap_blocks sb ⊆ F →
  decode_sb (V 1) = sb → data_block sb b → used V sb b = true →
  ∃ s' V' Q', bfree tx_dev b (s, t) = Ret () (s', t) ∧ tx x [] s' (Txspec V' H Q' ∅) ∧ freed sb (λ c, c = b) V V' ∧ Q' ⊆ Q ∪ bitmap_blocks sb.
Proof using Hly Hhome Hbm Hhome1.
  intros Hx Hsb HH Hr HF Hdec Hd Hu. pose proof (data_range sb b Hly Hd) as Hb.
  destruct (bfree_ok x s t V H Q F k sb b Hx Hsb) as (s1 & E1 & Hx1); try done; [apply Hly|intros c Hc; by apply (home_bitmap sb)| | |lia|].
  - split; [done|]. simpl. destruct HH as [->|(h & I & -> & _)]; [rewrite map_size_empty|rewrite map_size_singleton]; lia.
  - intros c Hc. destruct HH as [->|(h & I & -> & HI)]; [by rewrite map_img_empty_L in Hc|].
    rewrite map_img_singleton_L, elem_of_singleton in Hc. subst c. split; [by apply data_not_bitmap|by apply data_not_one].
  - eexists s1, _, _. split; [done|]. split; [exact Hx1|]. split.
    + apply freed_unmark; [apply Hly|intros c; exact (tx_block x [] s _ c Hx)|lia].
    + pose proof (BBLOCK_in b sb (ly_bitmap _ Hly) ltac:(lia)). set_solver.
Qed.

(** The blocks at [l] are data in use, all different. *)
Definition live V (l : list Z) : Prop :=
  (∀ n a, l !! n = Some a → a ≠ 0 → data_block sb a ∧ used V sb a = true) ∧
  (∀ n m a, l !! n = Some a → l !! m = Some a → a ≠ 0 → n = m).
Definition nonzero (l : list Z) (c : Z) : Prop := c ≠ 0 ∧ c ∈ l.

Lemma live_tail V V' a l : live V (a :: l) → freed sb (λ c, c ≠ 0 ∧ c = a) V V' → live V' l.
Proof using Hly.
  intros [L1 L2] [F1 _]. split.
  - intros n b Hn Hb. destruct (L1 (Datatypes.S n) b Hn Hb) as [Hd Hu]. split; [done|]. pose proof (data_range sb b Hly Hd). apply F1; [lia|]. split; [done|].
    intros [_ ->]. specialize (L2 0%nat (Datatypes.S n) a eq_refl Hn Hb). done.
  - intros n m b Hn Hm Hb. specialize (L2 (Datatypes.S n) (Datatypes.S m) b Hn Hm Hb). lia.
Qed.
Lemma nonzero_cons a l c : nonzero (a :: l) c ↔ (c ≠ 0 ∧ c = a) ∨ nonzero l c.
Proof using. unfold nonzero. rewrite elem_of_cons. tauto. Qed.

Lemma room_bitmap V H Q V' H' Q' F k : room (Txspec V H Q ∅) F k → Q' ⊆ Q ∪ bitmap_blocks sb → bitmap_blocks sb ⊆ F → room (Txspec V' H' Q' ∅) F k.
Proof using All. intros [H1 H2] Hs HF. split; [done|]. simpl in *. assert (Q' ∪ F ⊆ Q ∪ F) as Hs' by set_solver. apply subseteq_size in Hs'. lia. Qed.

(** One turn: [a] is freed if it is a block. *)
Lemma free_one x s t V H Q F k a l : tx x [] s (Txspec V H Q ∅) → fs_sb t = sb → holds_data H → room (Txspec V H Q ∅) F k → bitmap_blocks sb ⊆ F →
  decode_sb (V 1) = sb → live V (a :: l) →
  ∃ s' V' Q', (if negb (a =? 0) then bfree tx_dev a else ret ()) (s, t) = Ret () (s', t) ∧ tx x [] s' (Txspec V' H Q' ∅) ∧
    freed sb (λ c, c ≠ 0 ∧ c = a) V V' ∧ Q' ⊆ Q ∪ bitmap_blocks sb ∧ room (Txspec V' H Q' ∅) F k ∧ decode_sb (V' 1) = sb.
Proof using All.
  intros Hx Hsb HH Hr HF Hdec [L1 _]. destruct (Z.eqb_spec a 0) as [->|Ha]; cbn [negb].
  - exists s, V, Q. split; [done|]. split; [done|]. split; [apply freed_none; tauto|]. split; [set_solver|done].
  - destruct (L1 0%nat a eq_refl Ha) as [Hd Hu]. destruct (bfree_freed x s t V H Q F k a) as (s1 & V1 & Q1 & E1 & Hx1 & [G1 G2] & HQ); try done.
    exists s1, V1, Q1. split; [done|]. split; [done|]. split; [|split; [done|split]].
    + split; [|done]. intros c Hc. rewrite G1 by done. split; intros [? ?]; (split; [done|]); [tauto|]. intros ->. tauto.
    + by eapply room_bitmap.
    + rewrite G2; [done|]. by apply one_not_bitmap.
Qed.

Lemma itrunc_direct_ok i F k : bitmap_blocks sb ⊆ F → ∀ cnt n x s t V Q, tx x [] s (Txspec V ∅ Q ∅) → fs_sb t = sb → i_dev (ii t i) = tx_dev →
  room (Txspec V ∅ Q ∅) F k → decode_sb (V 1) = sb → (n + cnt ≤ length (i_addrs (ii t i)))%nat → live V (take cnt (drop n (i_addrs (ii t i)))) →
  ∃ s' t' V' Q', itrunc_direct cnt n i (s, t) = Ret () (s', t') ∧ tx x [] s' (Txspec V' ∅ Q' ∅) ∧
    retyped t t' i (take n (i_addrs (ii t i)) ++ replicate cnt 0 ++ drop (n + cnt) (i_addrs (ii t i))) ∧
    freed sb (nonzero (take cnt (drop n (i_addrs (ii t i))))) V V' ∧ Q' ⊆ Q ∪ bitmap_blocks sb.
Proof using All.
  intros HF. induction cnt as [|cnt IH]; intros n x s t V Q Hx Hsb Hdev Hr Hdec Hlen Hl; set (A := i_addrs (ii t i)) in *.
  { simpl. exists s, t, V, Q. split; [done|]. split; [done|]. rewrite Nat.add_0_r, take_drop. split; [apply retyped_refl|]. split; [|set_solver].
    apply freed_none. intros c [_ Hc]. by apply elem_of_nil in Hc. }
  destruct (drop n A) as [|a rest] eqn:Ed. { apply (f_equal length) in Ed. rewrite length_drop in Ed. simpl in Ed. lia. }
  assert (A !! n = Some a) as Ea by (by rewrite <- (Nat.add_0_r n), <- lookup_drop, Ed). assert (drop (Datatypes.S n) A = rest) as Er.
  { rewrite <- Nat.add_1_r, <- drop_drop, Ed. done. }
  simpl. next. rewrite Hdev. unfold addr. fold A. rewrite Ea. change (default 0 (Some a)) with a.
  destruct (free_one x s t V ∅ Q F k a (take cnt rest) Hx Hsb) as (s1 & V1 & Q1 & E1 & Hx1 & Hf1 & HQ1 & Hr1 & Hd1); [by left|done..|].
  set (A1 := <[n := 0]> A). assert (∃ t1, (if negb (a =? 0) then bfree tx_dev a;;; upd_in i (λ ip, set_addrs (<[n:=0]> (i_addrs ip)) ip) else ret ()) (s, t) = Ret () (s1, t1) ∧
    retyped t t1 i A1) as (t1 & E2 & Ht1).
  { destruct (Z.eqb_spec a 0) as [E0|E0]; cbn [negb] in *.
    - exists t. injection E1 as <-. split; [done|]. unfold A1. rewrite list_insert_id by congruence. apply retyped_refl.
    - eexists. split; [run E1; reflexivity|]. split; [done|by rewrite ii_upd_eq|intros j Hj; by rewrite ii_upd_ne]. }
  run E2. pose proof (rt_i _ _ _ _ Ht1) as Ei. assert (i_addrs (ii t1 i) = A1) as EA by (by rewrite Ei).
  assert (drop (Datatypes.S n) A1 = rest) as Er1 by (unfold A1; rewrite drop_insert_lt by lia; done).
  destruct (IH (Datatypes.S n) x s1 t1 V1 Q1) as (s2 & t2 & V2 & Q2 & E3 & Hx2 & Ht2 & Hf2 & HQ2); rewrite ?EA; try done;
    [by rewrite (rt_sb _ _ _ _ Ht1)|by rewrite Ei|unfold A1; rewrite length_insert; lia|rewrite Er1; by eapply live_tail|].
  exists s2, t2, V2, Q2. split; [done|]. split; [done|]. rewrite EA in Ht2, Hf2. rewrite Er1 in Hf2. split; [|split; [|set_solver]].
  - eapply retyped_trans; [exact Ht1|]. replace (_ ++ _) with (take (Datatypes.S n) A1 ++ replicate cnt 0 ++ drop (Datatypes.S n + cnt) A1); [done|].
    unfold A1. rewrite drop_insert_lt by lia. rewrite (take_S_r _ n 0) by (apply list_lookup_insert_eq; lia). rewrite take_insert_ge by lia.
    rewrite <- app_assoc. simpl. do 4 f_equal. lia.
  - eapply freed_seq; [|exact Hf1|exact Hf2]. intros c. apply nonzero_cons.
Qed.

Lemma itrunc_indirect_ok h I F k : data_block sb I → bitmap_blocks sb ⊆ F → ∀ cnt j x s t V Q, tx x [] s (Txspec V {[h := I]} Q ∅) → fs_sb t = sb →
  room (Txspec V {[h := I]} Q ∅) F k → decode_sb (V 1) = sb → live V (entry (V I) <$> seq j cnt) →
  ∃ s' V' Q', itrunc_indirect cnt j tx_dev h (s, t) = Ret () (s', t) ∧ tx x [] s' (Txspec V' {[h := I]} Q' ∅) ∧
    freed sb (nonzero (entry (V I) <$> seq j cnt)) V V' ∧ Q' ⊆ Q ∪ bitmap_blocks sb.
Proof using All.
  intros HI HF. induction cnt as [|cnt IH]; intros j x s t V Q Hx Hsb Hr Hdec Hl.
  { simpl. exists s, V, Q. split; [done|]. split; [done|]. split; [|set_solver]. apply freed_none. intros c [_ Hc]. by apply elem_of_nil in Hc. }
  cbn [seq] in Hl |- *. rewrite fmap_cons in Hl |- *. cbn [itrunc_indirect]. run (b_data_tx x [] s t _ h I Hx (lookup_singleton_eq _ _)). cbn [tv]. change (ld32 (V I) _) with (entry (V I) j).
  destruct (free_one x s t V {[h := I]} Q F k (entry (V I) j) (entry (V I) <$> seq (Datatypes.S j) cnt) Hx Hsb) as (s1 & V1 & Q1 & E1 & Hx1 & Hf1 & HQ1 & Hr1 & Hd1); [right; by exists h, I|done|done|done|exact Hl|].
  run E1. assert (V1 I = V I) as EI by (apply (fr_frame _ _ _ _ Hf1); by apply data_not_bitmap).
  destruct (IH (Datatypes.S j) x s1 t V1 Q1) as (s2 & V2 & Q2 & E2 & Hx2 & Hf2 & HQ2); try done; [rewrite EI; by eapply live_tail|].
  exists s2, V2, Q2. split; [done|]. split; [done|]. rewrite EI in Hf2. split; [|set_solver].
  eapply freed_seq; [|exact Hf1|exact Hf2]. intros c. apply nonzero_cons.
Qed.

(** The blocks of a file: the direct ones, those in the indirect block, and it. *)
Definition entries V (A : list Z) : list Z := if fblock V A 140 =? 0 then [] else entry (V (fblock V A 140)) <$> seq 0 128.
Lemma elem_entries V A c : c ≠ 0 → c ∈ entries V A ↔ ∃ j, (j < 128)%nat ∧ fblock V A (12 + j) = c.
Proof using.
  intros Hc. unfold entries. split.
  - destruct (Z.eqb_spec (fblock V A 140) 0) as [E|E]; [by intros ?%elem_of_nil|]. intros (j & -> & Hj%elem_of_seq)%list_elem_of_fmap. exists j. split; [lia|].
    rewrite entry_baddr, baddr_fblock by (done || lia). done.
  - intros (j & Hj & <-). rewrite <- baddr_fblock in Hc by lia. pose proof (baddr_entry V A j Hj Hc) as HI. rewrite (proj2 (Z.eqb_neq _ _) HI). apply list_elem_of_fmap.
    exists j. rewrite elem_of_seq. split; [|lia]. rewrite <- baddr_fblock by lia. by rewrite entry_baddr.
Qed.
Lemma elem_direct V (A : list Z) c : length A = 13%nat → c ∈ take 12 A ↔ ∃ n, (n < 12)%nat ∧ fblock V A n = c.
Proof using.
  intros Hl. rewrite list_elem_of_lookup. split.
  - intros (n & Hn). pose proof (lookup_lt_Some _ _ _ Hn) as Hlt. rewrite length_take in Hlt. exists n. split; [lia|]. rewrite lookup_take_lt in Hn by lia.
    rewrite fblock_direct by lia. by rewrite Hn.
  - intros (n & Hn & <-). exists n. rewrite lookup_take_lt, fblock_direct by done. destruct (A !! n) eqn:E; [done|]. apply lookup_ge_None in E. lia.
Qed.
Lemma owns_parts V A c : length A = 13%nat → owns V A c ↔ (nonzero (take 12 A) c ∨ nonzero (entries V A) c) ∨ (c ≠ 0 ∧ c = fblock V A 140).
Proof using.
  intros Hl. unfold owns, nonzero. split.
  - intros [Hc (n & Hn & E)]. rewrite elem_entries, (elem_direct V) by done. destruct (decide (n < 12)%nat); [left; left; eauto|]. destruct (decide (n = 140)%nat); [subst; auto|].
    left; right. split; [done|]. exists (n - 12)%nat. split; [lia|]. by replace (12 + (n - 12))%nat with n by lia.
  - intros [[[Hc Hin]|[Hc Hin]]|[Hc ->]]; (split; [done|]).
    + apply (elem_direct V) in Hin as (n & Hn & <-); [|done]. exists n. split; [lia|done].
    + apply elem_entries in Hin as (j & Hj & <-); [|done]. exists (12 + j)%nat. split; [lia|done].
    + by exists 140%nat.
Qed.

Lemma live_direct V A : file_wf V sb A → live V (take 12 A).
Proof using.
  intros Hwf. pose proof (fw_len _ _ _ Hwf) as Hl. assert (∀ n a, take 12 A !! n = Some a → (n < 12)%nat ∧ fblock V A n = a) as Hn.
  { intros n a E. pose proof (lookup_lt_Some _ _ _ E) as Hlt. rewrite length_take in Hlt. rewrite lookup_take_lt in E by lia. split; [lia|].
    rewrite fblock_direct by lia. by rewrite E. }
  split.
  - intros n a (H1 & <-)%Hn Ha. apply (fw_data _ _ _ Hwf). apply owns_fblock; [lia|done].
  - intros n m a (H1 & E1)%Hn (H2 & E2)%Hn Ha. apply (fw_inj _ _ _ Hwf); [lia|lia|congruence|congruence].
Qed.
Lemma live_entries V V1 A : file_wf V sb A → freed sb (nonzero (take 12 A)) V V1 → live V1 (entries V A).
Proof using Hly.
  intros Hwf Hf. pose proof (fw_len _ _ _ Hwf) as Hl. assert (∀ n a, entries V A !! n = Some a → (n < 128)%nat ∧ fblock V A (12 + n) = a) as Hn.
  { intros n a. unfold entries. destruct (Z.eqb_spec (fblock V A 140) 0) as [E|E]; [done|]. rewrite list_lookup_fmap. intros (m & Hm & ->)%fmap_Some.
    apply lookup_seq in Hm as [-> Hm]. split; [done|]. simpl. by rewrite entry_baddr, baddr_fblock by (done || lia). }
  split.
  - intros n a (H1 & <-)%Hn Ha. destruct (fw_data _ _ _ Hwf (fblock V A (12 + n))) as [Hd Hu]; [apply owns_fblock; [lia|done]|]. split; [done|].
    pose proof (data_range sb _ Hly Hd). apply (fr_used _ _ _ _ Hf); [lia|]. split; [done|]. intros [_ (m & Hm & E)%(elem_direct V)]; [|done].
    apply (fw_inj _ _ _ Hwf) in E; [lia|lia|lia|]. by rewrite E.
  - intros n m a (H1 & E1)%Hn (H2 & E2)%Hn Ha. assert (12 + n = 12 + m)%nat; [|lia]. apply (fw_inj _ _ _ Hwf); [lia|lia|congruence|congruence].
Qed.
Lemma live_indirect V V1 V2 A : file_wf V sb A → freed sb (nonzero (take 12 A)) V V1 → freed sb (nonzero (entries V A)) V1 V2 → live V2 [fblock V A 140].
Proof using Hly.
  intros Hwf Hf Hf2. pose proof (fw_len _ _ _ Hwf) as Hl. split; [|intros [|n] [|m] a; by try done].
  intros [|n] a E Ha; [|done]. injection E as <-. destruct (fw_data _ _ _ Hwf (fblock V A 140)) as [Hd Hu]; [apply owns_fblock; [lia|done]|]. split; [done|].
  pose proof (data_range sb _ Hly Hd). apply (fr_used _ _ _ _ Hf2); [lia|]. split; [apply (fr_used _ _ _ _ Hf); [lia|]; split; [done|]|].
  - intros [_ (m & Hm & E)%(elem_direct V)]; [|done]. apply (fw_inj _ _ _ Hwf) in E; [lia|lia|lia|]. by rewrite E.
  - intros [_ (m & Hm & E)%elem_entries]; [|done]. apply (fw_inj _ _ _ Hwf) in E; [lia|lia|lia|]. by rewrite E.
Qed.

(** The second part of [itrunc]. *)
Definition itrunc_rest (i : nat) : M (S * fs) () :=
  let! ip := inf i (λ ip, ip) in
  if negb (addr ip 12 =? 0) then
    let! bp := bread_ (i_dev ip) (addr ip 12) in
    itrunc_indirect 128 0 (i_dev ip) bp ;;;
    brelse_ bp ;;;
    bfree (i_dev ip) (addr ip 12) ;;;
    upd_in i (λ ip, set_addrs (<[12%nat := 0]> (i_addrs ip)) ip)
  else ret ().

Lemma itrunc_rest_ok x s t V0 V Q F k i A : tx x [] s (Txspec V ∅ Q ∅) → fs_sb t = sb → i_dev (ii t i) = tx_dev → bitmap_blocks sb ⊆ F → room (Txspec V ∅ Q ∅) F k →
  decode_sb (V 1) = sb → file_wf V0 sb A → freed sb (nonzero (take 12 A)) V0 V → i_addrs (ii t i) = replicate 12 0 ++ drop 12 A →
  ∃ s' t' V' Q', itrunc_rest i (s, t) = Ret () (s', t') ∧ tx x [] s' (Txspec V' ∅ Q' ∅) ∧ retyped t t' i (replicate 13 0) ∧ freed sb (owns V0 A) V0 V' ∧
    Q' ⊆ Q ∪ bitmap_blocks sb.
Proof using All.
  intros Hx Hsb Hdev HF Hr Hdec Hwf Hf EA. pose proof (fw_len _ _ _ Hwf) as Hl. unfold itrunc_rest. next. unfold addr. rewrite EA, Hdev.
  assert ((replicate 12 0 ++ drop 12 A) !! 12%nat = A !! 12%nat) as ->. { rewrite lookup_app_r by (rewrite length_replicate; lia). rewrite length_replicate, lookup_drop. done. }
  change (default 0 (A !! 12%nat)) with (fblock V0 A 140). destruct (Z.eqb_spec (fblock V0 A 140) 0) as [EI|EI]; cbn [negb].
  { exists s, t, V, Q. split; [done|]. split; [done|]. assert (replicate 13 0 = i_addrs (ii t i)) as ->.
    { rewrite EA. rewrite fblock_indirect in EI. destruct (drop 12 A) as [|a [|]] eqn:Ed; apply (f_equal length) in Ed as El; rewrite length_drop in El; simpl in El; try lia.
      assert (A !! 12%nat = Some a) as Ea by (by rewrite <- (Nat.add_0_r 12), <- lookup_drop, Ed). rewrite Ea in EI. change (default 0 (Some a)) with a in EI. by subst a. }
    split; [apply retyped_refl|]. split; [|set_solver]. eapply freed_seq; [|exact Hf|apply (freed_none sb (λ _, False)); tauto].
    intros c. rewrite owns_parts, EI by done. unfold nonzero, entries. rewrite EI. cbn [Z.eqb]. rewrite elem_of_nil. tauto. }
  set (I := fblock V0 A 140) in *. destruct (fw_data _ _ _ Hwf I) as [HId HIu]; [by apply owns_fblock|].
  assert (V I = V0 I) as EVI by (apply (fr_frame _ _ _ _ Hf); by apply data_not_bitmap).
  destruct (bread_tx x s t _ F k I Hx) as (h & s1 & E1 & Hh & Hx1); [apply settled_nil|done|by apply (home_data sb)|simpl; by rewrite map_img_empty_L|]. run E1.
  assert (entries V0 A = entry (V I) <$> seq 0 128) as Een by (unfold entries; fold I; by rewrite (proj2 (Z.eqb_neq _ _) EI), EVI).
  pose proof (live_entries V0 V A Hwf Hf) as Hle. rewrite Een in Hle. unfold tx_hold in Hx1. cbn [tv th tl tr] in Hx1. rewrite insert_empty in Hx1.
  destruct (itrunc_indirect_ok h I F k HId HF 128 0 x s1 t V Q Hx1 Hsb) as (s2 & V2 & Q2 & E2 & Hx2 & Hf2 & HQ2); [done..|]. run E2. rewrite <- Een in Hf2.
  rewrite <- insert_empty in Hx2. destruct (brelse_held x s2 t V2 ∅ Q2 h I Hx2) as (s3 & E3 & Hx3); [done|]. run E3.
  destruct (live_indirect V0 V V2 A Hwf Hf Hf2) as [Hli _]. destruct (Hli 0%nat I eq_refl EI) as [_ Hu2].
  destruct (bfree_freed x s3 t V2 ∅ Q2 F k I) as (s4 & V4 & Q4 & E4 & Hx4 & Hf4 & HQ4); try done; [by left|by eapply room_bitmap| |].
  { rewrite (fr_frame _ _ _ _ Hf2); [done|by apply one_not_bitmap]. }
  run E4. eexists s4, _, V4, Q4. split; [done|]. split; [done|]. split; [split; [done|rewrite ii_upd_eq; cbv beta|intros j Hj; by rewrite ii_upd_ne]|split; [|clear -HQ2 HQ4; set_solver]].
  - cbn [snd]. rewrite EA. f_equal. destruct (drop 12 A) as [|a [|]] eqn:Ed; apply (f_equal length) in Ed as El; rewrite length_drop in El; simpl in El; done || lia.
  - assert (freed sb (λ c, nonzero (take 12 A) c ∨ nonzero (entries V0 A) c) V0 V2) as Hf3 by (by eapply freed_seq).
    eapply freed_seq; [|exact Hf3|exact Hf4]. intros c. rewrite owns_parts by done. fold I. split.
    + intros [?|[_ ?]]; [by left|by right].
    + intros [?| ->]; [by left|by right].
Qed.

Lemma itrunc_ok x s t V Q F k i : tx x [] s (Txspec V ∅ Q ∅) → fs_sb t = sb → i_dev (ii t i) = tx_dev → file_wf V sb (i_addrs (ii t i)) → shorts_ok (ii t i) →
  0 ≤ i_inum (ii t i) < sb_ninodes sb → decode_sb (V 1) = sb → room (Txspec V ∅ Q ∅) F k → bitmap_blocks sb ⊆ F →
  ∃ s' t' V1 Q', itrunc i (s, t) = Ret () (s', t') ∧
    tx x [] s' (Txspec (after_iupdate sb V1 (ii t' i)) ∅ ({[IBLOCK (i_inum (ii t i)) sb]} ∪ Q') ∅) ∧ (∀ b, block_ok (V1 b)) ∧
    fs_sb t' = sb ∧ ii t' i = set_isize 0 (set_addrs (replicate 13 0) (ii t i)) ∧ (∀ j, j ≠ i → ii t' j = ii t j) ∧
    freed sb (owns V (i_addrs (ii t i))) V V1 ∧ Q' ⊆ Q ∪ bitmap_blocks sb.
Proof using All.
  intros Hx Hsb Hdev Hwf Hs Hi Hdec Hr HF. pose proof (fw_len _ _ _ Hwf) as Hl. set (A := i_addrs (ii t i)) in *. unfold itrunc.
  destruct (itrunc_direct_ok i F k HF 12 0 x s t V Q) as (s1 & t1 & V1 & Q1 & E1 & Hx1 & Ht1 & Hf1 & HQ1); try done; [fold A; lia|by apply live_direct|]. run E1. fold A in Ht1, Hf1.
  pose proof (rt_i _ _ _ _ Ht1) as Ei1. pose proof (rt_sb _ _ _ _ Ht1) as Es1.
  destruct (itrunc_rest_ok x s1 t1 V V1 Q1 F k i A) as (s2 & t2 & V2 & Q2 & E2 & Hx2 & Ht2 & Hf2 & HQ2); try done; [congruence|by rewrite Ei1|by eapply room_bitmap| |by rewrite Ei1|].
  { rewrite (fr_frame _ _ _ _ Hf1); [done|by apply one_not_bitmap]. }
  unfold itrunc_rest in E2. erewrite bind_Ret in E2; [|reflexivity]. next. run E2. next. pose proof (rt_i _ _ _ _ Ht2) as Ei2. pose proof (rt_sb _ _ _ _ Ht2) as Es2. set (t3 := upd_inode i (set_isize 0) t2).
  assert (ii t3 i = set_isize 0 (set_addrs (replicate 13 0) (ii t i))) as Ei3 by (unfold t3; by rewrite ii_upd_eq, Ei2, Ei1).
  destruct (iupdate_ok sb Hly Hhome Hbm x s2 t3 V2 Q2 F k i) as (s4 & E4 & Hx4); [done|unfold t3; simpl; congruence|by rewrite Ei3|by rewrite Ei3|eapply room_bitmap; [exact Hr|clear -HQ1 HQ2; set_solver|done]|].
  exists s4, t3, V2, Q2. split; [done|]. split; [by rewrite Ei3 in Hx4 |- *|]. split; [intros b; exact (tx_block x [] s2 _ b Hx2)|]. split; [unfold t3; simpl; congruence|].
  split; [done|]. split; [intros j Hj; unfold t3; rewrite ii_upd_ne by done; by rewrite (rt_other _ _ _ _ Ht2), (rt_other _ _ _ _ Ht1)|]. split; [done|clear -HQ1 HQ2; set_solver].
Qed.

(** C14: [itrunc] frees exactly the blocks of the file, direct, indirect and the
    indirect block itself, and leaves an empty file whose inode on disk says so.
    No other inode changes in memory or on disk, no other file loses a block or
    a byte, and nothing but the inode and the free map is logged. *)
Theorem itrunc_correct x s t V Q k i : tx x [] s (Txspec V ∅ Q ∅) → inode_ok sb V t i → decode_sb (V 1) = sb → room (Txspec V ∅ Q ∅) (meta_blocks sb t i) k →
  ∃ s' t' V' Q', itrunc i (s, t) = Ret () (s', t') ∧ tx x [] s' (Txspec V' ∅ Q' ∅) ∧
    ii t' i = set_isize 0 (set_addrs (replicate 13 0) (ii t i)) ∧ synced sb V' t' i ∧ content V' (ii t' i) = [] ∧
    (∀ c, 0 ≤ c < sb_size sb → used V' sb c = true ↔ used V sb c = true ∧ ¬ owns V (i_addrs (ii t i)) c) ∧
    (∀ j, j ≠ i → ii t' j = ii t j) ∧
    (∀ j, 0 ≤ j < sb_ninodes sb → j ≠ i_inum (ii t i) → dinode_at V' sb j = dinode_at V sb j) ∧
    (∀ A2, file_wf V sb A2 → apart V (i_addrs (ii t i)) A2 → file_wf V' sb A2 ∧ ∀ b, owns V A2 b → V' b = V b) ∧
    Q' ⊆ Q ∪ meta_blocks sb t i.
Proof using All.
  intros Hx [H1 [H2 H2' H2'' _] H3 H4 H5 H6 H7] Hdec Hr.
  destruct (itrunc_ok x s t V Q (meta_blocks sb t i) k i) as (s' & t' & V1 & Q1 & E & Hx1 & HV1 & Es & Ei & Ej & [F1 F2] & HQ); try done; [unfold meta_blocks; set_solver|].
  set (V' := after_iupdate sb V1 (ii t' i)) in *. assert (i_inum (ii t' i) = i_inum (ii t i)) as En by (by rewrite Ei).
  assert (dinode_ok (disk_part (ii t' i))) as Hdi. { rewrite Ei. split; [done|done|done|by apply Forall_replicate]. }
  assert (∀ c, 0 ≤ c < sb_size sb → used V' sb c = used V1 sb c) as Hu by (intros c Hc; apply iblock_used; [done|by rewrite En|done]).
  eexists s', t', V', _. split; [done|]. split; [exact Hx1|]. split; [done|]. split; [|split; [by rewrite Ei|split; [|split; [done|split; [|split]]]]].
  - unfold synced. unfold V'. rewrite iupdate_dinode by (done || by rewrite En). by rewrite decide_True.
  - intros c Hc. rewrite Hu by done. by apply F1.
  - intros j Hj Hne. unfold V'. rewrite iupdate_dinode by (done || by rewrite En). rewrite decide_False by congruence. unfold dinode_at. rewrite F2; [done|by apply IBLOCK_not_bitmap].
  - intros A2 Hw Hap. assert (∀ b, owns V A2 b → V' b = V b) as Hs.
    { intros b Hb. destruct (fw_data _ _ _ Hw b Hb) as [Hd _]. unfold V', after_iupdate. rewrite bupd_ne; [apply F2; by apply data_not_bitmap|].
      apply IBLOCK_not_data; [done|by rewrite En|done]. }
    split; [|done]. apply (same_wf sb V); [done| |done]. intros b Hb. split; [by apply Hs|]. destruct (fw_data _ _ _ Hw b Hb) as [Hd Hub]. pose proof (data_range sb b Hly Hd).
    rewrite Hu by lia. apply F1; [lia|]. split; [done|]. intros Ho. by apply (Hap b).
  - unfold meta_blocks. clear -HQ. set_solver.
Qed.
End trunc.

Lemma itrunc_correct_witness : ∃ s s' t' V' Q', itrunc 0 (s, img_fs) = Ret () (s', t') ∧ tx (TxLaws := img_TxLaws) (3%nat, 7) [] s' (Txspec V' ∅ Q' ∅) ∧
  used V' img_sb 35 = false ∧ used V' img_sb 36 = true.
Proof.
  destruct img_tx as (s & Hs).
  destruct (itrunc_correct (TxLaws0 := img_TxLaws) img_sb img_layout img_home_range img_bm (img_home 1 ltac:(lia) ltac:(lia)) (3%nat, 7) s img_fs imgV ∅ 20 0 Hs img_file_ok)
    as (s' & t' & V' & Q' & E & Hx & _ & _ & _ & Hu & _); [vm_compute; reflexivity|by apply img_room|].
  exists s, s', t', V', Q'. split; [done|]. split; [done|]. split.
  - destruct (used V' img_sb 35) eqn:E35; [|done]. apply Hu in E35 as [_ Hn]; [|simpl; lia]. destruct Hn. split; [done|]. exists 0%nat. split; [lia|done].
  - apply Hu; [simpl; lia|]. split; [by vm_compute|]. intros [_ (n & Hn & Ef)]. change (i_addrs (ii img_fs 0)) with (35 :: replicate 12 0) in Ef.
    rewrite fblock_single in Ef by done. by case_decide.
Defined.
