(* ===== verification/User.v ===== *)
(** * User programs and their library (user/ulib.c, user/printf.c)

    A user program is a tree of system calls: it returns, exits, or makes a
    call and goes on with the value and the bytes that the call gives back.
    C strings are the lists of their bytes before the terminating zero.  A
    [system] answers the calls; [run] is the program on a system.  The
    functions of ulib.c and printf.c that the programs use follow. *)
From stdpp Require Import base list gmap strings.
From Stdlib Require Import ZArith Lia.
From S2P Require Import Prelude CString.
#[local] Open Scope Z_scope.

(** ** System calls *)
Inductive call :=
| CRead (fd n : Z) | CWrite (fd : Z) (bs : list Z) | COpen (path : list Z) (mode : Z) | CClose (fd : Z)
| CFstat (fd : Z) | CFork | CWait | CExec (path : list Z) (argv : list (list Z)) | CPipe | CDup (fd : Z)
| CChdir (path : list Z) | CMknod (path : list Z) (major minor : Z) | CMkdir (path : list Z)
| CLink (old new : list Z) | CUnlink (path : list Z) | CKill (pid : Z) | CSleep (n : Z).

(** The answer to a call is its value and what it stores: bytes, or for [pipe]
    and [wait] the numbers.  An answer to [exec] is that it failed: a program
    that was replaced does not go on. *)
Inductive uprog (A : Type) : Type :=
| URet (a : A)
| UExit (status : Z)
| UFault
| USpin
| USys (c : call) (k : Z → list Z → uprog A).
Arguments URet {A} a.
Arguments UExit {A} status.
Arguments UFault {A}.
Arguments USpin {A}.
Arguments USys {A} c k.

Fixpoint ubind {A B} (m : uprog A) (f : A → uprog B) : uprog B :=
  match m with
  | URet a => f a
  | UExit st => UExit st
  | UFault => UFault
  | USpin => USpin
  | USys c k => USys c (λ r bs, ubind (k r bs) f)
  end.
Declare Scope user_scope.
Notation "'let*' x := m 'in' k" := (ubind m (λ x, k)) (at level 10, x pattern, m at level 100, k at level 200) : user_scope.
Notation "m ;; k" := (ubind m (λ _, k)) (at level 100, k at level 200, right associativity) : user_scope.
Open Scope user_scope.

Definition sys (c : call) : uprog Z := USys c (λ r _, URet r).
Definition exit {A} (status : Z) : uprog A := UExit status.

(** What answers the calls: any state with a value, the bytes and a new state
    for every call. *)
Class system (T : Type) := answer : T → call → Z * list Z * T.
Inductive uresult (A T : Type) : Type :=
| Returned (a : A) (σ : T) | Exited (status : Z) (σ : T) | Crashed | Spinning.
Arguments Returned {A T} a σ.
Arguments Exited {A T} status σ.
Arguments Crashed {A T}.
Arguments Spinning {A T}.
Fixpoint run_prog {T A} `{!system T} (m : uprog A) (σ : T) : uresult A T :=
  match m with
  | URet a => Returned a σ
  | UExit st => Exited st σ
  | UFault => Crashed
  | USpin => Spinning
  | USys c k => let '(r, bs, σ') := answer σ c in run_prog (k r bs) σ'
  end.

Lemma run_bind {T A B} `{!system T} (m : uprog A) (f : A → uprog B) σ a σ' :
  run_prog m σ = Returned a σ' → run_prog (ubind m f) σ = run_prog (f a) σ'.
Proof.
  revert σ. induction m as [a0|st| | |c k IH]; intros σ H; simpl in *; try discriminate; [by injection H as -> ->|].
  destruct (answer σ c) as [[r bs] σ1]. by apply IH.
Qed.
Lemma run_bind_exit {T A B} `{!system T} (m : uprog A) (f : A → uprog B) σ st σ' :
  run_prog m σ = Exited st σ' → run_prog (ubind m f) σ = Exited st σ'.
Proof.
  revert σ. induction m as [a0|st0| | |c k IH]; intros σ H; simpl in *; try discriminate; [by injection H as -> ->|].
  destruct (answer σ c) as [[r bs] σ1]. by apply IH.
Qed.

(** ** ulib.c *)
Definition c_null : Z := 0.
(** The first byte of a string, the terminating zero if it is empty. *)
Definition hd0 (s : list Z) : Z := default 0 (head s).

Fixpoint strcmp (p q : list Z) : Z :=
  match p with
  | [] => uchar 0 - uchar (hd0 q)
  | c :: p' => if negb (c =? 0) && (c =? hd0 q) then strcmp p' (tail q) else uchar c - uchar (hd0 q)
  end.
Definition strlen (s : list Z) : Z := Z.of_nat (length s).
(** [strcpy(s, t)]: the string at [s] afterwards. *)
Definition strcpy (t : list Z) : list Z := t.
(** The string from the first [c] on. *)
Fixpoint strchr (s : list Z) (c : Z) : option (list Z) :=
  match s with
  | [] => None
  | d :: s' => if d =? c then Some s else strchr s' c
  end.
Definition is_digit (c : Z) : bool := (48 <=? c) && (c <=? 57).
Fixpoint atoi_from (n : Z) (s : list Z) : Z :=
  match s with
  | c :: s' => if is_digit c then atoi_from (sint (n * 10 + c - 48)) s' else n
  | [] => n
  end.
Definition atoi (s : list Z) : Z := atoi_from 0 s.

(** [gets(buf, max)]: the loop reads one byte at a time. *)
Fixpoint gets_loop (cnt : nat) (acc : list Z) : uprog (list Z) :=
  match cnt with
  | O => URet acc
  | S c =>
      USys (CRead 0 1) (λ cc bs,
        if cc <? 1 then URet acc else
        let b := hd0 bs in
        if (b =? 10) || (b =? 13) then URet (acc ++ [b]) else gets_loop c (acc ++ [b]))
  end.
Definition gets (max : Z) : uprog (list Z) := gets_loop (Z.to_nat (max - 1)) [].

Definition O_RDONLY : Z := 0.
Definition O_WRONLY : Z := 1.
Definition O_RDWR : Z := 2.
Definition O_CREATE : Z := 512.

Definition stat (n : list Z) : uprog (Z * list Z) :=
  let* fd := sys (COpen n O_RDONLY) in
  if fd <? 0 then URet (-1, []) else
  USys (CFstat fd) (λ r st, sys (CClose fd) ;; URet (r, st)).

Section memory.
Context {M : Type} `{!ByteMem M}.
Definition memset (dst c n : Z) (m : M) : M := stosb dst c (Z.to_nat n) m.
(** Bytes are copied upwards, whatever the ranges. *)
Definition memmove (vdst vsrc n : Z) (m : M) : M := memmove_up vdst vsrc (Z.to_nat n) m.
End memory.

(** ** printf.c *)
Definition putc (fd c : Z) : uprog () := sys (CWrite fd [c]) ;; URet ().
Definition digits : list Z := [48; 49; 50; 51; 52; 53; 54; 55; 56; 57; 65; 66; 67; 68; 69; 70].
(** The [do] loop: [buf[0..i)], the least digit first. *)
Fixpoint printint_digits (cnt : nat) (x base : Z) (buf : list Z) : option (list Z) :=
  match cnt with
  | O => None
  | S c =>
      let buf := buf ++ [default 0 (digits !! Z.to_nat (x mod base))] in
      if x / base =? 0 then Some buf else printint_digits c (x / base) base buf
  end.
(** The bytes that [printint] puts out; [buf] has 16 bytes, more digits than
    a [uint] has in base 10 or 16. *)
Definition printint_bytes (xx base : Z) (sgn : bool) : option (list Z) :=
  let neg := sgn && (xx <? 0) in
  let x := if neg then uint (- xx) else uint xx in
  match printint_digits 16 x base [] with
  | None => None
  | Some buf => Some (rev (if neg then buf ++ [45] else buf))
  end.
Fixpoint putcs (fd : Z) (bs : list Z) : uprog () :=
  match bs with [] => URet () | b :: bs' => putc fd b ;; putcs fd bs' end.
Definition printint (fd xx base : Z) (sgn : bool) : uprog () :=
  match printint_bytes xx base sgn with Some bs => putcs fd bs | None => UFault end.

(** The words after [fmt]: integers, and pointers to strings. *)
Inductive arg := AInt (v : Z) | AStr (s : option (list Z)).
Definition null_string : list Z := [40; 110; 117; 108; 108; 41].
Fixpoint printf_from (fd : Z) (fmt : list Z) (percent : bool) (ap : list arg) : uprog () :=
  match fmt with
  | [] => URet ()
  | c :: fmt' =>
      if negb percent then
        if c =? 37 then printf_from fd fmt' true ap else putc fd c ;; printf_from fd fmt' false ap
      else if c =? 100 then
        match ap with AInt v :: ap' => printint fd (sint v) 10 true ;; printf_from fd fmt' false ap' | _ => UFault end
      else if (c =? 120) || (c =? 112) then
        match ap with AInt v :: ap' => printint fd (sint v) 16 false ;; printf_from fd fmt' false ap' | _ => UFault end
      else if c =? 115 then
        match ap with AStr s :: ap' => putcs fd (default null_string s) ;; printf_from fd fmt' false ap' | _ => UFault end
      else if c =? 99 then
        match ap with AInt v :: ap' => putc fd (uchar v) ;; printf_from fd fmt' false ap' | _ => UFault end
      else if c =? 37 then putc fd c ;; printf_from fd fmt' false ap
      else putc fd 37 ;; putc fd c ;; printf_from fd fmt' false ap
  end.
Definition printf (fd : Z) (fmt : list Z) (ap : list arg) : uprog () := printf_from fd fmt false ap.

(** A string literal as bytes. *)
Fixpoint str (s : string) : list Z :=
  match s with EmptyString => [] | String c s' => Z.of_nat (Ascii.nat_of_ascii c) :: str s' end.

(** ** What is put out *)
(** The bytes of [printf], [None] where the arguments do not fit the format. *)
Fixpoint printf_bytes (fmt : list Z) (percent : bool) (ap : list arg) : option (list Z) :=
  match fmt with
  | [] => Some []
  | c :: fmt' =>
      if negb percent then
        if c =? 37 then printf_bytes fmt' true ap else cons c <$> printf_bytes fmt' false ap
      else if c =? 100 then
        match ap with AInt v :: ap' => b ← printint_bytes (sint v) 10 true; app b <$> printf_bytes fmt' false ap' | _ => None end
      else if (c =? 120) || (c =? 112) then
        match ap with AInt v :: ap' => b ← printint_bytes (sint v) 16 false; app b <$> printf_bytes fmt' false ap' | _ => None end
      else if c =? 115 then
        match ap with AStr s :: ap' => app (default null_string s) <$> printf_bytes fmt' false ap' | _ => None end
      else if c =? 99 then
        match ap with AInt v :: ap' => cons (uchar v) <$> printf_bytes fmt' false ap' | _ => None end
      else if c =? 37 then cons c <$> printf_bytes fmt' false ap
      else app [37; c] <$> printf_bytes fmt' false ap
  end.

Section output.
Context {T : Type} `{!system T}.
(** A system that takes the bytes written to [fd] one at a time. *)
Variables (fd : Z) (emit : Z → T → T).
Hypothesis Hemit : ∀ σ b, (answer σ (CWrite fd [b])).2 = emit b σ.
Definition emits (bs : list Z) (σ : T) : T := foldl (λ σ b, emit b σ) σ bs.

Lemma emits_app bs bs' σ : emits (bs ++ bs') σ = emits bs' (emits bs σ).
Proof. apply foldl_app. Qed.
Lemma emits_cons b bs σ : emits (b :: bs) σ = emits bs (emit b σ).
Proof. done. Qed.
Lemma putc_run c σ : run_prog (putc fd c) σ = Returned () (emit c σ).
Proof using Hemit. unfold putc. simpl. specialize (Hemit σ c). destruct (answer σ _) as [[r bs] σ']. simpl in *. by subst. Qed.
Lemma putcs_run bs : ∀ σ, run_prog (putcs fd bs) σ = Returned () (emits bs σ).
Proof using Hemit.
  induction bs as [|b bs IH]; intros σ; [done|]. cbn [putcs]. rewrite (run_bind _ _ _ _ _ (putc_run b σ)). by rewrite IH.
Qed.
Lemma printint_run xx base sgn bs σ : printint_bytes xx base sgn = Some bs → run_prog (printint fd xx base sgn) σ = Returned () (emits bs σ).
Proof using Hemit. intros E. unfold printint. rewrite E. apply putcs_run. Qed.

Lemma printf_from_run fmt : ∀ percent ap bs σ, printf_bytes fmt percent ap = Some bs → run_prog (printf_from fd fmt percent ap) σ = Returned () (emits bs σ).
Proof using Hemit.
  induction fmt as [|c fmt IH]; intros percent ap bs σ H; cbn [printf_bytes printf_from] in *; [by injection H as <-|].
  repeat match goal with
    | H : (if ?b then _ else _) = Some _ |- _ => destruct b eqn:?
    | H : match ?ap with [] => _ | _ => _ end = Some _ |- _ => destruct ap as [|[?|?] ?]; try discriminate
    | H : _ <$> _ = Some _ |- _ => apply fmap_Some in H as (? & ? & ->)
    | H : _ ≫= _ = Some _ |- _ => apply bind_Some in H as (? & ? & ?) end; eauto.
  all: try (erewrite run_bind; [|by eapply printint_run]; rewrite emits_app; by apply IH).
  all: try (erewrite run_bind; [|apply putcs_run]; rewrite emits_app; by apply IH).
  all: try (erewrite run_bind; [|apply putc_run]; rewrite emits_cons; by apply IH).
  erewrite run_bind; [|apply putc_run]. erewrite run_bind; [|apply putc_run]. rewrite emits_app, !emits_cons. by apply IH.
Qed.
Lemma printf_run fmt ap bs σ : printf_bytes fmt false ap = Some bs → run_prog (printf fd fmt ap) σ = Returned () (emits bs σ).
Proof using Hemit. apply printf_from_run. Qed.
End output.

(** ** Numbers *)
Definition digit (d : Z) : Z := default 0 (digits !! Z.to_nat d).
#[global] Arguments digit : simpl never.
(** The number with the digits [ds], the least first. *)
Fixpoint value_le (base : Z) (ds : list Z) : Z := match ds with [] => 0 | d :: ds' => d + base * value_le base ds' end.

Lemma printint_digits_ok base cnt : 2 ≤ base ≤ 16 → ∀ x buf, 0 ≤ x < base ^ Z.of_nat cnt → (0 < cnt)%nat →
  ∃ ds, printint_digits cnt x base buf = Some (buf ++ (digit <$> ds)) ∧ Forall (λ d, 0 ≤ d < base) ds ∧ value_le base ds = x ∧
    (length ds ≤ cnt)%nat ∧ (0 < x → last ds ≠ Some 0) ∧ (x = 0 → ds = [0]).
Proof.
  intros Hb. induction cnt as [|cnt IH]; intros x buf Hx Hc; [lia|]. cbn [printint_digits].
  assert (0 ≤ x mod base < base) as Hm by (apply Z.mod_pos_bound; lia). pose proof (Z.div_mod x base ltac:(lia)) as Hd.
  destruct (Z.eqb_spec (x / base) 0) as [E|E].
  - exists [x mod base]. split; [done|]. split; [by constructor|]. split; [cbn [value_le]; lia|]. split; [simpl; lia|]. split.
    + intros Hp [= Hz]. lia.
    + intros ->. by rewrite Z.mod_0_l by lia.
  - assert (0 ≤ x / base) as Hq by (apply Z.div_pos; lia). rewrite Nat2Z.inj_succ, Z.pow_succ_r in Hx by lia.
    assert (x / base < base ^ Z.of_nat cnt) as Hlt by (apply Z.div_lt_upper_bound; lia).
    destruct cnt as [|cnt]; [simpl in Hlt; lia|].
    destruct (IH (x / base) (buf ++ [default 0 (digits !! Z.to_nat (x mod base))])) as (ds & -> & H1 & H2 & H3 & H4 & H5); [lia|lia|].
    exists (x mod base :: ds). split; [by rewrite <- app_assoc|]. split; [by constructor|]. split; [cbn [value_le]; lia|]. split; [simpl; lia|]. split; [|intros ->; by rewrite Z.div_0_l in E by lia].
    intros _. rewrite last_cons. specialize (H4 ltac:(lia)). destruct (last ds) eqn:El; [congruence|]. apply last_None in El. subst ds. simpl in H2. lia.
Qed.

Lemma sint_small v : -2147483648 ≤ v < 2147483648 → sint v = v.
Proof. intros H. unfold sint. zmod. Qed.
Lemma digit_10 d : 0 ≤ d < 10 → digit d = 48 + d.
Proof. intros H. assert (d = 0 ∨ d = 1 ∨ d = 2 ∨ d = 3 ∨ d = 4 ∨ d = 5 ∨ d = 6 ∨ d = 7 ∨ d = 8 ∨ d = 9) as Hd by lia. by destruct_or! Hd; subst. Qed.
Lemma value_le_pos base ds : 0 ≤ base → Forall (λ d, 0 ≤ d < base) ds → 0 ≤ value_le base ds.
Proof. intros Hb. induction 1; simpl; [lia|]. nia. Qed.
Lemma value_le_app base ds d : value_le base (ds ++ [d]) = value_le base ds + base ^ Z.of_nat (length ds) * d.
Proof. induction ds as [|e ds IH]; cbn [app value_le length]; [simpl; lia|]. rewrite IH, Nat2Z.inj_succ, Z.pow_succ_r by lia. lia. Qed.

(** [atoi] reads the digits, the greatest first, until something else comes. *)
Lemma atoi_from_ok ds : ∀ n rest, Forall (λ d, 0 ≤ d < 10) ds → 0 ≤ n → n * 10 ^ Z.of_nat (length ds) + value_le 10 ds < 2147483648 →
  is_digit (hd0 rest) = false →
  atoi_from n ((digit <$> rev ds) ++ rest) = n * 10 ^ Z.of_nat (length ds) + value_le 10 ds.
Proof.
  induction ds as [|d ds IH] using rev_ind; intros n rest Hd Hn Hlt Hrest.
  - simpl. destruct rest as [|c rest]; simpl in *; [lia|]. unfold hd0 in Hrest. simpl in Hrest. rewrite Hrest. lia.
  - apply Forall_app in Hd as [Hds Hd]. rewrite Forall_singleton in Hd. rewrite rev_app_distr. simpl. rewrite (digit_10 d) by done.
    change (list_fmap Z Z digit (rev ds)) with (digit <$> rev ds).
    rewrite value_le_app in *. rewrite length_app in *. cbn [length] in *. rewrite Nat2Z.inj_add, Z.pow_add_r in * by lia. change (10 ^ Z.of_nat 1) with 10 in *.
    assert (is_digit (48 + d) = true) as -> by (unfold is_digit; lia). pose proof (value_le_pos 10 ds ltac:(lia) Hds) as Hv.
    assert (1 ≤ 10 ^ Z.of_nat (length ds)) as Hp by (pose proof (Z.pow_pos_nonneg 10 (Z.of_nat (length ds))); lia).
    replace (n * 10 + (48 + d) - 48) with (n * 10 + d) by lia. rewrite sint_small by nia.
    rewrite IH; [nia|done|lia|nia|done].
Qed.

Lemma printint_decimal v sgn : 0 ≤ v < 4294967296 → (sgn = true → v < 2147483648) →
  ∃ ds, printint_bytes (sint v) 10 sgn = Some (digit <$> rev ds) ∧ Forall (λ d, 0 ≤ d < 10) ds ∧ value_le 10 ds = v ∧ (length ds ≤ 16)%nat.
Proof.
  intros Hv Hs. unfold printint_bytes. assert (sgn && (sint v <? 0) = false) as ->.
  { destruct sgn; [|done]. specialize (Hs eq_refl). rewrite sint_small by lia. simpl. lia. }
  assert (uint (sint v) = v) as -> by (unfold uint, sint; zmod).
  destruct (printint_digits_ok 10 16 ltac:(lia) v []) as (ds & -> & H1 & H2 & H3 & _); [simpl; lia|lia|].
  exists ds. split; [|done]. simpl. by rewrite <- map_rev.
Qed.
Lemma printint_atoi v : 0 ≤ v < 2147483648 → ∃ bs, printint_bytes (sint v) 10 true = Some bs ∧ atoi bs = v.
Proof.
  intros Hv. destruct (printint_decimal v true) as (ds & E & H1 & H2 & _); [lia|lia|]. exists (digit <$> rev ds). split; [done|]. unfold atoi.
  pose proof (atoi_from_ok ds 0 [] H1 ltac:(lia) ltac:(lia) eq_refl) as Ha. rewrite app_nil_r in Ha. rewrite Ha. lia.
Qed.
Lemma printint_negative v : -2147483648 ≤ v < 0 →
  ∃ ds, printint_bytes v 10 true = Some (45 :: (digit <$> rev ds)) ∧ Forall (λ d, 0 ≤ d < 10) ds ∧ value_le 10 ds = - v ∧ (length ds ≤ 16)%nat.
Proof.
  intros Hv. unfold printint_bytes. assert (true && (v <? 0) = true) as -> by (simpl; lia).
  rewrite (uint_small (- v)) by (unfold is_uint; lia).
  destruct (printint_digits_ok 10 16 ltac:(lia) (- v) []) as (ds & -> & H1 & H2 & H3 & _); [simpl; lia|lia|].
  exists ds. split; [|done]. simpl. rewrite rev_app_distr. simpl. by rewrite <- map_rev.
Qed.

(** A system that takes all output. *)
#[export] Instance sink : system (list Z) := λ out c, match c with CWrite _ bs => (Z.of_nat (length bs), [], out ++ bs) | _ => (-1, [], out) end.
Lemma sink_emit fd (out : list Z) b : (answer out (CWrite fd [b])).2 = out ++ [b].
Proof. done. Qed.
Lemma sink_emits bs : ∀ out, emits (λ b out, out ++ [b]) bs out = out ++ bs.
Proof. induction bs as [|b bs IH]; intros out; [by rewrite app_nil_r|]. rewrite emits_cons, IH. by rewrite <- app_assoc. Qed.

(** [printf] of a number and [atoi] are inverse: the output of [%d] for any
    number [v] above the least is read back as [v], after the minus sign if [v]
    is negative. *)
Theorem printf_atoi fd v : -2147483648 < v < 2147483648 →
  ∃ out, run_prog (printf fd (str "%d") [AInt (uint v)]) [] = Returned () out ∧
    (0 ≤ v → atoi out = v) ∧ (v < 0 → ∃ ds, out = 45 :: ds ∧ atoi ds = - v).
Proof.
  intros Hv. assert (sint (uint v) = v) as Es by (unfold sint, uint; zmod).
  destruct (decide (0 ≤ v)) as [H0|H0].
  - destruct (printint_atoi v) as (bs & E & Ha); [lia|]. rewrite sint_small in E by lia. exists bs.
    rewrite (printf_run fd (λ b out, out ++ [b]) (sink_emit fd) _ _ (bs ++ [])) by (cbn -[printint_bytes]; by rewrite Es, E).
    rewrite sink_emits, app_nil_l, app_nil_r. split; [done|]. split; [done|lia].
  - destruct (printint_negative v) as (ds & E & H1 & H2 & _); [lia|]. exists (45 :: (digit <$> rev ds)).
    rewrite (printf_run fd (λ b out, out ++ [b]) (sink_emit fd) _ _ ((45 :: (digit <$> rev ds)) ++ [])) by (cbn -[printint_bytes]; by rewrite Es, E).
    rewrite sink_emits, app_nil_l, app_nil_r. split; [done|]. split; [lia|]. intros _. exists (digit <$> rev ds). split; [done|]. unfold atoi.
    pose proof (atoi_from_ok ds 0 [] H1 ltac:(lia) ltac:(lia) eq_refl) as Ha. rewrite app_nil_r in Ha. rewrite Ha. lia.
Qed.

(** ** Input in pieces *)
(** A system with the pieces of input still to come, which a [read] may cut
    further, and all the output so far. *)
Record io := Io { io_in : list (list Z); io_out : list Z }.
Definition io_read (n : nat) (pieces : list (list Z)) : list Z * list (list Z) :=
  match pieces with
  | [] => ([], [])
  | b :: bs => (take n b, match drop n b with [] => bs | b' => b' :: bs end)
  end.
#[export] Instance io_system : system io := λ σ c,
  match c with
  | CRead _ n => let '(bs, rest) := io_read (Z.to_nat n) (io_in σ) in (Z.of_nat (length bs), bs, Io rest (io_out σ))
  | CWrite _ bs => (Z.of_nat (length bs), [], Io (io_in σ) (io_out σ ++ bs))
  | _ => (-1, [], σ)
  end.
(** No piece is empty: an empty [read] is the end of the file. *)
Definition pieces_ok (l : list (list Z)) : Prop := Forall (λ b, b ≠ []) l.

Lemma io_read_ok n l bs rest : io_read n l = (bs, rest) → pieces_ok l → (0 < n)%nat →
  pieces_ok rest ∧ concat l = bs ++ concat rest ∧ (bs = [] → l = []).
Proof.
  intros E Hl Hn. destruct l as [|b l]; simpl in E; injection E as <- <-; [done|]. apply Forall_cons in Hl as [Hb Hl]. split_and!.
  - destruct (drop n b) eqn:Ed; [done|]. by constructor.
  - simpl. rewrite <- (take_drop n b) at 1. rewrite <- app_assoc. f_equal. by destruct (drop n b).
  - intros Ht. destruct b, n; simpl in Ht; done || lia.
Qed.
Lemma io_emit fd (σ : io) b : (answer σ (CWrite fd [b])).2 = Io (io_in σ) (io_out σ ++ [b]).
Proof. done. Qed.
Lemma io_emits bs : ∀ σ, emits (λ b σ, Io (io_in σ) (io_out σ ++ [b])) bs σ = Io (io_in σ) (io_out σ ++ bs).
Proof. induction bs as [|b bs IH]; intros [i o]; [by rewrite app_nil_r|]. rewrite emits_cons, IH. simpl. by rewrite <- app_assoc. Qed.
