(* ===== verification/Console.v ===== *)
(** * The console, the keyboard and the serial port (console.c, kbd.c, kbd.h, uart.c)

    Input is a ring of [INPUT_BUF] bytes with three counters: bytes from [r] to
    [w] have been typed and entered, bytes from [w] to [e] can still be edited.
    Output goes to the serial port and to the screen.  The devices are the bytes
    they have waiting and the bytes they were sent.  The file shows that the
    ring is a line discipline: [consoleintr] edits and enters lines,
    [consoleread] gives them out one at a time. *)
From stdpp Require Import base list gmap strings.
From Stdlib Require Import ZArith Lia.
From S2P Require Import Prelude Mmu Spinlock CpuLocks Proc RunQueue Sched Machine Kernel User.
#[local] Open Scope Z_scope.

Definition BACKSPACE : Z := 256.
Definition INPUT_BUF : Z := 128.
(** [C('x')] *)
Definition CTRL_D : Z := 4.
Definition CTRL_H : Z := 8.
Definition CTRL_P : Z := 16.
Definition CTRL_U : Z := 21.

Record console := Console {
  co_panicked : bool; co_locking : bool;
  in_buf : list Z; in_r : Z; in_w : Z; in_e : Z;
  co_crt : Z → Z; co_pos : Z;                              (* CGA memory, cursor *)
  co_uart : bool; co_sent : list Z; co_recv : list Z;      (* serial port *)
  co_shift : Z; co_scan : list Z }.                        (* [shift] of kbdgetc, scan codes *)
Definition set_locking v t := Console (co_panicked t) v (in_buf t) (in_r t) (in_w t) (in_e t) (co_crt t) (co_pos t) (co_uart t) (co_sent t) (co_recv t) (co_shift t) (co_scan t).
Definition set_buf v t := Console (co_panicked t) (co_locking t) v (in_r t) (in_w t) (in_e t) (co_crt t) (co_pos t) (co_uart t) (co_sent t) (co_recv t) (co_shift t) (co_scan t).
Definition set_r v t := Console (co_panicked t) (co_locking t) (in_buf t) v (in_w t) (in_e t) (co_crt t) (co_pos t) (co_uart t) (co_sent t) (co_recv t) (co_shift t) (co_scan t).
Definition set_w v t := Console (co_panicked t) (co_locking t) (in_buf t) (in_r t) v (in_e t) (co_crt t) (co_pos t) (co_uart t) (co_sent t) (co_recv t) (co_shift t) (co_scan t).
Definition set_e v t := Console (co_panicked t) (co_locking t) (in_buf t) (in_r t) (in_w t) v (co_crt t) (co_pos t) (co_uart t) (co_sent t) (co_recv t) (co_shift t) (co_scan t).
Definition set_screen crt pos t := Console (co_panicked t) (co_locking t) (in_buf t) (in_r t) (in_w t) (in_e t) crt pos (co_uart t) (co_sent t) (co_recv t) (co_shift t) (co_scan t).
Definition set_sent v t := Console (co_panicked t) (co_locking t) (in_buf t) (in_r t) (in_w t) (in_e t) (co_crt t) (co_pos t) (co_uart t) v (co_recv t) (co_shift t) (co_scan t).
Definition set_recv v t := Console (co_panicked t) (co_locking t) (in_buf t) (in_r t) (in_w t) (in_e t) (co_crt t) (co_pos t) (co_uart t) (co_sent t) v (co_shift t) (co_scan t).
Definition set_kbd sh sc t := Console (co_panicked t) (co_locking t) (in_buf t) (in_r t) (in_w t) (in_e t) (co_crt t) (co_pos t) (co_uart t) (co_sent t) (co_recv t) sh sc.

(** ** kbd.h *)
Definition SHIFT : Z := 1.
Definition CTL : Z := 2.
Definition ALT : Z := 4.
Definition CAPSLOCK : Z := 8.
Definition NUMLOCK : Z := 16.
Definition SCROLLLOCK : Z := 32.
Definition E0ESC : Z := 64.
(** An array initialiser: the first entries, then entries by index. *)
Fixpoint designated (l : list (Z * Z)) (i : Z) : option Z :=
  match l with [] => None | (j, v) :: l' => if i =? j then Some v else designated l' i end.
Definition table (first : list Z) (l : list (Z * Z)) (i : Z) : Z :=
  match designated l i with Some v => v | None => default 0 (first !! Z.to_nat i) end.
Definition shiftcode : Z → Z := table [] [(29, CTL); (42, SHIFT); (54, SHIFT); (56, ALT); (157, CTL); (184, ALT)].
Definition togglecode : Z → Z := table [] [(58, CAPSLOCK); (69, NUMLOCK); (70, SCROLLLOCK)].
(** [KEY_UP] and the like. *)
Definition special_keys : list (Z * Z) :=
  [(200, 226); (208, 227); (201, 230); (209, 231); (203, 228); (205, 229); (151, 224); (207, 225); (210, 232); (211, 233)].
Definition normalmap : Z → Z := table (
  [0; 27] ++ str "1234567890-=" ++ [8; 9] ++ str "qwertyuiop[]" ++ [10; 0] ++ str "asdfghjkl;'`" ++ [0; 92] ++
  str "zxcvbnm,./" ++ [0; 42; 0; 32; 0; 0; 0; 0; 0; 0; 0; 0; 0; 0; 0; 0; 0] ++ str "789-456+1230." ++ [0; 0; 0; 0])
  ([(156, 10); (181, 47)] ++ special_keys).
Definition shiftmap : Z → Z := table (
  [0; 27] ++ str "!@#$%^&*()_+" ++ [8; 9] ++ str "QWERTYUIOP{}" ++ [10; 0] ++ str "ASDFGHJKL:" ++ [34; 126; 0; 124] ++
  str "ZXCVBNM<>?" ++ [0; 42; 0; 32; 0; 0; 0; 0; 0; 0; 0; 0; 0; 0; 0; 0; 0] ++ str "789-456+1230." ++ [0; 0; 0; 0])
  ([(156, 10); (181, 47)] ++ special_keys).
(** The control keys: [C(x)] for the characters of the string. *)
Definition ctl (s : string) : list Z := (λ c, uchar (c - 64)) <$> str s.
Definition ctlmap : Z → Z := table (
  replicate 16 0 ++ ctl "QWERTYUIOP" ++ [0; 0; 13; 0] ++ ctl "ASDFGHJKL" ++ [0; 0; 0; 0] ++ ctl "\ZXCVBNM" ++ [0; 0] ++ ctl "/" ++ [0; 0])
  ([(156, 13); (181, uchar (47 - 64))] ++ special_keys).
Definition charcode (i : Z) : Z → Z := if i =? 0 then normalmap else if i =? 1 then shiftmap else ctlmap.

(** ** kbd.c and uart.c: where characters come from *)
Definition kbd_press (shift data : Z) : Z * Z :=
  let shift := Z.lor shift (shiftcode data) in
  let shift := Z.lxor shift (togglecode data) in
  let c := charcode (Z.land shift (Z.lor CTL SHIFT)) data in
  let c := if negb (Z.land shift CAPSLOCK =? 0) then
      if (97 <=? c) && (c <=? 122) then c + (65 - 97) else if (65 <=? c) && (c <=? 90) then c + (97 - 65) else c
    else c in
  (shift, c).
(** One scan code: the new [shift] and the character, 0 for none. *)
Definition kbd_code (shift data : Z) : Z * Z :=
  if data =? 224 then (Z.lor shift E0ESC, 0)
  else if negb (Z.land data 128 =? 0) then
    let data := if negb (Z.land shift E0ESC =? 0) then data else Z.land data 127 in
    (Z.land shift (Z.lnot (Z.lor (shiftcode data) E0ESC)), 0)
  else if negb (Z.land shift E0ESC =? 0) then kbd_press (Z.land shift (Z.lnot E0ESC)) (Z.lor data 128)
  else kbd_press shift data.
Definition kbdgetc (t : console) : Z * console :=
  match co_scan t with
  | [] => (-1, t)
  | data :: rest => let '(shift, c) := kbd_code (co_shift t) data in (c, set_kbd shift rest t)
  end.
Definition uartgetc (t : console) : Z * console :=
  if negb (co_uart t) then (-1, t) else
  match co_recv t with [] => (-1, t) | c :: rest => (c, set_recv rest t) end.

(** ** The ring of input *)
(** [lines] has been entered, [edit] can still be edited. *)
Record input_rep (t : console) (lines edit : list Z) : Prop := {
  ir_len : length (in_buf t) = 128%nat;
  ir_r : is_uint (in_r t);
  ir_w : in_w t = uint (in_r t + Z.of_nat (length lines));
  ir_e : in_e t = uint (in_r t + Z.of_nat (length (lines ++ edit)));
  ir_size : (length (lines ++ edit) ≤ 128)%nat;
  ir_data i c : (lines ++ edit) !! i = Some c → in_buf t !! Z.to_nat ((in_r t + Z.of_nat i) mod 128) = Some c }.
Lemma uint_mod_128 z : uint z mod 128 = z mod 128.
Proof. zmod. Qed.
Lemma ring_eq r i j : is_uint r → 0 ≤ i ≤ 128 → 0 ≤ j ≤ 128 → (uint (r + i) =? uint (r + j)) = (i =? j).
Proof.
  unfold is_uint, uint. intros. apply eq_bool_prop_intro. rewrite !Is_true_true, !Z.eqb_eq. split; [|by intros ->]. Z.to_euclidean_division_equations. lia.
Qed.
Section ring.
Context (t : console) (lines edit : list Z).
Hypothesis Hrep : input_rep t lines edit.
Lemma input_editing : (in_e t =? in_w t) = bool_decide (edit = []).
Proof using All.
  destruct Hrep as [_ Hr Hw He Hs _]. rewrite Hw, He, ring_eq by (done || rewrite ?length_app in *; lia). rewrite length_app.
  case_bool_decide as E; [rewrite E; simpl; apply Z.eqb_eq; lia|]. apply Z.eqb_neq. destruct edit; [done|simpl; lia].
Qed.
Lemma input_entered : (in_r t =? in_w t) = bool_decide (lines = []).
Proof using All.
  destruct Hrep as [_ Hr Hw He Hs _]. rewrite length_app in Hs. pose proof (uint_small _ Hr) as E. rewrite Hw, <- E at 1. rewrite <- (Z.add_0_r (in_r t)) at 1.
  rewrite ring_eq by (done || lia). case_bool_decide as E'; [rewrite E'; done|]. apply Z.eqb_neq. destruct lines; [done|simpl; lia].
Qed.
Lemma input_count : uint (in_e t - in_r t) = Z.of_nat (length (lines ++ edit)).
Proof using All. destruct Hrep as [_ Hr Hw He Hs _]. rewrite He. autorewrite with xv6_arith. unfold uint. rewrite Z.mod_small; lia. Qed.
Lemma input_edit_count : uint (in_e t - in_w t) = Z.of_nat (length edit).
Proof using All. destruct Hrep as [_ Hr Hw He Hs _]. rewrite length_app in *. rewrite He, Hw. autorewrite with xv6_arith. unfold uint. rewrite Z.mod_small; lia. Qed.
Lemma input_full : (in_e t =? uint (in_r t + INPUT_BUF)) = (length (lines ++ edit) =? 128)%nat.
Proof using All.
  destruct Hrep as [_ Hr Hw He Hs _]. rewrite He. unfold INPUT_BUF. rewrite ring_eq by (done || lia). apply eq_bool_prop_intro. rewrite !Is_true_true, Z.eqb_eq, Nat.eqb_eq. lia.
Qed.
Lemma input_push c : (length (lines ++ edit) < 128)%nat →
  input_rep (set_e (uint (in_e t + 1)) (set_buf (<[Z.to_nat (in_e t mod INPUT_BUF) := c]> (in_buf t)) t)) lines (edit ++ [c]).
Proof using All.
  destruct Hrep as [Hl Hr Hw He Hs Hd]. intros Hlt. split; simpl; rewrite ?app_assoc.
  - by rewrite length_insert.
  - done.
  - done.
  - rewrite He. rewrite (length_app (lines ++ edit)). autorewrite with xv6_arith. f_equal. simpl. lia.
  - rewrite (length_app (lines ++ edit)). simpl. lia.
  - unfold INPUT_BUF. rewrite He, uint_mod_128. intros i d Hi. rewrite lookup_app in Hi. destruct ((lines ++ edit) !! i) as [d'|] eqn:Ei.
    + injection Hi as <-. apply lookup_lt_Some in Ei as Hil. rewrite list_lookup_insert_ne; [by apply Hd|].
      unfold is_uint in Hr. Z.to_euclidean_division_equations. lia.
    + apply lookup_ge_None in Ei. destruct (i - length (lines ++ edit))%nat as [|j] eqn:Ej; simpl in Hi; [|done]. injection Hi as <-.
      replace i with (length (lines ++ edit)) by lia. apply list_lookup_insert_eq. rewrite Hl. Z.to_euclidean_division_equations. lia.
Qed.
Lemma input_commit : input_rep (set_w (in_e t) t) (lines ++ edit) [].
Proof using All. destruct Hrep as [Hl Hr Hw He Hs Hd]. split; simpl; rewrite ?app_nil_r; done. Qed.
End ring.
Lemma input_erase t lines edit c : input_rep t lines (edit ++ [c]) →
  in_buf t !!! Z.to_nat (uint (in_e t - 1) mod INPUT_BUF) = c ∧ input_rep (set_e (uint (in_e t - 1)) t) lines edit.
Proof.
  intros [Hl Hr Hw He Hs Hd]. rewrite app_assoc in *. rewrite length_app in He, Hs. simpl in He, Hs.
  assert (uint (in_e t - 1) = uint (in_r t + Z.of_nat (length (lines ++ edit)))) as E by (rewrite He; autorewrite with xv6_arith; f_equal; lia). split.
  - apply list_lookup_total_correct. unfold INPUT_BUF. rewrite E, uint_mod_128. apply Hd. by rewrite lookup_app_r, Nat.sub_diag by done.
  - split; simpl; [done|done|done|by rewrite E|lia|]. intros i d Hi. apply Hd. by apply lookup_app_l_Some.
Qed.
Lemma input_pop t lines edit c : input_rep t (c :: lines) edit →
  in_buf t !!! Z.to_nat (in_r t mod INPUT_BUF) = c ∧ input_rep (set_r (uint (in_r t + 1)) t) lines edit.
Proof.
  intros [Hl Hr Hw He Hs Hd]. simpl in Hs. split.
  - specialize (Hd 0%nat c eq_refl). rewrite Z.add_0_r in Hd. by apply list_lookup_total_correct.
  - split; simpl; [done|apply uint_range| | |lia|].
    + rewrite Hw. simpl length. autorewrite with xv6_arith. f_equal. lia.
    + rewrite He. simpl length. autorewrite with xv6_arith. f_equal. lia.
    + intros i d Hi. specialize (Hd (S i) d Hi).
      replace ((uint (in_r t + 1) + Z.of_nat i) mod 128) with ((in_r t + Z.of_nat (S i)) mod 128); [done|].
      unfold uint. Z.to_euclidean_division_equations. lia.
Qed.

(** ** The line discipline *)
(** What a character does to the entered and the editable input. *)
Definition typed (c : Z) (s : list Z * list Z) : list Z * list Z :=
  let '(lines, edit) := s in
  if c =? CTRL_P then s
  else if c =? CTRL_U then (lines, [])
  else if (c =? CTRL_H) || (c =? 127) then (lines, take (length edit - 1) edit)
  else if negb (c =? 0) && (length (lines ++ edit) <? 128)%nat then
    let c := if c =? 13 then 10 else c in
    if (c =? 10) || (c =? CTRL_D) || (S (length (lines ++ edit)) =? 128)%nat then (lines ++ edit ++ [c], []) else (lines, edit ++ [c])
  else s.
Definition typing (cs : list Z) (s : list Z * list Z) : list Z * list Z := foldl (λ s c, typed c s) s cs.

(** What a read of [n] bytes takes from the entered input, if that is enough:
    up to a newline, or up to an end-of-file character, which is used up only by
    a read that got nothing before it. *)
Fixpoint line_take (n : nat) (first : bool) (lines : list Z) : option (list Z * list Z) :=
  match n with
  | O => Some ([], lines)
  | S n' =>
      match lines with
      | [] => None
      | c :: lines' =>
          if c =? CTRL_D then Some ([], if first then lines' else lines)
          else if c =? 10 then Some ([c], lines')
          else r ← line_take n' false lines'; Some (c :: r.1, r.2)
      end
  end.

(** The devices that input comes from. *)
Definition dev_of (t : console) := (co_recv t, co_scan t, co_shift t, co_uart t, co_locking t).
Definition only_dev (t t' : console) : Prop := ∃ sh sc rc, t' = set_recv rc (set_kbd sh sc t).
(** [getc] gives the characters [cs] and then -1. *)
Fixpoint supplies (getc : console → Z * console) (cs : list Z) (t : console) : Prop :=
  only_dev t (getc t).2 ∧
  match cs with
  | [] => (getc t).1 < 0
  | c :: cs' => is_uchar c ∧ (getc t).1 = c ∧ ∀ t', dev_of t' = dev_of (getc t).2 → supplies getc cs' t'
  end.

Lemma supplies_uart cs : ∀ t, co_uart t = true → co_recv t = cs → Forall is_uchar cs → supplies uartgetc cs t.
Proof.
  induction cs as [|c cs IH]; intros t Hu Hr Hc; cbn [supplies]; unfold uartgetc; rewrite Hu, Hr; cbn [negb fst snd].
  - split; [|lia]. exists (co_shift t), (co_scan t), (co_recv t). by destruct t.
  - apply Forall_cons in Hc as [Hc Hcs]. split; [exists (co_shift t), (co_scan t), cs; by destruct t|]. split; [done|]. split; [done|].
    intros t' [= E1 E2 E3 E4 E5]. apply IH; [by rewrite E4|done|done].
Qed.

(** The characters of a sequence of scan codes. *)
Fixpoint kbd_chars (shift : Z) (scan : list Z) : list Z :=
  match scan with [] => [] | data :: scan' => let '(shift', c) := kbd_code shift data in c :: kbd_chars shift' scan' end.
(** Seven modifier bits and a byte give seven modifier bits and a byte. *)
Lemma kbd_code_range shift data : 0 ≤ shift < 128 → is_uchar data → 0 ≤ (kbd_code shift data).1 < 128 ∧ is_uchar (kbd_code shift data).2.
Proof.
  intros Hs Hd. assert (forallb (λ s, forallb (λ d, let '(s', c) := kbd_code (Z.of_nat s) (Z.of_nat d) in (0 <=? s') && (s' <? 128) && (0 <=? c) && (c <? 256)) (seq 0 256)) (seq 0 128) = true) as H
    by (vm_compute; reflexivity).
  rewrite forallb_forall in H. specialize (H (Z.to_nat shift)). rewrite forallb_forall in H. unfold is_uchar in *.
  specialize (H ltac:(apply in_seq; lia) (Z.to_nat data) ltac:(apply in_seq; lia)). rewrite !Z2Nat.id in H by lia. destruct (kbd_code shift data) as [s' c]. cbn [fst snd]. lia.
Qed.
(** The [E0] escape lasts for one code. *)
Lemma kbd_code_escape shift data : 0 ≤ shift < 128 → is_uchar data → data ≠ 224 → Z.land (kbd_code shift data).1 E0ESC = 0.
Proof.
  intros Hs Hd Hn.
  assert (forallb (λ s, forallb (λ d, (Z.of_nat d =? 224) || (Z.land (kbd_code (Z.of_nat s) (Z.of_nat d)).1 E0ESC =? 0)) (seq 0 256)) (seq 0 128) = true) as H
    by (vm_compute; reflexivity).
  rewrite forallb_forall in H. specialize (H (Z.to_nat shift)). rewrite forallb_forall in H. unfold is_uchar in *.
  specialize (H ltac:(apply in_seq; lia) (Z.to_nat data) ltac:(apply in_seq; lia)). rewrite !Z2Nat.id in H by lia. lia.
Qed.
(** The state of the keyboard: seven modifier bits, and bytes from the controller. *)
Definition kbd_wf (t : console) : Prop := 0 ≤ co_shift t < 128 ∧ Forall is_uchar (co_scan t).
Lemma supplies_kbd scan : ∀ t, co_scan t = scan → 0 ≤ co_shift t < 128 → Forall is_uchar scan → supplies kbdgetc (kbd_chars (co_shift t) scan) t.
Proof.
  induction scan as [|data scan IH]; intros t Hr Hs Hc; cbn [kbd_chars].
  - cbn [supplies]. unfold kbdgetc. rewrite Hr. cbn [fst snd]. split; [|lia]. exists (co_shift t), (co_scan t), (co_recv t). by destruct t.
  - apply Forall_cons in Hc as [Hc Hcs]. pose proof (kbd_code_range (co_shift t) data Hs Hc) as [H1 H2]. destruct (kbd_code (co_shift t) data) as [sh c] eqn:E. cbn [fst snd] in *.
    cbn [supplies]. unfold kbdgetc at 1 2 3. rewrite Hr, E. cbn [fst snd]. split; [exists sh, scan, (co_recv t); by destruct t|]. split; [done|]. split; [done|].
    intros t' [= E1 E2 E3 E4 E5]. rewrite <- E3. apply IH; [done|by rewrite E3|done].
Qed.

Definition ex_kbd : console := Console false true [] 0 0 0 (λ _, 0) 0 false [] [] (Z.lor E0ESC CAPSLOCK) [72; 30].

(** Nobody sleeps on [chan]: [wakeup] brings this about and locks do not change it. *)
Class WakeLaws {K : Type} `{!LockOps K, !ProcOps K} (runs : who → list Z → K → Prop) (locks : Z → Prop) (chan : Z) (awake : K → Prop) : Prop := {
  w_acquire lk k k' : k_acquire lk k = Ret () k' → awake k → awake k';
  w_release lk k k' : k_release lk k = Ret () k' → awake k → awake k';
  w_wakeup x L k k' : runs x L k → (∀ l, l ∈ L → locks l) → k_wakeup chan k = Ret () k' → awake k' }.
Definition all_awake (chan : Z) (k : kproc) : Prop := ∀ j p, k_procs k !! j = Some p → p_state p = SLEEPING → p_chan p ≠ chan.
Lemma zoom_hw_procs (m : M hw ()) k k' : zoom hw_lens m k = Ret () k' → k_procs k' = k_procs k.
Proof. unfold zoom. destruct (m _); try done. simpl. by intros [= _ <-]. Qed.
#[export] Instance kproc_WakeLaws D (HD : ptable_lock ∈ D) chan : WakeLaws (runs_on D) (proc_lock D) chan (all_awake chan).
Proof.
  split.
  - intros lk k k' E%zoom_hw_procs H. unfold all_awake. by rewrite E.
  - intros lk k k' E%zoom_hw_procs H. unfold all_awake. by rewrite E.
  - intros x L k k' (me & run & qs & p & Hwf & Hok & _) HL E.
    destruct (wakeup_ok me run D L k qs chan Hwf Hok HD) as (h & ps' & prs' & qs' & E' & _ & Hwf' & Hw & _); [intros Hin; by apply HL in Hin as (_ & _ & ?)|].
    simpl in E. rewrite E' in E. injection E as <-. intros j q Hq Hs Hc. simpl in Hq. destruct (lookup_lt_is_Some_2 (k_procs k) j) as [p0 Hp0].
    { rewrite (sw_len _ _ _ Hwf), <- (sw_len _ _ _ Hwf'). by eapply lookup_lt_Some. }
    destruct (Hw j p0 Hp0) as (q' & Hq' & Eq). rewrite Hq in Hq'. injection Hq' as <-. apply (sleeper_sig chan) in Eq.
    unfold sleeper at 1 in Eq. rewrite !bool_decide_eq_true_2 in Eq by done. unfold wake in Eq. destruct (sleeper chan p0) eqn:E; [done|]. by rewrite E in Eq.
Qed.

Section console.
Context {K : Type} `{!LockOps K, !ProcOps K}.
(** [&cons.lock] and [&input.r]. *)
Variables cons_lock input_r : Z.

(** ** Output *)
(** The wait for the transmitter to be ready is bounded and then ignored. *)
Definition uartputc (c : Z) : M (K * console) () :=
  let! uart := gets_ co_uart in
  if negb uart then ret () else modify_ (λ t, set_sent (co_sent t ++ [uchar c]) t).
Definition crt_set (pos v : Z) (crt : Z → Z) : Z → Z := λ i, if i =? pos then v else crt i.
(** The [memmove] and the [memset] of the 16-bit cells. *)
Definition crt_scroll (crt : Z → Z) : Z → Z := λ i, if (0 <=? i) && (i <? 23 * 80) then crt (i + 80) else crt i.
Definition crt_clear (pos : Z) (crt : Z → Z) : Z → Z := λ i, if (pos <=? i) && (i <? 24 * 80) then 0 else crt i.
Definition cgaputc (c : Z) : M (K * console) () :=
  let! pos := gets_ co_pos in
  let! crt := gets_ co_crt in
  let '(pos, crt) :=
    if c =? 10 then (pos + (80 - pos mod 80), crt)
    else if c =? BACKSPACE then ((if 0 <? pos then pos - 1 else pos), crt)
    else (pos + 1, crt_set pos (Z.lor (Z.land c 255) 1792) crt) in
  if (pos <? 0) || (25 * 80 <? pos) then panic "pos under/overflow" else
  let '(pos, crt) := if 24 <=? pos / 80 then (pos - 80, crt_clear (pos - 80) (crt_scroll crt)) else (pos, crt) in
  modify_ (set_screen (crt_set pos (Z.lor 32 1792) crt) (ushort pos)).
Definition consputc (c : Z) : M (K * console) () :=
  let! panicked := gets_ co_panicked in
  if (panicked : bool) then λ _, Spin else
  (if c =? BACKSPACE then uartputc 8 ;;; uartputc 32 ;;; uartputc 8 else uartputc c) ;;;
  cgaputc c.
Fixpoint consputs (bs : list Z) : M (K * console) () :=
  match bs with [] => ret () | b :: bs' => consputc b ;;; consputs bs' end.

(** ** cprintf *)
Definition digits : list Z := [48; 49; 50; 51; 52; 53; 54; 55; 56; 57; 97; 98; 99; 100; 101; 102].
Fixpoint printint_digits (cnt : nat) (x base : Z) (buf : list Z) : option (list Z) :=
  match cnt with
  | O => None
  | S c =>
      let buf := buf ++ [default 0 (digits !! Z.to_nat (x mod base))] in
      if x / base =? 0 then Some buf else printint_digits c (x / base) base buf
  end.
Definition printint_bytes (xx base : Z) (sign : bool) : option (list Z) :=
  let sign := sign && (xx <? 0) in
  let x := if sign then uint (- xx) else uint xx in
  match printint_digits 16 x base [] with
  | None => None
  | Some buf => Some (rev (if sign then buf ++ [45] else buf))
  end.
Definition printint (xx base : Z) (sign : bool) : M (K * console) () :=
  match printint_bytes xx base sign with Some bs => consputs bs | None => fault end.
Fixpoint cprintf_loop (fmt : list Z) (argp : list arg) : M (K * console) () :=
  match fmt with
  | [] => ret ()
  | c :: fmt1 =>
      if negb (c =? 37) then consputc c ;;; cprintf_loop fmt1 argp else
      match fmt1 with
      | [] => ret ()
      | c :: fmt2 =>
          if c =? 100 then match argp with AInt v :: argp' => printint (sint v) 10 true ;;; cprintf_loop fmt2 argp' | _ => fault end
          else if (c =? 120) || (c =? 112) then
            match argp with AInt v :: argp' => printint (sint v) 16 false ;;; cprintf_loop fmt2 argp' | _ => fault end
          else if c =? 115 then
            match argp with AStr s :: argp' => consputs (default null_string s) ;;; cprintf_loop fmt2 argp' | _ => fault end
          else if c =? 37 then consputc 37 ;;; cprintf_loop fmt2 argp
          else consputc 37 ;;; consputc c ;;; cprintf_loop fmt2 argp
      end
  end.
(** The format is never null. *)
Definition cprintf (fmt : list Z) (argp : list arg) : M (K * console) () :=
  let! locking := gets_ co_locking in
  (if (locking : bool) then acquire_ cons_lock else ret ()) ;;;
  cprintf_loop fmt argp ;;;
  (if (locking : bool) then release_ cons_lock else ret ()).

(** ** procdump of proc.c *)
(** The process table, read without its lock, and the return addresses that
    [getcallerpcs] finds on a kernel stack. *)
Variables (table_of : K → list proc) (getcallerpcs : Z → list Z).
Definition state_name (s : procstate) : string :=
  match s with UNUSED => "unused" | EMBRYO => "embryo" | SLEEPING => "sleep " | RUNNABLE => "runble" | RUNNING => "run   " | ZOMBIE => "zombie" end.
(** A name up to its zero. *)
Fixpoint name_str (bs : list Z) : list Z := match bs with [] => [] | b :: bs' => if b =? 0 then [] else b :: name_str bs' end.
Fixpoint dump_pcs (n : nat) (pc : list Z) : M (K * console) () :=
  match n, pc with
  | S n', v :: pc' => if v =? 0 then ret () else cprintf (str " %p") [AInt v] ;;; dump_pcs n' pc'
  | _, _ => ret ()
  end.
Fixpoint procdump_loop (ps : list proc) : M (K * console) () :=
  match ps with
  | [] => ret ()
  | p :: ps' =>
      (if bool_decide (p_state p = UNUSED) then ret () else
       cprintf (str "%d %s %s") [AInt (p_pid p); AStr (Some (str (state_name (p_state p)))); AStr (Some (name_str (p_name p)))] ;;;
       (if bool_decide (p_state p = SLEEPING) then dump_pcs 10 (getcallerpcs (uint (cx_ebp (p_context p) + 8))) else ret ()) ;;;
       cprintf [10] []) ;;;
      procdump_loop ps'
  end.
Definition procdump : M (K * console) () := let! s := get in procdump_loop (take NPROC (table_of s.1)).

(** ** Input *)
Fixpoint kill_line (cnt : nat) : M (K * console) () :=
  let! e := gets_ in_e in
  let! w := gets_ in_w in
  let! buf := gets_ in_buf in
  if negb (e =? w) && negb (buf !!! Z.to_nat (uint (e - 1) mod INPUT_BUF) =? 10) then
    match cnt with
    | O => λ _, Spin
    | S c => modify_ (set_e (uint (e - 1))) ;;; consputc BACKSPACE ;;; kill_line c
    end
  else ret ().
Definition put_input (c : Z) : M (K * console) () :=
  let! e := gets_ in_e in
  let! r := gets_ in_r in
  if negb (c =? 0) && (uint (e - r) <? INPUT_BUF) then
    let c := if c =? 13 then 10 else c in
    modify_ (λ t, set_buf (<[Z.to_nat (e mod INPUT_BUF) := uchar c]> (in_buf t)) t) ;;;
    modify_ (set_e (uint (e + 1))) ;;;
    consputc c ;;;
    let! e := gets_ in_e in
    let! r := gets_ in_r in
    if (c =? 10) || (c =? CTRL_D) || (e =? uint (r + INPUT_BUF)) then
      modify_ (set_w e) ;;; wakeup_ input_r
    else ret ()
  else ret ().
(** One character; [true] when a process listing is asked for. *)
Definition consoleintr_char (c : Z) : M (K * console) bool :=
  if c =? CTRL_P then ret true
  else if c =? CTRL_U then
    let! e := gets_ in_e in
    let! w := gets_ in_w in
    kill_line (Z.to_nat (uint (e - w))) ;;; ret false
  else if (c =? CTRL_H) || (c =? 127) then
    let! e := gets_ in_e in
    let! w := gets_ in_w in
    (if negb (e =? w) then modify_ (set_e (uint (e - 1))) ;;; consputc BACKSPACE else ret ()) ;;; ret false
  else put_input c ;;; ret false.
Fixpoint consoleintr_loop (cnt : nat) (getc : console → Z * console) (doprocdump : bool) : M (K * console) bool :=
  let! r := gets_ getc in
  let '(c, t) := r in
  modify_ (λ _, t) ;;;
  if 0 <=? c then
    match cnt with
    | O => λ _, Spin
    | S n => let! d := consoleintr_char c in consoleintr_loop n getc (doprocdump || d)
    end
  else ret doprocdump.
(** [cnt] characters are enough for what the device has waiting. *)
Definition consoleintr (cnt : nat) (getc : console → Z * console) : M (K * console) () :=
  acquire_ cons_lock ;;;
  let! doprocdump := consoleintr_loop cnt getc false in
  release_ cons_lock ;;;
  (if (doprocdump : bool) then procdump else ret ()).
Definition kbdintr : M (K * console) () := let! sc := gets_ co_scan in consoleintr (length sc) kbdgetc.
Definition uartintr : M (K * console) () := let! rc := gets_ co_recv in consoleintr (length rc) uartgetc.

(** ** The device functions *)
Section device.
Variables (ilock iunlock : nat → M (K * console) ()).
(** Wait for input; [false] when the process has been killed. *)
Fixpoint consoleread_wait (fuel : nat) : M (K * console) bool :=
  let! r := gets_ in_r in
  let! w := gets_ in_w in
  if negb (r =? w) then ret true else
  let! kd := killed_ in
  if (kd : bool) then ret false else
  match fuel with
  | O => park (sleep_ input_r cons_lock)
  | S f => sleep_ input_r cons_lock ;;; consoleread_wait f
  end.
(** After the loop. *)
Definition consoleread_end (ip : nat) (r : Z) (dst : list Z) : M (K * console) (Z * list Z) :=
  release_ cons_lock ;;; ilock ip ;;; ret (r, dst).
(** The loop and what follows it: [n] bytes are left to read of [target], [dst]
    has been stored. *)
Fixpoint consoleread_loop (fuel ip target n : nat) (dst : list Z) : M (K * console) (Z * list Z) :=
  match n with
  | O => consoleread_end ip (Z.of_nat (length dst)) dst
  | S n' =>
      let! go := consoleread_wait fuel in
      if negb go then consoleread_end ip (-1) [] else
      let! r := gets_ in_r in
      let! buf := gets_ in_buf in
      modify_ (set_r (uint (r + 1))) ;;;
      let c := buf !!! Z.to_nat (r mod INPUT_BUF) in
      if c =? CTRL_D then
        (if (n <? target)%nat then let! r := gets_ in_r in modify_ (set_r (uint (r - 1))) else ret ()) ;;;
        consoleread_end ip (Z.of_nat (length dst)) dst
      else if c =? 10 then consoleread_end ip (Z.of_nat (length (dst ++ [c]))) (dst ++ [c])
      else consoleread_loop fuel ip target n' (dst ++ [c])
  end.
Definition consoleread (fuel : nat) (ip : nat) (n : Z) : M (K * console) (Z * list Z) :=
  iunlock ip ;;;
  acquire_ cons_lock ;;;
  consoleread_loop fuel ip (Z.to_nat n) (Z.to_nat n) [].
Definition consolewrite (ip : nat) (buf : list Z) (n : Z) : M (K * console) Z :=
  iunlock ip ;;;
  acquire_ cons_lock ;;;
  consputs (take (Z.to_nat n) buf) ;;;
  release_ cons_lock ;;;
  ilock ip ;;;
  ret n.
End device.
(** The table of devices is a parameter of the file system, and [ioapicenable]
    programs the interrupt controller. *)
Definition consoleinit : M (K * console) () :=
  initlock_ cons_lock "console" ;;; modify_ (set_locking true).

(** ** Output returns and touches nothing but the devices *)
Definition screen_ok (t : console) : Prop := 0 ≤ co_pos t < 24 * 80 ∧ co_panicked t = false.
Definition shown (t t' : console) : Prop :=
  ∃ crt pos sent, t' = set_sent sent (set_screen crt pos t) ∧ 0 ≤ pos < 24 * 80 ∧ ∀ i, ¬ 0 ≤ i < 24 * 80 → crt i = co_crt t i.
Lemma shown_ok t t' : screen_ok t → shown t t' → screen_ok t'.
Proof. intros [_ H] (crt & pos & sent & -> & Hp & _). split; [exact Hp|exact H]. Qed.
Lemma shown_refl t : screen_ok t → shown t t.
Proof. intros [H _]. exists (co_crt t), (co_pos t), (co_sent t). by destruct t. Qed.
Lemma shown_trans t t1 t2 : shown t t1 → shown t1 t2 → shown t t2.
Proof.
  intros (crt & pos & sent & -> & Hp & Hc) (crt' & pos' & sent' & -> & Hp' & Hc'). exists crt', pos', sent'. split; [done|]. split; [done|].
  intros i Hi. rewrite Hc' by done. simpl. by apply Hc.
Qed.

(** The cursor stays on the 24 lines that are used, and nothing is written
    outside them. *)
Lemma cgaputc_ok c (k : K) t : screen_ok t → ∃ t', cgaputc c (k, t) = Ret () (k, t') ∧ shown t t'.
Proof.
  intros [Hp _]. unfold cgaputc. next. next. cbv zeta. set (pos := co_pos t) in *.
  assert (∃ pos1 crt1, (if c =? 10 then (pos + (80 - pos mod 80), co_crt t) else if c =? BACKSPACE then (if 0 <? pos then pos - 1 else pos, co_crt t)
      else (pos + 1, crt_set pos (Z.lor (Z.land c 255) 1792) (co_crt t))) = (pos1, crt1) ∧ 0 ≤ pos1 ≤ 1920 ∧ ∀ i, ¬ 0 ≤ i < 1920 → crt1 i = co_crt t i) as (pos1 & crt1 & -> & Hp1 & Hc1).
  { destruct (c =? 10); [|destruct (c =? BACKSPACE)]; eexists _, _; (split; [reflexivity|]); (split; [|try done]).
    - Z.to_euclidean_division_equations. lia.
    - destruct (Z.ltb_spec 0 pos); lia.
    - lia.
    - intros i Hi. unfold crt_set. rewrite (proj2 (Z.eqb_neq i pos)) by lia. done. }
  rewrite (proj2 (Z.ltb_ge pos1 0)), (proj2 (Z.ltb_ge (25 * 80) pos1)) by lia. cbn [orb]. cbv iota.
  assert (∃ pos2 crt2, (if 24 <=? pos1 / 80 then (pos1 - 80, crt_clear (pos1 - 80) (crt_scroll crt1)) else (pos1, crt1)) = (pos2, crt2) ∧ 0 ≤ pos2 < 1920 ∧
      ∀ i, ¬ 0 ≤ i < 1920 → crt2 i = co_crt t i) as (pos2 & crt2 & -> & Hp2 & Hc2).
  { destruct (Z.leb_spec 24 (pos1 / 80)) as [H|H]; eexists _, _; (split; [reflexivity|]).
    - assert (1920 ≤ pos1) by (Z.to_euclidean_division_equations; lia). split; [lia|]. intros i Hi. unfold crt_clear, crt_scroll.
      destruct ((pos1 - 80 <=? i) && (i <? 24 * 80)) eqn:E1; [lia|]. destruct ((0 <=? i) && (i <? 23 * 80)) eqn:E2; [lia|]. by apply Hc1.
    - split; [Z.to_euclidean_division_equations; lia|done]. }
  eexists. split; [reflexivity|]. eexists _, (ushort pos2), (co_sent t). split; [reflexivity|]. split; [unfold ushort; rewrite Z.mod_small; lia|].
  intros i Hi. unfold crt_set. rewrite (proj2 (Z.eqb_neq i pos2)) by lia. by apply Hc2.
Qed.

Lemma uartputc_ok c (k : K) t : screen_ok t → ∃ t', uartputc c (k, t) = Ret () (k, t') ∧ shown t t'.
Proof.
  intros H. unfold uartputc. next. destruct (co_uart t); cbn [negb]; (eexists; split; [reflexivity|]); [|by apply shown_refl].
  exists (co_crt t), (co_pos t), (co_sent t ++ [uchar c]). split; [by destruct t|]. split; [apply H|done].
Qed.
Lemma consputc_ok c (k : K) t : screen_ok t → ∃ t', consputc c (k, t) = Ret () (k, t') ∧ shown t t'.
Proof.
  intros H. unfold consputc. next. rewrite (proj2 H). cbv iota.
  assert (∃ t1, (if c =? BACKSPACE then uartputc 8 ;;; uartputc 32 ;;; uartputc 8 else uartputc c) (k, t) = Ret () (k, t1) ∧ shown t t1) as (t1 & E1 & H1).
  { destruct (c =? BACKSPACE); [|by apply uartputc_ok]. destruct (uartputc_ok 8 k t H) as (t1 & E1 & H1). run E1. pose proof (shown_ok _ _ H H1) as S1.
    destruct (uartputc_ok 32 k t1 S1) as (t2 & E2 & H2). run E2. destruct (uartputc_ok 8 k t2 (shown_ok _ _ S1 H2)) as (t3 & E3 & H3). exists t3. split; [done|].
    eapply shown_trans; [exact H1|]. by eapply shown_trans. }
  run E1. destruct (cgaputc_ok c k t1 (shown_ok _ _ H H1)) as (t2 & E2 & H2). exists t2. split; [done|]. by eapply shown_trans.
Qed.
Lemma consputs_ok bs (k : K) : ∀ t, screen_ok t → ∃ t', consputs bs (k, t) = Ret () (k, t') ∧ shown t t'.
Proof.
  induction bs as [|b bs IH]; intros t H; [by exists t; split; [|apply shown_refl]|]. cbn [consputs]. destruct (consputc_ok b k t H) as (t1 & E1 & H1). run E1.
  destruct (IH t1 (shown_ok _ _ H H1)) as (t2 & E2 & H2). exists t2. split; [done|]. by eapply shown_trans.
Qed.

Lemma printint_digits_some base : 2 ≤ base → ∀ cnt x buf, 0 ≤ x < base ^ Z.of_nat cnt → cnt ≠ O → ∃ bs, printint_digits cnt x base buf = Some bs.
Proof.
  intros Hb. induction cnt as [|cnt IH]; intros x buf Hx Hc; [done|]. cbn [printint_digits]. destruct (Z.eqb_spec (x / base) 0) as [E|E]; [eauto|].
  rewrite Nat2Z.inj_succ, Z.pow_succ_r in Hx by lia. apply IH.
  - split; [apply Z.div_pos; lia|]. apply Z.div_lt_upper_bound; lia.
  - intros ->. simpl in Hx. apply E. apply Z.div_small. lia.
Qed.
Lemma printint_ok xx base sign (k : K) t : base = 10 ∨ base = 16 → screen_ok t → ∃ t', printint xx base sign (k, t) = Ret () (k, t') ∧ shown t t'.
Proof.
  intros Hb H. unfold printint, printint_bytes.
  assert (∀ y, ∃ bs, printint_digits 16 (uint y) base [] = Some bs) as Hd.
  { intros y. apply printint_digits_some; [lia| |done]. pose proof (uint_range y) as Hy. unfold is_uint in Hy. destruct Hb as [-> | ->]; simpl; lia. }
  destruct (sign && (xx <? 0)); [destruct (Hd (- xx)) as [bs ->]|destruct (Hd xx) as [bs ->]]; by apply consputs_ok.
Qed.

(** The arguments are those the format asks for. *)
Fixpoint fmt_ok (fmt : list Z) (argp : list arg) : bool :=
  match fmt with
  | [] => true
  | c :: fmt1 =>
      if negb (c =? 37) then fmt_ok fmt1 argp else
      match fmt1 with
      | [] => true
      | c :: fmt2 =>
          if (c =? 100) || (c =? 120) || (c =? 112) then match argp with AInt _ :: argp' => fmt_ok fmt2 argp' | _ => false end
          else if c =? 115 then match argp with AStr _ :: argp' => fmt_ok fmt2 argp' | _ => false end
          else fmt_ok fmt2 argp
      end
  end.
Lemma out_bind (m : M (K * console) ()) (f : () → M (K * console) ()) k t : screen_ok t → (∃ t1, m (k, t) = Ret () (k, t1) ∧ shown t t1) →
  (∀ t1, screen_ok t1 → ∃ t2, f () (k, t1) = Ret () (k, t2) ∧ shown t1 t2) → ∃ t2, bind m f (k, t) = Ret () (k, t2) ∧ shown t t2.
Proof.
  intros H (t1 & E1 & H1) Hf. run E1. destruct (Hf t1 (shown_ok _ _ H H1)) as (t2 & E2 & H2). exists t2. split; [done|]. by eapply shown_trans.
Qed.
Lemma cprintf_loop_ok (k : K) n : ∀ fmt argp t, (length fmt ≤ n)%nat → fmt_ok fmt argp = true → screen_ok t → ∃ t', cprintf_loop fmt argp (k, t) = Ret () (k, t') ∧ shown t t'.
Proof.
  induction n as [|n IH]; intros fmt argp t Hn Hf H; (destruct fmt as [|c fmt]; [by exists t; split; [|apply shown_refl]|]); simpl in Hn; [lia|].
  cbn [cprintf_loop fmt_ok] in *. destruct (negb (c =? 37)); [apply out_bind; [done|by apply consputc_ok|]; intros; apply IH; [lia|done|done]|].
  destruct fmt as [|d fmt]; [by exists t; split; [|apply shown_refl]|]. simpl in Hn.
  destruct (d =? 100); cbn [orb] in Hf.
  { destruct argp as [|[v|s] argp]; try done. apply out_bind; [done|apply printint_ok; auto|]; intros; apply IH; [lia|done|done]. }
  destruct ((d =? 120) || (d =? 112)).
  { destruct argp as [|[v|s] argp]; try done. apply out_bind; [done|apply printint_ok; auto|]; intros; apply IH; [lia|done|done]. }
  destruct (d =? 115).
  { destruct argp as [|[v|s] argp]; try done. apply out_bind; [done|by apply consputs_ok|]; intros; apply IH; [lia|done|done]. }
  destruct (d =? 37); [apply out_bind; [done|by apply consputc_ok|]; intros; apply IH; [lia|done|done]|].
  apply out_bind; [done|by apply consputc_ok|]. intros t1 H1. apply out_bind; [done|by apply consputc_ok|]. intros t2 H2. apply IH; [lia|done|done].
Qed.

Lemma cprintf_holds (valid : Z → Prop) (holds : list Z → K → Prop) `{!LockLaws valid holds} L fmt argp k t :
  holds L k → valid cons_lock → cons_lock ∉ L → fmt_ok fmt argp = true → screen_ok t →
  ∃ k' t', cprintf fmt argp (k, t) = Ret () (k', t') ∧ holds L k' ∧ shown t t'.
Proof.
  intros Hk Hv HL Hf H. unfold cprintf. next. destruct (co_locking t); cbv iota.
  - destruct (k_acquire_ok L cons_lock k Hk Hv HL) as (k1 & E1 & Hk1). run (zoom_Ret fst_lens _ (k, t) _ _ E1).
    destruct (cprintf_loop_ok k1 _ fmt argp t (le_n _) Hf H) as (t2 & E2 & H2). cbn [fst_lens lset snd]. run E2.
    destruct (k_release_ok [] L cons_lock k1 Hk1) as (k3 & E3 & Hk3). exists k3, t2. split; [|done]. by apply (zoom_Ret fst_lens _ (k1, t2)).
  - next. destruct (cprintf_loop_ok k _ fmt argp t (le_n _) Hf H) as (t2 & E2 & H2). run E2. exists k, t2. done.
Qed.

(** ** The process listing *)
Section listing.
Context {runs : list Z → K → Prop} {locks : Z → Prop} `{!LockLaws locks runs}.
Hypothesis Hlock : locks cons_lock.
Lemma dump_pcs_ok L n : ∀ pc k t, runs L k → cons_lock ∉ L → screen_ok t → ∃ k' t', dump_pcs n pc (k, t) = Ret () (k', t') ∧ runs L k' ∧ shown t t'.
Proof using All.
  induction n as [|n IH]; intros pc k t Hk HL Hs; cbn [dump_pcs]; [exists k, t; split; [done|]; split; [done|by apply shown_refl]|].
  destruct pc as [|v pc]; [exists k, t; split; [done|]; split; [done|by apply shown_refl]|]. destruct (v =? 0); [exists k, t; split; [done|]; split; [done|by apply shown_refl]|].
  destruct (cprintf_holds locks runs L (str " %p") [AInt v] k t Hk Hlock HL eq_refl Hs) as (k1 & t1 & E1 & Hk1 & H1). run E1.
  destruct (IH pc k1 t1 Hk1 HL (shown_ok _ _ Hs H1)) as (k2 & t2 & E2 & Hk2 & H2). exists k2, t2. split; [done|]. split; [done|]. by eapply shown_trans.
Qed.
Lemma procdump_loop_ok L ps : ∀ k t, runs L k → cons_lock ∉ L → screen_ok t → ∃ k' t', procdump_loop ps (k, t) = Ret () (k', t') ∧ runs L k' ∧ shown t t'.
Proof using All.
  induction ps as [|p ps IH]; intros k t Hk HL Hs; cbn [procdump_loop]; [exists k, t; split; [done|]; split; [done|by apply shown_refl]|].
  case_bool_decide as Eu; [next; by apply IH|].
  destruct (cprintf_holds locks runs L (str "%d %s %s") [AInt (p_pid p); AStr (Some (str (state_name (p_state p)))); AStr (Some (name_str (p_name p)))] k t Hk Hlock HL eq_refl Hs) as (k1 & t1 & E1 & Hk1 & H1).
  run2 E1. pose proof (shown_ok _ _ Hs H1) as Hs1.
  assert (∃ k2 t2, (if bool_decide (p_state p = SLEEPING) then dump_pcs 10 (getcallerpcs (uint (cx_ebp (p_context p) + 8))) else ret ()) (k1, t1) = Ret () (k2, t2) ∧ runs L k2 ∧ shown t1 t2)
    as (k2 & t2 & E2 & Hk2 & H2) by (case_bool_decide; [by apply dump_pcs_ok|exists k1, t1; split; [done|]; split; [done|by apply shown_refl]]).
  run2 E2. pose proof (shown_ok _ _ Hs1 H2) as Hs2. destruct (cprintf_holds locks runs L [10] [] k2 t2 Hk2 Hlock HL eq_refl Hs2) as (k3 & t3 & E3 & Hk3 & H3). run E3.
  destruct (IH k3 t3 Hk3 HL (shown_ok _ _ Hs2 H3)) as (k4 & t4 & E4 & Hk4 & H4). exists k4, t4. split; [done|]. split; [done|].
  eapply shown_trans; [exact H1|]. eapply shown_trans; [exact H2|]. by eapply shown_trans.
Qed.
End listing.

Section with_locks.
Context {runs : who → list Z → K → Prop} {locks : Z → Prop} `{!RunLaws runs locks} {awake : K → Prop} `{!WakeLaws runs locks input_r awake}.
Hypothesis Hlock : locks cons_lock.
(** ** Interrupts edit and enter lines *)
Lemma wakeup_inv_ chan (k k' : K) (t t' : console) : wakeup_ chan (k, t) = Ret () (k', t') → k_wakeup chan k = Ret () k'.
Proof. unfold wakeup_, zoom. cbn [fst_lens lget lset fst snd]. destruct (k_wakeup chan k) as [[] k1| | | | |]; try done. by intros [= -> _]. Qed.
Lemma awake_LockLaws x P : LockLaws locks (λ L k, runs x L k ∧ (P ∨ awake k)).
Proof using RunLaws0 WakeLaws0.
  split.
  - intros L lk k [Hk HW] H1 H2. destruct (r_acquire x L lk k Hk H1 H2) as (k' & E & Hk'). exists k'. split; [done|]. split; [done|].
    destruct HW; [by left|right; by eapply w_acquire].
  - intros L1 L2 lk k [Hk HW]. destruct (r_release x L1 L2 lk k Hk) as (k' & E & Hk'). exists k'. split; [done|]. split; [done|].
    destruct HW; [by left|right; by eapply w_release].
Qed.
Definition tty_ok (t : console) (lines edit : list Z) : Prop := input_rep t lines edit ∧ (10 ∉ edit) ∧ screen_ok t.
Lemma shown_rep t t' lines edit : shown t t' → input_rep t lines edit → input_rep t' lines edit.
Proof. intros (crt & pos & sent & -> & _) [H1 H2 H3 H4 H5 H6]. by split. Qed.
(** The devices have what they had waiting, and nothing outside the screen is drawn. *)
Definition on_screen (t t' : console) : Prop := ∀ i, ¬ 0 ≤ i < 24 * 80 → co_crt t' i = co_crt t i.
Definition drawn (t t' : console) : Prop := dev_of t' = dev_of t ∧ on_screen t t'.
Lemma drawn_refl t : drawn t t.
Proof. by split. Qed.
Lemma drawn_trans t t1 t2 : drawn t t1 → drawn t1 t2 → drawn t t2.
Proof. intros [H1 H2] [H3 H4]. split; [by rewrite H3|]. intros i Hi. by rewrite H4, H2. Qed.
Lemma shown_dev t t' : shown t t' → drawn t t'.
Proof. intros (crt & pos & sent & -> & _ & H). by split. Qed.
Lemma only_dev_ok t t' lines edit : only_dev t t' → tty_ok t lines edit → tty_ok t' lines edit.
Proof. intros (sh & sc & rc & ->) ([H1 H2 H3 H4 H5 H6] & H7 & H8). split; [by split|]. split; [done|exact H8]. Qed.
Lemma consputc_rep c (k : K) t lines edit : input_rep t lines edit → screen_ok t → ∃ t', consputc c (k, t) = Ret () (k, t') ∧ input_rep t' lines edit ∧ screen_ok t' ∧ drawn t t'.
Proof.
  intros Hr Hs. destruct (consputc_ok c k t Hs) as (t' & E & H). exists t'. split; [done|]. split; [by eapply shown_rep|]. split; [by eapply shown_ok|by apply shown_dev].
Qed.

Lemma kill_line_ok (k : K) lines n : ∀ edit t, length edit = n → tty_ok t lines edit →
  ∃ t', kill_line n (k, t) = Ret () (k, t') ∧ tty_ok t' lines [] ∧ drawn t t'.
Proof.
  induction n as [|n IH]; intros edit t Hn (Hr & Hl & Hs); cbn [kill_line]; do 3 next; rewrite (input_editing _ _ _ Hr).
  - destruct edit; [|done]. rewrite bool_decide_eq_true_2 by done. cbn [negb andb]. exists t. split; [done|]. split; [done|apply drawn_refl].
  - destruct edit as [|c edit _] using rev_ind; [done|]. rewrite bool_decide_eq_false_2 by (by destruct edit). cbn [negb andb].
    destruct (input_erase _ _ _ _ Hr) as [-> Hr']. rewrite (proj2 (Z.eqb_neq c 10)) by set_solver. cbn [negb]. next.
    destruct (consputc_rep BACKSPACE k _ _ _ Hr' Hs) as (t1 & E1 & Hr1 & Hs1 & D1). run E1.
    destruct (IH edit t1) as (t2 & E2 & H2 & D2); [rewrite length_app in Hn; simpl in Hn; lia|split_and!; [done|set_solver|done]|].
    exists t2. split; [done|]. split; [done|]. exact (drawn_trans _ _ _ D1 D2).
Qed.

Lemma put_input_ok x L c k t lines edit : runs x (cons_lock :: L) k → (∀ l, l ∈ L → locks l) → is_uchar c → tty_ok t lines edit →
  (c =? CTRL_P) = false → (c =? CTRL_U) = false → ((c =? CTRL_H) || (c =? 127)) = false →
  ∃ k' t', put_input c (k, t) = Ret () (k', t') ∧ runs x (cons_lock :: L) k' ∧
    tty_ok t' (typed c (lines, edit)).1 (typed c (lines, edit)).2 ∧ drawn t t' ∧ (k' = k ∧ (typed c (lines, edit)).1 = lines ∨ awake k').
Proof using All.
  intros Hk HL Hc (Hr & Hl & Hs) Ep Eu Eh. unfold put_input, typed. rewrite Ep, Eu, Eh. do 2 next. rewrite (input_count _ _ _ Hr). unfold INPUT_BUF at 1.
  destruct (Nat.ltb_spec (length (lines ++ edit)) 128) as [Hlt|Hge];
    [rewrite (proj2 (Z.ltb_lt _ _)) by lia|rewrite (proj2 (Z.ltb_ge _ _)) by lia; rewrite andb_false_r; cbn [fst snd]; exists k, t; split_and!; try done; by left].
  rewrite andb_true_r. destruct (negb (c =? 0)); [|cbn [fst snd]; exists k, t; split_and!; try done; by left]. set (d := if c =? 13 then 10 else c).
  assert (is_uchar d) as Hd by (unfold d, is_uchar in *; destruct (c =? 13); lia). rewrite (uchar_small _ Hd). do 2 next.
  pose proof (input_push _ _ _ Hr d Hlt) as Hr1. destruct (consputc_rep d k _ _ _ Hr1 Hs) as (t1 & E1 & Hr2 & Hs2 & D2). cbn [snd]. run E1. do 2 next.
  rewrite (input_full _ _ _ Hr2). rewrite app_assoc, (length_app (lines ++ edit)). cbn [length]. rewrite Nat.add_1_r.
  destruct ((d =? 10) || (d =? CTRL_D) || (S (length (lines ++ edit)) =? 128)%nat) eqn:Ed; cbn [fst snd].
  - next. destruct (wakeup_ok_ x (cons_lock :: L) input_r k (set_w (in_e t1) t1) Hk) as (k2 & E2 & Hk2); [intros l [->|Hin]%elem_of_cons; auto|].
    assert (awake k2) as Haw by (apply (w_wakeup x (cons_lock :: L) k k2 Hk); [intros l [->|Hin]%elem_of_cons; auto|by eapply wakeup_inv_]).
    exists k2, (set_w (in_e t1) t1). split; [exact E2|]. split; [done|]. split; [|split; [exact D2|by right]]. split; [|split; [set_solver|exact Hs2]].
    pose proof (input_commit _ _ _ Hr2) as H. by rewrite <- app_assoc.
  - exists k, t1. split; [done|]. split; [done|]. split; [|split; [exact D2|by left]]. split; [done|]. split; [|done].
    apply orb_false_iff in Ed as [Ed _]. apply orb_false_iff in Ed as [Ed _]. apply Z.eqb_neq in Ed. set_solver.
Qed.

Lemma consoleintr_char_ok x L c k t lines edit : runs x (cons_lock :: L) k → (∀ l, l ∈ L → locks l) → is_uchar c → tty_ok t lines edit →
  ∃ k' t', consoleintr_char c (k, t) = Ret (c =? CTRL_P) (k', t') ∧ runs x (cons_lock :: L) k' ∧
    tty_ok t' (typed c (lines, edit)).1 (typed c (lines, edit)).2 ∧ drawn t t' ∧ (k' = k ∧ (typed c (lines, edit)).1 = lines ∨ awake k').
Proof using All.
  intros Hk HL Hc Ht. unfold consoleintr_char. destruct (c =? CTRL_P) eqn:Ep; [unfold typed; rewrite Ep; exists k, t; split_and!; try done; by left|].
  destruct (c =? CTRL_U) eqn:Eu.
  { destruct Ht as (Hr & Hl & Hs). do 2 next. rewrite (input_edit_count _ _ _ Hr), Nat2Z.id.
    destruct (kill_line_ok k lines _ edit t eq_refl (conj Hr (conj Hl Hs))) as (t1 & E1 & H1 & D1). run E1. exists k, t1. unfold typed. rewrite Ep, Eu. split_and!; try done; [apply H1..|by left]. }
  destruct ((c =? CTRL_H) || (c =? 127)) eqn:Eh.
  { destruct Ht as (Hr & Hl & Hs). do 2 next. rewrite (input_editing _ _ _ Hr). unfold typed. rewrite Ep, Eu, Eh. cbn [fst snd].
    destruct edit as [|d edit _] using rev_ind; [rewrite bool_decide_eq_true_2 by done; next; exists k, t; split_and!; try done; by left|].
    rewrite bool_decide_eq_false_2 by (by destruct edit). cbn [negb]. destruct (input_erase _ _ _ _ Hr) as [_ Hr']. erewrite bind_bind_Ret; [|reflexivity]. cbn [fst snd].
    destruct (consputc_rep BACKSPACE k _ _ _ Hr' Hs) as (t1 & E1 & Hr1 & Hs1 & D1). run E1. exists k, t1. split; [done|]. split; [done|]. split; [|split; [exact D1|by left]].
    rewrite length_app, Nat.add_sub, take_app_length. split; [done|]. split; [set_solver|done]. }
  destruct (put_input_ok x L c k t lines edit Hk HL Hc Ht Ep Eu Eh) as (k1 & t1 & E1 & H1). run E1. by exists k1, t1.
Qed.

Lemma consoleintr_loop_ok x L getc cs : ∀ k t lines edit d, runs x (cons_lock :: L) k → (∀ l, l ∈ L → locks l) → tty_ok t lines edit → supplies getc cs t →
  ∃ b k' t', consoleintr_loop (length cs) getc d (k, t) = Ret b (k', t') ∧ runs x (cons_lock :: L) k' ∧
    tty_ok t' (typing cs (lines, edit)).1 (typing cs (lines, edit)).2 ∧ on_screen t t' ∧ (k' = k ∧ (typing cs (lines, edit)).1 = lines ∨ awake k').
Proof using All.
  induction cs as [|c cs IH]; intros k t lines edit d Hk HL Ht Hsup; cbn [length consoleintr_loop supplies] in *; next;
    destruct Hsup as [Ho Hsup]; destruct (getc t) as [c0 t0] eqn:Eg; cbn [fst snd] in *; next; pose proof (only_dev_ok _ _ _ _ Ho Ht) as Ht0.
  - rewrite (proj2 (Z.leb_gt _ _)) by lia. exists d, k, t0. split_and!; try done; [by destruct Ho as (? & ? & ? & ->)|by left].
  - destruct Hsup as (Hc & -> & Hsup). rewrite (proj2 (Z.leb_le _ _)) by (unfold is_uchar in Hc; lia).
    destruct (consoleintr_char_ok x L c k t0 lines edit Hk HL Hc Ht0) as (k1 & t1 & E1 & Hk1 & Ht1 & [D1 D2] & W1). run E1.
    destruct (IH k1 t1 _ _ (d || (c =? CTRL_P)) Hk1 HL Ht1 (Hsup t1 D1)) as (b & k2 & t2 & E2 & Hk2 & Ht2 & D3 & W2). exists b, k2, t2. split; [done|]. split; [done|].
    unfold typing in *. cbn [foldl]. rewrite <- surjective_pairing in Ht2, W2. split; [done|]. split.
    + intros i Hi. rewrite D3, D2 by done. by destruct Ho as (? & ? & ? & ->).
    + destruct W2 as [[-> ->]|?]; [|by right]. destruct W1 as [[-> ->]|?]; [by left|by right].
Qed.

(** C37: The interrupt handler of the console is a line editor.  For any device
    that has the characters [cs] waiting, the keyboard or the serial port,
    [consoleintr] takes them all and returns, and the ring then holds the
    entered and the editable input that typing [cs] makes of what it held:
    backspace and kill-line edit only what has not been entered, return becomes
    newline, a newline, an end-of-file character or a full buffer enters what
    was typed, and characters beyond a full buffer are dropped; for any values
    of the three wrapping counters.  If anything has been entered, then at the end
    no process is asleep waiting for input.  Echoing never moves the cursor off the
    screen and writes no cell of the video memory outside its 24 lines. *)
Theorem consoleintr_edits x L k t lines edit getc cs :
  runs x L k → (∀ l, l ∈ L → locks l) → cons_lock ∉ L → tty_ok t lines edit → supplies getc cs t →
  ∃ k' t', consoleintr (length cs) getc (k, t) = Ret () (k', t') ∧ runs x L k' ∧
    tty_ok t' (typing cs (lines, edit)).1 (typing cs (lines, edit)).2 ∧ on_screen t t' ∧ ((typing cs (lines, edit)).1 = lines ∨ awake k').
Proof using All.
  intros Hk HL Hc Ht Hsup. unfold consoleintr. destruct (acquire_ok_ x L cons_lock k t Hk Hlock Hc) as (k1 & E1 & Hk1). run E1.
  destruct (consoleintr_loop_ok x L getc cs k1 t lines edit false Hk1 HL Ht Hsup) as (b & k2 & t2 & E2 & Hk2 & Ht2 & D2 & W2). run E2.
  destruct (r_release x [] L cons_lock k2 Hk2) as (k3 & E3 & Hk3). run (zoom_Ret fst_lens _ (k2, t2) _ _ E3). cbn [fst_lens lset snd].
  assert ((typing cs (lines, edit)).1 = lines ∨ awake k3) as W3 by (destruct W2 as [[_ ?]|?]; [by left|right; by eapply w_release]). destruct b; [|by exists k3, t2].
  assert (LockLaws locks (λ L k, runs x L k ∧ ((typing cs (lines, edit)).1 = lines ∨ awake k))) as Hl by apply awake_LockLaws.
  destruct (procdump_loop_ok Hlock L (take NPROC (table_of k3)) k3 t2 (conj Hk3 W3) Hc) as (k4 & t4 & E4 & [Hk4 W4] & H4); [apply Ht2|].
  exists k4, t4. split; [unfold procdump; next; exact E4|]. split; [done|]. destruct Ht2 as (A1 & A2 & A3).
  split; [split; [by eapply shown_rep|split; [done|by eapply shown_ok]]|]. split; [|done]. intros i Hi. destruct (shown_dev _ _ H4) as [_ H5]. by rewrite H5, D2.
Qed.
End with_locks.

(** ** Reading lines *)
Context `{!ProcLaws K}.
Hypothesis Hlock : k_lock cons_lock.
(** A reader that has [n] of its bytes still to read, after [got], from the
    entered input [lines].  It sleeps only when it has taken all that was
    entered, and goes on with whatever is entered then. *)
Fixpoint cons_reads (x : who) (n : nat) (got lines edit : list Z) (o : outcome (K * console) (Z * list Z)) : Prop :=
  match o with
  | Ret (r, bs) (k, t) => k_runs x [] k ∧
      (r = -1 ∧ bs = [] ∧ line_take n (bool_decide (got = [])) lines = None ∧ input_rep t [] edit ∨
       ∃ bs' rest, line_take n (bool_decide (got = [])) lines = Some (bs', rest) ∧ bs = got ++ bs' ∧ r = Z.of_nat (length bs) ∧ input_rep t rest edit)
  | Block c (k, t) kont => c = input_r ∧ k_switch k ∧ line_take n (bool_decide (got = [])) lines = None ∧ input_rep t [] edit ∧
      ∀ k' t' lines' edit', k_switch k' → k_current x k' → input_rep t' lines' edit' →
        cons_reads x (n - length lines) (got ++ lines) lines' edit' (kont (k', t'))
  | Asleep c (k, t) => c = input_r ∧ k_switch k ∧ line_take n (bool_decide (got = [])) lines = None ∧ input_rep t [] edit
  | Panic _ | Fault | Spin => False
  end.

Lemma cons_reads_cons x n got c lines edit o : c ≠ CTRL_D → c ≠ 10 →
  cons_reads x n (got ++ [c]) lines edit o → cons_reads x (S n) got (c :: lines) edit o.
Proof.
  intros H1 H2. apply Z.eqb_neq in H1, H2. assert (bool_decide (got ++ [c] = []) = false) as Eg by (apply bool_decide_eq_false_2; by destruct got).
  assert (line_take (S n) (bool_decide (got = [])) (c :: lines) = (r ← line_take n false lines; Some (c :: r.1, r.2))) as El by (cbn [line_take]; by rewrite H1, H2).
  destruct o as [[r bs] [k t]| | | |ch [k t] kont|ch [k t]]; cbn [cons_reads]; try done; rewrite El, Eg.
  - intros [Hk [(-> & -> & E & Hr)|(bs' & rest & E & -> & -> & Hr)]]; (split; [done|]).
    + left. rewrite E. done.
    + right. exists (c :: bs'), rest. rewrite E. cbn [mbind option_bind fst snd]. split; [done|]. rewrite <- app_assoc. done.
  - intros (-> & Hk & E & Hr & Hkont). rewrite E. split; [done|]. split; [done|]. split; [done|]. split; [done|].
    intros k' t' lines' edit' A1 A2 A3. specialize (Hkont k' t' lines' edit' A1 A2 A3). rewrite <- app_assoc in Hkont. exact Hkont.
  - intros (-> & Hk & E & Hr). rewrite E. done.
Qed.

Lemma consoleread_wait_reads x n got (f : bool → M (K * console) (Z * list Z)) : n ≠ O →
  (∀ k t c lines edit, k_runs x [cons_lock] k → input_rep t (c :: lines) edit → cons_reads x n got (c :: lines) edit (f true (k, t))) →
  (∀ k t edit, k_runs x [cons_lock] k → input_rep t [] edit → cons_reads x n got [] edit (f false (k, t))) →
  ∀ fuel k t lines edit, k_runs x [cons_lock] k → input_rep t lines edit → cons_reads x n got lines edit (bind (consoleread_wait fuel) f (k, t)).
Proof using Hlock.
  intros Hn Ht Hf. assert (∀ b, line_take n b [] = None) as Hnone by (by destruct n).
  induction fuel as [|fuel IH]; intros k t lines edit Hk Hr; cbn [consoleread_wait].
  all: do 2 (erewrite bind_bind_Ret; [|reflexivity]); cbn [snd]; rewrite (input_entered _ _ _ Hr).
  all: destruct lines as [|c lines]; [rewrite bool_decide_eq_true_2 by done|rewrite bool_decide_eq_false_2 by done; cbn [negb]; erewrite bind_Ret; [|reflexivity]; by apply Ht].
  all: cbn [negb]; destruct (killed_ok_ x [cons_lock] k t Hk) as (b & k1 & E1 & Hk1); run2 E1; destruct b;
    [erewrite bind_Ret; [|reflexivity]; by apply Hf|].
  all: destruct (sleep_Block_ x cons_lock input_r k1 t Hk1 Hlock) as (k3 & kont & E3 & Hk3 & Hkont).
  - unfold bind, park. rewrite E3. simpl. done.
  - erewrite obind_Block; [|by apply obind_Block]. simpl. split_and!; [done..|].
    intros k' t' lines' edit' Hk' Hc' Hr'. destruct (Hkont k' t' Hk' Hc') as (k4 & E4 & Hk4). rewrite E4. simpl. rewrite Nat.sub_0_r, app_nil_r. by apply IH.
Qed.

Lemma unpop t : is_uint (in_r t) → set_r (uint (uint (in_r t + 1) - 1)) (set_r (uint (in_r t + 1)) t) = t.
Proof. intros H. destruct t. cbn [in_r] in *. unfold set_r. cbn. autorewrite with xv6_arith. rewrite Z.add_simpl_r, uint_small by done. done. Qed.

(** The inode's lock can be given up and taken back. *)
Variables (ilock iunlock : nat → M (K * console) ()) (ip : nat).
Hypothesis Hunlock : ∀ x k t, k_runs x [] k → ∃ k', iunlock ip (k, t) = Ret () (k', t) ∧ k_runs x [] k'.
Hypothesis Hilock : ∀ x k t, k_runs x [] k → ∃ k', ilock ip (k, t) = Ret () (k', t) ∧ k_runs x [] k'.
Lemma consoleread_end_ok x r bs k t : k_runs x [cons_lock] k → ∃ k', consoleread_end ilock ip r bs (k, t) = Ret (r, bs) (k', t) ∧ k_runs x [] k'.
Proof using Hlock Hunlock Hilock.
  intros Hk. unfold consoleread_end. destruct (release_ok_ x [] [] cons_lock k t Hk) as (k1 & E1 & Hk1). run E1. destruct (Hilock x k1 t Hk1) as (k2 & E2 & Hk2). run E2. by exists k2.
Qed.
Lemma consoleread_loop_reads x fuel target n : ∀ got k t lines edit, k_runs x [cons_lock] k → input_rep t lines edit → (n + length got = target)%nat →
  cons_reads x n got lines edit (consoleread_loop ilock fuel ip target n got (k, t)).
Proof using Hlock Hunlock Hilock.
  induction n as [|n IH]; intros got k t lines edit Hk Hr Ht; cbn [consoleread_loop].
  { destruct (consoleread_end_ok x (Z.of_nat (length got)) got k t Hk) as (k1 & E1 & Hk1). rewrite E1. simpl. split; [done|]. right. exists [], lines. rewrite app_nil_r. done. }
  apply consoleread_wait_reads; try done; clear k t lines edit Hk Hr.
  - intros k t c lines edit Hk Hr. cbn [negb]. do 3 next. destruct (input_pop _ _ _ _ Hr) as [-> Hr']. destruct (Z.eqb_spec c CTRL_D) as [->|Hd].
    + assert (∃ t', (if (S n <? target)%nat then let! r := gets_ in_r in modify_ (set_r (uint (r - 1))) else ret ()) (k, set_r (uint (in_r t + 1)) t) = Ret () (k, t') ∧
        input_rep t' (if bool_decide (got = []) then lines else CTRL_D :: lines) edit) as (t' & E' & Hr2).
      { case_bool_decide as Eg; [subst got; rewrite (proj2 (Nat.ltb_ge _ _)) by (simpl in Ht; lia); by eexists|].
        rewrite (proj2 (Nat.ltb_lt _ _)) by (destruct got; [done|simpl in Ht; lia]). next. eexists. split; [reflexivity|]. cbn [fst snd]. cbn [in_r set_r] in *.
        change (in_r (set_r (uint (in_r t + 1)) t)) with (uint (in_r t + 1)). by rewrite unpop by apply Hr. }
      run E'. destruct (consoleread_end_ok x (Z.of_nat (length got)) got k t' Hk) as (k1 & E1 & Hk1). rewrite E1. cbn [cons_reads]. split; [done|]. right.
      eexists [], _. cbn [line_take]. rewrite Z.eqb_refl, app_nil_r. done.
    + destruct (Z.eqb_spec c 10) as [->|Hn]; [|apply cons_reads_cons; [done|done|]; apply IH; [done|done|rewrite length_app; simpl; lia]].
      destruct (consoleread_end_ok x (Z.of_nat (length (got ++ [10]))) (got ++ [10]) k (set_r (uint (in_r t + 1)) t) Hk) as (k1 & E1 & Hk1). rewrite E1. cbn [cons_reads]. split; [done|].
      right. exists [10], lines. done.
  - intros k t edit Hk Hr. cbn [negb]. destruct (consoleread_end_ok x (-1) [] k t Hk) as (k1 & E1 & Hk1). rewrite E1. cbn [cons_reads]. split; [done|]. left. done.
Qed.

(** [consoleread] gives out the entered input line by line.  A read returns
    at most [n] bytes, up to and with the first newline; an end-of-file
    character ends it, and is kept for the next read unless it is the first
    thing this one finds, so that an end of file is always seen as a read of no
    bytes.  The read sleeps only when it has taken everything that was entered,
    keeps what it has taken, and goes on with whatever the interrupts have
    entered meanwhile; what is still being edited is never given out.  It returns
    -1 only while it would have to wait. *)
Theorem consoleread_lines x fuel n k t lines edit :
  k_runs x [] k → input_rep t lines edit → cons_reads x (Z.to_nat n) [] lines edit (consoleread ilock iunlock fuel ip n (k, t)).
Proof using Hlock Hunlock Hilock.
  intros Hk Hr. unfold consoleread. destruct (Hunlock x k t Hk) as (k1 & E1 & Hk1). run E1.
  destruct (acquire_ok_ x [] cons_lock k1 t Hk1 Hlock) as (k2 & E2 & Hk2); [apply not_elem_of_nil|]. run E2.
  apply consoleread_loop_reads; [done|done|simpl; lia].
Qed.
End console.

(** ** An example: process 3 of the example machine at a terminal *)
Definition ex_console : console :=
  Console false true (replicate 128 0) 4294967290 4294967290 4294967290 (λ _, 0) 0 true [] [] 0 [35; 42; 23; 170; 14; 23; 28].
Lemma ex_console_ok : tty_ok ex_console [] [].
Proof.
  split; [|split; [apply not_elem_of_nil|by split; [simpl; lia|]]]. split; simpl; [done|unfold is_uint; lia|done|done|lia|]. intros i c Hi. by rewrite lookup_nil in Hi.
Qed.
(** h, shift-I, backspace, i, return. *)
Lemma consoleintr_edits_witness :
  ∃ k' t', consoleintr 2 11 k_procs (λ _, []) (length (co_scan ex_console)) kbdgetc (ex_k, ex_console) = Ret () (k', t') ∧
    runs_on ex_D (3%nat, 7) [] k' ∧ tty_ok t' [104; 105; 10] [] ∧ on_screen ex_console t' ∧ ([104; 105; 10] = [] ∨ all_awake 11 k').
Proof.
  pose proof (supplies_kbd (co_scan ex_console) ex_console eq_refl ltac:(simpl; lia) ltac:(repeat constructor; done)) as Hsup.
  apply (@consoleintr_edits kproc _ _ 2 11 k_procs (λ _, []) (runs_on ex_D) (proc_lock ex_D) (@k_runs_RunLaws kproc _ _ (kproc_ProcLaws ex_D ex_ptable))
    (all_awake 11) (kproc_WakeLaws ex_D ex_ptable 11) ex_lock2
    (3%nat, 7) [] ex_k ex_console [] [] kbdgetc _ ex_runs (λ l Hl, match not_elem_of_nil l Hl with end) (not_elem_of_nil 2) ex_console_ok Hsup).
Defined.
