(* ===== verification/Fault.v ===== *)
(** * Page faults and the user's memory (the page fault case of trap.c)

    The kernel of this file is the process table and the allocator,
    [kproc * kmem], with the rest of the system next to it.  [sbrk] only moves
    [p->sz]; pages below it are allocated by [trap] when they are first used,
    by the program or by the kernel on its behalf.  [pgfault] is that case of
    [trap], [user_page] the access of the kernel to a user address, which may
    fault, and the theorems say which address space results. *)
From stdpp Require Import base list gmap strings.
From Stdlib Require Import ZArith Lia Permutation.
From S2P Require Import Prelude User Mmu Spinlock CpuLocks CString Proc RunQueue Sched Machine Kernel Console Kalloc Vm Uvm CopyUvm.
#[local] Open Scope Z_scope.

(** ** Code that changes only the locks and the CPU *)
Section only_hw.
Variables (me : nat) (run : list (option nat)) (D : gset Z).
Definition only_hw (k0 : kproc) (L : list Z) (k : kproc) : Prop := ∃ h, k = with_hw h k0 ∧ hw_ok me run D L h.
#[export] Instance only_hw_LockLaws k0 : LockLaws (.∈ D) (only_hw k0).
Proof.
  split.
  - intros L lk k (h & -> & Hok) HD HL. destruct (acquire_k_ok me run D L lk (with_hw h k0) Hok HD HL) as (h' & E & Hok'). eexists. split; [exact E|]. by exists h'.
  - intros L1 L2 lk k (h & -> & Hok). destruct (release_k_ok me run D L1 L2 lk (with_hw h k0) Hok) as (h' & E & Hok'). eexists. split; [exact E|]. by exists h'.
Qed.
Lemma only_hw_refl k L : hw_ok me run D L (k_hw k) → only_hw k L k.
Proof. intros H. exists (k_hw k). by destruct k. Qed.
Lemma only_hw_trans k0 k L L' k' : only_hw k0 L k → only_hw k L' k' → only_hw k0 L' k'.
Proof. intros (h & -> & _) (h' & -> & H'). by exists h'. Qed.
End only_hw.

(** ** One page more *)
Section one_page.
Context {K : Type} `{!LockOps K}.
Variable kend : Z.
Context (valid : Z → Prop) (holds : list Z → K → Prop) `{!LockLaws valid holds}.
Variable L : list Z.
Hypothesis Hvalid : valid kmem_lock.
Hypothesis HL : kmem_lock ∉ L.

(** A zeroed page is mapped, or the page tables cannot be extended and the page
    goes back. *)
Lemma one_page k s free live pgdir T U vp p : aspace kend s (p :: free) live pgdir T U → holds L k → 0 ≤ vp < 524288 → U !! vp = None →
  ∃ k1 s1, kalloc (k, s) = Ret p (k1, s1) ∧ holds L k1 ∧ page_ok kend p ∧ ∀ k1', holds L k1' →
  ∃ k2 s2 r, mappages pgdir (4096 * vp) PGSIZE (V2P p) (Z.lor PTE_W PTE_U) (k1', upd_mem (memset p 0 PGSIZE) s1) = Ret r (k2, s2) ∧ holds L k2 ∧
    (r = 0 ∧ (∃ free' live' T' U', allocated kend s (p :: free) live pgdir T U (4096 * vp) (4096 * vp + 4096) s2 free' live' T' U') ∨
     r = -1 ∧ ∀ k2', holds L k2' → ∃ k3 s3 live' T', kfree kend p (k2', s2) = Ret () (k3, s3) ∧ holds L k3 ∧
       evolved kend s (p :: free) live pgdir T U s3 [p] live' T' U).
Proof using Hvalid HL LockLaws0.
  intros Has Hk Hvp HU. pose proof (vi_kmem _ _ _ _ _ _ (as_vm _ _ _ _ _ _ _ Has)) as Hinv.
  destruct (kalloc_aspace kend valid holds L Hvalid HL k s free live pgdir T U p Has Hk) as (k1 & s1 & E1 & Hk1 & Has1 & Hm1 & Hu1 & Hpok & Hpo).
  exists k1, s1. split; [exact E1|]. split; [done|]. split; [done|]. intros k1' Hk1'.
  destruct (map_filled kend valid holds L Hvalid HL k1' s1 free live pgdir T U vp p (Z.lor PTE_W PTE_U) (memset p 0 PGSIZE) Has1 Hk1' Hpo Hvp HU)
    as (k2 & s2 & r & l & free' & T' & E2 & Hk2 & Hfree & Hpt & Hlock & Hsame & Hkern & Hr); [done| |].
  { intros m a Ha. rewrite memset_ok by done. rewrite decide_False; [done|unfold in_page, PGSIZE in *; lia]. }
  rewrite Hm1, Hu1 in *. exists k2, s2, r. split; [exact E2|]. split; [done|].
  subst free. assert (∀ q, q ∈ live → q ∉ p :: l) as Hlf.
  { intros q Hq Hin. eapply (free_not_live kend _ _ _ q q Hinv); [|done|done]. listin. }
  assert (∀ q, q ∈ live → q ∈ pt_pages pgdir T' → q ∈ pt_pages pgdir T) as Htabs.
  { intros q Hq. rewrite Hpt. intros [Hin|?]%elem_of_app; [|done]. exfalso. apply (Hlf q Hq). listin. }
  assert (p ∉ live) as Hpl by (intros Hin; apply (Hlf p Hin); left).
  destruct Hr as [(-> & Has2 & Hz)|(-> & -> & Has2)]; [left|right]; (split; [done|]).
  - exists free', (l ++ p :: live), T', (<[vp := (p, 7)]> U). split.
    + split; try done; [permz| |intros q Hq _ Hn; by apply Hsame].
      intros rest Hrest. unfold owned in *. pose proof (upages_insert U vp p 7 HU) as Hui. permz.
    + intros; listin.
    + intros vp' x Hvp'. rewrite lookup_insert_ne; [done|lia].
    + intros vp' Hvp'. assert (vp' = vp) as -> by lia. exists p. rewrite lookup_insert_eq. split; [done|]. split; [done|].
      intros c Hc. rewrite Hz by done. rewrite memset_ok by done. by rewrite decide_True by (unfold in_page, PGSIZE in *; lia).
  - intros k2' Hk2'. pose proof Has2 as [[Hinv2 Hpg2 Hown2] Hnd2 Hlive2 _ _].
    destruct (kfree_freed kend valid holds L Hvalid HL k2' s2 [] (l ++ p :: live) p (l ++ live) Hinv2) as (k3 & s3 & E3 & Hk3 & [F1 F2 F3 F4 F5]); [permz|done|].
    assert (∀ q, q ∈ owned pgdir T' U → q ∈ l ++ live) as Hin.
    { intros q Hq. assert (q ∈ l ++ p :: live) as Hq2 by (apply elem_of_app in Hq as [?|?]; [by apply Hown2|by apply Hlive2]).
      apply elem_of_app in Hq2 as [?|Hq2]; [listin|]. apply elem_of_cons in Hq2 as [->|?]; [|listin]. exfalso.
      unfold owned in Hq. rewrite Hpt, <- app_assoc in Hq. apply elem_of_app in Hq as [Hq|Hq]; [|by apply Hpo].
      pose proof (ki_nodup _ _ _ _ Hinv) as Hn. apply NoDup_app in Hn as (Hn & _ & _). apply NoDup_cons in Hn as [Hn _]. apply Hn. listin. }
    exists k3, s3, (l ++ live), T'. split; [done|]. split; [done|]. split.
    + apply (aspace_frame kend s2 [] (l ++ p :: live)); [done|done|done|]. intros q Hq. apply F5, Hin. unfold owned. listin.
    + permz.
    + intros rest Hrest. unfold owned in *. permz.
    + congruence.
    + done.
    + intros q Hq Hq' Hn. eapply same_page_trans; [by apply Hsame|]. by apply F5.
    + intros va Hva. rewrite <- Hkern by done. apply (lookup_same kend _ _ pgdir T'); [done| |unfold is_uint, KERNBASE in *; lia].
      intros q Hq. apply F5, Hin. unfold owned. listin.
Qed.
End one_page.

(** ** Mapping without a free page *)
Section no_page.
Context {K : Type} `{!LockOps K}.
Variable kend : Z.
Context (valid : Z → Prop) (holds : list Z → K → Prop) `{!LockLaws valid holds}.
Variable L : list Z.
Hypothesis Hvalid : valid kmem_lock.
Hypothesis HL : kmem_lock ∉ L.

Lemma mappages_full k s live pgdir T vp pa perm : vm_inv kend s [] live pgdir T → holds L k → 0 ≤ vp < 524288 →
  Z.land (lookup_pte (km_mem s) pgdir (4096 * vp)) PTE_P = 0 → is_uint (Z.lor (Z.lor pa perm) PTE_P) →
  match T !! PDX (4096 * vp) with
  | None => ∃ k', mappages pgdir (4096 * vp) PGSIZE pa perm (k, s) = Ret (-1) (k', s) ∧ holds L k'
  | Some _ => ∃ s', mappages pgdir (4096 * vp) PGSIZE pa perm (k, s) = Ret 0 (k, s') ∧ grown kend s [] live pgdir T s' [] [] T ∧
      lookup_pte (km_mem s') pgdir (4096 * vp) = Z.lor (Z.lor pa perm) PTE_P
  end.
Proof using Hvalid HL LockLaws0.
  intros Hvm Hk Hvp Hnp Hv. assert (is_uint (4096 * vp)) as Hu by (unfold is_uint; lia). pose proof Hvm as [Hinv Hpg Hown]. unfold mappages.
  assert (PGROUNDDOWN (4096 * vp) = 4096 * vp) as -> by (apply PGROUNDDOWN_id; Z.to_euclidean_division_equations; lia).
  assert (PGROUNDDOWN (uint (4096 * vp + PGSIZE - 1)) = 4096 * vp) as ->
    by (rewrite PGROUNDDOWN_eq; unfold PGSIZE; rewrite uint_small by (unfold is_uint; lia); Z.to_euclidean_division_equations; lia).
  rewrite Z.sub_diag. change (S (Z.to_nat (uint 0 / PGSIZE))) with 1%nat. cbn [mappages_loop].
  destruct (T !! PDX (4096 * vp)) as [t|] eqn:Ht.
  - run (walk_found kend k s pgdir T (4096 * vp) t true Hpg Hu Ht). pose proof (idx_range _ Hu) as [_ Hix].
    assert (page_ok kend t) as Hpt by (by apply (pt_tab _ _ _ _ Hpg (PDX (4096 * vp)))).
    rewrite (proj2 (Z.eqb_neq _ 0)) by (apply page_range in Hpt; lia). next.
    assert (rd32 (km_mem s) (t + 4 * PTX (4096 * vp)) = lookup_pte (km_mem s) pgdir (4096 * vp)) as ->
      by (rewrite (lookup_tab kend _ _ T) by done; by rewrite Ht).
    rewrite Hnp. cbn [negb Z.eqb]. destruct (store_pte kend k s [] live pgdir T (4096 * vp) t _ Hvm Hu Ht Hv) as (s' & E & G & Hl). run E.
    rewrite Z.eqb_refl. exists s'. split; [done|]. split; [done|]. by rewrite Hl, decide_True.
  - destruct (walk_full kend valid holds L Hvalid HL k s pgdir T (4096 * vp) live Hinv Hpg Hu Ht Hk) as (k' & E & Hk'). run E. by exists k'.
Qed.
End no_page.

(** ** Mapping a page that is there *)
Lemma memset_away p a (m : mem) : ¬ in_page p a → rd8 (memset p 0 PGSIZE m) a = rd8 m a.
Proof. intros Ha. rewrite memset_ok by done. rewrite decide_False; [done|]. unfold in_page, PGSIZE in *. lia. Qed.
Lemma mappages_present {K : Type} `{!LockOps K} kend (Hkend : KERNBASE < kend) (k : K) s free live pgdir T U vp q f pa perm p g :
  aspace kend s free live pgdir T U → U !! vp = Some (q, f) → page_ok kend p → p ∉ owned pgdir T U → (∀ a, ¬ in_page p a → rd8 (g (km_mem s)) a = rd8 (km_mem s) a) →
  mappages pgdir (4096 * vp) PGSIZE pa perm (k, upd_mem g s) = Panic "remap".
Proof.
  intros Has HU Hpok Hpo Hg. pose proof Has as [[Hinv Hpg _] _ _ Hdom Huser]. pose proof (Hdom _ _ HU) as Hvp. destruct (as_tab kend Hkend _ _ _ _ _ _ _ _ _ Has HU) as [t Ht].
  assert (∀ r, r ∈ pt_pages pgdir T → same_page (km_mem s) (g (km_mem s)) r) as Hsame.
  { intros r Hr a Ha. apply Hg. intros Ha'. apply Hpo. assert (r = p) as <-; [|unfold owned; listin].
    assert (page_ok kend r) as Hrok by (apply (ki_pages _ _ _ _ Hinv), elem_of_app; right; by apply (vi_own _ _ _ _ _ _ (as_vm _ _ _ _ _ _ _ Has))).
    destruct Hrok as [? _], Hpok as [? _]. unfold in_page in *. Z.to_euclidean_division_equations. lia. }
  assert (is_uint (4096 * vp)) as Hu by (unfold is_uint; lia). assert (pgtable kend (g (km_mem s)) pgdir T) as Hpg' by (eapply pgtable_same; [exact Hpg|apply Hsame; left]).
  unfold mappages. assert (PGROUNDDOWN (4096 * vp) = 4096 * vp) as -> by (apply PGROUNDDOWN_id; Z.to_euclidean_division_equations; lia).
  cbn [mappages_loop]. run (walk_found kend k (upd_mem g s) pgdir T (4096 * vp) t true Hpg' Hu Ht). pose proof (idx_range _ Hu) as [_ Hix].
  assert (page_ok kend t) as Hpt by (by apply (pt_tab _ _ _ _ Hpg (PDX (4096 * vp)))). rewrite (proj2 (Z.eqb_neq _ 0)) by (apply page_range in Hpt; lia). next.
  cbn [km_mem upd_mem]. assert (rd32 (g (km_mem s)) (t + 4 * PTX (4096 * vp)) = lookup_pte (g (km_mem s)) pgdir (4096 * vp)) as -> by (rewrite (lookup_tab kend _ _ T) by done; by rewrite Ht).
  rewrite (lookup_same kend _ _ _ _ _ Hpg Hsame Hu). pose proof (Huser vp Hvp) as H. rewrite HU in H. destruct H as (Hf & HP & ->).
  destruct (as_page kend _ _ _ _ _ _ _ _ _ Has HU) as (Hq & _ & _). 
  assert (Z.land (V2P q + f) PTE_P = Z.land f PTE_P) as ->; [|by rewrite (proj2 (Z.eqb_neq _ 0) HP)].
  apply land_P_add. rewrite (V2P_page kend q Hq). apply page_range in Hq. Z.to_euclidean_division_equations. lia.
Qed.

(** [cprintf] to the rest of the kernel: it prints to something that stays fit
    to be printed to, and takes and releases [cons.lock]. *)
Class PrintOps (S : Type) := k_cprintf : list Z → list arg → M S ().
Class PrintLaws {F : Type} `{!PrintOps (kproc * kmem * F)} (cons_lock : Z) (screen : F → Prop) : Prop :=
  print_ok me run D L k m t fmt argp : hw_ok me run D L (k_hw k) → cons_lock ∈ D → cons_lock ∉ L → screen t → fmt_ok fmt argp = true →
    ∃ k' t', k_cprintf fmt argp (k, m, t) = Ret () (k', m, t') ∧ only_hw me run D k L k' ∧ screen t'.

Section fault.
Context {F : Type} `{!PrintOps (kproc * kmem * F)}.
Variable kend : Z.

Definition kp {A} (m : M kproc A) : M (kproc * kmem * F) A := zoom fst_lens (zoom fst_lens m).
Definition km {A} (m : M (kproc * kmem) A) : M (kproc * kmem * F) A := zoom fst_lens m.

(** [myproc()->field], [myproc()->killed = 1] and [lcr3]. *)
Definition my {A} (f : proc → A) : M (kproc * kmem * F) A := kp (myproc_field f).
Definition kill_me : M (kproc * kmem * F) () :=
  kp (let! p := myproc in let! p := deref p in upd_proc p (set_killed true)).
Definition lcr3 (v : Z) : M (kproc * kmem * F) () :=
  kp (zoom hw_lens (modify (λ h, upd_cpu (h_me h) (set_cr3 v) h))).

(** The page directory of the process that executes, which [switchuvm] has
    loaded. *)
Definition cur_pgdir (k : kproc) : option Z :=
  c ← h_cpus (k_hw k) !! h_me (k_hw k); x ← c_proc c; p ← k_procs k !! x; Some (p_pgdir p).

(** [memset(0, 0, PGSIZE)]: address 0 is the user's.  When it cannot be written
    the store faults in the kernel again, without end. *)
Definition zero_low : M (kproc * kmem * F) () := λ s,
  match cur_pgdir s.1.1 with
  | None => Fault
  | Some pgdir =>
      let pte := lookup_pte (km_mem s.1.2) pgdir 0 in
      if (Z.land pte PTE_P =? 0) || (Z.land pte PTE_W =? 0) then Spin
      else km (modify_ (upd_mem (memset (P2V (PTE_ADDR pte)) 0 PGSIZE))) s
  end.

(** The case [T_PGFLT] of [trap], for the fault address [cr2]. *)
Definition pgfault (cr2 err : Z) : M (kproc * kmem * F) () :=
  let va := PGROUNDDOWN cr2 in
  if Z.land err 7 =? 7 then
    k_cprintf (str "Page violation.Write type. Error code: %d" ++ [10]) [AInt err] ;;; kill_me
  else
    let! sz := my p_sz in
    if (sz <=? va) && negb (Z.land err 6 =? 0) then
      k_cprintf (str "Tried to access beyond sz, Error code: %d" ++ [10]) [AInt err] ;;; kill_me
    else
      let! sz := my p_sz in
      if va <? sz then
        let! mem := km kalloc in
        (if mem =? 0 then k_cprintf (str "usertrap(): kalloc ha fallado" ++ [10]) [] ;;; kill_me else ret ()) ;;;
        (if mem =? 0 then zero_low else km (modify_ (upd_mem (memset mem 0 PGSIZE)))) ;;;
        let! pgdir := my p_pgdir in
        let! r := km (mappages pgdir (PGROUNDDOWN cr2) PGSIZE (V2P mem) (Z.lor PTE_W PTE_U)) in
        (if negb (r =? 0) then
           k_cprintf (str "usertrap(): mappages fall" ++ [195; 179; 10]) [] ;;;
           km (kfree kend mem) ;;;
           kill_me
         else ret ()) ;;;
        let! pgdir := my p_pgdir in
        lcr3 (V2P pgdir)
      else ret ().

(** ** The kernel uses a user address *)
(** The kernel address of byte [va] of the user's memory, after the page fault
    if there has to be one.  The error code has bit 0 for a protection fault and
    bit 1 for a write; a fault that [pgfault] does not mend comes back. *)
Fixpoint user_page (retry : nat) (write : bool) (va : Z) : M (kproc * kmem * F) Z := λ s,
  match cur_pgdir s.1.1 with
  | None => Fault
  | Some pgdir =>
      let pte := lookup_pte (km_mem s.1.2) pgdir va in
      let present := negb (Z.land pte PTE_P =? 0) in
      if present && (negb write || negb (Z.land pte PTE_W =? 0)) then Ret (P2V (PTE_ADDR pte) + va mod PGSIZE) s
      else match retry with
      | O => Spin
      | S r => (pgfault va ((if present then 1 else 0) + (if write then 2 else 0)) ;;; user_page r write va) s
      end
  end.
Definition load8 (va : Z) : M (kproc * kmem * F) Z :=
  let! a := user_page 1 false (uint va) in km (gets_ (λ s, rd8 (km_mem s) a)).
Definition store8 (va v : Z) : M (kproc * kmem * F) () :=
  let! a := user_page 1 true (uint va) in km (modify_ (upd_mem (wr8 a (uchar v)))).
(** A word at a user address, read and written. *)
Definition load32 (va : Z) : M (kproc * kmem * F) Z :=
  let! b0 := load8 va in
  let! b1 := load8 (va + 1) in
  let! b2 := load8 (va + 2) in
  let! b3 := load8 (va + 3) in
  ret (b0 + 256 * b1 + 65536 * b2 + 16777216 * b3).
Definition store32 (va v : Z) : M (kproc * kmem * F) () :=
  store8 va v ;;; store8 (va + 1) (v / 256) ;;; store8 (va + 2) (v / 65536) ;;; store8 (va + 3) (v / 16777216).
End fault.

Section fault_ok.
Context {F : Type} `{!PrintOps (kproc * kmem * F)}.
Variable kend : Z.
Variables (me : nat) (run : list (option nat)) (D : gset Z) (x : nat) (L : list Z).
Hypothesis Hx : run !! me = Some (Some x).
Abbreviation onl := (only_hw me run D).
#[local] Opaque CString.memset mappages kalloc kfree str.

Lemma km_Ret {A} (m : M (kproc * kmem) A) k s (t : F) a k' s' : m (k, s) = Ret a (k', s') → km m (k, s, t) = Ret a (k', s', t).
Proof. intros E. unfold km. by rewrite (zoom_Ret fst_lens m (k, s, t) a (k', s') E). Qed.
Lemma kp_Ret {A} (m : M kproc A) k (s : kmem) (t : F) a k' : m k = Ret a k' → kp m (k, s, t) = Ret a (k', s, t).
Proof. intros E. unfold kp. apply (zoom_Ret fst_lens _ (k, s, t) a (k', s)). by apply (zoom_Ret fst_lens m (k, s)). Qed.

Lemma cur_ok k0 k : onl k0 L k → ∃ k', myproc k = Ret (Some x) k' ∧ onl k0 L k'.
Proof using Hx. intros (h & -> & Hok). destruct (myproc_ok me run D L (with_hw h k0) _ Hok Hx) as (h' & E & Hok'). eexists. split; [exact E|]. by exists h'. Qed.
Lemma my_ok {A} (f : proc → A) k0 k (s : kmem) (t : F) p : onl k0 L k → k_procs k0 !! x = Some p →
  ∃ k', my f (k, s, t) = Ret (f p) (k', s, t) ∧ onl k0 L k'.
Proof using Hx.
  intros Hk Hp. destruct (cur_ok k0 k Hk) as (k' & E & h' & -> & Hok'). exists (with_hw h' k0). split; [|by exists h'].
  apply kp_Ret. unfold myproc_field. run E. next. by erewrite bind_Ret; [|apply get_proc_ok; exact Hp].
Qed.
(** [k] with process [x] marked as killed. *)
Definition killed_k (k : kproc) : kproc := with_procs (alter (set_killed true) x (k_procs k)) k.
Lemma kill_me_ok k0 k (s : kmem) (t : F) p : onl k0 L k → k_procs k0 !! x = Some p →
  ∃ k', kill_me (k, s, t) = Ret () (k', s, t) ∧ onl (killed_k k0) L k'.
Proof using Hx.
  intros Hk Hp. destruct (cur_ok k0 k Hk) as (k' & E & h' & -> & Hok'). eexists. split; [|by exists h'].
  apply kp_Ret. run E. next. by erewrite upd_proc_ok.
Qed.
Lemma lcr3_ok v k0 k (s : kmem) (t : F) : onl k0 L k → ∃ k', lcr3 v (k, s, t) = Ret () (k', s, t) ∧ onl k0 L k'.
Proof.
  intros (h & -> & Hok). eexists. split; [apply kp_Ret; by apply (zoom_Ret hw_lens)|]. exists (upd_cpu me (set_cr3 v) h). simpl.
  rewrite (ho_me _ _ _ _ _ Hok). split; [done|]. by apply hw_ok_keep.
Qed.
Lemma cur_pgdir_ok k0 k p : onl k0 L k → k_procs k0 !! x = Some p → cur_pgdir k = Some (p_pgdir p).
Proof using Hx.
  intros (h & -> & Hok) Hp. unfold cur_pgdir. simpl. destruct (hw_ok_cpu _ _ _ _ _ Hok) as (c & (Hc1 & Hc2 & _) & _ & _ & Hr).
  rewrite (ho_me _ _ _ _ _ Hok), Hc2. simpl. rewrite Hx in Hr. injection Hr as <-. simpl. by rewrite Hp.
Qed.

Hypothesis Hkm : kmem_lock ∈ D.
Hypothesis HkL : kmem_lock ∉ L.
Context (cons_lock : Z) (screen : F → Prop) `{!PrintLaws cons_lock screen}.
Hypothesis Hcons : cons_lock ∈ D.
Hypothesis HcL : cons_lock ∉ L.

Lemma prints_ok fmt argp k0 k s t : onl k0 L k → screen t → fmt_ok fmt argp = true →
  ∃ k' t', k_cprintf fmt argp (k, s, t) = Ret () (k', s, t') ∧ onl k0 L k' ∧ screen t'.
Proof using Hcons HcL PrintLaws0.
  intros (h & -> & Hok) Ht Hf. destruct (print_ok me run D L (with_hw h k0) s t fmt argp Hok Hcons HcL Ht Hf) as (k' & t' & E & (h' & -> & Hok') & Ht').
  eexists _, t'. split; [exact E|]. split; [by exists h'|done].
Qed.

(** A fault below [sz] on a page that is not there. *)
Lemma pgfault_ok k0 k s t pr p free live T U cr2 err : onl k0 L k → screen t → k_procs k0 !! x = Some pr →
  aspace kend s (p :: free) live (p_pgdir pr) T U → is_uint cr2 → PGROUNDDOWN cr2 < p_sz pr → p_sz pr ≤ KERNBASE → U !! (cr2 / 4096) = None → Z.land err 7 ≠ 7 →
  ∃ k' s' t' free' live' T' U', pgfault kend cr2 err (k, s, t) = Ret () (k', s', t') ∧ screen t' ∧
    (onl k0 L k' ∧ t' = t ∧ allocated kend s (p :: free) live (p_pgdir pr) T U (PGROUNDDOWN cr2) (PGROUNDDOWN cr2 + 4096) s' free' live' T' U' ∨
     onl (killed_k k0) L k' ∧ free' = [p] ∧ U' = U ∧ evolved kend s (p :: free) live (p_pgdir pr) T U s' free' live' T' U').
Proof using All.
  intros Hk Ht Hp Has Hc Hlt Hsz HU Herr. unfold is_uint in Hc. unfold KERNBASE in Hsz. unfold pgfault. rewrite (proj2 (Z.eqb_neq _ _) Herr).
  assert (PGROUNDDOWN cr2 = 4096 * (cr2 / 4096)) as Eva by (rewrite PGROUNDDOWN_eq; Z.to_euclidean_division_equations; lia). rewrite Eva in Hlt |- *. cbv zeta.
  assert (0 ≤ cr2 / 4096 < 524288) as Hvp by (Z.to_euclidean_division_equations; lia).
  destruct (my_ok p_sz k0 k s t pr Hk Hp) as (k1 & E1 & Hk1). run E1. rewrite (proj2 (Z.leb_gt _ _)) by lia. cbn [andb].
  destruct (my_ok p_sz k0 k1 s t pr Hk1 Hp) as (k2 & E2 & Hk2). run E2. rewrite (proj2 (Z.ltb_lt _ _)) by lia.
  destruct (one_page kend (.∈ D) (onl k0) L Hkm HkL k2 s free live (p_pgdir pr) T U (cr2 / 4096) p Has Hk2 Hvp HU)
    as (k3 & s3 & E3 & Hk3 & Hpok & Hmap).
  run (km_Ret _ _ _ t _ _ _ E3). rewrite (proj2 (Z.eqb_neq p 0)) by (apply page_range in Hpok; lia). next.
  erewrite bind_Ret; [|by apply km_Ret].
  destruct (my_ok p_pgdir k0 k3 (upd_mem (memset p 0 PGSIZE) s3) t pr Hk3 Hp) as (k4 & E4 & Hk4). run E4.
  destruct (Hmap k4 Hk4) as (k5 & s5 & r & E5 & Hk5 & Hr). run (km_Ret _ _ _ t _ _ _ E5).
  destruct Hr as [(-> & free' & live' & T' & U' & Hal)|(-> & Hfr)]; cbn [Z.eqb negb].
  - next. destruct (my_ok p_pgdir k0 k5 s5 t pr Hk5 Hp) as (k6 & E6 & Hk6). run E6.
    destruct (lcr3_ok (V2P (p_pgdir pr)) k0 k6 s5 t Hk6) as (k7 & E7 & Hk7).
    exists k7, s5, t, free', live', T', U'. split; [done|]. split; [done|]. by left.
  - destruct (prints_ok (str "usertrap(): mappages fall" ++ [195; 179; 10]) [] k0 k5 s5 t Hk5 Ht) as (k6 & t6 & E6 & Hk6 & Ht6); [by vm_compute|]. run2 E6.
    destruct (Hfr k6 Hk6) as (k7 & s7 & live' & T' & E7 & Hk7 & Hev). run2 (km_Ret _ _ _ t6 _ _ _ E7).
    destruct (kill_me_ok k0 k7 s7 t6 pr Hk7 Hp) as (k8 & E8 & Hk8). run E8.
    assert (k_procs (killed_k k0) !! x = Some (set_killed true pr)) as Hp' by (simpl; by rewrite list_lookup_alter_eq, Hp).
    destruct (my_ok p_pgdir (killed_k k0) k8 s7 t6 _ Hk8 Hp') as (k9 & E9 & Hk9). run E9.
    destruct (lcr3_ok (V2P (p_pgdir pr)) (killed_k k0) k9 s7 t6 Hk9) as (k10 & E10 & Hk10).
    exists k10, s7, t6, [p], live', T', U. split; [done|]. split; [done|]. by right.
Qed.
(** A fault below [sz] on a page that is there, like the guard page of the stack. *)
Lemma pgfault_remap k0 k s t pr p free live T U cr2 err : KERNBASE < kend → onl k0 L k → k_procs k0 !! x = Some pr →
  aspace kend s (p :: free) live (p_pgdir pr) T U → is_uint cr2 → PGROUNDDOWN cr2 < p_sz pr → is_Some (U !! (cr2 / 4096)) → Z.land err 7 ≠ 7 →
  pgfault kend cr2 err (k, s, t) = Panic "remap".
Proof using Hx Hkm HkL.
  intros Hend Hk Hp Has Hc Hlt [[q f] HU] Herr. unfold pgfault. rewrite (proj2 (Z.eqb_neq _ _) Herr). cbv zeta.
  assert (PGROUNDDOWN cr2 = 4096 * (cr2 / 4096)) as Eva by (unfold is_uint in Hc; rewrite PGROUNDDOWN_eq; Z.to_euclidean_division_equations; lia). rewrite Eva in Hlt |- *.
  destruct (my_ok p_sz k0 k s t pr Hk Hp) as (k1 & E1 & Hk1). run E1. rewrite (proj2 (Z.leb_gt _ _)) by lia. cbn [andb].
  destruct (my_ok p_sz k0 k1 s t pr Hk1 Hp) as (k2 & E2 & Hk2). run E2. rewrite (proj2 (Z.ltb_lt _ _)) by lia.
  destruct (kalloc_aspace kend (.∈ D) (onl k0) L Hkm HkL k2 s free live (p_pgdir pr) T U p Has Hk2) as (k3 & s3 & E3 & Hk3 & Has3 & Hm3 & _ & Hpok & Hpo).
  run (km_Ret _ _ _ t _ _ _ E3). rewrite (proj2 (Z.eqb_neq p 0)) by (apply page_range in Hpok; lia). next.
  erewrite bind_Ret; [|by apply km_Ret].
  destruct (my_ok p_pgdir k0 k3 (upd_mem (memset p 0 PGSIZE) s3) t pr Hk3 Hp) as (k4 & E4 & Hk4). run E4.
  unfold km at 1. unfold bind at 1, zoom at 1. cbn [lget lset fst_lens fst snd]. by rewrite (mappages_present kend Hend k4 s3 free (p :: live) (p_pgdir pr) T U (cr2 / 4096) q f (V2P p) (Z.lor PTE_W PTE_U) p (memset p 0 PGSIZE) Has3 HU Hpok Hpo
    (λ a Ha, memset_away p a (km_mem s3) Ha)).
Qed.
(** A fault that the process is killed for. *)
Lemma pgfault_kill k0 k s t pr cr2 err : onl k0 L k → screen t → k_procs k0 !! x = Some pr →
  Z.land err 7 = 7 ∨ p_sz pr ≤ PGROUNDDOWN cr2 ∧ Z.land err 6 ≠ 0 →
  ∃ k' t', pgfault kend cr2 err (k, s, t) = Ret () (k', s, t') ∧ onl (killed_k k0) L k' ∧ screen t'.
Proof using All.
  intros Hk Ht Hp Hwhy. unfold pgfault. destruct (Z.eqb_spec (Z.land err 7) 7) as [_|Hne]; cbv zeta.
  - destruct (prints_ok (str "Page violation.Write type. Error code: %d" ++ [10]) [AInt err] k0 k s t Hk Ht eq_refl) as (k1 & t1 & E1 & Hk1 & Ht1). run E1.
    destruct (kill_me_ok k0 k1 s t1 pr Hk1 Hp) as (k2 & E2 & Hk2). by exists k2, t1.
  - destruct Hwhy as [?|[H1 H2]]; [done|]. destruct (my_ok p_sz k0 k s t pr Hk Hp) as (k1 & E1 & Hk1). run E1.
    rewrite (proj2 (Z.leb_le _ _)), (proj2 (Z.eqb_neq _ _)) by done. cbn [andb negb].
    destruct (prints_ok (str "Tried to access beyond sz, Error code: %d" ++ [10]) [AInt err] k0 k1 s t Hk1 Ht eq_refl) as (k2 & t2 & E2 & Hk2 & Ht2). run E2.
    destruct (kill_me_ok k0 k2 s t2 pr Hk2 Hp) as (k3 & E3 & Hk3). by exists k3, t2.
Qed.
(** The kernel reads above [sz]. *)
Lemma pgfault_nothing k0 k s t pr cr2 err : onl k0 L k → k_procs k0 !! x = Some pr → p_sz pr ≤ PGROUNDDOWN cr2 → Z.land err 6 = 0 →
  ∃ k', pgfault kend cr2 err (k, s, t) = Ret () (k', s, t) ∧ onl k0 L k'.
Proof using Hx.
  intros Hk Hp Hsz Herr. unfold pgfault. assert (Z.land err 7 ≠ 7) as H7.
  { intros E. assert (Z.land (Z.land err 7) 6 = 6) as E' by (by rewrite E). rewrite <- Z.land_assoc in E'. change (Z.land 7 6) with 6 in E'. lia. }
  rewrite (proj2 (Z.eqb_neq _ _) H7). cbv zeta. destruct (my_ok p_sz k0 k s t pr Hk Hp) as (k1 & E1 & Hk1). run E1.
  rewrite Herr. cbn [Z.eqb negb]. rewrite andb_false_r. destruct (my_ok p_sz k0 k1 s t pr Hk1 Hp) as (k2 & E2 & Hk2). run E2.
  rewrite (proj2 (Z.ltb_ge _ _)) by done. by exists k2.
Qed.
End fault_ok.

(** ** Access to mapped memory *)
Lemma lookup_pte_page m pgdir va : 0 ≤ va < 4294967296 → lookup_pte m pgdir va = lookup_pte m pgdir (4096 * (va / 4096)).
Proof.
  intros Hva. unfold lookup_pte. rewrite !PDX_eq, !PTX_eq, !uint_small by (unfold is_uint; Z.to_euclidean_division_equations; lia).
  replace (4096 * (va / 4096) / 4194304) with (va / 4194304) by (Z.to_euclidean_division_equations; lia).
  by replace (4096 * (va / 4096) / 4096) with (va / 4096) by (Z.to_euclidean_division_equations; lia).
Qed.

Section access.
Context {F : Type} `{!PrintOps (kproc * kmem * F)}.
Variable kend : Z.
Variables (me : nat) (run : list (option nat)) (D : gset Z) (x : nat) (L : list Z).
Hypothesis Hx : run !! me = Some (Some x).
Abbreviation onl := (only_hw me run D).

(** Page [va / 4096] of [U] may be used, for writing if [write]. *)
Definition usable (U : gmap Z (Z * Z)) (write : bool) (va p : Z) : Prop :=
  0 ≤ va < KERNBASE ∧ ∃ f, U !! (va / 4096) = Some (p, f) ∧ (write = true → Z.land f PTE_W ≠ 0).

Lemma user_page_ok retry write va k0 k s (t : F) pr free live T U p : onl k0 L k → k_procs k0 !! x = Some pr →
  aspace kend s free live (p_pgdir pr) T U → usable U write va p →
  user_page kend retry write va (k, s, t) = Ret (p + va mod 4096) (k, s, t).
Proof using Hx.
  intros Hk Hp Has (Hva & f & HU & Hw). unfold KERNBASE in Hva.
  assert (0 ≤ va / 4096 < 524288) as Hvp by (Z.to_euclidean_division_equations; lia).
  pose proof (as_user _ _ _ _ _ _ _ Has _ Hvp) as Hu. rewrite HU in Hu. destruct Hu as (Hf & HfP & Hl).
  rewrite <- lookup_pte_page in Hl by lia. destruct (as_page kend _ _ _ _ _ _ _ _ _ Has HU) as (Hpok & _ & _).
  destruct (pte_page kend p f Hpok Hf) as (E1 & E2 & E3). assert (V2P p mod 4096 = 0) as Hvp'
    by (rewrite (V2P_page kend p Hpok); apply page_range in Hpok; Z.to_euclidean_division_equations; lia).
  assert (negb write || negb (Z.land f PTE_W =? 0) = true) as Hb by (destruct write; [rewrite (proj2 (Z.eqb_neq _ 0)) by auto|]; done).
  destruct retry; cbn [user_page]; cbn [fst snd]; rewrite (cur_pgdir_ok me run D x L Hx k0 k pr Hk Hp), Hl; cbv zeta;
    rewrite !land_low_add by done; rewrite (proj2 (Z.eqb_neq _ _) HfP); cbn [negb andb];
    rewrite Hb; cbv iota; unfold PGSIZE; by rewrite E1, E3.
Qed.
Lemma load8_ok va k0 k s (t : F) pr free live T U p : onl k0 L k → k_procs k0 !! x = Some pr →
  aspace kend s free live (p_pgdir pr) T U → usable U false va p →
  load8 kend va (k, s, t) = Ret (rd8 (km_mem s) (p + va mod 4096)) (k, s, t).
Proof using Hx.
  intros Hk Hp Has Hu. unfold load8. rewrite uint_small by (unfold usable, KERNBASE in Hu; unfold is_uint; lia).
  run (user_page_ok 1 false va k0 k s t pr free live T U p Hk Hp Has Hu). by apply km_Ret.
Qed.
Lemma store8_ok va v k0 k s (t : F) pr free live T U p : onl k0 L k → k_procs k0 !! x = Some pr →
  aspace kend s free live (p_pgdir pr) T U → usable U true va p →
  store8 kend va v (k, s, t) = Ret () (k, upd_mem (wr8 (p + va mod 4096) (uchar v)) s, t).
Proof using Hx.
  intros Hk Hp Has Hu. unfold store8. rewrite uint_small by (unfold usable, KERNBASE in Hu; unfold is_uint; lia).
  run (user_page_ok 1 true va k0 k s t pr free live T U p Hk Hp Has Hu). by apply km_Ret.
Qed.
Lemma wrote_byte s free live pgdir T U va p v : aspace kend s free live pgdir T U → usable U true va p →
  wrote U (km_mem s) (wr8 (p + va mod 4096) v (km_mem s)) va (va + 1) (λ _, uchar v).
Proof.
  intros Has (Hva & f & HU & _). destruct (as_page kend _ _ _ _ _ _ _ _ _ Has HU) as ((Hal & _) & _ & _).
  pose proof Has as [_ Hnd _ _ _]. apply NoDup_app in Hnd as (_ & _ & Hnd). split.
  - intros vp' p' f' o' HU' Ho'. destruct (as_page kend _ _ _ _ _ _ _ _ _ Has HU') as ((Hal' & _) & _ & _). rewrite rd8_wr8.
    destruct (decide (p + va mod 4096 = p' + o')) as [E|E].
    + assert (p = p') as <- by (Z.to_euclidean_division_equations; lia). assert (vp' = va / 4096) as -> by (by eapply upages_inj).
      rewrite decide_True; [done|]. Z.to_euclidean_division_equations; lia.
    + rewrite decide_False; [done|]. intros Hr. assert (4096 * vp' + o' = va) as Hva' by lia. assert (vp' = va / 4096) as -> by (Z.to_euclidean_division_equations; lia).
      rewrite HU in HU'. injection HU' as <- <-. apply E. Z.to_euclidean_division_equations; lia.
  - intros a Ha. rewrite rd8_wr8, decide_False; [done|]. intros <-. apply (Ha p); [by eapply upages_in|]. unfold in_page. Z.to_euclidean_division_equations; lia.
Qed.
Lemma wrote_ext U m m' a b src src' : wrote U m m' a b src → (∀ i, a ≤ i < b → src i = src' i) → wrote U m m' a b src'.
Proof.
  intros [H1 H2] He. split; [|done]. intros vp p f o Hp Ho. rewrite (H1 vp p f o Hp Ho). case_decide as Hd; [|done]. by apply He.
Qed.

(** One byte more. *)
Lemma store8_next va0 va v src k0 k s0 m (t : F) pr free live T U p : onl k0 L k → k_procs k0 !! x = Some pr →
  aspace kend s0 free live (p_pgdir pr) T U → wrote U (km_mem s0) m va0 va src → va0 ≤ va → usable U true va p → src va = uchar v →
  ∃ m', store8 kend va v (k, upd_mem (λ _, m) s0, t) = Ret () (k, upd_mem (λ _, m') s0, t) ∧ wrote U (km_mem s0) m' va0 (va + 1) src.
Proof using Hx.
  intros Hk Hp Has Hw Hle Hu Hs. pose proof (wrote_aspace kend s0 free live _ T U m va0 va src Has Hw) as Has1.
  rewrite (store8_ok va v k0 k (upd_mem (λ _, m) s0) t pr free live T U p Hk Hp Has1 Hu). eexists. split; [reflexivity|]. simpl.
  eapply wrote_trans; [|exact Hw|]; [lia|]. eapply wrote_ext; [exact (wrote_byte _ _ _ _ _ _ _ _ (uchar v) Has1 Hu)|].
  intros i Hi. assert (i = va) as -> by lia. rewrite Hs. by rewrite uchar_small by apply uchar_range.
Qed.
Lemma store32_ok va v k0 k s (t : F) pr free live T U : onl k0 L k → k_procs k0 !! x = Some pr →
  aspace kend s free live (p_pgdir pr) T U → (∀ i, 0 ≤ i < 4 → ∃ p, usable U true (va + i) p) →
  ∃ m', store32 kend va v (k, s, t) = Ret () (k, upd_mem (λ _, m') s, t) ∧
    wrote U (km_mem s) m' va (va + 4) (λ a, uchar (v / 256 ^ (a - va))).
Proof using Hx.
  intros Hk Hp Has Hu. unfold store32. set (src := λ a, uchar (v / 256 ^ (a - va))).
  assert (∀ i, 0 ≤ i → src (va + i) = uchar (v / 256 ^ i)) as Hsrc by (intros i Hi; unfold src; by replace (va + i - va) with i by lia).
  destruct (Hu 0 ltac:(lia)) as [p0 H0]. destruct (Hu 1 ltac:(lia)) as [p1 H1]. destruct (Hu 2 ltac:(lia)) as [p2 H2]. destruct (Hu 3 ltac:(lia)) as [p3 H3].
  rewrite Z.add_0_r in H0. assert (upd_mem (λ _, km_mem s) s = s) as Es by (by destruct s).
  destruct (store8_next va va v src k0 k s (km_mem s) t pr free live T U p0 Hk Hp Has (wrote_none _ _ _ _)) as (m1 & E1 & W1); [lia|done| |].
  { rewrite <- (Z.add_0_r va) at 1. rewrite Hsrc by lia. by rewrite Z.pow_0_r, Z.div_1_r. } rewrite Es in E1. run E1.
  destruct (store8_next va (va + 1) (v / 256) src k0 k s m1 t pr free live T U p1 Hk Hp Has W1) as (m2 & E2 & W2); [lia|done|by apply Hsrc|]. run E2.
  replace (va + 1 + 1) with (va + 2) in W2 by lia.
  destruct (store8_next va (va + 2) (v / 65536) src k0 k s m2 t pr free live T U p2 Hk Hp Has W2) as (m3 & E3 & W3); [lia|done|by apply Hsrc|]. run E3.
  replace (va + 2 + 1) with (va + 3) in W3 by lia.
  destruct (store8_next va (va + 3) (v / 16777216) src k0 k s m3 t pr free live T U p3 Hk Hp Has W3) as (m4 & E4 & W4); [lia|done|by apply Hsrc|].
  replace (va + 3 + 1) with (va + 4) in W4 by lia. exists m4. done.
Qed.
End access.

(** ** A fault with no page left *)
Section oom.
Context {F : Type} `{!PrintOps (kproc * kmem * F)}.
Variable kend : Z.
Variables (me : nat) (run : list (option nat)) (D : gset Z) (x : nat) (L : list Z).
Hypothesis Hx : run !! me = Some (Some x).
Hypothesis Hkm : kmem_lock ∈ D.
Hypothesis HkL : kmem_lock ∉ L.
Context (cons_lock : Z) (screen : F → Prop) `{!PrintLaws cons_lock screen}.
Hypothesis Hcons : cons_lock ∈ D.
Hypothesis HcL : cons_lock ∉ L.
Hypothesis Hkend : KERNBASE < kend.
Abbreviation onl := (only_hw me run D).
#[local] Opaque CString.memset mappages kalloc kfree str.

Lemma zero_low_ok k0 k s (t : F) pr free live T U p : onl k0 L k → k_procs k0 !! x = Some pr →
  aspace kend s free live (p_pgdir pr) T U → usable U true 0 p →
  zero_low (k, s, t) = Ret () (k, upd_mem (memset p 0 PGSIZE) s, t) ∧ aspace kend (upd_mem (memset p 0 PGSIZE) s) free live (p_pgdir pr) T U.
Proof using Hx.
  intros Hk Hp Has (Hva & f & HU & Hw). change (0 / 4096) with 0 in HU. specialize (Hw eq_refl).
  pose proof (as_user _ _ _ _ _ _ _ Has 0 ltac:(lia)) as Hu. rewrite HU in Hu. destruct Hu as (Hf & HfP & Hl). change (4096 * 0) with 0 in Hl.
  destruct (as_page kend _ _ _ _ _ _ _ _ _ Has HU) as (Hpok & Hpl & Hpt). destruct (pte_page kend p f Hpok Hf) as (E1 & E2 & E3).
  assert (V2P p mod 4096 = 0) as Hvp' by (rewrite (V2P_page kend p Hpok); apply page_range in Hpok; Z.to_euclidean_division_equations; lia).
  split.
  - unfold zero_low. cbn [fst snd]. rewrite (cur_pgdir_ok me run D x L Hx k0 k pr Hk Hp), Hl. cbv zeta. rewrite !land_low_add by done.
    rewrite (proj2 (Z.eqb_neq _ _) HfP), (proj2 (Z.eqb_neq _ _) Hw), E1, E3. cbn [orb]. by apply km_Ret.
  - pose proof Has as [[Hinv Hpg Hown] Hnd Hlive _ _].
    assert (∀ q, q ∈ free ++ live → q ≠ p → same_page (km_mem s) (memset p 0 PGSIZE (km_mem s)) q) as Hs.
    { intros q Hq Hne a Ha. rewrite memset_ok by done. rewrite decide_False; [done|]. intros Hr.
      apply (other_page kend s free live q p a Hinv); [done|listin|done|done|unfold in_page, PGSIZE in *; lia]. }
    apply (aspace_frame kend s free live); [done| | |].
    + apply (kmem_inv_store kend s free live _ Hinv). intros q Hq. apply Hs; [listin|]. intros ->. by eapply (free_not_live kend _ _ _ p p Hinv).
    + intros q [Hq|Hq]%elem_of_app; [by apply Hown|by apply Hlive].
    + intros q Hq. apply (Hs q); [apply Hown in Hq; listin|]. by intros ->.
Qed.

Lemma kfree_null (k : kproc) (s : kmem) : kfree kend 0 (k, s) = Panic "kfree".
Proof using Hkend.
  #[local] Transparent kfree. unfold kfree. unfold KERNBASE in Hkend. rewrite (proj2 (Z.ltb_lt 0 kend)) by lia. by rewrite orb_true_r.
Qed.

Lemma pgfault_oom k0 k s t pr live T U cr2 err p : onl k0 L k → screen t → k_procs k0 !! x = Some pr →
  aspace kend s [] live (p_pgdir pr) T U → 0 ≤ cr2 < p_sz pr → p_sz pr ≤ KERNBASE → U !! (cr2 / 4096) = None → Z.land err 7 ≠ 7 → usable U true 0 p →
  match T !! PDX cr2 with
  | None => pgfault kend cr2 err (k, s, t) = Panic "kfree"
  | Some _ => ∃ k' s' t', pgfault kend cr2 err (k, s, t) = Ret () (k', s', t') ∧ onl (killed_k x k0) L k' ∧ screen t' ∧
      (∀ a, in_page p a → rd8 (km_mem s') a = 0) ∧ lookup_pte (km_mem s') (p_pgdir pr) cr2 = KERNBASE + 7
  end.
Proof using All.
  intros Hk Ht Hp Has Hc Hsz HU Herr Hlow. unfold KERNBASE in Hsz. unfold pgfault. rewrite (proj2 (Z.eqb_neq _ _) Herr).
  assert (PGROUNDDOWN cr2 = 4096 * (cr2 / 4096)) as Eva by (rewrite PGROUNDDOWN_eq; Z.to_euclidean_division_equations; lia). rewrite Eva. cbv zeta.
  assert (0 ≤ cr2 / 4096 < 524288) as Hvp by (Z.to_euclidean_division_equations; lia).
  assert (4096 * (cr2 / 4096) < p_sz pr) as Hlt by (Z.to_euclidean_division_equations; lia).
  destruct (my_ok me run D x L Hx p_sz k0 k s t pr Hk Hp) as (k1 & E1 & Hk1). destruct (my_ok me run D x L Hx p_sz k0 k1 s t pr Hk1 Hp) as (k2 & E2 & Hk2).
  destruct (kalloc_ok kend (.∈ D) (onl k0) L k2 s [] live (vi_kmem _ _ _ _ _ _ (as_vm _ _ _ _ _ _ _ Has)) Hk2 Hkm HkL) as (k3 & Hk3 & E3).
  destruct (prints_ok me run D L cons_lock screen Hcons HcL (str "usertrap(): kalloc ha fallado" ++ [10]) [] k0 k3 s t Hk3 Ht) as (k4 & t4 & E4 & Hk4 & Ht4); [by vm_compute|].
  destruct (kill_me_ok me run D x L Hx k0 k4 s t4 pr Hk4 Hp) as (k5 & E5 & Hk5).
  assert (k_procs (killed_k x k0) !! x = Some (set_killed true pr)) as Hp' by (simpl; by rewrite list_lookup_alter_eq, Hp).
  destruct (zero_low_ok (killed_k x k0) k5 s t4 (set_killed true pr) [] live T U p Hk5 Hp' Has Hlow) as [E6 Has6].
  destruct (my_ok me run D x L Hx p_pgdir (killed_k x k0) k5 (upd_mem (memset p 0 PGSIZE) s) t4 _ Hk5 Hp') as (k7 & E7 & Hk7).
  assert (T !! PDX cr2 = T !! PDX (4096 * (cr2 / 4096))) as ->.
  { f_equal. rewrite !PDX_eq, !uint_small by (unfold is_uint; Z.to_euclidean_division_equations; lia). Z.to_euclidean_division_equations; lia. }
  assert (Z.land (lookup_pte (memset p 0 PGSIZE (km_mem s)) (p_pgdir pr) (4096 * (cr2 / 4096))) PTE_P = 0) as Hnp.
  { pose proof (as_user _ _ _ _ _ _ _ Has6 _ Hvp) as Hu. by rewrite HU in Hu. }
  pose proof (mappages_full kend (.∈ D) (onl (killed_k x k0)) L Hkm HkL k7 (upd_mem (memset p 0 PGSIZE) s) live (p_pgdir pr) T (cr2 / 4096) (V2P 0) (Z.lor PTE_W PTE_U)
    (as_vm _ _ _ _ _ _ _ Has6) Hk7 Hvp Hnp) as Hmap. change (Z.lor (Z.lor (V2P 0) (Z.lor PTE_W PTE_U)) PTE_P) with (KERNBASE + 7) in Hmap.
  run E1. rewrite (proj2 (Z.leb_gt _ _)) by lia. cbn [andb]. run E2. rewrite (proj2 (Z.ltb_lt _ _)) by lia. run (km_Ret _ _ _ t _ _ _ E3). cbn [Z.eqb].
  run2 E4. run E5. run E6. run E7.
  specialize (Hmap ltac:(done)). destruct (T !! PDX (4096 * (cr2 / 4096))) as [tab|].
  - destruct Hmap as (s8 & E8 & G & Hl8). run (km_Ret _ _ _ t4 _ _ _ E8). cbn [Z.eqb negb]. next.
    destruct (my_ok me run D x L Hx p_pgdir (killed_k x k0) k7 s8 t4 _ Hk7 Hp') as (k9 & E9 & Hk9). run E9.
    destruct (lcr3_ok me run D L (V2P (p_pgdir pr)) (killed_k x k0) k9 s8 t4 Hk9) as (k10 & E10 & Hk10).
    exists k10, s8, t4. split; [done|]. split; [done|]. split; [done|]. split; [|by rewrite lookup_pte_page by lia].
    destruct Hlow as (_ & f & HU0 & _). destruct (as_page kend _ _ _ _ _ _ _ _ _ Has HU0) as (_ & Hpl & Hpt).
    intros a Ha. rewrite (gr_same _ _ _ _ _ _ _ _ _ _ G p); [|listin|done|done]. simpl. rewrite memset_ok by done.
    by rewrite decide_True by (unfold in_page, PGSIZE in *; lia).
  - destruct Hmap as (k8 & E8 & Hk8). run (km_Ret _ _ _ t4 _ _ _ E8). cbn [Z.eqb negb].
    destruct (prints_ok me run D L cons_lock screen Hcons HcL (str "usertrap(): mappages fall" ++ [195; 179; 10]) [] (killed_k x k0) k8 (upd_mem (memset p 0 PGSIZE) s) t4 Hk8 Ht4) as (k9 & t9 & E9 & Hk9 & Ht9); [by vm_compute|].
    run2 E9. unfold km at 1, zoom. unfold bind at 1 2. cbn [fst_lens lget fst]. rewrite kfree_null. done.
Qed.
End oom.

(** ** [cprintf] of console.c keeps the promise *)
Lemma pair_LockLaws {K T} `{!LockOps K} (valid : Z → Prop) (holds : list Z → K → Prop) `{!LockLaws valid holds} (m : T) :
  @LockLaws (K * T) pair_LockOps valid (λ L s, holds L s.1 ∧ s.2 = m).
Proof.
  split.
  - intros L lk [k t] [Hk <-] H1 H2. destruct (k_acquire_ok L lk k Hk H1 H2) as (k' & E & Hk'). exists (k', t). split; [|done].
    by apply (zoom_Ret fst_lens _ (k, t)).
  - intros L1 L2 lk [k t] [Hk <-]. destruct (k_release_ok L1 L2 lk k Hk) as (k' & E & Hk'). exists (k', t). split; [|done].
    by apply (zoom_Ret fst_lens _ (k, t)).
Qed.
Definition console_PrintOps (cons_lock : Z) : PrintOps (kproc * kmem * console) := @cprintf (kproc * kmem) pair_LockOps cons_lock.
Lemma console_PrintLaws cons_lock : @PrintLaws console (console_PrintOps cons_lock) cons_lock screen_ok.
Proof.
  intros me run D L k m t fmt argp Hok HD HL Ht Hf.
  destruct (@cprintf_holds (kproc * kmem) pair_LockOps cons_lock (λ _, []) (λ _, []) (.∈ D) (λ L s, only_hw me run D k L s.1 ∧ s.2 = m)
    (pair_LockLaws (.∈ D) (only_hw me run D k) m) L fmt argp (k, m) t) as ([k' m'] & t' & E & [Hk' Hm] & Hsh); [|done..|].
  - split; [by apply only_hw_refl|done].
  - simpl in Hm. subst m'. exists k', t'. split; [exact E|]. split; [done|]. by eapply shown_ok.
Qed.

(** ** The theorems *)
Section theorems.
Context {F : Type} `{!PrintOps (kproc * kmem * F)} (cons_lock : Z) (screen : F → Prop) `{!PrintLaws cons_lock screen}.
Variable kend : Z.
Variables (me : nat) (run : list (option nat)) (D : gset Z) (x : nat) (L : list Z).
Hypothesis Hx : run !! me = Some (Some x).
Hypothesis Hlocks : kmem_lock ∈ D ∧ cons_lock ∈ D ∧ (kmem_lock ∉ L) ∧ cons_lock ∉ L.

(** C18: What the page fault handler does while there is a free page.  A fault
    on a page below [sz] that process [x] does not have, by a read or a write, in
    user mode or in the kernel on its behalf, maps a page that was free, all zeros
    and writable, at the faulting address and at no other; the rest of the address
    space, the pages of other processes and the process table are as they were;
    and the access that is tried again finds the new page.  The process is marked
    as killed instead only when the page tables have to grow and the last free
    page has been taken for the data; then that page is free again.  A write of
    the user that a present page forbids, and a fault of the user or a write above
    [sz], mark the process as killed and change no memory.  A read of the kernel
    above [sz] changes nothing.  But a read of the user that a present page below
    [sz] forbids, such as one of the guard page of its stack, makes the kernel
    panic in [mappages]. *)
Theorem lazy_allocation k s t pr p free live T U cr2 err :
  KERNBASE < kend → hw_ok me run D L (k_hw k) → screen t → k_procs k !! x = Some pr → aspace kend s (p :: free) live (p_pgdir pr) T U →
  is_uint cr2 → p_sz pr ≤ KERNBASE →
  let killed := ∃ k' t', pgfault kend cr2 err (k, s, t) = Ret () (k', s, t') ∧ only_hw me run D (killed_k x k) L k' ∧ screen t' in
  if Z.land err 7 =? 7 then killed else
  if p_sz pr <=? PGROUNDDOWN cr2 then
    if Z.land err 6 =? 0 then ∃ k', pgfault kend cr2 err (k, s, t) = Ret () (k', s, t) ∧ only_hw me run D k L k' else killed
  else
  match U !! (cr2 / 4096) with
  | Some _ => pgfault kend cr2 err (k, s, t) = Panic "remap"
  | None => ∃ k' s' t' free' live' T' U', pgfault kend cr2 err (k, s, t) = Ret () (k', s', t') ∧ screen t' ∧
    (only_hw me run D k L k' ∧ t' = t ∧
     allocated kend s (p :: free) live (p_pgdir pr) T U (PGROUNDDOWN cr2) (PGROUNDDOWN cr2 + 4096) s' free' live' T' U' ∧
     (∃ q, U' !! (cr2 / 4096) = Some (q, 7) ∧ (q ∉ live) ∧ user_page kend 0 true cr2 (k', s', t') = Ret (q + cr2 mod 4096) (k', s', t')) ∨
     only_hw me run D (killed_k x k) L k' ∧ free' = [p] ∧ U' = U ∧ evolved kend s (p :: free) live (p_pgdir pr) T U s' free' live' T' U')
  end.
Proof using All.
  intros Hend Hok Ht Hp Has Hc Hsz killed. destruct Hlocks as (H1 & H2 & H3 & H4). pose proof (only_hw_refl _ _ _ _ _ Hok) as Hk.
  pose proof (pgfault_kill kend me run D x L Hx H1 H3 cons_lock screen H2 H4 k k s t pr cr2 err Hk Ht Hp) as Hkill.
  destruct (Z.eqb_spec (Z.land err 7) 7) as [|Herr]; [by apply Hkill; left|].
  destruct (Z.leb_spec (p_sz pr) (PGROUNDDOWN cr2)) as [Hge|Hlt].
  { destruct (Z.eqb_spec (Z.land err 6) 0); [by apply (pgfault_nothing kend me run D x L Hx k k s t pr)|by apply Hkill; right]. }
  destruct (U !! (cr2 / 4096)) eqn:HU; [by apply (pgfault_remap kend me run D x L Hx H1 H3 k k s t pr p free live T U)|].
  destruct (pgfault_ok kend me run D x L Hx H1 H3 cons_lock screen H2 H4 k k s t pr p free live T U cr2 err Hk Ht Hp Has Hc Hlt Hsz HU Herr)
    as (k' & s' & t' & free' & live' & T' & U' & E & Ht' & Hr). exists k', s', t', free', live', T', U'. split; [done|]. split; [done|].
  destruct Hr as [(Hk' & -> & Hal)|Hr]; [left|by right]. split; [done|]. split; [done|]. split; [done|]. unfold is_uint in Hc. unfold KERNBASE in Hsz.
  assert (PGROUNDDOWN cr2 = 4096 * (cr2 / 4096)) as Eva by (rewrite PGROUNDDOWN_eq; Z.to_euclidean_division_equations; lia).
  destruct (al_new _ _ _ _ _ _ _ _ _ _ _ _ _ _ Hal (cr2 / 4096)) as (q & Hq & Hql & _); [lia|]. exists q. split; [done|]. split; [done|].
  apply (user_page_ok kend me run D x L Hx 0 true cr2 k k' s' t pr free' live' T' U' q Hk' Hp (ev_as _ _ _ _ _ _ _ _ _ _ _ _ (al_ev _ _ _ _ _ _ _ _ _ _ _ _ _ _ Hal))).
  split; [unfold KERNBASE; Z.to_euclidean_division_equations; lia|]. by exists 7.
Qed.

(** C19: A fault with no page left is not handled.  [kalloc] returns 0, the
    handler marks the process as killed and goes on with that 0 as the page: it
    clears the first page of the program, and then either panics in [kfree], if
    a page table is missing too, or maps the faulting page to the physical
    address [0x80000000], where there is no memory. *)
Theorem fault_out_of_memory k s t pr live T U cr2 err p :
  KERNBASE < kend → hw_ok me run D L (k_hw k) → screen t → k_procs k !! x = Some pr → aspace kend s [] live (p_pgdir pr) T U →
  0 ≤ cr2 < p_sz pr → p_sz pr ≤ KERNBASE → U !! (cr2 / 4096) = None → Z.land err 7 ≠ 7 → usable U true 0 p →
  match T !! PDX cr2 with
  | None => pgfault kend cr2 err (k, s, t) = Panic "kfree"
  | Some _ => ∃ k' s' t', pgfault kend cr2 err (k, s, t) = Ret () (k', s', t') ∧ only_hw me run D (killed_k x k) L k' ∧ screen t' ∧
      (∀ a, in_page p a → rd8 (km_mem s') a = 0) ∧ lookup_pte (km_mem s') (p_pgdir pr) cr2 = KERNBASE + 7
  end.
Proof using All.
  intros Hend Hok Ht Hp Has Hc Hsz HU Herr Hlow. destruct Hlocks as (H1 & H2 & H3 & H4).
  by apply (pgfault_oom kend me run D x L Hx H1 H3 cons_lock screen H2 H4 Hend k k s t pr live T U cr2 err p (only_hw_refl _ _ _ _ _ Hok)).
Qed.
End theorems.

(** Process 3 of the example machine, with the address space of Uvm.v and a size
    of two pages. *)
Definition ex_user : kproc :=
  with_hw (Hw 0 [Cpu 0 0 false (Some 3%nat) true 0 0; Cpu 1 0 false None true 0 0]
    {[ptable_lock := Spinlock false "ptable" None; 2 := Spinlock false "console" None; kmem_lock := Spinlock false "kmem" None]})
  (with_procs (alter (λ p, set_cwd (Some 0%nat) (set_sz 8192 (set_pgdir (ex_page 0) p))) 3%nat (k_procs ex_k)) ex_k).
Definition ex_locks : gset Z := {[ptable_lock; 2; kmem_lock]}.
Definition ex_user_proc : proc := set_cwd (Some 0%nat) (set_sz 8192 (set_pgdir (ex_page 0) (ex_proc 7 RUNNING None))).
Lemma ex_user_hw : hw_ok 0 [Some 3%nat; None] ex_locks [] (k_hw ex_user).
Proof.
  split; simpl; try done; try lia.
  - apply (bool_decide_unpack _). vm_compute. exact I.
  - intros i ci Hi. destruct i as [|[|i]]; simpl in Hi; [injection Hi as <-..|done]; (split; [|by case_decide]); split; simpl; lia.
  - apply (bool_decide_unpack _). vm_compute. exact I.
  - constructor.
  - intros lk Hlk. by apply not_elem_of_nil in Hlk.
Qed.
Lemma ex_user_procs : k_procs ex_user !! 3%nat = Some ex_user_proc.
Proof. by vm_compute. Qed.
Lemma ex_locks_in : kmem_lock ∈ ex_locks ∧ 2 ∈ ex_locks ∧ (kmem_lock ∉ []) ∧ 2 ∉ [].
Proof. split_and!; [apply (bool_decide_unpack _); by vm_compute..|apply not_elem_of_nil|apply not_elem_of_nil]. Qed.

Lemma lazy_allocation_witness : ∃ k s k' s' t', screen_ok t' ∧
  @pgfault console (console_PrintOps 2) ex_end 5000 6 (k, s, ex_console) = Ret () (k', s', t') ∧
  @pgfault console (console_PrintOps 2) ex_end 300 5 (k, s, ex_console) = Panic "remap".
Proof.
  destruct (ex_stocked_in (.∈ ex_locks) (only_hw 0 [Some 3%nat; None] ex_locks ex_user) ex_user 2) as (k & s & (h & -> & Hok) & Has);
    [apply ex_locks_in|apply only_hw_refl, ex_user_hw|lia|]. change (reverse (pages (ex_page 3) 2)) with [ex_page 4; ex_page 3] in Has.
  pose proof (λ cr2 err, @lazy_allocation console (console_PrintOps 2) 2 screen_ok (console_PrintLaws 2) ex_end 0 [Some 3%nat; None] ex_locks 3 [] eq_refl ex_locks_in
    (with_hw h ex_user) s ex_console ex_user_proc (ex_page 4) [ex_page 3] [ex_page 0; ex_page 1; ex_page 2] ex_T ex_U cr2 err ltac:(done) Hok ltac:(apply ex_console_ok) ex_user_procs Has) as H.
  destruct (H 5000 6 ltac:(done) ltac:(done)) as (k' & s' & t' & _ & _ & _ & _ & E & Ht & _).
  exists (with_hw h ex_user), s, k', s', t'. split; [done|]. split; [exact E|]. exact (H 300 5 ltac:(done) ltac:(done)).
Defined.
Lemma fault_out_of_memory_witness : ∃ k' s' t', @pgfault console (console_PrintOps 2) ex_end 5000 6 (ex_user, ex_space, ex_console) = Ret () (k', s', t') ∧
  lookup_pte (km_mem s') (ex_page 0) 5000 = KERNBASE + 7.
Proof.
  assert (aspace ex_end ex_space [] [ex_page 0; ex_page 1; ex_page 2] (ex_page 0) ex_T ex_U) as Has.
  { apply (ex_aspace []); [intros p Hp; by apply not_elem_of_nil in Hp|]. apply (bool_decide_unpack _). by vm_compute. }
  pose proof (@fault_out_of_memory console (console_PrintOps 2) 2 screen_ok (console_PrintLaws 2) ex_end 0 [Some 3%nat; None] ex_locks 3 [] eq_refl ex_locks_in
    ex_user ex_space ex_console ex_user_proc [ex_page 0; ex_page 1; ex_page 2] ex_T ex_U 5000 6 (ex_page 2)) as H.
  destruct H as (k' & s' & t' & E & _ & _ & _ & Hl); [done|exact ex_user_hw|apply ex_console_ok|exact ex_user_procs|exact Has|simpl; lia|done|done|done| |by eauto].
  split; [done|]. by exists 7.
Defined.
