(* ===== verification/Life.v ===== *)
(** * Creation and death of processes (proc.c)

    [allocproc], [userinit], [growproc], [fork], [exit], [wait] and [forkret], on
    the process table and the memory of Fault.v.  The files and inodes of a
    process are handled by file.c and fs.c, here an interface ([FileOps]); the
    file shows what [fork] hands to the child, what [exit] leaves behind ([exit_ok],
    from which Fds.v has the theorem on [exit] with the table of open files) and
    what [wait] gives back. *)
From stdpp Require Import base list gmap strings.
From Stdlib Require Import ZArith Lia Permutation.
From S2P Require Import Prelude User Mmu Spinlock CpuLocks CString Proc RunQueue Sched Machine Kernel Console Kalloc Vm Uvm CopyUvm Fault.
#[local] Open Scope Z_scope.

(** What the life of a process needs of the file system. *)
Class FileOps (S : Type) := {
  f_filedup : nat → M S nat;
  f_fileclose : nat → M S ();
  f_idup : nat → M S nat;
  f_iput : nat → M S ();
  f_begin_op : M S ();
  f_end_op : M S ();
  f_namei : list Z → M S (option nat);
  f_iinit : M S ();
  f_initlog : M S () }.

(** [safestrcpy] into the [name] of a process: the zero that ends the copy is
    followed by another one. *)
Definition zero_first (s : list Z) : list Z := match s with [] => [] | _ :: s' => 0 :: s' end.
Fixpoint safestrcpy_name (n : nat) (s t : list Z) : list Z :=
  match n, s, t with
  | S (S _ as n'), _ :: s', c :: t' => c :: (if c =? 0 then zero_first s' else safestrcpy_name n' s' t')
  | _, _, _ => zero_first s
  end.

(** mmu.h and x86.h *)
Definition SEG_UCODE : Z := 3.
Definition SEG_UDATA : Z := 4.
Definition DPL_USER : Z := 3.
Definition FL_IF : Z := 512.
Definition set_eax (v : Z) (t : trapframe) : trapframe :=
  Trapframe (tf_edi t) (tf_esi t) (tf_ebp t) (tf_oesp t) (tf_ebx t) (tf_edx t) (tf_ecx t) v (tf_gs t) (tf_fs t) (tf_es t) (tf_ds t) (tf_trapno t)
    (tf_err t) (tf_eip t) (tf_cs t) (tf_eflags t) (tf_esp t) (tf_ss t).

Section life.
Context {F : Type} `{!PrintOps (kproc * kmem * F), !FileOps (kproc * kmem * F)}.
Variables kend kdata : Z.
(** The address of [forkret], and the program of the first process. *)
Variables forkret_addr initcode_start initcode_size : Z.
Abbreviation K := (kproc * kmem * F)%type.

(** The trap frame of a new process is not initialised here; the callers write
    all of it.  [trapret], which [forkret] returns to, is not a state. *)
Definition allocproc : M K (option nat) :=
  kp (acquire_k ptable_lock) ;;;
  let! k := kp get in
  match first_idx (λ p, bool_decide (p_state p = UNUSED)) (take NPROC (k_procs k)) with
  | None => kp (release_k ptable_lock) ;;; ret None
  | Some p =>
      kp (upd_proc p (set_state EMBRYO)) ;;;
      let! k := kp get in
      kp (upd_proc p (set_pid (k_nextpid k))) ;;;
      kp (modify (λ k, with_nextpid (sint (k_nextpid k + 1)) k)) ;;;
      kp (upd_proc p (set_prio 5)) ;;;
      kp (release_k ptable_lock) ;;;
      let! kstack := km kalloc in
      kp (upd_proc p (set_kstack kstack)) ;;;
      if kstack =? 0 then kp (upd_proc p (set_state UNUSED)) ;;; ret None else
      kp (upd_proc p (set_context (Context_ 0 0 0 0 forkret_addr))) ;;;
      ret (Some p)
  end.

Definition init_tf : trapframe :=
  Trapframe 0 0 0 0 0 0 0 0 0 0 (Z.lor (Z.shiftl SEG_UDATA 3) DPL_USER) (Z.lor (Z.shiftl SEG_UDATA 3) DPL_USER) 0
    0 0 (Z.lor (Z.shiftl SEG_UCODE 3) DPL_USER) FL_IF PGSIZE (Z.lor (Z.shiftl SEG_UDATA 3) DPL_USER).
Definition userinit : M K () :=
  let! p := allocproc in
  kp (modify (λ k, Kproc (k_hw k) (k_procs k) (k_prio k) (k_nextpid k) p (k_kpgdir k))) ;;;
  let! d := km (setupkvm kend kdata) in
  let! p := deref p in
  kp (upd_proc p (set_pgdir d)) ;;;
  if d =? 0 then panic "userinit: out of memory?" else
  km (inituvm d initcode_start initcode_size) ;;;
  kp (upd_proc p (set_sz PGSIZE)) ;;;
  kp (upd_proc p (set_tf init_tf)) ;;;
  kp (upd_proc p (set_prio 5)) ;;;
  kp (upd_proc p (λ q, set_name (safestrcpy_name 16 (p_name q) (str "initcode" ++ [0])) q)) ;;;
  let! cwd := f_namei (str "/") in
  kp (upd_proc p (set_cwd cwd)) ;;;
  kp (acquire_k ptable_lock) ;;;
  kp (upd_proc p (set_state RUNNABLE)) ;;;
  let! q := kp (get_proc p) in
  kp (insertProc p (p_prio q)) ;;;
  kp (release_k ptable_lock).

Definition growproc (n : Z) : M K Z :=
  let! cur := kp myproc in
  let! cur := deref cur in
  let! c := kp (get_proc cur) in
  let! sz := (if 0 <? n then km (allocuvm kend (p_pgdir c) (p_sz c) (uint (p_sz c + n)))
              else if n <? 0 then km (deallocuvm kend (p_pgdir c) (p_sz c) (uint (p_sz c + n)))
              else ret (p_sz c)) in
  if negb (n =? 0) && (sz =? 0) then ret (-1) else
  kp (upd_proc cur (set_sz sz)) ;;;
  lcr3 (V2P (p_pgdir c)) ;;;
  ret 0.

Fixpoint fork_files (n i cur np : nat) : M K () :=
  match n with
  | O => ret ()
  | S n' =>
      let! c := kp (get_proc cur) in
      (match p_ofile c !! i with
       | Some (Some f) => let! g := f_filedup f in kp (upd_proc np (λ p, set_ofile (<[i := Some g]> (p_ofile p)) p))
       | _ => ret ()
       end) ;;;
      fork_files n' (S i) cur np
  end.
Definition fork : M K Z :=
  let! cur := kp myproc in
  let! cur := deref cur in
  let! np := allocproc in
  match np with
  | None => ret (-1)
  | Some np =>
      let! c := kp (get_proc cur) in
      let! d := km (copyuvm kend kdata (p_pgdir c) (p_sz c)) in
      kp (upd_proc np (set_pgdir d)) ;;;
      if d =? 0 then
        let! n := kp (get_proc np) in
        km (kfree kend (p_kstack n)) ;;;
        kp (upd_proc np (set_kstack 0)) ;;;
        kp (upd_proc np (set_state UNUSED)) ;;;
        ret (-1)
      else
      kp (upd_proc np (set_sz (p_sz c))) ;;;
      kp (upd_proc np (set_parent (Some cur))) ;;;
      kp (upd_proc np (set_prio (p_prio c))) ;;;
      kp (upd_proc np (set_tf (p_tf c))) ;;;
      kp (upd_proc np (λ p, set_tf (set_eax 0 (p_tf p)) p)) ;;;
      fork_files NOFILE 0 cur np ;;;
      let! cwd := deref (p_cwd c) in
      let! ip := f_idup cwd in
      kp (upd_proc np (set_cwd (Some ip))) ;;;
      kp (upd_proc np (λ p, set_name (safestrcpy_name 16 (p_name p) (p_name c)) p)) ;;;
      let! n := kp (get_proc np) in
      kp (acquire_k ptable_lock) ;;;
      kp (upd_proc np (set_state RUNNABLE)) ;;;
      let! n' := kp (get_proc np) in
      kp (insertProc np (p_prio n')) ;;;
      kp (release_k ptable_lock) ;;;
      ret (p_pid n)
  end.

(** A process as a sleep channel. *)
Definition chan_of (p : option nat) : Z := match p with Some i => proc_addr i | None => 0 end.

Fixpoint exit_files (n fd cur : nat) : M K () :=
  match n with
  | O => ret ()
  | S n' =>
      let! c := kp (get_proc cur) in
      (match p_ofile c !! fd with
       | Some (Some f) => f_fileclose f ;;; kp (upd_proc cur (λ p, set_ofile (<[fd := None]> (p_ofile p)) p))
       | _ => ret ()
       end) ;;;
      exit_files n' (S fd) cur
  end.
(** Children go to [initproc]. *)
Fixpoint exit_children (n i cur : nat) : M kproc () :=
  match n with
  | O => ret ()
  | S n' =>
      let! p := get_proc i in
      (if bool_decide (p_parent p = Some cur) then
         let! k := get in
         upd_proc i (set_parent (k_initproc k)) ;;;
         (if bool_decide (p_state p = ZOMBIE) then wakeup1 (chan_of (k_initproc k)) else ret ())
       else ret ()) ;;;
      exit_children n' (S i) cur
  end.
(** [exit] once the files are closed. *)
Definition exit_zombie (cur : nat) : M K () :=
  kp (acquire_k ptable_lock) ;;;
  let! c := kp (get_proc cur) in
  kp (wakeup1 (chan_of (p_parent c))) ;;;
  kp (exit_children NPROC 0 cur) ;;;
  km (deallocuvm kend (p_pgdir c) KERNBASE 0) ;;;
  kp (upd_proc cur (set_state ZOMBIE)) ;;;
  kp sched ;;;
  panic "zombie exit".
Definition exit_close (cur : nat) : M K () :=
  exit_files NOFILE 0 cur ;;;
  f_begin_op ;;;
  let! c := kp (get_proc cur) in
  let! cwd := deref (p_cwd c) in
  f_iput cwd ;;;
  f_end_op ;;;
  kp (upd_proc cur (set_cwd None)).
Definition exit (status : Z) : M K () :=
  let! cur := kp myproc in
  let! cur := deref cur in
  kp (upd_proc cur (set_status status)) ;;;
  let! k := kp get in
  if bool_decide (k_initproc k = Some cur) then panic "init exiting" else
  exit_close cur ;;;
  exit_zombie cur.

(** A dead child, found under [ptable.lock]. *)
Definition reap (i : nat) (status : Z) : M K Z :=
  let! p := kp (get_proc i) in
  km (kfree kend (p_kstack p)) ;;;
  store32 kend status (p_status p) ;;;
  kp (upd_proc i (set_kstack 0)) ;;;
  km (freevm kend (p_pgdir p) false) ;;;
  kp (upd_proc i (set_pid 0)) ;;;
  kp (upd_proc i (set_parent None)) ;;;
  kp (upd_proc i (λ q, set_name (zero_first (p_name q)) q)) ;;;
  kp (upd_proc i (set_killed false)) ;;;
  kp (upd_proc i (set_state UNUSED)) ;;;
  kp (release_k ptable_lock) ;;;
  ret (p_pid p).
Definition child_of (cur : nat) (p : proc) : bool := bool_decide (p_parent p = Some cur).
Definition zombie_of (cur : nat) (p : proc) : bool := child_of cur p && bool_decide (p_state p = ZOMBIE).
(** [fuel] wakeups are followed. *)
Fixpoint wait_loop (fuel : nat) (cur : nat) (status : Z) : M K Z :=
  let! k := kp get in
  match first_idx (zombie_of cur) (take NPROC (k_procs k)) with
  | Some i => reap i status
  | None =>
      let havekids := existsb (child_of cur) (take NPROC (k_procs k)) in
      let! c := kp (get_proc cur) in
      if negb havekids || p_killed c then kp (release_k ptable_lock) ;;; ret (-1) else
      match fuel with
      | O => park (kp (sleep (proc_addr cur) ptable_lock))
      | S f => kp (sleep (proc_addr cur) ptable_lock) ;;; wait_loop f cur status
      end
  end.
Definition wait (fuel : nat) (status : Z) : M K Z :=
  let! cur := kp myproc in
  let! cur := deref cur in
  kp (acquire_k ptable_lock) ;;;
  wait_loop fuel cur status.

(** The first code of a new process; [first] is its static flag. *)
Definition forkret (first : bool) : M K bool :=
  kp (release_k ptable_lock) ;;;
  if first then f_iinit ;;; f_initlog ;;; ret false else ret first.
End life.

Lemma as_owned kend s free live pgdir T U q : aspace kend s free live pgdir T U → q ∈ owned pgdir T U → q ∈ live.
Proof. intros [[_ _ Hown] _ Hlive _ _] [Hq|Hq]%elem_of_app; [by apply Hown|by apply Hlive]. Qed.

(** ** Single statements *)
Definition upd (i : nat) (f : proc → proc) (k : kproc) : kproc := with_procs (alter f i (k_procs k)) k.
Lemma upd_upd i f g k : upd i g (upd i f k) = upd i (g ∘ f) k.
Proof. unfold upd. simpl. by rewrite list_alter_alter_eq. Qed.
Lemma upd_ext i f g k : (∀ p, f p = g p) → upd i f k = upd i g k.
Proof. intros H. unfold upd. f_equal. apply alter_ext_list. intros p _. apply H. Qed.
Lemma upd_id i f k : (∀ p, k_procs k !! i = Some p → f p = p) → upd i f k = k.
Proof.
  intros H. unfold upd. replace (alter f i (k_procs k)) with (k_procs k); [by destruct k|]. apply list_eq. intros j. rewrite lookup_alter_list.
  case_decide; [subst|done]. destruct (k_procs k !! j) eqn:E; simpl; [|done]. by rewrite H.
Qed.
Lemma upd_nextpid i f n k : upd i f (with_nextpid n k) = with_nextpid n (upd i f k).
Proof. done. Qed.
Lemma lookup_upd i f k p : k_procs k !! i = Some p → k_procs (upd i f k) !! i = Some (f p).
Proof. intros Hp. simpl. by rewrite list_lookup_alter_eq, Hp. Qed.
Lemma lookup_upd_ne i j f k : i ≠ j → k_procs (upd i f k) !! j = k_procs k !! j.
Proof. intros Hne. simpl. by rewrite list_lookup_alter_ne. Qed.

Section statements.
Context {F : Type}.
Variables (me : nat) (run : list (option nat)) (D : gset Z).
Abbreviation onl := (only_hw me run D).

Lemma kp_acquire_ok lk L k0 k (s : kmem) (t : F) : onl k0 L k → lk ∈ D → lk ∉ L → ∃ k', kp (acquire_k lk) (k, s, t) = Ret () (k', s, t) ∧ onl k0 (lk :: L) k'.
Proof. intros Hk H1 H2. destruct (k_acquire_ok L lk k Hk H1 H2) as (k' & E & Hk'). exists k'. split; [by apply kp_Ret|done]. Qed.
Lemma kp_release_ok lk L1 L2 k0 k (s : kmem) (t : F) : onl k0 (L1 ++ lk :: L2) k → ∃ k', kp (release_k lk) (k, s, t) = Ret () (k', s, t) ∧ onl k0 (L1 ++ L2) k'.
Proof. intros Hk. destruct (k_release_ok L1 L2 lk k Hk) as (k' & E & Hk'). exists k'. split; [by apply kp_Ret|done]. Qed.
Lemma kp_get_ok i L k0 k (s : kmem) (t : F) p : onl k0 L k → k_procs k0 !! i = Some p → kp (get_proc i) (k, s, t) = Ret p (k, s, t).
Proof. intros (h & -> & _) Hp. apply kp_Ret. by apply get_proc_ok. Qed.
Lemma kp_upd_ok i f L k0 k (s : kmem) (t : F) p : onl k0 L k → k_procs k0 !! i = Some p →
  ∃ k', kp (upd_proc i f) (k, s, t) = Ret () (k', s, t) ∧ onl (upd i f k0) L k'.
Proof. intros (h & -> & Hok) Hp. exists (with_hw h (upd i f k0)). split; [apply kp_Ret; by erewrite upd_proc_ok|]. by exists h. Qed.
Lemma kp_step {A} (m : M kproc A) L L' k0 k (s : kmem) (t : F) a k1 : onl k0 L k →
  (∀ h, hw_ok me run D L h → ∃ h', m (with_hw h k0) = Ret a (with_hw h' k1) ∧ hw_ok me run D L' h') →
  ∃ k', kp m (k, s, t) = Ret a (k', s, t) ∧ onl k1 L' k'.
Proof. intros (h & -> & Hok) Hm. destruct (Hm h Hok) as (h' & E & Hok'). eexists. split; [by apply kp_Ret|]. by exists h'. Qed.
Lemma kp_Block {A} (m : M kproc A) k (s : kmem) (t : F) ch k1 kont : m k = Block ch k1 kont →
  ∃ kont', kp m (k, s, t) = Block ch (k1, s, t) kont' ∧
    ∀ k2 s2 t2 a k3, kont k2 = Ret a k3 → kont' (k2, s2, t2) = Ret a (k3, s2, t2).
Proof.
  intros E. unfold kp, zoom. simpl. rewrite E. eexists. split; [reflexivity|]. intros k2 s2 t2 a k3 E2. simpl. by rewrite E2.
Qed.
End statements.

(** One [p->field = v], where [Hk] says how the kernel has changed and [Hp] what [p] is. *)
Ltac kupd Hk Hp := match type of Hk with only_hw ?me ?run ?D ?k0 ?L ?k =>
  match goal with |- context [bind (kp (upd_proc ?i ?f)) _ (k, ?s, ?t)] =>
    let k' := fresh "k" in let E := fresh "E" in let H := fresh "H" in
    destruct (kp_upd_ok me run D i f L k0 k s t _ Hk Hp) as (k' & E & H); rewrite (bind_Ret _ _ _ _ _ E); clear E Hk; rename H into Hk;
    apply (lookup_upd i f) in Hp; cbn beta in Hp end end.

(** ** wait *)
Definition reaped (p : proc) : proc :=
  set_state UNUSED (set_killed false (set_name (zero_first (p_name p)) (set_parent None (set_pid 0 (set_kstack 0 p))))).

Section wait_ok.
Context {F : Type} `{!PrintOps (kproc * kmem * F), !FileOps (kproc * kmem * F)}.
Variable kend : Z.
Hypothesis Hkend : KERNBASE < kend.
Variables (me : nat) (run : list (option nat)) (D : gset Z) (x : nat).
Hypothesis Hx : run !! me = Some (Some x).
Hypothesis Hkm : kmem_lock ∈ D.
Hypothesis Hpt : ptable_lock ∈ D.
Abbreviation onl := (only_hw me run D).
#[local] Opaque kfree freevm NPROC.
Lemma kmem_ptable : kmem_lock ∉ [ptable_lock].
Proof. by intros ?%list_elem_of_singleton. Qed.

(** The memory of the parent and what is left of the child. *)
Record reapable (s : kmem) (free live : list Z) (pgdir : Z) (T : gmap Z Z) (U : gmap Z (Z * Z)) (p : proc) (Tc : gmap Z Z) : Prop := {
  rp_parent : aspace kend s free live pgdir T U;
  rp_child : aspace kend s free live (p_pgdir p) Tc ∅;
  rp_kstack : p_kstack p ∈ live;
  rp_apart : NoDup (p_kstack p :: pt_pages (p_pgdir p) Tc ++ owned pgdir T U) }.

(** The status is stored, the pages of the child are free, and nothing else is changed. *)
Record waited (s : kmem) (free live : list Z) (pgdir : Z) (T : gmap Z Z) (U : gmap Z (Z * Z)) (p : proc) (Tc : gmap Z Z) (status : Z)
    (s' : kmem) (free' live' : list Z) : Prop := {
  wt_as : aspace kend s' free' live' pgdir T U;
  wt_free : free' ≡ₚ p_kstack p :: pt_pages (p_pgdir p) Tc ++ free;
  wt_live : live ≡ₚ p_kstack p :: pt_pages (p_pgdir p) Tc ++ live';
  wt_user vp q f o : U !! vp = Some (q, f) → 0 ≤ o < 4096 → rd8 (km_mem s') (q + o) =
    if decide (status ≤ 4096 * vp + o < status + 4) then uchar (p_status p / 256 ^ (4096 * vp + o - status)) else rd8 (km_mem s) (q + o);
  wt_same q : q ∈ live' → q ∉ upages U → same_page (km_mem s) (km_mem s') q }.

Lemma reap_ok k0 k s (t : F) i p c status free live T U Tc : onl k0 [ptable_lock] k → k_procs k0 !! i = Some p → k_procs k0 !! x = Some c → i ≠ x →
  reapable s free live (p_pgdir c) T U p Tc → (∀ j, 0 ≤ j < 4 → ∃ q, usable U true (status + j) q) →
  ∃ k' s' free' live', reap kend i status (k, s, t) = Ret (p_pid p) (k', s', t) ∧ onl (upd i reaped k0) [] k' ∧
    waited s free live (p_pgdir c) T U p Tc status s' free' live'.
Proof using All.
  intros Hk Hp Hc Hne [R1 R2 R3 R4] Hu. unfold reap. run (kp_get_ok me run D i _ k0 k s t p Hk Hp).
  assert (∃ live1, live ≡ₚ p_kstack p :: live1) as [live1 Hl1].
  { apply list_elem_of_split in R3 as (l1 & l2 & ->). exists (l1 ++ l2). by rewrite Permutation_middle. }
  pose proof (vi_kmem _ _ _ _ _ _ (as_vm _ _ _ _ _ _ _ R1)) as Hinv.
  destruct (kfree_freed kend (.∈ D) (onl k0) [ptable_lock] Hkm kmem_ptable k s free live (p_kstack p) live1 Hinv Hl1 Hk) as (k1 & s1 & E1 & Hk1 & [F1 F2 F3 F4 F5]).
  run (km_Ret _ _ _ t _ _ _ E1). apply NoDup_cons in R4 as [R4 R5].
  assert (∀ q, q ∈ owned (p_pgdir c) T U → q ∈ live1) as Ho1.
  { intros q Hq. assert (q ∈ live) as Hin by exact (as_owned _ _ _ _ _ _ _ _ R1 Hq). rewrite Hl1 in Hin.
    apply elem_of_cons in Hin as [->|?]; [|done]. exfalso. apply R4. listin. }
  assert (∀ q, q ∈ pt_pages (p_pgdir p) Tc → q ∈ live1) as Ho2.
  { intros q Hq. assert (q ∈ live) as Hin by (eapply as_owned; [exact R2|by rewrite owned_empty]). rewrite Hl1 in Hin. apply elem_of_cons in Hin as [->|?]; [|done]. exfalso. apply R4. listin. }
  assert (aspace kend s1 (p_kstack p :: free) live1 (p_pgdir c) T U) as A1.
  { apply (aspace_frame kend s free live); [done|done|done|]. intros q Hq. apply F5, Ho1. unfold owned. listin. }
  destruct (store32_ok kend me run D x [ptable_lock] Hx status (p_status p) k0 k1 s1 t c _ _ T U Hk1 Hc A1 Hu) as (m2 & E2 & W2). run E2.
  set (s2 := upd_mem (λ _, m2) s1). pose proof (wrote_aspace kend s1 _ _ _ T U m2 _ _ _ A1 W2) as A2. fold s2 in A2.
  destruct (kp_upd_ok me run D i (set_kstack 0) _ k0 k1 s2 t p Hk1 Hp) as (k3 & E3 & Hk3). run E3.
  assert (∀ q, q ∈ live1 → q ∉ upages U → same_page (km_mem s1) m2 q) as Hs2.
  { intros q Hq Hn a Ha. apply (proj2 W2). intros q' Hq' Hq'a. apply Hn.
    assert (q = q') as ->; [|done]. destruct (decide (q = q')) as [?|Hqq]; [done|]. exfalso.
    apply (other_page kend s1 _ live1 q q' a F1); [listin|apply A1 in Hq'; listin|done|done|done]. }
  assert (∀ q, q ∈ pt_pages (p_pgdir p) Tc → q ∉ upages U) as Hd.
  { intros q Hq Hq'. apply NoDup_app in R5 as (_ & R5 & _). apply (R5 q Hq). unfold owned. listin. }
  assert (aspace kend s2 (p_kstack p :: free) live1 (p_pgdir p) Tc ∅) as C2.
  { apply (aspace_frame kend s free live); [done|apply A2| |].
    - intros q. rewrite owned_empty. apply Ho2.
    - intros q Hq. eapply same_page_trans; [apply F5, Ho2, Hq|]. apply Hs2; [by apply Ho2|by apply Hd]. }
  destruct (freevm_ok kend (.∈ D) (onl (upd i (set_kstack 0) k0)) [ptable_lock] Hkm kmem_ptable Hkend k3 s2 _ _ _ Tc ∅ false C2 Hk3)
    as (k4 & s4 & fr & free4 & live4 & E4 & Hk4 & Hfr & [G1 G2 G3 G4 G5]); [by right|]. rewrite owned_empty in Hfr. run (km_Ret _ _ _ t _ _ _ E4).
  pose proof (lookup_upd i (set_kstack 0) k0 p Hp) as Hp3.
  do 5 kupd Hk4 Hp3. destruct (kp_release_ok me run D ptable_lock [] [] _ _ s4 t Hk4) as (k10 & E10 & Hk10). run E10.
  exists k10, s4, free4, live4. split; [done|]. split; [by rewrite !upd_upd in Hk10|].
  assert (∀ q, q ∈ owned (p_pgdir c) T U → q ∈ live4) as Ho4.
  { intros q Hq. pose proof (Ho1 q Hq) as Hin. rewrite G3, Hfr in Hin. apply elem_of_app in Hin as [Hin|?]; [|done].
    exfalso. apply NoDup_app in R5 as (_ & R5 & _). by apply (R5 q). }
  split.
  - apply (aspace_frame kend s2 (p_kstack p :: free) live1); [done|done|done|]. intros q Hq. apply G5, Ho4. unfold owned. listin.
  - permz.
  - permz.
  - intros vp q f o HU Ho. assert (q ∈ upages U) as Hq by (by eapply upages_in). assert (in_page q (q + o)) as Ha by (unfold in_page; lia).
    rewrite (G5 q) by (done || apply Ho4; unfold owned; listin). simpl. rewrite (proj1 W2 vp q f o HU Ho).
    by rewrite (F5 q) by (done || apply Ho1; unfold owned; listin).
  - intros q Hq Hn. assert (q ∈ live1) as Hq1 by (rewrite G3; listin). eapply same_page_trans; [by apply F5|]. eapply same_page_trans; [by apply Hs2|by apply G5].
Qed.
Lemma reap_sched_wf ps prs qs i p : sched_wf ps prs qs → ps !! i = Some p → p_state p = ZOMBIE → sched_wf (alter reaped i ps) prs qs.
Proof.
  intros Hwf Hp Hz. apply sched_wf_upd; [done|done|]. intros q Hq. rewrite Hp in Hq. injection Hq as <-. split; [exact (sw_prio _ _ _ Hwf i p Hp)|].
  right. by rewrite Hz.
Qed.

(** The three ways in which [wait] goes on from a table it has locked. *)
Definition wait_spec (fuel : nat) (status : Z) (k0 : kproc) (s : kmem) (t : F) (qs : list (list nat)) (c : proc) (o : outcome (kproc * kmem * F) Z) : Prop :=
  match first_idx (zombie_of x) (k_procs k0) with
  | Some i => ∃ p, k_procs k0 !! i = Some p ∧ p_parent p = Some x ∧ p_state p = ZOMBIE ∧
      ∀ free live T U Tc, reapable s free live (p_pgdir c) T U p Tc → (∀ j, 0 ≤ j < 4 → ∃ q, usable U true (status + j) q) →
      ∃ k' s' free' live', o = Ret (p_pid p) (k', s', t) ∧ onl (upd i reaped k0) [] k' ∧
        sched_wf (k_procs k') (k_prio k') qs ∧ waited s free live (p_pgdir c) T U p Tc status s' free' live'
  | None =>
      if negb (existsb (child_of x) (k_procs k0)) || p_killed c then ∃ k', o = Ret (-1) (k', s, t) ∧ onl k0 [] k' else
      ∃ k1 kont, o = Block (proc_addr x) (k1, s, t) kont ∧ handoff me run D k1 ∧ sched_wf (k_procs k1) (k_prio k1) qs ∧
        k_procs k1 = alter (set_state SLEEPING) x (alter (set_chan (proc_addr x)) x (k_procs k0)) ∧
        ∀ k2 s2 t2 me2 run2 p2, handoff me2 run2 D k2 → k_procs k2 !! x = Some p2 →
          ∃ k3, kont (k2, s2, t2) = wait_loop kend fuel x status (k3, s2, t2) ∧ only_hw me2 run2 D (upd x (set_chan 0) k2) [ptable_lock] k3
  end.
Lemma wait_loop_ok fuel status k0 k s (t : F) qs c : onl k0 [ptable_lock] k → sched_wf (k_procs k0) (k_prio k0) qs → k_procs k0 !! x = Some c →
  p_state c = RUNNING → wait_spec fuel status k0 s t qs c (wait_loop kend (S fuel) x status (k, s, t)).
Proof using All.
  intros Hk Hwf Hc Hs. unfold wait_spec. cbn [wait_loop]. destruct Hk as (h & -> & Hok). erewrite bind_Ret; [|by apply kp_Ret].
  cbn [k_procs with_hw]. rewrite take_ge by (rewrite (sw_len _ _ _ Hwf); done).
  destruct (first_idx (zombie_of x) (k_procs k0)) as [i|] eqn:Ei.
  - apply first_idx_Some in Ei as [(p & Hp & Hz) _]. unfold zombie_of, child_of in Hz. apply andb_true_iff in Hz as [Hz1%bool_decide_eq_true_1 Hz2%bool_decide_eq_true_1].
    exists p. split; [done|]. split; [done|]. split; [done|]. intros free live T U Tc Hr Hu. assert (i ≠ x) as Hne by (intros ->; congruence).
    destruct (reap_ok k0 (with_hw h k0) s t i p c status free live T U Tc ltac:(by exists h) Hp Hc Hne Hr Hu) as (k' & s' & free' & live' & E & Hk' & W).
    exists k', s', free', live'. split; [done|]. split; [done|]. split; [|done]. destruct Hk' as (h' & -> & _). simpl. by eapply reap_sched_wf.
  - erewrite bind_Ret; [|apply kp_Ret; by apply get_proc_ok]. destruct (negb _ || p_killed c).
    + destruct (kp_release_ok me run D ptable_lock [] [] k0 (with_hw h k0) s t ltac:(by exists h)) as (k' & E & Hk'). run E. by exists k'.
    + destruct (sleep_ok me run D (with_hw h k0) qs x c (proc_addr x) ptable_lock Hwf Hok Hpt ltac:(done) Hx Hc Hs) as (k1 & kont & E & Hk1 & Hwf1 & _ & Hps & Hkont).
      destruct (kp_Block _ _ s t _ _ _ E) as (kont' & E' & Hkont'). rewrite (obind_Block _ _ _ _ _ _ E'). eexists k1, _. split; [reflexivity|].
      split; [done|]. split; [done|]. split; [done|]. intros k2 s2 t2 me2 run2 p2 Hk2 Hp2. destruct (Hkont k2 me2 run2 p2 Hk2 Hp2) as (h2 & E2 & Hok2).
      eexists. rewrite (Hkont' _ s2 t2 _ _ E2). split; [reflexivity|]. by exists h2.
Qed.
End wait_ok.

(** ** exit *)
(** [p] after the exit of its parent [cur]. *)
Definition reparent (cur : nat) (init : option nat) (p : proc) : proc := if child_of cur p then set_parent init p else p.
Lemma wake_idem ch p : wake ch (wake ch p) = wake ch p.
Proof. unfold wake, sleeper. destruct (bool_decide (p_state p = SLEEPING)) eqn:E; simpl; [|by rewrite E]. destruct (bool_decide (p_chan p = ch)) eqn:E2; simpl; [done|by rewrite E, E2]. Qed.
Lemma wake_child ch cur p : child_of cur (wake ch p) = child_of cur p.
Proof. unfold wake. by destruct (sleeper ch p). Qed.
Lemma wake_zombie ch cur p : zombie_of cur (wake ch p) = zombie_of cur p.
Proof.
  unfold zombie_of. rewrite wake_child. f_equal. unfold wake, sleeper. destruct (bool_decide (p_state p = SLEEPING)) eqn:E; simpl; [|done].
  apply bool_decide_eq_true_1 in E. destruct (bool_decide (p_chan p = ch)); simpl; [|done]. rewrite E. done.
Qed.
Lemma wake_reparent ch cur init p : wake ch (reparent cur init p) = reparent cur init (wake ch p).
Proof. unfold reparent. rewrite wake_child. destruct (child_of cur p) eqn:E; [|done]. unfold wake, sleeper. simpl. by destruct (_ && _). Qed.

(** [ps'] is [g] of [ps], up to the links of the queues. *)
Definition procs_as (g : nat → proc → proc) (ps ps' : list proc) : Prop :=
  ∀ j p, ps !! j = Some p → ∃ p', ps' !! j = Some p' ∧ set_sigprio None p' = set_sigprio None (g j p).
(** A change that does not look at the link and leaves it alone. *)
Definition blind (g : nat → proc → proc) : Prop := ∀ j p p', set_sigprio None p = set_sigprio None p' → set_sigprio None (g j p) = set_sigprio None (g j p').
Lemma procs_as_trans g g' ps ps1 ps2 : blind g' → procs_as g ps ps1 → procs_as g' ps1 ps2 → procs_as (λ j p, g' j (g j p)) ps ps2.
Proof.
  intros Hb H1 H2 j p Hp. destruct (H1 j p Hp) as (p1 & Hp1 & E1). destruct (H2 j p1 Hp1) as (p2 & Hp2 & E2). exists p2. split; [done|].
  rewrite E2. by apply Hb.
Qed.
Lemma procs_as_ext g g' ps ps' : (∀ j p, ps !! j = Some p → g j p = g' j p) → procs_as g ps ps' → procs_as g' ps ps'.
Proof. intros He H j p Hp. destruct (H j p Hp) as (p' & Hp' & E). exists p'. by rewrite <- He. Qed.
Lemma procs_as_alter f i ps : procs_as (λ j p, if decide (i = j) then f p else p) ps (alter f i ps).
Proof. intros j p Hp. rewrite lookup_alter_list, Hp. case_decide; eexists; split; done. Qed.
Lemma blind_wake ch : blind (λ _, wake ch).
Proof.
  intros _ p p' E. unfold wake. rewrite (sleeper_sig ch p p' E). destruct (sleeper ch p'); [|done]. by apply (f_equal (set_state RUNNABLE)) in E.
Qed.
Lemma child_sig cur p p' : set_sigprio None p = set_sigprio None p' → child_of cur p = child_of cur p'.
Proof. intros E. by apply (sig_eq_field (child_of cur)) in E. Qed.
Lemma zombie_sig cur p p' : set_sigprio None p = set_sigprio None p' → zombie_of cur p = zombie_of cur p'.
Proof. intros E. by apply (sig_eq_field (zombie_of cur)) in E. Qed.
Lemma blind_reparent cur init (P : nat → Prop) `{!∀ j, Decision (P j)} : blind (λ j p, if decide (P j) then reparent cur init p else p).
Proof.
  intros j p p' E. case_decide; [|done]. unfold reparent. rewrite (child_sig cur p p' E). destruct (child_of cur p'); [|done].
  by apply (f_equal (set_parent init)) in E.
Qed.

Lemma wakeup1_as ch k qs : sched_wf (k_procs k) (k_prio k) qs → ∃ ps' prs' qs', wakeup1 ch k = Ret () (with_prio prs' (with_procs ps' k)) ∧
  sched_wf ps' prs' qs' ∧ procs_as (λ _, wake ch) (k_procs k) ps'.
Proof. intros Hwf. destruct (wakeup1_ok ch k qs Hwf) as (ps' & prs' & qs' & E & Hwf' & Hw & _). by exists ps', prs', qs'. Qed.

#[local] Opaque wakeup1 NPROC.
Lemma exit_children_ok cur n : ∀ i k qs, (i + n = NPROC)%nat → sched_wf (k_procs k) (k_prio k) qs →
  ∃ ps' prs' qs' (b : bool), exit_children n i cur k = Ret () (with_prio prs' (with_procs ps' k)) ∧ sched_wf ps' prs' qs' ∧
    (b = true ↔ ∃ j p, (i ≤ j)%nat ∧ k_procs k !! j = Some p ∧ zombie_of cur p = true) ∧
    procs_as (λ j p, let p := if b then wake (chan_of (k_initproc k)) p else p in if decide (i ≤ j)%nat then reparent cur (k_initproc k) p else p) (k_procs k) ps'.
Proof.
  induction n as [|n IH]; intros i k qs Hi Hwf.
  { exists (k_procs k), (k_prio k), qs, false. split; [by destruct k|]. split; [done|]. split.
    - split; [done|]. intros (j & p & Hj & Hp & _). apply lookup_lt_Some in Hp. rewrite (sw_len _ _ _ Hwf) in Hp. lia.
    - intros j p Hp. exists p. split; [done|]. pose proof (lookup_lt_Some _ _ _ Hp) as Hlt. rewrite (sw_len _ _ _ Hwf) in Hlt. by rewrite decide_False by lia. }
  destruct (lookup_lt_is_Some_2 (k_procs k) i) as [p Hp]; [rewrite (sw_len _ _ _ Hwf); lia|].
  cbn [exit_children]. run (get_proc_ok _ _ _ Hp). fold (child_of cur p).
  assert (∀ k1 qs1 (b1 : bool), sched_wf (k_procs k1) (k_prio k1) qs1 → k_hw k1 = k_hw k → k_nextpid k1 = k_nextpid k → k_initproc k1 = k_initproc k → k_kpgdir k1 = k_kpgdir k →
    b1 = zombie_of cur p →
    procs_as (λ j q, let q := if b1 then wake (chan_of (k_initproc k)) q else q in if decide (j = i) then reparent cur (k_initproc k) q else q) (k_procs k) (k_procs k1) →
    ∃ ps' prs' qs' (b : bool), exit_children n (S i) cur k1 = Ret () (with_prio prs' (with_procs ps' k)) ∧ sched_wf ps' prs' qs' ∧
    (b = true ↔ ∃ j p, (i ≤ j)%nat ∧ k_procs k !! j = Some p ∧ zombie_of cur p = true) ∧
    procs_as (λ j p, let p := if b then wake (chan_of (k_initproc k)) p else p in if decide (i ≤ j)%nat then reparent cur (k_initproc k) p else p) (k_procs k) ps') as Hstep.
  { intros k1 qs1 b1 Hwf1 E1 E2 E3 E4 Hb1 Has. destruct (IH (S i) k1 qs1 ltac:(lia) Hwf1) as (ps' & prs' & qs' & b & E & Hwf' & Hb & Has').
    exists ps', prs', qs', (b1 || b). split; [rewrite E; destruct k, k1; simpl in *; by subst|]. split; [done|]. rewrite E3 in Has'. split.
    - rewrite orb_true_iff, Hb, Hb1. split.
      + intros [Hz|(j & q1 & Hj & Hq1 & Hz)]; [by exists i, p|]. destruct (lookup_lt_is_Some_2 (k_procs k) j) as [q Hq].
        { rewrite (sw_len _ _ _ Hwf), <- (sw_len _ _ _ Hwf1). by eapply lookup_lt_Some. }
        exists j, q. split; [lia|]. split; [done|]. destruct (Has j q Hq) as (q' & Hq' & Eq). rewrite Hq1 in Hq'. injection Hq' as <-.
        rewrite decide_False in Eq by lia. rewrite <- Hz, (zombie_sig cur _ _ Eq). by destruct b1; cbv zeta; rewrite ?wake_zombie.
      + intros (j & q & Hj & Hq & Hz). destruct (decide (j = i)) as [->|Hne]; [left; congruence|]. right. destruct (Has j q Hq) as (q1 & Hq1 & Eq).
        exists j, q1. split; [lia|]. split; [done|]. rewrite decide_False in Eq by lia. rewrite <- Hz, (zombie_sig cur _ _ Eq). by destruct b1; cbv zeta; rewrite ?wake_zombie.
    - eapply procs_as_ext; [|eapply procs_as_trans; [|exact Has|exact Has']].
      + intros j q Hq. cbv zeta. destruct (decide (j = i)) as [->|Hne].
        * rewrite (decide_False (P := (S i ≤ i)%nat)), !decide_True by lia. destruct b1, b; cbn [orb]; rewrite ?wake_reparent, ?wake_idem; done.
        * rewrite (decide_False (P := j = i)) by done. destruct (decide (S i ≤ j)%nat); [rewrite (decide_True (P := (i ≤ j)%nat)) by lia|rewrite (decide_False (P := (i ≤ j)%nat)) by lia]; destruct b1, b; cbn [orb]; rewrite ?wake_idem; done.
      + intros j q q' Eq. cbv zeta. apply (blind_reparent cur (k_initproc k) (λ j, (S i ≤ j)%nat) j). destruct b; [by apply (blind_wake _ j)|done]. }
  unfold zombie_of in Hstep. destruct (child_of cur p) eqn:Hch; cbn [andb] in Hstep.
  - run2 (eq_refl : get k = Ret k k). run2 (upd_proc_ok _ _ _ _ Hp).
    set (k1 := with_procs (alter (set_parent (k_initproc k)) i (k_procs k)) k).
    assert (sched_wf (k_procs k1) (k_prio k1) qs) as Hwf1.
    { apply sched_wf_upd; [done|done|]. intros q Hq. split; [exact (sw_prio _ _ _ Hwf i q Hq)|by left]. }
    assert (procs_as (λ j q, if decide (j = i) then reparent cur (k_initproc k) q else q) (k_procs k) (k_procs k1)) as Has1.
    { eapply procs_as_ext; [|apply procs_as_alter]. intros j q Hq. cbv beta. destruct (decide (i = j)) as [<-|Hne]; [|by rewrite (decide_False (P := j = i)) by congruence].
      rewrite !decide_True by done. rewrite Hp in Hq. injection Hq as <-. unfold reparent. by rewrite Hch. }
    destruct (bool_decide (p_state p = ZOMBIE)) eqn:Hz.
    + destruct (wakeup1_as (chan_of (k_initproc k)) k1 qs Hwf1) as (ps2 & prs2 & qs2 & E2 & Hwf2 & Has2). run E2.
      apply (Hstep (with_prio prs2 (with_procs ps2 k1)) qs2 true Hwf2); [done..|].
      eapply procs_as_ext; [|eapply procs_as_trans; [apply blind_wake|exact Has1|exact Has2]].
      intros j q Hq. cbv beta zeta. destruct (decide (j = i)); [by rewrite wake_reparent|done].
    + next. apply (Hstep k1 qs false Hwf1); done.
  - next. apply (Hstep k qs false Hwf); try done. intros j q Hq. exists q. split; [done|]. cbv zeta. case_decide as Hji; [|done].
    subst j. rewrite Hp in Hq. injection Hq as <-. unfold reparent. by rewrite Hch.
Qed.

Lemma zombies_same cur ch (b : bool) ps ps' : procs_as (λ _, wake ch) ps ps' → length ps = length ps' →
  (b = true ↔ ∃ j p, ps' !! j = Some p ∧ zombie_of cur p = true) → b = existsb (zombie_of cur) ps.
Proof.
  intros Has Hl Hb. apply eq_true_iff_eq. rewrite Hb, existsb_exists. split.
  - intros (j & p' & Hp' & Hz). destruct (lookup_lt_is_Some_2 ps j) as [p Hp]; [rewrite Hl; by eapply lookup_lt_Some|].
    exists p. split; [apply list_elem_of_In; by eapply list_elem_of_lookup_2|]. destruct (Has j p Hp) as (q & Hq & E). rewrite Hp' in Hq. injection Hq as <-.
    by rewrite <- Hz, (zombie_sig _ _ _ E), wake_zombie.
  - intros (p & Hin & Hz). apply list_elem_of_In, list_elem_of_lookup in Hin as [j Hp]. destruct (Has j p Hp) as (p' & Hp' & E). exists j, p'. split; [done|].
    by rewrite (zombie_sig _ _ _ E), wake_zombie.
Qed.
Lemma keep_all kend s free live pgdir T U : aspace kend s free live pgdir T U → keep (PGROUNDUP 0) KERNBASE U = ∅.
Proof.
  intros [_ _ _ Hdom _]. apply map_eq. intros vp. rewrite lookup_keep, lookup_empty. case_decide as Hd; [done|]. destruct (U !! vp) eqn:E; [|done].
  apply Hdom in E. exfalso. apply Hd. change (PGROUNDUP 0) with 0. unfold KERNBASE. lia.
Qed.
Lemma wake_running ch p : p_state p = RUNNING → wake ch p = p.
Proof. intros H. unfold wake, sleeper. by rewrite H. Qed.

Section exit_ok.
Context {F : Type} `{!PrintOps (kproc * kmem * F), !FileOps (kproc * kmem * F)}.
Variable kend : Z.
Hypothesis Hkend : KERNBASE < kend.
Variables (D : gset Z) (x : nat).
Hypothesis Hkm : kmem_lock ∈ D.
Hypothesis Hpt : ptable_lock ∈ D.
#[local] Opaque deallocuvm sched.

(** What becomes of process [j] when [x], which is [c], exits. *)
Definition exited (k : kproc) (c : proc) (j : nat) (p : proc) : proc :=
  let p := wake (chan_of (p_parent c)) p in
  let p := if existsb (zombie_of x) (k_procs k) then wake (chan_of (k_initproc k)) p else p in
  let p := reparent x (k_initproc k) p in
  if decide (j = x) then set_state ZOMBIE p else p.
(** The state that [x] leaves to the scheduler: [x] is a zombie without user
    memory, its children are those of init, and whoever waits for them or for
    [x] is runnable. *)
Record zombified (me : nat) (run : list (option nat)) (k0 : kproc) (s : kmem) (c : proc) (free live : list Z) (T : gmap Z Z) (U : gmap Z (Z * Z))
    (k1 : kproc) (s1 : kmem) : Prop := {
  zb_hand : handoff me run D k1;
  zb_wf : ∃ qs, sched_wf (k_procs k1) (k_prio k1) qs;
  zb_procs : procs_as (exited k0 c) (k_procs k0) (k_procs k1);
  zb_init : k_initproc k1 = k_initproc k0 ∧ k_nextpid k1 = k_nextpid k0;
  zb_mem : ∃ fr free' live', shrunk kend s free live (p_pgdir c) T U s1 fr free' live' ∅ }.

Lemma exit_zombie_ok me run k0 k s (t : F) qs c free live T U : run !! me = Some (Some x) → only_hw me run D k0 [] k → sched_wf (k_procs k0) (k_prio k0) qs →
  k_procs k0 !! x = Some c → p_state c = RUNNING → aspace kend s free live (p_pgdir c) T U →
  ∃ ch k1 s1 kont, exit_zombie kend x (k, s, t) = Block ch (k1, s1, t) kont ∧ zombified me run k0 s c free live T U k1 s1 ∧
    ∀ me2 run2 k2 s2 t2, handoff me2 run2 D k2 → kont (k2, s2, t2) = Panic "zombie exit".
Proof using All.
  intros Hx Hk Hwf Hc Hs Has. unfold exit_zombie.
  destruct (kp_acquire_ok me run D ptable_lock [] k0 k s t Hk Hpt) as (k1 & E1 & Hk1); [apply not_elem_of_nil|]. run E1.
  run (kp_get_ok me run D x _ k0 k1 s t c Hk1 Hc). destruct Hk1 as (h1 & -> & Hok1).
  destruct (wakeup1_as (chan_of (p_parent c)) (with_hw h1 k0) qs Hwf) as (ps2 & prs2 & qs2 & E2 & Hwf2 & As2). run (kp_Ret _ _ s t _ _ E2).
  set (k2 := with_prio prs2 (with_procs ps2 (with_hw h1 k0))) in *.
  destruct (exit_children_ok x NPROC 0 k2 qs2 eq_refl Hwf2) as (ps3 & prs3 & qs3 & b & E3 & Hwf3 & Hb & As3). run (kp_Ret _ _ s t _ _ E3).
  set (k3 := with_prio prs3 (with_procs ps3 (with_hw h1 k0))). change (with_prio prs3 (with_procs ps3 k2)) with k3 in *.
  assert (b = existsb (zombie_of x) (k_procs k0)) as ->.
  { apply (zombies_same x _ b _ _ As2); [exact (eq_trans (sw_len _ _ _ Hwf) (eq_sym (sw_len _ _ _ Hwf2)))|]. rewrite Hb. split; [intros (j & p & _ & H); eauto|intros (j & p & H); exists j, p; split; [lia|done]]. }
  assert (procs_as (λ j p, reparent x (k_initproc k0) (if existsb (zombie_of x) (k_procs k0) then wake (chan_of (k_initproc k0)) (wake (chan_of (p_parent c)) p) else wake (chan_of (p_parent c)) p))
    (k_procs k0) ps3) as As.
  { eapply procs_as_ext; [|eapply procs_as_trans; [|exact As2|exact As3]].
    - intros j p Hp. cbv beta zeta. by rewrite decide_True by lia.
    - intros j p p' Ep. cbv beta zeta. apply (blind_reparent x (k_initproc k0) (λ j, (0 ≤ j)%nat) j). destruct (existsb _ _); [by apply (blind_wake _ j)|done]. }
  destruct (As x c Hc) as (c3 & Hc3 & Ec3).
  assert (p_state c3 = RUNNING) as Hs3.
  { rewrite (sig_eq_field p_state _ _ ltac:(done) Ec3). unfold reparent. destruct (existsb _ _); rewrite ?(wake_running _ c Hs); by destruct (child_of x c). }
  destruct (deallocuvm_ok kend (.∈ D) (only_hw me run D k3) [ptable_lock] Hkm kmem_ptable Hkend k3 s free live (p_pgdir c) T U KERNBASE 0 Has) as (k4 & s4 & fr & free' & live' & E4 & Hk4 & Hsh);
    [by apply only_hw_refl|done|done|]. rewrite (keep_all _ _ _ _ _ _ _ Has) in Hsh. run (km_Ret _ _ _ t _ _ _ E4).
  change (k_procs k3 !! x = Some c3) in Hc3. pose proof Hc3 as Hc3'. kupd Hk4 Hc3. destruct Hk4 as (h5 & -> & Hok5).
  destruct (sched_ok me run D (with_hw h5 (upd x (set_state ZOMBIE) k3)) x (set_state ZOMBIE c3) Hok5 Hx Hc3 ltac:(done)) as (h6 & kont & E6 & Hok6 & Hkont).
  destruct (kp_Block _ _ s4 t _ _ _ E6) as (kont' & E6' & Hkont'). rewrite (obind_Block _ _ _ _ _ _ E6'). eexists _, _, s4, _. split; [reflexivity|]. split.
  - split; [exact Hok6| | |done|by eauto].
    + exists qs3. apply sched_wf_upd; [done|done|]. intros q Hq. change (ps3 !! x = Some q) in Hq.
      change (ps3 !! x = Some c3) in Hc3'. rewrite Hc3' in Hq. injection Hq as <-. split; [exact (sw_prio _ _ _ Hwf3 x c3 Hc3')|]. right. by rewrite Hs3.
    + eapply procs_as_ext; [|eapply procs_as_trans; [|exact As|apply (procs_as_alter (set_state ZOMBIE) x)]].
      * intros j p Hp. cbv beta. unfold exited. destruct (existsb _ _); destruct (decide (x = j)); destruct (decide (j = x)); try done; congruence.
      * intros j p p' Ep. case_decide; [|done]. by apply (f_equal (set_state ZOMBIE)) in Ep.
  - intros me2 run2 k5 s5 t5 Hk5. destruct (Hkont k5 me2 run2 Hk5) as (h7 & E7 & _). by rewrite (Hkont' _ s5 t5 _ _ E7).
Qed.
End exit_ok.

(** ** fork *)
(** The duplicating half of [FileOps]: it only takes spin locks, [flocks], and
    returns the file or the inode it is given, which is still one afterwards. *)
Class DupLaws {F : Type} `{!FileOps (kproc * kmem * F)} (flocks : list Z) (isfile isdir : F → nat → Prop) : Prop := {
  filedup_ok me run D k m t f : hw_ok me run D [] (k_hw k) → (∀ l, l ∈ flocks → l ∈ D) → isfile t f →
    ∃ k' t', f_filedup f (k, m, t) = Ret f (k', m, t') ∧ only_hw me run D k [] k' ∧ (∀ g, isfile t g → isfile t' g) ∧ (∀ i, isdir t i → isdir t' i);
  idup_ok me run D k m t i : hw_ok me run D [] (k_hw k) → (∀ l, l ∈ flocks → l ∈ D) → isdir t i →
    ∃ k' t', f_idup i (k, m, t) = Ret i (k', m, t') ∧ only_hw me run D k [] k' ∧ (∀ g, isfile t g → isfile t' g) ∧ (∀ j, isdir t j → isdir t' j) }.

(** The open files of the child: those of the parent [co], in what the slot had. *)
Fixpoint copy_files (n i : nat) (co po : list (option nat)) : list (option nat) :=
  match n with
  | O => po
  | S n' => copy_files n' (S i) co (match co !! i with Some (Some f) => <[i := Some f]> po | _ => po end)
  end.
Lemma copy_files_length n : ∀ i co po, length (copy_files n i co po) = length po.
Proof. induction n as [|n IH]; intros i co po; [done|]. cbn [copy_files]. rewrite IH. destruct (co !! i) as [[f|]|]; by rewrite ?length_insert. Qed.
Lemma copy_files_lookup n : ∀ i co po fd, (i + n ≤ length po)%nat →
  copy_files n i co po !! fd = if decide (i ≤ fd < i + n)%nat then match co !! fd with Some (Some f) => Some (Some f) | _ => po !! fd end else po !! fd.
Proof.
  induction n as [|n IH]; intros i co po fd Hl; [by rewrite decide_False by lia|]. cbn [copy_files].
  assert (length (match co !! i with Some (Some f) => <[i := Some f]> po | _ => po end) = length po) as El by (destruct (co !! i) as [[f|]|]; by rewrite ?length_insert).
  rewrite IH by (rewrite El; lia). destruct (decide (fd = i)) as [->|Hne].
  - rewrite decide_False, decide_True by lia. destruct (co !! i) as [[f|]|]; [|done..]. by rewrite list_lookup_insert_eq by lia.
  - assert (match co !! i with Some (Some f) => <[i := Some f]> po | _ => po end !! fd = po !! fd) as -> by (destruct (co !! i) as [[f|]|]; by rewrite ?list_lookup_insert_ne by done).
    destruct (decide (S i ≤ fd < S i + n)%nat); [by rewrite decide_True by lia|by rewrite decide_False by lia].
Qed.

(** A slot that [allocproc] has taken. *)
Definition embryo (pid kstack fr : Z) (p : proc) : proc :=
  set_context (Context_ 0 0 0 0 fr) (set_kstack kstack (set_prio 5 (set_pid pid (set_state EMBRYO p)))).
Definition no_stack (pid : Z) (p : proc) : proc := set_state UNUSED (set_kstack 0 (set_prio 5 (set_pid pid (set_state EMBRYO p)))).
(** The child of [x], which is [c]. *)
Definition child (x : nat) (c : proc) (pid kstack fr d : Z) (p : proc) : proc :=
  Proc (p_sz c) d kstack RUNNABLE pid (Some x) (set_eax 0 (p_tf c)) (Context_ 0 0 0 0 fr) (p_chan p) (p_killed p)
    (copy_files NOFILE 0 (p_ofile c) (p_ofile p)) (p_cwd c) (safestrcpy_name 16 (p_name p) (p_name c)) (p_status p) (p_prio c) (p_sigprio p).

Section fork_ok.
Context {F : Type} `{!PrintOps (kproc * kmem * F), !FileOps (kproc * kmem * F)}.
Context (flocks : list Z) (isfile isdir : F → nat → Prop) `{!DupLaws flocks isfile isdir}.
Variables kend kdata fr : Z.
Hypothesis Hkend : KERNBASE < kend.
Hypothesis Hdata : kdata mod 4096 = 0 ∧ KERNLINK < kdata < KERNBASE + PHYSTOP.
Variables (me : nat) (run : list (option nat)) (D : gset Z) (x : nat).
Hypothesis Hx : run !! me = Some (Some x).
Hypothesis Hkm : kmem_lock ∈ D.
Hypothesis Hpt : ptable_lock ∈ D.
Hypothesis Hfl : ∀ l, l ∈ flocks → l ∈ D.
Abbreviation onl := (only_hw me run D).
#[local] Opaque kalloc copyuvm kfree insertProc.

Lemma filedup_onl k0 k m t f : onl k0 [] k → isfile t f →
  ∃ k' t', f_filedup f (k, m, t) = Ret f (k', m, t') ∧ onl k0 [] k' ∧ (∀ g, isfile t g → isfile t' g) ∧ (∀ i, isdir t i → isdir t' i).
Proof using DupLaws0 Hfl.
  intros (h & -> & Hok) Hi. destruct (filedup_ok me run D (with_hw h k0) m t f Hok Hfl Hi) as (k' & t' & E & (h' & -> & Hok') & H). eexists _, t'. split; [exact E|]. split; [by exists h'|done].
Qed.
Lemma idup_onl k0 k m t i : onl k0 [] k → isdir t i → ∃ k' t', f_idup i (k, m, t) = Ret i (k', m, t') ∧ onl k0 [] k'.
Proof using DupLaws0 Hfl.
  intros (h & -> & Hok) Hi. destruct (idup_ok me run D (with_hw h k0) m t i Hok Hfl Hi) as (k' & t' & E & (h' & -> & Hok') & _). eexists _, t'. split; [exact E|]. by exists h'.
Qed.

Lemma allocproc_ok k0 k s (t : F) qs free live pgdir T U : onl k0 [] k → sched_wf (k_procs k0) (k_prio k0) qs → aspace kend s free live pgdir T U →
  match first_idx (λ p, bool_decide (p_state p = UNUSED)) (k_procs k0) with
  | None => ∃ k', allocproc fr (k, s, t) = Ret None (k', s, t) ∧ onl k0 [] k'
  | Some np => ∃ k' s', let pid := k_nextpid k0 in
      match free with
      | [] => allocproc fr (k, s, t) = Ret None (k', s', t) ∧ s' = s ∧ onl (with_nextpid (sint (pid + 1)) (upd np (no_stack pid) k0)) [] k'
      | ks :: free' => allocproc fr (k, s, t) = Ret (Some np) (k', s', t) ∧ onl (with_nextpid (sint (pid + 1)) (upd np (embryo pid ks fr) k0)) [] k' ∧
          aspace kend s' free' (ks :: live) pgdir T U ∧ km_mem s' = km_mem s ∧ km_use_lock s' = km_use_lock s ∧ ks ≠ 0
      end
  end.
Proof using All.
  intros Hk Hwf Has. unfold allocproc. destruct (kp_acquire_ok me run D ptable_lock [] k0 k s t Hk Hpt) as (k1 & E1 & Hk1); [apply not_elem_of_nil|]. run E1.
  destruct Hk1 as (h1 & -> & Hok1). erewrite bind_Ret; [|by apply kp_Ret]. cbn [k_procs with_hw]. rewrite take_ge by (rewrite (sw_len _ _ _ Hwf); done).
  destruct (first_idx _ _) as [np|] eqn:Ei.
  2: { destruct (kp_release_ok me run D ptable_lock [] [] k0 (with_hw h1 k0) s t ltac:(by exists h1)) as (k' & E & Hk'). run E. by exists k'. }
  apply first_idx_Some in Ei as [(p & Hp & _) _].
  assert (onl k0 [ptable_lock] (with_hw h1 k0)) as Hk1 by (by exists h1). pose proof Hp as Hp1. kupd Hk1 Hp1.
  destruct Hk1 as (h2 & -> & Hok2). erewrite bind_Ret; [|by apply kp_Ret].
  assert (onl (upd np (set_state EMBRYO) k0) [ptable_lock] (with_hw h2 (upd np (set_state EMBRYO) k0))) as Hk2 by (by exists h2). kupd Hk2 Hp1.
  destruct Hk2 as (h3 & -> & Hok3). erewrite bind_Ret; [|by apply kp_Ret].
  set (k3 := with_nextpid (sint (k_nextpid k0 + 1)) (upd np (set_pid (k_nextpid k0)) (upd np (set_state EMBRYO) k0))).
  assert (onl k3 [ptable_lock] (with_hw h3 k3)) as Hk3 by (by exists h3).
  change (k_procs k3 !! np = Some (set_pid (k_nextpid k0) (set_state EMBRYO p))) in Hp1.
  match goal with |- context [with_nextpid ?n (with_hw h3 ?a)] => change (with_nextpid n (with_hw h3 a)) with (with_hw h3 k3) end. kupd Hk3 Hp1.
  destruct (kp_release_ok me run D ptable_lock [] [] _ _ s t Hk3) as (k5 & E5 & Hk5). run E5. cbn [app] in Hk5.
  assert (∀ f, upd np f (upd np (set_prio 5) k3) = with_nextpid (sint (k_nextpid k0 + 1)) (upd np (f ∘ set_prio 5 ∘ set_pid (k_nextpid k0) ∘ set_state EMBRYO) k0)) as Eu.
  { intros f. unfold k3, upd. simpl. by rewrite !list_alter_alter_eq. }
  destruct free as [|ks free].
  - destruct (kalloc_ok kend (.∈ D) (onl (upd np (set_prio 5) k3)) [] k5 s [] live (vi_kmem _ _ _ _ _ _ (as_vm _ _ _ _ _ _ _ Has)) Hk5 Hkm ltac:(apply not_elem_of_nil)) as (k6 & Hk6 & E6).
    run (km_Ret _ _ _ t _ _ _ E6). kupd Hk6 Hp1. cbn [Z.eqb]. kupd Hk6 Hp1. eexists _, s. split; [reflexivity|]. split; [done|]. rewrite upd_upd, Eu in Hk6. exact Hk6.
  - destruct (kalloc_aspace kend (.∈ D) (onl (upd np (set_prio 5) k3)) [] Hkm ltac:(apply not_elem_of_nil) k5 s free live pgdir T U ks Has Hk5)
      as (k6 & s6 & E6 & Hk6 & Has6 & Hm6 & Hu6 & Hpok & _). run (km_Ret _ _ _ t _ _ _ E6). kupd Hk6 Hp1.
    assert (ks ≠ 0) as Hks by (apply page_range in Hpok; lia). rewrite (proj2 (Z.eqb_neq ks 0) Hks). kupd Hk6 Hp1.
    eexists _, s6. split; [reflexivity|]. rewrite upd_upd, Eu in Hk6. split; [exact Hk6|]. done.
Qed.
Lemma fork_files_ok np c n : np ≠ x → ∀ i k0 k (s : kmem) t pn, onl k0 [] k → k_procs k0 !! x = Some c → k_procs k0 !! np = Some pn →
  (∀ fd f, p_ofile c !! fd = Some (Some f) → isfile t f) →
  ∃ k' t', fork_files n i x np (k, s, t) = Ret () (k', s, t') ∧ onl (upd np (λ p, set_ofile (copy_files n i (p_ofile c) (p_ofile p)) p) k0) [] k' ∧
    (∀ j, isdir t j → isdir t' j).
Proof using DupLaws0 Hfl.
  intros Hne. induction n as [|n IH]; intros i k0 k s t pn Hk Hc Hn Hf.
  { exists k, t. split; [done|]. split; [|done]. rewrite upd_id; [done|]. intros p _. by destruct p. }
  cbn [fork_files]. run (kp_get_ok me run D x [] k0 k s t c Hk Hc).
  destruct (p_ofile c !! i) as [[f|]|] eqn:Ef.
  - destruct (filedup_onl k0 k s t f Hk (Hf _ _ Ef)) as (k1 & t1 & E1 & Hk1 & Hm1 & Hd1). run2 E1.
    destruct (kp_upd_ok me run D np (λ p, set_ofile (<[i := Some f]> (p_ofile p)) p) [] k0 k1 s t1 pn Hk1 Hn) as (k2 & E2 & Hk2). run E2.
    destruct (IH (S i) _ k2 s t1 _ Hk2 ltac:(rewrite lookup_upd_ne by done; exact Hc) (lookup_upd _ _ _ _ Hn) ltac:(intros fd g Hg; apply Hm1; by eapply Hf)) as (k3 & t3 & E3 & Hk3 & Hd3).
    exists k3, t3. split; [done|]. split; [|intros j Hj; by apply Hd3, Hd1]. rewrite upd_upd in Hk3. erewrite upd_ext; [exact Hk3|]. intros p. cbn [copy_files]. by rewrite Ef.
  - next. destruct (IH (S i) k0 k s t pn Hk Hc Hn Hf) as (k3 & t3 & E3 & Hk3 & Hd3). exists k3, t3. split; [done|]. split; [|done].
    erewrite upd_ext; [exact Hk3|]. intros p. cbn [copy_files]. by rewrite Ef.
  - next. destruct (IH (S i) k0 k s t pn Hk Hc Hn Hf) as (k3 & t3 & E3 & Hk3 & Hd3). exists k3, t3. split; [done|]. split; [|done].
    erewrite upd_ext; [exact Hk3|]. intros p. cbn [copy_files]. by rewrite Ef.
Qed.

(** The child [np] exists: a slot that was unused is a runnable process at the end
    of the queue of its parent's priority, with a stack and an address space of
    pages that were free. *)
Record born (k0 : kproc) (s : kmem) (qs : list (list nat)) (c : proc) (free live : list Z) (T : gmap Z Z) (U : gmap Z (Z * Z))
    (pid : Z) (np : nat) (ks d : Z) (k1 : kproc) (s' : kmem) (free' live' : list Z) (T' : gmap Z Z) (U' : gmap Z (Z * Z)) : Prop := {
  bn_slot : first_idx (λ p, bool_decide (p_state p = UNUSED)) (k_procs k0) = Some np;
  bn_pid : pid = k_nextpid k0 ∧ k_nextpid k1 = sint (pid + 1);
  bn_procs : procs_as (λ j p, if decide (np = j) then child x c pid ks fr d p else p) (k_procs k0) (k_procs k1);
  bn_wf : sched_wf (k_procs k1) (k_prio k1) (alter (.++ [np]) (Z.to_nat (p_prio c)) qs);
  bn_child : aspace kend s' free' live' d T' U';
  bn_copied : copied s U s' U' (p_sz c);
  bn_parent : aspace kend s' free' live' (p_pgdir c) T U;
  bn_free : free ≡ₚ ks :: owned d T' U' ++ free';
  bn_live : live' ≡ₚ ks :: owned d T' U' ++ live;
  bn_same q : q ∈ live → same_page (km_mem s) (km_mem s') q }.
(** No child: the processes in use and the memory are as before. *)
Record unborn (k0 : kproc) (s : kmem) (qs : list (list nat)) (c : proc) (free live : list Z) (T : gmap Z Z) (U : gmap Z (Z * Z))
    (k1 : kproc) (s' : kmem) (free' : list Z) : Prop := {
  ub_used j p : k_procs k0 !! j = Some p → p_state p ≠ UNUSED → k_procs k1 !! j = Some p;
  ub_unused j p : k_procs k0 !! j = Some p → p_state p = UNUSED → ∃ p', k_procs k1 !! j = Some p' ∧ p_state p' = UNUSED;
  ub_wf : sched_wf (k_procs k1) (k_prio k1) qs;
  ub_parent : aspace kend s' free' live (p_pgdir c) T U;
  ub_free : free' ≡ₚ free;
  ub_same q : q ∈ live → same_page (km_mem s) (km_mem s') q;
  ub_why : (∀ p, p ∈ k_procs k0 → p_state p ≠ UNUSED) ∨ Z.of_nat (length free) ≤ 1026 + Z.of_nat (size U) }.
Lemma unborn_slot k0 s qs c free live T U np p0 f n s' free' : sched_wf (k_procs k0) (k_prio k0) qs → k_procs k0 !! np = Some p0 → p_state p0 = UNUSED →
  (∀ p, p_state (f p) = UNUSED ∧ p_sigprio (f p) = p_sigprio p ∧ p_prio (f p) = 5) →
  aspace kend s' free' live (p_pgdir c) T U → free' ≡ₚ free → (∀ q, q ∈ live → same_page (km_mem s) (km_mem s') q) →
  Z.of_nat (length free) ≤ 1026 + Z.of_nat (size U) →
  unborn k0 s qs c free live T U (with_nextpid n (upd np f k0)) s' free'.
Proof.
  intros Hwf Hp Hu Hf Has Hfr Hs Hl. split; [| | |done|done|done|by right]; simpl.
  - intros j p Hj Hne. rewrite list_lookup_alter_ne; [done|]. intros <-. congruence.
  - intros j p Hj Hju. rewrite lookup_alter_list, Hj. case_decide; simpl; eexists; (split; [reflexivity|]); [apply Hf|done].
  - apply sched_wf_upd; [done|intros p; apply Hf|]. intros p Hq. split; [unfold prio_ok; rewrite (proj2 (proj2 (Hf p))); lia|]. right.
    rewrite Hp in Hq. injection Hq as <-. by rewrite (proj1 (Hf p0)), Hu.
Qed.

(** The last steps: the child becomes runnable. *)
Lemma fork_last np (pid : Z) k0 k (s : kmem) (t : F) qs p : onl k0 [] k → sched_wf (k_procs k0) (k_prio k0) qs → k_procs k0 !! np = Some p → p_state p = EMBRYO →
  ∃ k' ps' prs', (kp (acquire_k ptable_lock) ;;; kp (upd_proc np (set_state RUNNABLE)) ;;; let! n' := kp (get_proc np) in kp (insertProc np (p_prio n')) ;;;
      kp (release_k ptable_lock) ;;; ret pid) (k, s, t) = Ret pid (k', s, t) ∧ onl (with_prio prs' (with_procs ps' k0)) [] k' ∧
    sched_wf ps' prs' (alter (.++ [np]) (Z.to_nat (p_prio p)) qs) ∧ procs_as (λ j q, if decide (np = j) then set_state RUNNABLE q else q) (k_procs k0) ps'.
Proof using Hpt.
  intros Hk Hwf Hp Hs. destruct (kp_acquire_ok me run D ptable_lock [] k0 k s t Hk Hpt) as (k1 & E1 & Hk1); [apply not_elem_of_nil|]. run E1.
  pose proof Hp as Hp1. kupd Hk1 Hp1. destruct Hk1 as (h & -> & Hok).
  erewrite bind_Ret; [|apply kp_Ret; apply get_proc_ok; exact Hp1].
  destruct (make_runnable_ok (with_hw h k0) qs np p Hwf Hp) as (ps' & prs' & Ei & Hwf' & Hsig); [by rewrite Hs|]. run (kp_Ret _ _ s t _ _ Ei).
  destruct (kp_release_ok me run D ptable_lock [] [] (with_prio prs' (with_procs ps' k0)) (with_prio prs' (with_procs ps' (with_hw h k0))) s t ltac:(by exists h)) as (k' & E' & Hk').
  run E'. exists k', ps', prs'. split; [done|]. split; [done|]. split; [done|].
  intros j q Hq. destruct (sig_eq_lookup _ _ j (if decide (np = j) then set_state RUNNABLE q else q) Hsig) as (q' & Hq' & Eq).
  - simpl. rewrite lookup_alter_list, Hq. by case_decide.
  - exists q'. by rewrite Eq.
Qed.

(** [copyuvm] has failed: the stack goes back. *)
Lemma fork_fail np k0 k s2 s3 (t : F) qs c p0 ks free live T U s free3 : sched_wf (k_procs k0) (k_prio k0) qs → k_procs k0 !! np = Some p0 → p_state p0 = UNUSED →
  onl (upd np (set_pgdir 0) (with_nextpid (sint (k_nextpid k0 + 1)) (upd np (embryo (k_nextpid k0) ks fr) k0))) [] k →
  aspace kend s2 free (ks :: live) (p_pgdir c) T U → km_mem s2 = km_mem s → (∀ q, q ∈ owned (p_pgdir c) T U → q ∈ live) →
  restored kend s2 free (ks :: live) s3 free3 (1025 + Z.of_nat (size U)) →
  ∃ k' s' k1 free', (let! n := kp (get_proc np) in km (kfree kend (p_kstack n)) ;;; kp (upd_proc np (set_kstack 0)) ;;;
      kp (upd_proc np (set_state UNUSED)) ;;; ret (-1)) (k, s3, t) = Ret (-1) (k', s', t) ∧ onl k1 [] k' ∧
    unborn k0 s qs c (ks :: free) live T U k1 s' free'.
Proof using Hkm Hdata.
  intros Hwf Hp Hu Hk Has2 Hm2 Hown [R1 R2 R3 R4 R5]. pose proof (lookup_upd np (embryo (k_nextpid k0) ks fr) k0 p0 Hp) as Hn.
  apply (lookup_upd np (set_pgdir 0) (with_nextpid (sint (k_nextpid k0 + 1)) (upd np (embryo (k_nextpid k0) ks fr) k0))) in Hn.
  run (kp_get_ok me run D np [] _ k s3 t _ Hk Hn).
  destruct (kfree_freed kend (.∈ D) (onl _) [] Hkm ltac:(apply not_elem_of_nil) k s3 free3 (ks :: live) ks live R2 ltac:(done) Hk) as (k4 & s4 & E4 & Hk4 & [F1 F2 F3 F4 F5]).
  run (km_Ret _ _ _ t _ _ _ E4). do 2 kupd Hk4 Hn. eexists _, s4, _, (ks :: free3). split; [reflexivity|]. split; [exact Hk4|].
  assert (∀ q, q ∈ live → same_page (km_mem s) (km_mem s4) q) as Hsame.
  { intros q Hq. rewrite <- Hm2. eapply same_page_trans; [apply R5; listin|by apply F5]. }
  match goal with |- unborn _ _ _ _ _ _ _ _ ?k1 _ _ => assert (k1 = with_nextpid (sint (k_nextpid k0 + 1))
    (upd np (set_state UNUSED ∘ set_kstack 0 ∘ set_pgdir 0 ∘ embryo (k_nextpid k0) ks fr) k0)) as -> by (unfold upd; simpl; by rewrite !list_alter_alter_eq) end.
  apply (unborn_slot k0 s qs c (ks :: free) live T U np p0); [done|done|done|done| |by rewrite R3|done|simpl; lia].
  apply (aspace_frame kend s2 free (ks :: live)); [done|done|done|]. intros q Hq. rewrite Hm2. apply Hsame, Hown. unfold owned. listin.
Qed.

(** [copyuvm] has succeeded: the child is filled in and made runnable. *)
Lemma fork_child np k0 k s t qs c cwd p0 ks d : sched_wf (k_procs k0) (k_prio k0) qs → k_procs k0 !! x = Some c → k_procs k0 !! np = Some p0 → p_state p0 = UNUSED → np ≠ x →
  onl (upd np (set_pgdir d) (with_nextpid (sint (k_nextpid k0 + 1)) (upd np (embryo (k_nextpid k0) ks fr) k0))) [] k →
  (∀ fd f, p_ofile c !! fd = Some (Some f) → isfile t f) → p_cwd c = Some cwd → isdir t cwd →
  ∃ k' t' k1, (kp (upd_proc np (set_sz (p_sz c))) ;;; kp (upd_proc np (set_parent (Some x))) ;;; kp (upd_proc np (set_prio (p_prio c))) ;;;
      kp (upd_proc np (set_tf (p_tf c))) ;;; kp (upd_proc np (λ p, set_tf (set_eax 0 (p_tf p)) p)) ;;; fork_files NOFILE 0 x np ;;;
      let! cwd := deref (p_cwd c) in let! ip := f_idup cwd in kp (upd_proc np (set_cwd (Some ip))) ;;;
      kp (upd_proc np (λ p, set_name (safestrcpy_name 16 (p_name p) (p_name c)) p)) ;;; let! n := kp (get_proc np) in
      kp (acquire_k ptable_lock) ;;; kp (upd_proc np (set_state RUNNABLE)) ;;; let! n' := kp (get_proc np) in kp (insertProc np (p_prio n')) ;;;
      kp (release_k ptable_lock) ;;; ret (p_pid n)) (k, s, t) = Ret (k_nextpid k0) (k', s, t') ∧ onl k1 [] k' ∧
    k_nextpid k1 = sint (k_nextpid k0 + 1) ∧ procs_as (λ j p, if decide (np = j) then child x c (k_nextpid k0) ks fr d p else p) (k_procs k0) (k_procs k1) ∧
    sched_wf (k_procs k1) (k_prio k1) (alter (.++ [np]) (Z.to_nat (p_prio c)) qs).
Proof using DupLaws0 Hfl Hpt.
  intros Hwf Hc Hp Hu Hne Hk Hf Hcwd Hdir. pose proof (lookup_upd np (embryo (k_nextpid k0) ks fr) k0 p0 Hp) as Hn.
  apply (lookup_upd np (set_pgdir d) (with_nextpid (sint (k_nextpid k0 + 1)) (upd np (embryo (k_nextpid k0) ks fr) k0))) in Hn.
  do 5 kupd Hk Hn.
  match type of Hk with onl ?kb _ ?kk => assert (k_procs kb !! x = Some c) as Hc' by (simpl; rewrite !list_lookup_alter_ne by done; exact Hc);
    destruct (fork_files_ok np c NOFILE Hne 0 kb kk s t _ Hk Hc' Hn Hf) as (k7 & t7 & E7 & Hk7 & Hd7) end. run E7. rewrite Hcwd. next.
  match type of Hk7 with onl (upd np ?f ?kb) _ _ => apply (lookup_upd np f kb) in Hn; cbv beta in Hn end.
  destruct (idup_onl _ k7 s t7 cwd Hk7 (Hd7 _ Hdir)) as (k8 & t8 & E8 & Hk8). run E8. do 2 kupd Hk8 Hn.
  match type of Hk8 with onl ?kb _ ?kk => set (kB := kb) in *; clear Hn;
    assert (kB = with_nextpid (sint (k_nextpid k0 + 1)) (upd np (set_state EMBRYO ∘ child x c (k_nextpid k0) ks fr d) k0)) as EkB end.
  { unfold kB. rewrite !upd_upd, upd_nextpid, upd_upd. f_equal. apply upd_ext. intros [a1 a2 a3 a4 a5 a6 a7 a8 a9 a10 a11 a12 a13 a14 a15 a16].
    cbv [compose child embryo set_state set_name set_cwd set_ofile set_tf set_prio set_parent set_sz set_pgdir set_context set_kstack set_pid
      p_sz p_pgdir p_kstack p_state p_pid p_parent p_tf p_context p_chan p_killed p_ofile p_cwd p_name p_status p_prio p_sigprio]. fold (p_cwd c). by rewrite Hcwd. }
  clearbody kB. assert (k_procs kB !! np = Some (set_state EMBRYO (child x c (k_nextpid k0) ks fr d p0))) as Hn
    by (rewrite EkB; exact (lookup_upd np (set_state EMBRYO ∘ child x c (k_nextpid k0) ks fr d) k0 p0 Hp)).
  erewrite bind_Ret; [|exact (kp_get_ok me run D np [] kB _ s t8 _ Hk8 Hn)]. change (p_pid (set_state EMBRYO (child x c (k_nextpid k0) ks fr d p0))) with (k_nextpid k0).
  assert (sched_wf (k_procs kB) (k_prio kB) qs) as HwfB.
  { rewrite EkB. simpl. apply sched_wf_upd; [done|done|]. intros q Hq. rewrite Hp in Hq. injection Hq as <-. split; [exact (sw_prio _ _ _ Hwf x c Hc)|]. right. by rewrite Hu. }
  destruct (fork_last np (k_nextpid k0) kB _ s t8 qs _ Hk8 HwfB Hn ltac:(done)) as (k20 & ps' & prs' & E9 & Hk9 & Hwf9 & Has9).
  exists k20, t8, (with_prio prs' (with_procs ps' kB)). split; [exact E9|]. split; [done|]. split; [by rewrite EkB|]. split; [|done].
  eapply procs_as_ext; [|eapply procs_as_trans; [|rewrite EkB in Has9; apply (procs_as_alter (set_state EMBRYO ∘ child x c (k_nextpid k0) ks fr d) np)|rewrite EkB in Has9; exact Has9]].
  - intros j q Hq. cbv beta. by destruct (decide (np = j)).
  - intros j q q' Eq. case_decide; [|done]. by apply (f_equal (set_state RUNNABLE)) in Eq.
Qed.

Lemma fork_ok k0 k s t qs c cwd free live T U : onl k0 [] k → sched_wf (k_procs k0) (k_prio k0) qs → k_procs k0 !! x = Some c → p_state c = RUNNING →
  aspace kend s free live (p_pgdir c) T U → 0 ≤ p_sz c ≤ KERNBASE → (∀ fd f, p_ofile c !! fd = Some (Some f) → isfile t f) → p_cwd c = Some cwd → isdir t cwd →
  ∃ r k' s' t' k1 free', fork kend kdata fr (k, s, t) = Ret r (k', s', t') ∧ onl k1 [] k' ∧
    ((∃ np ks d live' T' U', born k0 s qs c free live T U r np ks d k1 s' free' live' T' U') ∨ r = -1 ∧ unborn k0 s qs c free live T U k1 s' free').
Proof using All.
  intros Hk Hwf Hc Hs Has Hsz Hf Hcwd Hdir. unfold fork.
  destruct (cur_ok me run D x [] Hx k0 k Hk) as (k1 & E1 & Hk1). run (kp_Ret _ _ s t _ _ E1). next.
  pose proof (allocproc_ok k0 k1 s t qs free live (p_pgdir c) T U Hk1 Hwf Has) as Ha. destruct (first_idx _ (k_procs k0)) as [np|] eqn:Enp.
  2: { destruct Ha as (k2 & E2 & Hk2). run E2. exists (-1), k2, s, t, k0, free. split; [done|]. split; [done|]. right. split; [done|]. split; try done; [by eauto|].
       left. intros p Hp He. apply (proj1 (first_idx_None _ _) Enp) in Hp. by rewrite He in Hp. }
  pose proof Enp as Enp'. apply first_idx_Some in Enp' as [(p0 & Hp0 & Hu0%bool_decide_eq_true_1) _]. assert (np ≠ x) as Hne by (intros ->; congruence).
  destruct Ha as (k2 & s2 & Ha). cbv zeta in Ha. destruct free as [|ks free].
  { destruct Ha as (E2 & -> & Hk2). run E2. eexists (-1), k2, s, t, _, []. split; [done|]. split; [exact Hk2|]. right. split; [done|].
    eapply unborn_slot; [done|done|done|done|done|done|done|]. simpl. lia. }
  destruct Ha as (E2 & Hk2 & Has2 & Hm2 & Hu2 & Hks). run E2.
  set (kA := with_nextpid (sint (k_nextpid k0 + 1)) (upd np (embryo (k_nextpid k0) ks fr) k0)) in *.
  assert (k_procs kA !! x = Some c) as HcA by (simpl; by rewrite list_lookup_alter_ne).
  assert (k_procs kA !! np = Some (embryo (k_nextpid k0) ks fr p0)) as HnA by (exact (lookup_upd np _ k0 p0 Hp0)).
  run (kp_get_ok me run D x [] kA k2 s2 t c Hk2 HcA).
  destruct (copyuvm_ok kend kdata (.∈ D) (onl kA) [] Hkm ltac:(apply not_elem_of_nil) Hkend Hdata k2 s2 free (ks :: live) (p_pgdir c) T U (p_sz c) Has2 Hk2 Hsz)
    as (k3 & s3 & d & free3 & E3 & Hk3 & Hr). run (km_Ret _ _ _ t _ _ _ E3). kupd Hk3 HnA.
  destruct Hr as [(Hd & live3 & T3 & U3 & Hcr & Hcp)|(-> & Hrs)].
  - rewrite (proj2 (Z.eqb_neq d 0) Hd).
    edestruct (fork_child np k0) as (k9 & t9 & k10 & E9 & Hk10 & Hnp & Hps & Hwf10); [exact Hwf|exact Hc|exact Hp0|exact Hu0|exact Hne|exact Hk3|exact Hf|exact Hcwd|exact Hdir|].
    exists (k_nextpid k0), k9, s3, t9, k10, free3. split; [exact E9|]. split; [done|]. left. exists np, ks, d, live3, T3, U3. destruct Hcr as [C1 C2 C3 C4 C5 C6].
    split; try done.
    + unfold copied in *. by rewrite <- Hm2.
    + apply (aspace_frame kend s2 free (ks :: live)); [done|apply C1| |].
      * intros q Hq. rewrite C3. pose proof (as_owned _ _ _ _ _ _ _ _ Has Hq). listin.
      * intros q Hq. apply C5. apply (as_owned _ _ _ _ _ _ _ _ Has2). unfold owned. listin.
    + clear -C2. permz.
    + clear -C3. permz.
    + intros q Hq. rewrite <- Hm2. apply C5. listin.
  - cbn [Z.eqb]. edestruct (fork_fail np k0) as (k9 & s9 & k10 & free9 & E9 & Hk10 & Hub);
      [exact Hwf|exact Hp0|exact Hu0|exact Hk3|exact Has2|exact Hm2|intros q Hq; exact (as_owned _ _ _ _ _ _ _ _ Has Hq)|exact Hrs|].
    exists (-1), k9, s9, t, k10, free9. split; [exact E9|]. split; [done|]. by right.
Qed.
End fork_ok.

(** ** The theorems *)
(** As [safe], for code that may also end in one of the panics [ok]. *)
Fixpoint orderly {S A} (ok : string → Prop) (I : S → Prop) (R : S → S → Prop) (Q : A → S → Prop) (o : outcome S A) : Prop :=
  match o with
  | Ret a s => Q a s
  | Panic msg => ok msg
  | Fault | Spin => False
  | Block _ s k => I s ∧ ∀ s', I s' → R s s' → orderly ok I R Q (k s')
  | Asleep _ s => I s
  end.
Lemma orderly_mono {S A} ok (I : S → Prop) R (Q Q' : A → S → Prop) (o : outcome S A) :
  orderly ok I R Q o → (∀ a s, Q a s → Q' a s) → orderly ok I R Q' o.
Proof. intros H HQ. induction o as [| | | |c s k IH|]; simpl in *; auto. destruct H as [HI Hk]. eauto. Qed.
Lemma orderly_bind {S A B} ok (I : S → Prop) R (Q : A → S → Prop) (Q' : B → S → Prop) (m : M S A) (f : A → M S B) s :
  orderly ok I R Q (m s) → (∀ a s', Q a s' → orderly ok I R Q' (f a s')) → orderly ok I R Q' (bind m f s).
Proof.
  unfold bind. generalize (m s) as o. clear m s. intros o H Hf. induction o as [| | | |c s k IH|]; simpl in *; auto. destruct H as [HI Hk]. eauto.
Qed.

(** Code that never returns: it may sleep on its way, or end in one of the panics
    [ok], until it gives the CPU away in a state in [Z].  If the CPU ever came
    back to it, in a state in [H], then it would panic. *)
Fixpoint exits {S} (ok : string → Prop) (I : S → Prop) (R : S → S → Prop) (Z H : S → Prop) (o : outcome S ()) : Prop :=
  match o with
  | Panic msg => ok msg
  | Block _ s k => Z s ∧ (∀ s', H s' → k s' = Panic "zombie exit") ∨ I s ∧ ∀ s', I s' → R s s' → exits ok I R Z H (k s')
  | Asleep _ s => I s
  | _ => False
  end.
Lemma exits_bind {S A} ok (I : S → Prop) R (Q : A → S → Prop) Z H (m : M S A) (f : A → M S ()) s :
  orderly ok I R Q (m s) → (∀ a s', Q a s' → exits ok I R Z H (f a s')) → exits ok I R Z H (bind m f s).
Proof.
  unfold bind; generalize (m s) as o; clear m s. intros o Ho Hf; induction o as [| | | |c s k IH|]; simpl in *; auto.
  destruct Ho as [HI Hk]. right. split; [done|]. eauto.
Qed.
Lemma exits_mono {S} ok (I : S → Prop) R (Z Z' H : S → Prop) o : (∀ s, Z s → Z' s) → exits ok I R Z H o → exits ok I R Z' H o.
Proof. intros HZ. induction o as [| | | |ch s kk IH|]; simpl; auto. intros [[? ?]|[? ?]]; eauto. Qed.

Section theorems.
Context {F : Type} `{!PrintOps (kproc * kmem * F), !FileOps (kproc * kmem * F)}.
Context (flocks : list Z) (isfile isdir : F → nat → Prop).
Variables kend kdata fr : Z.
Hypothesis Hkend : KERNBASE < kend.
Variables (D : gset Z) (x : nat).
Hypothesis Hlocks : kmem_lock ∈ D ∧ ptable_lock ∈ D.

(** Process [x] executes, without a lock: it is [c] and its memory is as given. *)
Record in_kernel (me : nat) (run : list (option nat)) (k : kproc) (s : kmem) (qs : list (list nat)) (c : proc) (free live : list Z) (T : gmap Z Z) (U : gmap Z (Z * Z)) : Prop := {
  in_run : run !! me = Some (Some x);
  in_hw : hw_ok me run D [] (k_hw k);
  in_wf : sched_wf (k_procs k) (k_prio k) qs;
  in_proc : k_procs k !! x = Some c;
  in_state : p_state c = RUNNING;
  in_mem : aspace kend s free live (p_pgdir c) T U }.

(** C6: [fork] makes a child or changes nothing.  If it returns a pid, the first
    unused slot of the table is a process with that new pid that is runnable,
    last in the queue of its parent's priority, with its parent's registers
    except for a zero return value, its parent's files, directory, size and
    name, a kernel stack and an address space made of pages that were free, and
    in that address space the bytes of its parent's memory; the other
    processes, the parent's memory and all other pages are as before.
    Otherwise it returns -1, all processes in use and all of the memory are as
    before, and either no slot was unused or the free pages could not hold the
    copy. *)
Theorem fork_correct `{!DupLaws flocks isfile isdir} me run k s t qs c cwd free live T U :
  kdata mod 4096 = 0 ∧ KERNLINK < kdata < KERNBASE + PHYSTOP → (∀ l, l ∈ flocks → l ∈ D) →
  in_kernel me run k s qs c free live T U → 0 ≤ p_sz c ≤ KERNBASE →
  (∀ fd f, p_ofile c !! fd = Some (Some f) → isfile t f) → p_cwd c = Some cwd → isdir t cwd →
  ∃ r k' s' t' k1 free', fork kend kdata fr (k, s, t) = Ret r (k', s', t') ∧ only_hw me run D k1 [] k' ∧
    ((∃ np ks d live' T' U', born kend fr x k s qs c free live T U r np ks d k1 s' free' live' T' U') ∨
     r = -1 ∧ unborn kend k s qs c free live T U k1 s' free').
Proof using Hkend Hlocks PrintOps0 FileOps0.
  intros Hdata Hfl [I1 I2 I3 I4 I5 I6] Hsz Hf Hcwd Hdir.
  apply (fork_ok flocks isfile isdir kend kdata fr Hkend Hdata me run D x I1 (proj1 Hlocks) (proj2 Hlocks) Hfl k k s t qs c cwd free live T U); try done. by apply only_hw_refl.
Qed.

(** [exit], once it is known what closing the files does.  The process that [c]
    has become is a zombie when it gives the CPU away for ever. *)
Lemma exit_ok ok (I : kproc * kmem * F → Prop) R (Q : proc → kproc * kmem * F → Prop) me run k s t qs c free live T U status :
  in_kernel me run k s qs c free live T U →
  if bool_decide (k_initproc k = Some x) then exit kend status (k, s, t) = Panic "init exiting" else
  (∀ k1, only_hw me run D (upd x (set_status status) k) [] k1 → orderly ok I R (λ _ s1, ∃ me run qs c free live T U,
     in_kernel me run s1.1.1 s1.1.2 qs c free live T U ∧ Q c s1) (exit_close x (k1, s, t))) →
  exits ok I R (λ s2, ∃ me run k1 s1 qs c free live T U, in_kernel me run k1 s1 qs c free live T U ∧ Q c (k1, s1, s2.2) ∧
    zombified kend D x me run k1 s1 c free live T U s2.1.1 s2.1.2) (λ s', ∃ me run, handoff me run D s'.1.1) (exit kend status (k, s, t)).
Proof using Hkend Hlocks PrintOps0 FileOps0.
  intros [I1 I2 I3 I4 I5 I6]. unfold exit. pose proof (only_hw_refl me run D k [] I2) as Hk.
  destruct (cur_ok me run D x [] I1 k k Hk) as (k1 & E1 & Hk1). rewrite (bind_Ret _ _ _ _ _ (kp_Ret _ _ s t _ _ E1)). cbv beta.
  erewrite (bind_Ret (deref (Some x))); [|reflexivity]. kupd Hk1 I4. destruct Hk1 as (h & -> & Hok). erewrite bind_Ret; [|by apply kp_Ret].
  change (k_initproc (with_hw h (upd x (set_status status) k))) with (k_initproc k). destruct (bool_decide (k_initproc k = Some x)); [done|].
  intros Hclose. eapply exits_bind; [apply Hclose; by exists h|].
  intros _ [[k2 s2] t2] (me2 & run2 & qs2 & c2 & free2 & live2 & T2 & U2 & [J1 J2 J3 J4 J5 J6] & HQ). cbn [fst snd] in *.
  destruct (exit_zombie_ok kend Hkend D x (proj1 Hlocks) (proj2 Hlocks) me2 run2 k2 k2 s2 t2 qs2 c2 free2 live2 T2 U2 J1 (only_hw_refl _ _ _ _ _ J2) J3 J4 J5 J6)
    as (ch & k3 & s3 & kont & E3 & Hz & Hkont). rewrite E3. left. split; [|intros [[k' s'] t'] (me' & run' & Hh); by eapply Hkont].
  exists me2, run2, k2, s2, qs2, c2, free2, live2, T2, U2. done.
Qed.

(** C8: [wait] hands a dead child to its parent.  If a child is a zombie, the
    first one in the table is taken: [wait] returns its pid, stores its exit
    status in the four bytes of the caller's memory at [status], frees its
    kernel stack and its page tables and nothing else, and leaves its slot
    unused and every other process alone.  If there is no child or the caller
    has been killed, it returns -1 and changes nothing.  Otherwise it sleeps on
    the caller's own channel, which [exit] of a child wakes, and looks again
    with the table locked when it is woken. *)
Theorem wait_correct fuel status me run k s t qs c free live T U :
  in_kernel me run k s qs c free live T U → wait_spec kend me run D x fuel status k s t qs c (wait kend (S fuel) status (k, s, t)).
Proof using Hkend Hlocks PrintOps0 FileOps0.
  intros [I1 I2 I3 I4 I5 I6]. unfold wait. pose proof (only_hw_refl me run D k [] I2) as Hk.
  destruct (cur_ok me run D x [] I1 k k Hk) as (k1 & E1 & Hk1). rewrite (bind_Ret _ _ _ _ _ (kp_Ret _ _ s t _ _ E1)). cbv beta.
  erewrite (bind_Ret (deref (Some x))); [|reflexivity].
  destruct (kp_acquire_ok me run D ptable_lock [] k k1 s t Hk1 (proj2 Hlocks)) as (k2 & E2 & Hk2); [apply not_elem_of_nil|]. rewrite (bind_Ret _ _ _ _ _ E2). cbv beta.
  by apply (wait_loop_ok kend Hkend me run D x I1 (proj1 Hlocks) (proj2 Hlocks)).
Qed.
End theorems.

(** ** Examples *)
(** Files that need no bookkeeping. *)
Definition ex_FileOps : FileOps (kproc * kmem * console) := {|
  f_filedup f := ret f; f_fileclose _ := ret (); f_idup i := ret i; f_iput _ := ret (); f_begin_op := ret (); f_end_op := ret ();
  f_namei _ := ret (Some 0%nat); f_iinit := ret (); f_initlog := ret () |}.
Lemma ex_DupLaws : @DupLaws console ex_FileOps [] (λ _ _, True) (λ _ _, True).
Proof. split; intros me run D k m t f Hok _ _; exists k, t; (split; [done|]); split; try done; by apply only_hw_refl. Qed.
Lemma ex_life_locks : kmem_lock ∈ ex_locks ∧ ptable_lock ∈ ex_locks.
Proof. split; apply (bool_decide_unpack _); by vm_compute. Qed.
Lemma ex_in_kernel k s free live T U : only_hw 0 [Some 3%nat; None] ex_locks ex_user [] k → aspace ex_end s free live (ex_page 0) T U →
  in_kernel ex_end ex_locks 3 0 [Some 3%nat; None] k s ex_qs ex_user_proc free live T U.
Proof. intros (h & -> & Hok) Has. split; try done. apply sched_wfb_sound. by vm_compute. Qed.

Lemma fork_correct_witness : ∃ k s k' s' t', @fork console ex_FileOps ex_end 2148536320 77 (k, s, ex_console) = Ret 4 (k', s', t').
Proof.
  destruct (ex_stocked_in (.∈ ex_locks) (only_hw 0 [Some 3%nat; None] ex_locks ex_user) ex_user 1100) as (k & s & Hk & Has);
    [apply ex_locks_in|apply only_hw_refl, ex_user_hw|lia|].
  destruct (@fork_correct console (console_PrintOps 2) ex_FileOps [] (λ _ _, True) (λ _ _, True) ex_end 2148536320 77 eq_refl ex_locks 3 ex_life_locks ex_DupLaws 0 [Some 3%nat; None] k s
    ex_console ex_qs ex_user_proc 0%nat _ _ _ _ ltac:(done) ltac:(intros l Hl; by apply not_elem_of_nil in Hl) (ex_in_kernel k s _ _ _ _ Hk Has) ltac:(done) ltac:(done) eq_refl I)
    as (r & k' & s' & t' & k1 & free' & E & _ & Hr). destruct Hk as (h & -> & Hok). destruct Hr as [(np & ks & d & live' & T' & U' & Hb)|(_ & Hu)].
  - exists (with_hw h ex_user), s, k', s', t'. destruct (bn_pid _ _ _ _ _ _ _ _ _ _ _ _ _ _ _ _ _ _ _ _ _ Hb) as [-> _]. exact E.
  - exfalso. destruct (ub_why _ _ _ _ _ _ _ _ _ _ _ _ Hu) as [Hn|Hn].
    + apply (Hn proc0); [|done]. apply (list_elem_of_lookup_2 _ 10). by vm_compute.
    + rewrite length_reverse in Hn. unfold pages in Hn. rewrite length_fmap, length_seq in Hn. unfold ex_U in Hn. rewrite map_size_singleton in Hn. lia.
Defined.

(** Process 4 is a dead child of process 3. *)
Definition ex_dead (p : proc) : proc :=
  set_status 5 (set_kstack (ex_page 4) (set_pgdir (ex_page 3) (set_parent (Some 3%nat) (set_state ZOMBIE (set_prio 5 (set_pid 9 p)))))).
Definition ex_family : kproc := upd 4 ex_dead ex_user.
Definition ex_live : list Z := [ex_page 3; ex_page 4; ex_page 0; ex_page 1; ex_page 2].
Lemma ex_family_space : aspace ex_end ex_space [] ex_live (ex_page 0) ex_T ex_U.
Proof.
  apply (ex_aspace [ex_page 3; ex_page 4]); [apply ex_pages; repeat constructor; unfold ex_page; done || lia|]. apply (bool_decide_unpack _). by vm_compute.
Qed.
Lemma ex_reapable : reapable ex_end ex_space [] ex_live (ex_page 0) ex_T ex_U (ex_dead proc0) ∅.
Proof.
  split; [exact ex_family_space| |right; left|].
  - apply (empty_dir ex_end ex_space [] ex_live (ex_page 3)); [apply ex_family_space|left|].
    intros i Hi. cbn [km_mem ex_space]. rewrite !rd32_wr32_ne by (unfold ex_page; lia). apply rd32_empty.
  - apply (bool_decide_unpack _). by vm_compute.
Qed.
Lemma wait_correct_witness : ∃ k' s', @wait console (console_PrintOps 2) ex_end 1 100 (ex_family, ex_space, ex_console) = Ret 9 (k', s', ex_console) ∧
  rd8 (km_mem s') (ex_page 2 + 100) = 5.
Proof.
  pose proof (@wait_correct console (console_PrintOps 2) ex_FileOps ex_end eq_refl ex_locks 3 ex_life_locks 0 100 0 [Some 3%nat; None] ex_family ex_space ex_console ex_qs ex_user_proc
    [] ex_live ex_T ex_U) as H. unfold wait_spec in H. change (first_idx (zombie_of 3) (k_procs ex_family)) with (Some 4%nat) in H. cbv iota in H.
  destruct H as (p & Hp & _ & _ & H).
  - split; [done|exact ex_user_hw|apply sched_wfb_sound; by vm_compute|by vm_compute|done|exact ex_family_space].
  - assert (p = ex_dead proc0) as -> by (vm_compute in Hp; by injection Hp as <-).
    destruct (H [] ex_live ex_T ex_U ∅ ex_reapable) as (k' & s' & free' & live' & E & _ & _ & W).
    { intros j Hj. exists (ex_page 2). split; [unfold KERNBASE; lia|]. exists 7. split; [|done]. replace ((100 + j) / 4096) with 0 by (Z.to_euclidean_division_equations; lia). done. }
    exists k', s'. split; [exact E|]. rewrite (wt_user _ _ _ _ _ _ _ _ _ _ _ _ _ W 0 (ex_page 2) 7 100); [by vm_compute|done|lia].
Defined.
