(* ===== verification/Args.v ===== *)
(** * Arguments of system calls (syscall.c)

    How the kernel fetches the words, the blocks and the strings that a process
    passes to a system call.  A process says where they are, so each is checked
    against its size; the file shows that the checks, which are done in 32-bit
    arithmetic, mean what they should as long as the process is smaller than the
    user half of the address space. *)
From stdpp Require Import base list gmap strings.
From Stdlib Require Import ZArith Lia.
From S2P Require Import Prelude User Mmu Spinlock CpuLocks CString Proc RunQueue Sched Machine Kernel Console Kalloc Vm Uvm CopyUvm Fault.
#[local] Open Scope Z_scope.

Section args.
Context {F : Type} `{!PrintOps (kproc * kmem * F)}.
Variable kend : Z.
Abbreviation K := (kproc * kmem * F)%type.

(** The functions return -1 or 0 and store what they fetch; [None] is the -1. *)
Definition fetchint (addr : Z) : M K (option Z) :=
  let! sz := my p_sz in
  if (sz <=? addr) || (sz <? uint (addr + 4)) then ret None else
  let! v := load32 kend addr in
  ret (Some (sint v)).

(** The length of the string; its address is [addr]. *)
Fixpoint fetchstr_loop (n : nat) (addr s ep : Z) : M K (option Z) :=
  match n with
  | O => ret None
  | S n' =>
      if s <? ep then
        let! c := load8 kend s in
        if c =? 0 then ret (Some (s - addr)) else fetchstr_loop n' addr (s + 1) ep
      else ret None
  end.
Definition fetchstr (addr : Z) : M K (option Z) :=
  let! sz := my p_sz in
  if sz <=? addr then ret None else
  fetchstr_loop (Z.to_nat (sz - addr)) addr addr sz.

Definition argint (n : Z) : M K (option Z) :=
  let! tf := my p_tf in
  fetchint (uint (tf_esp tf + 4 + 4 * n)).

Definition argptr (n size : Z) : M K (option Z) :=
  let! i := argint n in
  match i with
  | None => ret None
  | Some i =>
      let! sz := my p_sz in
      if (size <? 0) || (sz <=? uint i) || (sz <? uint (uint i + size)) then ret None else ret (Some (uint i))
  end.

(** The address and the length of a string. *)
Definition argstr (n : Z) : M K (option (Z * Z)) :=
  let! addr := argint n in
  match addr with
  | None => ret None
  | Some addr => let! r := fetchstr (uint addr) in ret ((λ len, (uint addr, len)) <$> r)
  end.
End args.

(** ** The memory of a process, as its program sees it *)
Definition ubyte (U : gmap Z (Z * Z)) (m : mem) (va : Z) : Z :=
  match U !! (va / 4096) with Some (p, _) => rd8 m (p + va mod 4096) | None => 0 end.
Definition uword (U : gmap Z (Z * Z)) (m : mem) (va : Z) : Z :=
  ubyte U m va + 256 * ubyte U m (va + 1) + 65536 * ubyte U m (va + 2) + 16777216 * ubyte U m (va + 3).
(** The pages of [a] to [b] are there. *)
Definition present (U : gmap Z (Z * Z)) (a b : Z) : Prop := ∀ va, a ≤ va < b → is_Some (U !! (va / 4096)).
(** [size] bytes at [p] lie in a process of size [sz]. *)
Definition within (sz p size : Z) : bool := (0 <=? p) && (p <? sz) && (0 <=? size) && (p + size <=? sz).
(** The place of the first zero from [va] on, below [va + n]. *)
Definition zero_from (U : gmap Z (Z * Z)) (m : mem) (va : Z) (n : nat) : option nat :=
  first_idx (λ i, ubyte U m (va + Z.of_nat i) =? 0) (seq 0 n).
Lemma zero_from_S U m va n : zero_from U m va (S n) = if ubyte U m va =? 0 then Some 0%nat else S <$> zero_from U m (va + 1) n.
Proof.
  unfold zero_from. rewrite <- cons_seq, <- fmap_S_seq. cbn [first_idx]. rewrite Z.add_0_r. destruct (ubyte U m va =? 0); [done|]. f_equal.
  rewrite first_idx_fmap. apply first_idx_ext. intros i. by replace (va + 1 + Z.of_nat i) with (va + Z.of_nat (S i)) by lia.
Qed.
Lemma ubyte_range U m va : is_uchar (ubyte U m va).
Proof. unfold ubyte. destruct (U !! _) as [[p f]|]; [apply rd8_range|done]. Qed.
Lemma uword_range U m va : is_uint (uword U m va).
Proof.
  unfold uword, is_uint. pose proof (ubyte_range U m va). pose proof (ubyte_range U m (va + 1)). pose proof (ubyte_range U m (va + 2)).
  pose proof (ubyte_range U m (va + 3)). unfold is_uchar in *. lia.
Qed.
Lemma uword_ext U m m' va : (∀ i, 0 ≤ i < 4 → ubyte U m' (va + i) = ubyte U m (va + i)) → uword U m' va = uword U m va.
Proof. intros H. unfold uword. rewrite <- !(H 1), <- !(H 2), <- !(H 3) by lia. pose proof (H 0 ltac:(lia)) as H0. rewrite Z.add_0_r in H0. by rewrite H0. Qed.

Section args_ok.
Context {F : Type} `{!PrintOps (kproc * kmem * F)}.
Variable kend : Z.
Variables (me : nat) (run : list (option nat)) (D : gset Z) (x : nat) (L : list Z).
Hypothesis Hx : run !! me = Some (Some x).
Abbreviation onl := (only_hw me run D).

(** A process and its memory. *)
Record at_user (k0 : kproc) (s : kmem) (pr : proc) (U : gmap Z (Z * Z)) : Prop := {
  au_proc : k_procs k0 !! x = Some pr;
  au_as : ∃ free live T, aspace kend s free live (p_pgdir pr) T U;
  au_sz : is_uint (p_sz pr) }.

Lemma load8_user va k0 k s (t : F) pr U : onl k0 L k → at_user k0 s pr U → 0 ≤ va < KERNBASE → is_Some (U !! (va / 4096)) →
  load8 kend va (k, s, t) = Ret (ubyte U (km_mem s) va) (k, s, t).
Proof using Hx.
  intros Hk [Hp (free & live & T & Has) Hsz] Hva [[p f] HU]. unfold ubyte. rewrite HU.
  apply (load8_ok kend me run D x L Hx va k0 k s t pr free live T U p Hk Hp Has). split; [lia|]. exists f. done.
Qed.
Lemma load32_user va k0 k s (t : F) pr U : onl k0 L k → at_user k0 s pr U → 0 ≤ va → va + 4 ≤ KERNBASE → present U va (va + 4) →
  load32 kend va (k, s, t) = Ret (uword U (km_mem s) va) (k, s, t).
Proof using Hx.
  intros Hk Hu Hva Hsz HU. unfold load32.
  run (load8_user va k0 k s t pr U Hk Hu ltac:(lia) (HU va ltac:(lia))).
  run (load8_user (va + 1) k0 k s t pr U Hk Hu ltac:(lia) (HU (va + 1) ltac:(lia))).
  run (load8_user (va + 2) k0 k s t pr U Hk Hu ltac:(lia) (HU (va + 2) ltac:(lia))).
  by run (load8_user (va + 3) k0 k s t pr U Hk Hu ltac:(lia) (HU (va + 3) ltac:(lia))).
Qed.

(** What [fetchint] does with an address that is an [unsigned int]. *)
Lemma fetchint_ok addr k0 k s (t : F) pr U : onl k0 L k → at_user k0 s pr U → is_uint addr → p_sz pr ≤ KERNBASE ∨ addr + 4 ≤ KERNBASE →
  (within (p_sz pr) addr 4 = true → present U addr (addr + 4)) →
  ∃ k', fetchint kend addr (k, s, t) = Ret (if within (p_sz pr) addr 4 then Some (sint (uword U (km_mem s) addr)) else None) (k', s, t) ∧ onl k0 L k'.
Proof using Hx.
  intros Hk Hu Ha Hor HU. pose proof Hu as [Hp _ Hsz]. unfold is_uint in *. unfold fetchint.
  destruct (my_ok me run D x L Hx p_sz k0 k s t pr Hk Hp) as (k1 & E1 & Hk1). run E1. exists k1. split; [|done].
  unfold within in *. destruct (Z.leb_spec (p_sz pr) addr) as [H1|H1]; cbn [orb].
  { rewrite (proj2 (Z.ltb_ge addr _)) by lia. by rewrite !andb_false_r. }
  unfold uint. rewrite Z.mod_small by (unfold KERNBASE in Hor; lia). rewrite (proj2 (Z.leb_le 0 addr)), (proj2 (Z.ltb_lt addr _)) in * by lia. cbn [andb Z.leb] in *.
  destruct (Z.ltb_spec (p_sz pr) (addr + 4)) as [H2|H2]; [by rewrite (proj2 (Z.leb_gt (addr + 4) _)) by lia|].
  rewrite (proj2 (Z.leb_le (addr + 4) _)) in * by lia.
  by run (load32_user addr k0 k1 s t pr U Hk1 Hu ltac:(lia) ltac:(lia) (HU eq_refl)).
Qed.
Lemma argint_ok n k0 k s (t : F) pr U : let a := uint (tf_esp (p_tf pr) + 4 + 4 * n) in onl k0 L k → at_user k0 s pr U →
  p_sz pr ≤ KERNBASE ∨ a + 4 ≤ KERNBASE → (within (p_sz pr) a 4 = true → present U a (a + 4)) →
  ∃ k', argint kend n (k, s, t) = Ret (if within (p_sz pr) a 4 then Some (sint (uword U (km_mem s) a)) else None) (k', s, t) ∧ onl k0 L k'.
Proof using Hx.
  intros a Hk Hu Hor HU. unfold argint. destruct (my_ok me run D x L Hx p_tf k0 k s t pr Hk (au_proc _ _ _ _ Hu)) as (k1 & E1 & Hk1). run E1.
  apply (fetchint_ok a k0 k1 s t pr U Hk1 Hu); [apply uint_range|done|done].
Qed.
Lemma fetchstr_loop_ok n : ∀ addr a k0 k s (t : F) pr U, onl k0 L k → at_user k0 s pr U → p_sz pr ≤ KERNBASE → 0 ≤ a → a + Z.of_nat n = p_sz pr → present U a (p_sz pr) →
  fetchstr_loop kend n addr a (p_sz pr) (k, s, t) = Ret ((λ i, a - addr + Z.of_nat i) <$> zero_from U (km_mem s) a n) (k, s, t).
Proof using Hx.
  induction n as [|n IH]; intros addr a k0 k s t pr U Hk Hu Hs Ha Hn HU; cbn [fetchstr_loop]; [done|].
  rewrite (proj2 (Z.ltb_lt a _)) by lia. run (load8_user a k0 k s t pr U Hk Hu ltac:(lia) (HU a ltac:(lia))). rewrite zero_from_S.
  destruct (ubyte U (km_mem s) a =? 0); [unfold ret; simpl; f_equal; f_equal; lia|].
  rewrite (IH addr (a + 1) k0 k s t pr U Hk Hu) by first [done | lia | intros va Hva; apply HU; lia].
  destruct (zero_from U (km_mem s) (a + 1) n); simpl; [|done]. do 2 f_equal. lia.
Qed.
End args_ok.

Section theorems.
Context {F : Type} `{!PrintOps (kproc * kmem * F)}.
Variable kend : Z.
Variables (me : nat) (run : list (option nat)) (D : gset Z) (x : nat) (L : list Z).
Hypothesis Hx : run !! me = Some (Some x).

(** C21: What a system call gets from its process.  Let argument [n] be the word at
    [esp + 4 + 4 n] and let the pages that are looked at be there.  If the word is
    not in the memory of the process, all of [argint], [argptr] and [argstr] fail;
    otherwise [argint] returns it as an [int], [argptr] returns it as a pointer
    exactly when the whole block that starts there lies in the process, without a
    wrap-around however large the pointer and the size are, and [argstr] returns
    it with the length of the string there exactly when the string ends inside
    the process.  Memory and process table are not changed. *)
Theorem args_checked k s (t : F) pr U n size : hw_ok me run D L (k_hw k) → at_user kend x k s pr U → p_sz pr ≤ KERNBASE → -2147483648 ≤ size < 2147483648 →
  let a := uint (tf_esp (p_tf pr) + 4 + 4 * n) in let v := uword U (km_mem s) a in
  (within (p_sz pr) a 4 = true → present U a (a + 4) ∧ present U v (p_sz pr)) →
  ∃ k1 k2 k3, only_hw me run D k L k1 ∧ only_hw me run D k L k2 ∧ only_hw me run D k L k3 ∧
    argint kend n (k, s, t) = Ret (if within (p_sz pr) a 4 then Some (sint v) else None) (k1, s, t) ∧
    argptr kend n size (k, s, t) = Ret (if within (p_sz pr) a 4 && within (p_sz pr) v size then Some v else None) (k2, s, t) ∧
    argstr kend n (k, s, t) = Ret (if within (p_sz pr) a 4 && within (p_sz pr) v 0 then
      (λ len, (v, Z.of_nat len)) <$> zero_from U (km_mem s) v (Z.to_nat (p_sz pr - v)) else None) (k3, s, t).
Proof using Hx.
  intros Hok Hu Hle Hsize a v HU. pose proof Hu as [Hp _ Hsz]. pose proof (only_hw_refl me run D k L Hok) as Hk.
  destruct (argint_ok kend me run D x L Hx n k k s t pr U Hk Hu) as (k1 & E1 & Hk1); [by left|intros H; by apply HU|]. fold a v in E1.
  pose proof (uword_range U (km_mem s) a) as Hv. fold v in Hv. assert (uint (sint v) = v) as Ev by (rewrite uint_sint; by apply uint_small).
  destruct (within (p_sz pr) a 4); cbn [andb].
  2:{ exists k1, k1, k1. split_and!; [done..| |]; [unfold argptr|unfold argstr]; by run E1. }
  destruct (HU eq_refl) as [_ HU2]. destruct (my_ok me run D x L Hx p_sz k k1 s t pr Hk1 Hp) as (k2 & E2 & Hk2).
  exists k1, k2, k2. split_and!; [done..| |].
  - unfold argptr. run E1. run E2. rewrite Ev. unfold within. unfold is_uint in Hv. unfold KERNBASE in Hle. rewrite (proj2 (Z.leb_le 0 v)) by lia. cbn [andb].
    destruct (Z.ltb_spec size 0); cbn [orb]; [rewrite (proj2 (Z.leb_gt 0 size)) by lia; by rewrite andb_false_r|]. rewrite (proj2 (Z.leb_le 0 size)) by lia.
    destruct (Z.leb_spec (p_sz pr) v); cbn [orb]; [by rewrite (proj2 (Z.ltb_ge v _)) by lia|]. rewrite (proj2 (Z.ltb_lt v _)) by lia. cbn [andb].
    unfold uint. rewrite Z.mod_small by lia. destruct (Z.ltb_spec (p_sz pr) (v + size)); [by rewrite (proj2 (Z.leb_gt _ _)) by lia|by rewrite (proj2 (Z.leb_le _ _)) by lia].
  - unfold argstr. run E1. unfold fetchstr. run2 E2. rewrite Ev. unfold within. unfold is_uint in Hv. rewrite (proj2 (Z.leb_le 0 v)) by lia. cbn [andb Z.leb].
    rewrite Z.add_0_r. destruct (Z.leb_spec (p_sz pr) v); [by rewrite (proj2 (Z.ltb_ge v _)) by lia|]. rewrite (proj2 (Z.ltb_lt v _)), (proj2 (Z.leb_le v _)) by lia. cbn [andb].
    run (fetchstr_loop_ok kend me run D x L Hx (Z.to_nat (p_sz pr - v)) v v k k2 s t pr U Hk2 Hu Hle ltac:(lia) ltac:(lia) HU2).
    destruct (zero_from _ _ _ _); unfold ret; simpl; [|done]. do 3 f_equal. lia.
Qed.
End theorems.

(** Process 3 of the example machine with one page. *)
Definition ex_one : kproc := with_procs (alter (set_sz 4096) 3%nat (k_procs ex_user)) ex_user.
Lemma ex_one_user : at_user ex_end 3 ex_one ex_space (set_sz 4096 ex_user_proc) ex_U.
Proof.
  split; [by vm_compute| |done]. exists [], [ex_page 0; ex_page 1; ex_page 2], ex_T.
  apply (ex_aspace []); [intros p Hp; by apply not_elem_of_nil in Hp|]. apply (bool_decide_unpack _). by vm_compute.
Qed.
Lemma ex_one_present a b : 0 ≤ a → b ≤ 4096 → present ex_U a b.
Proof. intros Ha Hb va Hva. rewrite Z.div_small by lia. by eexists. Qed.

Lemma args_checked_witness : ∃ k2 k3, @argptr console (console_PrintOps 2) ex_end 1 100 (ex_one, ex_space, ex_console) = Ret (Some 0) (k2, ex_space, ex_console) ∧
  @argstr console (console_PrintOps 2) ex_end 1 (ex_one, ex_space, ex_console) = Ret (Some (0, 0)) (k3, ex_space, ex_console).
Proof.
  destruct (@args_checked console (console_PrintOps 2) ex_end 0 [Some 3%nat; None] ex_locks 3 [] eq_refl ex_one ex_space ex_console _ ex_U 1 100 ex_user_hw ex_one_user)
    as (k1 & k2 & k3 & _ & _ & _ & _ & E2 & E3); [done|lia| |].
  - intros _. split; apply ex_one_present; vm_compute; congruence.
  - exists k2, k3. rewrite E2, E3. split; vm_compute; reflexivity.
Defined.
