(* ===== verification/Cmos.v ===== *)
(** * The date (lapic.c: cmos_read, fill_rtcdate, cmostime)

    The clock of the machine is read one register at a time while it goes on
    running.  [cmostime] reads it twice and tries again until the two readings
    agree; the file shows that the date it returns is one that the clock showed,
    never one torn between two instants. *)
From stdpp Require Import base list gmap strings.
From Stdlib Require Import ZArith Lia.
From S2P Require Import Prelude.
#[local] Open Scope Z_scope.

(** date.h *)
Record rtcdate := Rtcdate { r_second : Z; r_minute : Z; r_hour : Z; r_day : Z; r_month : Z; r_year : Z }.
#[export] Instance rtcdate_eq_dec : EqDecision rtcdate.
Proof. solve_decision. Defined.

Definition CMOS_STATA : Z := 10.
Definition CMOS_STATB : Z := 11.
Definition CMOS_UIP : Z := 128.
Definition SECS : Z := 0.
Definition MINS : Z := 2.
Definition HOURS : Z := 4.
Definition DAY : Z := 7.
Definition MONTH : Z := 8.
Definition YEAR : Z := 9.

(** The ports of the clock: what a read of a register gives. *)
Class RtcOps (K : Type) := cmos_read : Z → M K Z.

Section cmostime.
Context {K : Type} `{!RtcOps K}.

Definition fill_rtcdate : M K rtcdate :=
  let! second := cmos_read SECS in
  let! minute := cmos_read MINS in
  let! hour := cmos_read HOURS in
  let! day := cmos_read DAY in
  let! month := cmos_read MONTH in
  let! year := cmos_read YEAR in
  ret (Rtcdate second minute hour day month year).

(** [fuel] rounds of the loop. *)
Fixpoint cmostime_loop (fuel : nat) : M K rtcdate :=
  match fuel with
  | O => λ _, Spin
  | S f =>
      let! t1 := fill_rtcdate in
      let! a := cmos_read CMOS_STATA in
      if negb (Z.land a CMOS_UIP =? 0) then cmostime_loop f else
      let! t2 := fill_rtcdate in
      if decide (t1 = t2) then ret t1 else cmostime_loop f
  end.

Definition CONV (x : Z) : Z := uint (Z.shiftr x 4 * 10 + Z.land x 15).
Definition rtc_conv (t : rtcdate) : rtcdate :=
  Rtcdate (CONV (r_second t)) (CONV (r_minute t)) (CONV (r_hour t)) (CONV (r_day t)) (CONV (r_month t)) (CONV (r_year t)).

(** The date that [cmostime] stores. *)
Definition cmostime_date (fuel : nat) : M K rtcdate :=
  let! sb := cmos_read CMOS_STATB in
  let bcd := Z.land sb (Z.shiftl 1 2) =? 0 in
  let! t1 := cmostime_loop fuel in
  let t1 := if bcd then rtc_conv t1 else t1 in
  ret (Rtcdate (r_second t1) (r_minute t1) (r_hour t1) (r_day t1) (r_month t1) (uint (r_year t1 + 2000))).
End cmostime.

(** ** A clock that runs while it is read *)
(** [rtc i reg] is register [reg] at the instant of the [i]th read; the state is
    the number of reads so far. *)
Definition clock_ops (rtc : nat → Z → Z) : RtcOps nat := λ reg i, Ret (rtc i reg) (S i).
Definition shown (rtc : nat → Z → Z) (i : nat) : rtcdate :=
  Rtcdate (rtc i SECS) (rtc i MINS) (rtc i HOURS) (rtc i DAY) (rtc i MONTH) (rtc i YEAR).
Definition busy (rtc : nat → Z → Z) (i : nat) : bool := negb (Z.land (rtc i CMOS_STATA) CMOS_UIP =? 0).

(** Thirteen reads are short against the second between two changes. *)
Definition slow (rtc : nat → Z → Z) : Prop := ∀ i, ∃ c,
  (∀ j, (i ≤ j < c)%nat → shown rtc j = shown rtc i) ∧ (∀ j, (c ≤ j ≤ i + 12)%nat → shown rtc j = shown rtc (i + 12)).
(** For two rounds from read [m] on the clock does not change. *)
Definition calm (rtc : nat → Z → Z) (m : nat) : Prop := ∀ j, (m ≤ j < m + 26)%nat → shown rtc j = shown rtc m ∧ busy rtc j = false.

Section clock.
Variable rtc : nat → Z → Z.

Abbreviation reads := (@fill_rtcdate nat (clock_ops rtc)).
Abbreviation loop := (@cmostime_loop nat (clock_ops rtc)).

(** A reading that starts with read [i]. *)
Definition reading (i : nat) : rtcdate :=
  Rtcdate (r_second (shown rtc i)) (r_minute (shown rtc (i + 1))) (r_hour (shown rtc (i + 2)))
    (r_day (shown rtc (i + 3))) (r_month (shown rtc (i + 4))) (r_year (shown rtc (i + 5))).
Lemma fill_reading i : reads i = Ret (reading i) (i + 6)%nat.
Proof.
  unfold fill_rtcdate, bind, cmos_read, clock_ops, ret, reading, shown. simpl.
  by replace (S i) with (i + 1)%nat by lia; replace (S (i + 1)) with (i + 2)%nat by lia; replace (S (i + 2)) with (i + 3)%nat by lia;
    replace (S (i + 3)) with (i + 4)%nat by lia; replace (S (i + 4)) with (i + 5)%nat by lia; replace (S (i + 5)) with (i + 6)%nat by lia.
Qed.
Lemma round_eq f i : loop (S f) i =
  if busy rtc (i + 6) then loop f (i + 7)%nat
  else if decide (reading i = reading (i + 7)) then Ret (reading i) (i + 13)%nat else loop f (i + 13)%nat.
Proof.
  cbn [cmostime_loop]. run (fill_reading i). erewrite bind_Ret; [|reflexivity]. replace (S (i + 6)) with (i + 7)%nat by lia.
  unfold busy. destruct (negb _); [done|]. run (fill_reading (i + 7)). replace (i + 7 + 6)%nat with (i + 13)%nat by lia. by case_decide.
Qed.

(** Two readings that agree are what the clock showed. *)
Lemma agree_shown i : slow rtc → reading i = reading (i + 7) → ∃ j, (i ≤ j ≤ i + 12)%nat ∧ reading i = shown rtc j.
Proof.
  intros Hs E. destruct (Hs i) as (c & H1 & H2). unfold reading in E. injection E as E0 E1 E2 E3 E4 E5.
  assert (∀ j, (j ≤ 12)%nat → (i + j < c)%nat → shown rtc (i + j) = shown rtc i) as Hb by (intros j Hj Hc; apply H1; lia).
  assert (∀ j, (j ≤ 12)%nat → ¬ (i + j < c)%nat → shown rtc (i + j) = shown rtc (i + 12)) as Ha by (intros j Hj Hc; apply H2; lia).
  replace (i + 7)%nat with (i + 7 + 0)%nat in E0 by lia. rewrite <- (Nat.add_0_r i) in E0 at 1.
  rewrite <- !Nat.add_assoc in E0, E1, E2, E3, E4, E5. cbn [Nat.add] in *.
  assert (∀ A (g : rtcdate → A) j, (j ≤ 5)%nat → g (shown rtc (i + j)) = g (shown rtc (i + (7 + j))) →
    g (shown rtc (i + j)) = g (shown rtc (if decide (i + 7 < c)%nat then i else (i + 12)%nat))) as Hg.
  { intros A g j Hj Eg. destruct (decide (i + 7 < c)%nat) as [Hc|Hc].
    - by rewrite (Hb j) by lia.
    - destruct (decide (i + j < c)%nat) as [Hj1|Hj1].
      + rewrite Eg. by rewrite (Ha (7 + j)%nat) by lia.
      + by rewrite (Ha j) by lia. }
  exists (if decide (i + 7 < c)%nat then i else (i + 12)%nat). split; [case_decide; lia|]. unfold reading.
  apply (Hg _ r_second 0%nat ltac:(lia)) in E0. rewrite Nat.add_0_r in E0. apply (Hg _ r_minute 1%nat ltac:(lia)) in E1. apply (Hg _ r_hour 2%nat ltac:(lia)) in E2.
  apply (Hg _ r_day 3%nat ltac:(lia)) in E3. apply (Hg _ r_month 4%nat ltac:(lia)) in E4. apply (Hg _ r_year 5%nat ltac:(lia)) in E5.
  rewrite E0, E1, E2, E3, E4, E5. by destruct (shown rtc _).
Qed.
Lemma calm_round m i : calm rtc m → (m ≤ i < m + 13)%nat → busy rtc (i + 6) = false ∧ reading i = reading (i + 7).
Proof.
  intros Hc Hi. split; [apply (Hc (i + 6)%nat); lia|]. unfold reading. assert (∀ j, (j < 13)%nat → shown rtc (i + j) = shown rtc m) as Hj by (intros j Hj; apply Hc; lia).
  pose proof (Hj 0%nat ltac:(lia)) as H0. rewrite Nat.add_0_r in H0. rewrite <- !Nat.add_assoc. cbn [Nat.add]. by rewrite H0, !Hj by lia.
Qed.
Lemma loop_ok m fuel : slow rtc → calm rtc m → ∀ i, (i < m + 13)%nat → (m - i + 7 ≤ 7 * fuel)%nat →
  ∃ j n', loop fuel i = Ret (shown rtc j) n' ∧ (i ≤ j < m + 26)%nat.
Proof.
  intros Hs Hc. induction fuel as [|f IH]; intros i Hi Hf; [lia|]. rewrite round_eq. destruct (decide (m ≤ i)%nat) as [Hm|Hm].
  - destruct (calm_round m i Hc ltac:(lia)) as [-> E]. rewrite decide_True by done. destruct (agree_shown i Hs E) as (j & Hj & ->).
    exists j, (i + 13)%nat. split; [done|lia].
  - destruct (busy rtc (i + 6)).
    + destruct (IH (i + 7)%nat ltac:(lia) ltac:(lia)) as (j & n' & E & Hj). exists j, n'. split; [done|lia].
    + case_decide as E.
      * destruct (agree_shown i Hs E) as (j & Hj & ->). exists j, (i + 13)%nat. split; [done|lia].
      * destruct (IH (i + 13)%nat ltac:(lia) ltac:(lia)) as (j & n' & E' & Hj). exists j, n'. split; [done|lia].
Qed.
End clock.

(** How the clock shows a number below 100: in binary, or a digit per half byte. *)
Definition rtc_field (bcd : bool) (v : Z) : Z := if bcd then 16 * (v / 10) + v mod 10 else v.
Definition rtc_shows (bcd : bool) (d : rtcdate) : rtcdate :=
  Rtcdate (rtc_field bcd (r_second d)) (rtc_field bcd (r_minute d)) (rtc_field bcd (r_hour d)) (rtc_field bcd (r_day d)) (rtc_field bcd (r_month d)) (rtc_field bcd (r_year d)).
Definition rtc_range (d : rtcdate) : Prop := Forall (λ v, 0 ≤ v < 100) [r_second d; r_minute d; r_hour d; r_day d; r_month d; r_year d].
Lemma CONV_field v : 0 ≤ v < 100 → CONV (rtc_field true v) = v.
Proof.
  intros Hv. unfold CONV, rtc_field. rewrite Z.shiftr_div_pow2 by lia. change 15 with (Z.ones 4). rewrite Z.land_ones by lia.
  change (2 ^ 4) with 16. rewrite uint_small; [|unfold is_uint]; Z.to_euclidean_division_equations; lia.
Qed.


(** A clock that goes from 9:59:59 to 10:00:00 during the first reading. *)
Definition ex_date (i : nat) : rtcdate := if decide (i < 4)%nat then Rtcdate 59 59 9 15 11 26 else Rtcdate 0 0 10 15 11 26.
Definition ex_rtc (i : nat) (reg : Z) : Z :=
  let d := rtc_shows true (ex_date i) in
  if reg =? SECS then r_second d else if reg =? MINS then r_minute d else if reg =? HOURS then r_hour d
  else if reg =? DAY then r_day d else if reg =? MONTH then r_month d else if reg =? YEAR then r_year d else 0.
Lemma ex_rtc_shown i : shown ex_rtc i = rtc_shows true (ex_date i).
Proof. unfold shown, ex_rtc. cbn [Z.eqb SECS MINS HOURS DAY MONTH YEAR Pos.eqb]. by destruct (ex_date i). Qed.
