(* ===== verification/Sysproc.v ===== *)
(** * System calls on processes (sysproc.c, lapic.c: cmostime)

    The system calls that are not about files, with the arguments of Args.v over
    the processes of Proc.v, Reprio.v and Life.v.  The file shows what [sys_sbrk]
    does to the size and the memory of a process, and what its missing check
    lets a process do to the kernel; and how long [sys_sleep] sleeps. *)
From stdpp Require Import base list gmap strings.
From Stdlib Require Import ZArith Lia.
From S2P Require Import Prelude User Mmu Spinlock CpuLocks CString Proc RunQueue Sched Reprio Machine Kernel Console Kalloc Vm Uvm CopyUvm Fault Life Args Cmos.
#[local] Open Scope Z_scope.

Section sysproc.
Context {F : Type} `{!PrintOps (kproc * kmem * F), !FileOps (kproc * kmem * F), !RtcOps (kproc * kmem * F)}.
Variables kend kdata forkret_addr : Z.
(** [&tickslock], [&ticks] and where [ticks] is; how many wakeups and how many
    rounds of [cmostime] are followed. *)
Variables (tickslock ticks_chan : Z) (ticks : lens F Z) (fuel : nat).
Abbreviation K := (kproc * kmem * F)%type.

(** [myproc()->field = v] *)
Definition upd_my (f : proc → proc) : M K () :=
  kp (let! p := myproc in let! p := deref p in upd_proc p f).
Definition get_ticks : M K Z := λ s, Ret (lget ticks s.2) s.

Definition sys_fork : M K Z := fork kend kdata forkret_addr.

Definition sys_exit : M K Z :=
  let! i := argint kend 0 in
  match i with
  | None => ret (-1)
  | Some i => exit kend (sint (Z.shiftl i 8)) ;;; ret 0
  end.

Definition sys_wait : M K Z :=
  let! i := argptr kend 0 4 in
  match i with
  | None => ret (-1)
  | Some i => wait kend fuel i
  end.

Definition sys_kill : M K Z :=
  let! pid := argint kend 0 in
  match pid with
  | None => ret (-1)
  | Some pid => kp (kill pid)
  end.

Definition sys_getpid : M K Z := my p_pid.

Definition sys_sbrk : M K Z :=
  let! n := argint kend 0 in
  match n with
  | None => ret (-1)
  | Some n =>
      let! addr := my p_sz in
      upd_my (set_sz (uint (addr + n))) ;;;
      (if n <? 0 then
         let! pgdir := my p_pgdir in
         let! sz := my p_sz in
         km (deallocuvm kend pgdir addr sz) ;;;
         let! pgdir := my p_pgdir in
         lcr3 (V2P pgdir)
       else ret ()) ;;;
      ret (sint addr)
  end.

(** [ticks - ticks0 < n] compares unsigned numbers. *)
Fixpoint sleep_loop (fuel : nat) (n ticks0 : Z) : M K Z :=
  let! t := get_ticks in
  if uint (t - ticks0) <? uint n then
    let! killed := my p_killed in
    if killed then kp (release_k tickslock) ;;; ret (-1) else
    match fuel with
    | O => park (kp (sleep ticks_chan tickslock))
    | S f => kp (sleep ticks_chan tickslock) ;;; sleep_loop f n ticks0
    end
  else kp (release_k tickslock) ;;; ret 0.
Definition sleep_ticks (n : Z) : M K Z :=
  kp (acquire_k tickslock) ;;;
  let! ticks0 := get_ticks in
  sleep_loop fuel n ticks0.
Definition sys_sleep : M K Z :=
  let! n := argint kend 0 in
  match n with
  | None => ret (-1)
  | Some n => sleep_ticks n
  end.

Definition sys_uptime : M K Z :=
  kp (acquire_k tickslock) ;;;
  let! xticks := get_ticks in
  kp (release_k tickslock) ;;;
  ret (sint xticks).

(** Where [cmostime] stores the date; the year is stored once. *)
Definition cmostime (r : Z) : M K () :=
  let! t := cmostime_date fuel in
  store32 kend r (r_second t) ;;;
  store32 kend (r + 4) (r_minute t) ;;;
  store32 kend (r + 8) (r_hour t) ;;;
  store32 kend (r + 12) (r_day t) ;;;
  store32 kend (r + 16) (r_month t) ;;;
  store32 kend (r + 20) (r_year t).
Definition sys_date : M K Z :=
  let! ptr := argptr kend 0 24 in
  match ptr with
  | None => ret (-1)
  | Some ptr => cmostime ptr ;;; ret 0
  end.

Definition no_process : list Z := str "No existe un proceso con esa PID" ++ [10].

(** [*pte] at the null pointer is the first word of the program that calls. *)
Definition read_pte (pte : Z) : M K Z := if pte =? 0 then load32 kend 0 else km (load pte).
Fixpoint phmem_loop (n : nat) (p : nat) (a count : Z) : M K Z :=
  let! pr := kp (get_proc p) in
  if a <=? p_sz pr then
    match n with
    | O => λ _, Spin
    | S n' =>
        let! pte := km (walkpgdir (p_pgdir pr) a false) in
        let! e := read_pte pte in
        phmem_loop n' p (uint (a + PGSIZE)) (if negb (Z.land e PTE_P =? 0) then count + 1 else count)
    end
  else ret count.
Definition sys_phmem : M K Z :=
  let! pid := argint kend 0 in
  match pid with
  | None => ret (-1)
  | Some pid =>
      let! p := kp (getProcbyPID pid) in
      match p with
      | None => k_cprintf no_process [] ;;; ret (-1)
      | Some p =>
          let! count := phmem_loop (Z.to_nat 1048576) p 0 0 in
          let en := uint (count * PGSIZE / 1024) in
          k_cprintf (str "%d") [AInt en] ;;;
          ret (sint en)
      end
  end.

Definition sys_getprio : M K Z :=
  let! pid := argint kend 0 in
  match pid with
  | None => ret (-1)
  | Some pid =>
      let! p := kp (getProcbyPID pid) in
      match p with
      | None => k_cprintf no_process [] ;;; ret (-1)
      | Some p => let! pr := kp (get_proc p) in ret (sint (p_prio pr))
      end
  end.

Definition sys_setprio : M K Z :=
  let! pid := argint kend 0 in
  match pid with
  | None => ret (-1)
  | Some pid =>
      let! trampas := argint kend 1 in
      match trampas with
      | None => ret (-1)
      | Some trampas =>
          let a := uint trampas in
          let! p := kp (getProcbyPID pid) in
          match p with
          | None => k_cprintf no_process [] ;;; ret (-1)
          | Some p =>
              let! pr := kp (get_proc p) in
              (if bool_decide (p_state pr = RUNNABLE) then kp (setNewPrio p a) ;;; ret () else kp (upd_proc p (set_prio a))) ;;;
              let! pr := kp (get_proc p) in
              ret (sint (p_prio pr))
          end
      end
  end.
End sysproc.

Section sbrk.
Context {F : Type} `{!PrintOps (kproc * kmem * F)}.
Variable kend : Z.
Variables (me : nat) (run : list (option nat)) (D : gset Z) (x : nat) (L : list Z).
Hypothesis Hx : run !! me = Some (Some x).
Abbreviation onl := (only_hw me run D).
#[local] Opaque deallocuvm.

Lemma upd_my_ok f k0 k (s : kmem) (t : F) p : onl k0 L k → k_procs k0 !! x = Some p →
  ∃ k', upd_my f (k, s, t) = Ret () (k', s, t) ∧ onl (upd x f k0) L k'.
Proof using Hx.
  intros Hk Hp. destruct (cur_ok me run D x L Hx k0 k Hk) as (k1 & E1 & h1 & -> & Hok1). exists (with_hw h1 (upd x f k0)). split; [|by exists h1].
  apply kp_Ret. run E1. next. by erewrite upd_proc_ok.
Qed.

(** Argument 0 of a call whose stack is there. *)
Definition arg_at (pr : proc) (U : gmap Z (Z * Z)) (s : kmem) (n v : Z) : Prop :=
  let a := uint (tf_esp (p_tf pr) + 4 + 4 * n) in
  a + 4 ≤ p_sz pr ∧ a + 4 ≤ KERNBASE ∧ present U a (a + 4) ∧ sint (uword U (km_mem s) a) = v.
Lemma argint_at n v k0 k s (t : F) pr U : onl k0 L k → at_user kend x k0 s pr U → arg_at pr U s n v →
  ∃ k', argint kend n (k, s, t) = Ret (Some v) (k', s, t) ∧ onl k0 L k'.
Proof using Hx.
  intros Hk Hu (H1 & H2 & H3 & <-). destruct (argint_ok kend me run D x L Hx n k0 k s t pr U Hk Hu ltac:(by right) ltac:(done)) as (k' & E & Hk').
  exists k'. split; [|done]. rewrite E. unfold within. pose proof (uint_range (tf_esp (p_tf pr) + 4 + 4 * n)) as Hr. unfold is_uint in Hr.
  rewrite (proj2 (Z.leb_le 0 _)), (proj2 (Z.ltb_lt _ _)), (proj2 (Z.leb_le _ (p_sz pr))) by lia. done.
Qed.

Lemma sbrk_grow n k0 k s (t : F) pr U : onl k0 L k → at_user kend x k0 s pr U → arg_at pr U s 0 n → 0 ≤ n →
  ∃ k', sys_sbrk kend (k, s, t) = Ret (sint (p_sz pr)) (k', s, t) ∧ onl (upd x (set_sz (uint (p_sz pr + n))) k0) L k'.
Proof using Hx.
  intros Hk Hu Ha Hn. pose proof (au_proc _ _ _ _ _ _ Hu) as Hp. unfold sys_sbrk.
  destruct (argint_at 0 n k0 k s t pr U Hk Hu Ha) as (k1 & E1 & Hk1). run E1.
  destruct (my_ok me run D x L Hx p_sz k0 k1 s t pr Hk1 Hp) as (k2 & E2 & Hk2). run E2.
  destruct (upd_my_ok (set_sz (uint (p_sz pr + n))) k0 k2 s t pr Hk2 Hp) as (k3 & E3 & Hk3). run E3.
  rewrite (proj2 (Z.ltb_ge n 0)) by lia. next. by exists k3.
Qed.

Hypothesis Hkm : kmem_lock ∈ D.
Hypothesis HkL : kmem_lock ∉ L.
Hypothesis Hkend : KERNBASE < kend.
Lemma sbrk_shrink n k0 k s (t : F) pr U free live T : onl k0 L k → at_user kend x k0 s pr U → arg_at pr U s 0 n → n < 0 → 0 ≤ p_sz pr + n → p_sz pr ≤ KERNBASE →
  aspace kend s free live (p_pgdir pr) T U →
  ∃ k' s' fr free' live', sys_sbrk kend (k, s, t) = Ret (sint (p_sz pr)) (k', s', t) ∧ onl (upd x (set_sz (p_sz pr + n)) k0) L k' ∧
    shrunk kend s free live (p_pgdir pr) T U s' fr free' live' (keep (PGROUNDUP (p_sz pr + n)) (p_sz pr) U).
Proof using All.
  intros Hk Hu Ha Hn Hs Hsz Has. pose proof (au_proc _ _ _ _ _ _ Hu) as Hp. unfold sys_sbrk.
  destruct (argint_at 0 n k0 k s t pr U Hk Hu Ha) as (k1 & E1 & Hk1). run E1.
  destruct (my_ok me run D x L Hx p_sz k0 k1 s t pr Hk1 Hp) as (k2 & E2 & Hk2). run E2.
  rewrite uint_small by (unfold is_uint, KERNBASE in *; lia).
  destruct (upd_my_ok (set_sz (p_sz pr + n)) k0 k2 s t pr Hk2 Hp) as (k3 & E3 & Hk3). run E3. apply (lookup_upd x (set_sz (p_sz pr + n))) in Hp.
  rewrite (proj2 (Z.ltb_lt n 0)) by lia. set (k0' := upd x _ k0) in *.
  destruct (my_ok me run D x L Hx p_pgdir k0' k3 s t _ Hk3 Hp) as (k4 & E4 & Hk4). run2 E4.
  destruct (my_ok me run D x L Hx p_sz k0' k4 s t _ Hk4 Hp) as (k5 & E5 & Hk5). run2 E5. cbn [p_pgdir p_sz set_sz].
  destruct (deallocuvm_ok kend (.∈ D) (onl k0') L Hkm HkL Hkend k5 s free live (p_pgdir pr) T U (p_sz pr) (p_sz pr + n) Has Hk5 ltac:(lia) Hsz)
    as (k6 & s' & fr & free' & live' & E6 & Hk6 & Hsh). run2 (km_Ret _ _ _ t _ _ _ E6).
  destruct (my_ok me run D x L Hx p_pgdir k0' k6 s' t _ Hk6 Hp) as (k7 & E7 & Hk7). run2 E7.
  destruct (lcr3_ok me run D L (V2P (p_pgdir pr)) k0' k7 s' t Hk7) as (k8 & E8 & Hk8). cbn [p_pgdir set_sz]. run E8.
  exists k8, s', fr, free', live'. done.
Qed.
End sbrk.

(** ** Sleeping *)
Section sleeping.
Context {F : Type} `{!PrintOps (kproc * kmem * F)}.
Variables (tickslock ticks_chan : Z) (ticks : lens F Z).
Variables (D : gset Z) (x : who).
Hypothesis HD : ptable_lock ∈ D.
Hypothesis Hlk : proc_lock D tickslock.
Abbreviation K := (kproc * kmem * F)%type.
(** Process [x] went to sleep and is switched to again. *)
Definition parked (st : K) : Prop := switching D st.1.1.
Definition back (st st' : K) : Prop := switched_to x st'.1.1.

Lemma kp_sleep_safe lk chan k s (t : F) : runs_on D x [lk] k → proc_lock D lk →
  safe parked back (λ _ st, runs_on D x [lk] st.1.1) (kp (sleep chan lk) (k, s, t)).
Proof using HD.
  intros Hk Hl. destruct (runs_on_sleep D HD x lk chan k Hk Hl) as (k1 & kont & E & Hs & Hw).
  destruct (kp_Block _ k s t _ _ _ E) as (kont' & E' & Hkont'). rewrite E'. split; [done|]. intros [[k2 s2] t2] Hs2 Hc2.
  destruct (Hw k2 Hs2 Hc2) as (k3 & E3 & Hk3). rewrite (Hkont' _ s2 t2 _ _ E3). done.
Qed.
Lemma kp_sleep_parked {A} lk chan k s (t : F) (Q : A → K → Prop) : runs_on D x [lk] k → proc_lock D lk →
  safe parked back Q (park (kp (sleep chan lk)) (k, s, t)).
Proof using HD.
  intros Hk Hl. destruct (runs_on_sleep D HD x lk chan k Hk Hl) as (k1 & kont & E & Hs & Hw).
  destruct (kp_Block _ k s t _ _ _ E) as (kont' & E' & Hkont'). unfold park. by rewrite E'.
Qed.
Lemma my_runs {A} (f : proc → A) L k (s : kmem) (t : F) : runs_on D x L k → ∃ p k', my f (k, s, t) = Ret (f p) (k', s, t) ∧ runs_on D x L k'.
Proof. intros H. destruct (runs_on_field D f x L k H) as (p & k' & _ & E & Hk). exists p, k'. split; [by apply kp_Ret|done]. Qed.

Definition slept (n ticks0 : Z) (r : Z) (st : K) : Prop := runs_on D x [] st.1.1 ∧
  (r = 0 ∧ uint n ≤ uint (lget ticks st.2 - ticks0) ∨ r = -1 ∧ uint (lget ticks st.2 - ticks0) < uint n).
Lemma sleep_loop_ok n ticks0 fuel : ∀ k s t, runs_on D x [tickslock] k →
  safe parked back (slept n ticks0) (sleep_loop tickslock ticks_chan ticks fuel n ticks0 (k, s, t)).
Proof using HD Hlk.
  induction fuel as [|f IH]; intros k s t Hk; cbn [sleep_loop]; (erewrite bind_Ret; [|reflexivity]); cbn [snd];
    (destruct (Z.ltb_spec (uint (lget ticks t - ticks0)) (uint n)) as [Hlt|Hge];
     [destruct (my_runs p_killed _ k s t Hk) as (p & k1 & E1 & Hk1); run E1; destruct (p_killed p)|]);
    lazymatch goal with
    | |- safe _ _ _ (bind (kp (release_k _)) _ (?k, _, _)) =>
        let H := lazymatch goal with H : runs_on D x [tickslock] k |- _ => H end in
        destruct (runs_on_release D x [] [] tickslock k H) as (k2 & E2 & Hk2); run (kp_Ret _ _ s t _ _ E2); split; simpl; auto
    | |- _ => idtac
    end.
  - by apply kp_sleep_parked.
  - eapply safe_bind; [by apply kp_sleep_safe|]. intros _ [[k2 s2] t2] Hk2. by apply IH.
Qed.
End sleeping.

Section theorems.
Context {F : Type} `{!PrintOps (kproc * kmem * F)}.
Variable kend : Z.
Hypothesis Hkend : KERNBASE < kend.
Variables (me : nat) (run : list (option nat)) (D : gset Z) (x : nat) (L : list Z).
Hypothesis Hx : run !! me = Some (Some x).
Hypothesis Hlocks : kmem_lock ∈ D ∧ (kmem_lock ∉ L).

(** C20: [sys_sbrk] returns the old size of the process and changes it by its
    argument, and nothing else in the process table.  When the process grows no
    memory changes: pages come with the first use.  When it shrinks, the pages
    above the new size leave the address space and are free again, and the pages
    below it keep their contents. *)
Theorem sbrk_correct k s (t : F) pr U n free live T :
  hw_ok me run D L (k_hw k) → at_user kend x k s pr U → aspace kend s free live (p_pgdir pr) T U → p_sz pr ≤ KERNBASE → arg_at pr U s 0 n →
  0 ≤ p_sz pr + n →
  ∃ k' s' fr free' live' U', sys_sbrk kend (k, s, t) = Ret (sint (p_sz pr)) (k', s', t) ∧
    only_hw me run D (upd x (set_sz (p_sz pr + n)) k) L k' ∧
    shrunk kend s free live (p_pgdir pr) T U s' fr free' live' U' ∧
    (0 ≤ n → s' = s ∧ U' = U) ∧ (n < 0 → U' = keep (PGROUNDUP (p_sz pr + n)) (p_sz pr) U).
Proof using All.
  intros Hok Hu Has Hsz Ha Hn. pose proof (only_hw_refl me run D k L Hok) as Hk. destruct Hlocks as [Hkm HkL].
  destruct (Z.ltb_spec n 0) as [Hneg|Hpos].
  - destruct (sbrk_shrink kend me run D x L Hx Hkm HkL Hkend n k k s t pr U free live T Hk Hu Ha Hneg Hn Hsz Has) as (k' & s' & fr & free' & live' & E & Hk' & Hsh).
    exists k', s', fr, free', live', (keep (PGROUNDUP (p_sz pr + n)) (p_sz pr) U). split_and!; [done..|lia|done].
  - destruct (sbrk_grow kend me run D x L Hx n k k s t pr U Hk Hu Ha Hpos) as (k' & E & Hk').
    assert (n < 2147483648) as Hn2 by (destruct Ha as (_ & _ & _ & <-); zmod).
    rewrite uint_small in Hk' by (unfold is_uint; destruct Hu as [_ _ Hz]; unfold is_uint, KERNBASE in *; lia).
    exists k', s, [], free, live, U. split_and!; [done..| |done|lia]. by apply shrunk_refl.
Qed.

(** C22: [sys_sbrk] does not check the size it makes.  A process that asks for more
    than the user half of the address space gets it, and from then on [argptr]
    accepts pointers into the kernel: with a second word on its stack that is a
    kernel address below the new size, the next system call takes this address
    for a buffer of the process. *)
Theorem sbrk_exposes_kernel k s (t : F) pr U n v size :
  hw_ok me run D L (k_hw k) → at_user kend x k s pr U → p_sz pr ≤ KERNBASE → arg_at pr U s 0 n → arg_at pr U s 1 (sint v) →
  KERNBASE ≤ v → 0 ≤ size → v + size ≤ p_sz pr + n → v < p_sz pr + n →
  ∃ k' k'', sys_sbrk kend (k, s, t) = Ret (sint (p_sz pr)) (k', s, t) ∧ argptr kend 1 size (k', s, t) = Ret (Some v) (k'', s, t).
Proof using Hx.
  intros Hok Hu Hsz Ha0 Ha1 Hv Hs Hvs Hv2. pose proof (only_hw_refl me run D k L Hok) as Hk.
  assert (n < 2147483648) as Hn2 by (destruct Ha0 as (_ & _ & _ & <-); zmod). pose proof Hu as [Hp (free & live & T & Has) Hz]. unfold is_uint, KERNBASE in Hz, Hsz, Hv.
  destruct (sbrk_grow kend me run D x L Hx n k k s t pr U Hk Hu Ha0 ltac:(lia)) as (k1 & E1 & Hk1). exists k1. rewrite uint_small in Hk1 by (unfold is_uint; lia).
  apply (lookup_upd x (set_sz (p_sz pr + n))) in Hp.
  assert (at_user kend x (upd x (set_sz (p_sz pr + n)) k) s (set_sz (p_sz pr + n) pr) U) as Hu1 by (split; [done|by exists free, live, T|cbn [p_sz set_sz]; unfold is_uint; lia]).
  destruct (argint_at kend me run D x L Hx 1 (sint v) _ k1 s t _ U Hk1 Hu1) as (k2 & E2 & Hk2).
  { destruct Ha1 as (H1 & H2 & H3 & H4). split; [cbn [p_sz set_sz p_tf]; lia|]. done. }
  destruct (my_ok me run D x L Hx p_sz _ k2 s t _ Hk2 Hp) as (k3 & E3 & Hk3). exists k3. split; [done|]. unfold argptr. run E2. run E3. cbn [p_sz set_sz].
  rewrite uint_sint, uint_small by (unfold is_uint; lia). rewrite uint_small by (unfold is_uint; lia).
  by rewrite (proj2 (Z.ltb_ge size 0)), (proj2 (Z.leb_gt _ v)), (proj2 (Z.ltb_ge _ (v + size))) by lia.
Qed.
End theorems.

(** [sys_sleep] sleeps its time.  Whatever the other processes and the clock do
    meanwhile, the call returns 0 only when the counter of clock interrupts has
    moved on by at least its argument, as unsigned numbers so across a wrap-around
    of the counter too, and -1 only before that; it goes to sleep with the table
    of processes in order, and it returns with [tickslock] free. *)
Theorem sleep_correct {F : Type} tickslock ticks_chan (ticks : lens F Z) (D : gset Z) x fuel n k s t :
  ptable_lock ∈ D → proc_lock D tickslock → runs_on D x [] k →
  safe (parked D) (back x) (slept ticks D x n (lget ticks t)) (sleep_ticks tickslock ticks_chan ticks fuel n (k, s, t)).
Proof.
  intros HD Hlk Hk. unfold sleep_ticks.
  destruct (runs_on_acquire D x [] tickslock k Hk Hlk) as (k1 & E1 & Hk1); [apply not_elem_of_nil|]. run (kp_Ret _ _ s t _ _ E1).
  erewrite bind_Ret; [|reflexivity]. by apply sleep_loop_ok.
Qed.

(** A kernel whose only other state is the clock: process 3 sleeps for two ticks
    from tick 4294967295 on, and is woken at tick 1. *)
Definition whole {T} : lens T T := Lens id (λ v _, v).
#[export] Instance whole_laws T : LensLaws (@whole T).
Proof. by split. Qed.

(** The example process gives a page back: its stack is 4 bytes above address 0. *)
Definition ex_args (n v : Z) : kmem := upd_mem (λ m, wr32 (ex_page 2 + 8) v (wr32 (ex_page 2 + 4) n m)) ex_space.
Lemma ex_args_aspace n v : aspace ex_end (ex_args n v) [] [ex_page 0; ex_page 1; ex_page 2] (ex_page 0) ex_T ex_U.
Proof.
  assert (aspace ex_end ex_space [] [ex_page 0; ex_page 1; ex_page 2] (ex_page 0) ex_T ex_U) as Has.
  { apply (ex_aspace []); [intros p Hp; by apply not_elem_of_nil in Hp|]. apply (bool_decide_unpack _). by vm_compute. }
  apply (aspace_frame ex_end ex_space [] [ex_page 0; ex_page 1; ex_page 2]); [done| | |].
  - destruct (vi_kmem _ _ _ _ _ _ (as_vm _ _ _ _ _ _ _ Has)) as [H1 H2 H3]. split; [done|done|done].
  - intros p. rewrite ex_owned. done.
  - intros p Hp a Ha. unfold ex_args, upd_mem. cbn [km_mem]. rewrite !rd8_wr32. change (pt_pages (ex_page 0) ex_T) with [ex_page 0; ex_page 1] in Hp.
    rewrite !elem_of_cons in Hp. unfold in_page, ex_page in *. destruct Hp as [->|[->|Hp]]; [..|by apply not_elem_of_nil in Hp]; rewrite !decide_False by lia; done.
Qed.
Definition ex_sbrk (n v : Z) : outcome (kproc * kmem * console) Z := @sys_sbrk console (console_PrintOps 2) ex_end (ex_one, ex_args n v, ex_console).
Lemma ex_args_user n v : at_user ex_end 3 ex_one (ex_args n v) (set_sz 4096 ex_user_proc) ex_U.
Proof. split; [by vm_compute| |done]. exists [], [ex_page 0; ex_page 1; ex_page 2], ex_T. apply ex_args_aspace. Qed.
Lemma sbrk_correct_witness : ∃ k' s' free', ex_sbrk (-4096) 0 = Ret 4096 (k', s', ex_console) ∧ free' ≡ₚ [ex_page 2] ∧
  ∃ live', aspace ex_end s' free' live' (ex_page 0) ex_T ∅.
Proof.
  destruct (@sbrk_correct console (console_PrintOps 2) ex_end eq_refl 0 [Some 3%nat; None] ex_locks 3 [] eq_refl
    (conj (proj1 ex_locks_in) (proj1 (proj2 (proj2 ex_locks_in)))) ex_one (ex_args (-4096) 0) ex_console _ ex_U (-4096) []
    [ex_page 0; ex_page 1; ex_page 2] ex_T ex_user_hw (ex_args_user _ _) (ex_args_aspace _ _))
    as (k' & s' & fr & free' & live' & U' & E & _ & Hsh & _ & HU).
  - done.
  - split; [done|]. split; [done|]. split; [apply ex_one_present; by vm_compute|]. by vm_compute.
  - done.
  - rewrite HU in Hsh by done. replace (keep _ _ ex_U) with (∅ : gmap Z (Z * Z)) in Hsh by (by vm_compute). exists k', s', free'. split; [exact E|].
    destruct Hsh as [H1 _ H3 H4 _ _ _]. change (upages ∅) with ([] : list Z) in H3. rewrite app_nil_r in H1, H3. split; [by rewrite H1, <- H3|by exists live'].
Defined.
Lemma sbrk_exposes_kernel_witness : ∃ k' k'', ex_sbrk 2147483647 (KERNBASE + 1024) = Ret 4096 (k', ex_args 2147483647 (KERNBASE + 1024), ex_console) ∧
  @argptr console (console_PrintOps 2) ex_end 1 512 (k', ex_args 2147483647 (KERNBASE + 1024), ex_console) = Ret (Some (KERNBASE + 1024)) (k'', ex_args 2147483647 (KERNBASE + 1024), ex_console).
Proof.
  destruct (@sbrk_exposes_kernel console (console_PrintOps 2) ex_end 0 [Some 3%nat; None] ex_locks 3 [] eq_refl ex_one (ex_args 2147483647 (KERNBASE + 1024)) ex_console _ ex_U
    2147483647 (KERNBASE + 1024) 512 ex_user_hw (ex_args_user _ _)) as (k' & k'' & E & E').
  - done.
  - split; [done|]. split; [done|]. split; [apply ex_one_present; by vm_compute|]. by vm_compute.
  - split; [done|]. split; [done|]. split; [apply ex_one_present; by vm_compute|]. by vm_compute.
  - unfold KERNBASE. lia.
  - lia.
  - by vm_compute.
  - by vm_compute.
  - by exists k', k''.
Defined.
