(* ===== verification/File.v ===== *)
(** * Open files (file.c, pipe.c: pipealloc)

    The table of open files.  An entry counts the file descriptors that refer to
    it and is free when there is none; it stands for an inode with an offset or
    for one end of a pipe.  fs.c with log.c, and pipe.c, are the interfaces
    [FsOps] and [PipeOps], with the operations as Fs.v and Pipe.v define them. *)
From stdpp Require Import base list gmap strings.
From Stdlib Require Import ZArith Lia.
From S2P Require Import Prelude User Mmu Spinlock CpuLocks CString Proc RunQueue Sched Machine Kernel Console Kalloc Vm Uvm CopyUvm Fault Life Sleeplock Block Bio Log Trans Tx Fs.
#[local] Open Scope Z_scope.

(** fs.c and log.c, for the code above them.  An inode is its place in the
    cache; [k_inode] reads its fields and [k_iset] assigns to one of them. *)
Class FsOps (K : Type) := {
  k_begin_op : M K ();
  k_end_op : M K ();
  k_namei : list Z → M K (option nat);
  k_nameiparent : list Z → M K (option nat * list Z);
  k_iinit : M K ();
  k_initlog : M K ();
  k_idup : nat → M K nat;
  k_ialloc : Z → Z → M K nat;
  k_inode : nat → M K inode;
  k_iset : nat → (inode → inode) → M K ();
  k_iupdate : nat → M K ();
  k_ilock : nat → M K ();
  k_iunlock : nat → M K ();
  k_iput : nat → M K ();
  k_stati : nat → M K stat;
  k_readi : nat → Z → Z → M K (Z * list Z);
  k_writei : nat → list Z → Z → Z → M K Z;
  k_dirlookup : nat → list Z → M K (option (nat * Z));
  k_dirlink : nat → list Z → Z → M K Z }.
Definition k_iunlockput {K} `{!FsOps K} (ip : nat) : M K () := k_iunlock ip ;;; k_iput ip.

(** pipe.c: a pipe is the address of its page. *)
Class PipeOps (K : Type) := {
  k_pipeinit : Z → M K ();
  k_pipeclose : Z → bool → M K ();
  k_piperead : Z → Z → M K (Z * list Z);
  k_pipewrite : Z → list Z → Z → M K Z }.

(** file.h, param.h *)
Definition NFILE : nat := 100.
Inductive ftype := FD_NONE | FD_PIPE | FD_INODE.
#[export] Instance ftype_eq_dec : EqDecision ftype.
Proof. solve_decision. Defined.
Record file := File { f_type : ftype; f_ref : Z; f_readable : bool; f_writable : bool; f_pipe : Z; f_ip : nat; f_off : Z }.
Definition file0 : file := File FD_NONE 0 false false 0 0 0.
Definition set_ftype v f := File v (f_ref f) (f_readable f) (f_writable f) (f_pipe f) (f_ip f) (f_off f).
Definition set_fref v f := File (f_type f) v (f_readable f) (f_writable f) (f_pipe f) (f_ip f) (f_off f).
Definition set_readable v f := File (f_type f) (f_ref f) v (f_writable f) (f_pipe f) (f_ip f) (f_off f).
Definition set_writable v f := File (f_type f) (f_ref f) (f_readable f) v (f_pipe f) (f_ip f) (f_off f).
Definition set_pipe v f := File (f_type f) (f_ref f) (f_readable f) (f_writable f) v (f_ip f) (f_off f).
Definition set_ip v f := File (f_type f) (f_ref f) (f_readable f) (f_writable f) (f_pipe f) v (f_off f).
Definition set_off v f := File (f_type f) (f_ref f) (f_readable f) (f_writable f) (f_pipe f) (f_ip f) v.

Section file.
Context {F : Type} `{!PrintOps (kproc * kmem * F), !FsOps (kproc * kmem * F), !PipeOps (kproc * kmem * F)}.
Variable kend : Z.
(** [&ftable.lock] and where [ftable.file] is. *)
Variables (ftable_lock : Z) (ftable : lens F (list file)).
Abbreviation K := (kproc * kmem * F)%type.

Definition get_file (f : nat) : M K file := λ s, match lget ftable s.2 !! f with Some fl => Ret fl s | None => Fault end.
Definition upd_file (f : nat) (g : file → file) : M K () := λ s, Ret () (s.1, lset ftable (alter g f (lget ftable s.2)) s.2).

(** Bytes of the process that calls. *)
Fixpoint copy_in (n : nat) (a : Z) : M K (list Z) :=
  match n with O => ret [] | S n' => let! c := load8 kend a in let! r := copy_in n' (a + 1) in ret (c :: r) end.
Fixpoint copy_out (a : Z) (bs : list Z) : M K () :=
  match bs with [] => ret () | c :: bs' => store8 kend a c ;;; copy_out (a + 1) bs' end.
Definition store16 (a v : Z) : M K () := store8 kend a v ;;; store8 kend (a + 1) (v / 256).

Definition fileinit : M K () := kp (k_initlock ftable_lock "ftable").

Definition filealloc : M K (option nat) :=
  kp (acquire_k ftable_lock) ;;;
  let! fs := (λ s, Ret (lget ftable s.2) s) in
  match first_idx (λ f, f_ref f =? 0) (take NFILE fs) with
  | Some f => upd_file f (set_fref 1) ;;; kp (release_k ftable_lock) ;;; ret (Some f)
  | None => kp (release_k ftable_lock) ;;; ret None
  end.

Definition filedup (f : nat) : M K nat :=
  kp (acquire_k ftable_lock) ;;;
  let! fl := get_file f in
  if f_ref fl <? 1 then panic "filedup" else
  upd_file f (set_fref (sint (f_ref fl + 1))) ;;;
  kp (release_k ftable_lock) ;;;
  ret f.

Definition fileclose (f : nat) : M K () :=
  kp (acquire_k ftable_lock) ;;;
  let! fl := get_file f in
  if f_ref fl <? 1 then panic "fileclose" else
  upd_file f (set_fref (f_ref fl - 1)) ;;;
  if 0 <? f_ref fl - 1 then kp (release_k ftable_lock) else
  let! ff := get_file f in
  upd_file f (set_fref 0) ;;;
  upd_file f (set_ftype FD_NONE) ;;;
  kp (release_k ftable_lock) ;;;
  match f_type ff with
  | FD_PIPE => k_pipeclose (f_pipe ff) (f_writable ff)
  | FD_INODE => k_begin_op ;;; k_iput (f_ip ff) ;;; k_end_op
  | FD_NONE => ret ()
  end.

(** [stati] stores the fields one by one; [struct stat] has its [type] at 0. *)
Definition put_stat (a : Z) (st : stat) : M K () :=
  store32 kend (a + 4) (st_dev st) ;;;
  store32 kend (a + 8) (st_ino st) ;;;
  store16 a (st_type st) ;;;
  store16 (a + 12) (st_nlink st) ;;;
  store32 kend (a + 16) (st_size st).
Definition filestat (f : nat) (st : Z) : M K Z :=
  let! fl := get_file f in
  match f_type fl with
  | FD_INODE =>
      k_ilock (f_ip fl) ;;;
      let! v := k_stati (f_ip fl) in
      put_stat st v ;;;
      k_iunlock (f_ip fl) ;;;
      ret 0
  | _ => ret (-1)
  end.

(** What [piperead] and [readi] read goes to [addr]. *)
Definition fileread (f : nat) (addr n : Z) : M K Z :=
  let! fl := get_file f in
  if negb (f_readable fl) then ret (-1) else
  match f_type fl with
  | FD_PIPE =>
      let! (r, bs) := k_piperead (f_pipe fl) n in
      copy_out addr bs ;;;
      ret r
  | FD_INODE =>
      k_ilock (f_ip fl) ;;;
      let! fl := get_file f in
      let! (r, bs) := k_readi (f_ip fl) (f_off fl) n in
      copy_out addr bs ;;;
      (if 0 <? r then upd_file f (λ fl, set_off (uint (f_off fl + r)) fl) else ret ()) ;;;
      k_iunlock (f_ip fl) ;;;
      ret r
  | FD_NONE => panic "fileread"
  end.

(** Blocks per transaction, two for the inode and the indirect block, two of
    slop, and each with its entry in the free map. *)
Definition write_max : Z := (MAXOPBLOCKS - 1 - 1 - 2) / 2 * 512.
(** [writei] has read its source when it starts. *)
Fixpoint filewrite_loop (cnt f : nat) (addr n i : Z) : M K Z :=
  if i <? n then
    match cnt with
    | O => λ _, Spin
    | S c =>
        let n1 := if write_max <? n - i then write_max else n - i in
        k_begin_op ;;;
        let! fl := get_file f in
        k_ilock (f_ip fl) ;;;
        let! bs := copy_in (Z.to_nat n1) (addr + i) in
        let! fl := get_file f in
        let! r := k_writei (f_ip fl) bs (f_off fl) n1 in
        (if 0 <? r then upd_file f (λ fl, set_off (uint (f_off fl + r)) fl) else ret ()) ;;;
        k_iunlock (f_ip fl) ;;;
        k_end_op ;;;
        if r <? 0 then ret i else
        if negb (r =? n1) then panic "short filewrite" else
        filewrite_loop c f addr n (i + r)
    end
  else ret i.
(** The bytes are fetched before [pipewrite], and before each [writei], where the
    C code fetches them one by one or block by block during the call: the page
    faults come first, and a program that changes the bytes in another process
    while the call sleeps, which cannot happen without shared memory, is not seen. *)
Definition filewrite (f : nat) (addr n : Z) : M K Z :=
  let! fl := get_file f in
  if negb (f_writable fl) then ret (-1) else
  match f_type fl with
  | FD_PIPE =>
      let! bs := copy_in (Z.to_nat n) addr in
      k_pipewrite (f_pipe fl) bs n
  | FD_INODE =>
      let! i := filewrite_loop (Z.to_nat n) f addr n 0 in
      ret (if i =? n then n else -1)
  | FD_NONE => panic "filewrite"
  end.

Definition pipe_bad (p : Z) (f0 f1 : option nat) : M K (option (nat * nat)) :=
  (if negb (p =? 0) then km (kfree kend p) else ret ()) ;;;
  (match f0 with Some f => fileclose f | None => ret () end) ;;;
  (match f1 with Some f => fileclose f | None => ret () end) ;;;
  ret None.
Definition pipealloc : M K (option (nat * nat)) :=
  let! f0 := filealloc in
  match f0 with
  | None => pipe_bad 0 None None
  | Some a =>
      let! f1 := filealloc in
      match f1 with
      | None => pipe_bad 0 (Some a) None
      | Some b =>
          let! p := km kalloc in
          if p =? 0 then pipe_bad 0 (Some a) (Some b) else
          k_pipeinit p ;;;
          upd_file a (set_ftype FD_PIPE) ;;;
          upd_file a (set_readable true) ;;;
          upd_file a (set_writable false) ;;;
          upd_file a (set_pipe p) ;;;
          upd_file b (set_ftype FD_PIPE) ;;;
          upd_file b (set_readable false) ;;;
          upd_file b (set_writable true) ;;;
          upd_file b (set_pipe p) ;;;
          ret (Some (a, b))
      end
  end.

(** What Life.v needs of the files. *)
Definition file_FileOps : FileOps K := {|
  f_filedup := filedup; f_fileclose := fileclose; f_idup := k_idup; f_iput := k_iput; f_begin_op := k_begin_op; f_end_op := k_end_op;
  f_namei := k_namei; f_iinit := k_iinit; f_initlog := k_initlog |}.
End file.
