(* ===== verification/Sysfile.v ===== *)
(** * System calls on files (sysfile.c)

    File descriptors, and the calls that change directories and inodes, over the
    table of open files of File.v, with the laws of the calls on inodes they
    rely on ([FsLaws]).  The lemmas say that the calls on paths give back, on
    every way out, each lock and each reference they take and the transaction
    they begin; Fds.v has the theorems, and the counts of the open files. *)
From stdpp Require Import base list gmap strings.
From Stdlib Require Import ZArith Lia.
From S2P Require Import Prelude User Mmu Spinlock CpuLocks CString Proc RunQueue Sched Machine Kernel Console Kalloc Vm Uvm CopyUvm Fault Life Args Sysproc Sleeplock Block Bio Log Trans Tx Fs File.
#[local] Open Scope Z_scope.

Section sysfile.
Context {F : Type} `{!PrintOps (kproc * kmem * F), !FsOps (kproc * kmem * F), !PipeOps (kproc * kmem * F)}.
Variable kend : Z.
Variables (ftable_lock : Z) (ftable : lens F (list file)).
Abbreviation K := (kproc * kmem * F)%type.
Abbreviation filealloc := (filealloc ftable_lock ftable).
Abbreviation filedup := (filedup ftable_lock ftable).
Abbreviation fileclose := (fileclose ftable_lock ftable).

(** A string of the process that calls. *)
Definition argpath (n : Z) : M K (option (list Z)) :=
  let! r := argstr kend n in
  match r with
  | None => ret None
  | Some (a, len) => let! bs := copy_in kend (Z.to_nat len) a in ret (Some bs)
  end.

(** The descriptor and the file. *)
Definition argfd (n : Z) : M K (option (Z * nat)) :=
  let! fd := argint kend n in
  match fd with
  | None => ret None
  | Some fd =>
      if (fd <? 0) || (Z.of_nat NOFILE <=? fd) then ret None else
      let! ofile := my p_ofile in
      match ofile !! Z.to_nat fd with
      | Some (Some f) => ret (Some (fd, f))
      | _ => ret None
      end
  end.

Definition set_fd (fd : nat) (v : option nat) : M K () := upd_my (λ p, set_ofile (<[fd := v]> (p_ofile p)) p).
Definition fdalloc (f : nat) : M K Z :=
  let! ofile := my p_ofile in
  match first_idx (λ o, bool_decide (o = None)) (take NOFILE ofile) with
  | Some fd => set_fd fd (Some f) ;;; ret (Z.of_nat fd)
  | None => ret (-1)
  end.

Definition sys_dup : M K Z :=
  let! r := argfd 0 in
  match r with
  | None => ret (-1)
  | Some (_, f) =>
      let! fd := fdalloc f in
      if fd <? 0 then ret (-1) else
      filedup f ;;;
      ret fd
  end.

Definition sys_dup2 : M K Z :=
  let! r := argfd 0 in
  match r with
  | None => ret (-1)
  | Some (_, f) =>
      let! gd := argint kend 1 in
      match gd with
      | None => ret (-1)
      | Some gd =>
          if (gd <? 0) || (Z.of_nat NOFILE <=? gd) then ret (-1) else
          let! ofile := my p_ofile in
          let g := mjoin (ofile !! Z.to_nat gd) in
          if bool_decide (g = Some f) then ret gd else
          (match g with
           | Some g => set_fd (Z.to_nat gd) None ;;; fileclose g
           | None => ret ()
           end) ;;;
          set_fd (Z.to_nat gd) (Some f) ;;;
          filedup f ;;;
          ret gd
      end
  end.

(** The arguments of [sys_read] and [sys_write]. *)
Definition arg_rw : M K (option (nat * Z * Z)) :=
  let! r := argfd 0 in
  match r with
  | None => ret None
  | Some (_, f) =>
      let! n := argint kend 2 in
      match n with
      | None => ret None
      | Some n => let! p := argptr kend 1 n in ret ((λ p, (f, p, n)) <$> p)
      end
  end.
Definition sys_read : M K Z :=
  let! r := arg_rw in
  match r with None => ret (-1) | Some (f, p, n) => fileread kend ftable f p n end.
Definition sys_write : M K Z :=
  let! r := arg_rw in
  match r with None => ret (-1) | Some (f, p, n) => filewrite kend ftable f p n end.

Definition sys_close : M K Z :=
  let! r := argfd 0 in
  match r with
  | None => ret (-1)
  | Some (fd, f) => set_fd (Z.to_nat fd) None ;;; fileclose f ;;; ret 0
  end.

Definition sys_fstat : M K Z :=
  let! r := argfd 0 in
  match r with
  | None => ret (-1)
  | Some (_, f) =>
      let! st := argptr kend 1 20 in
      match st with None => ret (-1) | Some st => filestat kend ftable f st end
  end.

(** ** Links *)
Definition link_bad (ip : nat) : M K Z :=
  k_ilock ip ;;;
  let! i := k_inode ip in
  k_iset ip (set_nlink (sshort (i_nlink i - 1))) ;;;
  k_iupdate ip ;;;
  k_iunlockput ip ;;;
  k_end_op ;;;
  ret (-1).
Definition link (old new : list Z) : M K Z :=
  k_begin_op ;;;
  let! ip := k_namei old in
  match ip with
  | None => k_end_op ;;; ret (-1)
  | Some ip =>
      k_ilock ip ;;;
      let! i := k_inode ip in
      if i_type i =? T_DIR then k_iunlockput ip ;;; k_end_op ;;; ret (-1) else
      k_iset ip (set_nlink (sshort (i_nlink i + 1))) ;;;
      k_iupdate ip ;;;
      k_iunlock ip ;;;
      let! (dp, name) := k_nameiparent new in
      match dp with
      | None => link_bad ip
      | Some dp =>
          k_ilock dp ;;;
          let! d := k_inode dp in
          let! i := k_inode ip in
          let! ok := (if negb (i_dev d =? i_dev i) then ret false else
                      let! r := k_dirlink dp name (i_inum i) in ret (negb (r <? 0))) in
          if negb ok then k_iunlockput dp ;;; link_bad ip else
          k_iunlockput dp ;;;
          k_iput ip ;;;
          k_end_op ;;;
          ret 0
      end
  end.
Definition sys_link : M K Z :=
  let! old := argpath 0 in
  match old with
  | None => ret (-1)
  | Some old =>
      let! new := argpath 1 in
      match new with None => ret (-1) | Some new => link old new end
  end.

Fixpoint isdirempty_loop (cnt dp : nat) (off : Z) : M K bool :=
  let! d := k_inode dp in
  if off <? i_size d then
    match cnt with
    | O => λ _, Spin
    | S c =>
        let! (r, de) := k_readi dp off 16 in
        if negb (r =? 16) then panic "isdirempty: readi" else
        if negb (de_inum de =? 0) then ret false else
        isdirempty_loop c dp (off + 16)
    end
  else ret true.
Definition isdirempty (dp : nat) : M K bool :=
  let! d := k_inode dp in
  isdirempty_loop (Z.to_nat (i_size d / 16)) dp 32.

Definition unlink_bad (dp : nat) : M K Z := k_iunlockput dp ;;; k_end_op ;;; ret (-1).
Definition unlink (path : list Z) : M K Z :=
  k_begin_op ;;;
  let! (dp, name) := k_nameiparent path in
  match dp with
  | None => k_end_op ;;; ret (-1)
  | Some dp =>
      k_ilock dp ;;;
      if (namecmp name (str ".") =? 0) || (namecmp name (str "..") =? 0) then unlink_bad dp else
      let! r := k_dirlookup dp name in
      match r with
      | None => unlink_bad dp
      | Some (ip, off) =>
          k_ilock ip ;;;
          let! i := k_inode ip in
          if i_nlink i <? 1 then panic "unlink: nlink < 1" else
          let! full := (if i_type i =? T_DIR then let! e := isdirempty ip in ret (negb e) else ret false) in
          if (full : bool) then k_iunlockput ip ;;; unlink_bad dp else
          let! r := k_writei dp (replicate 16 0) off 16 in
          if negb (r =? 16) then panic "unlink: writei" else
          let! i := k_inode ip in
          (if i_type i =? T_DIR then
             let! d := k_inode dp in
             k_iset dp (set_nlink (sshort (i_nlink d - 1))) ;;;
             k_iupdate dp
           else ret ()) ;;;
          k_iunlockput dp ;;;
          let! i := k_inode ip in
          k_iset ip (set_nlink (sshort (i_nlink i - 1))) ;;;
          k_iupdate ip ;;;
          k_iunlockput ip ;;;
          k_end_op ;;;
          ret 0
      end
  end.
Definition sys_unlink : M K Z :=
  let! path := argpath 0 in
  match path with None => ret (-1) | Some path => unlink path end.

(** ** Creating and opening *)
Definition create_new (dp : nat) (name : list Z) (type major minor : Z) : M K (option nat) :=
  let! d := k_inode dp in
  let! ip := k_ialloc (i_dev d) type in
  k_ilock ip ;;;
  k_iset ip (set_major major) ;;;
  k_iset ip (set_minor minor) ;;;
  k_iset ip (set_nlink 1) ;;;
  k_iupdate ip ;;;
  let! i := k_inode ip in
  (if type =? T_DIR then
     let! d := k_inode dp in
     k_iset dp (set_nlink (sshort (i_nlink d + 1))) ;;;
     k_iupdate dp ;;;
     let! r := k_dirlink ip (str ".") (i_inum i) in
     if r <? 0 then panic "create dots" else
     let! d := k_inode dp in
     let! r := k_dirlink ip (str "..") (i_inum d) in
     if r <? 0 then panic "create dots" else ret ()
   else ret ()) ;;;
  let! r := k_dirlink dp name (i_inum i) in
  if r <? 0 then panic "create: dirlink" else
  k_iunlockput dp ;;;
  ret (Some ip).
Definition create (path : list Z) (type major minor : Z) : M K (option nat) :=
  let! (dp, name) := k_nameiparent path in
  match dp with
  | None => ret None
  | Some dp =>
      k_ilock dp ;;;
      let! r := k_dirlookup dp name in
      match r with
      | Some (ip, _) =>
          k_iunlockput dp ;;;
          k_ilock ip ;;;
          let! i := k_inode ip in
          if (type =? T_FILE) && (i_type i =? T_FILE) then ret (Some ip) else
          k_iunlockput ip ;;;
          ret None
      | None => create_new dp name type major minor
      end
  end.

(** The locked inode that [sys_open] opens. *)
Definition open_inode (path : list Z) (omode : Z) : M K (option nat) :=
  if negb (Z.land omode O_CREATE =? 0) then
    let! ip := create path T_FILE 0 0 in
    match ip with
    | None => k_end_op ;;; ret None
    | Some ip => ret (Some ip)
    end
  else
    let! ip := k_namei path in
    match ip with
    | None => k_end_op ;;; ret None
    | Some ip =>
        k_ilock ip ;;;
        let! i := k_inode ip in
        if (i_type i =? T_DIR) && negb (omode =? O_RDONLY) then k_iunlockput ip ;;; k_end_op ;;; ret None else
        ret (Some ip)
    end.
Definition open_bad (f : option nat) (ip : nat) : M K Z :=
  (match f with Some f => fileclose f | None => ret () end) ;;;
  k_iunlockput ip ;;;
  k_end_op ;;;
  ret (-1).
Definition open (path : list Z) (omode : Z) : M K Z :=
  k_begin_op ;;;
  let! ip := open_inode path omode in
  match ip with
  | None => ret (-1)
  | Some ip =>
      let! f := filealloc in
      match f with
      | None => open_bad None ip
      | Some f =>
          let! fd := fdalloc f in
          if fd <? 0 then open_bad (Some f) ip else
          k_iunlock ip ;;;
          k_end_op ;;;
          upd_file ftable f (set_ftype FD_INODE) ;;;
          upd_file ftable f (set_ip ip) ;;;
          upd_file ftable f (set_off 0) ;;;
          upd_file ftable f (set_readable (Z.land omode O_WRONLY =? 0)) ;;;
          upd_file ftable f (set_writable (negb (Z.land omode O_WRONLY =? 0) || negb (Z.land omode O_RDWR =? 0))) ;;;
          ret fd
      end
  end.
Definition sys_open : M K Z :=
  let! path := argpath 0 in
  match path with
  | None => ret (-1)
  | Some path =>
      let! omode := argint kend 1 in
      match omode with None => ret (-1) | Some omode => open path omode end
  end.

(** The end of [sys_mkdir] and [sys_mknod]. *)
Definition created (ip : option nat) : M K Z :=
  match ip with
  | None => k_end_op ;;; ret (-1)
  | Some ip => k_iunlockput ip ;;; k_end_op ;;; ret 0
  end.
Definition sys_mkdir : M K Z :=
  k_begin_op ;;;
  let! path := argpath 0 in
  match path with
  | None => created None
  | Some path => let! ip := create path T_DIR 0 0 in created ip
  end.
Definition sys_mknod : M K Z :=
  k_begin_op ;;;
  let! path := argpath 0 in
  match path with
  | None => created None
  | Some path =>
      let! major := argint kend 1 in
      match major with
      | None => created None
      | Some major =>
          let! minor := argint kend 2 in
          match minor with
          | None => created None
          | Some minor => let! ip := create path T_DEV (sshort major) (sshort minor) in created ip
          end
      end
  end.

Definition chdir (path : option (list Z)) : M K Z :=
  let! ip := (match path with None => ret None | Some path => k_namei path end) in
  match ip with
  | None => k_end_op ;;; ret (-1)
  | Some ip =>
      k_ilock ip ;;;
      let! i := k_inode ip in
      if negb (i_type i =? T_DIR) then k_iunlockput ip ;;; k_end_op ;;; ret (-1) else
      k_iunlock ip ;;;
      let! cwd := my p_cwd in
      let! cwd := deref cwd in
      k_iput cwd ;;;
      k_end_op ;;;
      upd_my (set_cwd (Some ip)) ;;;
      ret 0
  end.
Definition sys_chdir : M K Z :=
  k_begin_op ;;;
  let! path := argpath 0 in
  chdir path.

Definition sys_pipe : M K Z :=
  let! fd := argptr kend 0 8 in
  match fd with
  | None => ret (-1)
  | Some fd =>
      let! r := pipealloc kend ftable_lock ftable in
      match r with
      | None => ret (-1)
      | Some (rf, wf) =>
          let! fd0 := fdalloc rf in
          let! fd1 := (if fd0 <? 0 then ret (-1) else fdalloc wf) in
          if (fd0 <? 0) || (fd1 <? 0) then
            (if 0 <=? fd0 then set_fd (Z.to_nat fd0) None else ret ()) ;;;
            fileclose rf ;;;
            fileclose wf ;;;
            ret (-1)
          else
          store32 kend fd fd0 ;;;
          store32 kend (fd + 4) fd1 ;;;
          ret 0
      end
  end.
End sysfile.

(** ** Locks, references and transactions *)
(** The panics that a call of the file system may end in: not those of file.c,
    which report a wrong count. *)
Definition fs_panic (msg : string) : Prop := msg ≠ "filedup" ∧ msg ≠ "fileclose".

(** What the code that calls fs.c and log.c has in its hands: whether it is inside
    a transaction ([op]), the inodes it has locked ([L]) and the references to
    inodes it owns ([R], one entry for each).  Code that sleeps leaves the state
    in [idle] and finds it again related by [back]; a call that waits for a lock
    of its own never comes back.  [view] is the inode in the cache. *)
Class FsLaws {K : Type} `{!FsOps K} (idle : K → Prop) (back : K → K → Prop) (holds : bool → list nat → list nat → K → Prop)
    (view : nat → K → inode) : Prop := {
  fl_begin_op R s : holds false [] R s → orderly fs_panic idle back (λ _, holds true [] R) (k_begin_op s);
  fl_end_op R s : holds true [] R s → orderly fs_panic idle back (λ _, holds false [] R) (k_end_op s);
  fl_namei R path s : holds true [] R s → orderly fs_panic idle back (λ r, holds true [] (option_list r ++ R)) (k_namei path s);
  fl_nameiparent R path s : holds true [] R s → orderly fs_panic idle back (λ r, holds true [] (option_list r.1 ++ R)) (k_nameiparent path s);
  fl_ialloc L R dev type s : holds true L R s → orderly fs_panic idle back (λ ip, holds true L (ip :: R)) (k_ialloc dev type s);
  fl_inode L R ip s : ip ∈ R → holds true L R s → k_inode ip s = Ret (view ip s) s;
  fl_iset L R ip g s : ip ∈ L → holds true L R s → orderly fs_panic idle back (λ _, holds true L R) (k_iset ip g s);
  fl_iupdate L R ip s : ip ∈ L → holds true L R s → orderly fs_panic idle back (λ _, holds true L R) (k_iupdate ip s);
  fl_ilock L R ip s : ip ∈ R → holds true L R s → orderly fs_panic idle back (λ _, holds true (ip :: L) R) (k_ilock ip s);
  fl_iunlock L L' R ip s : L ≡ₚ ip :: L' → holds true L R s → orderly fs_panic idle back (λ _, holds true L' R) (k_iunlock ip s);
  fl_iput L R R' ip s : R ≡ₚ ip :: R' → holds true L R s → orderly fs_panic idle back (λ _, holds true L R') (k_iput ip s);
  fl_readi L R ip off n s : ip ∈ L → holds true L R s → orderly fs_panic idle back (λ _ s', holds true L R s' ∧ view ip s' = view ip s) (k_readi ip off n s);
  fl_writei L R ip src off n s : ip ∈ L → holds true L R s → orderly fs_panic idle back (λ _, holds true L R) (k_writei ip src off n s);
  fl_dirlookup L R dp name s : dp ∈ L → holds true L R s →
    orderly fs_panic idle back (λ r, holds true L (option_list (fst <$> r) ++ R)) (k_dirlookup dp name s);
  fl_dirlink L R dp name inum s : dp ∈ L → holds true L R s → orderly fs_panic idle back (λ _, holds true L R) (k_dirlink dp name inum s) }.

Section balanced.
Context {F : Type} `{!FsOps (kproc * kmem * F)}.
Abbreviation K := (kproc * kmem * F)%type.
Context (idle : K → Prop) (back : K → K → Prop) (holds : bool → list nat → list nat → K → Prop) (view : nat → K → inode) `{!FsLaws idle back holds view}.
Abbreviation ord := (orderly fs_panic idle back).

(** The next statement is a call, which returns [r] as its law [H] says of what
    [Hs] says is held; the rest of the code fails as [H] says. *)
Tactic Notation "call" open_constr(H) "as" simple_intropattern(r) := eapply orderly_bind; 
  [exact H|lazymatch goal with H : holds _ _ _ _ |- _ => clear H end; let Hs := fresh "Hs" in intros r ? Hs; cbv beta in Hs].
Tactic Notation "quit" open_constr(H) := eapply orderly_mono; [exact H|]; by intros ? ? [_ ?].

Lemma iunlockput_ok L L' R R' ip s : L ≡ₚ ip :: L' → R ≡ₚ ip :: R' → holds true L R s → ord (λ _, holds true L' R') (k_iunlockput ip s).
Proof using All. intros HL HR Hs. unfold k_iunlockput. call (fl_iunlock L L' R ip _ HL Hs) as ?. exact (fl_iput L' R R' ip _ HR Hs). Qed.
(** [iunlockput] and [end_op], and the call fails. *)
Lemma fail_ok {A} L R R' ip (v : A) s : L ≡ₚ [ip] → R ≡ₚ ip :: R' → holds true L R s → ord (λ r st, r = v ∧ holds false [] R' st) ((k_iunlockput ip ;;; k_end_op ;;; ret v) s).
Proof using All. intros HL HR Hs. call (iunlockput_ok L [] R R' ip _ HL HR Hs) as ?. call (fl_end_op R' _ Hs) as ?. done. Qed.
Lemma end_ok {A} R (v : A) s : holds true [] R s → ord (λ r st, r = v ∧ holds false [] R st) ((k_end_op ;;; ret v) s).
Proof using All. intros Hs. call (fl_end_op R _ Hs) as ?. done. Qed.

Lemma link_bad_ok R ip s : holds true [] (ip :: R) s → ord (λ r st, r = -1 ∧ holds false [] R st) (link_bad ip s).
Proof using All.
  intros Hs. unfold link_bad. call (fl_ilock _ _ ip _ ltac:(left) Hs) as ?. run (fl_inode _ _ ip _ ltac:(left) Hs).
  call (fl_iset _ _ ip _ _ ltac:(left) Hs) as ?. call (fl_iupdate _ _ ip _ ltac:(left) Hs) as ?. by apply (fail_ok [ip] (ip :: R)).
Qed.
Lemma link_ok R old new s : holds false [] R s → ord (λ _, holds false [] R) (link old new s).
Proof using All.
  intros Hs. unfold link. call (fl_begin_op R _ Hs) as ?. call (fl_namei R old _ Hs) as [ip|]; [|quit (end_ok R (-1) _ Hs)]. simpl in Hs.
  call (fl_ilock _ _ ip _ ltac:(left) Hs) as ?. run (fl_inode _ _ ip _ ltac:(left) Hs).
  case_match. { quit (fail_ok [ip] (ip :: R) R ip (-1) _ ltac:(done) ltac:(done) Hs). }
  call (fl_iset _ _ ip _ _ ltac:(left) Hs) as ?. call (fl_iupdate _ _ ip _ ltac:(left) Hs) as ?. call (fl_iunlock [ip] [] _ ip _ ltac:(done) Hs) as ?.
  call (fl_nameiparent _ new _ Hs) as [[dp|] name]; simpl in Hs; [|quit (link_bad_ok R ip _ Hs)].
  call (fl_ilock _ _ dp _ ltac:(left) Hs) as ?. run (fl_inode _ _ dp _ ltac:(left) Hs). run (fl_inode _ _ ip _ ltac:(right; left) Hs).
  eapply (orderly_bind _ _ _ (λ _, holds true [dp] (dp :: ip :: R))).
  { destruct (negb _); [done|]. call (fl_dirlink _ _ dp name _ _ ltac:(left) Hs) as ?. done. }
  clear Hs. intros ok ? Hs. destruct (negb ok); call (iunlockput_ok [dp] [] _ (ip :: R) dp _ ltac:(done) ltac:(done) Hs) as ?; [quit (link_bad_ok R ip _ Hs)|].
  call (fl_iput _ _ R ip _ ltac:(done) Hs) as ?. quit (end_ok R 0 _ Hs).
Qed.

Lemma isdirempty_ok L R dp s : dp ∈ L → dp ∈ R → holds true L R s → ord (λ _, holds true L R) (isdirempty dp s).
Proof using All.
  intros HL HR Hs. unfold isdirempty. run (fl_inode _ _ dp _ HR Hs). remember (i_size (view dp s)) as sz eqn:Hsz.
  assert (sz < 32 + 16 * Z.of_nat (Z.to_nat (sz / 16))) as Hc by (Z.to_euclidean_division_equations; lia).
  revert s Hs Hsz Hc. generalize (Z.to_nat (sz / 16)) as c, 32 as off. intros c. induction c as [|c IH]; intros off s Hs Hsz Hc; cbn [isdirempty_loop];
    run (fl_inode _ _ dp _ HR Hs); rewrite <- Hsz; (destruct (Z.ltb_spec off sz); [|done]); [lia|].
  call (fl_readi _ _ dp off 16 _ HL Hs) as [r de]. destruct Hs as [Hs Hv]. case_match; [done|]. case_match; [done|]. apply IH; [done|congruence|lia].
Qed.
Lemma unlink_bad_ok R dp s : holds true [dp] (dp :: R) s → ord (λ _, holds false [] R) (unlink_bad dp s).
Proof using All. intros Hs. quit (fail_ok [dp] (dp :: R) R dp (-1) _ ltac:(done) ltac:(done) Hs). Qed.
Lemma unlink_ok R path s : holds false [] R s → ord (λ _, holds false [] R) (unlink path s).
Proof using All.
  intros Hs. unfold unlink. call (fl_begin_op R _ Hs) as ?. call (fl_nameiparent R path _ Hs) as [[dp|] name]; simpl in Hs; [|quit (end_ok R (-1) _ Hs)].
  call (fl_ilock _ _ dp _ ltac:(left) Hs) as ?. case_match; [by apply unlink_bad_ok|].
  call (fl_dirlookup _ _ dp name _ ltac:(left) Hs) as [[ip off]|]; simpl in Hs; [|by apply unlink_bad_ok].
  call (fl_ilock _ _ ip _ ltac:(left) Hs) as ?. run (fl_inode _ _ ip _ ltac:(left) Hs). case_match; [done|].
  eapply (orderly_bind _ _ _ (λ _, holds true [ip; dp] (ip :: dp :: R))).
  { case_match; [|done]. call (isdirempty_ok _ _ ip _ ltac:(left) ltac:(left) Hs) as ?. done. }
  clear Hs. intros full ? Hs. destruct full.
  { call (iunlockput_ok [ip; dp] [dp] _ (dp :: R) ip _ ltac:(done) ltac:(done) Hs) as ?. by apply unlink_bad_ok. }
  call (fl_writei _ _ dp _ off 16 _ ltac:(right; left) Hs) as r. case_match; [done|]. run (fl_inode _ _ ip _ ltac:(left) Hs).
  eapply (orderly_bind _ _ _ (λ _, holds true [ip; dp] (ip :: dp :: R))).
  { case_match; [|done]. run (fl_inode _ _ dp _ ltac:(right; left) Hs). call (fl_iset _ _ dp _ _ ltac:(right; left) Hs) as ?. exact (fl_iupdate _ _ dp _ ltac:(right; left) Hs). }
  clear Hs. intros ? ? Hs. call (iunlockput_ok [ip; dp] [ip] _ (ip :: R) dp _ ltac:(apply Permutation_swap) ltac:(apply Permutation_swap) Hs) as ?.
  run (fl_inode _ _ ip _ ltac:(left) Hs). call (fl_iset _ _ ip _ _ ltac:(left) Hs) as ?. call (fl_iupdate _ _ ip _ ltac:(left) Hs) as ?.
  quit (fail_ok [ip] (ip :: R) R ip 0 _ ltac:(done) ltac:(done) Hs).
Qed.

(** A locked inode with its reference, or nothing. *)
Definition locked (R : list nat) (r : option nat) (s : K) : Prop := holds true (option_list r) (option_list r ++ R) s.
Lemma create_new_ok R dp name type major minor s : holds true [dp] (dp :: R) s → ord (locked R) (create_new dp name type major minor s).
Proof using All.
  intros Hs. unfold create_new. run (fl_inode _ _ dp _ ltac:(left) Hs). call (fl_ialloc _ _ _ type _ Hs) as ip. call (fl_ilock _ _ ip _ ltac:(left) Hs) as ?.
  call (fl_iset _ _ ip _ _ ltac:(left) Hs) as ?. call (fl_iset _ _ ip _ _ ltac:(left) Hs) as ?. call (fl_iset _ _ ip _ _ ltac:(left) Hs) as ?.
  call (fl_iupdate _ _ ip _ ltac:(left) Hs) as ?. run (fl_inode _ _ ip _ ltac:(left) Hs).
  eapply (orderly_bind _ _ _ (λ _, holds true [ip; dp] (ip :: dp :: R))).
  { case_match; [|done]. run (fl_inode _ _ dp _ ltac:(right; left) Hs). call (fl_iset _ _ dp _ _ ltac:(right; left) Hs) as ?. call (fl_iupdate _ _ dp _ ltac:(right; left) Hs) as ?.
    call (fl_dirlink _ _ ip _ _ _ ltac:(left) Hs) as r1. case_match; [done|]. run (fl_inode _ _ dp _ ltac:(right; left) Hs).
    call (fl_dirlink _ _ ip _ _ _ ltac:(left) Hs) as r2. by case_match. }
  clear Hs. intros ? ? Hs. call (fl_dirlink _ _ dp _ _ _ ltac:(right; left) Hs) as r. case_match; [done|].
  call (iunlockput_ok [ip; dp] [ip] _ (ip :: R) dp _ ltac:(apply Permutation_swap) ltac:(apply Permutation_swap) Hs) as ?. done.
Qed.
Lemma create_ok R path type major minor s : holds true [] R s → ord (locked R) (create path type major minor s).
Proof using All.
  intros Hs. unfold create. call (fl_nameiparent R path _ Hs) as [[dp|] name]; simpl in Hs; [|done].
  call (fl_ilock _ _ dp _ ltac:(left) Hs) as ?. call (fl_dirlookup _ _ dp name _ ltac:(left) Hs) as [[ip off]|]; simpl in Hs; [|by apply create_new_ok].
  call (iunlockput_ok [dp] [] _ (ip :: R) dp _ ltac:(done) ltac:(apply Permutation_swap) Hs) as ?. call (fl_ilock _ _ ip _ ltac:(left) Hs) as ?.
  run (fl_inode _ _ ip _ ltac:(left) Hs). case_match; [done|]. call (iunlockput_ok [ip] [] _ R ip _ ltac:(done) ltac:(done) Hs) as ?. done.
Qed.
Lemma open_inode_ok R path omode s : holds true [] R s →
  ord (λ r st, match r with Some ip => locked R (Some ip) st | None => holds false [] R st end) (open_inode path omode s).
Proof using All.
  intros Hs. unfold open_inode. case_match.
  - call (create_ok R path _ _ _ _ Hs) as [ip|]; [done|]. eapply orderly_mono; [exact (end_ok R None _ Hs)|]. by intros ? ? [-> ?].
  - call (fl_namei R path _ Hs) as [ip|]; simpl in Hs; [|eapply orderly_mono; [exact (end_ok R None _ Hs)|]; by intros ? ? [-> ?]].
    call (fl_ilock _ _ ip _ ltac:(left) Hs) as ?. run (fl_inode _ _ ip _ ltac:(left) Hs). case_match; [|done].
    eapply orderly_mono; [exact (fail_ok [ip] (ip :: R) R ip None _ ltac:(done) ltac:(done) Hs)|]. by intros ? ? [-> ?].
Qed.
Lemma created_ok R ip s : locked R ip s → ord (λ _, holds false [] R) (created ip s).
Proof using All. intros Hs. destruct ip as [ip|]; [quit (fail_ok [ip] (ip :: R) R ip 0 _ ltac:(done) ltac:(done) Hs)|quit (end_ok R (-1) _ Hs)]. Qed.
End balanced.

(** ** Examples *)
(** File systems, pipes and a console that do nothing, and a table with one file. *)
Definition idle_FsOps {F} : FsOps (kproc * kmem * F) := {|
  k_begin_op := ret (); k_end_op := ret (); k_namei _ := ret None; k_nameiparent _ := ret (None, []); k_iinit := ret (); k_initlog := ret (); k_idup ip := ret ip; k_ialloc _ _ := ret 0%nat; k_inode _ := ret inode0;
  k_iset _ _ := ret (); k_iupdate _ := ret (); k_ilock _ := ret (); k_iunlock _ := ret (); k_iput _ := ret (); k_stati _ := ret (Stat 0 0 0 0 0);
  k_readi _ _ _ := ret (0, []); k_writei _ _ _ n := ret n; k_dirlookup _ _ := ret None; k_dirlink _ _ _ := ret 0 |}.
Definition idle_PipeOps {F} : PipeOps (kproc * kmem * F) := {|
  k_pipeinit _ := ret (); k_pipeclose _ _ := ret (); k_piperead _ _ := ret (0, []); k_pipewrite _ _ n := ret n |}.
Definition quiet_PrintOps {F} : PrintOps (kproc * kmem * F) := λ _ _, ret ().
Definition ex_files : list file := File FD_INODE 1 true true 0 0 0 :: replicate 99 file0.
