(* ===== verification/Fds.v ===== *)
(** * File descriptors and open files (file.c, sysfile.c, and exit of proc.c)

    An open file counts the descriptors that refer to it, over all processes.
    The file shows that [dup], [dup2], [close], [open] and [exit] keep these
    counts right, that a file is given up with its last descriptor, and that the
    calls give back every lock and reference they take and the transaction they
    begin.  fs.c, log.c and pipe.c are interfaces here: [FileLaws] says in which
    order their functions may be called, with what in hand, and what is in hand
    afterwards. *)
From stdpp Require Import base list gmap strings.
From Stdlib Require Import ZArith Lia.
From S2P Require Import Prelude User Mmu Spinlock CpuLocks CString Proc RunQueue Sched Machine Kernel Console Kalloc Vm Uvm CopyUvm Fault Life Args Sysproc Sleeplock Block Bio Log Trans Tx Fs File Sysfile.
#[local] Open Scope Z_scope.

(** ** Reference counts *)
(** [cnt l f]: how many entries of [l] are file [f]. *)
Definition cnt (l : list (option nat)) (f : nat) : nat := length (filter (λ o, o = Some f) l).
Definition one (o : option nat) (f : nat) : Z := if decide (o = Some f) then 1 else 0.
Lemma cnt_app l1 l2 f : cnt (l1 ++ l2) f = (cnt l1 f + cnt l2 f)%nat.
Proof. unfold cnt. by rewrite filter_app, length_app. Qed.
Lemma cnt_cons o l f : Z.of_nat (cnt (o :: l) f) = one o f + Z.of_nat (cnt l f).
Proof. unfold cnt, one. case_decide; [rewrite filter_cons_True by done|rewrite filter_cons_False by done]; simpl; lia. Qed.
Lemma cnt_insert l i o v f : l !! i = Some o → Z.of_nat (cnt (<[i := v]> l) f) = Z.of_nat (cnt l f) - one o f + one v f.
Proof.
  intros Hi. pose proof (lookup_lt_Some _ _ _ Hi) as Hlt. rewrite (insert_take_drop l i v Hlt). rewrite <- (take_drop_middle l i o Hi) at 3.
  rewrite !cnt_app, !Nat2Z.inj_add, !cnt_cons. lia.
Qed.
Lemma cnt_pos l f : Some f ∈ l → (1 ≤ cnt l f)%nat.
Proof. intros (l1 & l2 & ->)%list_elem_of_split. rewrite cnt_app. pose proof (cnt_cons (Some f) l2 f) as H. unfold one in H. rewrite decide_True in H by done. lia. Qed.
(** The references from the tables of all processes. *)
Definition refs (G : list (list (option nat))) (f : nat) : nat := cnt (concat G) f.
Lemma refs_insert G x g fd o v f : G !! x = Some g → g !! fd = Some o →
  Z.of_nat (refs (<[x := <[fd := v]> g]> G) f) = Z.of_nat (refs G f) - one o f + one v f.
Proof.
  intros Hx Hfd. pose proof (lookup_lt_Some _ _ _ Hx) as Hlt. unfold refs. rewrite (insert_take_drop G x _ Hlt). rewrite <- (take_drop_middle G x g Hx) at 3.
  rewrite !concat_app. cbn [concat]. rewrite !cnt_app. rewrite !Nat2Z.inj_add, (cnt_insert g fd o v f Hfd). lia.
Qed.
Lemma refs_own G x g f : G !! x = Some g → (cnt g f ≤ refs G f)%nat.
Proof. intros Hx. unfold refs. rewrite <- (take_drop_middle G x g Hx), concat_app. cbn [concat]. rewrite !cnt_app. lia. Qed.

Lemma cnt_length l f : (cnt l f ≤ length l)%nat.
Proof. apply length_filter. Qed.
Lemma refs_bound G f : Forall (λ g, (length g ≤ NOFILE)%nat) G → (length G ≤ NPROC)%nat → (refs G f ≤ 1024)%nat.
Proof.
  intros HG Hl. unfold refs. etrans; [apply cnt_length|]. assert (length (concat G) ≤ NOFILE * length G)%nat; [|unfold NOFILE, NPROC in *; lia].
  clear Hl. induction HG as [|g G Hg _ IH]; [simpl; lia|]. cbn [concat length]. rewrite length_app. unfold NOFILE in *. lia.
Qed.

(** The tables of all processes.  A process that exits still has a file in its
    table while it closes it: [cl] has these descriptors, which no longer count. *)
Definition listed (d : option nat) (l : list (option nat)) : list (option nat) := match d with Some fd => <[fd := None]> l | None => l end.
Definition tables (cl : nat → option nat) (ps : list proc) : list (list (option nat)) := imap (λ j p, listed (cl j) (p_ofile p)) ps.
Definition closing (x : nat) (d : option nat) (cl : nat → option nat) (j : nat) : option nat := if decide (j = x) then d else cl j.
Lemma length_listed d l : length (listed d l) = length l.
Proof. destruct d; [apply length_insert|done]. Qed.
Lemma tables_lookup cl ps j p : ps !! j = Some p → tables cl ps !! j = Some (listed (cl j) (p_ofile p)).
Proof. intros H. unfold tables. by rewrite list_lookup_imap, H. Qed.
Lemma tables_set cl ps x d p p' : ps !! x = Some p → tables (closing x d cl) (<[x := p']> ps) = <[x := listed d (p_ofile p')]> (tables cl ps).
Proof.
  intros Hp. pose proof (lookup_lt_Some _ _ _ Hp) as Hlt. apply list_eq. intros j. unfold tables, closing. rewrite list_lookup_imap. destruct (decide (j = x)) as [->|Hne].
  - rewrite !list_lookup_insert_eq by (rewrite ?length_imap; done). cbn [fmap option_fmap option_map]. by destruct (decide (x = x)).
  - rewrite !list_lookup_insert_ne, list_lookup_imap by done. destruct (ps !! j); cbn [fmap option_fmap option_map]; [|done]. by destruct (decide (j = x)).
Qed.
Lemma alter_insert_list {A} (f : A → A) (l : list A) i a : l !! i = Some a → alter f i l = <[i := f a]> l.
Proof. intros H. pose proof (lookup_lt_Some _ _ _ H). apply list_eq. intros j. rewrite lookup_alter_list, list_lookup_insert. repeat case_decide; subst; rewrite ?H; done || tauto. Qed.

(** Each file is counted once for each descriptor, up to [E]; one that nobody
    refers to is of no type. *)
Record counted (cl : nat → option nat) (ps : list proc) (fs : list file) (E : nat → Z) : Prop := {
  ct_ref f fl : fs !! f = Some fl → f_ref fl = Z.of_nat (refs (tables cl ps) f) + E f;
  ct_dom f : (0 < refs (tables cl ps) f)%nat → is_Some (fs !! f);
  ct_none f fl : fs !! f = Some fl → f_ref fl = 0 → f_type fl = FD_NONE;
  ct_len : (length ps ≤ NPROC)%nat ∧ Forall (λ p, (length (p_ofile p) ≤ NOFILE)%nat) ps }.
Lemma counted_bound cl ps fs E f : counted cl ps fs E → (refs (tables cl ps) f ≤ 1024)%nat.
Proof.
  intros [_ _ _ [H1 H2]]. apply refs_bound; [|unfold tables; by rewrite length_imap]. apply Forall_lookup. intros j g Hg. unfold tables in Hg.
  rewrite list_lookup_imap in Hg. destruct (ps !! j) as [p|] eqn:Ep; [|done]. injection Hg as <-. rewrite length_listed. by apply (Forall_lookup_1 _ _ _ _ H2 Ep).
Qed.
Lemma counted_ext cl ps fs E E' : counted cl ps fs E → (∀ f, E f = E' f) → counted cl ps fs E'.
Proof. intros [H1 H2 H3 H4] He. split; [|done..]. intros f fl Hf. rewrite <- He. by apply H1. Qed.
(** Process [x] puts [v] in the place of the reference [o] of descriptor [fd]. *)
Lemma counted_set cl ps fs E x d p p' fd o v : counted cl ps fs E → ps !! x = Some p → listed (cl x) (p_ofile p) !! fd = Some o →
  listed d (p_ofile p') = <[fd := v]> (listed (cl x) (p_ofile p)) → (∀ f, v = Some f → is_Some (fs !! f)) →
  counted (closing x d cl) (<[x := p']> ps) fs (λ f, E f + one o f - one v f).
Proof.
  intros [H1 H2 H3 [H4 H5]] Hp Ho Hd Hv. pose proof (tables_lookup cl ps x p Hp) as Ht.
  assert (∀ f, Z.of_nat (refs (tables (closing x d cl) (<[x := p']> ps)) f) = Z.of_nat (refs (tables cl ps) f) - one o f + one v f) as Hr.
  { intros f. rewrite (tables_set cl ps x d p p' Hp), Hd. by apply refs_insert. }
  split.
  - intros f fl Hf. rewrite (H1 f fl Hf), Hr. lia.
  - intros f Hf. specialize (Hr f). unfold one in Hr. destruct (decide (v = Some f)) as [->|Hn]; [by apply Hv|]. apply H2. case_decide; lia.
  - done.
  - rewrite length_insert. split; [done|]. apply Forall_insert; [done|]. rewrite <- (length_listed d), Hd, length_insert, length_listed. by apply (Forall_lookup_1 _ _ _ _ H5 Hp).
Qed.
(** The same references in another process table. *)
Lemma counted_same cl cl' ps ps' fs E : counted cl ps fs E → tables cl' ps' = tables cl ps → Forall (λ p, (length (p_ofile p) ≤ NOFILE)%nat) ps' → counted cl' ps' fs E.
Proof.
  intros [H1 H2 H3 [H4 H5]] Ht Hl. split; rewrite ?Ht; try done. split; [|done]. apply (f_equal length) in Ht. unfold tables in Ht. rewrite !length_imap in Ht. lia.
Qed.
(** A file whose count changes. *)
Lemma counted_file cl ps fs E f fl fl' : counted cl ps fs E → fs !! f = Some fl → (f_ref fl' = 0 → f_type fl' = FD_NONE) →
  counted cl ps (<[f := fl']> fs) (λ f', E f' + if decide (f = f') then f_ref fl' - f_ref fl else 0).
Proof.
  intros [H1 H2 H3 H4] Hf Hn. pose proof (lookup_lt_Some _ _ _ Hf). split; [| | |done].
  - intros f' g. rewrite list_lookup_insert. case_decide as Hd; [destruct Hd as [-> _]; intros [= <-]; rewrite decide_True by done; pose proof (H1 f' fl Hf); lia|].
    intros Hg. rewrite decide_False by (intros ->; by apply Hd). rewrite (H1 f' g Hg). lia.
  - intros f' Hr. rewrite list_lookup_insert. case_decide; [by eexists|by apply H2].
  - intros f' g. rewrite list_lookup_insert. case_decide; [by intros [= <-]|apply H3].
Qed.

(** The references to inodes and the ends of pipes that open files have. *)
Definition file_ip (fl : file) : option nat := match f_type fl with FD_INODE => Some (f_ip fl) | _ => None end.
Definition file_end (fl : file) : option (Z * bool) := match f_type fl with FD_PIPE => Some (f_pipe fl, f_writable fl) | _ => None end.
Lemma omap_insert {A B} (g : A → option B) (l : list A) i a b : l !! i = Some a → option_list (g b) ++ omap g l ≡ₚ option_list (g a) ++ omap g (<[i := b]> l).
Proof.
  intros Hi. pose proof (lookup_lt_Some _ _ _ Hi) as Hlt. rewrite (insert_take_drop l i b Hlt). rewrite <- (take_drop_middle l i a Hi) at 1.
  rewrite !omap_app. cbn [omap list_omap]. destruct (g a), (g b); simpl; solve_Permutation.
Qed.

(** ** A process that calls *)
(** A process up to what others may change of it. *)
Definition own_part (c : proc) : proc := set_killed false (set_parent None (set_prio 0 (set_sigprio None (set_chan 0 (set_context context0 c))))).
Lemma own_field {A} (f : proc → A) c c' : (∀ c, f (own_part c) = f c) → own_part c = own_part c' → f c = f c'.
Proof. intros Hf H. rewrite <- (Hf c), H. apply Hf. Qed.
Lemma own_set (g : proc → proc) c c' : (∀ c, own_part (g c) = g (own_part c)) → own_part c = own_part c' → own_part (g c) = own_part (g c').
Proof. intros Hg H. by rewrite !Hg, H. Qed.

Section fds.
Context {F : Type} `{!PrintOps (kproc * kmem * F), !FsOps (kproc * kmem * F), !PipeOps (kproc * kmem * F)}.
Variables (kend ftable_lock : Z) (ftable : lens F (list file)).
Context `{!LensLaws ftable}.
Variables (D : gset Z) (x : nat).
Abbreviation K := (kproc * kmem * F)%type.
#[local] Abbreviation ft t := (lget ftable t).

(** The counts are right; [x] is just closing [d]. *)
Definition fds (d : option nat) (st : K) : Prop := ∃ cl, cl x = d ∧ counted cl (k_procs st.1.1) (ft st.2) (λ _, 0).
(** [x] executes, without a spin lock, and is [c]. *)
Definition here (c : proc) (st : K) : Prop := ∃ me run qs c' free live T U,
  in_kernel kend D x me run st.1.1 st.1.2 qs c' free live T U ∧ own_part c' = own_part c.
(** The files [N] are new, and no other process knows of them. *)
Definition alive (c : proc) (d : option nat) (N : list nat) (st : K) : Prop :=
  here c st ∧ fds d st ∧ ∀ f, f ∈ N → ∃ fl, ft st.2 !! f = Some fl ∧ f_ref fl = 1 ∧ f_type fl = FD_NONE.
(** The CPU has been given away. *)
Definition parked (st : K) : Prop := switching D st.1.1 ∧ ∃ d, fds d st.

(** ** What the calls need of fs.c, log.c and pipe.c *)
(** [holds op L R P]: what the calling process has in its hands, besides the open
    files: a transaction, locked inodes, references to inodes, and ends of pipes.
    [back] is how others may change the state while it sleeps. *)
Definition same_rest (t t' : F) : Prop := t' = t ∨ ∃ fs, t' = lset ftable fs t.
Class FileLaws (back : K → K → Prop) (holds : bool → list nat → list nat → list (Z * bool) → K → Prop) (view : nat → K → inode) : Prop := {
  fw_fs c d N P :: FsLaws parked back (λ op L R st, alive c d N st ∧ holds op L R P st) view;
  fw_pipe c d N R P p w st : alive c d N st → holds false [] R ((p, w) :: P) st →
    orderly fs_panic parked back (λ _ st', alive c d N st' ∧ holds false [] R P st') (k_pipeclose p w st);
  (** References move between the hands of the process and the open files. *)
  fw_move op L R R' P P' h g k s t t' : holds op L R P (k, s, t) → (∀ p, p_pid (g p) = p_pid p ∧ p_state (g p) = p_state p) → same_rest t t' →
    R ++ omap file_ip (ft t) ≡ₚ R' ++ omap file_ip (ft t') → P ++ omap file_end (ft t) ≡ₚ P' ++ omap file_end (ft t') →
    holds op L R' P' (with_hw h (Life.upd x g k), s, t') }.

Lemma same_rest_trans t t1 t2 : same_rest t t1 → same_rest t1 t2 → same_rest t t2.
Proof using LensLaws0. intros [->|[fs ->]] [->|[fs' ->]]; [by left|right; by exists fs'|right; by exists fs|right]. exists fs'. apply lset_lset. Qed.
Lemma upd_file_ok f g (k : kproc) (s : kmem) t fl : ft t !! f = Some fl →
  ∃ t', upd_file ftable f g (k, s, t) = Ret () (k, s, t') ∧ same_rest t t' ∧ ft t' = <[f := g fl]> (ft t).
Proof using LensLaws0. intros Hf. eexists. split; [reflexivity|]. split; [right; by eexists|]. cbn [snd]. rewrite lget_lset. by apply alter_insert_list. Qed.
Lemma get_file_ok f (k : kproc) (s : kmem) t fl : ft t !! f = Some fl → get_file ftable f (k, s, t) = Ret fl (k, s, t).
Proof. intros H. unfold get_file. cbn [snd]. by rewrite H. Qed.

(** ** Steps that do not sleep *)
Section steps.
Variables (me : nat) (run : list (option nat)).
Hypothesis Hx : run !! me = Some (Some x).
Hypothesis Hlk : ftable_lock ∈ D.
Abbreviation onl := (only_hw me run D).
Lemma in_kernel_hw k k' s qs c free live T U : in_kernel kend D x me run k s qs c free live T U → onl k [] k' → in_kernel kend D x me run k' s qs c free live T U.
Proof. intros [I1 I2 I3 I4 I5 I6] (h & -> & Hok). by split. Qed.
Lemma in_kernel_upd g k k' s qs c free live T U : in_kernel kend D x me run k s qs c free live T U → onl (Life.upd x g k) [] k' →
  (∀ p, p_sigprio (g p) = p_sigprio p ∧ p_state (g p) = p_state p ∧ p_prio (g p) = p_prio p ∧ p_pgdir (g p) = p_pgdir p) →
  in_kernel kend D x me run k' s qs (g c) free live T U.
Proof.
  intros [I1 I2 I3 I4 I5 I6] (h & -> & Hok) Hg. destruct (Hg c) as (G1 & G2 & G3 & G4). split; [done|done| | | |].
  - apply sched_wf_upd; [done|apply Hg|]. intros p Hp. destruct (Hg p) as (_ & G5 & G6 & _). split; [|by left]. pose proof (sw_prio _ _ _ I3 x p Hp) as H. unfold prio_ok in *. by rewrite G6.
  - by apply lookup_upd.
  - by rewrite G2.
  - by rewrite G4.
Qed.

Lemma filedup_ok f k0 k s t cl ps E : onl k0 [] k → counted cl ps (ft t) E → (0 < refs (tables cl ps) f)%nat → -1 ≤ E f ≤ 0 → 1 ≤ Z.of_nat (refs (tables cl ps) f) + E f →
  ∃ k' t', filedup ftable_lock ftable f (k, s, t) = Ret f (k', s, t') ∧ onl k0 [] k' ∧ same_rest t t' ∧
    counted cl ps (ft t') (λ f', E f' + if decide (f = f') then 1 else 0) ∧
    ∃ fl, ft t !! f = Some fl ∧ ft t' = <[f := set_fref (f_ref fl + 1) fl]> (ft t).
Proof using Hlk LensLaws0.
  intros Hk Hc H1 HE H2. unfold filedup. destruct (kp_acquire_ok me run D ftable_lock [] k0 k s t Hk Hlk) as (k1 & E1 & Hk1); [apply not_elem_of_nil|]. run E1.
  destruct (ct_dom _ _ _ _ Hc f H1) as [fl Hf]. run (get_file_ok f k1 s t fl Hf). pose proof (ct_ref _ _ _ _ Hc f fl Hf) as Hr. pose proof (counted_bound cl ps _ E f Hc).
  rewrite (proj2 (Z.ltb_ge _ 1)) by lia. assert (sint (f_ref fl + 1) = f_ref fl + 1) as -> by (unfold sint; rewrite Z.mod_small; lia).
  destruct (upd_file_ok f (set_fref (f_ref fl + 1)) k1 s t fl Hf) as (t' & E2 & Hs & Ht'). run E2.
  destruct (kp_release_ok me run D ftable_lock [] [] k0 k1 s t' Hk1) as (k2 & E3 & Hk2). run E3. exists k2, t'. split; [done|]. split; [done|]. split; [done|].
  split; [|by exists fl]. rewrite Ht'. eapply counted_ext; [apply (counted_file _ _ _ _ f fl _ Hc Hf); simpl; lia|]. intros f'. cbv beta. case_decide; simpl; lia.
Qed.
Lemma filealloc_ok k0 k s t : onl k0 [] k →
  ∃ r k' t', filealloc ftable_lock ftable (k, s, t) = Ret r (k', s, t') ∧ onl k0 [] k' ∧ same_rest t t' ∧
    match r with
    | Some f => ∃ fl, ft t !! f = Some fl ∧ f_ref fl = 0 ∧ ft t' = <[f := set_fref 1 fl]> (ft t)
    | None => t' = t
    end.
Proof using Hlk LensLaws0.
  intros Hk. unfold filealloc. destruct (kp_acquire_ok me run D ftable_lock [] k0 k s t Hk Hlk) as (k1 & E1 & Hk1); [apply not_elem_of_nil|]. run E1. next. cbn [snd].
  destruct (first_idx _ _) as [f|] eqn:Ef.
  - apply first_idx_Some in Ef as [(fl & Hf & H0%Z.eqb_eq) _]. rewrite lookup_take_Some in Hf. destruct Hf as [Hf _].
    destruct (upd_file_ok f (set_fref 1) k1 s t fl Hf) as (t' & E2 & Hs & Ht'). run E2.
    destruct (kp_release_ok me run D ftable_lock [] [] k0 k1 s t' Hk1) as (k2 & E3 & Hk2). run E3. exists (Some f), k2, t'. split; [done|]. split; [done|]. split; [done|]. by exists fl.
  - destruct (kp_release_ok me run D ftable_lock [] [] k0 k1 s t Hk1) as (k2 & E3 & Hk2). run E3. exists None, k2, t. split; [done|]. split; [done|]. split; [by left|done].
Qed.
(** What is left of [fileclose] when the table is in order again. *)
Definition close_rest (fl : file) : M K () :=
  if 0 <? f_ref fl - 1 then ret () else
  match f_type fl with
  | FD_PIPE => k_pipeclose (f_pipe fl) (f_writable fl)
  | FD_INODE => k_begin_op ;;; k_iput (f_ip fl) ;;; k_end_op
  | FD_NONE => ret ()
  end.
Definition closed_file (fl : file) : file := if 0 <? f_ref fl - 1 then set_fref (f_ref fl - 1) fl else set_ftype FD_NONE (set_fref 0 fl).
Lemma fileclose_ok f k0 k s t fl : onl k0 [] k → ft t !! f = Some fl → 1 ≤ f_ref fl →
  ∃ k' t', fileclose ftable_lock ftable f (k, s, t) = close_rest fl (k', s, t') ∧ onl k0 [] k' ∧ same_rest t t' ∧ ft t' = <[f := closed_file fl]> (ft t).
Proof using Hlk LensLaws0.
  intros Hk Hf Hr. pose proof (lookup_lt_Some _ _ _ Hf) as Hlt. unfold fileclose, close_rest, closed_file.
  destruct (kp_acquire_ok me run D ftable_lock [] k0 k s t Hk Hlk) as (k1 & E1 & Hk1); [apply not_elem_of_nil|]. run E1.
  run (get_file_ok f k1 s t fl Hf). rewrite (proj2 (Z.ltb_ge _ 1)) by lia. destruct (upd_file_ok f (set_fref (f_ref fl - 1)) k1 s t fl Hf) as (t1 & E2 & S1 & Ht1). run E2.
  destruct (0 <? f_ref fl - 1).
  { destruct (kp_release_ok me run D ftable_lock [] [] k0 k1 s t1 Hk1) as (k2 & E3 & Hk2). exists k2, t1. by rewrite E3. }
  assert (ft t1 !! f = Some (set_fref (f_ref fl - 1) fl)) as Hf1 by (by rewrite Ht1, list_lookup_insert_eq). run (get_file_ok f k1 s t1 _ Hf1).
  destruct (upd_file_ok f (set_fref 0) k1 s t1 _ Hf1) as (t2 & E4 & S2 & Ht2). run E4.
  assert (ft t2 !! f = Some (set_fref 0 (set_fref (f_ref fl - 1) fl))) as Hf2 by (by rewrite Ht2, list_lookup_insert_eq by (by rewrite Ht1, length_insert)).
  destruct (upd_file_ok f (set_ftype FD_NONE) k1 s t2 _ Hf2) as (t3 & E5 & S3 & Ht3). run E5.
  destruct (kp_release_ok me run D ftable_lock [] [] k0 k1 s t3 Hk1) as (k2 & E6 & Hk2). run E6. exists k2, t3. split; [done|]. split; [done|].
  split; [eapply same_rest_trans; [exact S1|]; by eapply same_rest_trans|]. by rewrite Ht3, Ht2, Ht1, !list_insert_insert_eq.
Qed.
Lemma set_fd_hw fd v k0 k s (t : F) c : onl k0 [] k → k_procs k0 !! x = Some c →
  ∃ k', set_fd fd v (k, s, t) = Ret () (k', s, t) ∧ onl (Life.upd x (λ p, set_ofile (<[fd := v]> (p_ofile p)) p) k0) [] k'.
Proof using Hx. intros Hk Hp. by apply (upd_my_ok me run D x [] Hx _ k0 k s t c). Qed.
Lemma fdalloc_ok f k0 k s (t : F) c : onl k0 [] k → k_procs k0 !! x = Some c →
  ∃ r k', fdalloc f (k, s, t) = Ret r (k', s, t) ∧
    match first_idx (λ o, bool_decide (o = None)) (take NOFILE (p_ofile c)) with
    | Some fd => r = Z.of_nat fd ∧ onl (Life.upd x (λ p, set_ofile (<[fd := Some f]> (p_ofile p)) p) k0) [] k'
    | None => r = -1 ∧ onl k0 [] k'
    end.
Proof using Hx.
  intros Hk Hp. unfold fdalloc. destruct (my_ok me run D x [] Hx p_ofile k0 k s t c Hk Hp) as (k1 & E1 & Hk1). run E1. destruct (first_idx _ _) as [fd|].
  - destruct (set_fd_hw fd (Some f) k0 k1 s t c Hk1 Hp) as (k2 & E2 & Hk2). run E2. by eexists _, k2.
  - by eexists _, k1.
Qed.
End steps.

(** ** The calls *)
Section calls.
Context (back : K → K → Prop) (holds : bool → list nat → list nat → list (Z * bool) → K → Prop) (view : nat → K → inode) `{!FileLaws back holds view}.
Hypothesis Hlk : ftable_lock ∈ D.
Abbreviation ord := (orderly fs_panic parked back).
(** A process with what it has in its hands. *)
Definition has (c : proc) (d : option nat) (N : list nat) (op : bool) (L R : list nat) (P : list (Z * bool)) (st : K) : Prop :=
  alive c d N st ∧ holds op L R P st.
Abbreviation law c d N P := (fw_fs c d N P : FsLaws parked back (λ op L R st, alive c d N st ∧ holds op L R P st) view).

Lemma upd_same i k : Life.upd i id k = k.
Proof. by apply upd_id. Qed.
Lemma holds_hw op L R P k k' s t me run : holds op L R P (k, s, t) → only_hw me run D k [] k' → holds op L R P (k', s, t).
Proof using FileLaws0.
  intros H (h & -> & _). rewrite <- (upd_same x k). by eapply fw_move; [exact H| |left| |].
Qed.
Lemma holds_upd g op L R P k k' s t me run : holds op L R P (k, s, t) → only_hw me run D (Life.upd x g k) [] k' → (∀ p, p_pid (g p) = p_pid p ∧ p_state (g p) = p_state p) →
  holds op L R P (k', s, t).
Proof using FileLaws0. intros H (h & -> & _) Hg. by eapply fw_move; [exact H| |left| |]. Qed.

Lemma closed_move fl fs f : fs !! f = Some fl → 1 ≤ f_ref fl → ∀ R P, let last := negb (0 <? f_ref fl - 1) in
  R ++ omap file_ip fs ≡ₚ ((if last then option_list (file_ip fl) else []) ++ R) ++ omap file_ip (<[f := closed_file fl]> fs) ∧
  P ++ omap file_end fs ≡ₚ ((if last then option_list (file_end fl) else []) ++ P) ++ omap file_end (<[f := closed_file fl]> fs).
Proof.
  intros Hf Hr R P last. pose proof (omap_insert file_ip fs f fl (closed_file fl) Hf) as H1. pose proof (omap_insert file_end fs f fl (closed_file fl) Hf) as H2.
  unfold last. unfold closed_file in *. destruct (0 <? f_ref fl - 1); cbn [negb app] in *.
  - change (file_ip (set_fref (f_ref fl - 1) fl)) with (file_ip fl) in H1. change (file_end (set_fref (f_ref fl - 1) fl)) with (file_end fl) in H2.
    apply Permutation_app_inv_l in H1, H2. by rewrite H1, H2.
  - change (file_ip (set_ftype FD_NONE (set_fref 0 fl))) with (@None nat) in H1. change (file_end (set_ftype FD_NONE (set_fref 0 fl))) with (@None (Z * bool)) in H2.
    cbn [option_list app] in H1, H2. rewrite H1, H2. split; rewrite !app_assoc; by rewrite (Permutation_app_comm R), (Permutation_app_comm P) || rewrite (Permutation_app_comm R) || rewrite (Permutation_app_comm P).
Qed.
(** [fileclose] of a file that has one reference that is in no table. *)
Lemma close_file c d N R P f k s t cl : here c (k, s, t) → cl x = d → counted cl (k_procs k) (ft t) (one (Some f)) → is_Some (ft t !! f) →
  (∀ g, g ∈ N → g ≠ f ∧ ∃ fl, ft t !! g = Some fl ∧ f_ref fl = 1 ∧ f_type fl = FD_NONE) → holds false [] R P (k, s, t) →
  ord (λ _, has c d N false [] R P) (fileclose ftable_lock ftable f (k, s, t)).
Proof using FileLaws0 Hlk LensLaws0.
  intros (me & run & qs & c' & free & live & T & U & Hin & Hown) Hd Hc [fl Hf] HN Hh. pose proof Hin as [I1 I2 _ _ _ _]. cbn [fst snd] in *.
  pose proof (ct_ref _ _ _ _ Hc f fl Hf) as Hr. unfold one in Hr. rewrite decide_True in Hr by done. assert (1 ≤ f_ref fl) as Hr1 by lia.
  destruct (fileclose_ok me run Hlk f k k s t fl (only_hw_refl _ _ _ _ _ I2) Hf Hr1) as (k1 & t1 & E1 & Hk1 & Hs1 & Ht1). rewrite E1. clear E1.
  assert (alive c d N (k1, s, t1)) as Ha.
  { split; [by exists me, run, qs, c', free, live, T, U; split; [eapply in_kernel_hw|]|]. split.
    - exists cl. split; [done|]. destruct Hk1 as (h & -> & _). cbn [fst snd k_procs with_hw]. rewrite Ht1. eapply counted_ext; [apply (counted_file _ _ _ _ f fl _ Hc Hf)|].
      + unfold closed_file. destruct (Z.ltb_spec 0 (f_ref fl - 1)); simpl; [lia|done].
      + intros f'. cbv beta. unfold one. destruct (decide (f = f')) as [<-|Hne]; [rewrite decide_True by done|rewrite decide_False by congruence; lia].
        unfold closed_file. destruct (Z.ltb_spec 0 (f_ref fl - 1)); simpl; lia.
    - intros g Hg. destruct (HN g Hg) as (Hne & fg & H1 & H2). exists fg. cbn [snd]. by rewrite Ht1, list_lookup_insert_ne. }
  destruct (closed_move fl (ft t) f Hf Hr1 R P) as [M1 M2]. rewrite <- Ht1 in M1, M2. destruct Hk1 as (h1 & -> & Hok1). rewrite <- (upd_same x k) in Ha |- *.
  pose proof (fw_move false [] R _ P _ h1 id k s t t1 Hh ltac:(done) Hs1 M1 M2) as Hh1. clear M1 M2. unfold close_rest.
  destruct (0 <? f_ref fl - 1); cbn [negb app] in Hh1; [by split|].
  unfold file_ip, file_end in Hh1. destruct (f_type fl); cbn [option_list app] in Hh1; [by split|by apply (fw_pipe c d N R P)|].
  eapply orderly_bind; [exact (fl_begin_op (FsLaws := law c d N P) _ _ (conj Ha Hh1))|]. intros ? st2 H2. cbv beta in H2.
  eapply orderly_bind; [exact (fl_iput (FsLaws := law c d N P) [] _ R (f_ip fl) _ ltac:(done) H2)|]. intros ? st3 H3. cbv beta in H3.
  exact (fl_end_op (FsLaws := law c d N P) R _ H3).
Qed.

Lemma holds_file f fl fl' op L R P k k' s t t' me run : holds op L R P (k, s, t) → only_hw me run D k [] k' → same_rest t t' → ft t !! f = Some fl →
  ft t' = <[f := fl']> (ft t) → file_ip fl' = file_ip fl → file_end fl' = file_end fl → holds op L R P (k', s, t').
Proof using FileLaws0.
  intros H (h & -> & _) Hs Hf Ht H1 H2. rewrite <- (upd_same x k). eapply fw_move; [exact H|done|done| |]; rewrite Ht; apply Permutation_app_head.
  - pose proof (omap_insert file_ip _ f fl fl' Hf) as Hp. rewrite H1 in Hp. by apply Permutation_app_inv_l in Hp.
  - pose proof (omap_insert file_end _ f fl fl' Hf) as Hp. rewrite H2 in Hp. by apply Permutation_app_inv_l in Hp.
Qed.
Definition with_fd (fd : nat) (v : option nat) (c : proc) : proc := set_ofile (<[fd := v]> (p_ofile c)) c.
Lemma own_with_fd fd v c c' : own_part c = own_part c' → own_part (with_fd fd v c) = own_part (with_fd fd v c').
Proof. intros H. unfold with_fd. rewrite (own_field p_ofile c c' ltac:(done) H). by apply (own_set (set_ofile _)). Qed.
Lemma own_refs cl ps fs E c i f : counted cl ps fs E → ps !! x = Some c → listed (cl x) (p_ofile c) !! i = Some (Some f) → (0 < refs (tables cl ps) f)%nat ∧ is_Some (fs !! f).
Proof.
  intros Hc Hp Hi. pose proof (refs_own (tables cl ps) x _ f (tables_lookup cl ps x c Hp)). pose proof (cnt_pos _ f (list_elem_of_lookup_2 _ _ _ Hi)).
  split; [lia|]. apply (ct_dom _ _ _ _ Hc). lia.
Qed.
Lemma closing_same d (cl : nat → option nat) : closing x d cl x = d.
Proof. unfold closing. by rewrite decide_True. Qed.
(** [x] changes descriptor [fd] of its table. *)
Lemma set_fd_counted fd o v cl ps fs E c : cl x = None → counted cl ps fs E → ps !! x = Some c → p_ofile c !! fd = Some o → (∀ f, v = Some f → is_Some (fs !! f)) →
  counted (closing x None cl) (alter (with_fd fd v) x ps) fs (λ f, E f + one o f - one v f).
Proof.
  intros Hcl Hc Hp Ho Hv. rewrite (alter_insert_list _ _ _ c Hp). apply (counted_set cl ps fs E x None c (with_fd fd v c) fd o v Hc Hp); [by rewrite Hcl|by rewrite Hcl|done].
Qed.

(** A reference to [f], which [x] has already, goes to the free descriptor [fd]. *)
Lemma dup_to c op L R P fd f i k s t : has c None [] op L R P (k, s, t) → p_ofile c !! fd = Some None → p_ofile c !! i = Some (Some f) →
  ∃ k1 k2 t2, set_fd fd (Some f) (k, s, t) = Ret () (k1, s, t) ∧ filedup ftable_lock ftable f (k1, s, t) = Ret f (k2, s, t2) ∧
    has (with_fd fd (Some f) c) None [] op L R P (k2, s, t2).
Proof using FileLaws0 Hlk LensLaws0.
  intros [[(me & run & qs & c' & free & live & T & U & Hin & Hown) [(cl & Hcl & Hc) _]] Hh] Hfd Hi. cbn [fst snd] in *. pose proof Hin as [I1 I2 _ I4 _ _].
  rewrite <- (own_field p_ofile c' c ltac:(done) Hown) in Hfd, Hi. destruct (own_refs _ _ _ _ c' i f Hc I4) as [Hr Hf]; [by rewrite Hcl|].
  destruct (set_fd_hw me run I1 fd (Some f) k k s t c' (only_hw_refl _ _ _ _ _ I2) I4) as (k1 & E1 & Hk1). fold (with_fd fd (Some f)) in Hk1.
  pose proof (set_fd_counted fd None (Some f) cl _ _ _ c' Hcl Hc I4 Hfd ltac:(by intros ? [= <-])) as Hc1.
  pose proof (in_kernel_upd me run _ k k1 s qs c' free live T U Hin Hk1 ltac:(done)) as Hin1. pose proof Hin1 as [_ J2 _ J4 _ _].
  assert (k_procs k1 = alter (with_fd fd (Some f)) x (k_procs k)) as Ek1 by (by destruct Hk1 as (h & -> & _)).
  destruct (own_refs _ _ _ _ (with_fd fd (Some f) c') fd f Hc1) as [Hr1 _].
  { rewrite <- Ek1. exact J4. } { rewrite closing_same. cbn [listed with_fd p_ofile set_ofile]. apply list_lookup_insert_eq. by eapply lookup_lt_Some. }
  destruct (filedup_ok me run Hlk f k1 k1 s t _ _ _ (only_hw_refl _ _ _ _ _ J2) Hc1 Hr1) as (k2 & t2 & E2 & Hk2 & Hs2 & Hc2 & fl & Hfl & Ht2).
  { unfold one. rewrite decide_False, decide_True by done. lia. }
  { pose proof (refs_insert (tables cl (k_procs k)) x _ fd None (Some f) f (tables_lookup cl _ x c' I4)) as Hri. rewrite Hcl in Hri. specialize (Hri Hfd).
    rewrite (alter_insert_list _ _ _ c' I4), (tables_set cl _ x None c' _ I4). cbn [listed with_fd p_ofile set_ofile].
    unfold one in Hri |- *. rewrite decide_False, decide_True in Hri |- * by done. cbn [listed] in Hri. lia. }
  exists k1, k2, t2. split; [done|]. split; [done|]. split; [split; [|split; [|intros g Hg; by apply not_elem_of_nil in Hg]]|].
  - exists me, run, qs, (with_fd fd (Some f) c'), free, live, T, U. split; [by eapply in_kernel_hw|by apply own_with_fd].
  - exists (closing x None cl). split; [apply closing_same|]. destruct Hk2 as (h & -> & _). cbn [fst snd k_procs with_hw]. rewrite Ek1. eapply counted_ext; [exact Hc2|].
    intros f'. cbv beta. unfold one. rewrite decide_False by done. destruct (decide (f = f')) as [<-|Hne]; [by rewrite decide_True|]. rewrite decide_False by congruence. lia.
  - eapply holds_file; [|exact Hk2|exact Hs2|exact Hfl|exact Ht2|done|done]. by eapply holds_upd; [exact Hh|exact Hk1|].
Qed.
(** The reference of descriptor [fd] goes away. *)
Lemma close_fd c R P fd f k s t : has c None [] false [] R P (k, s, t) → p_ofile c !! fd = Some (Some f) →
  ∃ k1, set_fd fd None (k, s, t) = Ret () (k1, s, t) ∧ ord (λ _, has (with_fd fd None c) None [] false [] R P) (fileclose ftable_lock ftable f (k1, s, t)).
Proof using FileLaws0 Hlk LensLaws0.
  intros [[(me & run & qs & c' & free & live & T & U & Hin & Hown) [(cl & Hcl & Hc) _]] Hh] Hfd. cbn [fst snd] in *. pose proof Hin as [I1 I2 _ I4 _ _].
  rewrite <- (own_field p_ofile c' c ltac:(done) Hown) in Hfd. destruct (own_refs _ _ _ _ c' fd f Hc I4) as [Hr Hf]; [by rewrite Hcl|].
  destruct (set_fd_hw me run I1 fd None k k s t c' (only_hw_refl _ _ _ _ _ I2) I4) as (k1 & E1 & Hk1). fold (with_fd fd None) in Hk1. exists k1. split; [done|].
  pose proof (set_fd_counted fd (Some f) None cl _ _ _ c' Hcl Hc I4 Hfd ltac:(done)) as Hc1.
  pose proof (in_kernel_upd me run _ k k1 s qs c' free live T U Hin Hk1 ltac:(done)) as Hin1.
  eapply (close_file (with_fd fd None c) None [] R P f k1 s t (closing x None cl)); [|apply closing_same| |done|intros g Hg; by apply not_elem_of_nil in Hg|by eapply holds_upd; [exact Hh|exact Hk1|]].
  - exists me, run, qs, (with_fd fd None c'), free, live, T, U. split; [done|by apply own_with_fd].
  - destruct Hk1 as (h & -> & _). eapply counted_ext; [exact Hc1|]. intros f'. cbv beta. unfold one at 2. rewrite decide_False by done. lia.
Qed.

(** The arguments of the calls are words on the stack. *)
Definition fd_args (st : K) (a0 a1 : Z) : Prop := ∃ pr U, at_user kend x st.1.1 st.1.2 pr U ∧ arg_at pr U st.1.2 0 a0 ∧ arg_at pr U st.1.2 1 a1.
(** The file of descriptor [a], if it is one. *)
Definition fd_file (own : list (option nat)) (a : Z) : option nat :=
  if (a <? 0) || (Z.of_nat NOFILE <=? a) then None else mjoin (own !! Z.to_nat a).
Lemma fd_file_Some own a f : fd_file own a = Some f → 0 ≤ a < Z.of_nat NOFILE ∧ own !! Z.to_nat a = Some (Some f).
Proof.
  unfold fd_file. destruct (Z.ltb_spec a 0); [done|]. destruct (Z.leb_spec (Z.of_nat NOFILE) a); [done|]. simpl. intros Hf. split; [lia|].
  destruct (own !! Z.to_nat a) as [[g|]|]; simpl in Hf; congruence.
Qed.
(** Steps that change the CPU, or fields of the process. *)
Lemma has_hw c d N op L R P k k' s t me run qs c' free live T U : has c d N op L R P (k, s, t) →
  in_kernel kend D x me run k s qs c' free live T U → own_part c' = own_part c → only_hw me run D k [] k' → has c d N op L R P (k', s, t).
Proof using FileLaws0.
  intros [(_ & (cl & Hcl & Hc) & HN) Hh] Hin Hown Hk. split; [|by eapply holds_hw]. split; [|split; [|done]].
  - exists me, run, qs, c', free, live, T, U. split; [by eapply in_kernel_hw|done].
  - exists cl. split; [done|]. by destruct Hk as (h & -> & _).
Qed.
Lemma has_upd g c d N op L R P k k' s t me run qs c' free live T U : has c d N op L R P (k, s, t) → in_kernel kend D x me run k s qs c' free live T U → own_part c' = own_part c →
  only_hw me run D (Life.upd x g k) [] k' → (∀ p, own_part (g p) = g (own_part p)) →
  (∀ p, p_sigprio (g p) = p_sigprio p ∧ p_state (g p) = p_state p ∧ p_prio (g p) = p_prio p ∧ p_pgdir (g p) = p_pgdir p) →
  (∀ p, p_pid (g p) = p_pid p ∧ p_ofile (g p) = p_ofile p) → has (g c) d N op L R P (k', s, t).
Proof using FileLaws0.
  intros [(_ & (cl & Hcl & Hc) & HN) Hh] Hin Hown Hk Hg1 Hg2 Hg3. split; [|eapply holds_upd; [exact Hh|exact Hk|intros p; destruct (Hg2 p) as (_ & ? & _), (Hg3 p) as [? _]; done]].
  pose proof (in_proc _ _ _ _ _ _ _ _ _ _ _ _ _ Hin) as Hp. split; [|split; [|done]].
  - exists me, run, qs, (g c'), free, live, T, U. split; [by eapply in_kernel_upd|by apply own_set].
  - exists cl. split; [done|]. destruct Hk as (h & -> & _). cbn [fst snd k_procs with_hw Life.upd with_procs] in *.
    apply (counted_same cl cl (k_procs k)); [done| |].
    + apply list_eq. intros j. unfold tables. rewrite !list_lookup_imap, lookup_alter_list. case_decide as Hj; [|done]. destruct (k_procs k !! j) as [p|]; [|done].
      simpl. by rewrite (proj2 (Hg3 p)).
    + apply Forall_lookup. intros j p. rewrite lookup_alter_list. pose proof (proj2 (ct_len _ _ _ _ Hc)) as Hl. case_decide; [|intros Hj; exact (Forall_lookup_1 _ _ _ _ Hl Hj)].
      destruct (k_procs k !! j) as [q|] eqn:Eq; [|done]. intros [= <-]. rewrite (proj2 (Hg3 q)). by apply (Forall_lookup_1 _ _ _ _ Hl Eq).
Qed.
Lemma argint_has n v c d N op L R P k s t : has c d N op L R P (k, s, t) → (∃ pr U, at_user kend x k s pr U ∧ arg_at pr U s n v) →
  ∃ h, argint kend n (k, s, t) = Ret (Some v) (with_hw h k, s, t) ∧ has c d N op L R P (with_hw h k, s, t).
Proof using FileLaws0.
  intros Hh (pr & U & Hu & Ha). pose proof Hh as [[(me & run & qs & c' & free & live & T & U' & Hin & Hown) _] _]. pose proof Hin as [I1 I2 _ _ _ _].
  destruct (argint_at kend me run D x [] I1 n v k k s t pr U (only_hw_refl _ _ _ _ _ I2) Hu Ha) as (k' & E & Hk').
  pose proof Hk' as (h & -> & _). exists h. split; [done|]. by eapply has_hw.
Qed.
Lemma my_has {A} (f : proc → A) c d N op L R P k s t : (∀ c, f (own_part c) = f c) → has c d N op L R P (k, s, t) →
  ∃ h, my f (k, s, t) = Ret (f c) (with_hw h k, s, t) ∧ has c d N op L R P (with_hw h k, s, t).
Proof using FileLaws0.
  intros Hf Hh. pose proof Hh as [[(me & run & qs & c' & free & live & T & U' & Hin & Hown) _] _]. pose proof Hin as [I1 I2 _ I4 _ _].
  destruct (my_ok me run D x [] I1 f k k s t c' (only_hw_refl _ _ _ _ _ I2) I4) as (k' & E & Hk').
  pose proof Hk' as (h & -> & _). exists h. split; [by rewrite <- (own_field f c' c Hf Hown)|]. by eapply has_hw.
Qed.
Definition ofile_has := λ c d N op L R P k s t, my_has p_ofile c d N op L R P k s t (λ _, eq_refl).
Lemma args_hw h k s t a0 a1 : fd_args (k, s, t) a0 a1 → fd_args (with_hw h k, s, t) a0 a1.
Proof. intros (pr & U & [H1 H2 H3] & Ha). by exists pr, U. Qed.
Lemma argfd_has a0 a1 c d N op L R P k s t : has c d N op L R P (k, s, t) → fd_args (k, s, t) a0 a1 →
  ∃ h, argfd kend 0 (k, s, t) = Ret ((λ f, (a0, f)) <$> fd_file (p_ofile c) a0) (with_hw h k, s, t) ∧ has c d N op L R P (with_hw h k, s, t).
Proof using FileLaws0.
  intros Ha (pr & U & Hu & H0 & _). unfold argfd. destruct (argint_has 0 a0 _ _ _ _ _ _ _ k s t Ha ltac:(by exists pr, U)) as (h1 & E1 & Ha1). run E1.
  unfold fd_file. destruct ((a0 <? 0) || (Z.of_nat NOFILE <=? a0)); [by exists h1|].
  destruct (ofile_has _ _ _ _ _ _ _ _ s t Ha1) as (h2 & E2 & Ha2). run E2. exists h2. split; [|done]. by destruct (p_ofile c !! Z.to_nat a0) as [[f|]|].
Qed.

(** What the calls do to the table of the process. *)
Definition dup_spec (own : list (option nat)) (a0 r : Z) (own' : list (option nat)) : Prop :=
  match fd_file own a0, first_idx (λ o, bool_decide (o = None)) own with
  | Some f, Some fd => r = Z.of_nat fd ∧ own' = <[fd := Some f]> own
  | _, _ => r = -1 ∧ own' = own
  end.
Definition dup2_spec (own : list (option nat)) (a0 a1 r : Z) (own' : list (option nat)) : Prop :=
  match fd_file own a0 with
  | Some f => if (a1 <? 0) || (Z.of_nat NOFILE <=? a1) then r = -1 ∧ own' = own else r = a1 ∧ own' = <[Z.to_nat a1 := Some f]> own
  | None => r = -1 ∧ own' = own
  end.
Definition close_spec (own : list (option nat)) (a0 r : Z) (own' : list (option nat)) : Prop :=
  match fd_file own a0 with
  | Some f => r = 0 ∧ own' = <[Z.to_nat a0 := None]> own
  | None => r = -1 ∧ own' = own
  end.
(** The process with another table. *)
Definition becomes (c : proc) (R : list nat) (P : list (Z * bool)) (spec : Z → list (option nat) → Prop) (r : Z) (st : K) : Prop :=
  ∃ own', spec r own' ∧ has (set_ofile own' c) None [] false [] R P st.
Lemma has_same c d N op L R P st : has c d N op L R P st → has (set_ofile (p_ofile c) c) d N op L R P st.
Proof. by destruct c. Qed.
Lemma sys_dup_ok c R P st a0 a1 : has c None [] false [] R P st → fd_args st a0 a1 → length (p_ofile c) = NOFILE →
  ∃ r st', sys_dup kend ftable_lock ftable st = Ret r st' ∧ becomes c R P (dup_spec (p_ofile c) a0) r st'.
Proof using FileLaws0 Hlk LensLaws0.
  destruct st as [[k s] t]. intros Ha Hargs Hlen. unfold sys_dup, becomes, dup_spec. destruct (argfd_has a0 a1 _ _ _ _ _ _ _ k s t Ha Hargs) as (h1 & E1 & Ha1). run E1.
  destruct (fd_file (p_ofile c) a0) as [f|] eqn:Ef; simpl; [|eexists _, _; split; [done|]; exists (p_ofile c); split; [done|by apply has_same]]. apply fd_file_Some in Ef as [Hr Hf].
  unfold fdalloc. destruct (ofile_has _ _ _ _ _ _ _ _ s t Ha1) as (h2 & E2 & Ha2). run2 E2. rewrite take_ge by lia.
  destruct (first_idx _ (p_ofile c)) as [fd|] eqn:Ei.
  2:{ run (eq_refl : ret (-1) (with_hw h2 (with_hw h1 k), s, t) = _). eexists _, _. split; [done|]. exists (p_ofile c). split; [done|by apply has_same]. }
  apply first_idx_Some in Ei as [(o & Ho & ->%bool_decide_eq_true_1) _].
  destruct (dup_to c _ _ _ _ fd f (Z.to_nat a0) _ s t Ha2 Ho Hf) as (k3 & k4 & t' & E3 & E4 & Ha4). run2 E3.
  run (eq_refl : ret (Z.of_nat fd) (k3, s, t) = Ret (Z.of_nat fd) (k3, s, t)). rewrite (proj2 (Z.ltb_ge (Z.of_nat fd) 0)) by lia. run E4. eexists _, _. split; [done|]. by eexists.
Qed.
Lemma sys_close_ok c R P st a0 a1 : has c None [] false [] R P st → fd_args st a0 a1 →
  ord (becomes c R P (close_spec (p_ofile c) a0)) (sys_close kend ftable_lock ftable st).
Proof using FileLaws0 Hlk LensLaws0.
  destruct st as [[k s] t]. intros Ha Hargs. unfold sys_close, becomes, close_spec. destruct (argfd_has a0 a1 _ _ _ _ _ _ _ k s t Ha Hargs) as (h1 & E1 & Ha1). run E1.
  destruct (fd_file (p_ofile c) a0) as [f|] eqn:Ef; simpl; [|exists (p_ofile c); split; [done|by apply has_same]]. apply fd_file_Some in Ef as [Hr Hf].
  destruct (close_fd c R P (Z.to_nat a0) f _ s t Ha1 Hf) as (k2 & E2 & H). run E2.
  eapply orderly_bind; [exact H|]. intros ? st' Hst. cbv beta in Hst. by eexists.
Qed.
Lemma sys_dup2_ok c R P st a0 a1 : has c None [] false [] R P st → fd_args st a0 a1 → length (p_ofile c) = NOFILE →
  ord (becomes c R P (dup2_spec (p_ofile c) a0 a1)) (sys_dup2 kend ftable_lock ftable st).
Proof using FileLaws0 Hlk LensLaws0.
  destruct st as [[k s] t]. intros Ha Hargs Hlen. unfold sys_dup2, becomes, dup2_spec. destruct (argfd_has a0 a1 _ _ _ _ _ _ _ k s t Ha Hargs) as (h1 & E1 & Ha1). run E1.
  destruct (fd_file (p_ofile c) a0) as [f|] eqn:Ef; cbn [fmap option_fmap option_map]; [|exists (p_ofile c); split; [done|by apply has_same]]. apply fd_file_Some in Ef as [Hr Hf].
  destruct (argint_has 1 a1 _ _ _ _ _ _ _ _ s t Ha1) as (h2 & E2 & Ha2). { destruct (args_hw h1 _ _ _ _ _ Hargs) as (pr & U & Hu & _ & H1). by exists pr, U. } run E2.
  destruct ((a1 <? 0) || (Z.of_nat NOFILE <=? a1)) eqn:Er; [exists (p_ofile c); split; [done|by apply has_same]|]. apply orb_false_iff in Er as [Er1%Z.ltb_ge Er2%Z.leb_gt].
  destruct (ofile_has _ _ _ _ _ _ _ _ s t Ha2) as (h3 & E3 & Ha3). run E3. set (gd := Z.to_nat a1).
  destruct (lookup_lt_is_Some_2 (p_ofile c) gd) as [g Hg]; [unfold gd; lia|]. rewrite Hg. cbn [mjoin option_join].
  case_bool_decide as Hsame; [subst g; exists (p_ofile c); split; [|by apply has_same]; split; [done|]; by rewrite list_insert_id|].
  assert (∀ st', has (with_fd gd None c) None [] false [] R P st' → ord (λ r st'', ∃ own', (r = a1 ∧ own' = <[gd := Some f]> (p_ofile c)) ∧ has (set_ofile own' c) None [] false [] R P st'')
    ((set_fd gd (Some f) ;;; filedup ftable_lock ftable f ;;; ret a1) st')) as Hrest.
  { intros [[k4 s4] t4] Ha4. assert (gd ≠ Z.to_nat a0) as Hne by (intros He; rewrite He, Hf in Hg; congruence).
    destruct (dup_to _ _ _ _ _ gd f (Z.to_nat a0) k4 s4 t4 Ha4) as (k5 & k6 & t5 & E5 & E6 & Ha6).
    - apply list_lookup_insert_eq. by eapply lookup_lt_Some.
    - cbn [with_fd p_ofile set_ofile]. by rewrite list_lookup_insert_ne by done.
    - run E5. run E6. eexists. split; [done|]. unfold with_fd in Ha6. cbn [p_ofile set_ofile] in Ha6. by rewrite list_insert_insert_eq in Ha6. }
  destruct g as [g|].
  - destruct (close_fd c R P gd g _ s t Ha3 Hg) as (k4 & E4 & H4). run2 E4. eapply orderly_bind; [exact H4|]. intros ? st' Hst. by apply Hrest.
  - erewrite bind_Ret; [|reflexivity]. apply Hrest. unfold with_fd. rewrite list_insert_id by done. by apply has_same.
Qed.

(** ** [open] and [chdir] *)
Lemma has_file c d N op L R P k s t t' f fl fl' : has c d N op L R P (k, s, t) → same_rest t t' → ft t !! f = Some fl → ft t' = <[f := fl']> (ft t) → f_ref fl' = f_ref fl → f_ref fl ≠ 0 →
  (∀ g, g ∈ N → g ≠ f) → alive c d N (k, s, t').
Proof.
  intros [(H1 & (cl & Hcl & Hc) & HN) _] Hs Hf Ht Hr H0 Hg. split; [done|]. split.
  - exists cl. split; [done|]. cbn [fst snd] in *. rewrite Ht. eapply counted_ext; [apply (counted_file _ _ _ _ f fl fl' Hc Hf); lia|]. intros f'. cbv beta. case_decide; lia.
  - intros g Hgn. destruct (HN g Hgn) as (fg & ? & ?). exists fg. cbn [snd] in *. rewrite Ht, list_lookup_insert_ne by (intros ->; by apply (Hg g)). done.
Qed.
(** What [open] makes of a new file. *)
Definition opened (ip : nat) (omode : Z) (fl : file) : file :=
  set_writable (negb (Z.land omode O_WRONLY =? 0) || negb (Z.land omode O_RDWR =? 0)) (set_readable (Z.land omode O_WRONLY =? 0) (set_off 0 (set_ip ip (set_ftype FD_INODE fl)))).
Lemma open_fill f ip omode (fd : Z) (k : kproc) (s : kmem) t fl : ft t !! f = Some fl →
  ∃ t', (upd_file ftable f (set_ftype FD_INODE) ;;; upd_file ftable f (set_ip ip) ;;; upd_file ftable f (set_off 0) ;;;
    upd_file ftable f (set_readable (Z.land omode O_WRONLY =? 0)) ;;;
    upd_file ftable f (set_writable (negb (Z.land omode O_WRONLY =? 0) || negb (Z.land omode O_RDWR =? 0))) ;;; ret fd) (k, s, t) = Ret fd (k, s, t') ∧
    same_rest t t' ∧ ft t' = <[f := opened ip omode fl]> (ft t).
Proof using LensLaws0.
  intros Hf. pose proof (lookup_lt_Some _ _ _ Hf) as Hlt. assert (∀ t' fl', ft t' = <[f := fl']> (ft t) → ft t' !! f = Some fl') as Hl by (intros t' fl' ->; by apply list_lookup_insert_eq).
  assert (∀ g t' fl', same_rest t t' → ft t' = <[f := fl']> (ft t) → ∃ t'', upd_file ftable f g (k, s, t') = Ret () (k, s, t'') ∧ same_rest t t'' ∧ ft t'' = <[f := g fl']> (ft t)) as Hu.
  { intros g t' fl' Hs Ht. destruct (upd_file_ok f g k s t' fl' (Hl _ _ Ht)) as (t'' & E & Hs' & Ht''). exists t''. split; [done|]. split; [by eapply same_rest_trans|].
    by rewrite Ht'', Ht, list_insert_insert_eq. }
  destruct (upd_file_ok f (set_ftype FD_INODE) k s t fl Hf) as (t1 & E1 & S1 & T1). run E1. destruct (Hu (set_ip ip) t1 _ S1 T1) as (t2 & E2 & S2 & T2). run E2.
  destruct (Hu (set_off 0) t2 _ S2 T2) as (t3 & E3 & S3 & T3). run E3. destruct (Hu (set_readable (Z.land omode O_WRONLY =? 0)) t3 _ S3 T3) as (t4 & E4 & S4 & T4). run E4.
  destruct (Hu (set_writable (negb (Z.land omode O_WRONLY =? 0) || negb (Z.land omode O_RDWR =? 0))) t4 _ S4 T4) as (t5 & E5 & S5 & T5). run E5. by exists t5.
Qed.
Definition open_spec (c : proc) (R : list nat) (P : list (Z * bool)) (omode r : Z) (st : K) : Prop :=
  r = -1 ∧ has c None [] false [] R P st ∨
  ∃ fd f ip fl, r = Z.of_nat fd ∧ first_idx (λ o, bool_decide (o = None)) (p_ofile c) = Some fd ∧ has (with_fd fd (Some f) c) None [] false [] R P st ∧
    f_ref fl = 1 ∧ ft st.2 !! f = Some (opened ip omode fl).
Abbreviation hs c d N P := (λ op L R st, alive c d N st ∧ holds op L R P st).
(** A new file, and no descriptor for it. *)
Lemma open_undo c R P ip f fl k s t cl : here c (k, s, t) → cl x = None → counted cl (k_procs k) (ft t) (one (Some f)) → ft t !! f = Some fl → f_ref fl = 1 → f_type fl = FD_NONE →
  holds true [ip] (ip :: R) P (k, s, t) → ord (λ r st', r = -1 ∧ has c None [] false [] R P st') (open_bad ftable_lock ftable (Some f) ip (k, s, t)).
Proof using FileLaws0 Hlk LensLaws0.
  intros (me & run & qs & c' & free & live & T & U & Hin & Hown) Hcl Hc Hf Hr Hty Hh. cbn [fst snd] in *. pose proof Hin as [I1 I2 _ _ _ _]. unfold open_bad.
  destruct (fileclose_ok me run Hlk f k k s t fl (only_hw_refl _ _ _ _ _ I2) Hf ltac:(lia)) as (k1 & t1 & E1 & Hk1 & Hs1 & Ht1).
  assert (closed_file fl = set_ftype FD_NONE (set_fref 0 fl)) as Ecl by (unfold closed_file; by rewrite Hr). rewrite Ecl in Ht1.
  assert (fileclose ftable_lock ftable f (k, s, t) = Ret () (k1, s, t1)) as E2 by (rewrite E1; unfold close_rest; rewrite Hr, Hty; done). run E2.
  assert (alive c None [] (k1, s, t1)) as Ha.
  { split; [exists me, run, qs, c', free, live, T, U; split; [by eapply in_kernel_hw|done]|]. split; [|intros g Hg; by apply not_elem_of_nil in Hg]. exists cl. split; [done|].
    destruct Hk1 as (h & -> & _). cbn [fst snd k_procs with_hw]. rewrite Ht1. eapply counted_ext; [by apply (counted_file _ _ _ _ f fl _ Hc Hf)|].
    intros f'. cbv beta. unfold one. destruct (decide (f = f')) as [<-|Hne]; [rewrite decide_True by done; simpl; lia|rewrite decide_False by congruence; lia]. }
  apply (fail_ok parked back (hs c None [] P) view [ip] (ip :: R) R ip (-1)); [done|done|].
  split; [exact Ha|]. eapply holds_file; [exact Hh|exact Hk1|exact Hs1|exact Hf|exact Ht1| |]; unfold file_ip, file_end; simpl; by rewrite Hty.
Qed.
(** A new file that is the inode [ip]. *)
Lemma open_end c R P ip f fd omode st : has (with_fd fd (Some f) c) None [f] true [ip] (ip :: R) P st →
  first_idx (λ o, bool_decide (o = None)) (p_ofile c) = Some fd →
  ord (open_spec c R P omode) ((k_iunlock ip ;;; k_end_op ;;;
    upd_file ftable f (set_ftype FD_INODE) ;;; upd_file ftable f (set_ip ip) ;;; upd_file ftable f (set_off 0) ;;;
    upd_file ftable f (set_readable (Z.land omode O_WRONLY =? 0)) ;;;
    upd_file ftable f (set_writable (negb (Z.land omode O_WRONLY =? 0) || negb (Z.land omode O_RDWR =? 0))) ;;; ret (Z.of_nat fd)) st).
Proof using FileLaws0 LensLaws0.
  intros Hst Hfd. set (c1 := with_fd fd (Some f) c) in *.
  eapply orderly_bind; [exact (fl_iunlock (FsLaws := law c1 None [f] P) [ip] [] _ ip _ ltac:(done) Hst)|]. intros ? st1 H1. cbv beta in H1.
  eapply orderly_bind; [exact (fl_end_op (FsLaws := law c1 None [f] P) _ _ H1)|]. intros ? [[k s] t] H2. cbv beta in H2.
  pose proof H2 as [(_ & _ & HN) Hh]. destruct (HN f) as (fl & Hf & Hr & Hty); [left|]. cbn [snd] in Hf.
  destruct (open_fill f ip omode (Z.of_nat fd) k s t fl Hf) as (t' & E & Hs & Ht). rewrite E. right. exists fd, f, ip, fl. split; [done|]. split; [done|].
  assert (has c1 None [] false [] (ip :: R) P (k, s, t)) as H3 by (destruct H2 as [(A1 & A2 & _) ?]; split; [|done]; split; [done|]; split; [done|]; intros g Hg; by apply not_elem_of_nil in Hg).
  split; [|split; [done|]; cbn [snd]; rewrite Ht; apply list_lookup_insert_eq; by eapply lookup_lt_Some].
  split; [eapply has_file; [exact H3|exact Hs|exact Hf|exact Ht|done|lia|intros g Hg; by apply not_elem_of_nil in Hg]|].
  pose proof H3 as [[(me & run & qs & c' & free & live & T & U & Hin & _) _] _]. cbn [fst snd] in Hin. pose proof (only_hw_refl _ _ _ _ _ (in_hw _ _ _ _ _ _ _ _ _ _ _ _ _ Hin)) as (h & Ek & _).
  rewrite Ek, <- (upd_same x k). eapply fw_move; [exact Hh|done|exact Hs| |].
  - rewrite Ht. pose proof (omap_insert file_ip _ f fl (opened ip omode fl) Hf) as Hp. unfold file_ip at 1 3 in Hp. rewrite Hty in Hp. simpl in Hp. rewrite <- Hp. apply Permutation_middle.
  - rewrite Ht. pose proof (omap_insert file_end _ f fl (opened ip omode fl) Hf) as Hp. unfold file_end at 1 3 in Hp. rewrite Hty in Hp. simpl in Hp. by rewrite Hp.
Qed.
Lemma open_ok c R P path omode st : has c None [] false [] R P st → length (p_ofile c) = NOFILE →
  ord (open_spec c R P omode) (open ftable_lock ftable path omode st).
Proof using FileLaws0 Hlk LensLaws0.
  intros Hst Hlen. unfold open. eapply orderly_bind; [exact (fl_begin_op (FsLaws := law c None [] P) R _ Hst)|]. intros ? st1 H1. cbv beta in H1.
  eapply orderly_bind; [exact (open_inode_ok parked back (hs c None [] P) view R path omode st1 H1)|]. intros [ip|] st2 H2; [|by left]. unfold locked in H2. cbn [option_list app] in H2.
  destruct st2 as [[k s] t]. pose proof H2 as [[(me & run & qs & c' & free & live & T & U & Hin & Hown) [(cl & Hcl & Hc) _]] Hh]. cbn [fst snd] in *. pose proof Hin as [I1 I2 _ _ _ _].
  destruct (filealloc_ok me run Hlk k k s t (only_hw_refl _ _ _ _ _ I2)) as (r & k1 & t1 & E1 & Hk1 & Hs1 & Hr). run E1.
  pose proof (in_kernel_hw me run _ _ _ _ _ _ _ _ _ Hin Hk1) as Hin1. pose proof Hin1 as [_ J2 _ J4 _ _]. destruct r as [f|].
  2:{ subst t1. unfold open_bad. erewrite bind_Ret; [|reflexivity]. eapply orderly_mono; [apply (fail_ok parked back (hs c None [] P) view [ip] (ip :: R) R ip (-1)); [done|done|]|].
      - by eapply has_hw.
      - intros r st' [-> H]. by left. }
  destruct Hr as (fl & Hf & Hr & Ht1). pose proof (ct_none _ _ _ _ Hc f fl Hf Hr) as Hty. pose proof (lookup_lt_Some _ _ _ Hf) as Hlt.
  assert (ft t1 !! f = Some (set_fref 1 fl)) as Hf1 by (by rewrite Ht1, list_lookup_insert_eq).
  assert (k_procs k1 = k_procs k) as Ek1 by (by destruct Hk1 as (h & -> & _)).
  assert (counted cl (k_procs k1) (ft t1) (one (Some f))) as Hc1.
  { rewrite Ek1, Ht1. eapply counted_ext; [by apply (counted_file _ _ _ _ f fl _ Hc Hf)|]. intros f'. cbv beta. unfold one. destruct (decide (f = f')) as [<-|Hne]; [rewrite decide_True by done; simpl; lia|by rewrite decide_False by congruence]. }
  assert (holds true [ip] (ip :: R) P (k1, s, t1)) as Hh1 by (eapply holds_file; [exact Hh|exact Hk1|exact Hs1|exact Hf|exact Ht1|done|done]).
  destruct (fdalloc_ok me run I1 f k1 k1 s t1 c' (only_hw_refl _ _ _ _ _ J2) J4) as (r & k2 & E2 & Hr2). run E2.
  rewrite (own_field p_ofile c' c ltac:(done) Hown), take_ge in Hr2 by lia. destruct (first_idx _ (p_ofile c)) as [fd|] eqn:Ei.
  2:{ destruct Hr2 as [-> Hk2]. cbn [Z.ltb Z.compare]. pose proof (in_kernel_hw me run _ _ _ _ _ _ _ _ _ Hin1 Hk2) as Hin2.
      eapply orderly_mono; [apply (open_undo c R P ip f (set_fref 1 fl) k2 s t1 cl); try done|].
      - by exists me, run, qs, c', free, live, T, U.
      - by destruct Hk2 as (h & -> & _).
      - by eapply holds_hw.
      - intros r st' H. by left. }
  destruct Hr2 as [-> Hk2]. fold (with_fd fd (Some f)) in Hk2. rewrite (proj2 (Z.ltb_ge (Z.of_nat fd) 0)) by lia. pose proof Ei as [(o & Ho & ->%bool_decide_eq_true_1) _]%first_idx_Some.
  apply (open_end c R P ip f fd omode (k2, s, t1)); [|done]. split; [|by eapply holds_upd; [exact Hh1|exact Hk2|]]. split; [|split].
  - exists me, run, qs, (with_fd fd (Some f) c'), free, live, T, U. split; [by eapply in_kernel_upd|by apply own_with_fd].
  - exists (closing x None cl). split; [apply closing_same|]. destruct Hk2 as (h & -> & _). cbn [fst snd k_procs with_hw Life.upd with_procs].
    eapply counted_ext; [apply (set_fd_counted fd None (Some f) cl _ _ _ c' Hcl Hc1 J4)|].
    + by rewrite (own_field p_ofile c' c ltac:(done) Hown).
    + intros ? [= <-]. by eexists.
    + intros f'. cbv beta. unfold one at 2. rewrite decide_False by done. lia.
  - intros g ->%list_elem_of_singleton. by exists (set_fref 1 fl).
Qed.
Lemma chdir_ok c cwd R P path st : has c None [] true [] (cwd :: R) P st → p_cwd c = Some cwd →
  ord (λ r st', r = -1 ∧ has c None [] false [] (cwd :: R) P st' ∨ r = 0 ∧ ∃ ip, has (set_cwd (Some ip) c) None [] false [] (ip :: R) P st') (chdir path st).
Proof using FileLaws0.
  intros Hst Hcwd. unfold chdir. eapply (orderly_bind _ _ _ (λ r, has c None [] true [] (option_list r ++ cwd :: R) P)).
  { destruct path as [path|]; [exact (fl_namei (FsLaws := law c None [] P) _ path _ Hst)|done]. }
  intros [ip|] st1 H1; cbn [option_list app] in H1.
  2:{ eapply orderly_mono; [exact (end_ok parked back (hs c None [] P) view (cwd :: R) (-1) st1 H1)|]. intros r st' [-> H]. by left. }
  eapply orderly_bind; [exact (fl_ilock (FsLaws := law c None [] P) _ _ ip _ ltac:(left) H1)|]. intros ? st2 H2. cbv beta in H2.
  run (fl_inode (FsLaws := law c None [] P) _ _ ip _ ltac:(left) H2). case_match.
  { eapply orderly_mono; [exact (fail_ok parked back (hs c None [] P) view [ip] _ (cwd :: R) ip (-1) st2 ltac:(done) ltac:(done) H2)|]. intros r st' [-> H']. by left. }
  eapply orderly_bind; [exact (fl_iunlock (FsLaws := law c None [] P) [ip] [] _ ip _ ltac:(done) H2)|]. intros ? [[k s] t] H3. cbv beta in H3.
  destruct (my_has p_cwd c None [] true [] (ip :: cwd :: R) P k s t ltac:(done) H3) as (h & E4 & H4). run E4. rewrite Hcwd. erewrite (bind_Ret (deref (Some cwd))); [|reflexivity].
  eapply orderly_bind; [exact (fl_iput (FsLaws := law c None [] P) [] _ (ip :: R) cwd _ ltac:(apply Permutation_swap) H4)|]. intros ? st5 H5. cbv beta in H5.
  eapply orderly_bind; [exact (fl_end_op (FsLaws := law c None [] P) _ _ H5)|]. intros ? [[k6 s6] t6] H6. cbv beta in H6.
  pose proof H6 as [[(me & run & qs & c' & free & live & T & U & Hin & Hown) _] _]. cbn [fst snd] in Hin. pose proof Hin as [I1 I2 _ I4 _ _].
  destruct (upd_my_ok me run D x [] I1 (set_cwd (Some ip)) k6 k6 s6 t6 c' (only_hw_refl _ _ _ _ _ I2) I4) as (k7 & E7 & Hk7). run E7. right. split; [done|]. exists ip.
  by eapply (has_upd (set_cwd (Some ip))).
Qed.

(** ** [exit] *)
#[local] Instance exit_FileOps : FileOps K := file_FileOps ftable_lock ftable.
(** One descriptor: the file is closed before the table forgets it. *)
Lemma exit_fd c R P fd f k s t : has c None [] false [] R P (k, s, t) → p_ofile c !! fd = Some (Some f) →
  ord (λ _, has (with_fd fd None c) None [] false [] R P)
    ((fileclose ftable_lock ftable f ;;; kp (upd_proc x (λ p, set_ofile (<[fd := None]> (p_ofile p)) p))) (k, s, t)).
Proof using FileLaws0 Hlk LensLaws0.
  intros [[Hhere [(cl & Hcl & Hc) _]] Hh] Hfd. cbn [fst snd] in *. pose proof Hhere as (me & run & qs & c' & free & live & T & U & Hin & Hown). cbn [fst snd] in Hin.
  pose proof Hin as [_ _ _ I4 _ _]. rewrite <- (own_field p_ofile c' c ltac:(done) Hown) in Hfd. destruct (own_refs _ _ _ _ c' fd f Hc I4) as [_ Hf]; [by rewrite Hcl|].
  eapply orderly_bind; [apply (close_file c (Some fd) [] R P f k s t (closing x (Some fd) cl)); [done|apply closing_same| |done|intros g Hg; by apply not_elem_of_nil in Hg|done]|].
  { rewrite <- (list_insert_id (k_procs k) x c' I4). eapply counted_ext; [apply (counted_set cl _ _ _ x (Some fd) c' c' fd (Some f) None Hc I4)|].
    - by rewrite Hcl.
    - by rewrite Hcl.
    - done.
    - intros f'. cbv beta. unfold one at 2. rewrite decide_False by done. lia. }
  intros ? [[k1 s1] t1] [[(me1 & run1 & qs1 & c1 & free1 & live1 & T1 & U1 & Hin1 & Hown1) [(cl1 & Hcl1 & Hc1) _]] Hh1]. cbn [fst snd] in *. pose proof Hin1 as [_ J2 _ J4 _ _].
  destruct (kp_upd_ok me1 run1 D x (with_fd fd None) [] k1 k1 s1 t1 c1 (only_hw_refl _ _ _ _ _ J2) J4) as (k2 & E2 & Hk2). unfold with_fd in E2. rewrite E2.
  split; [|by eapply holds_upd; [exact Hh1|exact Hk2|]]. split; [|split; [|intros g Hg; by apply not_elem_of_nil in Hg]].
  - exists me1, run1, qs1, (with_fd fd None c1), free1, live1, T1, U1. split; [by eapply in_kernel_upd|by apply own_with_fd].
  - exists (closing x None cl1). split; [apply closing_same|]. destruct Hk2 as (h & -> & _). cbn [fst snd k_procs with_hw Life.upd with_procs].
    rewrite (alter_insert_list _ _ _ c1 J4). apply (counted_same cl1 _ (k_procs k1)); [done| |].
    + rewrite (tables_set cl1 _ x None c1 _ J4). apply list_insert_id. rewrite (tables_lookup cl1 _ x c1 J4), Hcl1. done.
    + pose proof (proj2 (ct_len _ _ _ _ Hc1)) as Hl. apply Forall_insert; [done|]. unfold with_fd. cbn [p_ofile set_ofile]. rewrite length_insert. exact (Forall_lookup_1 _ _ _ _ Hl J4).
Qed.
Lemma exit_files_ok R P n : ∀ fd c st, (fd + n = NOFILE)%nat → length (p_ofile c) = NOFILE → has c None [] false [] R P st →
  ord (λ _, has (set_ofile (take fd (p_ofile c) ++ replicate n None) c) None [] false [] R P) (exit_files n fd x st).
Proof using FileLaws0 Hlk LensLaws0.
  induction n as [|n IH]; intros fd c [[k s] t] Hn Hlen Hst; cbn [exit_files].
  { cbn [replicate]. rewrite app_nil_r, take_ge by lia. by apply has_same. }
  pose proof Hst as [[(me & run & qs & c' & free & live & T & U & Hin & Hown) _] _]. cbn [fst snd] in Hin. pose proof Hin as [_ I2 _ I4 _ _].
  run (kp_get_ok me run D x [] k k s t c' (only_hw_refl _ _ _ _ _ I2) I4). rewrite (own_field p_ofile c' c ltac:(done) Hown).
  destruct (lookup_lt_is_Some_2 (p_ofile c) fd) as [o Ho]; [lia|]. rewrite Ho.
  assert (∀ l, take (S fd) (<[fd := None]> (p_ofile c)) ++ l = take fd (p_ofile c) ++ None :: l) as El.
  { intros l. rewrite (take_S_r _ _ None) by (apply list_lookup_insert_eq; lia). rewrite take_insert_ge by lia. by rewrite <- app_assoc. }
  assert (∀ st', has (with_fd fd None c) None [] false [] R P st' → ord (λ _, has (set_ofile (take fd (p_ofile c) ++ replicate (S n) None) c) None [] false [] R P) (exit_files n (S fd) x st')) as Hrest.
  { intros st' Hst'. specialize (IH (S fd) (with_fd fd None c) st' ltac:(lia)). unfold with_fd in IH. cbn [p_ofile set_ofile] in IH. rewrite length_insert, El in IH. by apply IH. }
  destruct o as [f|].
  - eapply orderly_bind; [exact (exit_fd c R P fd f k s t Hst Ho)|]. intros ? st' Hst'. by apply Hrest.
  - erewrite bind_Ret; [|reflexivity]. apply Hrest. unfold with_fd. rewrite list_insert_id by done. by apply has_same.
Qed.
(** The process without its files and its directory. *)
Definition stripped (c : proc) : proc := set_cwd None (set_ofile (replicate NOFILE None) c).
Lemma exit_close_ok c cwd R P st : has c None [] false [] (cwd :: R) P st → length (p_ofile c) = NOFILE → p_cwd c = Some cwd →
  ord (λ _, has (stripped c) None [] false [] R P) (exit_close x st).
Proof using FileLaws0 Hlk LensLaws0.
  intros Hst Hlen Hcwd. unfold exit_close. eapply orderly_bind; [exact (exit_files_ok (cwd :: R) P NOFILE 0 c st eq_refl Hlen Hst)|].
  intros ? st1 H1. cbv beta in H1. rewrite take_0 in H1. cbn [app] in H1. set (c1 := set_ofile (replicate NOFILE None) c) in *.
  eapply orderly_bind; [exact (fl_begin_op (FsLaws := law c1 None [] P) _ _ H1)|]. intros ? [[k s] t] H2. cbv beta in H2.
  pose proof H2 as [[(me & run & qs & c' & free & live & T & U & Hin & Hown) _] _]. cbn [fst snd] in Hin. pose proof Hin as [_ I2 _ I4 _ _].
  run (kp_get_ok me run D x [] k k s t c' (only_hw_refl _ _ _ _ _ I2) I4). rewrite (own_field p_cwd c' c1 ltac:(done) Hown). change (p_cwd c1) with (p_cwd c). rewrite Hcwd.
  erewrite (bind_Ret (deref (Some cwd))); [|reflexivity].
  eapply orderly_bind; [exact (fl_iput (FsLaws := law c1 None [] P) [] _ R cwd _ ltac:(done) H2)|]. intros ? st3 H3. cbv beta in H3.
  eapply orderly_bind; [exact (fl_end_op (FsLaws := law c1 None [] P) _ _ H3)|]. intros ? [[k4 s4] t4] H4. cbv beta in H4.
  pose proof H4 as [[(me4 & run4 & qs4 & c4 & free4 & live4 & T4 & U4 & Hin4 & Hown4) _] _]. cbn [fst snd] in Hin4. pose proof Hin4 as [_ J2 _ J4 _ _].
  destruct (kp_upd_ok me4 run4 D x (set_cwd None) [] k4 k4 s4 t4 c4 (only_hw_refl _ _ _ _ _ J2) J4) as (k5 & E5 & Hk5). rewrite E5.
  by eapply (has_upd (set_cwd None)).
Qed.
End calls.
End fds.

(** ** The theorems *)
Lemma exited_field {A} (f : proc → A) x k c j p : (∀ p v, f (set_state v p) = f p) → (∀ p v, f (set_parent v p) = f p) → f (exited x k c j p) = f p.
Proof.
  intros H1 H2. unfold exited, reparent, wake. case_decide; rewrite ?H1; repeat (case_match; rewrite ?H1, ?H2); done.
Qed.

Section theorems.
Context {F : Type} `{!PrintOps (kproc * kmem * F), !FsOps (kproc * kmem * F), !PipeOps (kproc * kmem * F)}.
Variables (kend ftable_lock : Z) (ftable : lens F (list file)).
Context `{!LensLaws ftable}.
Variables (D : gset Z) (x : nat).
Context (back : kproc * kmem * F → kproc * kmem * F → Prop) (holds : bool → list nat → list nat → list (Z * bool) → kproc * kmem * F → Prop)
  (view : nat → kproc * kmem * F → inode) `{!FileLaws kend ftable D x back holds view}.
Abbreviation has := (has kend ftable D x holds).
Abbreviation ord := (orderly fs_panic (parked ftable D x) back).


(** C11: The descriptors of a process and the counts of the open files.  Take a
    kernel in which the count of every open file is the number of descriptors
    that refer to it, over the tables of all processes (but for a descriptor that
    some process is closing in its [exit]), and a process that calls with its
    hands free.  [sys_dup] puts the file into the first free descriptor,
    [sys_dup2] into the one asked for, closing what was there unless it is the
    same file, and [sys_close] empties a descriptor; a bad descriptor gives -1 and
    changes nothing.  [sys_dup2] and [sys_close] may sleep in the middle while
    other processes open and close files; whenever they sleep, and when they
    return, every count is right.  A call into the file system or into a pipe is
    made only with the reference that it consumes, and begins a transaction only
    outside of one; it may panic, but [filedup] and [fileclose] do not. *)
Theorem descriptors_correct c R P st a0 a1 : ftable_lock ∈ D → has c None [] false [] R P st → fd_args kend x st a0 a1 → length (p_ofile c) = NOFILE →
  (∃ r st', sys_dup kend ftable_lock ftable st = Ret r st' ∧ becomes kend ftable D x holds c R P (dup_spec (p_ofile c) a0) r st') ∧
  ord (becomes kend ftable D x holds c R P (dup2_spec (p_ofile c) a0 a1)) (sys_dup2 kend ftable_lock ftable st) ∧
  ord (becomes kend ftable D x holds c R P (close_spec (p_ofile c) a0)) (sys_close kend ftable_lock ftable st).
Proof using FileLaws0 LensLaws0.
  intros Hlk Ha Hargs Hlen. split; [by eapply sys_dup_ok|]. split; [by eapply sys_dup2_ok|by eapply sys_close_ok].
Qed.

(** C12: The calls on paths give everything back.  Whatever the file system answers,
    on every way through the code and after any sleep: [link] and [unlink] leave
    no inode locked, drop every reference they got and end their transaction, and
    so do [mkdir] and [mknod] from [create] on; [open] returns -1 with all given
    back, the new file included, or the first free descriptor, which is then the
    only reference to a file that has the inode's reference and the mode asked
    for; [chdir] exchanges the reference to the directory for one to the new
    directory, or changes nothing; and no inode is used without a reference or
    changed without its lock. *)
Theorem path_calls_balanced c R P st : ftable_lock ∈ D → length (p_ofile c) = NOFILE →
  (has c None [] false [] R P st →
     (∀ old new, ord (λ _, has c None [] false [] R P) (link old new st)) ∧
     (∀ path, ord (λ _, has c None [] false [] R P) (unlink path st)) ∧
     (∀ path omode, ord (open_spec kend ftable D x holds c R P omode) (open ftable_lock ftable path omode st))) ∧
  (has c None [] true [] R P st →
     ∀ path type major minor, ord (λ _, has c None [] false [] R P) ((let! ip := create path type major minor in created ip) st)) ∧
  (∀ cwd, has c None [] true [] (cwd :: R) P st → p_cwd c = Some cwd → ∀ path,
     ord (λ r st', r = -1 ∧ has c None [] false [] (cwd :: R) P st' ∨ r = 0 ∧ ∃ ip, has (set_cwd (Some ip) c) None [] false [] (ip :: R) P st') (chdir path st)).
Proof using FileLaws0 LensLaws0.
  intros Hlk Hlen. set (h := λ op L R st, alive kend ftable D x c None [] st ∧ holds op L R P st). assert (FsLaws (parked ftable D x) back h view) as Hfs by exact (fw_fs kend ftable D x c None [] P). split; [intros Hs; split; [|split]|split].
  - intros. exact (link_ok (parked ftable D x) back h view R old new st Hs).
  - intros. exact (unlink_ok (parked ftable D x) back h view R path st Hs).
  - intros. by apply (open_ok kend ftable_lock ftable D x back holds view).
  - intros Hs *. eapply orderly_bind; [exact (create_ok (parked ftable D x) back h view R path type major minor st Hs)|]. intros ip st' Hst'. exact (created_ok (parked ftable D x) back h view R ip st' Hst').
  - intros. by apply (chdir_ok kend ftable D x back holds view).
Qed.
End theorems.

(** ** Examples *)
(** A file system that only keeps the books, and stops at a mistake. *)
Record acct := Acct { ac_op : bool; ac_locks : list nat; ac_refs : list nat; ac_pipes : list (Z * bool); ac_files : list file }.
Definition acct_files : lens acct (list file) := Lens ac_files (λ v a, Acct (ac_op a) (ac_locks a) (ac_refs a) (ac_pipes a) v).
#[export] Instance acct_files_laws : LensLaws acct_files.
Proof. by split. Qed.
Fixpoint drop1 {A} `{!EqDecision A} (i : A) (l : list A) : list A := match l with [] => [] | j :: l' => if decide (i = j) then l' else j :: drop1 i l' end.
Lemma drop1_perm {A} `{!EqDecision A} (i : A) l l' : l ≡ₚ i :: l' → drop1 i l ≡ₚ l'.
Proof.
  intros H. assert (i ∈ l) as Hi by (rewrite H; left). apply (Permutation_cons_inv (a := i)). rewrite <- H. clear H. induction l as [|j l IH]; [by apply not_elem_of_nil in Hi|].
  simpl. case_decide as Hd; [by subst|]. apply elem_of_cons in Hi as [?|Hi]; [done|]. rewrite Permutation_swap. by rewrite IH.
Qed.
Section acct.
Abbreviation K := (kproc * kmem * acct)%type.
Definition ac_do {A} (ok : acct → bool) (f : acct → acct) (a : A) : M K A := λ s, if ok s.2 then Ret a (s.1, f s.2) else Fault.
Definition in_list {A} `{!EqDecision A} (l : list A) (i : A) : bool := bool_decide (i ∈ l).
Definition with_op (b : bool) (a : acct) : acct := Acct b (ac_locks a) (ac_refs a) (ac_pipes a) (ac_files a).
Definition with_locks (f : list nat → list nat) (a : acct) : acct := Acct (ac_op a) (f (ac_locks a)) (ac_refs a) (ac_pipes a) (ac_files a).
Definition with_refs (f : list nat → list nat) (a : acct) : acct := Acct (ac_op a) (ac_locks a) (f (ac_refs a)) (ac_pipes a) (ac_files a).
Definition with_pipes (f : list (Z * bool) → list (Z * bool)) (a : acct) : acct := Acct (ac_op a) (ac_locks a) (ac_refs a) (f (ac_pipes a)) (ac_files a).
Definition no_locks (a : acct) : bool := bool_decide (ac_locks a = []).
(** Paths that are not empty lead to inode 3, and names to inode 4. *)
#[local] Instance acct_FsOps : FsOps K := {|
  k_begin_op := ac_do (λ a, negb (ac_op a) && no_locks a) (with_op true) ();
  k_end_op := ac_do (λ a, ac_op a && no_locks a) (with_op false) ();
  k_namei path := match path with [] => ac_do (λ a, ac_op a && no_locks a) id None | _ => ac_do (λ a, ac_op a && no_locks a) (with_refs (cons 3%nat)) (Some 3%nat) end;
  k_nameiparent path := match path with [] => ac_do (λ a, ac_op a && no_locks a) id (None, []) | _ => ac_do (λ a, ac_op a && no_locks a) (with_refs (cons 3%nat)) (Some 3%nat, path) end;
  k_iinit := ret (); k_initlog := ret (); k_idup ip := ac_do (λ a, in_list (ac_refs a) ip) (with_refs (cons ip)) ip;
  k_ialloc _ _ := ac_do ac_op (with_refs (cons 5%nat)) 5%nat;
  k_inode ip := ac_do (λ a, in_list (ac_refs a) ip) id (set_nlink 1 (set_type T_FILE inode0));
  k_iset ip _ := ac_do (λ a, in_list (ac_locks a) ip) id ();
  k_iupdate ip := ac_do (λ a, ac_op a && in_list (ac_locks a) ip) id ();
  k_ilock ip := ac_do (λ a, in_list (ac_refs a) ip) (with_locks (cons ip)) ();
  k_iunlock ip := ac_do (λ a, in_list (ac_locks a) ip) (with_locks (drop1 ip)) ();
  k_iput ip := ac_do (λ a, ac_op a && in_list (ac_refs a) ip) (with_refs (drop1 ip)) ();
  k_stati ip := ac_do (λ a, in_list (ac_locks a) ip) id (Stat 0 0 0 0 0);
  k_readi ip _ n := ac_do (λ a, in_list (ac_locks a) ip) id (n, replicate (Z.to_nat n) 0);
  k_writei ip _ _ n := ac_do (λ a, ac_op a && in_list (ac_locks a) ip) id n;
  k_dirlookup dp name := match name with [] => ac_do (λ a, in_list (ac_locks a) dp) id None | _ => ac_do (λ a, in_list (ac_locks a) dp) (with_refs (cons 4%nat)) (Some (4%nat, 32)) end;
  k_dirlink dp _ _ := ac_do (λ a, ac_op a && in_list (ac_locks a) dp) id 0 |}.
#[local] Instance acct_PipeOps : PipeOps K := {|
  k_pipeinit _ := ret (); k_pipeclose p w := ac_do (λ a, in_list (ac_pipes a) (p, w)) (with_pipes (drop1 (p, w))) (); k_piperead _ _ := ret (0, []); k_pipewrite _ _ n := ret n |}.
Definition ac_holds (op : bool) (L R : list nat) (P : list (Z * bool)) (s : K) : Prop :=
  ac_op s.2 = op ∧ ac_locks s.2 ≡ₚ L ∧ ac_refs s.2 ≡ₚ R ++ omap file_ip (ac_files s.2) ∧ ac_pipes s.2 ≡ₚ P ++ omap file_end (ac_files s.2).
Variables (kend : Z) (D : gset Z) (x : nat).
Abbreviation al := (alive kend acct_files D x).
Lemma alive_same c d N s a : al c d N s → ac_files a = ac_files s.2 → al c d N (s.1, a).
Proof.
  destruct s as [[k s] t]. intros (H1 & (cl & H2 & H3) & H4) E. cbn [fst snd] in *. split; [done|].
  split; [exists cl; split; [done|]; cbn [fst snd lget acct_files]; by rewrite E|]. intros f Hf. destruct (H4 f Hf) as (fl & H5 & H6). exists fl. cbn [snd lget acct_files] in *. by rewrite E.
Qed.
Lemma ac_do_ok {A} ok f (a : A) (I : K → Prop) (Q : A → K → Prop) s : ok s.2 = true → Q a (s.1, f s.2) → orderly fs_panic I (λ _ _, True) Q (ac_do ok f a s).
Proof. intros H HQ. unfold ac_do. by rewrite H. Qed.
Lemma ac_in {A} `{!EqDecision A} (l L M : list A) i : l ≡ₚ L ++ M → i ∈ L → in_list l i = true.
Proof. intros H Hi. apply bool_decide_eq_true_2. rewrite H. apply elem_of_app. by left. Qed.
Lemma ac_lock (l L : list nat) i : l ≡ₚ L → i ∈ L → in_list l i = true.
Proof. intros H. rewrite <- (app_nil_r L) in H. by apply (ac_in l L []). Qed.
Lemma ac_none (l : list nat) : l ≡ₚ [] → bool_decide (l = []) = true.
Proof. intros H. apply bool_decide_eq_true_2. by apply Permutation_nil_r. Qed.
Lemma acct_FsLaws c d N P : FsLaws (parked acct_files D x) (λ _ _, True) (λ op L R st, al c d N st ∧ ac_holds op L R P st) (λ _ _, set_nlink 1 (set_type T_FILE inode0)).
Proof.
  split; intros *; unfold ac_holds; intros; destruct_and?; cbn -[ac_do alive]; unfold no_locks;
    repeat match goal with |- context [match ?p with [] => _ | _ => _ end] => destruct p end;
    try (apply ac_do_ok; [cbn -[alive]; by repeat first [rewrite ac_none by done | erewrite ac_in by done | erewrite ac_lock by done | match goal with H : ac_op _ = _ |- _ => rewrite H end]|];
      split_and?; try done; try (by apply alive_same); cbn -[alive];
      by repeat first [match goal with H : _ ≡ₚ _ |- _ => rewrite H end | apply drop1_perm]).
  - unfold ac_do. erewrite ac_in by done. by destruct s.
  - apply ac_do_ok; [eapply ac_lock; [done|]; rewrite H; left|]. split_and!; [by apply alive_same|done| |done|done]. apply drop1_perm. by rewrite <- H.
  - apply ac_do_ok; [rewrite H0; eapply ac_in; [done|]; rewrite H; left|]. split_and!; [by apply alive_same|done|done| |done]. apply drop1_perm. by rewrite H3, H.
Qed.
Lemma acct_FileLaws : FileLaws kend acct_files D x (λ _ _, True) ac_holds (λ _ _, set_nlink 1 (set_type T_FILE inode0)).
Proof.
  split; [apply acct_FsLaws| |].
  - intros c d N R P p w s Ha (H1 & H2 & H3 & H4). apply ac_do_ok; [eapply ac_in; [exact H4|left]|]. split; [by apply alive_same|]. split_and!; [done..|]. by apply drop1_perm.
  - intros op L R R' P P' h g k s t t' (H1 & H2 & H3 & H4) _ Hs HR HP. cbn [snd lget acct_files] in *.
    assert (ac_op t' = ac_op t ∧ ac_locks t' = ac_locks t ∧ ac_refs t' = ac_refs t ∧ ac_pipes t' = ac_pipes t) as (E1 & E2 & E3 & E4) by (by destruct Hs as [->|[fs ->]]).
    split_and!; cbn [snd]; rewrite ?E1, ?E2, ?E3, ?E4; [done|done|by rewrite H3|by rewrite H4].
Qed.
End acct.

(** Process 3 has inode 0 open as descriptor 0 and as its directory, and calls with
    the arguments 0 and 1. *)
Definition ex_own : list (option nat) := Some 0%nat :: replicate 15 None.
Definition ex_open : kproc := Life.upd 3 (set_ofile ex_own) ex_one.
Definition ex_caller : proc := set_ofile ex_own (set_sz 4096 ex_user_proc).
Definition ex_books : acct := Acct false [] [0%nat; 0%nat] [] ex_files.
Definition ex_state : kproc * kmem * acct := (ex_open, ex_args 0 1, ex_books).
Abbreviation ex_has := (has ex_end acct_files ex_locks 3 ac_holds).
Lemma ex_counted : counted (λ _, None) (k_procs ex_open) ex_files (λ _, 0).
Proof.
  split.
  - intros f fl Hf. destruct f as [|f]; [injection Hf as <-; by vm_compute|]. cbn in Hf. apply (lookup_replicate_1 99) in Hf as [-> _]. by vm_compute.
  - intros f Hf. destruct f; [by eexists|]. vm_compute in Hf. lia.
  - intros f fl Hf H0. destruct f as [|f]; [injection Hf as <-; done|]. cbn in Hf. by apply (lookup_replicate_1 99) in Hf as [-> _].
  - split; [by vm_compute|]. apply (bool_decide_unpack _). by vm_compute.
Qed.
Lemma ex_caller_has : ex_has ex_caller None [] false [] [0%nat] [] ex_state.
Proof.
  split; [|by split_and!]. split; [|split; [by exists (λ _, None); split; [|exact ex_counted]|intros f Hf; by apply not_elem_of_nil in Hf]].
  destruct (ex_args_user 0 1) as [_ (free & live & T & Has) _]. exists 0%nat, [Some 3%nat; None], ex_qs, ex_caller, free, live, T, ex_U. split; [|done].
  split; [done|exact ex_user_hw|apply sched_wfb_sound; by vm_compute|by vm_compute|done|exact Has].
Qed.
Lemma ex_fd_args : fd_args ex_end 3 ex_state 0 1.
Proof.
  exists ex_caller, ex_U. split; [|split].
  - destruct (ex_args_user 0 1) as [_ H _]. split; [by vm_compute|exact H|done].
  - split; [done|]. split; [done|]. split; [apply ex_one_present; by vm_compute|]. by vm_compute.
  - split; [done|]. split; [done|]. split; [apply ex_one_present; by vm_compute|]. by vm_compute.
Qed.
Lemma ex_fd_locks : kmem_lock ∈ ex_locks ∧ ptable_lock ∈ ex_locks ∧ 2 ∈ ex_locks.
Proof. split_and!; apply (bool_decide_unpack _); by vm_compute. Qed.
Lemma descriptors_correct_witness :
  ∃ st', @sys_dup acct quiet_PrintOps ex_end 2 acct_files ex_state = Ret 1 st' ∧
    ex_has (set_ofile (Some 0%nat :: Some 0%nat :: replicate 14 None) ex_caller) None [] false [] [0%nat] [] st'.
Proof.
  destruct (@descriptors_correct acct quiet_PrintOps acct_FsOps acct_PipeOps ex_end 2 acct_files acct_files_laws ex_locks 3 (λ _ _, True) ac_holds _ (acct_FileLaws ex_end ex_locks 3)
    ex_caller [0%nat] [] ex_state 0 1 (proj2 (proj2 ex_fd_locks)) ex_caller_has ex_fd_args eq_refl) as [(r & st' & E & own' & Hs & Ha) _].
  unfold dup_spec in Hs. change (fd_file (p_ofile ex_caller) 0) with (Some 0%nat) in Hs. change (first_idx _ (p_ofile ex_caller)) with (Some 1%nat) in Hs. destruct Hs as [-> ->].
  exists st'. split; [exact E|exact Ha].
Defined.
Lemma path_calls_balanced_witness :
  (∃ st', @link acct acct_FsOps (str "a") (str "b") ex_state = Ret 0 st' ∧ ex_has ex_caller None [] false [] [0%nat] [] st') ∧
  orderly fs_panic (parked acct_files ex_locks 3) (λ _ _, True) (open_spec ex_end acct_files ex_locks 3 ac_holds ex_caller [0%nat] [] O_RDWR)
    (@open acct acct_FsOps acct_PipeOps 2 acct_files (str "a") O_RDWR ex_state).
Proof.
  destruct (@path_calls_balanced acct acct_FsOps acct_PipeOps ex_end 2 acct_files acct_files_laws ex_locks 3 (λ _ _, True) ac_holds _ (acct_FileLaws ex_end ex_locks 3)
    ex_caller [0%nat] [] ex_state (proj2 (proj2 ex_fd_locks)) eq_refl) as [H _]. destruct (H ex_caller_has) as (H1 & _ & H2). split; [|apply H2].
  specialize (H1 (str "a") (str "b")). destruct (@link acct acct_FsOps (str "a") (str "b") ex_state) as [r s'| | | | |] eqn:E; try (exfalso; vm_compute in E; congruence).
  exists s'. split; [|exact H1]. vm_compute in E. injection E as <- <-. vm_compute. reflexivity.
Defined.
