(* ===== verification/Link.v ===== *)
(** * A link named [.] (fs.c: dirlink)

    [dirlink] drops the inode that has the name already with [iput], which takes
    the lock of that inode.  When the name is [.] the inode is the directory
    itself, which the caller of [dirlink] has locked: the process sleeps for a
    lock that it holds.  [sys_link] gets there with [.] as the new name. *)
From stdpp Require Import base list gmap strings.
From Stdlib Require Import ZArith Lia.
From S2P Require Import Prelude Mmu Spinlock CpuLocks Proc RunQueue Sched Machine Kernel Sleeplock Block Bio Log Trans Tx Fs Balloc Files Image.
#[local] Open Scope Z_scope.

(** A component next to a kernel that keeps [ProcLaws]. *)
Definition pair_ProcLaws {K T} `{!LockOps K, !ProcOps K, !ProcLaws K} : @ProcLaws (K * T) pair_LockOps pair_ProcOps.
Proof.
  refine {| k_runs x L s := k_runs x L s.1; k_switch s := k_switch s.1; k_current x s := k_current x s.1; k_lock := k_lock |}.
  - intros x L lk name [k t] H1 H2 H3. destruct (initlock_ok_ x L lk name k t H1 H2 H3) as (k' & E & H). by exists (k', t).
  - intros x L lk [k t] H1 H2 H3. destruct (acquire_ok_ x L lk k t H1 H2 H3) as (k' & E & H). by exists (k', t).
  - intros x L1 L2 lk [k t] H1. destruct (release_ok_ x L1 L2 lk k t H1) as (k' & E & H). by exists (k', t).
  - intros x L chan [k t] H1 H2. destruct (wakeup_ok_ x L chan k t H1 H2) as (k' & E & H). by exists (k', t).
  - intros x L [k t] H1. destruct (killed_ok_ x L k t H1) as (b & k' & E & H). by exists b, (k', t).
  - intros x L [k t] H1. destruct (pid_ok_ x L k t H1) as (k' & E & H). by exists (k', t).
  - intros x lk chan [k t] H1 H2. destruct (sleep_Block_ x lk chan k t H1 H2) as (k1 & kont & E & Hs & Hw). exists (k1, t), kont. split; [exact E|]. split; [done|].
    intros [k2 t2] Hs2 Hc2. destruct (Hw k2 t2 Hs2 Hc2) as (k3 & E3 & H3). by exists (k3, t2).
Defined.

Section deadlock.
Context {S : Type} `{!LockOps S, !ProcOps S, !BlockOps S, !LogOps S, !ProcLaws S}.
Variables (icache_lock : Z) (inode_spin inode_chan : nat → Z) (fuel : nat) (dev_read : Z → option (nat → Z → M (S * fs) (Z * list Z))).
Variable dev_write : Z → option (nat → list Z → Z → M (S * fs) Z).
Definition taken (i : nat) (t : fs) : Prop := sl_locked (i_lock (ii t i)) = true.
(** The code sleeps for the lock of inode [i], and sleeps again each time it is
    woken while the lock is taken. *)
Fixpoint stuck {A} (x : who) (i : nat) (o : outcome (S * fs) A) : Prop :=
  match o with
  | Block c (k, t) kont => c = inode_chan i ∧ taken i t ∧ ∀ k' t', k_switch k' → k_current x k' → taken i t' → stuck x i (kont (k', t'))
  | Asleep c (k, t) => c = inode_chan i ∧ taken i t
  | _ => False
  end.
Lemma acquiresleep_stuck {A} x i (f : () → M (S * fs) A) k t : k_lock (inode_spin i) → k_runs x [] k → taken i t →
  stuck x i (bind (acquiresleep (ilock_lens i) (inode_spin i) (inode_chan i) fuel) f (k, t)).
Proof.
  intros Hl Hk Ht. unfold acquiresleep. destruct (acquire_ok_ x [] (inode_spin i) k t Hk Hl) as (k1 & E1 & Hk1); [apply not_elem_of_nil|]. run2 E1.
  match goal with |- stuck x i (bind (bind _ ?g) f _) => generalize g as g0 end. intros g0. clear k Hk E1. revert k1 t Ht Hk1.
  induction fuel as [|n IH]; intros k t Ht Hk; cbn [acquiresleep_wait]; unfold bind at 1 2 3; unfold gets_ at 1; cbn [obind snd];
    change (sl_locked (lget (ilock_lens i) t)) with (sl_locked (i_lock (ii t i))); rewrite Ht;
    destruct (sleep_Block_ x (inode_spin i) (inode_chan i) k t Hk Hl) as (k3 & kont & E3 & Hk3 & Hw).
  - unfold park. rewrite E3. done.
  - unfold bind at 1. rewrite E3. cbn [obind stuck]. split; [done|]. split; [done|]. intros k' t' Hs Hc Ht'. destruct (Hw k' t' Hs Hc) as (k4 & E4 & Hk4). rewrite E4. cbn [obind].
    exact (IH k4 t' Ht' Hk4).
Qed.

Lemma stuck_bind {A B} x i (f : A → M (S * fs) B) o : stuck x i o → stuck x i (obind o f).
Proof. induction o as [a st|m| | |c [k t] kont IH|c [k t]]; simpl; try done. intros (H1 & H2 & H3). split; [done|]. split; [done|]. intros k' t' Hs Hc Ht. apply IH. by apply H3. Qed.

(** C28: A process that links a name which is the directory itself sleeps for ever.
    Let [dirlookup] find the locked directory [dp] under the name, as it does for
    [.] in every directory.  Then [dirlink] goes to sleep for the lock of [dp],
    and goes back to sleep at every wakeup as long as the lock is taken; it is
    taken by the process that sleeps. *)
Theorem dirlink_self_deadlock x dp name inum s off k t :
  dirlookup icache_lock dev_read dp name s = Ret (Some (dp, off)) (k, t) →
  k_lock (inode_spin dp) → k_runs x [] k → taken dp t →
  stuck x dp (dirlink icache_lock inode_spin inode_chan fuel dev_read dev_write dp name inum s).
Proof.
  intros E Hl Hk Ht. unfold dirlink. run E. unfold bind at 1. apply stuck_bind. by apply acquiresleep_stuck.
Qed.
End deadlock.

(** ** Example *)
(** The disk of Image.v, with the root directory locked by process 3: a link to
    inode 2 named [.]. *)
Definition dot_start : kproc * bio * log * fs :=
  match @binit kproc _ 2 (λ _, 2) (ex_k, Bio ∅ img 48 []) with Ret _ s => (s, mkfs_log, img_fs) | _ => (ex_k, Bio ∅ img 48 [], mkfs_log, img_fs) end.
Definition dot_found : kproc * bio * log * fs :=
  match @dirlookup (kproc * bio * log) _ img_BlockOps img_LogOps 2 (λ _, None) 1 [46] dot_start with Ret _ s => s | _ => dot_start end.
Definition dot_k : kproc := Eval vm_compute in dot_found.1.1.1.
Lemma dot_runs : runs_on ex_D (3%nat, 7) [] dot_found.1.1.1.
Proof.
  assert (dot_found.1.1.1 = dot_k) as -> by (vm_compute; reflexivity).
  exists 0%nat, [Some 3%nat; None], ex_qs, (ex_proc 7 RUNNING None). split; [apply sched_wfb_sound; by vm_compute|]. split; [|by vm_compute].
  split; simpl; try done; try lia.
  - apply (bool_decide_unpack _). vm_compute. exact I.
  - intros i ci Hi. destruct i as [|[|i]]; simpl in Hi; [injection Hi as <-..|done]; (split; [|by case_decide]); split; simpl; lia.
  - apply (bool_decide_unpack _). vm_compute. exact I.
  - constructor.
  - intros lk Hlk. by apply not_elem_of_nil in Hlk.
Qed.
Definition dot_laws : @ProcLaws (kproc * bio * log) log_LockOps log_ProcOps :=
  @pair_ProcLaws (kproc * bio) log _ _ (@pair_ProcLaws kproc bio _ _ (kproc_ProcLaws ex_D ex_ptable)).
Lemma dirlink_self_deadlock_witness : @stuck (kproc * bio * log) _ _ dot_laws (λ _, 11) Z (3%nat, 7) 1
  (@dirlink (kproc * bio * log) _ _ img_BlockOps img_LogOps 2 (λ _, 2) (λ _, 11) 5 (λ _, None) (λ _, None) 1 [46] 2 dot_start).
Proof.
  destruct dot_found as [k t] eqn:E.
  apply (@dirlink_self_deadlock (kproc * bio * log) _ _ img_BlockOps img_LogOps dot_laws 2 (λ _, 2) (λ _, 11) 5 (λ _, None) (λ _, None) (3%nat, 7) 1 [46] 2 dot_start 0 k t).
  - rewrite <- E. vm_compute. reflexivity.
  - exact ex_lock2.
  - pose proof dot_runs as H. rewrite E in H. exact H.
  - assert (t = dot_found.2) as -> by (by rewrite E). vm_compute. reflexivity.
Defined.
