(* ===== verification/Exec.v ===== *)
(** * Running a program (exec.c, vm.c: loaduvm, sysfile.c: sys_exec)

    [exec] builds a new address space from an ELF file, puts the arguments on its
    stack, and only then makes it the one of the process. *)
From stdpp Require Import base list gmap strings.
From Stdlib Require Import ZArith Lia.
From S2P Require Import Prelude User Mmu Spinlock CpuLocks CString Proc RunQueue Sched Machine Kernel Console Kalloc Vm Uvm CopyUvm Fault Life Args Sysproc Sleeplock Block Bio Log Trans Tx Fs File Sysfile.
#[local] Open Scope Z_scope.

(** elf.h, param.h *)
Definition ELF_MAGIC : Z := 1179403647.
Definition ELF_PROG_LOAD : Z := 1.
Definition MAXARG : Z := 32.
Record elfhdr := Elfhdr {
  e_magic : Z; e_type : Z; e_machine : Z; e_version : Z; e_entry : Z; e_phoff : Z; e_shoff : Z; e_flags : Z;
  e_ehsize : Z; e_phentsize : Z; e_phnum : Z; e_shentsize : Z; e_shnum : Z; e_shstrndx : Z }.
Definition decode_elfhdr (d : list Z) : elfhdr :=
  Elfhdr (ld32 d 0) (ld16 d 16) (ld16 d 18) (ld32 d 20) (ld32 d 24) (ld32 d 28) (ld32 d 32) (ld32 d 36)
    (ld16 d 40) (ld16 d 42) (ld16 d 44) (ld16 d 46) (ld16 d 48) (ld16 d 50).
Record proghdr := Proghdr { ph_type : Z; ph_off : Z; ph_vaddr : Z; ph_paddr : Z; ph_filesz : Z; ph_memsz : Z; ph_flags : Z; ph_align : Z }.
Definition decode_proghdr (d : list Z) : proghdr :=
  Proghdr (ld32 d 0) (ld32 d 4) (ld32 d 8) (ld32 d 12) (ld32 d 16) (ld32 d 20) (ld32 d 24) (ld32 d 28).

Definition set_eip (v : Z) (t : trapframe) : trapframe :=
  Trapframe (tf_edi t) (tf_esi t) (tf_ebp t) (tf_oesp t) (tf_ebx t) (tf_edx t) (tf_ecx t) (tf_eax t) (tf_gs t) (tf_fs t) (tf_es t) (tf_ds t) (tf_trapno t)
    (tf_err t) v (tf_cs t) (tf_eflags t) (tf_esp t) (tf_ss t).
Definition set_esp (v : Z) (t : trapframe) : trapframe :=
  Trapframe (tf_edi t) (tf_esi t) (tf_ebp t) (tf_oesp t) (tf_ebx t) (tf_edx t) (tf_ecx t) (tf_eax t) (tf_gs t) (tf_fs t) (tf_es t) (tf_ds t) (tf_trapno t)
    (tf_err t) (tf_eip t) (tf_cs t) (tf_eflags t) v (tf_ss t).

(** The name after the last slash. *)
Fixpoint last_elem (s last : list Z) : list Z :=
  match s with [] => last | c :: s' => last_elem s' (if c =? slash then s' else last) end.
(** Words as bytes in memory. *)
Definition words (l : list Z) : list Z := l ≫= λ v, [uchar v; uchar (v / 256); uchar (v / 65536); uchar (v / 16777216)].
Fixpoint put_mem (a : Z) (bs : list Z) (m : mem) : mem := match bs with [] => m | c :: bs' => put_mem (a + 1) bs' (wr8 a c m) end.

Section exec.
Context {F : Type} `{!PrintOps (kproc * kmem * F), !FsOps (kproc * kmem * F)}.
Variables kend kdata : Z.
Abbreviation K := (kproc * kmem * F)%type.

(** [readi] puts what it reads at [P2V(pa)]. *)
Fixpoint loaduvm_loop (fuel : nat) (pgdir addr : Z) (ip : nat) (offset sz i : Z) : M K Z :=
  if sz <=? i then ret 0 else
  match fuel with
  | O => λ _, Spin
  | S f =>
      let! pte := km (walkpgdir pgdir (uint (addr + i)) false) in
      if pte =? 0 then panic "loaduvm: address should exist" else
      let! e := km (load pte) in
      let pa := PTE_ADDR e in
      let n := if sz - i <? PGSIZE then sz - i else PGSIZE in
      let! (r, bs) := k_readi ip (uint (offset + i)) n in
      km (modify_ (upd_mem (put_mem (P2V pa) bs))) ;;;
      if negb (uint r =? n) then ret (-1) else loaduvm_loop f pgdir addr ip offset sz (uint (i + PGSIZE))
  end.
Definition loaduvm (pgdir addr : Z) (ip : nat) (offset sz : Z) : M K Z :=
  if negb (addr mod PGSIZE =? 0) then panic "loaduvm: addr must be page aligned" else
  loaduvm_loop (Z.to_nat ((sz + PGSIZE - 1) / PGSIZE)) pgdir addr ip offset sz 0.

(** [copyout] of bytes that are not in the memory of the pages: the arguments,
    read from the process, and the array [ustack]. *)
Fixpoint copyout_bytes_loop (fuel : nat) (pgdir va : Z) (p : list Z) : M K Z :=
  if Z.of_nat (length p) <=? 0 then ret 0 else
  match fuel with
  | O => λ _, Spin
  | S f =>
      let va0 := PGROUNDDOWN va in
      let! pa0 := km (uva2ka pgdir va0) in
      if pa0 =? 0 then ret (-1) else
      let len := Z.of_nat (length p) in
      let n := if len <? PGSIZE - (va - va0) then len else PGSIZE - (va - va0) in
      km (modify_ (upd_mem (put_mem (pa0 + (va - va0)) (take (Z.to_nat n) p)))) ;;;
      copyout_bytes_loop f pgdir (uint (va0 + PGSIZE)) (drop (Z.to_nat n) p)
  end.
Definition copyout_bytes (pgdir va : Z) (p : list Z) : M K Z :=
  copyout_bytes_loop (S (Z.to_nat (Z.of_nat (length p) / PGSIZE + 1))) pgdir va p.

(** The size after the segments, [None] for [goto bad]. *)
Fixpoint load_segments (n : nat) (ip : nat) (pgdir off sz : Z) : M K (option Z) :=
  match n with
  | O => ret (Some sz)
  | S n' =>
      let! (r, d) := k_readi ip (uint off) 32 in
      if negb (r =? 32) then ret None else
      let ph := decode_proghdr d in
      if negb (ph_type ph =? ELF_PROG_LOAD) || (ph_memsz ph =? 0) then load_segments n' ip pgdir (sint (off + 32)) sz else
      if ph_memsz ph <? ph_filesz ph then ret None else
      if uint (ph_vaddr ph + ph_memsz ph) <? ph_vaddr ph then ret None else
      let! sz := km (allocuvm kend pgdir sz (uint (ph_vaddr ph + ph_memsz ph))) in
      if sz =? 0 then ret None else
      if negb (ph_vaddr ph mod PGSIZE =? 0) then ret None else
      let! r := loaduvm pgdir (ph_vaddr ph) ip (ph_off ph) (ph_filesz ph) in
      if r <? 0 then ret None else
      load_segments n' ip pgdir (sint (off + 32)) sz
  end.

(** The stack pointer and the addresses of the strings. *)
Fixpoint push_args (argv : list (list Z)) (argc pgdir sp : Z) (ustack : list Z) : M K (option (Z * list Z)) :=
  match argv with
  | [] => ret (Some (sp, ustack))
  | s :: argv' =>
      if MAXARG <=? argc then ret None else
      let sp := Z.land (uint (sp - (Z.of_nat (length s) + 1))) (uint (Z.lnot 3)) in
      let! r := copyout_bytes pgdir sp (s ++ [0]) in
      if r <? 0 then ret None else
      push_args argv' (argc + 1) pgdir sp (ustack ++ [sp])
  end.

(** The label [bad], before and after the file is given back. *)
Definition bad_ip (pgdir : Z) (ip : nat) : M K Z :=
  (if negb (pgdir =? 0) then km (freevm kend pgdir true) else ret ()) ;;;
  k_iunlockput ip ;;;
  k_end_op ;;;
  ret (-1).
Definition bad (pgdir : Z) : M K Z := km (freevm kend pgdir true) ;;; ret (-1).

Definition exec_commit (cur : nat) (path : list Z) (elf : elfhdr) (pgdir sz sp : Z) : M K Z :=
  kp (upd_proc cur (λ p, set_name (safestrcpy_name 16 (p_name p) (last_elem path path ++ [0])) p)) ;;;
  let! c := kp (get_proc cur) in
  let oldpgdir := p_pgdir c in
  kp (upd_proc cur (set_pgdir pgdir)) ;;;
  kp (upd_proc cur (set_sz sz)) ;;;
  kp (upd_proc cur (λ p, set_tf (set_eip (e_entry elf) (p_tf p)) p)) ;;;
  kp (upd_proc cur (λ p, set_tf (set_esp sp (p_tf p)) p)) ;;;
  kp (switchuvm (Some cur)) ;;;
  km (freevm kend oldpgdir true) ;;;
  ret 0.
(** The stack, with the pages from [sz] on. *)
Definition exec_stack (cur : nat) (path : list Z) (argv : list (list Z)) (elf : elfhdr) (pgdir sz : Z) : M K Z :=
  let sz := PGROUNDUP sz in
  let! sz := km (allocuvm kend pgdir sz (uint (sz + 2 * PGSIZE))) in
  if sz =? 0 then bad pgdir else
  km (clearpteu pgdir (uint (sz - 2 * PGSIZE))) ;;;
  let! r := push_args argv 0 pgdir sz [] in
  match r with
  | None => bad pgdir
  | Some (sp, strs) =>
      let argc := Z.of_nat (length argv) in
      let ustack := [4294967295; argc; uint (sp - (argc + 1) * 4)] ++ strs ++ [0] in
      let sp := uint (sp - (3 + argc + 1) * 4) in
      let! r := copyout_bytes pgdir sp (words ustack) in
      if r <? 0 then bad pgdir else exec_commit cur path elf pgdir sz sp
  end.
Definition exec (path : list Z) (argv : list (list Z)) : M K Z :=
  let! cur := kp myproc in
  let! cur := deref cur in
  k_begin_op ;;;
  let! ip := k_namei path in
  match ip with
  | None => k_end_op ;;; k_cprintf (str "exec: fail" ++ [10]) [] ;;; ret (-1)
  | Some ip =>
      k_ilock ip ;;;
      let! (r, d) := k_readi ip 0 52 in
      if negb (r =? 52) then bad_ip 0 ip else
      let elf := decode_elfhdr d in
      if negb (e_magic elf =? ELF_MAGIC) then bad_ip 0 ip else
      let! pgdir := km (setupkvm kend kdata) in
      if pgdir =? 0 then bad_ip 0 ip else
      let! sz := load_segments (Z.to_nat (e_phnum elf)) ip pgdir (sint (e_phoff elf)) 0 in
      match sz with
      | None => bad_ip pgdir ip
      | Some sz =>
          k_iunlockput ip ;;;
          k_end_op ;;;
          exec_stack cur path argv elf pgdir sz
      end
  end.

(** The strings that the words at [uargv] point to, up to a null pointer. *)
Fixpoint fetch_argv (n : nat) (uargv i : Z) : M K (option (list (list Z))) :=
  match n with
  | O => ret None
  | S n' =>
      let! uarg := fetchint kend (uint (uargv + 4 * i)) in
      match uarg with
      | None => ret None
      | Some uarg =>
          if uarg =? 0 then ret (Some []) else
          let! len := fetchstr kend (uint uarg) in
          match len with
          | None => ret None
          | Some len =>
              let! s := copy_in kend (Z.to_nat len) (uint uarg) in
              let! r := fetch_argv n' uargv (i + 1) in
              ret ((λ l, s :: l) <$> r)
          end
      end
  end.
Definition sys_exec : M K Z :=
  let! path := argpath kend 0 in
  match path with
  | None => ret (-1)
  | Some path =>
      let! uargv := argint kend 1 in
      match uargv with
      | None => ret (-1)
      | Some uargv =>
          let! argv := fetch_argv (Z.to_nat MAXARG) (uint uargv) 0 in
          match argv with None => ret (-1) | Some argv => exec path argv end
      end
  end.
End exec.
