(* ===== verification/ExecStack.v ===== *)
(** * The stack of a new program (exec.c, second half)

    When the segments of a program are in place, [exec] adds two pages, makes the
    lower one a guard, puts the strings and the vector of the arguments on the
    upper one and commits.  The file shows that [main] of the new program finds
    its arguments, that the old address space is freed and nothing else, and
    that on every failure the process keeps running in the address space that
    it had. *)
From stdpp Require Import base list gmap strings.
From Stdlib Require Import ZArith Lia Permutation.
From S2P Require Import Prelude User Mmu Spinlock CpuLocks CString Proc RunQueue Sched Machine Kernel Console Kalloc Vm Uvm CopyUvm Fault Life Args Sysproc Sleeplock Block Bio Log Trans Tx Fs File Sysfile Exec.
#[local] Open Scope Z_scope.
#[local] Opaque memset memmove wr32.

(** ** Bytes and words at user addresses *)
Lemma rd8_put_mem bs : ∀ a (m : mem) b,
  rd8 (put_mem a bs m) b = if decide (a ≤ b < a + Z.of_nat (length bs)) then uchar (default 0 (bs !! Z.to_nat (b - a))) else rd8 m b.
Proof.
  induction bs as [|c bs IH]; intros a m b; cbn [put_mem length]; [by rewrite decide_False by lia|]. rewrite IH, rd8_wr8.
  destruct (decide (a = b)) as [<-|Hne].
  - rewrite decide_False, decide_True by lia. by rewrite Z.sub_diag.
  - repeat case_decide; try done; try lia. replace (Z.to_nat (b - a)) with (S (Z.to_nat (b - (a + 1)))) by lia. done.
Qed.
(** The bytes [bs] are at [va]. *)
Definition user_has (U : gmap Z (Z * Z)) (m : mem) (va : Z) (bs : list Z) : Prop := ∀ i c, bs !! i = Some c → ubyte U m (va + Z.of_nat i) = uchar c.
Lemma wrote_ubyte U m m' va b src a : wrote U m m' va b src → is_Some (U !! (a / 4096)) →
  ubyte U m' a = if decide (va ≤ a < b) then src a else ubyte U m a.
Proof.
  intros [Hw _] [[p f] Hp]. unfold ubyte. rewrite Hp. rewrite (Hw _ p f _ Hp) by (Z.to_euclidean_division_equations; lia).
  replace (4096 * (a / 4096) + a mod 4096) with a by (Z.to_euclidean_division_equations; lia). done.
Qed.
Lemma length_words l : length (words l) = (4 * length l)%nat.
Proof. unfold words. induction l as [|v l IH]; [done|]. rewrite bind_cons, length_app, IH. cbn [length]. lia. Qed.
Lemma words_app l l' : words (l ++ l') = words l ++ words l'.
Proof. unfold words. by rewrite bind_app. Qed.
(** A word of the vector. *)
Lemma uword_words U m va l i v : user_has U m va (words l) → l !! i = Some v → is_uint v → uword U m (va + 4 * Z.of_nat i) = v.
Proof.
  intros Hu Hi Hv. rewrite <- (take_drop_middle l i v Hi), words_app in Hu. unfold words at 2 in Hu. rewrite bind_cons in Hu. cbn [app] in Hu.
  assert (length (words (take i l)) = (4 * i)%nat) as Hl by (rewrite length_words, length_take; apply lookup_lt_Some in Hi; lia).
  assert (∀ j c, [uchar v; uchar (v / 256); uchar (v / 65536); uchar (v / 16777216)] !! j = Some c → ubyte U m (va + 4 * Z.of_nat i + Z.of_nat j) = c) as H.
  { intros j c Hj. rewrite <- (uchar_small c).
    - rewrite <- (Hu (4 * i + j)%nat c); [f_equal; lia|]. rewrite lookup_app_r by lia. replace (4 * i + j - _)%nat with j by lia.
      destruct j as [|[|[|[|j]]]]; done.
    - destruct j as [|[|[|[|j]]]]; try done; injection Hj as <-; apply uchar_range. }
  unfold uword. pose proof (H 0%nat _ eq_refl) as H0. rewrite Z.add_0_r in H0. rewrite H0.
  pose proof (H 1%nat _ eq_refl) as H1. pose proof (H 2%nat _ eq_refl) as H2. pose proof (H 3%nat _ eq_refl) as H3. change (Z.of_nat 1) with 1 in H1. change (Z.of_nat 2) with 2 in H2. change (Z.of_nat 3) with 3 in H3.
  rewrite H1, H2, H3. unfold uchar, is_uint in *. Z.to_euclidean_division_equations. lia.
Qed.

(** ** Copying out *)
Section copy.
Context {F : Type}.
Variable kend : Z.
Hypothesis Hkend : KERNBASE < kend.

(** Up to [b], the end or the first page that is not the user's. *)
Lemma copyout_bytes_loop_ok (k : kproc) (t : F) free live pgdir T U b src : ∀ fuel s va p, aspace kend s free live pgdir T U →
  0 ≤ va → va + Z.of_nat (length p) ≤ KERNBASE → (va mod 4096 + Z.of_nat (length p) + 4095) / 4096 ≤ Z.of_nat fuel →
  (b = va + Z.of_nat (length p) ∨ va ≤ b < va + Z.of_nat (length p) ∧ (b = va ∨ b mod 4096 = 0) ∧ upage_of T U (b / 4096) = Some None) →
  (∀ vp, va < 4096 * vp + 4096 → 4096 * vp < b → va < b → ∃ p, upage_of T U vp = Some (Some p)) →
  (∀ i c, p !! i = Some c → src (va + Z.of_nat i) = uchar c) →
  ∃ m', copyout_bytes_loop fuel pgdir va p (k, s, t) = Ret (if decide (b = va + Z.of_nat (length p)) then 0 else -1) (k, upd_mem (λ _, m') s, t) ∧
    wrote U (km_mem s) m' va b src.
Proof.
  unfold KERNBASE. induction fuel as [|fuel IH]; intros s va p Has Hva Hend Hf Hb Hgood Hsrc; cbn [copyout_bytes_loop];
    destruct (Z.leb_spec (Z.of_nat (length p)) 0) as [Hle|Hlt].
  1,3: exists (km_mem s); assert (b = va) as -> by lia; rewrite decide_True by lia; split; [by destruct s|apply wrote_none].
  { exfalso. Z.to_euclidean_division_equations. lia. }
  set (vp := va / 4096). set (o := va mod 4096). assert (va = 4096 * vp + o ∧ 0 ≤ o < 4096) as [Eva Ho] by (unfold vp, o; Z.to_euclidean_division_equations; lia).
  assert (PGROUNDDOWN va = 4096 * vp) as -> by (rewrite PGROUNDDOWN_eq; unfold vp; lia). assert (va - 4096 * vp = o) as -> by lia. cbv zeta.
  pose proof (uva2ka_ok kend k s free live pgdir T U vp Has ltac:(lia)) as Eu.
  destruct (Z.eq_dec b va) as [->|Hne].
  { destruct Hb as [?|(_ & _ & Hb)]; [lia|]. fold vp in Hb. rewrite Hb in Eu. run (km_Ret _ _ _ t _ _ _ Eu). exists (km_mem s).
    rewrite decide_False by lia. split; [by destruct s|apply wrote_none]. }
  destruct (Hgood vp) as [pg Hpg]; [lia|lia|lia|]. rewrite Hpg in Eu. run (km_Ret _ _ _ t _ _ _ Eu). change (default 0 (Some pg)) with pg.
  assert (∃ f, U !! vp = Some (pg, f)) as [f Hp].
  { unfold upage_of in Hpg. destruct (T !! _); [|done]. destruct (U !! vp) as [[p' f]|]; [|done]. destruct (_ =? 0); [done|]. exists f. congruence. }
  destruct (as_page kend _ _ _ _ _ _ _ _ _ Has Hp) as (Hpok & _ & _). rewrite (proj2 (Z.eqb_neq _ 0)) by (apply page_range in Hpok; simpl; lia).
  set (n := if _ <? _ then _ else _).
  assert (n = Z.min (Z.of_nat (length p)) (4096 - o)) as En by (unfold n, PGSIZE; destruct (Z.ltb_spec (Z.of_nat (length p)) (4096 - o)); lia). clearbody n.
  erewrite bind_Ret; [|by apply km_Ret]. set (m1 := put_mem (pg + o) (take (Z.to_nat n) p) (km_mem s)).
  assert (va + n ≤ b) as Hnb by (destruct Hb as [->|(Hb1 & [->|Hb2] & Hb3)]; [lia|lia|]; Z.to_euclidean_division_equations; lia).
  assert (wrote U (km_mem s) m1 va (va + n) src) as Hw.
  { rewrite Eva. apply (wrote_fill kend s free live pgdir T U vp pg f o n m1 src Has Hp); [lia..|]. intros a. unfold m1. rewrite rd8_put_mem, length_take.
    replace (Z.of_nat (Z.to_nat n `min` length p)) with n by lia. case_decide as Hd; [|done]. rewrite lookup_take_lt by lia.
    destruct (lookup_lt_is_Some_2 p (Z.to_nat (a - (pg + o)))) as [c Hc]; [lia|]. rewrite Hc. cbn [default from_option]. change (id c) with c. rewrite <- (Hsrc _ _ Hc). f_equal. lia. }
  pose proof (wrote_aspace kend s free live pgdir T U _ _ _ _ Has Hw) as Has1. rewrite uint_small by (unfold is_uint, PGSIZE; lia). unfold PGSIZE.
  change (upd_mem (put_mem (pg + o) (take (Z.to_nat n) p)) s) with (upd_mem (λ _, m1) s).
  destruct (Z.eq_dec (Z.of_nat (length p)) n) as [Hall|Hmore].
  - assert (b = va + Z.of_nat (length p)) as -> by lia. rewrite decide_True by done. exists m1. rewrite Hall. split; [|done].
    rewrite drop_ge by lia. by destruct fuel.
  - assert (4096 * vp + 4096 = va + n) as -> by lia.
    destruct (IH (upd_mem (λ _, m1) s) (va + n) (drop (Z.to_nat n) p) Has1) as (m' & E & Hw'); rewrite ?length_drop; try lia.
    + replace ((va + n) mod 4096) with 0; [Z.to_euclidean_division_equations; lia|]. replace (va + n) with ((vp + 1) * 4096) by lia. by rewrite Z.mod_mul.
    + destruct Hb as [->|(Hb1 & Hb2 & Hb3)]; [left; lia|right]. split_and!; [lia|lia| |done]. destruct Hb2; [lia|by right].
    + intros vp' H1 H2 H3. apply Hgood; lia.
    + intros i c Hi. rewrite lookup_drop in Hi. rewrite <- (Hsrc _ _ Hi). f_equal. lia.
    + exists m'. rewrite length_drop in E. split; [|by eapply wrote_trans; [|exact Hw|exact Hw']; lia].
      replace (va + n + Z.of_nat (length p - Z.to_nat n)) with (va + Z.of_nat (length p)) in E by lia. exact E.
Qed.

(** ** The stack *)
(** Below [top] a page for the stack, a guard that is not the user's, and the
    pages of the program. *)
Record stack_space (top : Z) (U : gmap Z (Z * Z)) : Prop := {
  st_top : top mod 4096 = 0 ∧ 8192 ≤ top < KERNBASE;
  st_stack : ∃ p, U !! (top / 4096 - 1) = Some (p, 7);
  st_guard : ∃ p, U !! (top / 4096 - 2) = Some (p, 3);
  st_prog vp : 0 ≤ vp < top / 4096 - 2 → ∃ p, U !! vp = Some (p, 7) }.
Lemma st_present top U a : stack_space top U → 0 ≤ a < top → is_Some (U !! (a / 4096)).
Proof.
  intros [[H1 H2] [p1 Hs] [p2 Hg] Hp] Ha. destruct (Z.eq_dec (a / 4096) (top / 4096 - 1)) as [->|H3]; [by eexists|].
  destruct (Z.eq_dec (a / 4096) (top / 4096 - 2)) as [->|H4]; [by eexists|]. destruct (Hp (a / 4096)) as [p E]; [Z.to_euclidean_division_equations; lia|by eexists].
Qed.
Lemma upage_of_user s free live pgdir T U vp p f : aspace kend s free live pgdir T U → U !! vp = Some (p, f) →
  upage_of T U vp = Some (if Z.land f PTE_U =? 0 then None else Some p).
Proof.
  intros Has Hp. destruct (as_tab kend Hkend _ _ _ _ _ _ _ _ _ Has Hp) as [t Ht]. pose proof Has as [_ _ _ Hdom _]. pose proof (Hdom _ _ Hp) as Hvp.
  assert (PDX (4096 * vp) = vp / 1024) as E by (rewrite PDX_eq, uint_small by (unfold is_uint; lia); Z.to_euclidean_division_equations; lia).
  unfold upage_of. rewrite <- E, Ht, Hp. done.
Qed.

(** Bytes that end above the guard page: they are written if they start on the
    page of the stack, and refused at the guard if they do not. *)
Lemma copyout_stack (k : kproc) s (t : F) free live pgdir T U top va p : aspace kend s free live pgdir T U → stack_space top U →
  0 ≤ va → top - 8192 < va + Z.of_nat (length p) ≤ top → va < va + Z.of_nat (length p) →
  ∃ m' b, copyout_bytes pgdir va p (k, s, t) = Ret (if top - 4096 <=? va then 0 else -1) (k, upd_mem (λ _, m') s, t) ∧
    (top - 4096 ≤ va → b = va + Z.of_nat (length p)) ∧
    wrote U (km_mem s) m' va b (λ a, uchar (default 0 (p !! Z.to_nat (a - va)))) ∧ aspace kend (upd_mem (λ _, m') s) free live pgdir T U.
Proof.
  intros Has Hst Hva Hend Hne. pose proof Hst as [[H1 H2] [p1 Hs] [p2 Hg] Hp]. unfold KERNBASE in H2.
  apply (upage_of_user s free live pgdir T U _ _ _ Has) in Hs, Hg. change (Z.land 7 PTE_U =? 0) with false in Hs. change (Z.land 3 PTE_U =? 0) with true in Hg.
  set (b := if top - 4096 <=? va then va + Z.of_nat (length p) else Z.max va (top - 8192)).
  destruct (copyout_bytes_loop_ok k t free live pgdir T U b (λ a, uchar (default 0 (p !! Z.to_nat (a - va)))) (S (Z.to_nat (Z.of_nat (length p) / PGSIZE + 1))) s va p Has Hva)
    as (m' & E & Hw).
  - unfold KERNBASE. lia.
  - unfold PGSIZE. Z.to_euclidean_division_equations. lia.
  - unfold b. destruct (Z.leb_spec (top - 4096) va); [by left|right]. split; [lia|].
    assert (Z.max va (top - 8192) / 4096 = top / 4096 - 2) as -> by (Z.to_euclidean_division_equations; lia).
    split; [|done]. destruct (Z.max_spec va (top - 8192)) as [[? ->]|[? ->]]; [right; Z.to_euclidean_division_equations; lia|by left].
  - intros vp Hv1 Hv2 Hv3. unfold b in Hv2, Hv3. destruct (Z.leb_spec (top - 4096) va).
    + exists p1. replace vp with (top / 4096 - 1); [done|]. Z.to_euclidean_division_equations. lia.
    + destruct (Hp vp) as [q Hq]; [Z.to_euclidean_division_equations; lia|]. exists q. by rewrite (upage_of_user _ _ _ _ _ _ _ _ _ Has Hq).
  - intros i c Hi. replace (Z.to_nat (va + Z.of_nat i - va)) with i by lia. by rewrite Hi.
  - exists m', b. split; [|split; [|split; [exact Hw|exact (wrote_aspace kend s free live pgdir T U _ _ _ _ Has Hw)]]].
    + unfold copyout_bytes. rewrite E. unfold b. destruct (Z.leb_spec (top - 4096) va); [by rewrite decide_True|by rewrite decide_False by lia].
    + intros ?. unfold b. by rewrite (proj2 (Z.leb_le _ _)).
Qed.

(** Where [exec] puts the strings: the last stack pointer and the addresses,
    [None] if they do not fit above [lo] or are too many. *)
Fixpoint arg_sps (lo argc sp : Z) (argv : list (list Z)) : option (Z * list Z) :=
  match argv with
  | [] => Some (sp, [])
  | s :: argv' =>
      let sp' := 4 * ((sp - (Z.of_nat (length s) + 1)) / 4) in
      if (MAXARG <=? argc) || (sp' <? lo) then None else r ← arg_sps lo (argc + 1) sp' argv'; Some (r.1, sp' :: r.2)
  end.
Lemma land_align a : is_uint a → Z.land a (uint (Z.lnot 3)) = 4 * (a / 4).
Proof.
  intros Ha. change (uint (Z.lnot 3)) with (Z.shiftl (Z.ones 30) 2). rewrite (Z.mul_comm 4).
  change 4 with (2 ^ 2). rewrite <- (Z.shiftr_div_pow2 a 2) by lia. rewrite <- (Z.shiftl_mul_pow2 _ 2) by lia.
  apply Z.bits_inj'. intros i Hi. rewrite Z.land_spec. destruct (decide (i < 2)) as [?|?].
  - rewrite !(Z.shiftl_spec_low _ 2 i) by lia. by rewrite andb_false_r.
  - rewrite !Z.shiftl_spec, Z.shiftr_spec by lia. replace (i - 2 + 2) with i by lia. destruct (decide (i < 32)) as [?|?].
    + rewrite Z.ones_spec_low by lia. apply andb_true_r.
    + rewrite Z.ones_spec_high, andb_false_r by lia. symmetry. apply Z.bits_above_log2; [unfold is_uint in *; lia|].
      destruct (decide (a = 0)) as [->|]; [cbn; lia|]. apply Z.log2_lt_pow2; [unfold is_uint in *; lia|].
      unfold is_uint in *. apply (Z.lt_le_trans _ (2 ^ 32)); [lia|]. apply Z.pow_le_mono_r; lia.
Qed.

(** Nothing but user pages has changed. *)
Definition outside (U : gmap Z (Z * Z)) (m m' : mem) : Prop := ∀ a, (∀ p, p ∈ upages U → ¬ in_page p a) → rd8 m' a = rd8 m a.
Lemma user_has_wrote U (m m' : mem) va b top bs p : wrote U m m' va (va + Z.of_nat (length p)) (λ a, uchar (default 0 (p !! Z.to_nat (a - va)))) →
  stack_space top U → 0 ≤ va → va + Z.of_nat (length p) ≤ top →
  user_has U m' va p ∧ (0 ≤ b → b + Z.of_nat (length bs) ≤ top → va + Z.of_nat (length p) ≤ b → user_has U m b bs → user_has U m' b bs).
Proof.
  intros Hw Hst Hva Hend. split.
  - intros i c Hi. pose proof (lookup_lt_Some _ _ _ Hi). rewrite (wrote_ubyte _ _ _ _ _ _ _ Hw), decide_True by first [lia | apply (st_present top); [done|lia]].
    replace (Z.to_nat (va + Z.of_nat i - va)) with i by lia. by rewrite Hi.
  - intros H0 H1 H2 Hb i c Hi. pose proof (lookup_lt_Some _ _ _ Hi). rewrite (wrote_ubyte _ _ _ _ _ _ _ Hw), decide_False by first [lia | apply (st_present top); [done|lia]].
    by apply Hb.
Qed.

(** The strings are below [sp] at the addresses of [arg_sps]; nothing else of the
    program changes unless they do not fit. *)
Definition pushed_args (U : gmap Z (Z * Z)) (m m' : mem) (top sp : Z) (argv : list (list Z)) (r : option (Z * list Z)) : Prop :=
  match r with
  | Some (sp', sps) => top - 4096 ≤ sp' ≤ sp ∧ length sps = length argv ∧
      (∀ a, 0 ≤ a < top → ¬ (sp' ≤ a < sp) → ubyte U m' a = ubyte U m a) ∧
      ∀ i s a, argv !! i = Some s → sps !! i = Some a → sp' ≤ a ∧ a + Z.of_nat (length s) < sp ∧ user_has U m' a (s ++ [0])
  | None => True
  end.
Lemma push_args_ok (k : kproc) (t : F) free live pgdir T U top : stack_space top U → ∀ argv argc sp s ustack, aspace kend s free live pgdir T U →
  top - 4096 ≤ sp ≤ top → Forall (λ a, Z.of_nat (length a) < top - 4096) argv →
  ∃ m', push_args argv argc pgdir sp ustack (k, s, t) = Ret (r ← arg_sps (top - 4096) argc sp argv; Some (r.1, ustack ++ r.2)) (k, upd_mem (λ _, m') s, t) ∧
    aspace kend (upd_mem (λ _, m') s) free live pgdir T U ∧ outside U (km_mem s) m' ∧
    pushed_args U (km_mem s) m' top sp argv (arg_sps (top - 4096) argc sp argv).
Proof using Hkend.
  intros Hst. pose proof (st_top _ _ Hst) as [Ht1 Ht2]. unfold KERNBASE in Ht2.
  induction argv as [|a argv IH]; intros argc sp s ustack Has Hsp Hlen; cbn [push_args arg_sps].
  { exists (km_mem s). split; [cbn [mbind option_bind fst snd]; rewrite app_nil_r; by destruct s|]. split; [by destruct s|]. split; [done|]. split; [lia|]. by split_and!. }
  apply Forall_cons in Hlen as [Ha Hlen]. destruct (MAXARG <=? argc); cbn [orb].
  { exists (km_mem s). split; [by destruct s|]. split; [by destruct s|]. done. }
  rewrite land_align, uint_small by (unfold is_uint; rewrite ?uint_small by (unfold is_uint; lia); lia).
  set (sp1 := 4 * _). assert (sp - (Z.of_nat (length a) + 1) - 4 < sp1 ≤ sp - (Z.of_nat (length a) + 1) ∧ 0 ≤ sp1) as [Hsp1 Hsp1'] by (unfold sp1; Z.to_euclidean_division_equations; lia).
  clearbody sp1. assert (Z.of_nat (length (a ++ [0])) = Z.of_nat (length a) + 1) as El by (rewrite length_app; cbn [length]; lia).
  destruct (copyout_stack k s t free live pgdir T U top sp1 (a ++ [0]) Has Hst Hsp1') as (m1 & b & E & Hb & Hw & Has1); [lia|lia|]. run E. clear E.
  destruct (Z.ltb_spec sp1 (top - 4096)) as [Hlt|Hge].
  { rewrite (proj2 (Z.leb_gt _ _)) by lia. cbn [Z.ltb Z.compare]. exists m1. split; [done|]. split; [done|]. split; [exact (proj2 Hw)|done]. }
  rewrite (proj2 (Z.leb_le _ _)) by lia. cbn [Z.ltb Z.compare]. rewrite (Hb Hge) in Hw. clear b Hb.
  destruct (IH (argc + 1) sp1 (upd_mem (λ _, m1) s) (ustack ++ [sp1]) Has1) as (m2 & E2 & Has2 & Ho2 & Hp2); [lia|done|]. exists m2. rewrite E2.
  cbn [km_mem upd_mem] in *. destruct (user_has_wrote U (km_mem s) m1 sp1 0 top [] (a ++ [0]) Hw Hst Hsp1') as [Hhas _]; [lia|].
  split; [|split; [exact Has2|split; [intros c Hc; rewrite Ho2 by done; by apply (proj2 Hw)|]]].
  { destruct (arg_sps _ _ _ _) as [[sp2 sps]|]; [|done]. simpl. by rewrite <- app_assoc. }
  destruct (arg_sps _ _ _ _) as [[sp2 sps]|]; [|done]. destruct Hp2 as (H1 & H2 & H3 & H4). cbn [mbind option_bind fst snd].
  split; [lia|]. split; [by cbn [length]; f_equal|]. split.
  - intros c Hc Hn. rewrite H3 by lia. rewrite (wrote_ubyte _ _ _ _ _ _ _ Hw), decide_False by first [lia | apply (st_present top); [done|lia]]. done.
  - intros [|i] str ad Hs Had; [injection Hs as <-; injection Had as <-|].
    + split; [lia|]. split; [lia|]. intros j c Hj. pose proof (lookup_lt_Some _ _ _ Hj). rewrite H3 by lia. by apply Hhas.
    + destruct (H4 i str ad Hs Had) as (? & ? & ?). split; [lia|]. split; [lia|done].
Qed.
End copy.

(** ** The guard page *)
Lemma pte_not_user x : x mod 4096 = 0 → 0 ≤ x → Z.land (x + 7) (Z.lnot PTE_U) = x + 3.
Proof.
  intros Hx H0. rewrite <- !lor_pte by lia. rewrite Z.land_lor_distr_l. change (Z.land 7 (Z.lnot PTE_U)) with 3. f_equal.
  rewrite <- Z.ldiff_land. rewrite <- (Z.lor_ldiff_and x PTE_U) at 2. pose proof (land_low_add x 0 PTE_U Hx ltac:(done)) as E. rewrite Z.add_0_r in E.
  rewrite E, Z.land_0_l. by rewrite Z.lor_0_r.
Qed.
Lemma upages_remap U vp p f f' : U !! vp = Some (p, f) → upages (<[vp := (p, f')]> U) ≡ₚ upages U.
Proof. intros H. rewrite (upages_delete U vp p f H), <- insert_delete_eq. apply upages_insert, lookup_delete_eq. Qed.
Lemma clearpteu_ok {K : Type} `{!LockOps K} kend (Hkend : KERNBASE < kend) (k : K) s free live pgdir T U vp p : aspace kend s free live pgdir T U → U !! vp = Some (p, 7) →
  ∃ s', clearpteu pgdir (4096 * vp) (k, s) = Ret () (k, s') ∧ aspace kend s' free live pgdir T (<[vp := (p, 3)]> U) ∧ km_use_lock s' = km_use_lock s ∧
    (∀ q, q ∈ free ++ live → q ∉ pt_pages pgdir T → same_page (km_mem s) (km_mem s') q) ∧
    ∀ va, KERNBASE ≤ va < 4294967296 → lookup_pte (km_mem s') pgdir va = lookup_pte (km_mem s) pgdir va.
Proof.
  intros Has Hp. destruct (as_tab kend Hkend _ _ _ _ _ _ _ _ _ Has Hp) as [t Ht]. destruct (as_page kend _ _ _ _ _ _ _ _ _ Has Hp) as (Hpok & _ & _).
  pose proof Has as [Hvm Hnd Hlive Hdom Huser]. pose proof Hvm as [Hinv Hpg Hown]. pose proof (Hdom _ _ Hp) as Hvp.
  assert (is_uint (4096 * vp)) as Hua by (unfold is_uint; lia). pose proof (idx_range _ Hua) as [_ Hix].
  assert (page_ok kend t) as Hpt by (by apply (pt_tab _ _ _ _ Hpg (PDX (4096 * vp)))). unfold clearpteu.
  run (walk_found kend k s pgdir T (4096 * vp) t false Hpg Hua Ht). rewrite (proj2 (Z.eqb_neq _ 0)) by (apply page_range in Hpt; lia). next.
  assert (rd32 (km_mem s) (t + 4 * PTX (4096 * vp)) = lookup_pte (km_mem s) pgdir (4096 * vp)) as ->
    by (rewrite (lookup_tab kend _ _ T) by done; by rewrite Ht).
  pose proof (Huser vp Hvp) as Hu. rewrite Hp in Hu. destruct Hu as (_ & _ & ->).
  pose proof (V2P_page kend p Hpok) as Ev. pose proof (page_range kend p Hpok) as Hr.
  rewrite pte_not_user by (rewrite Ev; Z.to_euclidean_division_equations; lia).
  destruct (store_pte kend k s free live pgdir T (4096 * vp) t (V2P p + 3) Hvm Hua Ht) as (s' & E & [_ G2 _ G4 G5] & Hlk); [rewrite Ev; unfold is_uint; lia|].
  assert (∀ vp', 4096 * vp' / 4096 = vp') as Hdiv by (intros vp'; rewrite Z.mul_comm; by apply Z.div_mul).
  rewrite E. exists s'. split; [done|]. split; [split; [exact G2| | | |]|split; [done|split; [done|]]].
  - unfold owned. by rewrite (upages_remap U vp p 7 3 Hp).
  - intros q. rewrite (upages_remap U vp p 7 3 Hp). apply Hlive.
  - intros vp' x. destruct (decide (vp = vp')) as [<-|?]; [done|rewrite lookup_insert_ne by done]. apply Hdom.
  - intros vp' Hvp'. rewrite Hlk, !Hdiv by (unfold is_uint; lia). destruct (decide (vp = vp')) as [<-|Hne].
    + rewrite lookup_insert_eq, decide_True by done. by split_and!.
    + rewrite lookup_insert_ne, decide_False by done. by apply Huser.
  - intros va Hva. rewrite Hlk by (unfold is_uint, KERNBASE in *; lia). rewrite Hdiv, decide_False; [done|]. unfold KERNBASE in Hva. Z.to_euclidean_division_equations. lia.
Qed.

(** ** The address space under construction *)
Section exec_stack.
Context {F : Type} `{!PrintOps (kproc * kmem * F), !FsOps (kproc * kmem * F)}.
Variable kend : Z.
Hypothesis Hkend : KERNBASE < kend.
Variables (me : nat) (run : list (option nat)) (D : gset Z) (x : nat).
Hypothesis Hkm : kmem_lock ∈ D.
Abbreviation onl := (only_hw me run D).

(** The address space [d] has changed, the pages [rest] of others have not. *)
Record remade (rest : list Z) (s : kmem) (free live : list Z) (d : Z) (s' : kmem) (free' live' : list Z) (T' : gmap Z Z) (U' : gmap Z (Z * Z)) : Prop := {
  rm_as : aspace kend s' free' live' d T' U';
  rm_rest : live' ≡ₚ owned d T' U' ++ rest;
  rm_total : free' ++ live' ≡ₚ free ++ live;
  rm_lock : km_use_lock s' = km_use_lock s;
  rm_same q : q ∈ rest → same_page (km_mem s) (km_mem s') q }.
Lemma remade_trans rest s free live d s1 free1 live1 T1 U1 s2 free2 live2 T2 U2 : remade rest s free live d s1 free1 live1 T1 U1 →
  remade rest s1 free1 live1 d s2 free2 live2 T2 U2 → remade rest s free live d s2 free2 live2 T2 U2.
Proof.
  intros [A1 A2 A3 A4 A5] [B1 B2 B3 B4 B5]. split; [done|done|by rewrite B3|congruence|]. intros q Hq. eapply same_page_trans; [by apply A5|by apply B5].
Qed.
Lemma rest_apart s free live d T U rest q : aspace kend s free live d T U → live ≡ₚ owned d T U ++ rest → q ∈ rest → q ∈ live ∧ q ∉ owned d T U.
Proof.
  intros Has Hl Hq. pose proof (ki_nodup _ _ _ _ (vi_kmem _ _ _ _ _ _ (as_vm _ _ _ _ _ _ _ Has))) as Hn. apply NoDup_app in Hn as (_ & _ & Hn).
  rewrite Hl in Hn. apply NoDup_app in Hn as (_ & Hn & _). split; [rewrite Hl; listin|]. intros Hin. by apply (Hn q).
Qed.
Lemma evolved_remade rest s free live d T U s' free' live' T' U' : aspace kend s free live d T U → live ≡ₚ owned d T U ++ rest →
  evolved kend s free live d T U s' free' live' T' U' → remade rest s free live d s' free' live' T' U'.
Proof.
  intros Has Hl [E1 E2 E3 E4 E5 E6 E7]. pose proof (E3 rest Hl) as Hl'. split; [done..|]. intros q Hq.
  destruct (rest_apart _ _ _ _ _ _ _ q Has Hl Hq) as [H1 H2]. apply E6; [done|rewrite Hl'; listin|]. intros Hin. apply H2. unfold owned. listin.
Qed.
Lemma outside_remade rest s free live d T U m' : aspace kend s free live d T U → live ≡ₚ owned d T U ++ rest → outside U (km_mem s) m' →
  aspace kend (upd_mem (λ _, m') s) free live d T U → remade rest s free live d (upd_mem (λ _, m') s) free live T U.
Proof.
  intros Has Hl Ho Has'. split; [done..|]. intros q Hq a Ha. apply Ho. intros p Hp Hpa. destruct (rest_apart _ _ _ _ _ _ _ q Has Hl Hq) as [H1 H2].
  pose proof (vi_kmem _ _ _ _ _ _ (as_vm _ _ _ _ _ _ _ Has)) as Hinv. pose proof (as_live _ _ _ _ _ _ _ Has p Hp) as Hpl.
  apply (other_page kend s free live q p a Hinv); [listin|listin| |done|done]. intros ->. apply H2. unfold owned. listin.
Qed.

(** Giving up: the pages of the new address space are free again. *)
Lemma freevm_new rest k0 k s (t : F) free live d T U s1 free1 live1 T1 U1 : onl k0 [] k → live ≡ₚ owned d T U ++ rest →
  remade rest s free live d s1 free1 live1 T1 U1 →
  ∃ k' s' free', km (freevm kend d true) (k, s1, t) = Ret () (k', s', t) ∧ onl k0 [] k' ∧ freed kend s free live s' (owned d T U) free' rest.
Proof using Hkend Hkm.
  intros Hk Hl [R1 R2 R3 R4 R5].
  destruct (freevm_ok kend (.∈ D) (onl k0) [] Hkm ltac:(apply not_elem_of_nil) Hkend k s1 free1 live1 d T1 U1 true R1 Hk) as (k' & s' & fr & free' & live' & E & Hk' & Hfr & [F1 F2 F3 F4 F5]);
    [by left|]. exists k', s', free'. split; [by apply km_Ret|]. split; [done|].
  assert (live' ≡ₚ rest) as Hl' by permz. split; [by eapply kmem_inv_perm|permz|done|congruence|].
  intros q Hq. eapply same_page_trans; [by apply R5|]. apply F5. by rewrite Hl'.
Qed.
Lemma bad_ok rest k0 k s (t : F) free live d T U s1 free1 live1 T1 U1 : onl k0 [] k → live ≡ₚ owned d T U ++ rest →
  remade rest s free live d s1 free1 live1 T1 U1 →
  ∃ k' s' free', bad kend d (k, s1, t) = Ret (-1) (k', s', t) ∧ onl k0 [] k' ∧ freed kend s free live s' (owned d T U) free' rest.
Proof using Hkend Hkm.
  intros Hk Hl Hrm. destruct (freevm_new rest k0 k s t free live d T U s1 free1 live1 T1 U1 Hk Hl Hrm) as (k' & s' & free' & E & Hk' & HF).
  exists k', s', free'. split; [|done]. unfold bad. by run E.
Qed.

(** ** Committing *)
Definition exec_proc (path : list Z) (d sz entry esp : Z) (c : proc) : proc :=
  set_tf (set_esp esp (set_eip entry (p_tf c))) (set_sz sz (set_pgdir d (set_name (safestrcpy_name 16 (p_name c) (last_elem path path ++ [0])) c))).
Lemma exec_commit_ok k0 k s (t : F) c path elf d sz sp free live T0 U0 : onl k0 [] k → k_procs k0 !! x = Some c → p_kstack c ≠ 0 → d ≠ 0 →
  aspace kend s free live (p_pgdir c) T0 U0 →
  ∃ k' s' fr free' live', exec_commit kend x path elf d sz sp (k, s, t) = Ret 0 (k', s', t) ∧ onl (Life.upd x (exec_proc path d sz (e_entry elf) sp) k0) [] k' ∧
    fr ≡ₚ owned (p_pgdir c) T0 U0 ∧ freed kend s free live s' fr free' live'.
Proof using Hkend Hkm.
  intros Hk Hp Hks Hd Has. unfold exec_commit. kupd Hk Hp. run (kp_get_ok me run D x [] _ _ s t _ Hk Hp). do 4 kupd Hk Hp.
  rewrite !upd_upd in Hk. rewrite (upd_ext x _ (exec_proc path d sz (e_entry elf) sp)) in Hk by done.
  assert (k_procs (Life.upd x (exec_proc path d sz (e_entry elf) sp) k0) !! x = Some (exec_proc path d sz (e_entry elf) sp c)) as Hp'
    by (clear Hk; rewrite !upd_upd in Hp; exact Hp).
  match type of Hk with only_hw _ _ _ ?k1 _ ?k2 => destruct (kp_step me run D (switchuvm (Some x)) [] [] k1 k2 s t () k1 Hk) as (kx & Ex & Hkx) end.
  { intros h Hok. destruct (switchuvm_ok me run D [] (with_hw h (Life.upd x (exec_proc path d sz (e_entry elf) sp) k0)) x _ Hok Hp' Hks Hd) as (h' & E & Hok' & _).
    by exists h'. }
  run Ex. destruct (freevm_ok kend (.∈ D) (onl _) [] Hkm ltac:(apply not_elem_of_nil) Hkend kx s free live (p_pgdir c) T0 U0 true Has Hkx)
    as (ky & sy & fr & free' & live' & Ey & Hky & Hfr & HF); [by left|]. run (km_Ret _ _ _ t _ _ _ Ey).
  by exists ky, sy, fr, free', live'.
Qed.

(** ** Building the stack *)
(** The pages of a program of size [z] are there, and no others. *)
Definition program (z : Z) (U : gmap Z (Z * Z)) : Prop := ∀ vp, 0 ≤ vp → if decide (4096 * vp < z) then ∃ p, U !! vp = Some (p, 7) else U !! vp = None.
(** [U'] has the program of [U] below [z]. *)
Definition same_program (z : Z) (U U' : gmap Z (Z * Z)) (m m' : mem) : Prop := ∀ a, 0 ≤ a < z → U' !! (a / 4096) = U !! (a / 4096) ∧ ubyte U' m' a = ubyte U m a.

Lemma pgroundup_id z : z mod 4096 = 0 → 0 ≤ z ≤ KERNBASE → PGROUNDUP z = z.
Proof. unfold KERNBASE. intros H1 H2. destruct (PGROUNDUP_spec z) as [? ?]; [lia..|]. Z.to_euclidean_division_equations. lia. Qed.
(** Room for [newsz] bytes: zeros behind the program, or not enough free pages. *)
Lemma grow_program rest k0 k s free live d T U oldsz newsz : onl k0 [] k → aspace kend s free live d T U → live ≡ₚ owned d T U ++ rest →
  0 ≤ oldsz ≤ newsz → newsz < KERNBASE → program (PGROUNDUP oldsz) U →
  ∃ k' s1 free' live' T' U1, onl k0 [] k' ∧ remade rest s free live d s1 free' live' T' U1 ∧
   (allocuvm kend d oldsz newsz (k, s) = Ret 0 (k', s1) ∧ Z.of_nat (length free + length (pt_pages d T)) ≤ 1025 + (newsz - PGROUNDUP oldsz + 4095) / 4096 ∨
    allocuvm kend d oldsz newsz (k, s) = Ret newsz (k', s1) ∧ program (PGROUNDUP newsz) U1 ∧ same_program (PGROUNDUP oldsz) U U1 (km_mem s) (km_mem s1) ∧
      ∀ a, PGROUNDUP oldsz ≤ a < PGROUNDUP newsz → ubyte U1 (km_mem s1) a = 0).
Proof using Hkend Hkm.
  intros Hk Has Hl Ho Hn Hprog. unfold KERNBASE in *. set (z := PGROUNDUP oldsz) in *. set (z' := PGROUNDUP newsz) in *.
  assert (z mod 4096 = 0 ∧ 0 ≤ z ∧ z' mod 4096 = 0 ∧ newsz ≤ z' < newsz + 4096 ∧ z ≤ z') as (Hz1 & Hz2 & Hz3 & Hz4 & Hz5).
  { destruct (PGROUNDUP_spec oldsz) as [? ?]; [lia..|]. destruct (PGROUNDUP_spec newsz) as [? ?]; [lia..|]. clear Hprog. subst z z'. Z.to_euclidean_division_equations. lia. }
  assert (∀ vp, 0 ≤ vp → 4096 * vp < z → ∃ p, U !! vp = Some (p, 7)) as Hin by (intros vp H1 H2; pose proof (Hprog vp H1) as H; by rewrite decide_True in H).
  assert (∀ vp, 0 ≤ vp → z ≤ 4096 * vp → U !! vp = None) as Hout by (intros vp H1 H2; pose proof (Hprog vp H1) as H; by rewrite decide_False in H by lia).
  destruct (allocuvm_ok kend (.∈ D) (onl k0) [] Hkm ltac:(apply not_elem_of_nil) Hkend k s free live d T U oldsz newsz Has Hk) as (k1 & s1 & r & free1 & live1 & T1 & U1 & E1 & Hk1 & Hr);
    [lia|unfold KERNBASE; lia|fold z; intros vp Hvp; apply Hout; lia|]. exists k1, s1, free1, live1, T1, U1. split; [done|]. fold z in Hr.
  destruct Hr as [(-> & [Hev Hlive Hold Hnew])|(-> & -> & Hev & Hfew)]; (split; [by eapply evolved_remade|]); [right|by left].
  split; [done|]. split; [|split].
  - intros vp Hvp. destruct (decide (4096 * vp < z')) as [Hd|Hd].
    + destruct (decide (4096 * vp < z)) as [Hd'|Hd'].
      * destruct (Hin vp Hvp Hd') as [p Hp]. exists p. apply Hold; [lia|done].
      * destruct (Hnew vp) as (p & Hp & _); [Z.to_euclidean_division_equations; lia|by exists p].
    + destruct (U1 !! vp) as [y|] eqn:Ey; [|done]. apply Hold in Ey; [|lia]. rewrite Hout in Ey by lia. done.
  - intros a Ha. assert (0 ≤ a / 4096 ∧ 4096 * (a / 4096) < z) as [Ha1 Ha2] by (Z.to_euclidean_division_equations; lia).
    destruct (Hin _ Ha1 Ha2) as [p Ep]. assert (U1 !! (a / 4096) = Some (p, 7)) as Ep1 by (apply Hold; [lia|done]). rewrite Ep1, Ep. split; [done|].
    unfold ubyte. rewrite Ep, Ep1. destruct (as_page kend _ _ _ _ _ _ _ _ _ Has Ep) as (_ & Hpl & Hpt).
    apply (ev_same _ _ _ _ _ _ _ _ _ _ _ _ Hev p Hpl (Hlive p Hpl) Hpt). unfold in_page. Z.to_euclidean_division_equations. lia.
  - intros a Ha. destruct (Hnew (a / 4096)) as (p & Hp & _ & Hz); [Z.to_euclidean_division_equations; lia|]. unfold ubyte. rewrite Hp. apply Hz.
    unfold in_page. Z.to_euclidean_division_equations. lia.
Qed.

Lemma grow_stack rest k0 k s free live d T U z : onl k0 [] k → aspace kend s free live d T U → live ≡ₚ owned d T U ++ rest →
  z mod 4096 = 0 → 0 ≤ z ≤ KERNBASE → program z U →
  ∃ k' s1 free' live' T' U1, onl k0 [] k' ∧ remade rest s free live d s1 free' live' T' U1 ∧
   (allocuvm kend d z (z + 8192) (k, s) = Ret 0 (k', s1) ∧ (KERNBASE ≤ z + 8192 ∨ Z.of_nat (length free + length (pt_pages d T)) ≤ 1027) ∨
    z + 8192 < KERNBASE ∧ allocuvm kend d z (z + 8192) (k, s) = Ret (z + 8192) (k', s1) ∧
      ∃ s2 U2, clearpteu d z (k', s1) = Ret () (k', s2) ∧ remade rest s free live d s2 free' live' T' U2 ∧ stack_space (z + 8192) U2 ∧
        same_program z U U2 (km_mem s) (km_mem s2) ∧ ∀ vp, z + 8192 ≤ 4096 * vp → U2 !! vp = None).
Proof using Hkend Hkm.
  intros Hk Has Hl Hz1 Hz2 Hprog. destruct (Z.leb_spec KERNBASE (z + 8192)) as [Hbig|Hfit].
  { exists k, s, free, live, T, U. split; [done|]. split; [by split|]. left. split; [|by left]. unfold allocuvm. by rewrite (proj2 (Z.leb_le _ _)). }
  pose proof (pgroundup_id z Hz1 Hz2) as Ez.
  destruct (grow_program rest k0 k s free live d T U z (z + 8192) Hk Has Hl) as (k1 & s1 & free1 & live1 & T1 & U1 & Hk1 & Hrm & Hr); [lia|done|by rewrite Ez|].
  rewrite Ez, pgroundup_id in Hr by (unfold KERNBASE in *; Z.to_euclidean_division_equations; lia). exists k1, s1, free1, live1, T1, U1. split; [done|]. split; [done|].
  destruct Hr as [(E & Hfew)|(E & Hprog1 & Hsp & _)]; [left|right].
  { split; [done|]. right. replace (z + 8192 - z + 4095) with 12287 in Hfew by lia. change (12287 / 4096) with 2 in Hfew. lia. }
  split; [done|]. split; [done|]. pose proof Hrm as [R1 R2 R3 R4 R5]. set (vg := z / 4096). assert (z = 4096 * vg) as Evg by (unfold vg; Z.to_euclidean_division_equations; lia).
  assert (∀ vp, 0 ≤ vp → 4096 * vp < z + 8192 → ∃ p, U1 !! vp = Some (p, 7)) as Hin by (intros vp H1 H2; pose proof (Hprog1 vp H1) as H; by rewrite decide_True in H).
  destruct (Hin vg) as [pg Hpg]; [lia..|]. destruct (clearpteu_ok kend Hkend k1 s1 free1 live1 d T1 U1 vg pg R1 Hpg) as (s2 & E2 & Has2 & Hlk2 & Hs2 & _).
  rewrite <- Evg in E2. exists s2, (<[vg := (pg, 3)]> U1). split; [done|]. split; [|split; [|split]].
  - eapply remade_trans; [exact Hrm|]. split; [done|unfold owned; rewrite (upages_remap U1 vg pg 7 3 Hpg); exact R2|done|done|].
    intros q Hq. destruct (rest_apart _ _ _ _ _ _ _ q R1 R2 Hq) as [H1 H2]. apply Hs2; [listin|]. intros Hq'. apply H2. unfold owned. listin.
  - assert ((z + 8192) / 4096 = vg + 2) as E8 by (unfold vg; Z.to_euclidean_division_equations; lia). split; rewrite ?E8; [unfold KERNBASE in *; Z.to_euclidean_division_equations; lia| | |].
    + destruct (Hin (vg + 1)) as [p Hp]; [lia..|]. exists p. rewrite lookup_insert_ne by lia. by replace (vg + 2 - 1) with (vg + 1) by lia.
    + exists pg. replace (vg + 2 - 2) with vg by lia. by rewrite lookup_insert_eq.
    + intros vp Hvp. rewrite lookup_insert_ne by lia. apply Hin; lia.
  - intros a Ha. destruct (Hsp a Ha) as [H1 H2]. assert (vg ≠ a / 4096) as Hne by (Z.to_euclidean_division_equations; lia). rewrite lookup_insert_ne by done.
    split; [done|]. rewrite <- H2. unfold ubyte. rewrite lookup_insert_ne by done. destruct (U1 !! (a / 4096)) as [[p f]|] eqn:Ep; [|done].
    destruct (as_page kend _ _ _ _ _ _ _ _ _ R1 Ep) as (_ & Hpl & Hpt). apply (Hs2 p); [listin|done|]. unfold in_page. Z.to_euclidean_division_equations. lia.
  - intros vp Hvp. rewrite lookup_insert_ne by lia. pose proof (Hprog1 vp ltac:(lia)) as H. by rewrite decide_False in H by lia.
Qed.

(** The stack pointer of the new program, if its arguments fit. *)
Definition stack_layout (top : Z) (argv : list (list Z)) : option Z :=
  r ← arg_sps (top - 4096) 0 top argv;
  let esp := r.1 - 4 * (Z.of_nat (length argv) + 4) in if esp <? top - 4096 then None else Some esp.
Lemma arg_sps_max lo argv : ∀ argc sp r, 0 ≤ argc ≤ MAXARG → arg_sps lo argc sp argv = Some r → argc + Z.of_nat (length argv) ≤ MAXARG.
Proof.
  induction argv as [|a argv IH]; intros argc sp r Hc E; cbn [arg_sps length] in *; [lia|]. destruct (Z.leb_spec MAXARG argc); cbn [orb] in E; [done|].
  destruct (_ <? lo); [done|]. destruct (arg_sps _ _ _ _) as [r'|] eqn:E'; [|done]. apply IH in E'; lia.
Qed.
(** What [main] finds: a return address that faults, [argc], [argv], and the vector
    of the strings with a null pointer at its end. *)
Record main_args (U : gmap Z (Z * Z)) (m : mem) (esp : Z) (argv : list (list Z)) : Prop := {
  ma_ret : uword U m esp = 4294967295;
  ma_argc : uword U m (esp + 4) = Z.of_nat (length argv);
  ma_argv : uword U m (esp + 8) = esp + 12;
  ma_arg i a : argv !! i = Some a → user_has U m (uword U m (esp + 12 + 4 * Z.of_nat i)) (a ++ [0]);
  ma_null : uword U m (esp + 12 + 4 * Z.of_nat (length argv)) = 0 }.
Lemma main_args_ok U (m0 m1 m2 : mem) top argv sp sps : let argc := Z.of_nat (length argv) in let esp := sp - 4 * (argc + 4) in
  let ustack := [4294967295; argc; esp + 12] ++ sps ++ [0] in
  stack_space top U → 0 ≤ argc ≤ MAXARG → top - 4096 ≤ esp → pushed_args U m0 m1 top top argv (Some (sp, sps)) →
  wrote U m1 m2 esp sp (λ a, uchar (default 0 (words ustack !! Z.to_nat (a - esp)))) → main_args U m2 esp argv.
Proof.
  intros argc esp ustack Hst Hargc Hesp (H1 & H2 & _ & H4) Hw. pose proof (st_top _ _ Hst) as [_ Ht]. unfold KERNBASE, MAXARG in *.
  assert (length ustack = (length argv + 4)%nat) as Hlu by (unfold ustack; rewrite !length_app, H2; cbn [length]; lia).
  assert (sp = esp + Z.of_nat (length (words ustack))) as Esp by (rewrite length_words, Hlu; lia). rewrite Esp in Hw at 1.
  pose proof (λ b bs, user_has_wrote U m1 m2 esp b top bs (words ustack) Hw Hst ltac:(lia) ltac:(lia)) as Hhas.
  pose proof (λ i v, uword_words U m2 esp ustack i v (proj1 (Hhas 0 []))) as Huw. unfold is_uint in Huw.
  assert (∀ i v, (sps ++ [0]) !! i = Some v → 0 ≤ v < 4294967296 → uword U m2 (esp + 12 + 4 * Z.of_nat i) = v) as Hvec.
  { intros i v Hi Hv. rewrite <- (Huw (3 + i)%nat v); [f_equal; lia| |done]. done. }
  split.
  - rewrite <- (Huw 0%nat 4294967295 eq_refl) by lia. f_equal. lia.
  - apply (Huw 1%nat argc eq_refl). lia.
  - apply (Huw 2%nat (esp + 12) eq_refl). lia.
  - intros i a Ha. destruct (lookup_lt_is_Some_2 sps i) as [ad Had]; [rewrite H2; by eapply lookup_lt_Some|].
    destruct (H4 i a ad Ha Had) as (H5 & H6 & H7). rewrite (Hvec i ad) by (rewrite ?lookup_app_l by (by eapply lookup_lt_Some); done || lia).
    apply (Hhas ad (a ++ [0])); [lia|rewrite length_app; cbn [length]; lia|lia|done].
  - apply Hvec; [|lia]. rewrite lookup_app_r by lia. rewrite H2, Nat.sub_diag. done.
Qed.

(** ** The result *)
Record execed (others : list Z) (s : kmem) (free live : list Z) (d : Z) (U : gmap Z (Z * Z)) (z : Z) (argv : list (list Z)) (esp : Z)
    (s' : kmem) (free' live' : list Z) (T' : gmap Z Z) (U' : gmap Z (Z * Z)) : Prop := {
  xd_as : aspace kend s' free' live' d T' U';
  xd_live : live' ≡ₚ owned d T' U' ++ others;
  xd_total : free' ++ live' ≡ₚ free ++ live;
  xd_same q : q ∈ others → same_page (km_mem s) (km_mem s') q;
  xd_prog : same_program z U U' (km_mem s) (km_mem s');
  xd_stack : stack_space (z + 8192) U';
  xd_none vp : z + 8192 ≤ 4096 * vp → U' !! vp = None;
  xd_args : main_args U' (km_mem s') esp argv }.
Lemma ubyte_same s free live d T U (m' : mem) : aspace kend s free live d T U → (∀ q, q ∈ owned d T U → same_page (km_mem s) m' q) → ∀ a, ubyte U m' a = ubyte U (km_mem s) a.
Proof.
  intros Has Hs a. unfold ubyte. destruct (U !! (a / 4096)) as [[p f]|] eqn:E; [|done]. apply (Hs p); [apply upages_in in E; unfold owned; listin|].
  unfold in_page. Z.to_euclidean_division_equations. lia.
Qed.
Lemma main_args_ext U (m m' : mem) esp argv : (∀ a, ubyte U m' a = ubyte U m a) → main_args U m esp argv → main_args U m' esp argv.
Proof.
  intros H [A1 A2 A3 A4 A5]. assert (∀ a, uword U m' a = uword U m a) as Hw by (intros a; by apply uword_ext). split; rewrite ?Hw; try done.
  intros i a Ha j c Hj. rewrite Hw, H. by apply (A4 i a Ha).
Qed.
(** The old address space goes when the stack is ready. *)
Lemma commit_execed k0 k s1 (t : F) c path elf d esp s free live T0 U0 others z argv free1 live1 T1 U U1 :
  onl k0 [] k → k_procs k0 !! x = Some c → p_kstack c ≠ 0 → aspace kend s free live (p_pgdir c) T0 U0 →
  remade (owned (p_pgdir c) T0 U0 ++ others) s free live d s1 free1 live1 T1 U1 → same_program z U U1 (km_mem s) (km_mem s1) →
  stack_space (z + 8192) U1 → (∀ vp, z + 8192 ≤ 4096 * vp → U1 !! vp = None) → main_args U1 (km_mem s1) esp argv →
  ∃ k' s' free' live', exec_commit kend x path elf d (z + 8192) esp (k, s1, t) = Ret 0 (k', s', t) ∧
    onl (Life.upd x (exec_proc path d (z + 8192) (e_entry elf) esp) k0) [] k' ∧ execed others s free live d U z argv esp s' free' live' T1 U1.
Proof using Hkend Hkm.
  intros Hk Hp Hks Has0 [R1 R2 R3 R4 R5] Hprog Hst Hnone Hargs.
  assert (aspace kend s1 free1 live1 (p_pgdir c) T0 U0) as Has1.
  { apply (aspace_frame kend s free live); [done|apply R1|intros p Hp'; rewrite R2; listin|]. intros p Hp'. apply R5. unfold owned. listin. }
  assert (d ≠ 0) as Hd by (pose proof (pt_dir _ _ _ _ (vi_pt _ _ _ _ _ _ (as_vm _ _ _ _ _ _ _ R1))) as Hd; apply page_range in Hd; lia).
  destruct (exec_commit_ok k0 k s1 t c path elf d (z + 8192) esp free1 live1 T0 U0 Hk Hp Hks Hd Has1) as (k' & s' & fr & free' & live' & E & Hk' & Hfr & [F1 F2 F3 F4 F5]).
  exists k', s', free', live'. split; [exact E|]. split; [exact Hk'|]. assert (live' ≡ₚ owned d T1 U1 ++ others) as Hl' by permz.
  assert (∀ q, q ∈ owned d T1 U1 → same_page (km_mem s1) (km_mem s') q) as Hsame by (intros q Hq; apply F5; rewrite Hl'; listin).
  pose proof (ubyte_same s1 free1 live1 d T1 U1 (km_mem s') R1 Hsame) as Hub. split; [|done|permz| | |done|done|by eapply main_args_ext].
  - apply (aspace_frame kend s1 free1 live1); [done|done|intros q Hq; rewrite Hl'; listin|]. intros q Hq. apply Hsame. unfold owned. listin.
  - intros q Hq. eapply same_page_trans; [apply R5; listin|]. apply F5. rewrite Hl'. listin.
  - intros a Ha. destruct (Hprog a Ha) as [H1 H2]. split; [done|]. by rewrite Hub.
Qed.

Lemma exec_stack_ok k s (t : F) c path argv elf d T U T0 U0 free live others sz : let z := PGROUNDUP sz in
  hw_ok me run D [] (k_hw k) → k_procs k !! x = Some c → p_kstack c ≠ 0 →
  aspace kend s free live d T U → aspace kend s free live (p_pgdir c) T0 U0 → live ≡ₚ owned d T U ++ owned (p_pgdir c) T0 U0 ++ others →
  0 ≤ sz < KERNBASE → program z U → Forall (λ a, Z.of_nat (length a) < z + 4096) argv →
  ∃ k' s' free',
   (exec_stack kend x path argv elf d sz (k, s, t) = Ret (-1) (k', s', t) ∧ onl k [] k' ∧
     freed kend s free live s' (owned d T U) free' (owned (p_pgdir c) T0 U0 ++ others) ∧
     (KERNBASE ≤ z + 8192 ∨ stack_layout (z + 8192) argv = None ∨ Z.of_nat (length free + length (pt_pages d T)) ≤ 1027)) ∨
   ∃ esp live' T' U', exec_stack kend x path argv elf d sz (k, s, t) = Ret 0 (k', s', t) ∧ stack_layout (z + 8192) argv = Some esp ∧
     onl (Life.upd x (exec_proc path d (z + 8192) (e_entry elf) esp) k) [] k' ∧ execed others s free live d U z argv esp s' free' live' T' U'.
Proof using Hkend Hkm.
  intros z Hok Hp Hks Has Has0 Hl Hsz Hprog Hlen. pose proof (only_hw_refl me run D k [] Hok) as Hk. unfold exec_stack. fold z. cbv zeta.
  assert (z mod 4096 = 0 ∧ 0 ≤ z ≤ KERNBASE) as [Hz1 Hz2].
  { unfold KERNBASE in *. destruct (PGROUNDUP_spec sz) as [? ?]; [lia..|]. unfold z. Z.to_euclidean_division_equations. lia. }
  assert (uint (z + 2 * PGSIZE) = z + 8192) as Eu by (unfold PGSIZE, KERNBASE in *; apply uint_small; unfold is_uint; lia). rewrite Eu.
  destruct (grow_stack _ k k s free live d T U z Hk Has Hl Hz1 Hz2 Hprog) as (k1 & s1 & free1 & live1 & T1 & U1 & Hk1 & Hrm1 & [(E1 & Hwhy)|(Hfit & E1 & s2 & U2 & E2 & Hrm & Hst & Hsp & Hnone)]).
  { run (km_Ret _ _ _ t _ _ _ E1). cbn [Z.eqb]. destruct (bad_ok _ k k1 s t free live d T U s1 free1 live1 T1 U1 Hk1 Hl Hrm1) as (k' & s' & free' & E & Hk' & Hf).
    exists k', s', free'. left. split; [exact E|]. split; [done|]. split; [done|]. tauto. }
  run (km_Ret _ _ _ t _ _ _ E1). unfold KERNBASE in *. rewrite (proj2 (Z.eqb_neq _ 0)) by lia.
  assert (uint (z + 8192 - 2 * PGSIZE) = z) as -> by (unfold PGSIZE; rewrite uint_small by (unfold is_uint; lia); lia). run (km_Ret _ _ _ t _ _ _ E2).
  pose proof Hrm as [R1 R2 R3 R4 R5].
  destruct (push_args_ok kend Hkend k1 t free1 live1 d T1 U2 (z + 8192) Hst argv 0 (z + 8192) s2 [] R1) as (m3 & E3 & Has3 & Ho3 & Hp3);
    [lia|by replace (z + 8192 - 4096) with (z + 4096) by lia|]. run E3. clear E3.
  pose proof (outside_remade _ s2 free1 live1 d T1 U2 m3 R1 R2 Ho3 Has3) as Hrm3. unfold stack_layout.
  destruct (arg_sps (z + 8192 - 4096) 0 (z + 8192) argv) as [[sp sps]|] eqn:Esps; cbn [mbind option_bind fst snd app].
  2:{ destruct (bad_ok _ k k1 s t free live d T U _ _ _ _ _ Hk1 Hl (remade_trans _ _ _ _ _ _ _ _ _ _ _ _ _ _ _ Hrm Hrm3)) as (k' & s' & free' & E & Hk' & Hf).
      exists k', s', free'. left. split; [exact E|]. split; [done|]. split; [done|]. tauto. }
  apply arg_sps_max in Esps; [|unfold MAXARG; lia]. set (argc := Z.of_nat (length argv)) in *. set (esp := sp - 4 * (argc + 4)). pose proof Hp3 as (Hsp1 & Hlsps & Hkeep & Hstrs). unfold MAXARG in Esps.
  assert (uint (sp - (3 + argc + 1) * 4) = esp) as -> by (rewrite uint_small by (unfold is_uint; lia); unfold esp; lia).
  assert (uint (sp - (argc + 1) * 4) = esp + 12) as -> by (rewrite uint_small by (unfold is_uint; lia); unfold esp; lia).
  set (ustack := 4294967295 :: argc :: esp + 12 :: sps ++ [0]).
  assert (Z.of_nat (length (words ustack)) = 4 * (argc + 4)) as Elw by (rewrite length_words; unfold ustack; cbn [length]; rewrite length_app, Hlsps; cbn [length]; lia).
  destruct (copyout_stack kend Hkend k1 (upd_mem (λ _, m3) s2) t free1 live1 d T1 U2 (z + 8192) esp (words ustack) Has3 Hst) as (m4 & b & E4 & Hb & Hw4 & Has4); [lia..|]. run E4. clear E4.
  pose proof (outside_remade _ _ free1 live1 d T1 U2 m4 Has3 R2 (proj2 Hw4) Has4) as Hrm4.
  pose proof (remade_trans _ _ _ _ _ _ _ _ _ _ _ _ _ _ _ Hrm (remade_trans _ _ _ _ _ _ _ _ _ _ _ _ _ _ _ Hrm3 Hrm4)) as Hrm'.
  destruct (Z.leb_spec (z + 8192 - 4096) esp) as [Hge|Hlt]; cbn [Z.ltb Z.compare].
  2:{ destruct (bad_ok _ k k1 s t free live d T U _ _ _ _ _ Hk1 Hl Hrm') as (k' & s' & free' & E & Hk' & Hf).
      exists k', s', free'. left. split; [exact E|]. split; [done|]. split; [done|]. right; left. by rewrite (proj2 (Z.ltb_lt _ _)). }
  rewrite (Hb Hge) in Hw4. replace (esp + Z.of_nat (length (words ustack))) with sp in Hw4 by lia.
  pose proof (main_args_ok U2 (km_mem s2) m3 m4 (z + 8192) argv sp sps Hst ltac:(unfold MAXARG; lia) Hge Hp3 Hw4) as Hma.
  destruct (commit_execed k k1 (upd_mem (λ _, m4) (upd_mem (λ _, m3) s2)) t c path elf d esp s free live T0 U0 others z argv free1 live1 T1 U U2 Hk1 Hp Hks Has0 Hrm')
    as (k' & s' & free' & live' & E & Hk' & Hx); [|done|done|exact Hma|].
  { intros a Ha. destruct (Hsp a Ha) as [H1 H2]. split; [done|]. cbn [km_mem upd_mem].
    rewrite (wrote_ubyte _ _ _ _ _ _ _ Hw4), decide_False by first [lia | apply (st_present (z + 8192)); [done|lia]]. cbn [km_mem upd_mem]. rewrite Hkeep by lia. done. }
  exists k', s', free'. right. exists esp, live', T1, U2. split; [exact E|]. rewrite (proj2 (Z.ltb_ge _ _)) by lia. done.
Qed.
End exec_stack.
