(* ===== verification/Loader.v ===== *)
(** * Running a program (exec.c)

    The whole of [exec], over a file system of which it is only known that it
    finds and reads files, as often as it sleeps, and keeps its hands off the
    pages of the process.  [load_spec] is the memory image that an ELF file
    describes.  [exec] gives the process exactly this image, with the stack of
    ExecStack.v, or leaves it in the address space that it had. *)
From stdpp Require Import base list gmap strings.
From Stdlib Require Import ZArith Lia Permutation.
From S2P Require Import Prelude User Mmu Spinlock CpuLocks CString Proc RunQueue Sched Machine Kernel Console Kalloc Vm Uvm CopyUvm Fault Life Args Sysproc Sleeplock Block Bio Log Trans Tx Fs File Sysfile Exec ExecStack.
#[local] Open Scope Z_scope.
#[local] Opaque memset memmove wr32.

(** ** The image of a file *)
(** What [readi] returns of a file with the bytes [file]. *)
Definition read_at (file : list Z) (off n : Z) : Z * list Z :=
  let size := Z.of_nat (length file) in
  if (size <? off) || (uint (off + n) <? off) then (-1, []) else
  let n := if size <? uint (off + n) then size - off else n in
  (n, take (Z.to_nat n) (drop (Z.to_nat off) file)).
Definition fbyte_at (file : list Z) (o : Z) : Z := uchar (default 0 (file !! Z.to_nat o)).
(** The size and the bytes of the image, from the program headers at [off] on. *)
Definition segment (ph : proghdr) (file : list Z) (img : Z → Z) (a : Z) : Z :=
  if decide (ph_vaddr ph ≤ a < ph_vaddr ph + ph_filesz ph) then fbyte_at file (ph_off ph + (a - ph_vaddr ph)) else img a.
Fixpoint load_spec (n : nat) (file : list Z) (off sz : Z) (img : Z → Z) : option (Z * (Z → Z)) :=
  match n with
  | O => Some (sz, img)
  | S n' =>
      if Z.of_nat (length file) <? off + 32 then None else
      let ph := decode_proghdr (take 32 (drop (Z.to_nat off) file)) in
      if negb (ph_type ph =? ELF_PROG_LOAD) || (ph_memsz ph =? 0) then load_spec n' file (uint (off + 32)) sz img else
      let e := ph_vaddr ph + ph_memsz ph in
      if (ph_memsz ph <? ph_filesz ph) || (KERNBASE <=? e) || negb (ph_vaddr ph mod PGSIZE =? 0) then None else
      if (0 <? ph_filesz ph) && (Z.of_nat (length file) <? ph_off ph + ph_filesz ph) then None else
      load_spec n' file (uint (off + 32)) (Z.max sz e) (segment ph file img)
  end.
Lemma load_spec_mono n file : ∀ off sz img sz' img', load_spec n file off sz img = Some (sz', img') → sz ≤ sz'.
Proof.
  induction n as [|n IH]; intros off sz img sz' img' E; cbn [load_spec] in E; [injection E as <- _; lia|].
  destruct (_ <? _); [done|]. destruct (_ || _); [by eapply IH|]. destruct (_ || _); [done|]. destruct (_ && _); [done|]. apply IH in E. lia.
Qed.
Lemma load_spec_bound n file : ∀ off sz img sz' img', sz < KERNBASE → load_spec n file off sz img = Some (sz', img') → sz' < KERNBASE.
Proof.
  induction n as [|n IH]; intros off sz img sz' img' Hsz E; cbn [load_spec] in E; [by injection E as <- _|].
  destruct (_ <? _); [done|]. destruct (_ || _); [by eapply IH|]. destruct (Z.leb_spec KERNBASE (ph_vaddr (decode_proghdr (take 32 (drop (Z.to_nat off) file))) +
    ph_memsz (decode_proghdr (take 32 (drop (Z.to_nat off) file))))); [rewrite orb_true_r in E; done|]. destruct (_ || _); [done|]. destruct (_ && _); [done|]. eapply IH; [|exact E]. lia.
Qed.
Lemma read_at_full file off n : is_uint off → 0 ≤ n < 4294967296 → Z.of_nat (length file) < 2147483648 →
  let r := read_at file off n in
  r.1 = n ∧ off + n ≤ Z.of_nat (length file) ∧ r.2 = take (Z.to_nat n) (drop (Z.to_nat off) file) ∨
  -1 ≤ r.1 < n ∧ Z.of_nat (length file) < off + n ∧ Z.of_nat (length r.2) ≤ n.
Proof.
  intros Ho Hn Hl. unfold is_uint in Ho. unfold read_at. destruct (Z.ltb_spec (Z.of_nat (length file)) off); cbn [orb fst snd length]; [right; lia|].
  destruct (Z.ltb_spec (off + n) 4294967296).
  - rewrite uint_small by (unfold is_uint; lia). rewrite (proj2 (Z.ltb_ge (off + n) off)) by lia. cbv zeta. cbn [fst snd].
    destruct (Z.ltb_spec (Z.of_nat (length file)) (off + n)); [right|left; split; [done|]; split; [lia|done]]. rewrite length_take, length_drop. lia.
  - assert (uint (off + n) = off + n - 4294967296) as -> by (unfold uint; Z.to_euclidean_division_equations; lia).
    rewrite (proj2 (Z.ltb_lt _ off)) by lia. cbn [fst snd length]. right. lia.
Qed.

(** ** The process that executes [exec] *)
Record space := Space { sp_dir : Z; sp_tabs : gmap Z Z; sp_pages : gmap Z (Z * Z) }.
Definition sowned (n : space) : list Z := owned (sp_dir n) (sp_tabs n) (sp_pages n).
Definition news (n : option space) : list Z := match n with Some n => sowned n | None => [] end.
Inductive phase := Outside | InOp | Ref (ip : nat) | Locked (ip : nat).

Section loader.
Context {F : Type} `{!PrintOps (kproc * kmem * F), !FsOps (kproc * kmem * F)}.
Abbreviation K := (kproc * kmem * F)%type.
Variables kend kdata : Z.
Hypothesis Hkend : KERNBASE < kend.
Hypothesis Hdata : kdata mod 4096 = 0 ∧ KERNLINK < kdata < KERNBASE + PHYSTOP.
Variables (D : gset Z) (x : nat).
Hypothesis Hkm : kmem_lock ∈ D.

Definition is_space (s : kmem) (free live : list Z) (n : space) : Prop := aspace kend s free live (sp_dir n) (sp_tabs n) (sp_pages n).
(** The process has its address space, maybe a second one under construction, and
    at least [N] pages are free or in the second one. *)
Definition held (N : Z) (old : space) (new : option space) (s : kmem) : Prop := ∃ free live others,
  is_space s free live old ∧ (∀ n, new = Some n → is_space s free live n) ∧ live ≡ₚ news new ++ sowned old ++ others ∧ N ≤ Z.of_nat (length free + length (news new)).
Definition kept (l : list Z) (m : mem) (s : kmem) : Prop := ∀ q, q ∈ l → same_page m (km_mem s) q.
Definition executes (c : proc) (N : Z) (old : space) (new : option space) (st : K) : Prop := ∃ me run,
  run !! me = Some (Some x) ∧ hw_ok me run D [] (k_hw st.1.1) ∧ k_procs st.1.1 !! x = Some c ∧ held N old new st.1.2.

(** ** What [exec] needs of the file system *)
Context (I : K → Prop) (R : K → K → Prop) (at_phase : phase → F → Prop).
(** Code of the file system: it may sleep, and leaves the process and its pages alone. *)
Definition quietly {A} (p : phase) (m : M K A) (Q : A → phase → Prop) : Prop := ∀ c N old new st,
  executes c N old new st → at_phase p st.2 →
  safe I R (λ a st', executes c N old new st' ∧ kept (news new ++ sowned old) (km_mem st.1.2) st'.1.2 ∧ ∃ p', at_phase p' st'.2 ∧ Q a p') (m st).
(** Paths have a meaning and files have contents. *)
Context (names : list Z → option nat) (content : nat → list Z).
Record LoadLaws : Prop := {
  ll_begin : quietly Outside k_begin_op (λ _ p, p = InOp);
  ll_end : quietly InOp k_end_op (λ _ p, p = Outside);
  ll_namei path : quietly InOp (k_namei path) (λ r p, r = names path ∧ p = match r with Some ip => Ref ip | None => InOp end);
  ll_ilock ip : quietly (Ref ip) (k_ilock ip) (λ _ p, p = Locked ip);
  ll_readi ip off n : is_uint off → 0 ≤ n ≤ PGSIZE → quietly (Locked ip) (k_readi ip off n) (λ r p, r = read_at (content ip) off n ∧ p = Locked ip);
  ll_put ip : quietly (Locked ip) (k_iunlockput ip) (λ _ p, p = InOp);
  ll_print fmt args : quietly Outside (k_cprintf fmt args) (λ _ p, p = Outside);
  ll_file ip : bytes_ok (content ip) ∧ Z.of_nat (length (content ip)) ≤ MAXFILE * BSIZE }.

(** The kernel in the middle of [exec]; [m0] is the memory at its start. *)
Definition inexec (c : proc) (N : Z) (old : space) (m0 : mem) (new : option space) (p : phase) (st : K) : Prop :=
  executes c N old new st ∧ kept (sowned old) m0 st.1.2 ∧ at_phase p st.2.
Lemma quietly_bind {A B} p (m : M K A) Q (f : A → M K B) (Q' : B → K → Prop) c N old m0 new st : quietly p m Q → inexec c N old m0 new p st →
  (∀ a st' p', inexec c N old m0 new p' st' → kept (news new) (km_mem st.1.2) st'.1.2 → Q a p' → safe I R Q' (f a st')) → safe I R Q' (bind m f st).
Proof.
  intros Hm (H1 & H2 & H3) Hf. eapply safe_bind; [by apply (Hm c N old new st)|]. intros a st' (H4 & H5 & p' & H6 & H7). apply (Hf a st' p'); [|intros q Hq; apply H5; listin|done].
  split; [done|]. split; [|done]. intros q Hq. eapply same_page_trans; [by apply H2|]. apply H5. listin.
Qed.

(** The image in the new address space. *)
Definition image (n : space) (z : Z) (img : Z → Z) (s : kmem) : Prop :=
  program z (sp_pages n) ∧ (∀ a, 0 ≤ a < z → ubyte (sp_pages n) (km_mem s) a = img a) ∧ ∀ a, z ≤ a → img a = 0.
Lemma image_kept c N old m0 n p z img st (s' : kmem) : inexec c N old m0 (Some n) p st → kept (news (Some n)) (km_mem st.1.2) s' → image n z img st.1.2 → image n z img s'.
Proof.
  intros ((me & run & _ & _ & _ & free & live & others & _ & Hn & _) & _ & _) Hk (H1 & H2 & H3). split; [done|]. split; [|done]. intros a Ha. rewrite <- H2 by done.
  exact (ubyte_same kend _ free live _ _ _ (km_mem s') (Hn n eq_refl) Hk a).
Qed.

(** ** Steps on the new address space *)
Lemma inexec_remade c N old m0 n p k s t me run free live others k' s' free' live' T' U' :
  run !! me = Some (Some x) → only_hw me run D k [] k' → k_procs k !! x = Some c → is_space s free live old →
  live ≡ₚ sowned n ++ sowned old ++ others → N ≤ Z.of_nat (length free + length (sowned n)) → kept (sowned old) m0 s → at_phase p t →
  remade kend (sowned old ++ others) s free live (sp_dir n) s' free' live' T' U' → inexec c N old m0 (Some (Space (sp_dir n) T' U')) p (k', s', t).
Proof.
  intros Hrun (h & -> & Hok) Hp Hold Hl HN Hk Ht [R1 R2 R3 R4 R5]. split; [|split; [|done]].
  - exists me, run. split; [done|]. split; [done|]. split; [done|]. exists free', live', others. split; [|split; [intros n' E; injection E as E; by rewrite <- E|split; [done|]]].
    + apply (aspace_frame kend s free live); [done|apply R1|intros q Hq; rewrite R2; fold (sowned old) in Hq; listin|].
      intros q Hq. apply R5. apply elem_of_app. left. unfold sowned, owned. listin.
    + apply Permutation_length in Hl, R2, R3. unfold sowned in Hl, HN, R2 |- *. cbn [news]. unfold sowned. cbn [sp_dir sp_tabs sp_pages]. rewrite !length_app in Hl, R2, R3. lia.
  - intros q Hq. eapply same_page_trans; [by apply Hk|]. apply R5. listin.
Qed.
(** A byte of a page of the program is found by a walk of the page table. *)
Lemma user_pte (k : kproc) s free live d T U vp p f : aspace kend s free live d T U → U !! vp = Some (p, f) →
  ∃ pte, walkpgdir d (4096 * vp) false (k, s) = Ret pte (k, s) ∧ pte ≠ 0 ∧ load pte (k, s) = Ret (V2P p + f) (k, s) ∧ P2V (PTE_ADDR (V2P p + f)) = p.
Proof.
  intros Has Hp. destruct (as_tab kend Hkend _ _ _ _ _ _ _ _ _ Has Hp) as [t Ht]. destruct (as_page kend _ _ _ _ _ _ _ _ _ Has Hp) as (Hpok & _ & _).
  pose proof Has as [[_ Hpg _] _ _ Hdom Huser]. pose proof (Hdom _ _ Hp) as Hvp. assert (is_uint (4096 * vp)) as Hua by (unfold is_uint; lia).
  pose proof (Huser vp Hvp) as Hu. rewrite Hp in Hu. destruct Hu as (Hf & _ & Hlk).
  eexists. split; [exact (walk_found kend k s d T (4096 * vp) t false Hpg Hua Ht)|].
  assert (page_ok kend t) as Hpt by (by apply (pt_tab _ _ _ _ Hpg (PDX (4096 * vp)))). pose proof (idx_range _ Hua) as [_ Hix].
  split; [apply page_range in Hpt; lia|]. destruct (pte_page kend p f Hpok Hf) as (E1 & _ & E2). split; [|by rewrite E1].
  rewrite <- Hlk, (lookup_tab kend _ _ T) by done. by rewrite Ht.
Qed.

(** ** loaduvm *)
(** The bytes of the file from [addr + i] on have arrived. *)
Definition filled (file : list Z) (addr off fsz i : Z) (img : Z → Z) (a : Z) : Z :=
  if decide (addr + i ≤ a < addr + fsz) then fbyte_at file (off + (a - addr)) else img a.
Lemma put_page c N old m0 n p k s t z img vp bs : inexec c N old m0 (Some n) p (k, s, t) → image n z img s → 0 ≤ vp → 4096 * vp < z → Z.of_nat (length bs) ≤ 4096 →
  ∃ pg, sp_pages n !! vp = Some (pg, 7) ∧ (∃ pte, walkpgdir (sp_dir n) (4096 * vp) false (k, s) = Ret pte (k, s) ∧ pte ≠ 0 ∧
      load pte (k, s) = Ret (V2P pg + 7) (k, s) ∧ P2V (PTE_ADDR (V2P pg + 7)) = pg) ∧
    inexec c N old m0 (Some n) p (k, upd_mem (put_mem pg bs) s, t) ∧
    (z mod 4096 = 0 → image n z (λ a, if decide (4096 * vp ≤ a < 4096 * vp + Z.of_nat (length bs)) then uchar (default 0 (bs !! Z.to_nat (a - 4096 * vp))) else img a) (upd_mem (put_mem pg bs) s)).
Proof.
  intros ((me & run & Hrun & Hok & Hp & free & live & others & Hold & Hnew & Hl & HN) & Hk & Ht) (Hprog & Himg & H0) Hvp Hz Hlen. cbn [fst snd] in Hok, Hp, Hold, Hnew, Hl, HN, Hk, Ht.
  pose proof (Hprog vp Hvp) as Hpg. rewrite decide_True in Hpg by done. destruct Hpg as [pg Hpg]. pose proof (Hnew n eq_refl) as Has. unfold is_space in Has.
  exists pg. split; [done|]. split; [by apply (user_pte k s free live (sp_dir n) (sp_tabs n) (sp_pages n))|].
  set (m' := put_mem pg bs (km_mem s)). set (src := λ a, uchar (default 0 (bs !! Z.to_nat (a - 4096 * vp)))).
  assert (wrote (sp_pages n) (km_mem s) m' (4096 * vp) (4096 * vp + Z.of_nat (length bs)) src) as Hw.
  { pose proof (wrote_fill kend s free live _ _ _ vp pg 7 0 (Z.of_nat (length bs)) m' src Has Hpg) as Hw. rewrite !Z.add_0_r in Hw. apply Hw; [lia..|].
    intros a. unfold m', src. rewrite rd8_put_mem. case_decide; [|done]. do 4 f_equal. lia. }
  pose proof (wrote_aspace kend s free live _ _ _ _ _ _ _ Has Hw) as Has'. change (upd_mem (put_mem pg bs) s) with (upd_mem (λ _, m') s). split.
  - pose proof (inexec_remade c N old m0 n p k s t me run free live others k (upd_mem (λ _, m') s) free live (sp_tabs n) (sp_pages n) Hrun (only_hw_refl _ _ _ _ _ Hok) Hp Hold Hl HN Hk Ht) as Hi.
    destruct n as [d T U]. cbn [sp_dir sp_tabs sp_pages] in Hi, Has, Hw, Has'. apply Hi. by apply (outside_remade kend _ s free live d T U m' Has Hl (proj2 Hw)).
  - intros Hz4. split; [done|]. split.
    + intros a Ha. assert (is_Some (sp_pages n !! (a / 4096))) as Hs.
      { pose proof (Hprog (a / 4096) ltac:(Z.to_euclidean_division_equations; lia)) as H. rewrite decide_True in H by (Z.to_euclidean_division_equations; lia). destruct H as [q ->]. by eexists. }
      cbn [km_mem upd_mem]. rewrite (wrote_ubyte _ _ _ _ _ _ _ Hw Hs). case_decide; [done|by apply Himg].
    + intros a Ha. rewrite decide_False; [by apply H0|]. Z.to_euclidean_division_equations. lia.
Qed.
Lemma image_ext n z img img' s : image n z img s → (∀ a, img' a = img a) → image n z img' s.
Proof. intros (H1 & H2 & H3) H. split; [done|]. split; intros a Ha; rewrite H; [by apply H2|by apply H3]. Qed.

Hypothesis laws : LoadLaws.
Lemma loaduvm_loop_ok c N old m0 n ip addr off fsz z : let file := content ip in let size := Z.of_nat (length file) in
  addr mod 4096 = 0 → 0 ≤ addr → 0 ≤ fsz → addr + fsz ≤ z → z mod 4096 = 0 → z ≤ KERNBASE → is_uint off →
  ∀ fuel st i img, inexec c N old m0 (Some n) (Locked ip) st → image n z img st.1.2 → 0 ≤ i → i mod 4096 = 0 → (fsz - i + 4095) / 4096 ≤ Z.of_nat fuel → i = 0 ∨ off + Z.min i fsz ≤ size →
  safe I R (λ r st', inexec c N old m0 (Some n) (Locked ip) st' ∧ (r = -1 ∧ i < fsz ∧ size < off + fsz ∨
    r = 0 ∧ (i < fsz → off + fsz ≤ size) ∧ image n z (filled file addr off fsz i img) st'.1.2)) (loaduvm_loop fuel (sp_dir n) addr ip off fsz i st).
Proof.
  intros file size Ha1 Ha2 Hf0 Hz1 Hz2 Hz3 Hoff. unfold KERNBASE in Hz3. pose proof (proj2 (ll_file laws ip)) as Hsize. fold file in Hsize. fold size in Hsize.
  change (MAXFILE * BSIZE) with 71680 in Hsize. unfold is_uint in Hoff.
  induction fuel as [|fuel IH]; intros st i img Hin Himg Hi Hi4 Hfuel Hoi; cbn [loaduvm_loop]; destruct (Z.leb_spec fsz i) as [Hle|Hlt].
  1,3: split; [done|]; right; split; [done|]; split; [lia|]; apply (image_ext n z img); [done|]; intros a; unfold filled; by rewrite decide_False by lia.
  { exfalso. Z.to_euclidean_division_equations. lia. }
  destruct st as [[k s] t]. cbn [fst snd] in Himg. set (vp := (addr + i) / 4096). assert (addr + i = 4096 * vp) as Evp by (unfold vp; Z.to_euclidean_division_equations; lia).
  destruct (put_page c N old m0 n (Locked ip) k s t z img vp [] Hin Himg) as (pg & Hpg & (pte & E1 & E2 & E3 & E4) & _); [lia|lia|done|].
  rewrite uint_small, Evp by (unfold is_uint; lia). run (km_Ret _ _ _ t _ _ _ E1). rewrite (proj2 (Z.eqb_neq _ 0)) by done. run (km_Ret _ _ _ t _ _ _ E3). cbv zeta. rewrite E4.
  set (cnt := if _ <? _ then _ else _). assert (cnt = Z.min (fsz - i) 4096) as Ec by (unfold cnt, PGSIZE; destruct (Z.ltb_spec (fsz - i) 4096); lia). clearbody cnt.
  set (o := uint (off + i)). assert (is_uint o) as Ho by apply uint_range. assert (i ≠ 0 → o = off + i ∧ off + i ≤ size) as Ho' by (intros; unfold o; rewrite uint_small by (unfold is_uint; lia); lia).
  assert (i = 0 → o = off) as Ho0 by (intros ->; unfold o; rewrite uint_small by (unfold is_uint; lia); lia).
  eapply quietly_bind; [apply (ll_readi laws ip o cnt); [done|unfold PGSIZE; lia]|exact Hin|]. intros [r bs] [[k2 s2] t2] p' Hin2 Hk2 [Er ->]. cbn [fst snd] in Hk2.
  apply (image_kept c N old m0 n (Locked ip) z img (k, s, t) s2 Hin Hk2) in Himg.
  pose proof (read_at_full file o cnt Ho ltac:(lia) ltac:(unfold size in Hsize; lia)) as Hr. unfold file in Hr. rewrite <- Er in Hr. fold file in Hr. cbn [fst snd] in Hr. fold size in Hr.
  assert (Z.of_nat (length bs) ≤ 4096) as Hbs by (destruct Hr as [(_ & _ & ->)|Hr]; [rewrite length_take; lia|lia]).
  destruct (put_page c N old m0 n (Locked ip) k2 s2 t2 z img vp bs Hin2 Himg) as (pg' & Hpg' & _ & Hin3 & Himg3); [lia|lia|done|].
  assert (pg' = pg) as -> by congruence. specialize (Himg3 Hz2). erewrite bind_Ret; [|by apply km_Ret].
  destruct Hr as [(-> & Hfit & Ebs)|(Hr1 & Hr2 & _)].
  2:{ rewrite (proj2 (Z.eqb_neq _ cnt)) by (unfold uint; Z.to_euclidean_division_equations; lia). cbn [negb]. split; [exact Hin3|]. left. split; [done|]. split; [lia|].
      destruct (Z.eq_dec i 0) as [Hz|Hz]; [rewrite Ho0 in Hr2 by done|destruct (Ho' Hz) as [-> _] in Hr2]; lia. }
  assert (o = off + i) as Eo by (destruct (Z.eq_dec i 0) as [Hz|Hz]; [rewrite Ho0 by done; lia|by apply Ho']).
  rewrite uint_small by (unfold is_uint; lia). rewrite Z.eqb_refl. cbn [negb]. unfold PGSIZE. rewrite uint_small by (unfold is_uint; lia).
  eapply safe_mono; [apply (IH _ (i + 4096) _ Hin3 Himg3)|].
  - lia.
  - Z.to_euclidean_division_equations; lia.
  - Z.to_euclidean_division_equations; lia.
  - right. lia.
  - intros r [[k4 s4] t4] [H1 [(-> & H2 & H3)|(-> & H2 & H3)]]; (split; [exact H1|]); [left; split; [done|]; lia|right].
    split; [done|]. split; [intros _; destruct (Z.ltb_spec (i + 4096) fsz); [by apply H2|lia]|]. apply (image_ext n z _ _ _ H3). intros a. unfold filled.
    assert (Z.of_nat (length bs) = cnt) as Elb by (rewrite Ebs, length_take, length_drop; lia). rewrite Elb.
    destruct (decide (addr + i ≤ a < addr + fsz)) as [Hd|Hd]; [|by rewrite !decide_False by lia].
    destruct (decide (addr + (i + 4096) ≤ a < addr + fsz)) as [Hd'|Hd']; [done|]. rewrite decide_True by lia. rewrite Ebs, lookup_take_lt, lookup_drop by lia.
    unfold fbyte_at. do 3 f_equal. lia.
Qed.

(** ** The segments *)
Lemma program_size z U : (∀ vp y, U !! vp = Some y → 0 ≤ vp) → program z U → z mod 4096 = 0 → 0 ≤ z → Z.of_nat (length (upages U)) = z / 4096.
Proof.
  intros Hpos Hprog Hz Hz0. unfold upages. rewrite !length_fmap, length_map_to_list, <- size_dom.
  assert (dom U = list_to_set (seqZ 0 (z / 4096))) as ->; [|rewrite size_list_to_set by apply NoDup_seqZ; rewrite length_seqZ; Z.to_euclidean_division_equations; lia].
  apply set_eq. intros vp. rewrite elem_of_dom, elem_of_list_to_set, elem_of_seqZ. split.
  - intros [y Hy]. pose proof (Hpos vp y Hy) as H0. pose proof (Hprog vp H0) as H. destruct (decide _) as [Hd|Hd]; [Z.to_euclidean_division_equations; lia|congruence].
  - intros [H0 H1]. pose proof (Hprog vp H0) as H. rewrite decide_True in H by (Z.to_euclidean_division_equations; lia). destruct H as [p ->]. by eexists.
Qed.
Lemma pgroundup_mono a b : 0 ≤ a ≤ b → b < KERNBASE → PGROUNDUP a ≤ PGROUNDUP b.
Proof. unfold KERNBASE. intros H1 H2. destruct (PGROUNDUP_spec a) as [? ?]; [lia..|]. destruct (PGROUNDUP_spec b) as [? ?]; [lia..|]. Z.to_euclidean_division_equations. lia. Qed.

Lemma grow_image c N old m0 n p k s t sz e img : inexec c N old m0 (Some n) p (k, s, t) → image n (PGROUNDUP sz) img s → 0 ≤ sz < KERNBASE → 0 < e < KERNBASE →
  ∃ k' s' n', sp_dir n' = sp_dir n ∧ inexec c N old m0 (Some n') p (k', s', t) ∧
   (allocuvm kend (sp_dir n) sz e (k, s) = Ret 0 (k', s') ∧ N ≤ 1025 + PGROUNDUP e / 4096 ∨
    allocuvm kend (sp_dir n) sz e (k, s) = Ret (Z.max sz e) (k', s') ∧ image n' (PGROUNDUP (Z.max sz e)) img s').
Proof.
  intros Hin Himg Hsz He. destruct (Z.ltb_spec e sz) as [Hlt|Hge].
  { exists k, s, n. split; [done|]. split; [done|]. right. rewrite Z.max_l by lia. split; [|done]. unfold allocuvm. by rewrite (proj2 (Z.leb_gt _ _)), (proj2 (Z.ltb_lt _ _)) by lia. }
  pose proof Hin as ((me & run & Hrun & Hok & Hp & free & live & others & Hold & Hnew & Hl & HN) & Hk & Ht). cbn [fst snd] in Hok, Hp, Hold, Hnew, Hl, HN, Hk, Ht.
  pose proof (Hnew n eq_refl) as Has. unfold is_space in Has. destruct Himg as (Hprog & Himg & H0).
  destruct (grow_program kend Hkend me run D Hkm (sowned old ++ others) k k s free live (sp_dir n) (sp_tabs n) (sp_pages n) sz e (only_hw_refl _ _ _ _ _ Hok) Has Hl)
    as (k' & s' & free' & live' & T' & U' & Hk' & Hrm & Hr); [lia|lia|done|].
  rewrite Z.max_r by lia. exists k', s', (Space (sp_dir n) T' U'). split; [done|].
  split; [by apply (inexec_remade c N old m0 n p k s t me run free live others k' s' free' live' T' U')|]. unfold KERNBASE in Hsz, He.
  assert (PGROUNDUP sz mod 4096 = 0 ∧ 0 ≤ PGROUNDUP sz ∧ PGROUNDUP sz ≤ PGROUNDUP e ∧ PGROUNDUP e mod 4096 = 0 ∧ e ≤ PGROUNDUP e) as (Hz1 & Hz2 & Hz3 & Hz4 & Hz5).
  { destruct (PGROUNDUP_spec sz) as [? ?]; [lia..|]. destruct (PGROUNDUP_spec e) as [? ?]; [lia..|]. Z.to_euclidean_division_equations. lia. }
  destruct Hr as [(E & Hfew)|(E & Hprog' & Hsp & Hzero)]; [left|right]; (split; [exact E|]).
  - assert (Z.of_nat (length (upages (sp_pages n))) = PGROUNDUP sz / 4096) as Hup by (pose proof Has as [_ _ _ Hdom _]; apply program_size; [intros vp y Hy; apply (Hdom vp y Hy)|done..]).
    cbn [news] in HN. unfold sowned, owned in HN. rewrite length_app in HN. Z.to_euclidean_division_equations. lia.
  - split; [done|]. cbn [sp_pages]. split; [|intros a Ha; apply H0; lia]. intros a Ha. destruct (Z.ltb_spec a (PGROUNDUP sz)).
    + destruct (Hsp a ltac:(lia)) as [_ ->]. apply Himg; lia.
    + rewrite Hzero by lia. symmetry. by apply H0.
Qed.

Lemma decode_range d : bytes_ok d → let ph := decode_proghdr d in is_uint (ph_off ph) ∧ is_uint (ph_vaddr ph) ∧ is_uint (ph_filesz ph) ∧ is_uint (ph_memsz ph).
Proof. intros H. unfold decode_proghdr. cbn. split_and!; by apply ld32_range. Qed.
(** One segment that passes the tests on its header. *)
Lemma load_segment {A} c N old m0 n ip k s t sz img ph (fail : M K A) (next : Z → M K A) (Q : A → K → Prop) : let file := content ip in let e := ph_vaddr ph + ph_memsz ph in
  inexec c N old m0 (Some n) (Locked ip) (k, s, t) → image n (PGROUNDUP sz) img s → 0 ≤ sz < KERNBASE →
  is_uint (ph_off ph) → 0 ≤ ph_vaddr ph → 0 ≤ ph_filesz ph ≤ ph_memsz ph → 0 < ph_memsz ph → e < KERNBASE →
  (∀ n' st', sp_dir n' = sp_dir n → inexec c N old m0 (Some n') (Locked ip) st' →
    ph_vaddr ph mod PGSIZE ≠ 0 ∨ (0 <? ph_filesz ph) && (Z.of_nat (length file) <? ph_off ph + ph_filesz ph) = true ∨ N ≤ 1025 + PGROUNDUP e / 4096 → safe I R Q (fail st')) →
  (∀ n' st', sp_dir n' = sp_dir n → inexec c N old m0 (Some n') (Locked ip) st' →
    ph_vaddr ph mod PGSIZE = 0 → (0 <? ph_filesz ph) && (Z.of_nat (length file) <? ph_off ph + ph_filesz ph) = false →
    image n' (PGROUNDUP (Z.max sz e)) (segment ph file img) st'.1.2 → safe I R Q (next (Z.max sz e) st')) →
  safe I R Q ((let! sz := km (allocuvm kend (sp_dir n) sz e) in
     if sz =? 0 then fail else
     if negb (ph_vaddr ph mod PGSIZE =? 0) then fail else
     let! r := loaduvm (sp_dir n) (ph_vaddr ph) ip (ph_off ph) (ph_filesz ph) in
     if r <? 0 then fail else next sz) (k, s, t)).
Proof.
  intros file e Hin Himg Hsz Ho Hv Hf Hm He Hfail Hnext.
  destruct (grow_image c N old m0 n (Locked ip) k s t sz e img Hin Himg Hsz ltac:(unfold e; lia)) as (k1 & s1 & n1 & Hd & Hin1 & [(E & Hfew)|(E & Himg1)]); run (km_Ret _ _ _ t _ _ _ E).
  { cbn [Z.eqb]. apply (Hfail n1); [done|done|tauto]. }
  rewrite (proj2 (Z.eqb_neq _ 0)) by (unfold e; lia). destruct (Z.eqb_spec (ph_vaddr ph mod PGSIZE) 0) as [Hal|Hal]; cbn [negb]; [|apply (Hfail n1); [done|done|tauto]].
  unfold loaduvm. rewrite (proj2 (Z.eqb_eq _ _) Hal). cbn [negb]. rewrite <- Hd. set (z := PGROUNDUP (Z.max sz e)) in *.
  assert (z mod 4096 = 0 ∧ e ≤ z ∧ z ≤ KERNBASE) as (Hz1 & Hz2 & Hz3).
  { unfold KERNBASE in *. destruct (PGROUNDUP_spec (Z.max sz e)) as [? ?]; [unfold e; lia|lia|]. clear Hnext. subst z. Z.to_euclidean_division_equations. lia. }
  eapply safe_bind; [apply (loaduvm_loop_ok c N old m0 n1 ip (ph_vaddr ph) (ph_off ph) (ph_filesz ph) z Hal Hv (proj1 Hf) ltac:(unfold e in *; lia) Hz1 Hz3 Ho _ (k1, s1, t) 0 img Hin1 Himg1)|].
  - done.
  - done.
  - unfold PGSIZE. rewrite Z.sub_0_r. replace (ph_filesz ph + 4096 - 1) with (ph_filesz ph + 4095) by lia. lia.
  - by left.
  - intros r st' [Hin2 [(-> & H1 & H2)|(-> & H1 & H2)]]; cbn [Z.ltb Z.compare].
    + apply (Hfail n1); [done|exact Hin2|]. right; left. apply andb_true_iff. split; by apply Z.ltb_lt.
    + apply (Hnext n1); [done|exact Hin2|done| |apply (image_ext n1 z _ _ _ H2); intros a; unfold segment, filled; by rewrite Z.add_0_r].
      destruct (Z.ltb_spec 0 (ph_filesz ph)); [|done]. apply Z.ltb_ge. by apply H1.
Qed.

Lemma load_segments_ok c N old m0 ip : let file := content ip in ∀ cnt st n off sz img,
  inexec c N old m0 (Some n) (Locked ip) st → image n (PGROUNDUP sz) img st.1.2 → 0 ≤ sz < KERNBASE →
  safe I R (λ r st', ∃ n', sp_dir n' = sp_dir n ∧ inexec c N old m0 (Some n') (Locked ip) st' ∧
    match r with
    | Some sz' => ∃ img', load_spec cnt file (uint off) sz img = Some (sz', img') ∧ image n' (PGROUNDUP sz') img' st'.1.2
    | None => ∀ sz' img', load_spec cnt file (uint off) sz img = Some (sz', img') → N ≤ 1025 + PGROUNDUP sz' / 4096
    end) (load_segments kend cnt ip (sp_dir n) off sz st).
Proof.
  intros file. pose proof (ll_file laws ip) as [Hbytes Hsize]. fold file in Hbytes, Hsize. change (MAXFILE * BSIZE) with 71680 in Hsize.
  induction cnt as [|cnt IH]; intros st n off sz img Hin Himg Hsz; cbn [load_segments load_spec].
  { exists n. split; [done|]. split; [exact Hin|]. by exists img. }
  eapply quietly_bind; [apply (ll_readi laws ip (uint off) 32); [apply uint_range|unfold PGSIZE; lia]|exact Hin|]. intros [r d] st1 p' Hin1 Hk1 [Er ->].
  pose proof (image_kept c N old m0 n (Locked ip) _ img st st1.1.2 Hin Hk1 Himg) as Himg1. clear Hin Himg Hk1.
  pose proof (read_at_full file (uint off) 32 (uint_range off) ltac:(lia) ltac:(lia)) as Hr. unfold file in Hr. rewrite <- Er in Hr. fold file in Hr. cbn [fst snd] in Hr.
  destruct Hr as [(-> & Hfit & ->)|(Hr1 & Hr2 & _)].
  2:{ rewrite (proj2 (Z.eqb_neq r 32)) by lia. cbn [negb]. exists n. split; [done|]. split; [exact Hin1|]. by rewrite (proj2 (Z.ltb_lt _ _)). }
  rewrite Z.eqb_refl, (proj2 (Z.ltb_ge _ (uint off + 32))) by lia. cbn [negb]. cbv zeta. change (Z.to_nat 32) with 32%nat.
  set (ph := decode_proghdr _). pose proof (decode_range (take 32 (drop (Z.to_nat (uint off)) file)) ltac:(by apply Forall_take, Forall_drop)) as (Ho & Hv & Hf & Hm). fold ph in Ho, Hv, Hf, Hm.
  assert (∀ sz img, load_spec cnt file (uint (uint off + 32)) sz img = load_spec cnt file (uint (sint (off + 32))) sz img) as Enext by (intros; by rewrite uint_sint, uint_add_l).
  destruct (negb (ph_type ph =? ELF_PROG_LOAD) || (ph_memsz ph =? 0)) eqn:Eskip.
  { rewrite Enext. by apply IH. }
  apply orb_false_iff in Eskip as [_ Hm0%Z.eqb_neq]. unfold is_uint in Hv, Hf, Hm.
  destruct (Z.ltb_spec (ph_memsz ph) (ph_filesz ph)) as [Hb|Hb]; cbn [orb]; [exists n; split; [done|]; split; [exact Hin1|done]|].
  destruct (Z.ltb_spec (uint (ph_vaddr ph + ph_memsz ph)) (ph_vaddr ph)) as [Hw|Hw].
  { exists n. split; [done|]. split; [exact Hin1|]. rewrite (proj2 (Z.leb_le KERNBASE _)) by (unfold KERNBASE, uint in *; Z.to_euclidean_division_equations; lia). done. }
  assert (ph_vaddr ph + ph_memsz ph < 4294967296) as He by (unfold uint in Hw; Z.to_euclidean_division_equations; lia). rewrite (uint_small (ph_vaddr ph + ph_memsz ph)) by (unfold is_uint; lia).
  destruct st1 as [[k s] t]. destruct (Z.leb_spec KERNBASE (ph_vaddr ph + ph_memsz ph)) as [Hbig|Hok]; cbn [orb].
  { erewrite bind_Ret; [|apply km_Ret; unfold allocuvm; rewrite (proj2 (Z.leb_le _ _)) by lia; reflexivity]. cbn [Z.eqb]. exists n. split; [done|]. split; [exact Hin1|done]. }
  eapply (load_segment c N old m0 n ip k s t sz img ph); [exact Hin1|exact Himg1|done|exact Ho|lia|lia|lia|done| |].
  - intros n' st' Hd Hin' Hwhy. exists n'. split; [done|]. split; [exact Hin'|]. intros sz' img' E. destruct (Z.eqb_spec (ph_vaddr ph mod PGSIZE) 0) as [Hal|Hal]; cbn [negb] in E; [|done].
    fold file in Hwhy. destruct ((0 <? ph_filesz ph) && _); [done|]. destruct Hwhy as [?|[?|Hwhy]]; [done|done|].
    pose proof (load_spec_mono _ _ _ _ _ _ _ E). pose proof (load_spec_bound _ _ _ (Z.max sz (ph_vaddr ph + ph_memsz ph)) _ _ _ ltac:(lia) E).
    pose proof (pgroundup_mono (ph_vaddr ph + ph_memsz ph) sz' ltac:(lia) ltac:(done)). Z.to_euclidean_division_equations. lia.
  - intros n' st' Hd Hin' Hal Hfile Himg'. fold file in Hfile, Himg'. rewrite Hfile, (proj2 (Z.eqb_eq _ _) Hal). cbn [negb]. rewrite Enext.
    eapply safe_mono; [rewrite <- Hd; apply (IH st' n' (sint (off + 32)) _ (segment ph file img) Hin' Himg'); lia|].
    intros r st'' (n'' & Hd'' & H1 & H2). exists n''. split; [congruence|]. split; [exact H1|exact H2].
Qed.

(** ** exec *)
Lemma inexec_freed c N old m0 n p k s t me run free live others k' s' free' :
  run !! me = Some (Some x) → only_hw me run D k [] k' → k_procs k !! x = Some c → is_space s free live old →
  live ≡ₚ sowned n ++ sowned old ++ others → N ≤ Z.of_nat (length free + length (sowned n)) → kept (sowned old) m0 s → at_phase p t →
  freed kend s free live s' (sowned n) free' (sowned old ++ others) → inexec c N old m0 None p (k', s', t).
Proof.
  intros Hrun (h & -> & Hok) Hp Hold Hl HN Hk Ht [F1 F2 F3 F4 F5]. split; [|split; [|done]].
  - exists me, run. split; [done|]. split; [done|]. split; [done|]. exists free', (sowned old ++ others), others. split; [|split; [done|split; [done|]]].
    + apply (aspace_frame kend s free live); [done|done|intros q Hq; fold (sowned old) in Hq; listin|]. intros q Hq. apply F5. apply elem_of_app. left. unfold sowned, owned. listin.
    + apply Permutation_length in F2. rewrite length_app in F2. cbn [news length]. lia.
  - intros q Hq. eapply same_page_trans; [by apply Hk|]. apply F5. listin.
Qed.
Lemma bad_ip_ok c N old m0 new ip st : inexec c N old m0 new (Locked ip) st →
  safe I R (λ r st', r = -1 ∧ inexec c N old m0 None Outside st') (bad_ip kend (match new with Some n => sp_dir n | None => 0 end) ip st).
Proof.
  intros Hin. assert (∃ st1, (if negb (match new with Some n => sp_dir n | None => 0 end =? 0) then km (freevm kend (match new with Some n => sp_dir n | None => 0 end) true) else ret ()) st = Ret () st1 ∧
    inexec c N old m0 None (Locked ip) st1) as (st1 & E & Hin1).
  { destruct new as [n|]; [|by exists st]. destruct st as [[k s] t]. pose proof Hin as ((me & run & Hrun & Hok & Hp & free & live & others & Hold & Hnew & Hl & HN) & Hk & Ht).
    cbn [fst snd] in Hok, Hp, Hold, Hnew, Hl, HN, Hk, Ht. pose proof (Hnew n eq_refl) as Has. unfold is_space in Has.
    pose proof (page_range kend _ (pt_dir _ _ _ _ (vi_pt _ _ _ _ _ _ (as_vm _ _ _ _ _ _ _ Has)))) as Hd. rewrite (proj2 (Z.eqb_neq _ 0)) by lia. cbn [negb].
    destruct (freevm_new kend Hkend me run D Hkm (sowned old ++ others) k k s t free live (sp_dir n) (sp_tabs n) (sp_pages n) s free live (sp_tabs n) (sp_pages n) (only_hw_refl _ _ _ _ _ Hok) Hl)
      as (k' & s' & free' & E & Hk' & HF); [by split|]. exists (k', s', t). split; [exact E|]. by apply (inexec_freed c N old m0 n _ k s t me run free live others k' s' free'). }
  unfold bad_ip. run E. eapply quietly_bind; [apply (ll_put laws)|exact Hin1|]. intros _ st2 p2 Hin2 _ ->. eapply quietly_bind; [apply (ll_end laws)|exact Hin2|].
  intros _ st3 p3 Hin3 _ ->. split; [done|exact Hin3].
Qed.

(** What [exec] should do: the entry, the size and bytes of the program, and the stack pointer. *)
Definition exec_spec (path : list Z) (argv : list (list Z)) : option (Z * Z * (Z → Z) * Z) :=
  ip ← names path;
  let file := content ip in
  if Z.of_nat (length file) <? 52 then None else
  let elf := decode_elfhdr (take 52 file) in
  if negb (e_magic elf =? ELF_MAGIC) then None else
  r ← load_spec (Z.to_nat (e_phnum elf)) file (e_phoff elf) 0 (λ _, 0);
  if KERNBASE <=? PGROUNDUP r.1 + 8192 then None else
  esp ← stack_layout (PGROUNDUP r.1 + 8192) argv;
  Some (e_entry elf, PGROUNDUP r.1, r.2, esp).
(** The process runs the program, in the address space [n].  Of the [N] free pages
    and those of the space [old] that it had, all but the pages of [n] are free. *)
Record runs_program (c : proc) (N : Z) (old : space) (path : list Z) (argv : list (list Z)) (entry z : Z) (img : Z → Z) (esp : Z) (n : space) (st : K) : Prop := {
  rp_exec : executes (exec_proc path (sp_dir n) (z + 8192) entry esp c) (N + Z.of_nat (length (sowned old)) - Z.of_nat (length (sowned n))) n None st;
  rp_phase : at_phase Outside st.2;
  rp_image a : 0 ≤ a < z → ubyte (sp_pages n) (km_mem st.1.2) a = img a;
  rp_stack : stack_space (z + 8192) (sp_pages n);
  rp_args : main_args (sp_pages n) (km_mem st.1.2) esp argv }.
Definition exec_post (c : proc) (N : Z) (old : space) (m0 : mem) (path : list Z) (argv : list (list Z)) (r : Z) (st : K) : Prop :=
  match exec_spec path argv with
  | Some (entry, z, img, esp) =>
      (∃ n, r = 0 ∧ runs_program c N old path argv entry z img esp n st) ∨ r = -1 ∧ N ≤ 1025 + (z + 8192) / 4096 ∧ inexec c N old m0 None Outside st
  | None => r = -1 ∧ inexec c N old m0 None Outside st
  end.

Lemma exec_stack_post c N old m0 n path argv elf sz img st : let z := PGROUNDUP sz in
  inexec c N old m0 (Some n) Outside st → image n z img st.1.2 → 0 ≤ sz < KERNBASE → p_kstack c ≠ 0 → p_pgdir c = sp_dir old → Forall (λ a, Z.of_nat (length a) < 4096) argv →
  ∃ r st', exec_stack kend x path argv elf (sp_dir n) sz st = Ret r st' ∧
    if KERNBASE <=? z + 8192 then r = -1 ∧ inexec c N old m0 None Outside st' else
    match stack_layout (z + 8192) argv with
    | Some esp => (∃ n', r = 0 ∧ runs_program c N old path argv (e_entry elf) z img esp n' st') ∨ r = -1 ∧ N ≤ 1025 + (z + 8192) / 4096 ∧ inexec c N old m0 None Outside st'
    | None => r = -1 ∧ inexec c N old m0 None Outside st'
    end.
Proof.
  intros z Hin (Hprog & Himg & _) Hsz Hks Hpd Hlen. destruct st as [[k s] t]. pose proof Hin as ((me & run & Hrun & Hok & Hp & free & live & others & Hold & Hnew & Hl & HN) & Hk & Ht).
  cbn [fst snd] in Hok, Hp, Hold, Hnew, Hl, HN, Hk, Ht, Himg. pose proof (Hnew n eq_refl) as Has. unfold is_space in Has, Hold. unfold sowned in Hl. cbn [news] in Hl. rewrite <- Hpd in Hold, Hl.
  assert (z mod 4096 = 0 ∧ 0 ≤ z ≤ KERNBASE) as [Hz1 Hz2].
  { unfold KERNBASE in *. destruct (PGROUNDUP_spec sz) as [? ?]; [lia..|]. unfold z. Z.to_euclidean_division_equations. lia. }
  destruct (exec_stack_ok kend Hkend me run D x Hkm k s t c path argv elf (sp_dir n) (sp_tabs n) (sp_pages n) (sp_tabs old) (sp_pages old) free live others sz Hok Hp Hks Has Hold Hl Hsz Hprog)
    as (k' & s' & free' & [(E & Hk' & HF & Hwhy)|(esp & live' & T' & U' & E & Hesp & Hk' & HX)]).
  { eapply Forall_impl; [exact Hlen|]. cbv beta. intros a Ha. fold z. lia. }
  - fold z in Hwhy. exists (-1), (k', s', t). split; [exact E|]. rewrite Hpd in HF, Hold. fold (sowned old) in HF.
    assert (inexec c N old m0 None Outside (k', s', t)) as Hin'.
    { rewrite Hpd in Hl. by apply (inexec_freed c N old m0 n Outside k s t me run free live others k' s' free'). }
    destruct (Z.leb_spec KERNBASE (z + 8192)); [done|]. destruct (stack_layout (z + 8192) argv); [|done]. right. split; [done|]. split; [|done].
    destruct Hwhy as [?|[?|Hwhy]]; [lia|done|]. cbn [news] in HN. unfold sowned, owned in HN. rewrite length_app in HN.
    assert (Z.of_nat (length (upages (sp_pages n))) = z / 4096) as Hup by (pose proof Has as [_ _ _ Hdom _]; apply program_size; [intros vp y Hy; apply (Hdom vp y Hy)|done|done|lia]).
    Z.to_euclidean_division_equations. lia.
  - fold z in Hesp, Hk', HX. exists 0, (k', s', t). split; [exact E|]. destruct HX as [X1 X2 X3 X4 X5 X6 X7 X8]. destruct (st_top _ _ X6) as [_ Htop].
    rewrite (proj2 (Z.leb_gt _ _)), Hesp by lia. left. exists (Space (sp_dir n) T' U'). split; [done|]. destruct Hk' as (h & -> & Hok'). split; [|done| |done|done].
    + exists me, run. split; [done|]. split; [done|]. split; [by apply lookup_upd|]. exists free', live', others. split; [exact X1|]. split; [done|]. split; [exact X2|].
      apply Permutation_length in Hl, X2, X3. rewrite Hpd in Hl. unfold sowned, news in Hl, HN |- *. unfold sowned in Hl, HN. cbn [sp_dir sp_tabs sp_pages length]. rewrite !length_app in Hl; rewrite length_app in X2; rewrite !length_app in X3. lia.
    + intros a Ha. cbn [sp_pages fst snd]. destruct (X5 a Ha) as [_ ->]. by apply Himg.
Qed.

(** A new address space, with nothing below [KERNBASE]. *)
Lemma setupkvm_new c N old m0 p k s t : inexec c N old m0 None p (k, s, t) →
  ∃ r k' s', km (setupkvm kend kdata) (k, s, t) = Ret r (k', s', t) ∧
    (r = 0 ∧ N ≤ 1025 ∧ inexec c N old m0 None p (k', s', t) ∨
     ∃ n, r = sp_dir n ∧ r ≠ 0 ∧ inexec c N old m0 (Some n) p (k', s', t) ∧ image n 0 (λ _, 0) s').
Proof.
  intros ((me & run & Hrun & Hok & Hp & free & live & others & Hold & Hnew & Hl & HN) & Hk & Ht). cbn [fst snd news length app] in Hok, Hp, Hold, Hl, HN, Hk, Ht. unfold is_space in Hold.
  destruct (setupkvm_ok kend kdata (.∈ D) (only_hw me run D k) [] Hkm ltac:(apply not_elem_of_nil) Hkend Hdata k s free live (vi_kmem _ _ _ _ _ _ (as_vm _ _ _ _ _ _ _ Hold)) (only_hw_refl _ _ _ _ _ Hok))
    as (k' & s' & free' & (h & -> & Hok') & [(d & T & live' & E & HC)|(E & [R1 R2 R3 R4 R5])]).
  - exists d, (with_hw h k), s'. split; [by apply km_Ret|]. right. exists (Space d T ∅). split; [done|]. split; [by eapply created_page|]. destruct HC as [C1 C2 C3 C4 C5 C6].
    split; [split; [|split; [|done]]|].
    + exists me, run. split; [done|]. split; [done|]. split; [done|]. exists free', live', others. split; [|split; [intros n' E'; injection E' as <-; exact C1|split]].
      * apply (aspace_frame kend s free live); [done|apply C1|intros q Hq; rewrite C3, Hl; fold (sowned old) in Hq; listin|]. intros q Hq. apply C5. rewrite Hl. unfold sowned, owned. listin.
      * cbn [news]. unfold sowned at 1. cbn [sp_dir sp_tabs sp_pages]. permz.
      * apply Permutation_length in C2. rewrite length_app in C2. cbn [news]. unfold sowned. cbn [sp_dir sp_tabs sp_pages]. lia.
    + intros q Hq. eapply same_page_trans; [by apply Hk|]. apply C5. rewrite Hl. listin.
    + split; [|split; [intros; lia|done]]. intros vp Hvp. rewrite decide_False by lia. done.
  - exists 0, (with_hw h k), s'. split; [by apply km_Ret|]. left. split; [done|]. split; [lia|]. split; [|split; [|done]].
    + exists me, run. split; [done|]. split; [done|]. split; [done|]. exists free', live, others. split; [|split; [done|split; [done|]]].
      * apply (aspace_frame kend s free live); [done|done|intros q Hq; rewrite Hl; fold (sowned old) in Hq; listin|]. intros q Hq. apply R5. rewrite Hl. unfold sowned, owned. listin.
      * apply Permutation_length in R3. cbn [news length]. lia.
    + intros q Hq. eapply same_page_trans; [by apply Hk|]. apply R5. rewrite Hl. listin.
Qed.

Lemma exec_ok path argv c N old st : executes c N old None st → at_phase Outside st.2 → p_kstack c ≠ 0 → p_pgdir c = sp_dir old →
  Forall (λ a, Z.of_nat (length a) < 4096) argv → safe I R (exec_post c N old (km_mem st.1.2) path argv) (exec kend kdata path argv st).
Proof.
  intros Hex Ht Hks Hpd Hlen. set (m0 := km_mem st.1.2). destruct st as [[k s] t]. unfold exec.
  pose proof Hex as (me & run & Hrun & Hok & Hp & Hheld). destruct (cur_ok me run D x [] Hrun k k (only_hw_refl _ _ _ _ _ Hok)) as (k1 & E1 & h & -> & Hok1). run (kp_Ret _ _ s t _ _ E1).
  erewrite (bind_Ret (deref (Some x))); [|reflexivity].
  assert (inexec c N old m0 None Outside (with_hw h k, s, t)) as Hin by (split; [by exists me, run|split; [by intros q _|done]]). clear Hex Hrun Hok Hp Hheld E1 Hok1.
  eapply quietly_bind; [apply (ll_begin laws)|exact Hin|]. intros _ st1 p1 Hin1 _ ->. eapply quietly_bind; [apply (ll_namei laws)|exact Hin1|].
  intros ip st2 p2 Hin2 _ [-> ->]. unfold exec_post, exec_spec. destruct (names path) as [ip|]; cbn [mbind option_bind].
  2:{ eapply quietly_bind; [apply (ll_end laws)|exact Hin2|]. intros _ st3 p3 Hin3 _ ->. eapply quietly_bind; [apply (ll_print laws)|exact Hin3|]. intros _ st4 p4 Hin4 _ ->. by split. }
  pose proof (ll_file laws ip) as [Hbytes Hsize]. change (MAXFILE * BSIZE) with 71680 in Hsize.
  eapply quietly_bind; [apply (ll_ilock laws)|exact Hin2|]. intros _ st3 p3 Hin3 _ ->. eapply quietly_bind; [apply (ll_readi laws ip 0 52); [done|unfold PGSIZE; lia]|exact Hin3|].
  intros [r d] st4 p4 Hin4 _ [Er ->]. set (file := content ip) in *.
  pose proof (read_at_full file 0 52 ltac:(done) ltac:(lia) ltac:(lia)) as Hr. rewrite <- Er in Hr. cbn [fst snd] in Hr. cbv zeta in Hr. destruct Hr as [(-> & Hfit & ->)|(Hr1 & Hr2 & _)].
  2:{ rewrite (proj2 (Z.eqb_neq r 52)), (proj2 (Z.ltb_lt _ 52)) by lia. cbn [negb]. exact (bad_ip_ok c N old m0 None ip st4 Hin4). }
  rewrite Z.eqb_refl, (proj2 (Z.ltb_ge _ 52)) by lia. cbn [negb]. rewrite drop_0. change (Z.to_nat 52) with 52%nat. cbv zeta. set (elf := decode_elfhdr (take 52 file)).
  assert (is_uint (e_phoff elf)) as Hoff by (apply ld32_range; by apply Forall_take). destruct (e_magic elf =? ELF_MAGIC); cbn [negb]; [|exact (bad_ip_ok c N old m0 None ip st4 Hin4)].
  destruct st4 as [[k4 s4] t4]. destruct (setupkvm_new c N old m0 (Locked ip) k4 s4 t4 Hin4) as (d & k5 & s5 & E5 & [(-> & HN & Hin5)|(n & -> & Hd & Hin5 & Himg5)]); run E5.
  { cbn [Z.eqb]. eapply safe_mono; [exact (bad_ip_ok c N old m0 None ip _ Hin5)|]. intros r st' [-> H]. destruct (load_spec _ _ _ _ _) as [[sz img]|] eqn:El; [|done].
    pose proof (load_spec_mono _ _ _ _ _ _ _ El). pose proof (load_spec_bound _ _ _ 0 _ _ _ ltac:(done) El). cbn [mbind option_bind fst snd]. destruct (_ <=? _); [done|].
    destruct (stack_layout _ _); [|done]. right. split; [done|]. split; [|done]. unfold KERNBASE in *. destruct (PGROUNDUP_spec sz) as [? ?]; [lia..|]. Z.to_euclidean_division_equations. lia. }
  rewrite (proj2 (Z.eqb_neq _ 0)) by done.
  eapply safe_bind; [apply (load_segments_ok c N old m0 ip (Z.to_nat (e_phnum elf)) (k5, s5, t4) n (sint (e_phoff elf)) 0 (λ _, 0) Hin5 Himg5); unfold KERNBASE; lia|].
  fold file. rewrite uint_sint, uint_small by done. intros r st6 (n6 & Hd6 & Hin6 & Hr). rewrite <- Hd6. destruct r as [sz|].
  2:{ eapply safe_mono; [exact (bad_ip_ok c N old m0 (Some n6) ip _ Hin6)|]. intros r st' [-> H]. destruct (load_spec _ _ _ _ _) as [[sz img]|] eqn:El; [|done].
      pose proof (load_spec_mono _ _ _ _ _ _ _ El). cbn [mbind option_bind fst snd]. destruct (_ <=? _); [done|].
      destruct (stack_layout _ _); [|done]. right. split; [done|]. split; [|done]. specialize (Hr _ _ eq_refl). Z.to_euclidean_division_equations. lia. }
  destruct Hr as (img & El & Himg6). rewrite El. cbn [mbind option_bind fst snd]. pose proof (load_spec_mono _ _ _ _ _ _ _ El). pose proof (load_spec_bound _ _ _ 0 _ _ _ ltac:(done) El).
  eapply quietly_bind; [apply (ll_put laws)|exact Hin6|]. intros _ st7 p7 Hin7 Hk7 ->. pose proof (image_kept _ _ _ _ _ _ _ _ _ _ Hin6 Hk7 Himg6) as Himg7.
  eapply quietly_bind; [apply (ll_end laws)|exact Hin7|]. intros _ st8 p8 Hin8 Hk8 ->. pose proof (image_kept _ _ _ _ _ _ _ _ _ _ Hin7 Hk8 Himg7) as Himg8.
  destruct (exec_stack_post c N old m0 n6 path argv elf sz img st8 Hin8 Himg8 ltac:(lia) Hks Hpd Hlen) as (r & st' & E & Hr). rewrite E. cbn [safe].
  destruct (KERNBASE <=? _); [done|]. by destruct (stack_layout _ _).
Qed.
End loader.

(** C9: [exec] runs a program or changes nothing.  Take a file system that gives
    paths and files a meaning, and that leaves the pages of a process alone while
    it works and sleeps.  If the file that the path names is an ELF file whose
    segments and arguments fit, then [exec] returns 0 and the process is in a new
    address space that consists of exactly the image that the file describes, a
    guard page, and a stack on which [main] finds its arguments, with entry point,
    stack pointer, size and name set, or there were not enough free pages.
    Otherwise, and when pages run out, it returns -1, and the process has the
    address space, the memory and the registers that it had.  No page is lost: if
    [N] pages were free, then [N] are free after a failure, and after a success
    [N] and all pages of the old address space, less those of the new one.  No
    transaction is open and no inode is locked at the end.  An argument is shorter
    than a page, as any that fits is: for one of many megabytes [copyout] could run
    into the missing page table of [uva2ka]. *)
Theorem exec_correct {F : Type} `{!PrintOps (kproc * kmem * F), !FsOps (kproc * kmem * F)} kend kdata (D : gset Z) (x : nat)
    (I : kproc * kmem * F → Prop) R at_phase names content path argv c N old st :
  KERNBASE < kend → kdata mod 4096 = 0 ∧ KERNLINK < kdata < KERNBASE + PHYSTOP → kmem_lock ∈ D →
  LoadLaws kend D x I R at_phase names content →
  executes kend D x c N old None st → at_phase Outside st.2 → p_kstack c ≠ 0 → p_pgdir c = sp_dir old → Forall (λ a, Z.of_nat (length a) < 4096) argv →
  safe I R (exec_post kend D x at_phase names content c N old (km_mem st.1.2) path argv) (exec kend kdata path argv st).
Proof. intros Hkend Hdata Hkm laws. by apply exec_ok. Qed.

(** ** Example *)
(** A file system with one program, of four bytes of text and four of data. *)
Definition ex_elf : list Z :=
  st32 0 ELF_MAGIC (st32 24 4 (st32 28 52 (st16 44 1 (replicate 52 0)))) ++
  st32 0 1 (st32 4 84 (st32 16 4 (st32 20 8 (replicate 32 0)))) ++ [144; 144; 235; 254].
Definition set_phase (p : phase) : M (kproc * kmem * phase) () := λ st, Ret () (st.1, p).
Definition ex_loader : FsOps (kproc * kmem * phase) := {|
  k_begin_op := set_phase InOp; k_end_op := set_phase Outside; k_namei _ := set_phase (Ref 0) ;;; ret (Some 0%nat); k_nameiparent _ := ret (None, []); k_iinit := ret (); k_initlog := ret ();
  k_idup ip := ret ip; k_ialloc _ _ := ret 0%nat; k_inode _ := ret inode0; k_iset _ _ := ret (); k_iupdate _ := ret (); k_ilock ip := set_phase (Locked ip);
  k_iunlock _ := ret (); k_iput _ := set_phase InOp; k_stati _ := ret (Stat 0 0 0 0 0); k_readi _ off n := ret (read_at ex_elf off n);
  k_writei _ _ _ n := ret n; k_dirlookup _ _ := ret None; k_dirlink _ _ _ := ret 0 |}.
Lemma ex_quietly {A} kend D x (p : phase) (m : M (kproc * kmem * phase) A) (Q : A → phase → Prop) :
  (∀ st, st.2 = p → ∃ a p', m st = Ret a (st.1, p') ∧ Q a p') → quietly kend D x (λ _, True) (λ _ _, True) eq p m Q.
Proof. intros Hm c N old new st He Hp. destruct (Hm st (eq_sym Hp)) as (a & p' & -> & HQ). split; [exact He|]. split; [by intros q _|]. by exists p'. Qed.
Lemma ex_load_laws kend D x : @LoadLaws phase quiet_PrintOps ex_loader kend D x (λ _, True) (λ _ _, True) eq (λ _, Some 0%nat) (λ _, ex_elf).
Proof.
  split; intros.
  1,2,3,4,6: apply ex_quietly; intros st _; eexists _, _; split; [reflexivity|done].
  - apply ex_quietly. intros [st p] Ep. eexists _, _. split; [reflexivity|]. simpl in Ep. by subst.
  - apply ex_quietly. intros [st p] Ep. eexists _, _. split; [reflexivity|]. simpl in Ep. by subst.
  - split; [|by vm_compute]. apply (bool_decide_unpack _). by vm_compute.
Qed.
Lemma exec_correct_witness : ∃ k s, safe (λ _, True) (λ _ _, True)
  (λ r st', ∃ img n, r = 0 ∧ runs_program ex_end ex_locks 3 eq ex_user_proc 5000 (Space (ex_page 0) ex_T ex_U) [47; 112] [[112]; [104; 105]] 4 4096 img 12256 n st')
  (@exec phase quiet_PrintOps ex_loader ex_end 2148536320 [47; 112] [[112]; [104; 105]] (k, s, Outside)).
Proof.
  destruct (ex_stocked_in (.∈ ex_locks) (only_hw 0 [Some 3%nat; None] ex_locks ex_user) ex_user 5000) as (k & s & (h & -> & Hok) & Has);
    [apply ex_locks_in|apply only_hw_refl, ex_user_hw|lia|].
  exists (with_hw h ex_user), s.
  pose proof (@exec_correct phase quiet_PrintOps ex_loader ex_end 2148536320 ex_locks 3 (λ _, True) (λ _ _, True) eq (λ _, Some 0%nat) (λ _, ex_elf) [47; 112] [[112]; [104; 105]]
    ex_user_proc 5000 (Space (ex_page 0) ex_T ex_U) (with_hw h ex_user, s, Outside) ltac:(done) ltac:(done) (proj1 ex_locks_in) (ex_load_laws _ _ _)) as H.
  eapply safe_mono; [apply H|].
  - exists 0%nat, [Some 3%nat; None]. split; [done|]. split; [exact Hok|]. split; [exact ex_user_procs|]. exists (reverse (pages (ex_page 3) 5000)), [ex_page 0; ex_page 1; ex_page 2], [].
    split; [exact Has|]. split; [done|]. split; [by rewrite app_nil_r|]. rewrite length_reverse. unfold pages. rewrite length_fmap, length_seq. cbn [news length]. lia.
  - done.
  - done.
  - done.
  - apply (bool_decide_unpack _). by vm_compute.
  - intros r st' Hr. unfold exec_post in Hr. assert ((λ r, (r.1.1.1, r.1.1.2, r.2)) <$> exec_spec (λ _, Some 0%nat) (λ _, ex_elf) [47; 112] [[112]; [104; 105]] = Some (4, 4096, 12256)) as E by (by vm_compute).
    destruct (exec_spec _ _ _ _) as [[[[en z] img] esp]|]; [|done]. simpl in E. injection E as -> -> ->. destruct Hr as [(n & -> & Hn)|(_ & Hn & _)]; [by exists img, n|]. exfalso. vm_compute in Hn. by apply Hn.
Defined.
