(* ===== verification/Trap.v ===== *)
(** * System calls and interrupts (syscall.c, trap.c)

    [syscall] runs the call whose number is in [eax] and puts its result there;
    [trap] handles system calls, interrupts and faults, lets the process that
    runs give up the CPU at a clock interrupt, and ends it when it has been
    killed.  The file shows that a killed process does not get back to its
    program. *)
From stdpp Require Import base list gmap strings.
From Stdlib Require Import ZArith Lia.
From S2P Require Import Prelude User Mmu Spinlock CpuLocks CString Proc RunQueue Sched Reprio Machine Kernel Console Kalloc Vm Uvm CopyUvm Fault Life Args Cmos Sysproc Sleeplock Block Bio Log Trans Tx Fs File Sysfile Exec.
#[local] Open Scope Z_scope.

(** syscall.h *)
Definition SYS_fork : Z := 1.
Definition SYS_exit : Z := 2.
Definition SYS_wait : Z := 3.
Definition SYS_pipe : Z := 4.
Definition SYS_read : Z := 5.
Definition SYS_kill : Z := 6.
Definition SYS_exec : Z := 7.
Definition SYS_fstat : Z := 8.
Definition SYS_chdir : Z := 9.
Definition SYS_dup : Z := 10.
Definition SYS_getpid : Z := 11.
Definition SYS_sbrk : Z := 12.
Definition SYS_sleep : Z := 13.
Definition SYS_uptime : Z := 14.
Definition SYS_open : Z := 15.
Definition SYS_write : Z := 16.
Definition SYS_mknod : Z := 17.
Definition SYS_unlink : Z := 18.
Definition SYS_link : Z := 19.
Definition SYS_mkdir : Z := 20.
Definition SYS_close : Z := 21.
Definition SYS_date : Z := 22.
Definition SYS_dup2 : Z := 23.
Definition SYS_phmem : Z := 24.
Definition SYS_getprio : Z := 25.
Definition SYS_setprio : Z := 26.
(** traps.h *)
Definition T_PGFLT : Z := 14.
Definition T_IRQ0 : Z := 32.
Definition T_SYSCALL : Z := 64.
Definition IRQ_TIMER : Z := 0.
Definition IRQ_KBD : Z := 1.
Definition IRQ_COM1 : Z := 4.
Definition IRQ_IDE : Z := 14.
Definition IRQ_SPURIOUS : Z := 31.

(** The drivers that [trap] calls. *)
Class IrqOps (K : Type) := { k_ideintr : M K (); k_kbdintr : M K (); k_uartintr : M K (); k_lapiceoi : M K () }.

Section trap.
Context {F : Type} `{!PrintOps (kproc * kmem * F), !FsOps (kproc * kmem * F), !PipeOps (kproc * kmem * F), !RtcOps (kproc * kmem * F), !IrqOps (kproc * kmem * F)}.
Variables kend kdata forkret_addr : Z.
Variables (tickslock ticks_chan : Z) (ticks : lens F Z) (ftable_lock : Z) (ftable : lens F (list file)) (fuel : nat).
Abbreviation K := (kproc * kmem * F)%type.
#[local] Instance trap_FileOps : FileOps K := file_FileOps ftable_lock ftable.

Definition syscalls (num : Z) : option (M K Z) :=
  if num =? SYS_fork then Some (sys_fork kend kdata forkret_addr)
  else if num =? SYS_exit then Some (sys_exit kend)
  else if num =? SYS_wait then Some (sys_wait kend fuel)
  else if num =? SYS_pipe then Some (sys_pipe kend ftable_lock ftable)
  else if num =? SYS_read then Some (sys_read kend ftable)
  else if num =? SYS_kill then Some (sys_kill kend)
  else if num =? SYS_exec then Some (sys_exec kend kdata)
  else if num =? SYS_fstat then Some (sys_fstat kend ftable)
  else if num =? SYS_chdir then Some (sys_chdir kend)
  else if num =? SYS_dup then Some (sys_dup kend ftable_lock ftable)
  else if num =? SYS_getpid then Some sys_getpid
  else if num =? SYS_sbrk then Some (sys_sbrk kend)
  else if num =? SYS_sleep then Some (sys_sleep kend tickslock ticks_chan ticks fuel)
  else if num =? SYS_uptime then Some (sys_uptime tickslock ticks)
  else if num =? SYS_open then Some (sys_open kend ftable_lock ftable)
  else if num =? SYS_write then Some (sys_write kend ftable)
  else if num =? SYS_mknod then Some (sys_mknod kend)
  else if num =? SYS_unlink then Some (sys_unlink kend)
  else if num =? SYS_link then Some (sys_link kend)
  else if num =? SYS_mkdir then Some (sys_mkdir kend)
  else if num =? SYS_close then Some (sys_close kend ftable_lock ftable)
  else if num =? SYS_dup2 then Some (sys_dup2 kend ftable_lock ftable)
  else if num =? SYS_date then Some (sys_date kend fuel)
  else if num =? SYS_phmem then Some (sys_phmem kend)
  else if num =? SYS_getprio then Some (sys_getprio kend)
  else if num =? SYS_setprio then Some (sys_setprio kend)
  else None.

(** [curproc] is the process that entered; a call that replaces its trap frame
    replaces the frame the result goes to. *)
Definition syscall : M K () :=
  let! cur := kp myproc in
  let! cur := deref cur in
  let! c := kp (get_proc cur) in
  let num := sint (tf_eax (p_tf c)) in
  match syscalls num with
  | Some f =>
      let! r := f in
      kp (upd_proc cur (λ p, set_tf (set_eax (uint r) (p_tf p)) p))
  | None =>
      k_cprintf (str "%d %s: unknown sys call %d" ++ [10]) [AInt (p_pid c); AStr (Some (name_str (p_name c))); AInt num] ;;;
      kp (upd_proc cur (λ p, set_tf (set_eax (uint (-1)) (p_tf p)) p))
  end.

Definition set_ticks (v : Z) : M K () := λ s, Ret () (s.1, lset ticks v s.2).
Definition trap_timer : M K () :=
  let! me := kp (zoom hw_lens mycpu) in
  (if (me =? 0)%nat then
     kp (acquire_k tickslock) ;;;
     let! t := get_ticks ticks in
     set_ticks (uint (t + 1)) ;;;
     kp (wakeup ticks_chan) ;;;
     kp (release_k tickslock)
   else ret ()) ;;;
  k_lapiceoi.
Definition trap_default (tf : trapframe) (cr2 : Z) : M K () :=
  let! p := kp myproc in
  let! me := kp (zoom hw_lens mycpu) in
  match p with
  | Some _ =>
      if Z.land (tf_cs tf) 3 =? 0 then
        k_cprintf (str "unexpected trap %d from cpu %d eip %x (cr2=0x%x)" ++ [10]) [AInt (tf_trapno tf); AInt (Z.of_nat me); AInt (tf_eip tf); AInt cr2] ;;;
        panic "trap"
      else
        let! pid := my p_pid in
        let! name := my p_name in
        k_cprintf (str "pid %d %s: trap %d err %d on cpu %d eip 0x%x addr 0x%x--kill proc" ++ [10])
          [AInt pid; AStr (Some (name_str name)); AInt (tf_trapno tf); AInt (tf_err tf); AInt (Z.of_nat me); AInt (tf_eip tf); AInt cr2] ;;;
        kill_me
  | None =>
      k_cprintf (str "unexpected trap %d from cpu %d eip %x (cr2=0x%x)" ++ [10]) [AInt (tf_trapno tf); AInt (Z.of_nat me); AInt (tf_eip tf); AInt cr2] ;;;
      panic "trap"
  end.
Definition trap_dispatch (tf : trapframe) (cr2 : Z) : M K () :=
  let no := tf_trapno tf in
  if no =? T_IRQ0 + IRQ_TIMER then trap_timer
  else if no =? T_IRQ0 + IRQ_IDE then k_ideintr ;;; k_lapiceoi
  else if no =? T_IRQ0 + IRQ_IDE + 1 then ret ()
  else if no =? T_IRQ0 + IRQ_KBD then k_kbdintr ;;; k_lapiceoi
  else if no =? T_IRQ0 + IRQ_COM1 then k_uartintr ;;; k_lapiceoi
  else if (no =? T_IRQ0 + 7) || (no =? T_IRQ0 + IRQ_SPURIOUS) then
    let! me := kp (zoom hw_lens mycpu) in
    k_cprintf (str "cpu%d: spurious interrupt at %x:%x" ++ [10]) [AInt (Z.of_nat me); AInt (tf_cs tf); AInt (tf_eip tf)] ;;;
    k_lapiceoi
  else if no =? T_PGFLT then pgfault kend cr2 (tf_err tf)
  else trap_default tf cr2.

(** [if(myproc() && myproc()->killed && (tf->cs&3) == DPL_USER) exit(tf->trapno+1);] *)
Definition exit_if_killed (tf : trapframe) : M K () :=
  let! p := kp myproc in
  match p with
  | None => ret ()
  | Some _ =>
      let! killed := my p_killed in
      if killed && (Z.land (tf_cs tf) 3 =? DPL_USER) then exit kend (sint (tf_trapno tf + 1)) else ret ()
  end.
Definition yield_if_timer (tf : trapframe) : M K () :=
  let! p := kp myproc in
  match p with
  | None => ret ()
  | Some _ =>
      let! state := my p_state in
      if bool_decide (state = RUNNING) && (tf_trapno tf =? T_IRQ0 + IRQ_TIMER) then kp yield else ret ()
  end.
Definition trap (tf : trapframe) (cr2 : Z) : M K () :=
  if tf_trapno tf =? T_SYSCALL then
    let! killed := my p_killed in
    (if (killed : bool) then exit kend 0 else ret ()) ;;;
    upd_my (set_tf tf) ;;;
    syscall ;;;
    let! killed := my p_killed in
    if (killed : bool) then exit kend 0 else ret ()
  else
    trap_dispatch tf cr2 ;;;
    exit_if_killed tf ;;;
    yield_if_timer tf ;;;
    exit_if_killed tf.
End trap.

(** ** Returning to the program *)
(** Every way in which the code can come to return satisfies [Q], whatever other
    code does while it sleeps. *)
Fixpoint returns {S A} (Q : A → S → Prop) (o : outcome S A) : Prop :=
  match o with
  | Ret a s => Q a s
  | Block _ _ k => ∀ s, returns Q (k s)
  | _ => True
  end.
Lemma returns_obind {S A B} (Q : B → S → Prop) (f : A → M S B) (o : outcome S A) : returns (λ a s, returns Q (f a s)) o → returns Q (obind o f).
Proof. induction o as [| | | |c s k IH|]; simpl; try done. intros H s'. by apply IH. Qed.
Lemma returns_any {S A} (Q : A → S → Prop) (o : outcome S A) : (∀ a s, Q a s) → returns Q o.
Proof. intros H. induction o; simpl; auto. Qed.
(** It is enough to look at the last statement. *)
Lemma returns_bind {S A B} (Q : B → S → Prop) (m : M S A) (f : A → M S B) : (∀ a s, returns Q (f a s)) → ∀ s, returns Q (bind m f s).
Proof. intros H s. apply returns_obind. by apply returns_any. Qed.
Lemma returns_mono {S A} (Q Q' : A → S → Prop) (o : outcome S A) : returns Q o → (∀ a s, Q a s → Q' a s) → returns Q' o.
Proof. intros H HQ. induction o; simpl in *; auto. Qed.

(** Code that does not sleep. *)
Definition prompt {S A} (m : M S A) : Prop := ∀ s, match m s with Block _ _ _ | Asleep _ _ => False | _ => True end.
Lemma prompt_bind {S A B} (m : M S A) (f : A → M S B) : prompt m → (∀ a, prompt (f a)) → prompt (bind m f).
Proof. intros Hm Hf s. unfold bind. specialize (Hm s). destruct (m s); simpl; try done. apply Hf. Qed.
Lemma prompt_zoom {S T A} (l : lens S T) (m : M T A) : prompt m → prompt (zoom l m).
Proof. intros Hm s. unfold zoom. specialize (Hm (lget l s)). by destruct (m (lget l s)). Qed.
Lemma prompt_deref {S A} (p : option A) : prompt (@deref S A p).
Proof. intros s. by destruct p. Qed.
Ltac prompt := repeat first [done | apply prompt_deref | solve [eauto with prompt] | apply prompt_bind; [|intros ?] | progress case_match].
Create HintDb prompt.
Lemma mycpu_prompt : prompt mycpu.
Proof. unfold mycpu, readeflags_if, lapicid. prompt. Qed.
#[local] Hint Resolve mycpu_prompt : prompt.
Lemma cpu_field_prompt {A} (f : cpu → A) : prompt (cpu_field f).
Proof. unfold cpu_field. prompt. Qed.
Lemma cpu_set_prompt f : prompt (cpu_set f).
Proof. unfold cpu_set. prompt. Qed.
#[local] Hint Resolve cpu_field_prompt cpu_set_prompt : prompt.
Lemma myproc_prompt : prompt myproc.
Proof. apply prompt_zoom. unfold pushcli, popcli, readeflags_if. prompt. Qed.

Section alive.
Context {F : Type} `{!PrintOps (kproc * kmem * F), !FileOps (kproc * kmem * F)}.
Variable kend : Z.
Abbreviation K := (kproc * kmem * F)%type.
Lemma exit_never status (Q : () → K → Prop) s : returns Q (exit kend status s).
Proof.
  unfold exit. apply returns_bind. intros cur s1. apply returns_bind. intros i s2. apply returns_bind. intros ? s3. apply returns_bind. intros k s4.
  destruct (bool_decide _); [done|]. apply returns_bind. intros ? s5. unfold exit_zombie. do 7 (apply returns_bind; intros ? ?). done.
Qed.

(** [myproc] has just said which process runs, and it is not killed. *)
Definition alive (k : kproc) : Prop := ∃ k0 r, myproc k0 = Ret r k ∧ match r with Some x => ∃ p, k_procs k !! x = Some p ∧ p_killed p = false | None => True end.
Lemma my_killed_alive (st : K) : returns (λ b st', b = false → alive st'.1.1) (my p_killed st).
Proof.
  destruct st as [[k s] t]. unfold my, myproc_field, kp, zoom. cbn [lget fst_lens fst]. unfold bind at 1. pose proof (myproc_prompt k) as Hp.
  destruct (myproc k) as [r k1| | | | |] eqn:E; cbn [obind ozoom returns]; try done. destruct r as [x|]; cbn; [|done].
  unfold bind, get_proc, deref. cbn [obind]. destruct (k_procs k1 !! x) as [p|] eqn:Ep; cbn; [|done]. intros Hk. exists k, (Some x). split; [done|]. by exists p.
Qed.
Lemma myproc_alive (st : K) : returns (λ r st', r = None → alive st'.1.1) (kp myproc st).
Proof.
  destruct st as [[k s] t]. unfold kp, zoom. cbn [lget fst_lens fst]. pose proof (myproc_prompt k) as Hp.
  destruct (myproc k) as [r k1| | | | |] eqn:E; cbn [ozoom returns]; try done. intros ->. by exists k, None.
Qed.
End alive.
Lemma exit_if_killed_alive {F : Type} `{!FsOps (kproc * kmem * F), !PipeOps (kproc * kmem * F)} kend ftable_lock (ftable : lens F (list file)) tf st : Z.land (tf_cs tf) 3 = DPL_USER → returns (λ _ st', alive st'.1.1) (exit_if_killed kend ftable_lock ftable tf st).
Proof.
  intros Hu. unfold exit_if_killed. apply returns_obind. eapply returns_mono; [apply myproc_alive|]. intros r st1 Hr. destruct r; [|by apply Hr].
  apply returns_obind. eapply returns_mono; [apply my_killed_alive|]. intros killed st2 Hk. rewrite Hu. destruct killed; [apply exit_never|by apply Hk].
Qed.

(** C23: A killed process does not get back to its program.  Whenever [trap] returns,
    from a system call or from an interrupt or fault in user mode, in whatever
    state it was called and whatever other code did while it slept, it has just
    seen that the process that runs on this CPU, if there is one, is not marked
    as killed: if it is, [trap] calls [exit], which never returns. *)
Theorem killed_stays_out {F : Type} `{!PrintOps (kproc * kmem * F), !FsOps (kproc * kmem * F), !PipeOps (kproc * kmem * F), !RtcOps (kproc * kmem * F), !IrqOps (kproc * kmem * F)}
    kend kdata forkret_addr tickslock ticks_chan (ticks : lens F Z) ftable_lock (ftable : lens F (list file)) fuel tf cr2 st :
  tf_trapno tf = T_SYSCALL ∨ Z.land (tf_cs tf) 3 = DPL_USER →
  returns (λ _ st', alive st'.1.1) (trap kend kdata forkret_addr tickslock ticks_chan ticks ftable_lock ftable fuel tf cr2 st).
Proof.
  intros Hu. unfold trap. destruct (Z.eqb_spec (tf_trapno tf) T_SYSCALL) as [E|E].
  - do 4 (apply returns_bind; intros ? ?). apply returns_obind. eapply returns_mono; [apply my_killed_alive|]. intros killed st2 Hk. destruct killed; [apply exit_never|by apply Hk].
  - destruct Hu as [?|Hu]; [done|]. do 3 (apply returns_bind; intros ? ?). by apply exit_if_killed_alive.
Qed.

(** Process 3 calls [getpid], and is then interrupted by the clock. *)
Definition ex_irqs {F} : IrqOps (kproc * kmem * F) := {| k_ideintr := ret (); k_kbdintr := ret (); k_uartintr := ret (); k_lapiceoi := ret () |}.
Definition ex_rtc_ops {F} : RtcOps (kproc * kmem * F) := λ _, ret 0.
Definition ex_frame (no : Z) : trapframe := Trapframe 0 0 0 0 0 0 0 SYS_getpid 0 0 0 0 no 0 0 27 0 0 0.
Definition ex_trap (no : Z) : outcome (kproc * kmem * (list file * Z)) () :=
  @trap (list file * Z) quiet_PrintOps idle_FsOps idle_PipeOps ex_rtc_ops ex_irqs ex_end 2148536320 77 2 9 (Lens snd (λ v s, (s.1, v))) 2 (Lens fst (λ v s, (v, s.2)))
    3 (ex_frame no) 0 (ex_user, ex_space, (ex_files, 7)).
Lemma killed_stays_out_witness : returns (λ _ st', alive st'.1.1) (ex_trap T_SYSCALL) ∧ returns (λ _ st', alive st'.1.1) (ex_trap (T_IRQ0 + IRQ_TIMER)) ∧
  match ex_trap T_SYSCALL with Ret _ (k, _, _) => (tf_eax ∘ p_tf) <$> k_procs k !! 3%nat = Some 7 | _ => False end.
Proof.
  split; [apply killed_stays_out; by left|]. split; [apply killed_stays_out; by right|]. vm_compute. reflexivity.
Defined.
