(* ===== verification/Grep.v ===== *)
(** * grep (user/grep.c)

    The matcher for [^ . * $], the loop over the lines of a file, and the
    program.  A pattern is read as a list of items ([parse_re]) whose language
    ([lang]) is defined without reference to the matcher; the matcher decides
    it. *)
From stdpp Require Import base list gmap strings.
From Stdlib Require Import ZArith Lia.
From S2P Require Import Prelude CString User.
#[local] Open Scope Z_scope.

(** ** The matcher *)
(** [c*] and then what [mh] matches. *)
Fixpoint matchstar (mh : list Z → bool) (c : Z) (text : list Z) : bool :=
  if mh text then true else
  match text with
  | [] => false
  | t :: text' => if (t =? c) || (c =? 46) then matchstar mh c text' else false
  end.
Fixpoint matchhere (re text : list Z) {struct re} : bool :=
  match re with
  | [] => true
  | r :: re1 =>
      let single :=
        if (r =? 36) && (match re1 with [] => true | _ => false end) then (match text with [] => true | _ => false end) else
        match text with
        | [] => false
        | t :: text' => if (r =? 46) || (r =? t) then matchhere re1 text' else false
        end in
      match re1 with
      | x :: re2 => if x =? 42 then matchstar (matchhere re2) r text else single
      | [] => single
      end
  end.
Fixpoint match_from (re text : list Z) : bool :=
  if matchhere re text then true else
  match text with [] => false | _ :: text' => match_from re text' end.
(** [match], a keyword here. *)
Definition re_match (re text : list Z) : bool :=
  match re with
  | r :: re' => if r =? 94 then matchhere re' text else match_from re text
  | [] => match_from re text
  end.

(** ** The program *)
(** The bytes of a buffer up to its first zero. *)
Fixpoint cstr (bs : list Z) : list Z := match bs with [] => [] | b :: bs' => if b =? 0 then [] else b :: cstr bs' end.
(** The inner loop: from [p] on, line by line; what is left of the buffer. *)
Fixpoint grep_lines (cnt : nat) (pattern p : list Z) : uprog (list Z) :=
  match strchr (cstr p) 10 with
  | None => URet p
  | Some q =>
      match cnt with
      | O => USpin
      | S c =>
          let line := take (length (cstr p) - length q) p in
          (if re_match pattern line then sys (CWrite 1 (line ++ [10])) ;; URet () else URet ()) ;;
          grep_lines c pattern (drop (S (length line)) p)
      end
  end.
(** [buf] holds the [m] bytes [kept]. *)
Fixpoint grep_loop (cnt : nat) (pattern : list Z) (fd : Z) (kept : list Z) : uprog () :=
  USys (CRead fd (1024 - Z.of_nat (length kept) - 1)) (λ n bs,
    if 0 <? n then
      match cnt with
      | O => USpin
      | S c =>
          let buf := kept ++ take (Z.to_nat n) bs in
          let* p := grep_lines (length buf) pattern buf in
          let m := if (length p =? length buf)%nat then [] else p in
          grep_loop c pattern fd m
      end
    else URet ()).
Definition grep (fuel : nat) (pattern : list Z) (fd : Z) : uprog () := grep_loop fuel pattern fd [].
Fixpoint grep_files (fuel : nat) (pattern : list Z) (files : list (list Z)) : uprog () :=
  match files with
  | [] => exit 0
  | f :: files' =>
      let* fd := sys (COpen f 0) in
      if fd <? 0 then printf 1 (str "grep: cannot open %s" ++ [10]) [AStr (Some f)] ;; exit 0 else
      grep fuel pattern fd ;;
      sys (CClose fd) ;;
      grep_files fuel pattern files'
  end.
Definition grep_main (fuel : nat) (argv : list (list Z)) : uprog () :=
  match tail argv with
  | [] => printf 2 (str "usage: grep pattern [file ...]" ++ [10]) [] ;; exit 0
  | [pattern] => grep fuel pattern 0 ;; exit 0
  | pattern :: files => grep_files fuel pattern files
  end.

(** ** What a pattern means *)
Inductive item := Star (c : Z) | Atom (c : Z) | Eol.
Fixpoint parse_re (re : list Z) : list item :=
  match re with
  | [] => []
  | c :: re1 =>
      match re1 with
      | [] => if c =? 36 then [Eol] else [Atom c]
      | x :: re2 => if x =? 42 then Star c :: parse_re re2 else Atom c :: parse_re re1
      end
  end.
(** [.] fits every character. *)
Definition fits (c t : Z) : Prop := c = 46 ∨ c = t.
(** The text [w], followed by [rest], is in the language of the items. *)
Fixpoint lang (r : list item) (w rest : list Z) : Prop :=
  match r with
  | [] => w = []
  | Eol :: r' => rest = [] ∧ lang r' w rest
  | Atom c :: r' => ∃ t w', w = t :: w' ∧ fits c t ∧ lang r' w' rest
  | Star c :: r' => ∃ u v, w = u ++ v ∧ Forall (fits c) u ∧ lang r' v rest
  end.
Definition here (r : list item) (text : list Z) : Prop := ∃ w rest, text = w ++ rest ∧ lang r w rest.

Lemma matchstar_ok mh r c : (∀ text, mh text = true ↔ here r text) → ∀ text, matchstar mh c text = true ↔ here (Star c :: r) text.
Proof.
  intros Hmh. assert (∀ text, here (Star c :: r) text ↔ here r text ∨ ∃ t text', text = t :: text' ∧ fits c t ∧ here (Star c :: r) text') as Hun.
  { intros text. split.
    - intros (w & rest & -> & u & v & -> & Hu & Hl). destruct u as [|t u]; [left; by exists v, rest|]. apply Forall_cons in Hu as [Ht Hu]. right.
      exists t, ((u ++ v) ++ rest). split; [done|]. split; [done|]. exists (u ++ v), rest. split; [done|]. by exists u, v.
    - intros [(w & rest & -> & Hl)|(t & text' & -> & Ht & w & rest & -> & u & v & -> & Hu & Hl)].
      + exists w, rest. split; [done|]. by exists [], w.
      + exists (t :: u ++ v), rest. split; [done|]. exists (t :: u), v. split; [done|]. split; [by constructor|done]. }
  induction text as [|t text IH]; cbn [matchstar]; rewrite Hun.
  - destruct (mh []) eqn:E; [by rewrite Hmh in E; tauto|]. split; [done|]. intros [H|(t & text' & ? & _)]; [|done]. apply Hmh in H. congruence.
  - destruct (mh (t :: text)) eqn:E; [by rewrite Hmh in E; tauto|]. assert ((t =? c) || (c =? 46) = true ↔ fits c t) as Hf by (unfold fits; lia).
    split.
    + destruct ((t =? c) || (c =? 46)) eqn:Ef; [|done]. rewrite IH. intros H. right. exists t, text. split; [done|]. split; [by apply Hf|done].
    + intros [H|(t' & text' & [= <- <-] & Ht & H)]; [apply Hmh in H; congruence|]. apply Hf in Ht. rewrite Ht. by apply IH.
Qed.

Lemma here_eol text : here [Eol] text ↔ text = [].
Proof. split; [intros (w & rest & -> & -> & ->); done|]. intros ->. by exists [], []. Qed.
Lemma here_atom c r text : here (Atom c :: r) text ↔ ∃ t text', text = t :: text' ∧ fits c t ∧ here r text'.
Proof.
  split.
  - intros (w & rest & -> & t & w' & -> & Hf & Hl). exists t, (w' ++ rest). split; [done|]. split; [done|]. by exists w', rest.
  - intros (t & text' & -> & Hf & w & rest & -> & Hl). exists (t :: w), rest. split; [done|]. by exists t, w.
Qed.

Lemma matchhere_ok re : ∀ text, matchhere re text = true ↔ here (parse_re re) text.
Proof.
  induction re as [re IH] using (induction_ltof1 _ length). unfold ltof in IH. intros text. destruct re as [|c re1]; cbn [matchhere parse_re].
  { split; [|done]. intros _. by exists [], text. }
  assert (match text with [] => false | t :: text' => if (c =? 46) || (c =? t) then matchhere re1 text' else false end = true ↔ here (Atom c :: parse_re re1) text) as Hat.
  { rewrite here_atom. destruct text as [|t text]; [split; [done|]; by intros (t & text' & ? & _)|].
    assert ((c =? 46) || (c =? t) = true ↔ fits c t) as Hf by (unfold fits; lia). split.
    - destruct ((c =? 46) || (c =? t)) eqn:Ef; [|done]. rewrite IH by (simpl; lia). intros H. exists t, text. split; [done|]. split; [by apply Hf|done].
    - intros (t' & text' & [= <- <-] & Ht & H). apply Hf in Ht. rewrite Ht. by apply IH; [simpl; lia|]. }
  destruct re1 as [|x re2].
  - rewrite andb_true_r. destruct (Z.eqb_spec c 36) as [->|Hc]; [|exact Hat]. rewrite here_eol. by destruct text.
  - destruct (x =? 42); [apply matchstar_ok; intros text'; apply IH; simpl; lia|]. rewrite andb_false_r. exact Hat.
Qed.

(** C36: the matcher decides the language of the pattern: [re_match] says yes
    exactly if the text, or for a pattern without [^] some end of it, begins
    with a word of the language of the pattern read as items, where [c*] is
    any number of characters that fit [c], [.] fits every character, and a
    last [$] is the end of the text. *)
Theorem match_correct re text : re_match re text = true ↔
  if decide (head re = Some 94) then here (parse_re (tail re)) text
  else ∃ skipped text', text = skipped ++ text' ∧ here (parse_re re) text'.
Proof.
  assert (∀ text, match_from re text = true ↔ ∃ skipped text', text = skipped ++ text' ∧ here (parse_re re) text') as Hfrom.
  { clear text. induction text as [|t text IH]; cbn [match_from].
    - destruct (matchhere re []) eqn:E; [rewrite matchhere_ok in E; split; [intros _; by exists [], []|done]|]. split; [done|].
      intros (sk & text' & Hs & H). symmetry in Hs. apply app_nil in Hs as [-> ->]. apply matchhere_ok in H. congruence.
    - destruct (matchhere re (t :: text)) eqn:E; [rewrite matchhere_ok in E; split; [intros _; by exists [], (t :: text)|done]|]. rewrite IH. split.
      + intros (sk & text' & -> & H). by exists (t :: sk), text'.
      + intros ([|t' sk] & text' & Hs & H); simpl in Hs; [subst; apply matchhere_ok in H; congruence|]. injection Hs as <- ->. by exists sk, text'. }
  unfold re_match. destruct re as [|r re']; [apply Hfrom|]. cbn [head tail]. destruct (Z.eqb_spec r 94) as [->|Hr].
  - rewrite decide_True by done. apply matchhere_ok.
  - rewrite decide_False by congruence. apply Hfrom.
Qed.
