(* ===== verification/Umalloc.v ===== *)
(** * The allocator of user programs (user/umalloc.c)

    Free blocks are kept on a circular list in order of their addresses, linked
    through the memory of the blocks, with the static header [base] as its
    lowest member.  A block is a header of eight bytes, a pointer and the size
    of the block in units of eight bytes, and what follows it.  The file shows
    that [malloc] and [free] keep the list sorted, disjoint from the allocated
    blocks and without two adjacent free blocks, and that they end. *)
From stdpp Require Import base list gmap strings.
From Stdlib Require Import ZArith Lia.
From S2P Require Import Prelude CString.
#[local] Open Scope Z_scope.

Record heap := Heap { hp_mem : mem; hp_freep : Z; hp_brk : Z }.
Definition set_mem v h := Heap v (hp_freep h) (hp_brk h).
Definition set_freep v h := Heap (hp_mem h) v (hp_brk h).
Definition set_brk v h := Heap (hp_mem h) (hp_freep h) v.

(** [p->s.ptr] and [p->s.size] *)
Definition s_ptr (p : Z) (h : heap) : Z := rd32 (hp_mem h) p.
Definition s_size (p : Z) (h : heap) : Z := rd32 (hp_mem h) (p + 4).
Definition set_ptr (p v : Z) : M heap () := modify (λ h, set_mem (wr32 p v (hp_mem h)) h).
Definition set_size (p v : Z) : M heap () := modify (λ h, set_mem (wr32 (p + 4) v (hp_mem h)) h).

Section umalloc.
(** [&base], and the end of the memory that a program can use. *)
Variables base limit : Z.

(** What [sys_sbrk] does to the caller: it never fails, whatever [n] is. *)
Definition sbrk (n : Z) : M heap Z := λ h, Ret (hp_brk h) (set_brk (uint (hp_brk h + n)) h).

(** The [for] of [free]: the free block after which [bp] belongs. *)
Fixpoint free_search (fuel : nat) (bp p : Z) : M heap Z :=
  let! next := gets (s_ptr p) in
  if (p <? bp) && (bp <? next) then ret p
  else if (next <=? p) && ((p <? bp) || (bp <? next)) then ret p
  else match fuel with O => λ _, Spin | S f => free_search f bp next end.
Definition free (fuel : nat) (ap : Z) : M heap () :=
  let bp := uint (ap - 8) in
  let! freep := gets hp_freep in
  let! p := free_search fuel bp freep in
  let! next := gets (s_ptr p) in
  let! bsize := gets (s_size bp) in
  (if uint (bp + 8 * bsize) =? next then
     let! nsize := gets (s_size next) in
     set_size bp (bsize + nsize) ;;;
     let! nnext := gets (s_ptr next) in
     set_ptr bp nnext
   else set_ptr bp next) ;;;
  let! psize := gets (s_size p) in
  (if uint (p + 8 * psize) =? bp then
     let! bsize := gets (s_size bp) in
     set_size p (psize + bsize) ;;;
     let! bnext := gets (s_ptr bp) in
     set_ptr p bnext
   else set_ptr p bp) ;;;
  modify (set_freep p).

Definition morecore (fuel : nat) (nu : Z) : M heap Z :=
  let nu := if nu <? 4096 then 4096 else nu in
  let! p := sbrk (sint (nu * 8)) in
  if p =? uint (-1) then ret 0 else
  set_size p nu ;;;
  free fuel (uint (p + 8)) ;;;
  gets hp_freep.

(** Take [nunits] units of the block [p]. *)
Definition malloc_take (nunits prevp p : Z) : M heap Z :=
  let! size := gets (s_size p) in
  let! r := (if size =? nunits then
      let! next := gets (s_ptr p) in
      set_ptr prevp next ;;; ret p
    else
      set_size p (size - nunits) ;;;
      let! size := gets (s_size p) in
      let p := uint (p + 8 * size) in
      set_size p nunits ;;; ret p) in
  modify (set_freep prevp) ;;;
  ret (uint (r + 8)).
Fixpoint malloc_loop (fuel : nat) (nunits prevp p : Z) : M heap Z :=
  let! size := gets (s_size p) in
  if nunits <=? size then malloc_take nunits prevp p else
  let! freep := gets hp_freep in
  match fuel with
  | O => λ _, Spin
  | S f =>
      if p =? freep then
        let! q := morecore f nunits in
        if q =? 0 then ret 0 else
        let! next := gets (s_ptr q) in
        malloc_loop f nunits q next
      else
        let! next := gets (s_ptr p) in
        malloc_loop f nunits p next
  end.
Definition malloc (fuel : nat) (nbytes : Z) : M heap Z :=
  let nunits := uint (uint (nbytes + 8 - 1) / 8 + 1) in
  let! freep := gets hp_freep in
  let! prevp := (if freep =? 0 then
      set_ptr base base ;;; modify (set_freep base) ;;; set_size base 0 ;;; ret base
    else ret freep) in
  let! p := gets (s_ptr prevp) in
  malloc_loop fuel nunits prevp p.

(** ** The free list *)
(** A piece of the list: each block with its size, the last one pointing to [e]. *)
Definition first_of (l : list (Z * Z)) (e : Z) : Z := match l with [] => e | (a, _) :: _ => a end.
Fixpoint linked (m : mem) (l : list (Z * Z)) (e : Z) : Prop :=
  match l with
  | [] => True
  | (a, s) :: l' => rd32 m (a + 4) = s ∧ rd32 m a = first_of l' e ∧ linked m l' e
  end.
(** Ascending blocks after a block that ends at [lo], with gaps between them. *)
Fixpoint asc (lo : Z) (l : list (Z * Z)) : Prop :=
  match l with [] => True | (a, s) :: l' => lo < a ∧ 1 ≤ s ∧ a mod 8 = 0 ∧ asc (a + 8 * s) l' end.
Definition apart (a s b n : Z) : Prop := a + 8 * s ≤ b ∨ b + 8 * n ≤ a.

Record heap_inv (h : heap) (fs : list (Z * Z)) (us : gmap Z Z) : Prop := {
  hi_brk : base + 8 ≤ hp_brk h ≤ limit ∧ hp_brk h mod 8 = 0;
  hi_asc : asc base fs;
  hi_top a s : (a, s) ∈ fs → a + 8 * s ≤ hp_brk h;
  hi_used a s : us !! a = Some s → base + 8 ≤ a ∧ a mod 8 = 0 ∧ 1 ≤ s ∧ a + 8 * s ≤ hp_brk h ∧ rd32 (hp_mem h) (a + 4) = s;
  hi_apart a s b n : us !! a = Some s → us !! b = Some n → a ≠ b → apart a s b n;
  hi_free a s b n : (a, s) ∈ fs → us !! b = Some n → apart a s b n;
  hi_list : hp_freep h = 0 ∧ fs = [] ∧ us = ∅ ∨
    hp_freep h ∈ ((base, 0) :: fs).*1 ∧ linked (hp_mem h) ((base, 0) :: fs) base }.

Lemma first_of_app l a s l' e : first_of (l ++ (a, s) :: l') e = first_of l a.
Proof. by destruct l as [|[??]?]. Qed.
Lemma linked_app m l1 a s l2 e : linked m (l1 ++ (a, s) :: l2) e ↔ linked m l1 a ∧ linked m ((a, s) :: l2) e.
Proof.
  induction l1 as [|[b n] l1 IH]; [simpl; tauto|]. cbn [app linked]. rewrite IH, first_of_app. simpl. tauto.
Qed.
(** Writes to the header at [x] leave the other headers alone. *)
Lemma linked_frame m m' l e x : (∀ y, ¬ x ≤ y < x + 8 → rd8 m' y = rd8 m y) → x mod 8 = 0 →
  (∀ a s, (a, s) ∈ l → a mod 8 = 0 ∧ a ≠ x) → linked m l e → linked m' l e.
Proof.
  intros Hm Hx. induction l as [|[a s] l IH]; intros Hl; [done|]. cbn [linked]. intros (H1 & H2 & H3).
  destruct (Hl a s ltac:(left)) as [Ha Hne]. split_and!.
  - rewrite <- H1. apply rd32_ext. intros b Hb. apply Hm. Z.to_euclidean_division_equations. lia.
  - rewrite <- H2. apply rd32_ext. intros b Hb. apply Hm. Z.to_euclidean_division_equations. lia.
  - apply IH; [|done]. intros b n Hin. apply (Hl b n). by right.
Qed.
Lemma header_frame m v x y : x mod 4 = 0 → ¬ x ≤ y < x + 4 → rd8 (wr32 x v m : mem) y = rd8 m y.
Proof. intros _ H. rewrite rd8_wr32. by rewrite decide_False by lia. Qed.

Lemma asc_app lo l1 a s l2 : asc lo (l1 ++ (a, s) :: l2) ↔ asc lo l1 ∧ (lo < a ∧ ∀ b n, (b, n) ∈ l1 → b + 8 * n < a) ∧ 1 ≤ s ∧ a mod 8 = 0 ∧ asc (a + 8 * s) l2.
Proof.
  revert lo. induction l1 as [|[b n] l1 IH]; intros lo; cbn [app asc].
  - split; [|tauto]. intros (?&?&?&?). split_and!; try done. intros b n Hin. by apply not_elem_of_nil in Hin.
  - rewrite IH. split.
    + intros (H1 & H2 & H3 & H4 & [H5 H6] & H7). split_and!; try tauto; [lia|]. intros b' n' [[= -> ->]|Hin]%elem_of_cons; [done|by apply H6].
    + intros ((H1 & H2 & H3 & H4) & [H5 H6] & H7 & H8 & H9). split_and!; try done; [apply H6; left|]. intros b' n' Hin. apply H6. by right.
Qed.
Lemma asc_elem lo l a s : asc lo l → (a, s) ∈ l → lo < a ∧ 1 ≤ s ∧ a mod 8 = 0.
Proof. intros H (l1 & l2 & ->)%list_elem_of_split. apply asc_app in H as (_ & [H _] & H1 & H2 & _). done. Qed.
Lemma asc_weaken lo lo' l : lo' ≤ lo → asc lo l → asc lo' l.
Proof. destruct l as [|[a s] l]; [done|]. simpl. intros ? (?&?&?&?). split_and!; (done || lia). Qed.

Hypothesis Hbase : 0 < base ∧ base mod 8 = 0.
Hypothesis Hlimit : limit ≤ 2147483648.

(** ** free *)
(** The list as [free] sees it from [bp]: the blocks up to [q] are below, the
    others above. *)
Definition around (bp : Z) (t1 : list (Z * Z)) (q : Z) (t2 : list (Z * Z)) : Prop :=
  (∀ a s, (a, s) ∈ t1 → a < q) ∧ q < bp ∧ ∀ a s, (a, s) ∈ t2 → bp < a.
Lemma search_at fuel bp q sq t1 t2 h : linked (hp_mem h) (t1 ++ (q, sq) :: t2) base → around bp t1 q t2 → base ≤ q →
  free_search fuel bp q h = Ret q h.
Proof using All.
  intros [_ (_ & Hn & _)]%linked_app (_ & Hq & Ht2) Hb. destruct fuel; cbn [free_search]; (erewrite bind_Ret; [|reflexivity]); unfold s_ptr; rewrite Hn, (proj2 (Z.ltb_lt q bp)) by done; cbn [andb orb].
  all: destruct t2 as [|[a s] t2]; cbn [first_of]; [destruct (Z.ltb_spec bp base); [lia|]; rewrite (proj2 (Z.leb_le base q)) by done; done|].
  all: rewrite (proj2 (Z.ltb_lt bp a)) by (apply (Ht2 a s); left); done.
Qed.
Lemma search_up bp q sq t2 mid : ∀ fuel l1 p s h, linked (hp_mem h) (l1 ++ (p, s) :: mid ++ (q, sq) :: t2) base → asc (p + 8 * s) (mid ++ (q, sq) :: t2) → 0 ≤ s → q < bp →
  (length mid < fuel)%nat → ∃ f, free_search fuel bp p h = free_search f bp q h.
Proof using All.
  induction mid as [|[b n] mid IH]; intros fuel l1 p s h Hl Ha Hs Hq Hf; (destruct fuel as [|fuel]; [simpl in Hf; lia|]);
    pose proof Hl as [_ (_ & Hn & _)]%linked_app; cbn [app first_of] in Hn; cbn [free_search]; (erewrite bind_Ret; [|reflexivity]); unfold s_ptr; rewrite Hn; cbn [app asc] in Ha.
  - rewrite (proj2 (Z.ltb_ge bp q)), (proj2 (Z.leb_gt q p)), andb_false_r by lia. cbn [andb]. by exists fuel.
  - assert (b < q) as Hb. { destruct Ha as (_ & H1 & _ & Ha). apply asc_app in Ha as (_ & [H _] & _). lia. }
    rewrite (proj2 (Z.ltb_ge bp b)), (proj2 (Z.leb_gt b p)), andb_false_r by lia. cbn [andb].
    apply (IH fuel (l1 ++ [(p, s)]) b n); [by rewrite <- app_assoc|tauto|lia|done|simpl in Hf; lia].
Qed.
Lemma search_wrap bp l2 : ∀ fuel l1 p s h, linked (hp_mem h) (l1 ++ (p, s) :: l2) base → asc (p + 8 * s) l2 → 0 ≤ s → bp < p → base < bp →
  (length l2 < fuel)%nat → ∃ f, free_search fuel bp p h = free_search f bp base h ∧ (fuel = f + S (length l2))%nat.
Proof using All.
  induction l2 as [|[b n] l2 IH]; intros fuel l1 p s h Hl Ha Hs Hp Hb Hf; (destruct fuel as [|fuel]; [simpl in Hf; lia|]);
    pose proof Hl as [_ (_ & Hn & _)]%linked_app; cbn [app first_of] in Hn; cbn [free_search]; (erewrite bind_Ret; [|reflexivity]); unfold s_ptr; rewrite Hn; cbn [app asc] in Ha.
  - rewrite (proj2 (Z.ltb_ge p bp)), (proj2 (Z.ltb_ge bp base)) by lia. cbn [andb orb]. rewrite andb_false_r. exists fuel. split; [done|simpl; lia].
  - rewrite (proj2 (Z.ltb_ge p bp)), (proj2 (Z.leb_gt b p)) by lia. cbn [andb].
    destruct (IH fuel (l1 ++ [(p, s)]) b n h) as (f & E & Ef); [by rewrite <- app_assoc|tauto|lia|lia|done|simpl in Hf; lia|].
    exists f. split; [done|]. simpl. lia.
Qed.
(** From anywhere on the list the search ends at [q]. *)
Lemma search_ok h fs bp q sq t1 t2 p fuel : linked (hp_mem h) ((base, 0) :: fs) base → asc base fs → (base, 0) :: fs = t1 ++ (q, sq) :: t2 → around bp t1 q t2 →
  p ∈ ((base, 0) :: fs).*1 → base < bp → (2 * S (length fs) < fuel)%nat → free_search fuel bp p h = Ret q h.
Proof using All.
  intros Hl Ha E Har Hp Hb Hf.
  assert (base ≤ q) as Hq. { destruct t1 as [|[b n] t1]; [by injection E as <- _ _; lia|]. injection E as <- <- E. rewrite E in Ha. apply asc_app in Ha as (_ & [H _] & _). lia. }
  assert (∀ a s, (a, s) ∈ fs → base < a ∧ 1 ≤ s) as Hfs by (intros a s Hin; by destruct (asc_elem _ _ _ _ Ha Hin) as (? & ? & _)).
  assert (asc (base + 8 * 0) fs) as Ha0 by (by rewrite Z.mul_0_r, Z.add_0_r).
  assert (∀ f, (length fs < f)%nat → free_search f bp base h = Ret q h) as Hfrom.
  { intros f Hlt. destruct t1 as [|[b n] t1]; [injection E as <- <- <-; by apply (search_at f bp base 0 [] fs)|].
    injection E as <- <- E. rewrite E in Ha0. destruct (search_up bp q sq t2 t1 f [] base 0 h) as (f' & ->); [simpl; by rewrite <- E|done|lia|apply Har|rewrite E, length_app in Hlt; simpl in Hlt; lia|].
    apply (search_at f' bp q sq ((base, 0) :: t1) t2); [simpl; by rewrite <- E|done|done]. }
  apply list_elem_of_fmap in Hp as ([p' s] & -> & Hp). cbn [fst]. pose proof Hp as (l1 & l2 & El)%list_elem_of_split.
  assert (0 ≤ s ∧ asc (p' + 8 * s) l2) as [Hs Hal].
  { destruct l1 as [|[b n] l1]; [injection El as <- <- <-; by split|]. injection El as <- <- ->. apply asc_app in Ha as (_ & _ & ? & _ & ?). split; [lia|done]. }
  assert (length fs = length l1 + length l2)%nat as Elen by (apply (f_equal length) in El; rewrite length_app in El; simpl in El; lia).
  assert (p' = q → free_search fuel bp p' h = Ret q h) as Hat by (intros ->; apply (search_at fuel bp q sq t1 t2); [by rewrite <- E|done|done]).
  rewrite El in E, Hl. apply app_eq_inv in E as [(k & -> & E)|(k & -> & E)]; destruct k as [|[b n] k].
  - injection E as <- _ _. by apply Hat.
  - injection E as <- <- ->. destruct (search_wrap bp l2 fuel _ p' s h Hl Hal Hs) as (f & -> & Ef); [destruct Har as (_ & _ & Har); apply (Har p' s), elem_of_app; right; left|done|lia|].
    apply Hfrom. lia.
  - injection E as -> _ _. by apply Hat.
  - injection E as <- <- ->. destruct (search_up bp q sq t2 k fuel l1 p' s h Hl Hal Hs) as (f & ->); [apply Har|rewrite length_app in Elen; simpl in Elen; lia|].
    apply (search_at f bp q sq (l1 ++ (p', s) :: k) t2); [by rewrite <- app_assoc|done|done].
Qed.

Lemma split_at bp bs fs : ∀ b n, asc (b + 8 * n) fs → 0 ≤ n → b < bp → 1 ≤ bs → (∀ a s, (a, s) ∈ fs → apart a s bp bs) →
  ∃ t1 q sq t2, (b, n) :: fs = t1 ++ (q, sq) :: t2 ∧ around bp t1 q t2.
Proof using.
  induction fs as [|[a s] fs IH]; intros b n Ha Hn Hb Hbs Hap.
  - exists [], b, n, []. split; [done|]. split_and!; [|done|]; intros ? ? Hin; by apply not_elem_of_nil in Hin.
  - cbn [asc] in Ha. destruct Ha as (H1 & H2 & _ & H3). destruct (decide (a < bp)) as [Hlt|Hge].
    + destruct (IH a s H3) as (t1 & q & sq & t2 & E & A1 & A2 & A3); [lia|done|done|intros; apply Hap; by right|]. exists ((b, n) :: t1), q, sq, t2. rewrite E. split; [done|].
      assert (a ≤ q) as Haq by (destruct t1 as [|[c k] t1]; [by injection E as -> _ _|injection E as -> _ _; pose proof (A1 c k ltac:(left)); lia]).
      split_and!; [|done|done]. intros a' s' [[= -> ->]|Hin]%elem_of_cons; [lia|by apply (A1 a' s')].
    + exists [], b, n, ((a, s) :: fs). split; [done|]. split_and!; [intros ? ? Hin; by apply not_elem_of_nil in Hin|done|].
      pose proof (Hap a s ltac:(left)) as Hapa. unfold apart in Hapa.
      intros a' s' [[= -> ->]|Hin]%elem_of_cons; [lia|]. destruct (asc_elem _ _ _ _ H3 Hin) as (? & _). lia.
Qed.

Definition units (fs : list (Z * Z)) : Z := foldr (λ b z, b.2 + z) 0 fs.
Lemma units_app l1 l2 : units (l1 ++ l2) = units l1 + units l2.
Proof using. induction l1 as [|[a s] l1 IH]; [done|]. cbn [app units foldr]. unfold units in *. simpl. rewrite IH. lia. Qed.

Lemma set_frame (h : heap) p v : p mod 8 = 0 → ∀ y, ¬ p ≤ y < p + 8 → rd8 (wr32 (p + 4) v (hp_mem h)) y = rd8 (hp_mem h) y ∧ rd8 (wr32 p v (hp_mem h)) y = rd8 (hp_mem h) y.
Proof using. intros _ y Hy. rewrite !rd8_wr32, !decide_False by lia. done. Qed.

(** Joining [bp] with the block above it, if they touch. *)
Lemma join_up h bp bs t2 next : rd32 (hp_mem h) (bp + 4) = bs → linked (hp_mem h) t2 base → next = first_of t2 base →
  bp mod 8 = 0 → base < bp → 1 ≤ bs → bp + 8 * bs ≤ limit → (∀ a s, (a, s) ∈ t2 → bp + 8 * bs ≤ a ∧ a + 8 * s ≤ limit) → asc bp t2 →
  ∃ h1 Bs t2', (if uint (bp + 8 * bs) =? next then
       let! nsize := gets (s_size next) in
       set_size bp (bs + nsize) ;;;
       let! nnext := gets (s_ptr next) in
       set_ptr bp nnext
     else set_ptr bp next) h = Ret () h1 ∧ hp_freep h1 = hp_freep h ∧ hp_brk h1 = hp_brk h ∧
    (∀ y, ¬ bp ≤ y < bp + 8 → rd8 (hp_mem h1) y = rd8 (hp_mem h) y) ∧
    linked (hp_mem h1) ((bp, Bs) :: t2') base ∧ asc (bp + 8 * Bs) t2' ∧ bs ≤ Bs ∧
    (Bs = bs ∧ t2' = t2 ∨ ∃ s, t2 = (bp + 8 * bs, s) :: t2' ∧ Bs = bs + s).
Proof using All.
  intros Hs Hl -> Hal Hb Hbs Hlim Ht Ha.
  assert (uint (bp + 8 * bs) = bp + 8 * bs) as -> by (apply uint_small; unfold is_uint; lia).
  assert (∀ l : list (Z * Z), (∀ a s, (a, s) ∈ l → (a, s) ∈ t2) → ∀ a s, (a, s) ∈ l → a mod 8 = 0 ∧ a ≠ bp) as Hhd.
  { intros l Hsub a s Hin%Hsub. pose proof (asc_elem _ _ _ _ Ha Hin) as (? & _ & ?). split; [done|lia]. }
  destruct (Z.eqb_spec (bp + 8 * bs) (first_of t2 base)) as [E|E].
  - destruct t2 as [|[a s] t2]; cbn [first_of] in E; [lia|]. subst a. cbn [linked asc] in Hl, Ha. destruct Hl as (L1 & L2 & L3), Ha as (A1 & A2 & A3 & A4).
    cbn [first_of]. do 3 next. unfold s_size, s_ptr, set_ptr, modify. cbn [hp_mem set_mem]. rewrite rd32_wr32_ne by lia. rewrite L1, L2.
    eexists _, (bs + s), t2. split; [reflexivity|]. cbn [hp_freep hp_brk hp_mem set_mem]. split; [done|]. split; [done|]. split.
    { intros y Hy. rewrite !rd8_wr32, !decide_False by lia. done. }
    split; [|split; [by replace (bp + 8 * (bs + s)) with (bp + 8 * bs + 8 * s) by lia|split; [lia|right; by exists s]]].
    cbn [linked]. rewrite rd32_wr32_ne, !rd32_wr32 by lia. destruct (Ht (bp + 8 * bs) s ltac:(left)) as [_ Htop].
    split; [apply uint_small; unfold is_uint; lia|]. split; [rewrite <- L2; apply uint_small, rd32_range|].
    apply (linked_frame (hp_mem h) _ t2 base bp); [intros y Hy; rewrite !rd8_wr32, !decide_False by lia; done|done|apply Hhd; intros; by right|done].
  - unfold set_ptr, modify. eexists _, bs, t2. split; [reflexivity|]. cbn [hp_freep hp_brk hp_mem set_mem]. split; [done|]. split; [done|]. split.
    { intros y Hy. rewrite !rd8_wr32, !decide_False by lia. done. }
    split; [|split; [|split; [lia|by left]]].
    + cbn [linked]. rewrite rd32_wr32_ne, rd32_wr32 by lia. split; [done|]. split.
      * apply uint_small. unfold is_uint. destruct t2 as [|[a s] t2]; cbn [first_of]; [lia|]. destruct (Ht a s ltac:(left)). destruct (asc_elem _ _ a s Ha ltac:(left)). lia.
      * apply (linked_frame (hp_mem h) _ t2 base bp); [intros y Hy; rewrite !rd8_wr32, !decide_False by lia; done|done|by apply Hhd|done].
    + destruct t2 as [|[a s] t2]; [done|]. cbn [first_of asc] in *. destruct (Ht a s ltac:(left)) as [? _]. destruct Ha as (?&?&?&?). split_and!; (done || lia).
Qed.
(** Joining the block below with [bp], if they touch. *)
Lemma join_down h q sq bp Bs t1 t2 : linked (hp_mem h) t1 q → rd32 (hp_mem h) (q + 4) = sq → linked (hp_mem h) ((bp, Bs) :: t2) base →
  0 ≤ q → q mod 8 = 0 → 0 ≤ sq → q < bp → q + 8 * sq ≤ bp → 1 ≤ Bs → bp + 8 * Bs ≤ limit →
  (∀ a s, (a, s) ∈ t1 ++ (bp, Bs) :: t2 → a mod 8 = 0 ∧ a ≠ q) →
  ∃ h2 tl, (let! psize := gets (s_size q) in
     if uint (q + 8 * psize) =? bp then
       let! bsize := gets (s_size bp) in
       set_size q (psize + bsize) ;;;
       let! bnext := gets (s_ptr bp) in
       set_ptr q bnext
     else set_ptr q bp) h = Ret () h2 ∧ hp_freep h2 = hp_freep h ∧ hp_brk h2 = hp_brk h ∧
    (∀ y, ¬ q ≤ y < q + 8 → rd8 (hp_mem h2) y = rd8 (hp_mem h) y) ∧ linked (hp_mem h2) (t1 ++ tl) base ∧
    (q + 8 * sq = bp ∧ tl = (q, sq + Bs) :: t2 ∨ q + 8 * sq < bp ∧ tl = (q, sq) :: (bp, Bs) :: t2).
Proof using All.
  intros Ht1 Hs Hl Hq0 Hq Hsq Hqb Hend HB Hlim Hhd. next. unfold s_size at 1. rewrite Hs.
  assert (uint (q + 8 * sq) = q + 8 * sq) as -> by (apply uint_small; unfold is_uint; lia).
  assert (∀ m', (∀ y, ¬ q ≤ y < q + 8 → rd8 m' y = rd8 (hp_mem h) y) → linked m' t1 q ∧ linked m' ((bp, Bs) :: t2) base) as Hfr.
  { intros m' Hm. split; eapply linked_frame; try done; intros a s Hin; apply (Hhd a s), elem_of_app; auto. }
  cbn [linked] in Hl. destruct Hl as (L1 & L2 & L3).
  destruct (Z.eqb_spec (q + 8 * sq) bp) as [E|E].
  - do 3 next. unfold s_size, s_ptr, set_ptr, modify. cbn [hp_mem set_mem]. assert (bp mod 8 = 0) as Hbm by (apply (Hhd bp Bs), elem_of_app; right; left).
    rewrite rd32_wr32_ne by (Z.to_euclidean_division_equations; lia). unfold s_size in *. rewrite L1, L2, ?Hs.
    eexists _, _. split; [reflexivity|]. cbn [hp_freep hp_brk hp_mem set_mem]. split; [done|]. split; [done|].
    set (m2 := wr32 q (first_of t2 base) (wr32 (q + 4) (sq + Bs) (hp_mem h))).
    assert (∀ y, ¬ q ≤ y < q + 8 → rd8 m2 y = rd8 (hp_mem h) y) as Hm2 by (intros y Hy; unfold m2; rewrite !rd8_wr32, !decide_False by lia; done).
    split; [exact Hm2|]. split; [|left; split; [done|reflexivity]]. destruct (Hfr m2 Hm2) as [F1 (_ & _ & F2)]. apply linked_app. split; [done|]. cbn [linked].
    unfold m2 at 1 2. rewrite rd32_wr32_ne, !rd32_wr32 by lia. split; [apply uint_small; unfold is_uint; lia|]. split; [|done].
    rewrite <- L2. apply uint_small, rd32_range.
  - unfold set_ptr, modify. eexists _, _. split; [reflexivity|]. cbn [hp_freep hp_brk hp_mem set_mem]. split; [done|]. split; [done|].
    set (m2 := wr32 q bp (hp_mem h)).
    assert (∀ y, ¬ q ≤ y < q + 8 → rd8 m2 y = rd8 (hp_mem h) y) as Hm2 by (intros y Hy; unfold m2; rewrite !rd8_wr32, !decide_False by lia; done).
    split; [exact Hm2|]. split; [|right; split; [lia|reflexivity]]. destruct (Hfr m2 Hm2) as [F1 F2]. apply linked_app. split; [done|]. cbn [linked first_of].
    unfold m2 at 1 2. rewrite rd32_wr32_ne, rd32_wr32 by lia. split; [done|]. split; [apply uint_small; unfold is_uint; lia|exact F2].
Qed.

(** What a used block knows of the memory: all of it but what is given to the
    free list. *)
Definition kept (us : gmap Z Z) (h h' : heap) : Prop := ∀ a s y, us !! a = Some s → a ≤ y < a + 8 * s → rd8 (hp_mem h') y = rd8 (hp_mem h) y.

Lemma used_size us h h' a s : kept us h h' → us !! a = Some s → 1 ≤ s → rd32 (hp_mem h') (a + 4) = rd32 (hp_mem h) (a + 4).
Proof using. intros Hk Ha Hs. apply rd32_ext. intros b Hb. apply (Hk a s); [done|lia]. Qed.

(** The new list of free blocks. *)
Lemma list_step q sq t2 bp bs Bs t2' tl lim (us : gmap Z Z) :
  0 ≤ sq → 1 ≤ bs → bp mod 8 = 0 → bp + 8 * bs ≤ lim → q + 8 * sq ≤ bp →
  (Bs = bs ∧ t2' = t2 ∨ ∃ s, t2 = (bp + 8 * bs, s) :: t2' ∧ Bs = bs + s) →
  (q + 8 * sq = bp ∧ tl = (q, sq + Bs) :: t2' ∨ q + 8 * sq < bp ∧ tl = (q, sq) :: (bp, Bs) :: t2') →
  asc (q + 8 * sq) t2 → asc (bp + 8 * Bs) t2' →
  (∀ b n, us !! b = Some n → 1 ≤ n ∧ apart bp bs b n ∧ (1 ≤ sq → apart q sq b n) ∧ ∀ a s, (a, s) ∈ t2 → apart a s b n) →
  (∀ a s, (a, s) ∈ t2 → a + 8 * s ≤ lim) →
  ∃ s0 tl', tl = (q, s0) :: tl' ∧ sq ≤ s0 ∧ (s0 = sq ∨ q + 8 * sq = bp) ∧ asc (q + 8 * s0) tl' ∧ units tl = sq + bs + units t2 ∧ (length tl ≤ 2 + length t2)%nat ∧
    (∃ a s, (a, s) ∈ tl ∧ a ≤ bp ∧ bp + 8 * bs ≤ a + 8 * s) ∧ q + 8 * s0 ≤ lim ∧
    (∀ a s, (a, s) ∈ tl' → a + 8 * s ≤ lim ∧ ∀ b n, us !! b = Some n → apart a s b n) ∧ (∀ b n, us !! b = Some n → 1 ≤ s0 → apart q s0 b n).
Proof using.
  intros Hsq Hbs Hbm Hlim Hend HB Htl Ha Ha' Hus Htop.
  assert (1 ≤ Bs ∧ bp + 8 * Bs ≤ lim ∧ Bs + units t2' = bs + units t2 ∧ (length t2' ≤ length t2)%nat ∧
    (∀ a s, (a, s) ∈ t2' → (a, s) ∈ t2) ∧ ∀ b n, us !! b = Some n → apart bp Bs b n) as (B1 & B2 & B3 & B4 & B5 & B6).
  { destruct HB as [[-> ->]|(s & -> & ->)]; [split_and!; try done; intros b n Hb; by destruct (Hus b n Hb) as (_ & ? & _)|].
    pose proof (Htop (bp + 8 * bs) s ltac:(left)). cbn [asc] in Ha. destruct Ha as (_ & Hs & _).
    split_and!; [lia|lia|unfold units; simpl; lia|simpl; lia|intros; by right|].
    intros b n Hb. destruct (Hus b n Hb) as (? & H1 & _ & H2). specialize (H2 (bp + 8 * bs) s ltac:(left)). unfold apart in *. lia. }
  destruct Htl as [[E ->]|[E ->]]; eexists _, _; (split; [reflexivity|]).
  - split_and!; [lia|by right|by replace (q + 8 * (sq + Bs)) with (bp + 8 * Bs) by lia|unfold units in *; simpl; lia|simpl; lia| |lia| |].
    + exists q, (sq + Bs). split; [left|]. destruct HB as [[-> _]|(s & -> & ->)]; [lia|]. cbn [asc] in Ha. lia.
    + intros a s Hin. split; [by apply Htop, B5|]. intros b n Hb. destruct (Hus b n Hb) as (_ & _ & _ & H). by apply H, B5.
    + intros b n Hb _. specialize (B6 b n Hb). destruct (Hus b n Hb) as (? & _ & H & _). unfold apart in *. destruct (decide (1 ≤ sq)); [specialize (H ltac:(done)); lia|lia].
  - split_and!; [lia|by left|cbn [asc]; split_and!; done|unfold units in *; simpl; lia|simpl; lia| |lia| |].
    + exists bp, Bs. split; [right; left|]. destruct HB as [[-> _]|(s & -> & ->)]; [lia|]. cbn [asc] in Ha. lia.
    + intros a s [[= -> ->]|Hin]%elem_of_cons; [done|]. split; [by apply Htop, B5|]. intros b n Hb. destruct (Hus b n Hb) as (_ & _ & _ & H). by apply H, B5.
    + intros b n Hb H1. destruct (Hus b n Hb) as (_ & _ & H & _). by apply H.
Qed.

Lemma free_ok h fs us bp bs fuel : heap_inv h fs us → us !! bp = Some bs → (2 * S (length fs) < fuel)%nat →
  ∃ h' fs', free fuel (bp + 8) h = Ret () h' ∧ heap_inv h' fs' (delete bp us) ∧ kept (delete bp us) h h' ∧ hp_brk h' = hp_brk h ∧ hp_freep h' ≠ 0 ∧
    units fs' = units fs + bs ∧ (length fs' ≤ S (length fs))%nat ∧ ∃ a s, (a, s) ∈ fs' ∧ bs ≤ s.
Proof using All.
  intros [Hbrk Hasc Htop Hused Hap Hfr Hlist] Hbp Hfuel. destruct (Hused _ _ Hbp) as (Hb1 & Hb2 & Hb3 & Hb4 & Hb5).
  destruct Hlist as [(_ & _ & ->)|[Hfp Hlk]]; [by rewrite lookup_empty in Hbp|].
  destruct (split_at bp bs fs base 0) as (t1 & q & sq & t2 & E & Har); [by rewrite Z.mul_0_r, Z.add_0_r|lia|lia|done|intros a s Hin; by apply Hfr|].
  assert (Hq : base ≤ q ∧ q mod 8 = 0 ∧ 0 ≤ sq ∧ asc (q + 8 * sq) t2 ∧ q + 8 * sq ≤ bp ∧ (∀ a s, (a, s) ∈ t2 → (a, s) ∈ fs) ∧ (1 ≤ sq → (q, sq) ∈ fs) ∧
    (∀ a s, (a, s) ∈ t1 → a mod 8 = 0) ∧ (∀ a s, (a, s) ∈ t2 → q < a)).
  { destruct t1 as [|[b n] t1].
    - injection E as <- <- <-. split_and!; try done; try lia; [by rewrite Z.mul_0_r, Z.add_0_r|intros ? ? Hin; by apply not_elem_of_nil in Hin|].
      intros a s Hin. by destruct (asc_elem _ _ _ _ Hasc Hin) as (? & _).
    - injection E as <- <- ->. pose proof Hasc as (A1 & [A2 A3] & A4 & A5 & A6)%asc_app.
      assert ((q, sq) ∈ t1 ++ (q, sq) :: t2) as Hin by (apply elem_of_app; right; left). pose proof (Hfr q sq bp bs Hin Hbp) as Hap'. unfold apart in Hap'.
      destruct Har as (_ & Hqb & _). split_and!; try done; try lia.
      + intros a s Ha. apply elem_of_app. right. by right.
      + intros a s [[= -> ->]|Ha]%elem_of_cons; [apply Hbase|]. by destruct (asc_elem _ _ _ _ A1 Ha) as (_ & _ & ?).
      + intros a s Ha. destruct (asc_elem _ _ _ _ A6 Ha) as (? & _). lia. }
  destruct Hq as (Q1 & Q2 & Q3 & Q4 & Q5 & Q6 & Q7 & Q8 & Q9).
  pose proof Hlk as Hlk'. rewrite E in Hlk'. apply linked_app in Hlk' as [K1 (K2 & K3 & K4)].
  unfold free. rewrite Z.add_simpl_r, (uint_small bp) by (unfold is_uint; lia). next.
  rewrite (bind_Ret _ _ _ _ _ (search_ok h fs bp q sq t1 t2 (hp_freep h) fuel Hlk Hasc E Har Hfp ltac:(lia) Hfuel)). do 2 next.
  change (s_ptr q h) with (rd32 (hp_mem h) q). change (s_size bp h) with (rd32 (hp_mem h) (bp + 4)). rewrite K3, Hb5.
  assert (∀ a s, (a, s) ∈ t2 → bp + 8 * bs ≤ a ∧ a + 8 * s ≤ limit) as Ht2.
  { intros a s Hin. pose proof (Hfr a s bp bs (Q6 _ _ Hin) Hbp) as H. pose proof (Htop a s (Q6 _ _ Hin)). destruct Har as (_ & _ & Har). specialize (Har a s Hin). destruct (asc_elem _ _ _ _ Q4 Hin) as (_ & ? & _). unfold apart in H. split; lia. }
  destruct (join_up h bp bs t2 _ Hb5 K4 eq_refl Hb2) as (h1 & Bs & t2' & E1 & F1 & B1 & M1 & L1 & A1 & S1 & C1); [lia|done|lia|done|..].
  { clear -Q4 Ht2 Hb3. destruct t2 as [|[a s] t2]; [done|]. cbn [asc] in *. destruct (Ht2 a s ltac:(left)). split_and!; try lia; tauto. }
  run E1. assert (1 ≤ Bs ∧ bp + 8 * Bs ≤ limit ∧ ∀ a s, (a, s) ∈ t2' → (a, s) ∈ t2) as (S2 & S3 & S4).
  { destruct C1 as [[-> ->]|(s & -> & ->)]; [split_and!; try done; lia|]. destruct (Ht2 (bp + 8 * bs) s ltac:(left)) as [_ ?]. split_and!; [lia|lia|]. intros. by right. }
  assert (∀ a s, (a, s) ∈ t1 ++ (bp, Bs) :: t2' → a mod 8 = 0 ∧ a ≠ q) as Hhd.
  { destruct Har as (T1 & T2 & T3). intros a s [Hin|[[= -> ->]|Hin]%elem_of_cons]%elem_of_app; [split; [by apply (Q8 a s)|specialize (T1 a s Hin); lia]|split; [done|lia]|].
    apply S4 in Hin. destruct (asc_elem _ _ _ _ Q4 Hin) as (_ & _ & ?). split; [done|]. specialize (Q9 a s Hin). lia. }
  destruct (join_down h1 q sq bp Bs t1 t2') as (h2 & tl & E2 & F2 & B2 & M2 & L2 & C2); try done; try lia.
  { apply (linked_frame (hp_mem h) _ t1 q bp); [done|done| |done]. intros a s Hin. split; [by apply (Q8 a s)|]. destruct Har as (T1 & T2 & _). specialize (T1 a s Hin). lia. }
  { destruct Har as (_ & ? & _). rewrite <- K2. apply rd32_ext. intros b Hb. apply M1. Z.to_euclidean_division_equations. lia. }
  { apply Har. }
  erewrite bind_Ret in E2; [|reflexivity]. next. run E2. cbn [modify]. unfold modify.
  destruct (list_step q sq t2 bp bs Bs t2' tl (hp_brk h) (delete bp us)) as (s0 & tl' & -> & D1 & D2 & D3 & D4 & D5 & D6 & D7 & D8 & D9); try done.
  { intros b n [Hne Hb]%lookup_delete_Some. destruct (Hused b n Hb) as (_ & _ & ? & _). split; [done|]. split; [by apply Hap|]. split; [intros Hsq1; by apply Hfr; [apply Q7|]|].
    intros a s Hin. by apply Hfr; [apply Q6|]. }
  { intros a s Hin. by apply Htop, Q6. }
  set (fs' := tail (t1 ++ (q, s0) :: tl')). assert ((base, 0) :: fs' = t1 ++ (q, s0) :: tl' ∧ (t1 = [] → s0 = 0)) as [Efs Hs0].
  { unfold fs'. destruct t1 as [|[b n] t1]; [|injection E as <- <- _; done]. injection E as <- <- _. destruct Har as (_ & ? & _). assert (s0 = 0) as -> by (destruct D2; [done|lia]). done. }
  assert (∀ y, ¬ bp ≤ y < bp + 8 → ¬ q ≤ y < q + 8 → rd8 (hp_mem h2) y = rd8 (hp_mem h) y) as Hm by (intros y Y1 Y2; rewrite M2, M1; done).
  assert (kept (delete bp us) h h2) as Hkept.
  { intros a s y [Hne Ha]%lookup_delete_Some Hy. destruct (Hused a s Ha) as (U1 & _ & U3 & _). pose proof (Hap bp bs a s Hbp Ha Hne) as U. unfold apart in U. apply Hm; [lia|].
    destruct (decide (1 ≤ sq)) as [Hsq|Hsq]; [pose proof (Hfr q sq a s (Q7 Hsq) Ha) as U'; unfold apart in U'; lia|].
    destruct t1 as [|[b n] t1]; [injection E as <- _ _; lia|]. injection E as <- <- ->. apply asc_app in Hasc as (_ & _ & ? & _). lia. }
  eexists _, fs'. split; [reflexivity|]. split.
  - split; cbn [set_freep hp_mem hp_freep hp_brk]; rewrite ?B2, ?B1.
    + done.
    + destruct t1 as [|[b n] t1]; [injection E as <- _ _; rewrite (Hs0 eq_refl), Z.mul_0_r, Z.add_0_r in D3; exact D3|]. injection E as <- <- ->. unfold fs'. cbn [app tail].
      apply asc_app in Hasc as (A2 & A3 & A4 & A5 & A6). apply asc_app. split_and!; try done; try apply A3. lia.
    + intros a s Hin. destruct t1 as [|[b n] t1]; [by apply D8|]. injection E as <- <- ->. apply elem_of_app in Hin as [Hin|[[= -> ->]|Hin]%elem_of_cons]; [|lia|by apply D8].
      apply Htop, elem_of_app. by left.
    + intros a s Ha. pose proof Ha as [_ Hu]%lookup_delete_Some. destruct (Hused a s Hu) as (U1 & U2 & U3 & U4 & U5). split_and!; try done. by rewrite <- U5; apply (used_size (delete bp us) h h2 a s).
    + intros a s b n [_ H1]%lookup_delete_Some [_ H2]%lookup_delete_Some. by apply Hap.
    + intros a s b n Hin Hb. destruct t1 as [|[c k] t1]; [by apply (D8 a s)|]. injection E as <- <- ->. apply elem_of_app in Hin as [Hin|[[= -> ->]|Hin]%elem_of_cons]; [| |by apply (D8 a s)].
      * apply lookup_delete_Some in Hb as [_ Hb]. apply Hfr; [apply elem_of_app; by left|done].
      * apply D9; [done|]. apply asc_app in Hasc as (_ & _ & ? & _). lia.
    + right. rewrite Efs. split; [rewrite fmap_app; set_solver|done].
  - split; [done|]. cbn [set_freep hp_freep hp_brk]. split; [congruence|]. split; [lia|].
    assert (units fs' = units (t1 ++ (q, s0) :: tl')) as -> by (rewrite <- Efs; done). assert (units fs = units (t1 ++ (q, sq) :: t2)) as -> by (rewrite <- E; done).
    rewrite !units_app. split; [unfold units in *; simpl in *; lia|]. split.
    + apply (f_equal length) in E, Efs. rewrite length_app in E, Efs. simpl in *. lia.
    + destruct D6 as (a & s & Hin & X1 & X2). exists a, s. split; [|lia]. assert ((a, s) ∈ (base, 0) :: fs') as Hin' by (rewrite Efs; apply elem_of_app; by right).
      apply elem_of_cons in Hin' as [[= -> ->]|]; [lia|done].
Qed.

(** ** malloc *)
Lemma used_apart us h fs a s (a' s' : Z) : heap_inv h fs us → (a, s) ∈ fs → a ≤ a' → a' + 8 * s' ≤ a + 8 * s → ∀ b n, us !! b = Some n → apart a' s' b n.
Proof using. intros Hi Hin H1 H2 b n Hb. pose proof (hi_free _ _ _ Hi a s b n Hin Hb) as H. unfold apart in *. lia. Qed.

(** A block on the list and its predecessor. *)
Lemma block_facts fs t1 prev sp b s t2 : asc base fs → (base, 0) :: fs = t1 ++ (prev, sp) :: (b, s) :: t2 →
  (b, s) ∈ fs ∧ asc (prev + 8 * sp) ((b, s) :: t2) ∧ (∀ a k, (a, k) ∈ t1 → a < prev ∧ a mod 8 = 0 ∧ a + 8 * k < prev) ∧ base ≤ prev ∧ prev mod 8 = 0 ∧ 0 ≤ sp ∧
  (∀ a k, (a, k) ∈ t2 → (a, k) ∈ fs) ∧
  ∀ tl, asc (prev + 8 * sp) tl → ∃ fs', (base, 0) :: fs' = t1 ++ (prev, sp) :: tl ∧ asc base fs' ∧ (∀ a k, (a, k) ∈ fs' → (a, k) ∈ fs ∨ (a, k) ∈ tl) ∧
    units fs' = units fs - units ((b, s) :: t2) + units tl ∧ (length fs' + S (length t2) = length fs + length tl)%nat.
Proof using All.
  intros Hasc E. destruct t1 as [|[c k] t1].
  - injection E as <- <- ->. split; [left|]. split; [by rewrite Z.mul_0_r, Z.add_0_r|]. split; [intros ? ? Hin; by apply not_elem_of_nil in Hin|].
    split; [lia|]. split; [apply Hbase|]. split; [lia|]. split; [intros; by right|]. rewrite Z.mul_0_r, Z.add_0_r. intros tl Htl. exists tl. split; [done|]. split; [done|]. split; [by right|]. split; [lia|simpl; lia].
  - injection E as <- <- ->. pose proof Hasc as (A1 & [A2 A3] & A4 & A5 & A6)%asc_app. split; [apply elem_of_app; right; right; left|]. split; [done|]. split.
    { intros a j [[= -> ->]|Ha]%elem_of_cons; [split_and!; [done|apply Hbase|lia]|]. destruct (asc_elem _ _ _ _ A1 Ha) as (_ & ? & ?). specialize (A3 a j Ha). split_and!; [lia|done|lia]. }
    split; [lia|]. split; [done|]. split; [lia|]. split; [intros; apply elem_of_app; right; right; by right|].
    intros tl Htl. exists (t1 ++ (prev, sp) :: tl). split; [done|]. split; [by apply asc_app|]. split; [|split].
    + intros a j [Hin|[Hin|Hin]%elem_of_cons]%elem_of_app; [left; apply elem_of_app; by left|left; apply elem_of_app; right; rewrite Hin; left|by right].
    + rewrite !units_app. unfold units. simpl. lia.
    + rewrite !length_app. simpl. lia.
Qed.

(** Taking all of a block. *)
Lemma take_all h fs us t1 prev sp b s t2 : heap_inv h fs us → linked (hp_mem h) ((base, 0) :: fs) base → (base, 0) :: fs = t1 ++ (prev, sp) :: (b, s) :: t2 →
  ∃ h' fs', malloc_take s prev b h = Ret (b + 8) h' ∧ heap_inv h' fs' (<[b := s]> us) ∧ us !! b = None ∧ kept us h h' ∧ hp_brk h' = hp_brk h ∧
    units fs = units fs' + s ∧ (length fs' ≤ length fs)%nat.
Proof using All.
  intros [Hbrk Hasc Htop Hused Hap Hfr Hlist] Hlk E. destruct (block_facts _ _ _ _ _ _ _ Hasc E) as (Hin & Hab & Ht1 & Hp1 & Hp2 & Hsp & Ht2 & Hnew).
  pose proof Hab as Hab'. cbn [asc] in Hab. destruct Hab as (Hab1 & Hab2 & Hab3 & Hab4). destruct (Hnew t2) as (fs' & Efs & Hasc' & Hsub & Hun & Hlen); [by eapply asc_weaken; [|exact Hab4]; lia|].
  pose proof (Htop b s Hin) as Hbt. rewrite E in Hlk. apply linked_app in Hlk as [K1 K2]. cbn [linked first_of] in K2. destruct K2 as (K2 & K3 & K4 & K5 & K6).
  unfold malloc_take. next. change (s_size b h) with (rd32 (hp_mem h) (b + 4)). rewrite K4, Z.eqb_refl.
  erewrite bind_Ret; [|do 2 (erewrite bind_Ret; [|reflexivity]); reflexivity]. next. change (s_ptr b h) with (rd32 (hp_mem h) b). rewrite K5.
  set (m' := wr32 prev (first_of t2 base) (hp_mem h)).
  assert (∀ y, ¬ prev ≤ y < prev + 4 → rd8 m' y = rd8 (hp_mem h) y) as Hm by (intros y Hy; unfold m'; by rewrite rd8_wr32, decide_False by lia).
  assert (prev ∈ ((base, 0) :: fs').*1) as Hprev by (rewrite Efs, fmap_app; set_solver).
  assert (prev + 8 ≤ b) as Hpb by (Z.to_euclidean_division_equations; lia).
  assert (prev = base ∨ (prev, sp) ∈ fs) as Hpf by (destruct t1 as [|[c k] t1]; [injection E as <- _ _; by left|injection E as <- <- ->; right; apply elem_of_app; right; left]).
  assert (∀ h', hp_mem h' = m' → kept us h h') as Hk.
  { intros h' Eh a k y Ha Hy. rewrite Eh. apply Hm. destruct (Hused a k Ha) as (? & _ & ? & _). destruct Hpf as [->|Hpf]; [lia|].
    pose proof (Hfr _ _ _ _ Hpf Ha) as H1. destruct (asc_elem _ _ _ _ Hasc Hpf) as (_ & ? & _). unfold apart in H1. lia. }
  rewrite uint_small by (unfold is_uint; lia). eexists _, fs'. split; [reflexivity|]. unfold set_freep, set_mem. fold m'.
  assert (us !! b = None) as Hnb by (destruct (us !! b) as [k|] eqn:Eb; [|done]; pose proof (Hfr _ _ _ _ Hin Eb) as H1; destruct (Hused b k Eb) as (_ & _ & ? & _); unfold apart in H1; lia).
  split; [|split; [done|split; [by apply Hk|split; [done|split; [rewrite Hun; unfold units; simpl; lia|lia]]]]].
  assert (∀ a k, (a, k) ∈ fs' → (a, k) ∈ fs) as Hsub' by (intros a k Ha; destruct (Hsub a k Ha); auto).
  assert (∀ a k, (a, k) ∈ fs' → apart a k b s) as Hbf.
  { intros a k Ha. assert ((a, k) ∈ (base, 0) :: fs') as Ha' by (by right). rewrite Efs in Ha'. apply elem_of_app in Ha' as [Ha'|[[= -> ->]|Ha']%elem_of_cons]; [|left; lia|].
    - left. destruct (Ht1 _ _ Ha') as (_ & _ & ?). lia.
    - right. destruct (asc_elem _ _ _ _ Hab4 Ha') as (? & _). lia. }
  split; cbn [hp_mem hp_freep hp_brk].
  - done.
  - done.
  - intros a k Ha. by apply Htop, Hsub'.
  - intros a k [[<- <-]|[Hne Ha]]%lookup_insert_Some.
    + split_and!; try done; [destruct (asc_elem _ _ _ _ Hasc Hin); lia|]. unfold m'. rewrite rd32_wr32_ne by lia. done.
    + destruct (Hused a k Ha) as (U1 & U2 & U3 & U4 & U5). split_and!; try done. rewrite <- U5. apply (used_size us h (Heap m' 0 0) a k); [by apply Hk|done|done].
  - intros a k c n [[<- <-]|[Hne Ha]]%lookup_insert_Some [[<- <-]|[Hne' Hc]]%lookup_insert_Some Hac; [done| | |by apply Hap].
    + by apply Hfr.
    + pose proof (Hfr _ _ _ _ Hin Ha) as H1. unfold apart in *. lia.
  - intros a k c n Ha [[<- <-]|[Hne' Hc]]%lookup_insert_Some; [by apply Hbf|apply Hfr; [by apply Hsub'|done]].
  - right. split; [done|]. rewrite Efs. apply linked_app.
    assert (∀ l e, (∀ a k, (a, k) ∈ l → a mod 8 = 0 ∧ a ≠ prev) → linked (hp_mem h) l e → linked m' l e) as Hfr'.
    { intros l e Hl. apply (linked_frame (hp_mem h) m' l e prev); [intros y Hy; apply Hm; lia|done|done]. }
    split; [apply Hfr'; [|done]; intros a k Ha; destruct (Ht1 a k Ha) as (? & ? & _); split; [done|lia]|].
    cbn [linked]. unfold m' at 1 2. rewrite rd32_wr32_ne, rd32_wr32 by lia. split; [done|]. split.
    + rewrite <- K5. apply uint_small, rd32_range.
    + apply Hfr'; [|done]. intros a k Ha. destruct (asc_elem _ _ _ _ Hab4 Ha) as (? & _ & ?). split; [done|lia].
Qed.

(** Taking the upper part of a block. *)
Lemma take_part h fs us n t1 prev sp b s t2 : heap_inv h fs us → linked (hp_mem h) ((base, 0) :: fs) base → (base, 0) :: fs = t1 ++ (prev, sp) :: (b, s) :: t2 → 1 ≤ n < s →
  let u := b + 8 * (s - n) in
  ∃ h' fs', malloc_take n prev b h = Ret (u + 8) h' ∧ heap_inv h' fs' (<[u := n]> us) ∧ us !! u = None ∧ kept us h h' ∧ hp_brk h' = hp_brk h ∧
    units fs = units fs' + n ∧ (length fs' ≤ length fs)%nat.
Proof using All.
  intros [Hbrk Hasc Htop Hused Hap Hfr Hlist] Hlk E Hn u. destruct (block_facts _ _ _ _ _ _ _ Hasc E) as (Hin & Hab & Ht1 & Hp1 & Hp2 & Hsp & Ht2 & Hnew).
  cbn [asc] in Hab. destruct Hab as (Hab1 & Hab2 & Hab3 & Hab4). destruct (Hnew ((b, s - n) :: t2)) as (fs' & Efs & Hasc' & Hsub & Hun & Hlen).
  { cbn [asc]. split_and!; try done; [lia|]. eapply asc_weaken; [|exact Hab4]. lia. }
  pose proof (Htop b s Hin) as Hbt. rewrite E in Hlk. apply linked_app in Hlk as [K1 K2]. cbn [linked first_of] in K2. destruct K2 as (K2 & K3 & K4 & K5 & K6).
  unfold malloc_take. next. change (s_size b h) with (rd32 (hp_mem h) (b + 4)). rewrite K4, (proj2 (Z.eqb_neq s n)) by lia.
  assert (b + 8 ≤ u ∧ u mod 8 = 0 ∧ u + 8 * n = b + 8 * s) as (Hu1 & Hu2 & Hu3) by (unfold u; Z.to_euclidean_division_equations; lia).
  assert (rd32 (wr32 (b + 4) (s - n) (hp_mem h)) (b + 4) = s - n) as Hsz by (rewrite rd32_wr32; apply uint_small; unfold is_uint; lia).
  erewrite bind_Ret; [|do 2 (erewrite bind_Ret; [|reflexivity]); unfold s_size; cbn [hp_mem set_mem]; rewrite Hsz; fold u; rewrite (uint_small u) by (unfold is_uint; lia);
    erewrite bind_Ret; [|reflexivity]; reflexivity].
  next. rewrite uint_small by (unfold is_uint; lia). eexists _, fs'. split; [reflexivity|]. unfold set_freep, set_mem. cbn [hp_mem hp_brk hp_freep].
  set (m' := wr32 (u + 4) n (wr32 (b + 4) (s - n) (hp_mem h))).
  assert (∀ y, ¬ b + 4 ≤ y < b + 8 → ¬ u + 4 ≤ y < u + 8 → rd8 m' y = rd8 (hp_mem h) y) as Hm by (intros y Hy Hy'; unfold m'; by rewrite !rd8_wr32, !decide_False by lia).
  assert (∀ a k, us !! a = Some k → 1 ≤ k ∧ apart b s a k) as Hu by (intros a k Ha; destruct (Hused a k Ha) as (_ & _ & ? & _); split; [done|by apply Hfr]).
  assert (∀ h', hp_mem h' = m' → kept us h h') as Hk.
  { intros h' Eh a k y Ha Hy. rewrite Eh. destruct (Hu a k Ha) as [? H]. unfold apart in H. apply Hm; lia. }
  assert (us !! u = None) as Hnu by (destruct (us !! u) as [k|] eqn:Eb; [|done]; destruct (Hu u k Eb) as [? H]; unfold apart in H; lia).
  split; [|split; [done|split; [by apply Hk|split; [done|split; [rewrite Hun; unfold units; simpl; lia|simpl in Hlen; lia]]]]].
  assert (∀ a k, (a, k) ∈ fs' → a + 8 * k ≤ hp_brk h ∧ apart a k u n ∧ ∀ c j, us !! c = Some j → apart a k c j) as Hfs'.
  { intros a k Ha. assert ((a, k) ∈ (base, 0) :: fs') as Ha' by (by right). rewrite Efs in Ha'. destruct (Hsub a k Ha) as [Hf|[[= -> ->]|Hf]%elem_of_cons].
    2:{ split; [lia|]. split; [left; lia|]. intros c j Hc. destruct (Hu c j Hc) as [? H]. unfold apart in *. lia. }
    2:{ apply Ht2 in Hf as Hf'. split; [by apply Htop|]. split; [right; destruct (asc_elem _ _ _ _ Hab4 Hf); lia|]. intros c j. by apply Hfr. }
    split; [by apply Htop|]. split; [|intros c j; by apply Hfr].
    apply elem_of_app in Ha' as [Ha'|[[= -> ->]|[[= -> ->]|Ha']%elem_of_cons]%elem_of_cons]; [destruct (Ht1 _ _ Ha') as (_ & _ & ?); left; lia|left; lia|left; lia|].
    right. destruct (asc_elem _ _ _ _ Hab4 Ha') as (? & _). lia. }
  split; cbn [hp_mem hp_freep hp_brk]; [done|done|intros a k Ha; by apply (Hfs' a k)| | | |].
  - intros a k [[<- <-]|[Hne Ha]]%lookup_insert_Some.
    + split_and!; try done; try lia. unfold m'. rewrite rd32_wr32. apply uint_small. unfold is_uint. lia.
    + destruct (Hused a k Ha) as (U1 & U2 & U3 & U4 & U5). split_and!; try done. rewrite <- U5. apply (used_size us h (Heap m' 0 0) a k); [by apply Hk|done|done].
  - intros a k c j [[<- <-]|[Hne Ha]]%lookup_insert_Some [[<- <-]|[Hne' Hc]]%lookup_insert_Some Hac; [done| | |by apply Hap].
    + destruct (Hu c j Hc) as [? H]. unfold apart in *. lia.
    + destruct (Hu a k Ha) as [? H]. unfold apart in *. lia.
  - intros a k c j Ha. destruct (Hfs' a k Ha) as (_ & H1 & H2). intros [[<- <-]|[Hne' Hc]]%lookup_insert_Some; [done|by apply H2].
  - right. split; [rewrite Efs, fmap_app; set_solver|]. rewrite Efs. apply linked_app.
    assert (∀ l e, (∀ a k, (a, k) ∈ l → a mod 8 = 0 ∧ a ≠ b ∧ a ≠ u) → linked (hp_mem h) l e → linked m' l e) as Hfr'.
    { intros l e Hl H. apply (linked_frame (wr32 (b + 4) (s - n) (hp_mem h)) m' l e u).
      - intros y Hy. unfold m'. by rewrite rd8_wr32, decide_False by lia.
      - done.
      - intros a k Ha. destruct (Hl a k Ha) as (? & _ & ?). done.
      - apply (linked_frame (hp_mem h) _ l e b); [intros y Hy; by rewrite rd8_wr32, decide_False by lia|done|intros a k Ha; by destruct (Hl a k Ha) as (? & ? & _)|done]. }
    assert (prev + 8 ≤ b) as Hpb by (Z.to_euclidean_division_equations; lia).
    split; [apply Hfr'; [|done]; intros a k Ha; destruct (Ht1 a k Ha) as (? & ? & _); split_and!; [done|lia|lia]|].
    apply (linked_app m' [(prev, sp)] b (s - n) t2). split.
    + cbn [linked first_of]. unfold m'. rewrite !rd32_wr32_ne by lia. done.
    + cbn [linked]. split; [unfold m'; rewrite rd32_wr32_ne, rd32_wr32 by lia; apply uint_small; unfold is_uint; lia|].
      split; [unfold m'; rewrite !rd32_wr32_ne by lia; done|]. apply Hfr'; [|done]. intros a k Ha. destruct (asc_elem _ _ _ _ Hab4 Ha) as (? & _ & ?). split_and!; [done|lia|lia].
Qed.

(** ** The search for a block *)
Fixpoint pred_of (xs : list (Z * Z)) (prev : Z) : Z := match xs with [] => prev | (a, _) :: xs' => pred_of xs' a end.
Lemma pred_split xs : ∀ prev sp, ∃ t sp', (prev, sp) :: xs = t ++ [(pred_of xs prev, sp')].
Proof using.
  induction xs as [|[a k] xs IH]; intros prev sp; [by exists [], sp|]. destruct (IH a k) as (t & sp' & E). exists ((prev, sp) :: t), sp'. cbn [pred_of app]. by rewrite E.
Qed.
Lemma pred_app xs ys prev : pred_of (xs ++ ys) prev = pred_of ys (pred_of xs prev).
Proof using. revert prev. induction xs as [|[a k] xs IH]; intros prev; [done|]. apply IH. Qed.

Lemma loop_found n xs : ∀ fuel prev h b s ys e, linked (hp_mem h) (xs ++ (b, s) :: ys) e → n ≤ s → (∀ a k, (a, k) ∈ xs → k < n ∧ a ≠ hp_freep h) → (length xs ≤ fuel)%nat →
  malloc_loop fuel n prev (first_of xs b) h = malloc_take n (pred_of xs prev) b h.
Proof using.
  induction xs as [|[a k] xs IH]; intros fuel prev h b s ys e Hl Hs Hxs Hf; cbn [app linked first_of] in *.
  - destruct Hl as (H1 & _). destruct fuel; cbn [malloc_loop]; next; unfold s_size at 1; rewrite H1, (proj2 (Z.leb_le n s)) by done; done.
  - destruct Hl as (H1 & H2 & H3). destruct fuel as [|fuel]; [simpl in Hf; lia|]. destruct (Hxs a k ltac:(left)) as [Hk Hne]. cbn [malloc_loop]. next.
    unfold s_size at 1. rewrite H1, (proj2 (Z.leb_gt n k)) by lia. next. rewrite (proj2 (Z.eqb_neq _ _)) by done. next. unfold s_ptr at 1. rewrite H2, first_of_app. cbn [pred_of].
    apply (IH fuel a h b s ys e H3 Hs); [intros; apply (Hxs _ k0); by right|simpl in Hf; lia].
Qed.
Lemma loop_none n xs : ∀ fuel prev h fp sf e, linked (hp_mem h) (xs ++ [(fp, sf)]) e → sf < n → fp = hp_freep h → (∀ a k, (a, k) ∈ xs → k < n ∧ a ≠ hp_freep h) → (length xs < fuel)%nat →
  ∃ f, (fuel = f + S (length xs))%nat ∧ malloc_loop fuel n prev (first_of xs fp) h =
    (let! q := morecore f n in if q =? 0 then ret 0 else let! next := gets (s_ptr q) in malloc_loop f n q next) h.
Proof using.
  induction xs as [|[a k] xs IH]; intros fuel prev h fp sf e Hl Hs Hfp Hxs Hf; cbn [app linked first_of] in *; (destruct fuel as [|fuel]; [simpl in Hf; lia|]).
  - destruct Hl as (H1 & _). exists fuel. split; [simpl; lia|]. cbn [malloc_loop]. next. unfold s_size at 1. rewrite H1, (proj2 (Z.leb_gt n sf)) by lia. next. rewrite Hfp, Z.eqb_refl. done.
  - destruct Hl as (H1 & H2 & H3). destruct (Hxs a k ltac:(left)) as [Hk Hne].
    destruct (IH fuel a h fp sf e H3 Hs Hfp) as (f & Ef & E); [intros a0 k0 Hin; apply (Hxs _ k0); by right|simpl in Hf; lia|]. exists f. split; [simpl; lia|].
    cbn [malloc_loop]. next. unfold s_size at 1. rewrite H1, (proj2 (Z.leb_gt n k)) by lia. next. rewrite (proj2 (Z.eqb_neq _ _)) by done. next. unfold s_ptr at 1. rewrite H2, first_of_app. exact E.
Qed.
Lemma first_fit n (l : list (Z * Z)) : (∃ xs b s ys, l = xs ++ (b, s) :: ys ∧ n ≤ s ∧ ∀ a k, (a, k) ∈ xs → k < n) ∨ (∀ a k, (a, k) ∈ l → k < n).
Proof using.
  induction l as [|[a k] l IH]; [right; intros ? ? Hin; by apply not_elem_of_nil in Hin|]. destruct (decide (n ≤ k)) as [H|H].
  { left. exists [], a, k, l. split; [done|]. split; [done|]. intros ? ? Hin. by apply not_elem_of_nil in Hin. }
  destruct IH as [(xs & b & s & ys & -> & Hs & Hxs)|Hall].
  - left. exists ((a, k) :: xs), b, s, ys. split; [done|]. split; [done|]. intros a' k' [[= -> ->]|Hin]%elem_of_cons; [lia|by apply (Hxs a')].
  - right. intros a' k' [[= -> ->]|Hin]%elem_of_cons; [lia|by apply (Hall a')].
Qed.

(** The list from the block after [freep] round to [freep]. *)
Lemma rotate m fs l1 fp sf l2 : linked m ((base, 0) :: fs) base → (base, 0) :: fs = l1 ++ (fp, sf) :: l2 →
  linked m ((l2 ++ l1) ++ [(fp, sf)]) (first_of l2 base) ∧ rd32 m fp = first_of (l2 ++ l1) fp.
Proof using.
  intros Hl E. rewrite E in Hl. apply linked_app in Hl as [K1 K2]. cbn [linked] in K2. destruct K2 as (K2 & K3 & K4). rewrite <- app_assoc.
  destruct l1 as [|[c k] l1].
  - injection E as <- <- <-. rewrite !app_nil_r. split; [|done]. apply linked_app. split; [done|]. done.
  - injection E as <- <- E. split; [|rewrite K3; destruct l2 as [|[??]?]; done]. cbn [app]. apply linked_app. split; [done|].
    apply (linked_app m ((base, 0) :: l1) fp sf []). split; [done|]. cbn [linked first_of]. done.
Qed.

Lemma asc_nodup lo l : asc lo l → NoDup (l.*1) ∧ ∀ a, a ∈ l.*1 → lo < a.
Proof using.
  revert lo. induction l as [|[a s] l IH]; intros lo; [intros _; split; [constructor|intros a Ha; by apply not_elem_of_nil in Ha]|]. cbn [asc]. intros (H1 & H2 & _ & H3).
  destruct (IH _ H3) as [IH1 IH2]. split.
  - cbn [fmap list_fmap fst]. constructor; [|done]. intros Hin. apply IH2 in Hin. lia.
  - intros b [->|Hb]%elem_of_cons; [done|]. apply IH2 in Hb. simpl in *. lia.
Qed.

Lemma scan_ok h fs fuel n : asc base fs → linked (hp_mem h) ((base, 0) :: fs) base → hp_freep h ∈ ((base, 0) :: fs).*1 → 1 ≤ n → (length fs < fuel)%nat →
  (∃ t1 prev sp b s t2, (base, 0) :: fs = t1 ++ (prev, sp) :: (b, s) :: t2 ∧ n ≤ s ∧ malloc_loop fuel n (hp_freep h) (s_ptr (hp_freep h) h) h = malloc_take n prev b h) ∨
  ((∀ a k, (a, k) ∈ fs → k < n) ∧ ∃ f, (fuel = f + S (length fs))%nat ∧ malloc_loop fuel n (hp_freep h) (s_ptr (hp_freep h) h) h =
    (let! q := morecore f n in if q =? 0 then ret 0 else let! next := gets (s_ptr q) in malloc_loop f n q next) h).
Proof using All.
  intros Hasc Hl Hfp Hn Hf. apply list_elem_of_fmap in Hfp as ([fp sf] & Efp & Hin). cbn [fst] in Efp. apply list_elem_of_split in Hin as (l1 & l2 & E).
  destruct (rotate _ _ _ _ _ _ Hl E) as [HR Hp]. rewrite <- Efp in Hp. change (rd32 (hp_mem h) (hp_freep h)) with (s_ptr (hp_freep h) h) in Hp. rewrite Hp, Efp.
  assert (NoDup (((base, 0) :: fs).*1)) as Hnd by (destruct (asc_nodup _ _ Hasc) as [H1 H2]; constructor; [|done]; intros H; apply H2 in H; simpl in H; lia).
  assert (∀ a k, (a, k) ∈ l2 ++ l1 → a ≠ hp_freep h) as Hne.
  { rewrite E, fmap_app in Hnd. intros a k Ha ->. apply NoDup_app in Hnd as (_ & Hd & Hnd). cbn [fmap list_fmap fst] in *. apply NoDup_cons in Hnd as [Hnd _]. rewrite Efp in Ha.
    apply elem_of_app in Ha as [Ha|Ha]; [apply Hnd; by apply (list_elem_of_fmap_2 fst) in Ha|]. apply (Hd fp); [by apply (list_elem_of_fmap_2 fst) in Ha|left]. }
  assert (length fs = length (l2 ++ l1)) as Elen by (apply (f_equal length) in E; rewrite length_app in E |- *; simpl in E; lia).
  destruct (first_fit n ((l2 ++ l1) ++ [(fp, sf)])) as [(xs & b & s & ys & ER & Hs & Hxs)|Hall].
  - left.
    assert (∀ xs' t1 prev sp t2, xs = xs' → (∀ a k, (a, k) ∈ xs → (a, k) ∈ l2 ++ l1) → pred_of xs fp = prev → (base, 0) :: fs = t1 ++ (prev, sp) :: (b, s) :: t2 →
      ∃ t1 prev sp b s t2, (base, 0) :: fs = t1 ++ (prev, sp) :: (b, s) :: t2 ∧ n ≤ s ∧ malloc_loop fuel n fp (first_of (l2 ++ l1) fp) h = malloc_take n prev b h) as Hdone.
    { intros xs' t1 prev sp t2 _ Hsub <- EL. exists t1, (pred_of xs fp), sp, b, s, t2. split; [done|]. split; [done|].
      assert (first_of (l2 ++ l1) fp = first_of xs b) as ->.
      { rewrite <- (first_of_app (l2 ++ l1) fp sf [] base), <- (first_of_app xs b s ys base). by rewrite ER. }
      rewrite ER in HR. eapply loop_found; [exact HR|done| |].
      - intros a k Ha. split; [by apply (Hxs a k)|by apply (Hne a k), Hsub].
      - apply (f_equal length) in ER. rewrite !length_app in ER. simpl in ER. rewrite length_app in Elen. lia. }
    assert (∀ k, xs = l2 ++ k → l1 ++ [(fp, sf)] = k ++ (b, s) :: ys → ∃ t1 prev sp b s t2, (base, 0) :: fs = t1 ++ (prev, sp) :: (b, s) :: t2 ∧ n ≤ s ∧
        malloc_loop fuel n fp (first_of (l2 ++ l1) fp) h = malloc_take n prev b h) as Hback.
    { intros k Exs Ek. assert ((base, 0) :: fs = k ++ (b, s) :: ys ++ l2) as EL by (rewrite E, cons_middle, app_assoc, Ek, <- app_assoc; done).
      destruct k as [|[c j] k]; [injection EL as _ <- _; lia|]. injection EL as <- <- EL. destruct (pred_split k base 0) as (t & sp & Et).
      apply (Hdone xs t (pred_of k base) sp (ys ++ l2) eq_refl).
      - intros a i Ha. rewrite Exs in Ha. apply elem_of_app in Ha as [Ha|Ha]; apply elem_of_app; [by left|right].
        destruct ys as [|z ys _] using rev_ind; [apply app_inj_tail in Ek as [-> _]; done|]. rewrite app_comm_cons, app_assoc in Ek. apply app_inj_tail in Ek as [-> _]. apply elem_of_app. by left.
      - rewrite Exs, pred_app. done.
      - rewrite EL, app_comm_cons, Et, <- app_assoc. done. }
    rewrite <- app_assoc in ER. apply app_eq_inv in ER as Einv. destruct Einv as [(k & Exs & Ek)|(k & Exs & Ek)]; [|by apply (Hback k)].
    destruct k as [|[c j] k]; [apply (Hback []); [by rewrite app_nil_r in *|done]|]. injection Ek as <- <- Ek. destruct (pred_split xs fp sf) as (t & sp & Et).
    rewrite app_assoc in ER. apply (Hdone xs (l1 ++ t) (pred_of xs fp) sp k eq_refl).
    + intros a i Ha. rewrite Exs, !elem_of_app. tauto.
    + done.
    + rewrite E, Exs, app_comm_cons, Et, <- !app_assoc. done.
  - right. split.
    + intros a k Ha. assert ((a, k) ∈ (base, 0) :: fs) as Ha' by (by right). rewrite E in Ha'. apply (Hall a k). rewrite !elem_of_app, elem_of_cons in *. set_solver.
    + rewrite Elen. eapply (loop_none n (l2 ++ l1) fuel fp h fp sf); [exact HR|apply (Hall fp sf), elem_of_app; right; left|done| |lia].
      intros a k Ha. split; [apply (Hall a k), elem_of_app; by left|by apply (Hne a k)].
Qed.

Lemma kept_trans us h h1 h2 : kept us h h1 → kept us h1 h2 → kept us h h2.
Proof using. intros H1 H2 a s y Ha Hy. rewrite (H2 a s y Ha Hy). by apply (H1 a s). Qed.

(** There is a free block of [n] units, or room for [morecore] to make one. *)
Definition fits (h : heap) (fs : list (Z * Z)) (n : Z) : Prop := (∃ a k, (a, k) ∈ fs ∧ n ≤ k) ∨ hp_brk h + 8 * Z.max 4096 n ≤ limit.
Lemma morecore_ok h fs us n fuel : heap_inv h fs us → hp_freep h ≠ 0 → 1 ≤ n → hp_brk h + 8 * Z.max 4096 n ≤ limit → (2 * S (length fs) < fuel)%nat →
  ∃ h' fs', morecore fuel n h = Ret (hp_freep h') h' ∧ heap_inv h' fs' us ∧ hp_freep h' ≠ 0 ∧ kept us h h' ∧ (length fs' ≤ S (length fs))%nat ∧ ∃ a s, (a, s) ∈ fs' ∧ n ≤ s.
Proof using All.
  intros Hi Hfp Hn Hle Hf. unfold morecore. set (nu := if n <? 4096 then 4096 else n). destruct (hi_brk _ _ _ Hi) as [Hb1 Hb2].
  assert (nu = Z.max 4096 n) as Enu by (unfold nu; destruct (Z.ltb_spec n 4096); lia). rewrite <- Enu in Hle.
  assert (sint (nu * 8) = 8 * nu) as -> by (unfold sint; rewrite Z.mod_small; lia).
  assert (sbrk (8 * nu) h = Ret (hp_brk h) (set_brk (hp_brk h + 8 * nu) h)) as E1 by (unfold sbrk; by rewrite uint_small by (unfold is_uint; lia)). run E1.
  change (uint (-1)) with 4294967295. rewrite (proj2 (Z.eqb_neq (hp_brk h) 4294967295)) by lia.
  set (h1 := set_mem (wr32 (hp_brk h + 4) nu (hp_mem h)) (set_brk (hp_brk h + 8 * nu) h)).
  assert (kept us h h1) as Hk1.
  { intros a s y Ha Hy. destruct (hi_used _ _ _ Hi a s Ha) as (_ & _ & _ & ? & _). unfold h1. cbn [hp_mem set_mem set_brk]. by rewrite rd8_wr32, decide_False by lia. }
  assert (us !! hp_brk h = None) as Hnew by (destruct (us !! hp_brk h) as [k|] eqn:Ek; [|done]; destruct (hi_used _ _ _ Hi _ _ Ek) as (_ & _ & ? & ? & _); lia).
  assert (heap_inv h1 fs (<[hp_brk h := nu]> us)) as Hi1.
  { split; unfold h1; cbn [hp_mem hp_brk hp_freep set_mem set_brk].
    - split; [lia|]. Z.to_euclidean_division_equations. lia.
    - apply Hi.
    - intros a s Ha. pose proof (hi_top _ _ _ Hi a s Ha). lia.
    - intros a s [[<- <-]|[_ Ha]]%lookup_insert_Some; [split_and!; try done; try lia; rewrite rd32_wr32; apply uint_small; unfold is_uint; lia|].
      destruct (hi_used _ _ _ Hi a s Ha) as (U1 & U2 & U3 & U4 & U5). split_and!; try done; [lia|]. by rewrite rd32_wr32_ne by lia.
    - intros a s b k [[<- <-]|[_ Ha]]%lookup_insert_Some [[<- <-]|[_ Hb]]%lookup_insert_Some Hne; [done|right; apply (hi_used _ _ _ Hi b k Hb)|left; apply (hi_used _ _ _ Hi a s Ha)|by apply (hi_apart _ _ _ Hi)].
    - intros a s b k Ha [[<- <-]|[_ Hb]]%lookup_insert_Some; [left; by apply (hi_top _ _ _ Hi)|by apply (hi_free _ _ _ Hi)].
    - destruct (hi_list _ _ _ Hi) as [(H0 & _)|[H1 H2]]; [done|]. right. split; [done|]. destruct (asc_nodup _ _ (hi_asc _ _ _ Hi)) as [_ Hlo].
      assert (∀ a k, (a, k) ∈ (base, 0) :: fs → a mod 8 = 0 ∧ a ≠ hp_brk h) as Hhd.
      { intros a k [[= -> ->]|Ha]%elem_of_cons; [split; [apply Hbase|lia]|]. destruct (asc_elem _ _ _ _ (hi_asc _ _ _ Hi) Ha) as (_ & ? & ?). pose proof (hi_top _ _ _ Hi a k Ha). split; [done|lia]. }
      apply (linked_frame (hp_mem h) _ _ base (hp_brk h)); [intros y Hy; by rewrite rd8_wr32, decide_False by lia|done|exact Hhd|done]. }
  next. rewrite (uint_small (hp_brk h + 8)) by (unfold is_uint; lia). change (set_mem (wr32 (hp_brk h + 4) nu (hp_mem (set_brk (hp_brk h + 8 * nu) h))) (set_brk (hp_brk h + 8 * nu) h)) with h1.
  destruct (free_ok h1 fs _ (hp_brk h) nu fuel Hi1) as (h2 & fs2 & E2 & Hi2 & Hk2 & _ & Hf2 & _ & Hlen & a & s & Hin & Hs); [by rewrite lookup_insert_eq|done|].
  rewrite delete_insert_id in * by done. run E2. exists h2, fs2. split; [done|]. split; [done|]. split; [done|]. split; [by eapply kept_trans|]. split; [done|]. exists a, s. split; [done|]. lia.
Qed.

Lemma take_ok h fs us n t1 prev sp b s t2 : heap_inv h fs us → linked (hp_mem h) ((base, 0) :: fs) base → (base, 0) :: fs = t1 ++ (prev, sp) :: (b, s) :: t2 → 1 ≤ n ≤ s →
  ∃ a h' fs', malloc_take n prev b h = Ret (a + 8) h' ∧ heap_inv h' fs' (<[a := n]> us) ∧ us !! a = None ∧ kept us h h' ∧ (length fs' ≤ length fs)%nat.
Proof using All.
  intros Hi Hl E Hn. destruct (decide (s = n)) as [->|Hne].
  - destruct (take_all _ _ _ _ _ _ _ _ _ Hi Hl E) as (h' & fs' & E1 & H1 & H2 & H3 & _ & _ & H4). by exists b, h', fs'.
  - destruct (take_part _ _ _ n _ _ _ _ _ _ Hi Hl E ltac:(lia)) as (h' & fs' & E1 & H1 & H2 & H3 & _ & _ & H4). by eexists _, h', fs'.
Qed.
Lemma inv_linked h fs us : heap_inv h fs us → hp_freep h ≠ 0 → hp_freep h ∈ ((base, 0) :: fs).*1 ∧ linked (hp_mem h) ((base, 0) :: fs) base.
Proof using. intros Hi Hf. by destruct (hi_list _ _ _ Hi) as [(? & _)|?]. Qed.

Definition malloc_result (h : heap) (fs : list (Z * Z)) (us : gmap Z Z) (n r : Z) (h' : heap) : Prop :=
  ∃ a fs', r = a + 8 ∧ us !! a = None ∧ heap_inv h' fs' (<[a := n]> us) ∧ (length fs' ≤ S (length fs))%nat.
Lemma malloc_loop_ok h fs us n fuel : heap_inv h fs us → hp_freep h ≠ 0 → 1 ≤ n → fits h fs n → (3 * S (length fs) + 2 < fuel)%nat →
  ∃ r h', malloc_loop fuel n (hp_freep h) (s_ptr (hp_freep h) h) h = Ret r h' ∧ kept us h h' ∧ malloc_result h fs us n r h'.
Proof using All.
  intros Hi Hfp Hn Hfit Hf. destruct (inv_linked _ _ _ Hi Hfp) as [Hin Hl].
  destruct (scan_ok h fs fuel n (hi_asc _ _ _ Hi) Hl Hin Hn ltac:(lia)) as [(t1 & prev & sp & b & s & t2 & E & Hs & ->)|(Hall & f & Ef & ->)].
  - destruct (take_ok h fs us n t1 prev sp b s t2 Hi Hl E ltac:(lia)) as (a & h' & fs' & E1 & Hi' & Ha & Hk & Hlen). exists (a + 8), h'. split; [done|]. split; [done|].
    exists a, fs'. split_and!; try done. lia.
  - destruct Hfit as [(a & k & Ha & Hk)|Hroom]; [specialize (Hall a k Ha); lia|].
    destruct (morecore_ok h fs us n f Hi Hfp Hn Hroom ltac:(lia)) as (h2 & fs2 & E1 & Hi2 & Hf2 & Hk2 & Hlen & a & s & Hin2 & Hs). run E1.
    + rewrite (proj2 (Z.eqb_neq _ _)) by done. next. destruct (inv_linked _ _ _ Hi2 Hf2) as [Hfin2 Hl2].
      destruct (scan_ok h2 fs2 f n (hi_asc _ _ _ Hi2) Hl2 Hfin2 Hn ltac:(lia)) as [(t1 & prev & sp & b & s' & t2 & E & Hs' & ->)|(Hall2 & _)]; [|specialize (Hall2 _ _ Hin2); lia].
      destruct (take_ok h2 fs2 us n t1 prev sp b s' t2 Hi2 Hl2 E ltac:(lia)) as (a' & h' & fs' & E2 & Hi' & Ha' & Hk' & Hlen'). exists (a' + 8), h'. split; [done|].
      split; [by eapply kept_trans|]. exists a', fs'. split_and!; try done. lia.
Qed.

(** The number of units of a request. *)
Definition units_of (nbytes : Z) : Z := (nbytes + 7) / 8 + 1.
Lemma malloc_ok h fs us nbytes fuel : heap_inv h fs us → 0 ≤ nbytes < 4294967288 → fits h fs (units_of nbytes) → (3 * S (length fs) + 2 < fuel)%nat →
  ∃ r h', malloc fuel nbytes h = Ret r h' ∧ kept us h h' ∧ malloc_result h fs us (units_of nbytes) r h'.
Proof using All.
  intros Hi Hn Hfit Hf. unfold malloc. assert (uint (uint (nbytes + 8 - 1) / 8 + 1) = units_of nbytes ∧ 1 ≤ units_of nbytes) as (-> & H1).
  { unfold units_of. replace (nbytes + 8 - 1) with (nbytes + 7) by lia. rewrite (uint_small (nbytes + 7)) by (unfold is_uint; lia).
    split; [apply uint_small; unfold is_uint; Z.to_euclidean_division_equations; lia|]. Z.to_euclidean_division_equations. lia. }
  next. destruct (Z.eqb_spec (hp_freep h) 0) as [E0|E0].
  - (* the first call *)
    destruct (hi_list _ _ _ Hi) as [(_ & -> & ->)|[Hin _]]; [|destruct (asc_nodup _ _ (hi_asc _ _ _ Hi)) as [_ Hlo]; rewrite E0 in Hin; apply elem_of_cons in Hin as [Hin|Hin]; [simpl in Hin; lia|apply Hlo in Hin; lia]].
    erewrite bind_Ret; [|do 3 (erewrite bind_Ret; [|reflexivity]); reflexivity]. next. set (h1 := set_mem _ _).
    assert (heap_inv h1 [] ∅) as Hi1.
    { split; [apply (hi_brk _ _ _ Hi)|done|intros a s Ha; by apply not_elem_of_nil in Ha|intros a s Ha; by rewrite lookup_empty in Ha|
        intros a s b k Ha; by rewrite lookup_empty in Ha|intros a s b k Ha; by apply not_elem_of_nil in Ha|].
      right. unfold h1. cbn [hp_mem hp_freep set_mem set_freep linked first_of]. split; [left|]. rewrite rd32_wr32, rd32_wr32_ne, rd32_wr32 by lia.
      split; [done|]. split; [|done]. apply uint_small. unfold is_uint. pose proof (hi_brk _ _ _ Hi). lia. }
    destruct (malloc_loop_ok h1 [] ∅ (units_of nbytes) fuel Hi1) as (r & h' & E & Hk & Hr); [unfold h1; cbn [hp_freep set_mem set_freep]; lia|done|done|done|].
    exists r, h'. split; [exact E|]. split; [intros a s y Ha; done|]. exact Hr.
  - next. destruct (malloc_loop_ok h fs us (units_of nbytes) fuel Hi E0 H1 Hfit Hf) as (r & h' & E & H). exists r, h'. done.
Qed.

(** C40: [malloc] and [free] are a correct allocator.  In a heap whose free list
    is circular, in address order, disjoint from the allocated blocks and
    without adjacent free blocks, [malloc] ends and returns the address of a block
    of at least [nbytes] bytes that overlaps neither an allocated block nor the
    free list, if some free block is large enough or if the program can still be
    grown by the size of the request, at least 4096 units, without reaching the
    kernel; [free] of an allocated block ends and puts its units back on the list.
    Both keep the heap in that shape and leave every byte of the other allocated
    blocks as it is.  (When neither holds there is no promise: [sbrk] does not
    fail, so that [malloc] never returns 0.) *)
Theorem allocator_correct h fs us fuel : heap_inv h fs us → (3 * S (length fs) + 2 < fuel)%nat →
  (∀ nbytes, 0 ≤ nbytes < 4294967288 → fits h fs (units_of nbytes) → ∃ a h' fs', malloc fuel nbytes h = Ret (a + 8) h' ∧ kept us h h' ∧
    nbytes ≤ 8 * units_of nbytes - 8 ∧ us !! a = None ∧ heap_inv h' fs' (<[a := units_of nbytes]> us)) ∧
  (∀ a s, us !! a = Some s → ∃ h' fs', free fuel (a + 8) h = Ret () h' ∧ kept (delete a us) h h' ∧ heap_inv h' fs' (delete a us) ∧ units fs' = units fs + s).
Proof using All.
  intros Hi Hf. split.
  - intros nbytes Hn Hfit. destruct (malloc_ok h fs us nbytes fuel Hi Hn Hfit Hf) as (r & h' & E & Hk & a & fs' & -> & Ha & Hi' & _). exists a, h', fs'.
    split_and!; try done. unfold units_of. Z.to_euclidean_division_equations. lia.
  - intros a s Ha. destruct (free_ok h fs us a s fuel Hi Ha ltac:(lia)) as (h' & fs' & E & Hi' & Hk & _ & _ & Hu & _). by exists h', fs'.
Qed.
End umalloc.

(** ** An example: a heap with one allocated block *)
Definition ex_heap : heap := Heap (wr32 4100 4092 (wr32 4096 64 (wr32 36836 5 (wr32 68 0 (wr32 64 4096 ∅))))) 64 36872.
Lemma ex_heap_inv : heap_inv 64 1000000 ex_heap [(4096, 4092)] {[36832 := 5]}.
Proof.
  split; cbn [hp_brk hp_freep hp_mem ex_heap].
  - split; [lia|done].
  - cbn [asc]. split_and!; try lia; done.
  - intros a s [= -> ->]%list_elem_of_singleton. lia.
  - intros a s [<- <-]%lookup_singleton_Some. split_and!; try lia; done.
  - intros a s b n [<- _]%lookup_singleton_Some [<- _]%lookup_singleton_Some. done.
  - intros a s b n [= -> ->]%list_elem_of_singleton [<- <-]%lookup_singleton_Some. left. lia.
  - right. split; [left|]. by vm_compute.
Qed.
Lemma allocator_correct_witness :
  (∃ a h' fs', malloc 64 20 100 ex_heap = Ret (a + 8) h' ∧ kept {[36832 := 5]} ex_heap h' ∧
     100 ≤ 8 * 14 - 8 ∧ ({[36832 := 5]} : gmap Z Z) !! a = None ∧ heap_inv 64 1000000 h' fs' (<[a := 14]> {[36832 := 5]})) ∧
  (∃ a h' fs', malloc 64 20 50000 ex_heap = Ret (a + 8) h' ∧ heap_inv 64 1000000 h' fs' (<[a := 6251]> {[36832 := 5]})) ∧
  (∃ h' fs', free 20 36840 ex_heap = Ret () h' ∧ kept (delete 36832 {[36832 := 5]}) ex_heap h' ∧ heap_inv 64 1000000 h' fs' (delete 36832 {[36832 := 5]}) ∧ units fs' = 4092 + 5).
Proof.
  destruct (allocator_correct 64 1000000 ltac:(split; [lia|done]) ltac:(lia) ex_heap [(4096, 4092)] {[36832 := 5]} 20 ex_heap_inv ltac:(simpl; lia)) as [H1 H2].
  split; [|split].
  - apply (H1 100 ltac:(lia)). left. exists 4096, 4092. split; [left|done].
  - destruct (H1 50000 ltac:(lia)) as (a & h' & fs' & E & _ & _ & _ & Hi); [by right|]. exists a, h', fs'. split; [exact E|]. change 6251 with (units_of 50000). exact Hi.
  - exact (H2 36832 5 eq_refl).
Defined.
