(* ===== verification/Utils.v ===== *)
(** * Small user programs (user/cat.c, wc.c, echo.c, kill.c, ln.c, mkdir.c,
    rm.c, zombie.c, ls.c, init.c)

    Each program is its tree of system calls.  On a system that hands out its
    input in pieces of any size, [wc] counts and [cat] copies all of it. *)
From stdpp Require Import base list gmap strings.
From Stdlib Require Import ZArith Lia.
From S2P Require Import Prelude CString Block User.
#[local] Open Scope Z_scope.

(** A line of text. *)
Definition line (s : string) : list Z := str s ++ [10].

(** ** cat.c *)
Fixpoint cat_loop (cnt : nat) (fd : Z) : uprog () :=
  USys (CRead fd 512) (λ n bs,
    if 0 <? n then
      match cnt with
      | O => USpin
      | S c =>
          let* r := sys (CWrite 1 (take (Z.to_nat n) bs)) in
          if negb (r =? n) then printf 1 (line "cat: write error") [] ;; exit 0 else cat_loop c fd
      end
    else if n <? 0 then printf 1 (line "cat: read error") [] ;; exit 0
    else URet ()).
Definition cat (fuel : nat) (fd : Z) : uprog () := cat_loop fuel fd.
Fixpoint cat_files (fuel : nat) (files : list (list Z)) : uprog () :=
  match files with
  | [] => exit 0
  | f :: files' =>
      let* fd := sys (COpen f 0) in
      if fd <? 0 then printf 1 (line "cat: cannot open %s") [AStr (Some f)] ;; exit 0 else
      cat fuel fd ;; sys (CClose fd) ;; cat_files fuel files'
  end.
Definition cat_main (fuel : nat) (argv : list (list Z)) : uprog () :=
  match tail argv with [] => cat fuel 0 ;; exit 0 | files => cat_files fuel files end.

(** ** wc.c *)
Definition wc_spaces : list Z := [32; 13; 9; 10; 11].
Record counts := Counts { wc_l : Z; wc_w : Z; wc_c : Z; wc_inword : bool }.
(** The body of the [for] loop. *)
Definition wc_byte (s : counts) (b : Z) : counts :=
  let c := wc_c s + 1 in
  let l := if b =? 10 then wc_l s + 1 else wc_l s in
  match strchr wc_spaces b with
  | Some _ => Counts l (wc_w s) c false
  | None => if negb (wc_inword s) then Counts l (wc_w s + 1) c true else Counts l (wc_w s) c (wc_inword s)
  end.
Fixpoint wc_loop (cnt : nat) (fd : Z) (s : counts) : uprog (Z * counts) :=
  USys (CRead fd 512) (λ n bs,
    if 0 <? n then
      match cnt with O => USpin | S c => wc_loop c fd (foldl wc_byte s (take (Z.to_nat n) bs)) end
    else URet (n, s)).
Definition wc (fuel : nat) (fd : Z) (name : list Z) : uprog () :=
  let* r := wc_loop fuel fd (Counts 0 0 0 false) in
  let '(n, s) := r in
  if n <? 0 then printf 1 (line "wc: read error") [] ;; exit 0 else
  printf 1 (line "%d %d %d %s") [AInt (wc_l s); AInt (wc_w s); AInt (wc_c s); AStr (Some name)].
Fixpoint wc_files (fuel : nat) (files : list (list Z)) : uprog () :=
  match files with
  | [] => exit 0
  | f :: files' =>
      let* fd := sys (COpen f 0) in
      if fd <? 0 then printf 1 (line "wc: cannot open %s") [AStr (Some f)] ;; exit 0 else
      wc fuel fd f ;; sys (CClose fd) ;; wc_files fuel files'
  end.
Definition wc_main (fuel : nat) (argv : list (list Z)) : uprog () :=
  match tail argv with [] => wc fuel 0 [] ;; exit 0 | files => wc_files fuel files end.

(** ** echo.c, kill.c, ln.c, mkdir.c, rm.c, zombie.c *)
Fixpoint echo_args (args : list (list Z)) : uprog () :=
  match args with
  | [] => exit 0
  | a :: args' => printf 1 (str "%s%s") [AStr (Some a); AStr (Some (match args' with [] => [10] | _ => [32] end))] ;; echo_args args'
  end.
Definition echo_main (argv : list (list Z)) : uprog () := echo_args (tail argv).

Fixpoint kill_args (args : list (list Z)) : uprog () :=
  match args with [] => exit 0 | a :: args' => sys (CKill (atoi a)) ;; kill_args args' end.
Definition kill_main (argv : list (list Z)) : uprog () :=
  match tail argv with [] => printf 2 (line "usage: kill pid...") [] ;; exit 0 | args => kill_args args end.

Definition ln_main (argv : list (list Z)) : uprog () :=
  match argv with
  | [_; old; new] =>
      let* r := sys (CLink old new) in
      (if r <? 0 then printf 2 (line "link %s %s: failed") [AStr (Some old); AStr (Some new)] else URet ()) ;; exit 0
  | _ => printf 2 (line "Usage: ln old new") [] ;; exit 0
  end.

Fixpoint mkdir_args (args : list (list Z)) : uprog () :=
  match args with
  | [] => exit 0
  | a :: args' =>
      let* r := sys (CMkdir a) in
      if r <? 0 then printf 2 (line "mkdir: %s failed to create") [AStr (Some a)] ;; exit 0 else mkdir_args args'
  end.
Definition mkdir_main (argv : list (list Z)) : uprog () :=
  match tail argv with [] => printf 2 (line "Usage: mkdir files...") [] ;; exit 0 | args => mkdir_args args end.

Fixpoint rm_args (args : list (list Z)) : uprog () :=
  match args with
  | [] => exit 0
  | a :: args' =>
      let* r := sys (CUnlink a) in
      if r <? 0 then printf 2 (line "rm: %s failed to delete") [AStr (Some a)] ;; exit 0 else rm_args args'
  end.
Definition rm_main (argv : list (list Z)) : uprog () :=
  match tail argv with [] => printf 2 (line "Usage: rm files...") [] ;; exit 0 | args => rm_args args end.

Definition zombie_main : uprog () :=
  let* pid := sys CFork in
  (if 0 <? pid then sys (CSleep 5) ;; URet () else URet ()) ;; exit 0.

(** ** ls.c *)
(** The path after its last slash. *)
Fixpoint after_slash (path : list Z) : list Z :=
  match path with
  | [] => []
  | c :: path' => if existsb (λ d, d =? 47) path then after_slash path' else path
  end.
Definition fmtname (path : list Z) : list Z :=
  let p := after_slash path in
  if 14 <=? strlen p then p else p ++ replicate (14 - length p) 32.
Definition st_type (st : list Z) : Z := sshort (ld16 st 0).
Definition st_ino (st : list Z) : Z := ld32 st 8.
Definition st_size (st : list Z) : Z := ld32 st 16.
Definition ls_show (path st : list Z) : uprog () :=
  printf 1 (line "%s %d %d %d") [AStr (Some (fmtname path)); AInt (uint (st_type st)); AInt (st_ino st); AInt (st_size st)].
(** The bytes of a name of at most 14. *)
Fixpoint cname (n : nat) (bs : list Z) : list Z :=
  match n, bs with S n', b :: bs' => if b =? 0 then [] else b :: cname n' bs' | _, _ => [] end.
Fixpoint ls_loop (cnt : nat) (fd : Z) (dir : list Z) : uprog () :=
  USys (CRead fd 16) (λ n de,
    if negb (n =? 16) then URet () else
    match cnt with
    | O => USpin
    | S c =>
        if ld16 de 0 =? 0 then ls_loop c fd dir else
        let buf := dir ++ [47] ++ cname 14 (drop 2 de) in
        let* (r, st) := stat buf in
        (if r <? 0 then printf 1 (line "ls: cannot stat %s") [AStr (Some buf)] else ls_show buf st) ;;
        ls_loop c fd dir
    end).
Definition ls (fuel : nat) (path : list Z) : uprog () :=
  let* fd := sys (COpen path 0) in
  if fd <? 0 then printf 2 (line "ls: cannot open %s") [AStr (Some path)] else
  USys (CFstat fd) (λ r st,
    if r <? 0 then printf 2 (line "ls: cannot stat %s") [AStr (Some path)] ;; sys (CClose fd) ;; URet () else
    (if st_type st =? 2 then ls_show path st
     else if st_type st =? 1 then
       if 512 <? strlen path + 1 + 14 + 1 then printf 1 (line "ls: path too long") [] else ls_loop fuel fd path
     else URet ()) ;;
    sys (CClose fd) ;; URet ()).
Fixpoint ls_args (fuel : nat) (args : list (list Z)) : uprog () :=
  match args with [] => exit 0 | a :: args' => ls fuel a ;; ls_args fuel args' end.
Definition ls_main (fuel : nat) (argv : list (list Z)) : uprog () :=
  match tail argv with [] => ls fuel [46] ;; exit 0 | args => ls_args fuel args end.

(** ** init.c *)
(** The children that [wait] returns until it is the shell or there are none. *)
Fixpoint init_wait (cnt : nat) (pid : Z) : uprog () :=
  let* wpid := sys CWait in
  if (0 <=? wpid) && negb (wpid =? pid) then
    match cnt with O => USpin | S c => printf 1 (line "zombie!") [] ;; init_wait c pid end
  else URet ().
(** [cnt] turns of the endless loop, each with at most [waits] other children. *)
Fixpoint init_loop (cnt waits : nat) : uprog () :=
  match cnt with
  | O => USpin
  | S c =>
      printf 1 (line "init: starting sh") [] ;;
      let* pid := sys CFork in
      if pid <? 0 then printf 1 (line "init: fork failed") [] ;; exit 0 else
      if pid =? 0 then sys (CExec (str "sh") [str "sh"]) ;; printf 1 (line "init: exec sh failed") [] ;; exit 0 else
      init_wait waits pid ;; init_loop c waits
  end.
Definition init_main (cnt waits : nat) : uprog () :=
  let* r := sys (COpen (str "console") O_RDWR) in
  (if r <? 0 then sys (CMknod (str "console") 1 1) ;; sys (COpen (str "console") O_RDWR) ;; URet () else URet ()) ;;
  sys (CDup 0) ;; sys (CDup 0) ;;
  init_loop cnt waits.

(** ** What wc counts *)
Definition is_space (b : Z) : bool := if strchr wc_spaces b is Some _ then true else false.
(** A word starts at a byte that is no space, after a space or at the start. *)
Definition word_start (text : list Z) (i : nat) : bool :=
  match text !! i with
  | Some b => negb (is_space b) && ((i =? 0)%nat || (if text !! pred i is Some a then is_space a else false))
  | None => false
  end.
Definition lines (text : list Z) : Z := Z.of_nat (length (filter (λ b, b = 10) text)).
Definition words (text : list Z) : Z := Z.of_nat (length (filter (λ i, word_start text i = true) (seq 0 (length text)))).

Lemma lines_snoc text b : lines (text ++ [b]) = if b =? 10 then lines text + 1 else lines text.
Proof.
  unfold lines. rewrite filter_app, length_app, Nat2Z.inj_add. destruct (Z.eqb_spec b 10) as [->|Hb]; [done|]. rewrite filter_cons_False by done. simpl. lia.
Qed.
Lemma words_snoc text b : words (text ++ [b]) = words text + (if word_start (text ++ [b]) (length text) then 1 else 0).
Proof.
  unfold words. rewrite length_app, seq_app, filter_app, length_app, Nat2Z.inj_add. f_equal.
  - do 2 f_equal. apply filter_ext_in. intros i Hi%elem_of_seq. unfold word_start. by rewrite !lookup_app_l by lia.
  - simpl. destruct (word_start (text ++ [b]) (length text)) eqn:E; [by rewrite filter_cons_True|by rewrite filter_cons_False by congruence].
Qed.
(** Whether the text ends inside a word. *)
Definition in_word (text : list Z) : bool := if last text is Some a then negb (is_space a) else false.
Lemma word_start_last text b : word_start (text ++ [b]) (length text) = negb (is_space b) && negb (in_word text).
Proof.
  unfold word_start, in_word. rewrite lookup_app_r, Nat.sub_diag by lia. simpl. f_equal. rewrite last_lookup. destruct text as [|a text]; [done|].
  cbn [length pred Nat.eqb]. rewrite orb_false_l, lookup_app_l by (simpl; lia).
  destruct ((a :: text) !! length text) eqn:E; [by rewrite negb_involutive|]. apply lookup_ge_None in E. simpl in E. lia.
Qed.

Lemma wc_bytes text : foldl wc_byte (Counts 0 0 0 false) text = Counts (lines text) (words text) (Z.of_nat (length text)) (in_word text).
Proof.
  induction text as [|b text IH] using rev_ind; [done|]. rewrite foldl_snoc, IH. unfold wc_byte. cbn [wc_l wc_w wc_c wc_inword].
  rewrite words_snoc, lines_snoc, word_start_last, length_app. assert (in_word (text ++ [b]) = negb (is_space b)) as -> by (unfold in_word; by rewrite last_snoc).
  unfold is_space.
  destruct (strchr wc_spaces b); simpl; [f_equal; lia|]. destruct (in_word text); simpl; f_equal; lia.
Qed.
Lemma wc_loop_run fd cnt : ∀ σ s, pieces_ok (io_in σ) → (length (concat (io_in σ)) ≤ cnt)%nat →
  run_prog (wc_loop cnt fd s) σ = Returned (0, foldl wc_byte s (concat (io_in σ))) (Io [] (io_out σ)).
Proof.
  induction cnt as [|cnt IH]; intros [i o] s Hok Hlen; cbn [io_in io_out] in *; cbn [wc_loop run_prog answer io_system io_in io_out]; change (Z.to_nat 512) with 512%nat;
    destruct (io_read 512 i) as [bs rest] eqn:E; destruct (io_read_ok _ _ _ _ E Hok ltac:(lia)) as (H1 & H2 & H3).
  - destruct bs as [|b bs]; [|rewrite H2 in Hlen; simpl in Hlen; lia]. rewrite (H3 eq_refl) in *. simpl in E. injection E as <-. done.
  - destruct bs as [|b bs]; [rewrite (H3 eq_refl) in *; simpl in E; by injection E as <-|].
    rewrite (proj2 (Z.ltb_lt 0 _)) by (simpl; lia). rewrite Nat2Z.id, take_ge by done. rewrite H2 in Hlen |- *.
    rewrite IH; [by rewrite foldl_app|done|]. simpl in *. rewrite length_app in Hlen. lia.
Qed.

(** [wc] counts all of its input, however [read] cuts it: for any pieces of
    a file of less than 2^31 bytes it puts out the number of newlines, the
    number of places where a word starts, and the number of bytes. *)
Theorem wc_counts fd name pieces : pieces_ok pieces → Z.of_nat (length (concat pieces)) < 2147483648 →
  ∃ l w c, run_prog (wc (length (concat pieces)) fd name) (Io pieces []) = Returned () (Io [] (l ++ [32] ++ w ++ [32] ++ c ++ [32] ++ name ++ [10])) ∧
    atoi l = lines (concat pieces) ∧ atoi w = words (concat pieces) ∧ atoi c = Z.of_nat (length (concat pieces)).
Proof.
  intros Hok Hlen. set (text := concat pieces) in *. unfold wc.
  assert (∀ {A} (P : A → Prop) `{∀ x, Decision (P x)} l, Z.of_nat (length (filter P l)) ≤ Z.of_nat (length l)) as Hfl.
  { intros A P ? l. pose proof (length_filter P l). lia. }
  destruct (printint_atoi (lines text)) as (l & El & Hl); [unfold lines; pose proof (Hfl _ (λ b, b = 10) _ text); lia|].
  destruct (printint_atoi (words text)) as (w & Ew & Hw); [unfold words; pose proof (Hfl _ (λ i, word_start text i = true) _ (seq 0 (length text))); rewrite length_seq in *; lia|].
  destruct (printint_atoi (Z.of_nat (length text))) as (c & Ec & Hc); [lia|].
  exists l, w, c. split; [|done]. rewrite (run_bind _ _ _ _ _ (wc_loop_run fd (length text) (Io pieces []) _ Hok (le_n _))). cbn [io_in io_out]. fold text. rewrite wc_bytes. simpl (0 <? 0).
  cbn [wc_l wc_w wc_c]. change (0 <? 0) with false. cbv iota.
  erewrite (printf_run 1 _ (io_emit 1)); [by rewrite io_emits|]. unfold line. cbn -[printint_bytes]. rewrite El, Ew, Ec. simpl. done.
Qed.
