(* ===== verification/Sh.v ===== *)
(** * The shell (user/sh.c)

    A pointer into the command line is the string that it points to, a suffix
    of the line; a counted string is the pair of the pointers to its first byte
    and past its last, until [nulterminate] writes a zero there.  [print_line]
    writes the commands of the shell's grammar and [meaning] is what they mean;
    the parser turns the one into the other.  [malloc] is taken to succeed. *)
From stdpp Require Import base list gmap strings.
From Stdlib Require Import ZArith Lia.
From S2P Require Import Prelude CString User.
#[local] Open Scope Z_scope.

(** ** Commands *)
Definition MAXARGS : Z := 10.
(** [argv[i]] and [eargv[i]] *)
Definition span : Type := list Z * list Z.
Inductive cmd :=
| EXEC (argv : list span)
| REDIR (c : cmd) (file : span) (mode fd : Z)
| PIPE (left right : cmd)
| LIST (left right : cmd)
| BACK (c : cmd).
Definition execcmd : cmd := EXEC [].
Definition redircmd (subcmd : cmd) (file : span) (mode fd : Z) : cmd := REDIR subcmd file mode fd.
Definition pipecmd (left right : cmd) : cmd := PIPE left right.
Definition listcmd (left right : cmd) : cmd := LIST left right.
Definition backcmd (subcmd : cmd) : cmd := BACK subcmd.

(** ** Tokens *)
Definition whitespace : list Z := [32; 9; 13; 10; 11].
Definition symbols : list Z := [60; 124; 62; 38; 59; 40; 41].
Definition in_set (l : list Z) (c : Z) : bool := if strchr l c is Some _ then true else false.

Fixpoint skip_ws (s : list Z) : list Z :=
  match s with [] => [] | c :: s' => if in_set whitespace c then skip_ws s' else s end.
Fixpoint word_end (s : list Z) : list Z :=
  match s with [] => [] | c :: s' => if negb (in_set whitespace c) && negb (in_set symbols c) then word_end s' else s end.

(** What [gettoken] returns, [*q], [*eq] and [*ps]. *)
Record token := Token { tk_ret : Z; tk_q : list Z; tk_eq : list Z; tk_ps : list Z }.
Definition gettoken (s : list Z) : token :=
  let s := skip_ws s in
  let c := hd0 s in
  let '(ret, eq) :=
    if c =? 0 then (0, s)
    else if in_set [124; 40; 41; 59; 38; 60] c then (c, tail s)
    else if c =? 62 then if hd0 (tail s) =? 62 then (43, tail (tail s)) else (62, tail s)
    else (97, word_end s) in
  Token ret s eq (skip_ws eq).
(** What [peek] returns, and [*ps]. *)
Definition peek (s toks : list Z) : bool * list Z :=
  let s := skip_ws s in (negb (hd0 s =? 0) && in_set toks (hd0 s), s).

(** ** The parser *)
(** A parser returns a command and the rest of the line, or stops with the
    message of [panic]. *)
Inductive pres :=
| POk (c : cmd) (s : list Z)
| PErr (msg : string)
| PFuel.
Definition pbind (r : pres) (f : cmd → list Z → pres) : pres :=
  match r with POk c s => f c s | PErr m => PErr m | PFuel => PFuel end.

Fixpoint parseredirs (cnt : nat) (c : cmd) (s : list Z) : pres :=
  let '(b, s) := peek s [60; 62] in
  if negb b then POk c s else
  match cnt with
  | O => PFuel
  | S n =>
      let tok := gettoken s in
      let t := gettoken (tk_ps tok) in
      if negb (tk_ret t =? 97) then PErr "missing file for redirection" else
      let file := (tk_q t, tk_eq t) in
      let c := if tk_ret tok =? 60 then redircmd c file O_RDONLY 0
               else if tk_ret tok =? 62 then redircmd c file (Z.lor O_WRONLY O_CREATE) 1
               else if tk_ret tok =? 43 then redircmd c file (Z.lor O_WRONLY O_CREATE) 1 else c in
      parseredirs n c (tk_ps t)
  end.

(** [cmd->argv[argc] = q; cmd->eargv[argc] = eq], where [cmd] is the command
    inside the redirections of [ret]. *)
Fixpoint add_arg (a : span) (ret : cmd) : cmd :=
  match ret with
  | EXEC argv => EXEC (argv ++ [a])
  | REDIR c f m d => REDIR (add_arg a c) f m d
  | _ => ret
  end.
Fixpoint parseexec_loop (cnt : nat) (argc : Z) (ret : cmd) (s : list Z) : pres :=
  let '(b, s) := peek s [124; 41; 38; 59] in
  if b then POk ret s else
  let t := gettoken s in
  if tk_ret t =? 0 then POk ret (tk_ps t) else
  if negb (tk_ret t =? 97) then PErr "syntax" else
  let ret := add_arg (tk_q t, tk_eq t) ret in
  if MAXARGS <=? argc + 1 then PErr "too many args" else
  match cnt with
  | O => PFuel
  | S n => pbind (parseredirs (S (length (tk_ps t))) ret (tk_ps t)) (λ ret s, parseexec_loop n (argc + 1) ret s)
  end.

(** [while(peek(ps, es, &))] of [parseline]. *)
Fixpoint parseback (cnt : nat) (c : cmd) (s : list Z) : pres :=
  let '(b, s) := peek s [38] in
  if negb b then POk c s else
  match cnt with O => PFuel | S n => parseback n (backcmd c) (tk_ps (gettoken s)) end.

Fixpoint parseline (fuel : nat) (s : list Z) : pres :=
  match fuel with
  | O => PFuel
  | S n =>
      pbind (parsepipe n s) (λ c s,
      pbind (parseback (S (length s)) c s) (λ c s,
      let '(b, s) := peek s [59] in
      if b then pbind (parseline n (tk_ps (gettoken s))) (λ r s, POk (listcmd c r) s) else POk c s))
  end
with parsepipe (fuel : nat) (s : list Z) : pres :=
  match fuel with
  | O => PFuel
  | S n =>
      pbind (parseexec n s) (λ c s,
      let '(b, s) := peek s [124] in
      if b then pbind (parsepipe n (tk_ps (gettoken s))) (λ r s, POk (pipecmd c r) s) else POk c s)
  end
with parseexec (fuel : nat) (s : list Z) : pres :=
  match fuel with
  | O => PFuel
  | S n =>
      let '(b, s) := peek s [40] in
      if b then parseblock n s else
      pbind (parseredirs (S (length s)) execcmd s) (λ ret s, parseexec_loop (S (length s)) 0 ret s)
  end
with parseblock (fuel : nat) (s : list Z) : pres :=
  match fuel with
  | O => PFuel
  | S n =>
      let '(b, s) := peek s [40] in
      if negb b then PErr "parseblock" else
      pbind (parseline n (tk_ps (gettoken s))) (λ c s,
      let '(b, s) := peek s [41] in
      if negb b then PErr "syntax - missing )" else
      let s := tk_ps (gettoken s) in
      parseredirs (S (length s)) c s)
  end.

(** [*eq = 0] in the line [buf]. *)
Definition zero_at (buf eq : list Z) : list Z := <[(length buf - length eq)%nat := 0]> buf.
(** The line after [nulterminate], with its terminating zero. *)
Fixpoint nulterminate (c : cmd) (buf : list Z) : list Z :=
  match c with
  | EXEC argv => foldl (λ buf a, zero_at buf (0 :: a.2)) buf argv
  | REDIR c f _ _ => zero_at (nulterminate c buf) (0 :: f.2)
  | PIPE l r | LIST l r => nulterminate r (nulterminate l buf)
  | BACK c => nulterminate c buf
  end.

(** The fuel that a line of [n] bytes needs. *)
Definition parse_fuel (n : nat) : nat := 4 * n + 4.
(** The command, and the line with its terminating zeros; or how [panic]
    and the message before it leave the program. *)
Definition sh_panic {A} (s : list Z) : uprog A := printf 2 (str "%s" ++ [10]) [AStr (Some s)] ;; exit 0.
Definition parsecmd (s : list Z) : uprog (cmd * list Z) :=
  match parseline (parse_fuel (length s)) s with
  | PFuel => USpin
  | PErr msg => sh_panic (str msg)
  | POk c s' =>
      let '(_, s') := peek s' [] in
      match s' with
      | [] => URet (c, nulterminate c (s ++ [0]))
      | _ => printf 2 (str "leftovers: %s" ++ [10]) [AStr (Some s')] ;; sh_panic (str "syntax")
      end
  end.

(** ** Running commands *)
Fixpoint until_zero (bs : list Z) : list Z := match bs with [] => [] | b :: bs' => if b =? 0 then [] else b :: until_zero bs' end.
(** The string at a pointer into the line, in the line as it is now. *)
Definition string_at (buf q : list Z) : list Z := until_zero (drop (length buf - S (length q)) buf).

Definition fork1 : uprog Z :=
  let* pid := sys CFork in
  if pid =? -1 then sh_panic (str "fork") else URet pid.

Fixpoint runcmd (buf : list Z) (c : cmd) : uprog () :=
  match c with
  | EXEC argv =>
      match argv with
      | [] => exit 0
      | a :: _ =>
          let path := string_at buf a.1 in
          sys (CExec path ((λ a, string_at buf a.1) <$> argv)) ;;
          printf 2 (str "exec %s failed" ++ [10]) [AStr (Some path)] ;;
          exit 0
      end
  | REDIR c f mode fd =>
      sys (CClose fd) ;;
      let* r := sys (COpen (string_at buf f.1) mode) in
      if r <? 0 then printf 2 (str "open %s failed" ++ [10]) [AStr (Some (string_at buf f.1))] ;; exit 0 else
      runcmd buf c ;; exit 0
  | LIST l r =>
      let* pid := fork1 in
      (if pid =? 0 then runcmd buf l else URet ()) ;;
      sys CWait ;;
      runcmd buf r ;; exit 0
  | PIPE l r =>
      USys CPipe (λ res p,
        if res <? 0 then sh_panic (str "pipe") else
        let p0 := default 0 (p !! 0%nat) in let p1 := default 0 (p !! 1%nat) in
        let* pid := fork1 in
        (if pid =? 0 then sys (CClose 1) ;; sys (CDup p1) ;; sys (CClose p0) ;; sys (CClose p1) ;; runcmd buf l else URet ()) ;;
        let* pid := fork1 in
        (if pid =? 0 then sys (CClose 0) ;; sys (CDup p0) ;; sys (CClose p0) ;; sys (CClose p1) ;; runcmd buf r else URet ()) ;;
        sys (CClose p0) ;; sys (CClose p1) ;; sys CWait ;; sys CWait ;; exit 0)
  | BACK c =>
      let* pid := fork1 in
      (if pid =? 0 then runcmd buf c else URet ()) ;; exit 0
  end.

(** The command read, [None] at the end of the input. *)
Definition getcmd (nbuf : Z) : uprog (option (list Z)) :=
  printf 2 (str "$ ") [] ;;
  let* buf := gets nbuf in
  match until_zero buf with [] => URet None | s => URet (Some s) end.

(** Descriptors are opened until one above 2 comes. *)
Fixpoint open_console (cnt : nat) : uprog () :=
  let* fd := sys (COpen (str "console") O_RDWR) in
  if 0 <=? fd then
    if 3 <=? fd then sys (CClose fd) ;; URet () else
    match cnt with O => USpin | S n => open_console n end
  else URet ().
(** [cnt] commands. *)
Fixpoint sh_loop (cnt : nat) : uprog () :=
  let* line := getcmd 100 in
  match line with
  | None => exit 0
  | Some buf =>
      match cnt with
      | O => USpin
      | S n =>
          if (default 0 (buf !! 0%nat) =? 99) && (default 0 (buf !! 1%nat) =? 100) && (default 0 (buf !! 2%nat) =? 32) then
            let path := drop 3 (take (length buf - 1) buf) in
            let* r := sys (CChdir path) in
            (if r <? 0 then printf 2 (str "cannot cd %s" ++ [10]) [AStr (Some path)] else URet ()) ;;
            sh_loop n
          else
            let* pid := fork1 in
            (if pid =? 0 then let* r := parsecmd buf in runcmd r.2 r.1 else URet ()) ;;
            USys CWait (λ _ st, printf 0 (str "Output code : %d" ++ [10]) [AInt (default 0 (head st))] ;; sh_loop n)
      end
  end.
Definition sh_main (opens cmds : nat) : uprog () := open_console opens ;; sh_loop cmds.

(** ** The parser always stops *)
Lemma skip_ws_le s : (length (skip_ws s) ≤ length s)%nat.
Proof. induction s as [|c s IH]; [done|]. simpl. destruct (in_set whitespace c); simpl; lia. Qed.
Lemma word_end_le s : (length (word_end s) ≤ length s)%nat.
Proof. induction s as [|c s IH]; [done|]. simpl. destruct (_ && _); simpl; lia. Qed.
Lemma skip_ws_head c s s' : skip_ws s = c :: s' → in_set whitespace c = false.
Proof. induction s as [|d s IH]; [done|]. simpl. destruct (in_set whitespace d) eqn:E; [done|]. by intros [= <- <-]. Qed.

Lemma in_set_spec l c : in_set l c = true ↔ c ∈ l.
Proof.
  induction l as [|d l IH]; unfold in_set; simpl; [split; [done|]; by intros ?%elem_of_nil|].
  fold (in_set l c) in *. destruct (Z.eqb_spec d c) as [->|Hne]; [split; [intros _; left|done]|]. rewrite elem_of_cons, <- IH. unfold in_set. split; [tauto|].
  intros [?|?]; [congruence|done].
Qed.
Lemma in_set_false l c : in_set l c = false ↔ (c ∉ l).
Proof. rewrite <- in_set_spec. by destruct (in_set l c). Qed.

(** The four kinds of token. *)
Lemma gettoken_end s : hd0 (skip_ws s) = 0 → tk_ret (gettoken s) = 0 ∧ tk_ps (gettoken s) = skip_ws (skip_ws s).
Proof. intros E. unfold gettoken. by rewrite E. Qed.
Lemma gettoken_symbol s c s' : skip_ws s = c :: s' → c ≠ 0 → in_set [124; 40; 41; 59; 38; 60] c = true → gettoken s = Token c (c :: s') s' (skip_ws s').
Proof. intros E Hc Hs. unfold gettoken. rewrite E. change (hd0 (c :: s')) with c. by rewrite (proj2 (Z.eqb_neq _ _) Hc), Hs. Qed.
Lemma gettoken_out s s' : skip_ws s = 62 :: s' →
  gettoken s = if hd0 s' =? 62 then Token 43 (62 :: s') (tail s') (skip_ws (tail s')) else Token 62 (62 :: s') s' (skip_ws s').
Proof. intros E. unfold gettoken. rewrite E. change (hd0 (62 :: s')) with 62. simpl. by destruct (hd0 s' =? 62). Qed.
Definition word_char (c : Z) : bool := negb (c =? 0) && negb (in_set whitespace c) && negb (in_set symbols c).
Lemma gettoken_word s c s' : skip_ws s = c :: s' → word_char c = true → gettoken s = Token 97 (c :: s') (word_end s') (skip_ws (word_end s')).
Proof.
  intros E Hc. unfold word_char in Hc. rewrite !andb_true_iff, !negb_true_iff in Hc. destruct Hc as [[H0 Hw] Hs]. unfold gettoken. rewrite E. change (hd0 (c :: s')) with c.
  rewrite H0. assert (in_set [124; 40; 41; 59; 38; 60] c = false) as ->.
  { rewrite in_set_false in *. unfold symbols in Hs. rewrite !not_elem_of_cons in *. tauto. }
  assert ((c =? 62) = false) as ->. { rewrite in_set_false in Hs. unfold symbols in Hs. rewrite !not_elem_of_cons in Hs. apply Z.eqb_neq. tauto. }
  cbn [word_end]. by rewrite Hw, Hs.
Qed.
Lemma token_cases s c s' : skip_ws s = c :: s' → c ≠ 0 → in_set [124; 40; 41; 59; 38; 60] c = true ∨ c = 62 ∨ word_char c = true.
Proof.
  intros E Hc. pose proof (skip_ws_head _ _ _ E) as Hw. unfold word_char. rewrite Hw, (proj2 (Z.eqb_neq _ _) Hc). simpl.
  rewrite negb_true_iff, in_set_spec, in_set_false. unfold symbols. rewrite !elem_of_cons, elem_of_nil.
  destruct (decide (c = 60)), (decide (c = 124)), (decide (c = 62)), (decide (c = 38)), (decide (c = 59)), (decide (c = 40)), (decide (c = 41)); tauto.
Qed.

(** A token other than the end takes something off the line. *)
Lemma gettoken_le s : (length (tk_ps (gettoken s)) ≤ length s)%nat ∧ (tk_ret (gettoken s) ≠ 0 → (length (tk_ps (gettoken s)) < length s)%nat).
Proof.
  pose proof (skip_ws_le s) as Hs. destruct (decide (hd0 (skip_ws s) = 0)) as [E0|E0].
  { destruct (gettoken_end s E0) as [-> ->]. pose proof (skip_ws_le (skip_ws s)). split; [lia|done]. }
  destruct (skip_ws s) as [|c s'] eqn:E; [done|]. change (hd0 (c :: s')) with c in E0. simpl in Hs.
  assert (∀ r, (length r ≤ length s')%nat → (length (skip_ws r) < length s)%nat) as Hr by (intros r Hl; pose proof (skip_ws_le r); lia).
  destruct (token_cases s c s' E E0) as [H|[->|H]].
  - rewrite (gettoken_symbol s c s') by done. cbn [tk_ps tk_ret]. specialize (Hr s' ltac:(lia)). lia.
  - rewrite (gettoken_out s s') by done. specialize (Hr s' ltac:(lia)) as H1. specialize (Hr (tail s') ltac:(destruct s'; simpl; lia)). destruct (hd0 s' =? 62); cbn [tk_ps tk_ret]; lia.
  - rewrite (gettoken_word s c s') by done. cbn [tk_ps tk_ret]. specialize (Hr (word_end s') (word_end_le s')). lia.
Qed.
Lemma peek_le s toks b s' : peek s toks = (b, s') → (length s' ≤ length s)%nat ∧ (b = true → hd0 s' ≠ 0 ∧ in_set toks (hd0 s') = true).
Proof.
  unfold peek. intros [= <- <-]. split; [apply skip_ws_le|]. rewrite andb_true_iff, negb_true_iff, Z.eqb_neq. done.
Qed.
Lemma skip_ws_id s : skip_ws (skip_ws s) = skip_ws s.
Proof. induction s as [|c s IH]; [done|]. simpl. destruct (in_set whitespace c) eqn:E; [done|]. simpl. by rewrite E. Qed.
(** After a [peek] that finds something there is a token. *)
Lemma peek_token s toks s' : peek s toks = (true, s') → tk_ret (gettoken s') ≠ 0.
Proof.
  intros H. pose proof (peek_le _ _ _ _ H) as [_ Hb]. destruct (Hb eq_refl) as [Hne _]. unfold peek in H. injection H as _ <-. unfold gettoken. rewrite skip_ws_id.
  rewrite (proj2 (Z.eqb_neq _ _) Hne). destruct (in_set [124; 40; 41; 59; 38; 60] (hd0 (skip_ws s))); [done|]. destruct (hd0 (skip_ws s) =? 62); [|done].
  by destruct (hd0 (tail (skip_ws s)) =? 62).
Qed.

(** [r] is a result and leaves at most [n] bytes. *)
Definition stops (n : nat) (r : pres) : Prop := match r with POk _ s => (length s ≤ n)%nat | PErr _ => True | PFuel => False end.
Lemma stops_bind n m r f : stops n r → (∀ c s, (length s ≤ n)%nat → stops m (f c s)) → stops m (pbind r f).
Proof. intros Hr Hf. destruct r; [by apply Hf|done|done]. Qed.
Lemma stops_le n m r : stops n r → (n ≤ m)%nat → stops m r.
Proof. destruct r; simpl; [lia|done|done]. Qed.

Lemma parseredirs_stops cnt : ∀ c s, (length s ≤ cnt)%nat → stops (length s) (parseredirs cnt c s).
Proof.
  induction cnt as [|cnt IH]; intros c s Hl; cbn [parseredirs]; destruct (peek s [60; 62]) as [b s1] eqn:E; pose proof (peek_le _ _ _ _ E) as [H1 H2]; destruct b; cbn [negb].
  - destruct (H2 eq_refl) as [Hne _]. destruct s1; [done|simpl in *; lia].
  - done.
  - pose proof (gettoken_le s1) as [G1 G2]. specialize (G2 (peek_token _ _ _ E)). pose proof (gettoken_le (tk_ps (gettoken s1))) as [G3 _].
    destruct (negb (tk_ret (gettoken (tk_ps (gettoken s1))) =? 97)); [done|]. eapply stops_le; [apply IH; lia|lia].
  - done.
Qed.
Lemma parseexec_loop_stops cnt : ∀ argc ret s, (length s ≤ cnt)%nat → stops (length s) (parseexec_loop cnt argc ret s).
Proof.
  induction cnt as [|cnt IH]; intros argc ret s Hl; cbn [parseexec_loop]; destruct (peek s [124; 41; 38; 59]) as [b s1] eqn:E; pose proof (peek_le _ _ _ _ E) as [H1 _];
    (destruct b; [done|]); pose proof (gettoken_le s1) as [G1 G2]; (destruct (Z.eqb_spec (tk_ret (gettoken s1)) 0) as [E0|E0]; [simpl; lia|]); specialize (G2 E0);
    (destruct (negb (tk_ret (gettoken s1) =? 97)); [done|]); (destruct (MAXARGS <=? argc + 1); [done|]).
  - lia.
  - eapply stops_bind; [apply parseredirs_stops; lia|]. intros ret' s' Hs'. eapply stops_le; [apply IH; lia|lia].
Qed.
Lemma parseback_stops cnt : ∀ c s, (length s ≤ cnt)%nat → stops (length s) (parseback cnt c s).
Proof.
  induction cnt as [|cnt IH]; intros c s Hl; cbn [parseback]; destruct (peek s [38]) as [b s1] eqn:E; pose proof (peek_le _ _ _ _ E) as [H1 H2]; destruct b; cbn [negb]; try done.
  - destruct (H2 eq_refl) as [Hne _]. destruct s1; [done|simpl in *; lia].
  - pose proof (gettoken_le s1) as [G1 G2]. specialize (G2 (peek_token _ _ _ E)). eapply stops_le; [apply IH; lia|lia].
Qed.

Lemma parse_stops n : ∀ s,
  ((4 * length s + 4 ≤ n)%nat → stops (length s) (parseline n s)) ∧ ((4 * length s + 3 ≤ n)%nat → stops (length s) (parsepipe n s)) ∧
  ((4 * length s + 2 ≤ n)%nat → stops (length s) (parseexec n s)) ∧ ((4 * length s + 1 ≤ n)%nat → stops (length s) (parseblock n s)).
Proof.
  induction n as [|n IH]; intros s; [lia|]. split_and!; intros Hn; cbn [parseline parsepipe parseexec parseblock].
  - eapply stops_bind; [apply IH; lia|]. intros c s1 H1. eapply stops_bind; [apply parseback_stops; lia|]. intros c2 s2 H2.
    destruct (peek s2 [59]) as [b s3] eqn:E. pose proof (peek_le _ _ _ _ E) as [H3 _]. destruct b; [|simpl; lia].
    pose proof (gettoken_le s3) as [G1 G2]. specialize (G2 (peek_token _ _ _ E)). eapply stops_bind; [apply IH; lia|]. intros r s4 H4. simpl. lia.
  - eapply stops_bind; [apply IH; lia|]. intros c s1 H1. destruct (peek s1 [124]) as [b s3] eqn:E. pose proof (peek_le _ _ _ _ E) as [H3 _]. destruct b; [|simpl; lia].
    pose proof (gettoken_le s3) as [G1 G2]. specialize (G2 (peek_token _ _ _ E)). eapply stops_bind; [apply IH; lia|]. intros r s4 H4. simpl. lia.
  - destruct (peek s [40]) as [b s3] eqn:E. pose proof (peek_le _ _ _ _ E) as [H3 _]. destruct b; [eapply stops_le; [apply IH; lia|lia]|].
    eapply stops_bind; [apply parseredirs_stops; lia|]. intros ret s4 H4. eapply stops_le; [apply parseexec_loop_stops; lia|lia].
  - destruct (peek s [40]) as [b s3] eqn:E. pose proof (peek_le _ _ _ _ E) as [H3 _]. destruct b; [cbn [negb]|done].
    pose proof (gettoken_le s3) as [G1 G2]. specialize (G2 (peek_token _ _ _ E)). eapply stops_bind; [apply IH; lia|]. intros c s4 H4.
    destruct (peek s4 [41]) as [b s5] eqn:E5. pose proof (peek_le _ _ _ _ E5) as [H5 _]. destruct b; [cbn [negb]|done]. pose proof (gettoken_le s5) as [G3 _].
    eapply stops_le; [apply parseredirs_stops; lia|lia].
Qed.

(** C35: the recursive descent parser stops on every line: with the fuel that
    [parsecmd] gives it, [parseline] either returns a command, or stops with one
    of its messages; it never runs out of fuel, and never leaves more of the
    line than it was given. *)
Theorem parser_terminates s : ∃ r, parseline (parse_fuel (length s)) s = r ∧
  ((∃ c rest, r = POk c rest ∧ (length rest ≤ length s)%nat) ∨ ∃ msg, r = PErr msg).
Proof.
  eexists. split; [done|]. pose proof (proj1 (parse_stops (parse_fuel (length s)) s)) as H. specialize (H ltac:(unfold parse_fuel; lia)).
  destruct (parseline _ _) as [c rest|msg|]; [left; by exists c, rest|right; by exists msg|done].
Qed.

(** ** The grammar *)
Inductive rkind := RIn | ROut | RAppend.
Definition word : Type := list Z.
Definition redir : Type := rkind * word.
Inductive line := LineEnd (p : pipeline) (bg : nat) | LineSeq (p : pipeline) (bg : nat) (l : line)
with pipeline := PipeEnd (e : simple) | PipeSeq (e : simple) (p : pipeline)
with simple := Simple (rs : list redir) (args : list (word * list redir)) | Block (l : line) (rs : list redir).
Scheme line_mut := Induction for line Sort Prop
with pipeline_mut := Induction for pipeline Sort Prop
with simple_mut := Induction for simple Sort Prop.
Combined Scheme grammar_ind from line_mut, pipeline_mut, simple_mut.

(** Every token is followed by a blank. *)
Definition print_redir (r : redir) : list Z := (match r.1 with RIn => [60] | ROut => [62] | RAppend => [62; 62] end) ++ 32 :: r.2 ++ [32].
Definition print_redirs (rs : list redir) : list Z := concat (print_redir <$> rs).
Definition print_args (args : list (word * list redir)) : list Z := concat ((λ a, a.1 ++ 32 :: print_redirs a.2) <$> args).
Fixpoint print_line (l : line) : list Z :=
  match l with
  | LineEnd p bg => print_pipe p ++ concat (replicate bg [38; 32])
  | LineSeq p bg l => print_pipe p ++ concat (replicate bg [38; 32]) ++ [59; 32] ++ print_line l
  end
with print_pipe (p : pipeline) : list Z :=
  match p with PipeEnd e => print_simple e | PipeSeq e p => print_simple e ++ [124; 32] ++ print_pipe p end
with print_simple (e : simple) : list Z :=
  match e with
  | Simple rs args => print_redirs rs ++ print_args args
  | Block l rs => [40; 32] ++ print_line l ++ [41; 32] ++ print_redirs rs
  end.

(** Commands of words. *)
Inductive wcmd :=
| WExec (argv : list word)
| WRedir (c : wcmd) (file : word) (mode fd : Z)
| WPipe (left right : wcmd)
| WList (left right : wcmd)
| WBack (c : wcmd).
Definition wrap1 (c : wcmd) (r : redir) : wcmd :=
  match r.1 with RIn => WRedir c r.2 O_RDONLY 0 | _ => WRedir c r.2 (Z.lor O_WRONLY O_CREATE) 1 end.
Definition wrap (c : wcmd) (rs : list redir) : wcmd := foldl wrap1 c rs.
Fixpoint backs (n : nat) (c : wcmd) : wcmd := match n with O => c | S n' => backs n' (WBack c) end.
Fixpoint meaning (l : line) : wcmd :=
  match l with
  | LineEnd p bg => backs bg (meaning_pipe p)
  | LineSeq p bg l => WList (backs bg (meaning_pipe p)) (meaning l)
  end
with meaning_pipe (p : pipeline) : wcmd :=
  match p with PipeEnd e => meaning_simple e | PipeSeq e p => WPipe (meaning_simple e) (meaning_pipe p) end
with meaning_simple (e : simple) : wcmd :=
  match e with
  | Simple rs args => wrap (WExec (args.*1)) (rs ++ concat (args.*2))
  | Block l rs => wrap (meaning l) rs
  end.

(** Words are not empty and contain no blank or symbol; a command has fewer
    than [MAXARGS] of them. *)
Definition word_ok (w : word) : Prop := w ≠ [] ∧ Forall (λ c, word_char c = true) w.
Definition redirs_ok (rs : list redir) : Prop := Forall (λ r, word_ok r.2) rs.
Fixpoint line_ok (l : line) : Prop :=
  match l with LineEnd p _ => pipe_ok p | LineSeq p _ l => pipe_ok p ∧ line_ok l end
with pipe_ok (p : pipeline) : Prop :=
  match p with PipeEnd e => simple_ok e | PipeSeq e p => simple_ok e ∧ pipe_ok p end
with simple_ok (e : simple) : Prop :=
  match e with
  | Simple rs args => redirs_ok rs ∧ Forall (λ a, word_ok a.1 ∧ redirs_ok a.2) args ∧ Z.of_nat (length args) < MAXARGS
  | Block l rs => line_ok l ∧ redirs_ok rs
  end.

(** The words that a parsed command points to. *)
Definition word_of (a : span) : word := take (length a.1 - length a.2) a.1.
Fixpoint words_of (c : cmd) : wcmd :=
  match c with
  | EXEC argv => WExec (word_of <$> argv)
  | REDIR c f m d => WRedir (words_of c) (word_of f) m d
  | PIPE l r => WPipe (words_of l) (words_of r)
  | LIST l r => WList (words_of l) (words_of r)
  | BACK c => WBack (words_of c)
  end.

(** ** Parsing what was printed *)
(** [s] starts with a token. *)
Definition trimmed (s : list Z) : Prop := skip_ws s = s.
Lemma trimmed_cons c s : in_set whitespace c = false → trimmed (c :: s).
Proof. intros H. unfold trimmed. simpl. by rewrite H. Qed.
Lemma peek_trimmed s toks : trimmed s → peek s toks = (negb (hd0 s =? 0) && in_set toks (hd0 s), s).
Proof. intros H. unfold peek. by rewrite H. Qed.
Lemma word_head w s : word_ok w → ∃ c w', w = c :: w' ∧ word_char c = true ∧ Forall (λ c, word_char c = true) w' ∧ hd0 (w ++ s) = c ∧ trimmed (w ++ s).
Proof.
  intros [Hne Hw]. destruct w as [|c w]; [done|]. apply Forall_cons in Hw as [Hc Hw]. exists c, w. split_and!; try done. apply trimmed_cons.
  unfold word_char in Hc. rewrite !andb_true_iff, !negb_true_iff in Hc. tauto.
Qed.
Lemma word_end_app w s : Forall (λ c, word_char c = true) w → word_end (w ++ 32 :: s) = 32 :: s.
Proof.
  induction 1 as [|c w Hc Hw IH]; [done|]. simpl. unfold word_char in Hc. rewrite !andb_true_iff in Hc. destruct Hc as [[_ -> ] ->]. done.
Qed.
Lemma token_word w s : word_ok w → trimmed s → gettoken (w ++ 32 :: s) = Token 97 (w ++ 32 :: s) (32 :: s) s.
Proof.
  intros Hw Hs. destruct (word_head w (32 :: s) Hw) as (c & w' & -> & Hc & Hw' & _ & Ht). simpl app in *. rewrite (gettoken_word _ c (w' ++ 32 :: s)) by done.
  rewrite word_end_app by done. simpl. by rewrite Hs.
Qed.
Lemma token_symbol c s : c ≠ 0 → in_set [124; 40; 41; 59; 38; 60] c = true → in_set whitespace c = false → trimmed s → gettoken (c :: 32 :: s) = Token c (c :: 32 :: s) (32 :: s) s.
Proof. intros H0 Hc Hw Hs. rewrite (gettoken_symbol _ c (32 :: s)) by (done || by apply trimmed_cons). simpl. by rewrite Hs. Qed.
Lemma word_of_app w s : word_of (w ++ 32 :: s, 32 :: s) = w.
Proof. unfold word_of. simpl fst. simpl snd. rewrite length_app, Nat.add_sub. apply take_app_length. Qed.

Lemma print_redirs_cons r rs s : print_redirs (r :: rs) ++ s = print_redir r ++ print_redirs rs ++ s.
Proof. unfold print_redirs. simpl. by rewrite <- app_assoc. Qed.
Lemma print_args_cons w rs args s : print_args ((w, rs) :: args) ++ s = w ++ 32 :: print_redirs rs ++ print_args args ++ s.
Proof. unfold print_args. simpl. rewrite <- app_assoc. simpl. by rewrite <- app_assoc. Qed.
Lemma redirs_length rs : (length rs ≤ length (print_redirs rs))%nat.
Proof.
  induction rs as [|r rs IH]; [done|]. rewrite <- (app_nil_r (print_redirs (r :: rs))), print_redirs_cons, app_nil_r, length_app. unfold print_redir. rewrite length_app. simpl. lia.
Qed.
Lemma redir_head r s : trimmed (print_redir r ++ s) ∧ (hd0 (print_redir r ++ s) = 60 ∨ hd0 (print_redir r ++ s) = 62).
Proof. destruct r as [[] w]; (split; [by apply trimmed_cons|]); [by left|by right|by right]. Qed.
Lemma redirs_trimmed rs s : trimmed s → trimmed (print_redirs rs ++ s).
Proof. intros Hs. destruct rs as [|r rs]; [done|]. rewrite print_redirs_cons. apply redir_head. Qed.
Lemma args_trimmed args s : Forall (λ a, word_ok a.1 ∧ redirs_ok a.2) args → trimmed s → trimmed (print_args args ++ s).
Proof. intros Ha Hs. destruct args as [|[w rs] args]; [done|]. apply Forall_cons in Ha as [[Hw _] _]. rewrite print_args_cons. by destruct (word_head w (32 :: print_redirs rs ++ print_args args ++ s) Hw) as (? & ? & _ & _ & _ & _ & ?). Qed.

(** One redirection. *)
Lemma parseredirs_one n c r s : word_ok r.2 → trimmed s → ∃ c', parseredirs (S n) c (print_redir r ++ s) = parseredirs n c' s ∧ words_of c' = wrap1 (words_of c) r ∧
  ∃ f m d, c' = REDIR c f m d.
Proof.
  intros Hw Hs. destruct r as [k w]. cbn [fst snd] in Hw. destruct (redir_head (k, w) s) as [Ht Hh]. cbn [parseredirs]. rewrite peek_trimmed by done.
  assert (negb (hd0 (print_redir (k, w) ++ s) =? 0) && in_set [60; 62] (hd0 (print_redir (k, w) ++ s)) = true) as -> by (destruct Hh as [-> | ->]; done). cbn [negb].
  assert (trimmed (w ++ 32 :: s)) as Htw by (by destruct (word_head w (32 :: s) Hw) as (? & ? & _ & _ & _ & _ & ?)).
  assert (∃ t, gettoken (print_redir (k, w) ++ s) = t ∧ tk_ps t = w ++ 32 :: s ∧ tk_ret t = match k with RIn => 60 | ROut => 62 | RAppend => 43 end) as (t & Et & Ep & Er).
  { eexists. split; [done|]. unfold print_redir. cbn [fst snd]. destruct k; simpl app; rewrite <- app_assoc; simpl app.
    - rewrite token_symbol by done. done.
    - rewrite (gettoken_out _ (32 :: w ++ 32 :: s)) by (by apply trimmed_cons). simpl. by rewrite Htw.
    - rewrite (gettoken_out _ (62 :: 32 :: w ++ 32 :: s)) by (by apply trimmed_cons). simpl. by rewrite Htw. }
  rewrite Et, Ep, Er, token_word by done. cbn [tk_ret tk_q tk_eq tk_ps]. change (negb (97 =? 97)) with false. cbv iota.
  eexists. split; [reflexivity|]. destruct k; cbn -[word_of]; unfold redircmd; cbn -[word_of]; rewrite word_of_app; (split; [done|eauto]).
Qed.

Lemma parseredirs_ok rs : ∀ cnt c s, redirs_ok rs → trimmed s → in_set [60; 62] (hd0 s) = false → (length rs ≤ cnt)%nat →
  ∃ c', parseredirs cnt c (print_redirs rs ++ s) = POk c' s ∧ words_of c' = wrap (words_of c) rs ∧ ∀ a, words_of (add_arg a c') = wrap (words_of (add_arg a c)) rs.
Proof.
  induction rs as [|r rs IH]; intros cnt c s Hok Hs Hh Hl.
  - exists c. split; [|done]. simpl app. destruct cnt; cbn [parseredirs]; rewrite peek_trimmed, Hh, andb_false_r by done; done.
  - apply Forall_cons in Hok as [Hw Hok]. destruct cnt as [|cnt]; [simpl in Hl; lia|]. rewrite print_redirs_cons.
    destruct (parseredirs_one cnt c r (print_redirs rs ++ s) Hw (redirs_trimmed _ _ Hs)) as (c1 & -> & E1 & f & m & d & ->).
    destruct (IH cnt (REDIR c f m d) s Hok Hs Hh ltac:(simpl in Hl; lia)) as (c' & E & E2 & E3). exists c'. split; [done|]. split.
    + rewrite E2, E1. done.
    + intros a. rewrite E3. cbn [add_arg words_of wrap foldl]. f_equal. cbn [words_of] in E1. unfold wrap1 in *. destruct (r.1); by injection E1 as -> -> ->.
Qed.

(** The arguments of a command, each with its redirections. *)
Fixpoint wadd (w : word) (c : wcmd) : wcmd :=
  match c with WExec argv => WExec (argv ++ [w]) | WRedir c f m d => WRedir (wadd w c) f m d | _ => c end.
Lemma words_add a c : words_of (add_arg a c) = wadd (word_of a) (words_of c).
Proof. induction c; simpl; try done; [by rewrite fmap_app|by f_equal]. Qed.
Lemma wadd_wrap w rs : ∀ c, wadd w (wrap c rs) = wrap (wadd w c) rs.
Proof. induction rs as [|[k f] rs IH]; intros c; [done|]. simpl. rewrite IH. f_equal. by destruct k. Qed.
Definition wargs (c : wcmd) (args : list (word * list redir)) : wcmd := foldl (λ c a, wrap (wadd a.1 c) a.2) c args.
Lemma wargs_exec args : ∀ argv rs, wargs (wrap (WExec argv) rs) args = wrap (WExec (argv ++ args.*1)) (rs ++ concat (args.*2)).
Proof.
  induction args as [|[w rs'] args IH]; intros argv rs; simpl; [by rewrite !app_nil_r|]. rewrite wadd_wrap. cbn [wadd].
  assert (wrap (wrap (WExec (argv ++ [w])) rs) rs' = wrap (WExec (argv ++ [w])) (rs ++ rs')) as -> by (unfold wrap; by rewrite foldl_app).
  rewrite IH. by rewrite <- !app_assoc.
Qed.

Lemma args_head args s : Forall (λ a, word_ok a.1 ∧ redirs_ok a.2) args → args ≠ [] → word_char (hd0 (print_args args ++ s)) = true.
Proof.
  intros Ha Hne. destruct args as [|[w rs] args]; [done|]. apply Forall_cons in Ha as [[Hw _] _]. rewrite print_args_cons.
  destruct (word_head w (32 :: print_redirs rs ++ print_args args ++ s) Hw) as (c & ? & _ & Hc & _ & -> & _). done.
Qed.
Lemma word_char_not l c : word_char c = true → (∀ x, x ∈ l → x ∈ symbols) → in_set l c = false.
Proof.
  unfold word_char. rewrite !andb_true_iff, !negb_true_iff, !in_set_false. intros [_ H] Hl Hin. by apply H, Hl.
Qed.
Lemma args_no_redir args s : Forall (λ a, word_ok a.1 ∧ redirs_ok a.2) args → in_set [60; 62] (hd0 s) = false → in_set [60; 62] (hd0 (print_args args ++ s)) = false.
Proof.
  intros Ha Hs. destruct args as [|a args]; [done|]. apply word_char_not; [by apply args_head|]. unfold symbols. set_solver.
Qed.

Lemma parseexec_loop_ok args : ∀ cnt argc ret s, Forall (λ a, word_ok a.1 ∧ redirs_ok a.2) args → trimmed s → s = [] ∨ in_set [124; 41; 38; 59] (hd0 s) = true ∧ hd0 s ≠ 0 →
  argc + Z.of_nat (length args) < MAXARGS → (length (print_args args ++ s) ≤ cnt)%nat →
  ∃ c', parseexec_loop cnt argc ret (print_args args ++ s) = POk c' s ∧ words_of c' = wargs (words_of ret) args.
Proof.
  induction args as [|[w rs] args IH]; intros cnt argc ret s Ha Hs Hend Hn Hl.
  - exists ret. split; [|done]. simpl app in *. destruct Hend as [->|[Hh H0]].
    + destruct cnt; done.
    + destruct cnt; cbn [parseexec_loop]; by rewrite peek_trimmed, Hh, (proj2 (Z.eqb_neq _ _) H0) by done.
  - apply Forall_cons in Ha as [[Hw Hrs] Ha]. cbn [fst snd] in *. cbn [length] in Hn. rewrite print_args_cons in Hl |- *.
    destruct (word_head w (32 :: print_redirs rs ++ print_args args ++ s) Hw) as (c & w' & Ew & Hc & _ & Eh & Ht). rewrite length_app in Hl. cbn [length] in Hl.
    assert (in_set [60; 62] (hd0 s) = false) as Hns.
    { destruct Hend as [->|[Hh _]]; [done|]. rewrite in_set_spec in Hh. rewrite in_set_false. rewrite !elem_of_cons, elem_of_nil in *. lia. }
    destruct cnt as [|cnt]; [lia|]. cbn [parseexec_loop]. rewrite peek_trimmed, Eh by done.
    rewrite (word_char_not [124; 41; 38; 59] c Hc), andb_false_r by (unfold symbols; set_solver). rewrite token_word by (done || by apply redirs_trimmed, args_trimmed).
    cbn [tk_ret tk_q tk_eq tk_ps]. change (97 =? 0) with false. change (negb (97 =? 97)) with false. cbv iota. rewrite (proj2 (Z.leb_gt _ _)) by lia.
    destruct (parseredirs_ok rs (S (length (print_redirs rs ++ print_args args ++ s))) (add_arg (w ++ 32 :: print_redirs rs ++ print_args args ++ s, 32 :: print_redirs rs ++ print_args args ++ s) ret) (print_args args ++ s))
      as (c1 & E1 & E2 & _); [done|by apply args_trimmed|by apply args_no_redir| |].
    { rewrite length_app. pose proof (redirs_length rs). lia. }
    rewrite E1. cbn [pbind]. rewrite words_add, word_of_app in E2.
    destruct (IH cnt (argc + 1) c1 s) as (c' & E & E3); [done|done|done|lia| |]. { rewrite length_app in Hl. lia. }
    exists c'. split; [done|]. rewrite E3, E2. done.
Qed.

(** What may follow a pipeline, a line, a command. *)
Definition ends (l : list Z) (s : list Z) : Prop := trimmed s ∧ (s = [] ∨ in_set l (hd0 s) = true ∧ hd0 s ≠ 0).
Lemma ends_cons l c s : in_set whitespace c = false → in_set l c = true → c ≠ 0 → ends l (c :: s).
Proof. intros H1 H2 H3. split; [by apply trimmed_cons|by right]. Qed.
Lemma ends_sub l l' s : ends l s → (∀ x, x ∈ l → x ∈ l') → ends l' s.
Proof. intros [H1 H2] Hl. split; [done|]. destruct H2 as [?|[H2 H3]]; [by left|right]. rewrite in_set_spec in *. auto. Qed.
Lemma ends_peek l toks s : ends l s → (∀ x, x ∈ l → x ∉ toks) → peek s toks = (false, s).
Proof.
  intros [H1 H2] Hl. rewrite peek_trimmed by done. destruct H2 as [->|[H2 H3]]; [done|]. rewrite (proj2 (in_set_false toks _)), andb_false_r; [done|]. apply in_set_spec in H2. auto.
Qed.

Lemma parseback_ok bg : ∀ cnt c s, ends [41; 59] s → (bg ≤ cnt)%nat →
  ∃ c', parseback cnt c (concat (replicate bg [38; 32]) ++ s) = POk c' s ∧ words_of c' = backs bg (words_of c).
Proof.
  induction bg as [|bg IH]; intros cnt c s Hs Hl; simpl app.
  - exists c. split; [|done]. destruct cnt; cbn [parseback]; rewrite (ends_peek _ _ _ Hs) by set_solver; done.
  - destruct cnt as [|cnt]; [lia|]. cbn [parseback]. rewrite peek_trimmed by (by apply trimmed_cons). simpl negb. cbv iota.
    assert (trimmed (concat (replicate bg [38; 32]) ++ s)) as Ht by (destruct bg; [apply Hs|by apply trimmed_cons]).
    rewrite (token_symbol 38) by done. cbn [tk_ps].
    destruct (IH cnt (backcmd c) s Hs ltac:(lia)) as (c' & E & Ew). exists c'. done.
Qed.

Lemma backs_trimmed bg s : trimmed s → trimmed (concat (replicate bg [38; 32]) ++ s).
Proof. intros H. destruct bg; [done|by apply trimmed_cons]. Qed.
Lemma printed_trimmed : (∀ l, line_ok l → ∀ s, trimmed s → trimmed (print_line l ++ s)) ∧ (∀ p, pipe_ok p → ∀ s, trimmed s → trimmed (print_pipe p ++ s)) ∧
  (∀ e, simple_ok e → ∀ s, trimmed s → trimmed (print_simple e ++ s)).
Proof.
  apply grammar_ind; cbn [line_ok pipe_ok simple_ok print_line print_pipe print_simple].
  - intros p IH bg Hok s Hs. rewrite <- app_assoc. by apply IH, backs_trimmed.
  - intros p IH bg l IHl [Hp Hl] s Hs. rewrite <- !app_assoc. apply IH, backs_trimmed; [done|]. by apply trimmed_cons.
  - intros e IH Hok s Hs. by apply IH.
  - intros e IH p IHp [He Hp] s Hs. rewrite <- app_assoc. apply IH; [done|]. by apply trimmed_cons.
  - intros rs args (Hrs & Ha & _) s Hs. rewrite <- app_assoc. by apply redirs_trimmed, args_trimmed.
  - intros l IH rs [Hl Hrs] s Hs. by apply trimmed_cons.
Qed.

Lemma simple_parse rs args n s : simple_ok (Simple rs args) → ends [124; 41; 38; 59] s →
  ∃ c, parseexec (S n) (print_simple (Simple rs args) ++ s) = POk c s ∧ words_of c = meaning_simple (Simple rs args).
Proof.
  intros (Hrs & Ha & Hn) [Hs Hend]. cbn [print_simple meaning_simple parseexec]. rewrite <- app_assoc. pose proof (args_trimmed args s Ha Hs) as Hta.
  assert (in_set [60; 62] (hd0 s) = false) as Hns.
  { destruct Hend as [->|[Hh _]]; [done|]. rewrite in_set_spec in Hh. rewrite in_set_false. rewrite !elem_of_cons, elem_of_nil in *. lia. }
  assert (in_set [40] (hd0 (print_redirs rs ++ print_args args ++ s)) = false) as Hnb.
  { destruct rs as [|r rs].
    - simpl app. destruct args as [|a args]; [|apply word_char_not; [by apply args_head|unfold symbols; set_solver]].
      simpl app. destruct Hend as [->|[Hh _]]; [done|]. rewrite in_set_spec in Hh. rewrite in_set_false. rewrite !elem_of_cons, elem_of_nil in *. lia.
    - rewrite print_redirs_cons. destruct (redir_head r (print_redirs rs ++ print_args args ++ s)) as [_ [-> | ->]]; done. }
  rewrite peek_trimmed by (by apply redirs_trimmed). rewrite Hnb, andb_false_r.
  destruct (parseredirs_ok rs (S (length (print_redirs rs ++ print_args args ++ s))) execcmd (print_args args ++ s)) as (c1 & E1 & E2 & _); [done|done|by apply args_no_redir| |].
  { rewrite length_app. pose proof (redirs_length rs). lia. }
  rewrite E1. cbn [pbind]. destruct (parseexec_loop_ok args (S (length (print_args args ++ s))) 0 c1 s) as (c & E & E3); [done|done|done|lia|lia|].
  exists c. split; [done|]. rewrite E3, E2. cbn [words_of execcmd]. apply wargs_exec.
Qed.

Lemma block_parse l rs n s : redirs_ok rs →
  (∀ n s, ends [41] s → (4 * length (print_line l ++ s) + 4 ≤ n)%nat → ∃ c, parseline n (print_line l ++ s) = POk c s ∧ words_of c = meaning l) →
  (∀ s, trimmed s → trimmed (print_line l ++ s)) → ends [124; 41; 38; 59] s → (4 * length (print_simple (Block l rs) ++ s) + 2 ≤ n)%nat →
  ∃ c, parseexec n (print_simple (Block l rs) ++ s) = POk c s ∧ words_of c = meaning_simple (Block l rs).
Proof.
  intros Hrs IH Tl Hs Hn. destruct n as [|[|n]]; [lia|cbn [print_simple] in Hn; rewrite !length_app in Hn; simpl in Hn; lia|]. cbn [print_simple meaning_simple] in *. rewrite <- !app_assoc in *.
  cbn [parseexec parseblock]. rewrite peek_trimmed by (by apply trimmed_cons). cbn -[print_line print_redirs gettoken length parseline parseredirs peek].
  rewrite peek_trimmed by (by apply trimmed_cons). cbn -[print_line print_redirs gettoken length parseline parseredirs peek].
  set (r := 41 :: 32 :: print_redirs rs ++ s) in *. assert (ends [41] r) as Hr by (by apply ends_cons). rewrite token_symbol by (done || by apply Tl, Hr). cbn [tk_ps].
  destruct (IH n r Hr) as (c & -> & Ew).
  { change (length ([40; 32] ++ print_line l ++ [41; 32] ++ print_redirs rs ++ s)) with (2 + length (print_line l ++ r))%nat in Hn. lia. }
  cbn [pbind]. unfold r at 1. rewrite peek_trimmed by (by apply trimmed_cons). cbn -[print_redirs gettoken length parseredirs]. rewrite token_symbol by (done || by apply redirs_trimmed, Hs). cbn [tk_ps].
  destruct (parseredirs_ok rs (S (length (print_redirs rs ++ s))) c s) as (c2 & -> & Ew2 & _); [done|apply Hs| | |].
  { destruct Hs as [_ [->|[Hh _]]]; [done|]. rewrite in_set_spec in Hh. rewrite in_set_false. rewrite !elem_of_cons, elem_of_nil in *. lia. }
  { rewrite length_app. pose proof (redirs_length rs). lia. }
  exists c2. split; [done|]. by rewrite Ew2, Ew.
Qed.

Lemma parse_print :
  (∀ l, line_ok l → ∀ n s, ends [41] s → (4 * length (print_line l ++ s) + 4 ≤ n)%nat → ∃ c, parseline n (print_line l ++ s) = POk c s ∧ words_of c = meaning l) ∧
  (∀ p, pipe_ok p → ∀ n s, ends [41; 38; 59] s → (4 * length (print_pipe p ++ s) + 3 ≤ n)%nat → ∃ c, parsepipe n (print_pipe p ++ s) = POk c s ∧ words_of c = meaning_pipe p) ∧
  (∀ e, simple_ok e → ∀ n s, ends [124; 41; 38; 59] s → (4 * length (print_simple e ++ s) + 2 ≤ n)%nat → ∃ c, parseexec n (print_simple e ++ s) = POk c s ∧ words_of c = meaning_simple e).
Proof.
  destruct printed_trimmed as (Tl & Tp & Te). apply grammar_ind.
  - intros p IH bg Hok n s Hs Hn. destruct n as [|n]; [lia|]. cbn [print_line line_ok meaning parseline] in *. rewrite <- app_assoc in *.
    destruct (IH Hok n (concat (replicate bg [38; 32]) ++ s)) as (c & -> & Ew); [|lia|].
    { destruct bg; [apply (ends_sub _ _ _ Hs); set_solver|by apply ends_cons]. }
    cbn [pbind]. destruct (parseback_ok bg (S (length (concat (replicate bg [38; 32]) ++ s))) c s) as (c2 & -> & Ew2); [apply (ends_sub _ _ _ Hs); set_solver| |].
    { rewrite length_app. assert (bg ≤ length (concat (replicate bg [38%Z; 32%Z])))%nat; [|lia]. clear. induction bg; simpl; lia. }
    cbn [pbind]. rewrite (ends_peek _ _ _ Hs) by set_solver. exists c2. split; [done|]. by rewrite Ew2, Ew.
  - intros p IH bg l IHl [Hp Hl] n s Hs Hn. destruct n as [|n]; [lia|]. cbn [print_line meaning parseline] in *. rewrite <- !app_assoc in *. set (r := [59; 32] ++ print_line l ++ s) in *.
    assert (ends [59] r) as Hr by (by apply ends_cons).
    destruct (IH Hp n (concat (replicate bg [38; 32]) ++ r)) as (c & -> & Ew); [|lia|].
    { destruct bg; [apply (ends_sub _ _ _ Hr); set_solver|by apply ends_cons]. }
    cbn [pbind]. assert (length (concat (replicate bg [38%Z; 32%Z]) ++ r) = 2 * bg + length r)%nat as El by (rewrite length_app; f_equal; clear; induction bg; simpl; lia).
    destruct (parseback_ok bg (S (length (concat (replicate bg [38; 32]) ++ r))) c r) as (c2 & -> & Ew2); [apply (ends_sub _ _ _ Hr); set_solver|lia|].
    cbn [pbind]. unfold r at 1. rewrite peek_trimmed by (by apply trimmed_cons). cbn -[print_line gettoken length]. rewrite token_symbol by (done || by apply Tl, Hs). cbn [tk_ps].
    destruct (IHl Hl n s Hs) as (c3 & -> & Ew3). { rewrite length_app, El in Hn. unfold r in Hn. simpl in Hn. lia. }
    cbn [pbind]. eexists. split; [done|]. cbn [words_of listcmd]. by rewrite Ew2, Ew, Ew3.
  - intros e IH Hok n s Hs Hn. destruct n as [|n]; [lia|]. cbn [print_pipe pipe_ok meaning_pipe parsepipe] in *.
    destruct (IH Hok n s) as (c & -> & Ew); [apply (ends_sub _ _ _ Hs); set_solver|lia|]. cbn [pbind]. rewrite (ends_peek _ _ _ Hs) by set_solver. by exists c.
  - intros e IH p IHp [He Hp] n s Hs Hn. destruct n as [|n]; [lia|]. cbn [print_pipe meaning_pipe parsepipe] in *. rewrite <- !app_assoc in *.
    destruct (IH He n ([124; 32] ++ print_pipe p ++ s)) as (c & -> & Ew); [by apply ends_cons|lia|].
    cbn [pbind]. rewrite peek_trimmed by (by apply trimmed_cons). cbn -[print_pipe gettoken length]. rewrite token_symbol by (done || by apply Tp, Hs). cbn [tk_ps].
    destruct (IHp Hp n s Hs) as (c3 & -> & Ew3). { rewrite length_app in Hn. simpl in Hn. lia. }
    cbn [pbind]. eexists. split; [done|]. cbn [words_of pipecmd]. by rewrite Ew, Ew3.
  - intros rs args Hok n s Hs Hn. destruct n as [|n]; [lia|]. by apply simple_parse.
  - intros l IH rs [Hl Hrs] n s Hs Hn. apply block_parse; [done|by apply IH|by apply Tl|done|done].
Qed.

(** ** The strings that exec gets *)
(** A token of the line [buf]: a word, ended by something else. *)
Definition good (buf : list Z) (a : span) : Prop :=
  ∃ pre w rest, buf = pre ++ w ++ rest ∧ a = (w ++ rest, rest) ∧ Forall (λ c, word_char c = true) w ∧ word_char (hd0 rest) = false.
Fixpoint tokens (c : cmd) : list span :=
  match c with
  | EXEC argv => argv
  | REDIR c f _ _ => tokens c ++ [f]
  | PIPE l r | LIST l r => tokens l ++ tokens r
  | BACK c => tokens c
  end.
Definition all_good (buf : list Z) (c : cmd) : Prop := Forall (good buf) (tokens c).

Lemma skip_ws_suffix s : skip_ws s `suffix_of` s.
Proof. induction s as [|c s IH]; [done|]. simpl. destruct (in_set whitespace c); [by apply suffix_cons_r|done]. Qed.
Lemma word_end_split s : ∃ w, s = w ++ word_end s ∧ word_char (hd0 (word_end s)) = false ∧ Forall (λ c, negb (in_set whitespace c) && negb (in_set symbols c) = true) w.
Proof.
  induction s as [|c s (w & E & H1 & H2)]; [by exists []|]. simpl. destruct (negb (in_set whitespace c) && negb (in_set symbols c)) eqn:Ec.
  - exists (c :: w). split; [by rewrite E at 1|]. split; [done|by constructor].
  - exists []. split; [done|]. split; [|done]. unfold word_char, hd0. simpl. rewrite <- andb_assoc, Ec. by rewrite andb_false_r.
Qed.
(** On a line without zeros. *)
Lemma gettoken_good buf s : Forall (λ c, c ≠ 0) buf → s `suffix_of` buf → tk_ps (gettoken s) `suffix_of` buf ∧ (tk_ret (gettoken s) = 97 → good buf (tk_q (gettoken s), tk_eq (gettoken s))).
Proof.
  intros Hz Hs. assert (skip_ws s `suffix_of` buf) as Hs' by (etrans; [apply skip_ws_suffix|done]). destruct (skip_ws s) as [|c s'] eqn:E.
  { unfold gettoken. rewrite E. simpl. split; [apply suffix_nil|done]. }
  assert (c ≠ 0) as Hc. { destruct Hs' as [pre ->]. rewrite Forall_app, Forall_cons in Hz. tauto. }
  assert (s' `suffix_of` buf) as Ht by (etrans; [by apply suffix_cons_r|exact Hs']).
  destruct (token_cases s c s' E Hc) as [H|[->|H]].
  - rewrite (gettoken_symbol s c s') by done. cbn [tk_ps tk_ret]. split; [etrans; [apply skip_ws_suffix|done]|]. intros ->. done.
  - rewrite (gettoken_out s s') by done. assert (tail s' `suffix_of` buf) as Htt. { destruct s' as [|d s']; [done|]. etrans; [by apply suffix_cons_r|exact Ht]. }
    destruct (hd0 s' =? 62); cbn [tk_ps tk_ret]; (split; [etrans; [apply skip_ws_suffix|done]|done]).
  - rewrite (gettoken_word s c s') by done. cbn [tk_ps tk_ret tk_q tk_eq]. destruct (word_end_split s') as (w & Ew & H1 & H2).
    assert (word_end s' `suffix_of` buf) as Hwe by (etrans; [exists w; exact Ew|exact Ht]).
    split; [etrans; [apply skip_ws_suffix|done]|]. intros _. destruct Hs' as [pre Eb]. exists pre, (c :: w), (word_end s'). split; [rewrite Eb; simpl; by rewrite <- Ew|].
    split; [simpl; by rewrite <- Ew|]. split; [|done]. constructor; [done|]. rewrite Eb, Ew in Hz. rewrite Forall_app, Forall_cons, Forall_app in Hz. destruct Hz as (_ & _ & Hz & _).
    clear -H2 Hz. induction w as [|d w IH]; [constructor|]. apply Forall_cons in H2 as [Hd H2]. apply Forall_cons in Hz as [Hz0 Hz]. constructor; [|by apply IH].
    unfold word_char. rewrite (proj2 (Z.eqb_neq _ _) Hz0). done.
Qed.

Section tracks.
Variable buf : list Z.
Hypothesis Hz : Forall (λ c, c ≠ 0) buf.
Definition tracks (r : pres) : Prop := match r with POk c s => s `suffix_of` buf ∧ all_good buf c | _ => True end.

Lemma tracks_bind r f : tracks r → (∀ c s, s `suffix_of` buf → all_good buf c → tracks (f c s)) → tracks (pbind r f).
Proof. intros Hr Hf. destruct r as [c s| |]; [|done|done]. destruct Hr. by apply Hf. Qed.
Lemma peek_suffix s toks b s' : peek s toks = (b, s') → s `suffix_of` buf → s' `suffix_of` buf.
Proof. unfold peek. intros [= _ <-] Hs. etrans; [apply skip_ws_suffix|done]. Qed.
Lemma token_suffix s : s `suffix_of` buf → tk_ps (gettoken s) `suffix_of` buf.
Proof using Hz. intros Hs. by apply gettoken_good. Qed.
Lemma add_arg_good a c : good buf a → all_good buf c → all_good buf (add_arg a c).
Proof.
  intros Ha. induction c as [argv|c IH f m d|l IHl r IHr|l IHl r IHr|c IH]; intros Hc; simpl in *; try done; unfold all_good in *; simpl in *; rewrite ?Forall_app in *.
  - by rewrite Forall_singleton.
  - destruct Hc as [Hc Hf]. split; [by apply IH|done].
Qed.

Lemma parseredirs_tracks cnt : ∀ c s, s `suffix_of` buf → all_good buf c → tracks (parseredirs cnt c s).
Proof using Hz.
  induction cnt as [|cnt IH]; intros c s Hs Hc; cbn [parseredirs]; destruct (peek s [60; 62]) as [b s1] eqn:E; pose proof (peek_suffix _ _ _ _ E Hs) as Hs1; destruct b; cbn [negb]; try done.
  destruct (gettoken_good buf (tk_ps (gettoken s1)) Hz (token_suffix _ Hs1)) as [Hs2 Hg]. destruct (Z.eqb_spec (tk_ret (gettoken (tk_ps (gettoken s1)))) 97) as [E97|]; [cbn [negb]|done].
  apply IH; [done|]. specialize (Hg E97). repeat match goal with |- context [if ?b then _ else _] => destruct b end; try done; unfold all_good; simpl; apply Forall_app; (split; [done|by apply Forall_singleton]).
Qed.
Lemma parseexec_loop_tracks cnt : ∀ argc c s, s `suffix_of` buf → all_good buf c → tracks (parseexec_loop cnt argc c s).
Proof using Hz.
  induction cnt as [|cnt IH]; intros argc c s Hs Hc; cbn [parseexec_loop]; destruct (peek s [124; 41; 38; 59]) as [b s1] eqn:E; pose proof (peek_suffix _ _ _ _ E Hs) as Hs1;
    (destruct b; [done|]); destruct (gettoken_good buf s1 Hz Hs1) as [Hs2 Hg]; (destruct (tk_ret (gettoken s1) =? 0); [done|]);
    (destruct (Z.eqb_spec (tk_ret (gettoken s1)) 97) as [E97|]; [cbn [negb]|done]); (destruct (MAXARGS <=? argc + 1); [done|]); [done|].
  eapply tracks_bind; [apply parseredirs_tracks; [done|by apply add_arg_good, Hc; apply Hg]|]. intros c' s' Hs' Hc'. by apply IH.
Qed.
Lemma parseback_tracks cnt : ∀ c s, s `suffix_of` buf → all_good buf c → tracks (parseback cnt c s).
Proof using Hz.
  induction cnt as [|cnt IH]; intros c s Hs Hc; cbn [parseback]; destruct (peek s [38]) as [b s1] eqn:E; pose proof (peek_suffix _ _ _ _ E Hs) as Hs1; destruct b; cbn [negb]; try done.
  apply IH; [by apply token_suffix|done].
Qed.
Lemma parse_tracks n : ∀ s, s `suffix_of` buf → tracks (parseline n s) ∧ tracks (parsepipe n s) ∧ tracks (parseexec n s) ∧ tracks (parseblock n s).
Proof using Hz.
  induction n as [|n IH]; intros s Hs; [done|]. assert (∀ toks b s', peek s toks = (b, s') → s' `suffix_of` buf) as Hp by (intros; by eapply peek_suffix).
  cbn [parseline parsepipe parseexec parseblock]. split_and!.
  - eapply tracks_bind; [by apply IH|]. intros c s1 H1 Hc1. eapply tracks_bind; [by apply parseback_tracks|]. intros c2 s2 H2 Hc2.
    destruct (peek s2 [59]) as [b s3] eqn:E. pose proof (peek_suffix _ _ _ _ E H2) as H3. destruct b; [|done].
    eapply tracks_bind; [by apply IH, token_suffix|]. intros r s4 H4 Hr. split; [done|]. apply Forall_app. done.
  - eapply tracks_bind; [by apply IH|]. intros c s1 H1 Hc1. destruct (peek s1 [124]) as [b s3] eqn:E. pose proof (peek_suffix _ _ _ _ E H1) as H3. destruct b; [|done].
    eapply tracks_bind; [by apply IH, token_suffix|]. intros r s4 H4 Hr. split; [done|]. apply Forall_app. done.
  - destruct (peek s [40]) as [b s3] eqn:E. pose proof (Hp _ _ _ E) as H3. destruct b; [by apply IH|].
    eapply tracks_bind; [apply parseredirs_tracks; [done|by constructor]|]. intros ret s4 H4 Hr. by apply parseexec_loop_tracks.
  - destruct (peek s [40]) as [b s3] eqn:E. pose proof (Hp _ _ _ E) as H3. destruct b; [cbn [negb]|done].
    eapply tracks_bind; [by apply IH, token_suffix|]. intros c s4 H4 Hc. destruct (peek s4 [41]) as [b s5] eqn:E5. pose proof (peek_suffix _ _ _ _ E5 H4) as H5. destruct b; [cbn [negb]|done].
    apply parseredirs_tracks; [by apply token_suffix|done].
Qed.

(** [nulterminate] writes zeros after the tokens, and nothing into them. *)
Definition ended (b : list Z) (l : list span) : Prop :=
  length b = S (length buf) ∧ (∀ i x, buf !! i = Some x → word_char x = true → b !! i = Some x) ∧
  ∀ a, a ∈ l → b !! (length buf - length a.2)%nat = Some 0.
Definition zeros (b : list Z) (l : list span) : list Z := foldl (λ b a, zero_at b (0 :: a.2)) b l.
Lemma nulterminate_zeros c : ∀ b, nulterminate c b = zeros b (tokens c).
Proof.
  unfold zeros. induction c as [argv|c IH f m d|l IHl r IHr|l IHl r IHr|c IH]; intros b; simpl; rewrite ?foldl_app; simpl; try done; [by rewrite IH|by rewrite IHl, IHr|by rewrite IHl, IHr].
Qed.
Lemma zero_at_ended b l a : ended b l → good buf a → ended (zero_at b (0 :: a.2)) (l ++ [a]).
Proof.
  intros (Hl & Hw & He) (pre & w & rest & E & -> & _ & Hr). unfold zero_at, ended in *. cbn [snd]. rewrite length_insert, Hl. replace (S (length buf) - length (0%Z :: rest))%nat with (length buf - length rest)%nat by done.
  assert (length buf = length pre + length w + length rest)%nat as El by (rewrite E, !length_app; lia). split; [done|]. split.
  - intros i x Hi Hx. rewrite list_lookup_insert_ne; [by apply Hw|]. intros <-. replace (length buf - length rest)%nat with (length (pre ++ w)) in Hi by (rewrite length_app; lia).
    rewrite E, app_assoc, lookup_app_r, Nat.sub_diag in Hi by done. destruct rest; [done|]. injection Hi as ->. unfold hd0 in Hr. simpl in Hr. congruence.
  - intros a' Ha. destruct (decide ((length buf - length rest)%nat = (length buf - length a'.2)%nat)) as [->|Hne]; [by rewrite list_lookup_insert_eq by lia|].
    rewrite list_lookup_insert_ne by done. apply elem_of_app in Ha as [Ha|Ha]; [by apply He|]. apply list_elem_of_singleton in Ha as ->. done.
Qed.
Lemma zeros_ended ts : ∀ b l, ended b l → Forall (good buf) ts → ended (zeros b ts) (l ++ ts).
Proof.
  induction ts as [|a ts IH]; intros b l Hb Hts; [by rewrite app_nil_r|]. apply Forall_cons in Hts as [Ha Hts]. rewrite cons_middle, app_assoc. simpl. apply IH; [by apply zero_at_ended|done].
Qed.
Lemma line_ended : ended (buf ++ [0]) [].
Proof. split; [rewrite length_app; simpl; lia|]. split; [|intros a Ha; by apply elem_of_nil in Ha]. intros i x Hi _. by apply lookup_app_l_Some. Qed.

Lemma until_zero_word w : ∀ l, Forall (λ c, word_char c = true) w → (∀ i x, w !! i = Some x → l !! i = Some x) → l !! length w = Some 0 → until_zero l = w.
Proof.
  induction w as [|c w IH]; intros l Hc Hw He.
  - destruct l as [|x l]; [done|]. injection He as ->. done.
  - apply Forall_cons in Hc as [Hc0 Hc]. destruct l as [|x l]; [done|]. specialize (Hw O c eq_refl) as Hx. injection Hx as ->. simpl.
    unfold word_char in Hc0. rewrite !andb_true_iff, negb_true_iff in Hc0. destruct Hc0 as [[-> _] _]. f_equal. apply IH; [done| |done]. intros i y Hi. apply (Hw (S i) y Hi).
Qed.
Lemma string_at_word b l a : ended b l → a ∈ l → good buf a → string_at b a.1 = word_of a.
Proof.
  intros (Hl & Hw & He) Hin (pre & w & rest & E & -> & Hc & _). specialize (He _ Hin). cbn [snd fst] in *. unfold string_at, word_of. cbn [snd fst].
  assert (length buf = length pre + length w + length rest)%nat as El by (rewrite E, !length_app; lia).
  rewrite length_app, Nat.add_sub, take_app_length, Hl. replace (S (length buf) - S (length w + length rest))%nat with (length pre) by lia.
  apply until_zero_word; [done| |].
  - intros i x Hi. rewrite lookup_drop. pose proof (lookup_lt_Some _ _ _ Hi). apply Hw; [|by apply (Forall_lookup_1 _ _ _ _ Hc Hi)].
    rewrite E, lookup_app_r by lia. rewrite lookup_app_l by lia. by replace (length pre + i - length pre)%nat with i by lia.
  - rewrite lookup_drop. rewrite <- He. f_equal. lia.
Qed.
End tracks.

(** The strings that a command's pointers denote in the line [b]. *)
Fixpoint strings_of (b : list Z) (c : cmd) : wcmd :=
  match c with
  | EXEC argv => WExec ((λ a, string_at b a.1) <$> argv)
  | REDIR c f m d => WRedir (strings_of b c) (string_at b f.1) m d
  | PIPE l r => WPipe (strings_of b l) (strings_of b r)
  | LIST l r => WList (strings_of b l) (strings_of b r)
  | BACK c => WBack (strings_of b c)
  end.
Lemma strings_words b c : (∀ a, a ∈ tokens c → string_at b a.1 = word_of a) → strings_of b c = words_of c.
Proof.
  induction c as [argv|c IH f m d|l IHl r IHr|l IHl r IHr|c IH]; intros H; simpl in *.
  - f_equal. apply list_fmap_ext. intros i a Ha. apply H. by apply list_elem_of_lookup_2 in Ha.
  - rewrite IH by (intros; apply H; set_solver). by rewrite H by set_solver.
  - by rewrite IHl, IHr by (intros; apply H; set_solver).
  - by rewrite IHl, IHr by (intros; apply H; set_solver).
  - by rewrite IH.
Qed.
Lemma printed_nonzero : (∀ l, line_ok l → Forall (λ c, c ≠ 0) (print_line l)) ∧ (∀ p, pipe_ok p → Forall (λ c, c ≠ 0) (print_pipe p)) ∧ (∀ e, simple_ok e → Forall (λ c, c ≠ 0) (print_simple e)).
Proof.
  assert (∀ w, word_ok w → Forall (λ c, c ≠ 0) w) as Hword.
  { intros w [_ Hw]. eapply Forall_impl; [exact Hw|]. intros x Hx ->. done. }
  assert (∀ rs, redirs_ok rs → Forall (λ c, c ≠ 0) (print_redirs rs)) as Hredirs.
  { intros rs H. unfold print_redirs. apply Forall_concat, Forall_fmap. eapply Forall_impl; [exact H|]. intros [k w] Hw. simpl. unfold print_redir. apply Forall_app. split; [by destruct k; repeat constructor|]. constructor; [done|]. apply Forall_app. split; [by apply Hword|by repeat constructor]. }
  assert (∀ bg, Forall (λ c, c ≠ 0) (concat (replicate bg [38; 32]))) as Hbg by (intros bg; induction bg; [done|by repeat constructor]).
  assert (∀ args, Forall (λ a, word_ok a.1 ∧ redirs_ok a.2) args → Forall (λ c, c ≠ 0) (print_args args)) as Hargs.
  { intros args H. unfold print_args. apply Forall_concat, Forall_fmap. eapply Forall_impl; [exact H|]. intros [w rs] [Hw Hrs]. simpl in *. apply Forall_app. split; [by apply Hword|]. constructor; [done|by apply Hredirs]. }
  apply grammar_ind; cbn [line_ok pipe_ok simple_ok print_line print_pipe print_simple]; intros; rewrite ?Forall_app; destruct_and?; split_and?; eauto; by repeat constructor.
Qed.

(** C34: The shell parses what it means to.  For every line of the shell's
    grammar (lists, background commands, pipelines, blocks in parentheses,
    redirections before, between and after the arguments), [parsecmd] of the
    printed line returns a command, without a panic and without leftovers, and
    the strings its pointers denote in the line that [nulterminate] has cut up
    are the words of the line, in the command that the line means. *)
Theorem shell_parses l : line_ok l →
  ∃ c b, parsecmd (print_line l) = URet (c, b) ∧ strings_of b c = meaning l.
Proof.
  intros Hl. set (buf := print_line l). assert (Forall (λ c, c ≠ 0) buf) as Hz by (by apply printed_nonzero).
  destruct (proj1 parse_print l Hl (parse_fuel (length buf)) []) as (c & E & Ew); [by repeat split; auto|by rewrite app_nil_r|]. rewrite app_nil_r in E.
  pose proof (proj1 (parse_tracks buf Hz (parse_fuel (length buf)) buf ltac:(done))) as Ht. fold buf in E. rewrite E in Ht. destruct Ht as [_ Hg].
  exists c, (nulterminate c (buf ++ [0])). split; [unfold parsecmd; by rewrite E|]. rewrite <- Ew. apply strings_words.
  intros a Ha. pose proof (zeros_ended buf (tokens c) _ [] (line_ended buf) Hg) as Hend. rewrite <- nulterminate_zeros in Hend.
  apply (string_at_word buf _ (tokens c)); [done|done|by apply (proj1 (Forall_forall _ _) Hg)].
Qed.
Lemma shell_parses_witness :
  let l := LineSeq (PipeSeq (Simple [(RIn, str "in")] [(str "grep", []); (str "x", [(ROut, str "out")])]) (PipeEnd (Simple [] [(str "wc", [])]))) 1
             (LineEnd (PipeEnd (Block (LineEnd (PipeEnd (Simple [] [(str "ls", [])])) 0) [(RAppend, str "log")])) 0) in
  line_ok l ∧ ∃ c b, parsecmd (print_line l) = URet (c, b) ∧ strings_of b c = meaning l.
Proof.
  intros l. assert (line_ok l) as Hl; [|split; [exact Hl|exact (shell_parses l Hl)]].
  repeat (split || constructor); done.
Defined.
